(* ===== verification/_CoqProject ===== *)
-Q . S2P
Prelude.v
Effects.v
GoStrings.v
NetIP.v
GoEncoding.v
Endpoint.v
Plan.v
PlanSafety.v
PlanLaws.v
PlanExamples.v
Document.v
DocumentGraph.v
Executor.v
DocumentCanonical.v
Queue.v
QueueLaws.v
Scheduling.v
Client.v
ClientLaws.v
Claims.v
Manager.v
ClaimsLaws.v
ClaimHistory.v
SharedClient.v
SharedLaws.v
ClaimExamples.v
Policy.v
PolicyLaws.v
QueueExamples.v
DocumentExamples.v
ClientExamples.v
Sources.v
Gateways.v
SourcesLaws.v
ChangePlans.v
ChangePlansLaws.v
Runner.v
RunnerLaws.v
Apply.v
ApplyLaws.v
RunnerExamples.v
Settings.v
SettingsLaws.v
Targets.v
TargetsLaws.v
Runtimes.v
RuntimesLaws.v
TargetExamples.v
StatusWriter.v
StatusLaws.v
Workers.v
Platform.v
PlatformLaws.v
PlatformExamples.v
EventsLaws.v
Metrics.v
MetricsLaws.v
Command.v
CommandLaws.v
ProcessExamples.v
PlanFile.v
PlanFileLaws.v
Lifecycle.v
LifecycleLaws.v
LifecycleExamples.v
Memory.v
ApiObjects.v
ApiObjectsLaws.v
DynamicStore.v
DynamicExamples.v
Secrets.v
SliceCache.v
Polling.v
Wiring.v
EdgeExamples.v
