(* ===== verification/Prelude.v ===== *)
(** * FortiGate ExternalDNS: a verification library

    The program publishes DNS names of Kubernetes resources into a zone of a
    FortiGate DNS database.  One reconciliation cycle

    - discovers the wanted records from Services, Ingresses, Gateways and
      HTTPRoutes (internal/source),
    - filters them by namespace policies (internal/policy),
    - reads the zone with a stable revision (internal/fortigate),
    - plans operations that lead from the rows to the wanted records
      (internal/plan/plan.go) under ownership and cleanup rules
      (internal/controller/runner.go),
    - freezes the plan in a canonical, hashed document (internal/plan/document.go)
      that is stored for approval (internal/plan/store.go, crd.go), and
    - after approval and revalidation applies it (runner.go, client.go); a second
      path executes a document with prerequisites (internal/plan/executor.go).

    In platform mode there are several targets (internal/target): definitions
    validated and isolated from each other, credentials, and a runtime each.  A
    work queue (internal/workqueue) decides which target runs when.  A zone can
    be shared: then every record the controller writes is backed by a claim
    object (internal/ownership), and its client goes through the claims
    (cmd/fortigate-external-dns/shared.go).  The settings of the process come
    from internal/config.

    Around this, informers turn changes of the cluster into events for the targets
    they concern, workers take targets from the queue (internal/controller,
    platform_*.go), target mode loads, synchronizes and audits the targets
    (cmd/fortigate-external-dns/platform.go), results go to the status of the
    targets (internal/status) and to metrics (internal/metrics), and the process
    answers probes (internal/serve) and holds a Lease while it works (main.go).

    ** Files

    - Prelude: notations, the [result] type, boolean reflection ([bools]), the
      hint databases [fgdns] and [fgdns_rw], Go's string order, [sort_slice]
      (the order of equal elements is that of insertion sort; statements depend
      on it only where keys are distinct), folds, and [MapRange]: an arbitrary
      iteration order of Go maps, so that a theorem holds for every order.
    - Effects: a state and error monad with Hoare triples, for code that threads
      a world and errors through many calls.
    - GoStrings, NetIP, GoEncoding: the parts of the strings, net, net/netip,
      encoding/json, encoding/hex and crypto/sha256 packages the program uses,
      on byte strings.
    - Endpoint: internal/dns/endpoint.go.
    - Plan: internal/plan/plan.go, one definition per phase of
      [BuildWithCleanupScope].  PlanSafety and PlanLaws prove what a plan may
      and must contain; PlanExamples evaluates it.
    - Document, DocumentGraph, DocumentCanonical: internal/plan/document.go:
      sanitizing, validation, dependency cycles, canonical form and hash.
      Executor: internal/plan/executor.go.
    - ChangePlans, ChangePlansLaws: internal/plan/store.go, crd.go and
      [VerifyApprovedHash] of file.go; the API server is the record [PlanAPI] of
      operations on a world state.  PlanFile, PlanFileLaws: [WriteCanonicalFile]
      of file.go on a file system whose calls can fail and that other processes
      use too.
    - Queue, QueueLaws: internal/workqueue/queue.go and types.go.  client-go's
      queue is the class [ClientQueue] with its documented laws
      [ClientQueueLaws]; QueueExamples gives an instance.  Scheduling: events.go,
      resync.go, schedule.go, sync.go.
    - Client, ClientLaws: internal/fortigate/client.go; device, clock and context
      are the record [Device] of operations on a world state.
    - Claims, Manager: internal/ownership (fingerprint.go, repository.go,
      manager.go); the API server is the record [ClaimStore], the device's
      snapshots [ClaimProvider].  SharedClient: shared.go on top of both.
      ClaimsLaws has the frame and release lemmas, ClaimHistory the interface
      [ClaimServer] (an API server by the versions it has stored) with what each
      operation may write, SharedLaws the theorems about shared zones, and
      ClaimExamples an in-memory server that satisfies the interface.
    - Policy, PolicyLaws: internal/policy/policy.go and store.go; label selectors
      are the class [Selectors].
    - Sources, Gateways, SourcesLaws: internal/source; IDNA conversion and the
      DNS-1123 validators are the classes [IDNA] and [KeyValidation] (its laws:
      [KeyValidationLaws]), the cluster is the record [Cluster].
    - Runner, RunnerLaws: the planning half of internal/controller/runner.go;
      Apply, ApplyLaws: [Prepare], [applyPrepared] and [RunOnce], on the client,
      the plan store and the cluster sharing one world.
    - Settings, SettingsLaws: internal/config/config.go and the choice of a
      transport (internal/fortigate/transport_policy.go); what the process
      environment provides is the class [Platform].
    - Targets, TargetsLaws: internal/target/target.go and router.go; Runtimes,
      RuntimesLaws: credentials.go and runtime.go, on factories given by the
      record [ManagerEnv], whose handles obey the class [Handles].
    - StatusWriter, StatusLaws: internal/status/writer.go on an API server given by
      the record [StatusAPI].
    - Workers: heartbeat.go, platform_mapper.go, platform_semantic.go,
      platform_informers.go and [processTarget] of platform_runtime.go in
      internal/controller; EventsLaws proves what events and informers cover.
      Lifecycle, LifecycleLaws: [NewPlatformRuntime] and [Run] of
      platform_runtime.go with all its goroutines: the workers, the loop of
      internal/workqueue/resync.go, and the informers with [Handle] of events.go in
      their handlers, as the step relation [rstep].
    - Platform, PlatformLaws: cmd/fortigate-external-dns/platform.go; the cluster,
      the clock and the recorder are the record [PlatformEnv], the runner of a
      target is the interface [RunnerSteps], which [exclusive_steps] of Wiring
      implements with [Prepare] and [applyPrepared] for targets that own their zone.
    - Metrics, MetricsLaws: internal/metrics.
    - Command, CommandLaws: main.go (modes, exit codes, leader election as the step
      relation [election_step]) and internal/serve/serve.go.
    - Memory: structs with references into a heap, the values they stand for, and
      deep copies, for any type of cells.  ApiObjects, ApiObjectsLaws: the types of
      internal/apis/v1alpha1 and [DeepCopyObject] of deepcopy.go, [cloneDefinition]
      of internal/target/runtime.go; apimachinery's metadata is the class
      [ApiMachinery].
    - DynamicStore: [DynamicStore] of internal/ownership/repository.go over the
      unstructured objects of conversion.go; the converter is the class [Converter],
      the API server the class [DynamicServer].
    - Secrets: what is logged and what stays in memory of a token (config.go,
      runtime.go, credentials.go).  SliceCache: [listEndpointSlices] of
      internal/source/kubernetes.go.  Polling: [Run] of runner.go with its ticker and
      observers.  Wiring: the factories of platform.go, the constructors of stores and
      clients, and the runner of an exclusive target.
    - DocumentExamples, ClientExamples, RunnerExamples, TargetExamples,
      PlatformExamples, ProcessExamples, LifecycleExamples, DynamicExamples,
      EdgeExamples: the theorems applied to concrete inputs, with instances of every
      interface.

    ** What the theorems show

    - Planning: every operation is justified by the input (no foreign row is
      touched, nothing outside the cleanup scope is removed), every desired record
      (the last of those with one key) is accounted for, a conflict isolates its record, CNAME exclusivity holds,
      removals wait for creates of the same name, a converged zone gives the empty
      plan, and the plan is in execution order.
    - The cycle: removals need complete discovery, valid policies, scope and
      ownership; a restricted controller only fills absent names; the
      mass-cleanup guard bounds removals.
    - Approval: an accepted stored plan is exactly the one its document gives;
      status writes go to the approved object only; nothing is sent before exact
      approval, an identical fresh plan, the checked transitions of the stored
      object and confirmed authority, in this order.
    - The document: the hash does not depend on the order of the parts, the cycle
      check is exact, execution visits every operation and never runs one before
      its prerequisites.
    - The client: at most one create request, idempotent retries, consistent
      listings, a failed prerequisite blocks the cleanup of its name, one outcome
      per operation, dry runs send nothing, and the runner accepts what the client
      returns exactly when the context lives until the conflicts are reported.
    - Policies, sources and queue: what is allowed satisfies every matching
      constraint and quota; what is published lies in the zone and the filters
      and within the budget; an event is never lost, back-off is respected,
      forgotten targets stay silent.

    - Shared zones: a row is changed only under a live, unique and confirmed
      claim, unchanged since it was planned, whose own row the device still has as
      claimed; a record is created only after
      a claim for it was reserved; every confirmed claim ever stored is bound to
      a provider row; a claim is released only when its row is gone.
    - Settings and targets: validated settings cannot delete by accident, a
      misspelt variable never falls back to a default; runnable targets never
      overlap and a newcomer never revokes one; routing is total and exact; a
      token is sent only where its Secret's owner allows; the open clients and
      stores are exactly those of the runtimes, through every synchronization.

    - Events and workers: every object discovery reads is watched, an event wakes
      every target that reads its object, noise is not an event; a target is
      processed with synchronized caches only, and cleaned up only on complete
      evidence; no two workers handle one target; the runtime stops when it is
      told to, provided the calls it makes return, and returns only when all it
      started, the informers and their handlers included, has ended.
    - Target mode and process: an audit is applied only while runtime, target
      object and credentials are current; failures do not end target mode;
      conditions in the status are honest and its history bounded; metrics stay
      bounded; the Lease outlives the work it protects; the plan file is written
      atomically; a failed cycle does not end polling.
    - Objects in memory: a copied API object or definition has the value of the
      original and shares nothing with it.  The store behind the dynamic client, which
      keeps times to the second, is a [ClaimServer], so that the theorems about
      claims hold for it.  A synchronized
      cache of slices gives what the API server would have listed.
    - Secrets: the client of a target sends its token only to the URL the Secret's
      owner has bound it to, over verified https and without redirects; the log
      lines do not show it; the bytes of the material are zero after use.

    ** Integers, fuel and bounds

    Go's [int] and [int64] are [Z]; where the code parses or masks to a width the
    bound is written out (ParseInt, durations, [be_uint64]).  Counters bounded by
    the size of the input cannot overflow and are not wrapped.  Loops over a
    finite input are structural.  Three loops are not: the listing of the client
    ([list_loop]), whose fuel is shown never to run out
    ([ListRecords_terminates]); [Get] of the queue, where each step removes a
    candidate ([Get_terminates]); and the execution and cycle searches of a
    document, with fuel from the number of operations ([Execute_complete],
    [dependencyCycle_exact]).  [retry.DefaultRetry] is its five attempts.  A
    context is read as an operation on the world, so that it may end between any
    two reads.

    ** Not modelled

    Log lines, except where they could show a secret; HTTP, TLS and dialling
    below [Device] and the API servers; the watches and caches of client-go's
    informers (their contents are what the environment supplies; how informers
    start, hand out events and stop is part of Lifecycle), its elector, and the
    registration
    of types in a scheme (register.go), which only calls apimachinery; the
    construction of Kubernetes clients (kube.go) and of the HTTP transport below
    its policy; the workers of [RunSelected] run one after the other, and
    [processTarget] and a pass of the periodic enqueuer are one step each in
    Lifecycle; which sentinels an error of a runner wraps for the conditions of a
    target ([audit_error]); the syntax of the
    flag package; the text of samples and floating-point sums of metrics; the
    fallback for providers that report no results, of which the program has
    none. A nil and an empty list are one value, and so are a nil and an empty
    map. The loops of target mode ([polling_loop], [runEventTargetMode]) and of
    the polling runner run for as many rounds as their fuel says: they are meant
    to run until the context ends, and the theorems about them hold for every
    fuel. *)
From Stdlib Require Import String Ascii ZArith Lia.
From stdpp Require Export base gmap strings list sorting.

Open Scope string_scope.
Open Scope list_scope.

#[global] Arguments String.append : simpl nomatch.
#[global] Arguments String.eqb : simpl never.
#[global] Arguments String.ltb : simpl never.

(** ** Notations of the development *)

Declare Scope go_scope.
Delimit Scope go_scope with go.

(** String equality and byte-wise order as Go's [==] and [<] on strings. *)
Infix "=s" := String.eqb (at level 70) : go_scope.
Infix "<s" := String.ltb (at level 70) : go_scope.
Open Scope go_scope.

(** A Go call [v, err := f()] returns one of the two. *)
Inductive result (E A : Type) : Type :=
| Ok (v : A)
| Err (e : E).
Arguments Ok {E A} v.
Arguments Err {E A} e.

Definition rbind {E A B} (m : result E A) (k : A -> result E B) : result E B :=
  match m with Ok v => k v | Err e => Err e end.

Notation "'let?' x ':=' m 'in' k" := (rbind m (fun x => k))
  (at level 10, x pattern, m at level 100, k at level 200) : go_scope.

Definition is_ok {E A} (m : result E A) : bool := match m with Ok _ => true | Err _ => false end.

(** ** Boolean reflection *)

Create HintDb fgdns.
Create Rewrite HintDb fgdns_rw.

Lemma eqb_eq_iff (a b : string) : (a =s b) = true <-> a = b.
Proof. apply String.eqb_eq. Qed.

Lemma eqb_neq_iff (a b : string) : (a =s b) = false <-> a <> b.
Proof. apply String.eqb_neq. Qed.

(** [bools] turns the boolean tests of the code in the hypotheses and the goal
    into the propositions they decide. *)
Ltac bools :=
  repeat match goal with
  | H : _ && _ = true |- _ => apply andb_true_iff in H; destruct H
  | H : _ || _ = false |- _ => apply orb_false_iff in H; destruct H
  | H : negb _ = true |- _ => apply negb_true_iff in H
  | H : negb _ = false |- _ => apply negb_false_iff in H
  | H : (_ =s _) = true |- _ => apply eqb_eq_iff in H
  | H : (_ =s _) = false |- _ => apply eqb_neq_iff in H
  | |- _ && _ = true => apply andb_true_iff; split
  | |- _ || _ = false => apply orb_false_iff; split
  | |- negb _ = true => apply negb_true_iff
  | |- negb _ = false => apply negb_false_iff
  | |- (_ =s _) = true => apply eqb_eq_iff
  | |- (_ =s _) = false => apply eqb_neq_iff
  end.

(** ** Byte-wise order on strings *)

Lemma str_ltb_compare (a b : string) : (a <s b) = true <-> String.compare a b = Lt.
Proof. unfold String.ltb. destruct (String.compare a b); naive_solver. Qed.

Lemma str_compare_refl (a : string) : String.compare a a = Eq.
Proof.
  induction a as [|c a IH]; [done|]. simpl.
  unfold Ascii.compare. by rewrite N.compare_refl.
Qed.

Lemma str_ltb_irrefl (a : string) : (a <s a) = false.
Proof. unfold String.ltb. by rewrite str_compare_refl. Qed.

Lemma str_ltb_asym (a b : string) : (a <s b) = true -> (b <s a) = false.
Proof.
  rewrite str_ltb_compare. unfold String.ltb. rewrite String.compare_antisym.
  by destruct (String.compare b a).
Qed.

Lemma ascii_compare_lt_trans (x y z : ascii) :
  Ascii.compare x y = Lt -> Ascii.compare y z = Lt -> Ascii.compare x z = Lt.
Proof. unfold Ascii.compare. rewrite !N.compare_lt_iff. lia. Qed.

Lemma str_ltb_trans (a b c : string) : (a <s b) = true -> (b <s c) = true -> (a <s c) = true.
Proof.
  rewrite !str_ltb_compare. revert b c.
  induction a as [|x a IH]; intros [|y b] [|z c] H1 H2; simpl in *; try done.
  destruct (Ascii.compare x y) eqn:E1; try done;
  destruct (Ascii.compare y z) eqn:E2; try done.
  - apply Ascii.compare_eq_iff in E1 as ->. rewrite E2. eauto.
  - apply Ascii.compare_eq_iff in E1 as ->. by rewrite E2.
  - apply Ascii.compare_eq_iff in E2 as ->. by rewrite E1.
  - by rewrite (ascii_compare_lt_trans x y z).
Qed.

Lemma str_ltb_total (a b : string) : (a <s b) = false -> (b <s a) = false -> a = b.
Proof.
  unfold String.ltb. rewrite (String.compare_antisym b a).
  destruct (String.compare a b) eqn:E; simpl; try done.
  intros _ _. by apply String.compare_eq_iff.
Qed.

Lemma str_le_trans (a b c : string) : (b <s a) = false -> (c <s b) = false -> (c <s a) = false.
Proof.
  intros H1 H2. destruct (c <s a) eqn:E; [|done].
  destruct (a <s b) eqn:E2.
  - by rewrite (str_ltb_trans c a b) in H2.
  - rewrite (str_ltb_total a b) in E by done. congruence.
Qed.
#[export] Hint Resolve str_ltb_irrefl str_ltb_asym str_ltb_trans str_le_trans : fgdns.

(** ** Sorting

    [sort.Slice] and [sort.SliceStable] take the boolean [less] of the caller.
    [sort_slice] is the insertion sort both run on short slices.  It is stable,
    which [sort.SliceStable] promises; of [sort.Slice] the proofs use only the
    permutation law and, where [less] is a strict weak order, sortedness. *)

Section sorting.
Context {A : Type} (less : A -> A -> bool).

Fixpoint insert_sorted (x : A) (l : list A) : list A :=
  match l with
  | [] => [x]
  | y :: l' => if less x y then x :: l else y :: insert_sorted x l'
  end.

Definition sort_slice (l : list A) : list A := foldl (fun acc x => insert_sorted x acc) [] l.

Definition not_after (x y : A) : Prop := less y x = false.

Lemma insert_sorted_perm x l : insert_sorted x l ≡ₚ x :: l.
Proof.
  induction l as [|y l IH]; simpl; [done|]. destruct (less x y); [done|].
  rewrite IH. apply Permutation_swap.
Qed.

Lemma sort_slice_perm_acc acc l :
  foldl (fun acc x => insert_sorted x acc) acc l ≡ₚ l ++ acc.
Proof.
  revert acc; induction l as [|x l IH]; intros acc; simpl; [done|].
  rewrite IH, insert_sorted_perm. by rewrite Permutation_middle.
Qed.

Lemma sort_slice_perm l : sort_slice l ≡ₚ l.
Proof. unfold sort_slice. rewrite sort_slice_perm_acc. by rewrite app_nil_r. Qed.

Lemma elem_of_sort_slice x l : x ∈ sort_slice l <-> x ∈ l.
Proof. by rewrite sort_slice_perm. Qed.

Lemma length_sort_slice l : length (sort_slice l) = length l.
Proof. apply Permutation_length, sort_slice_perm. Qed.

Hypothesis less_asym : forall x y, less x y = true -> less y x = false.
Hypothesis le_trans : forall x y z, less y x = false -> less z y = false -> less z x = false.

Lemma insert_sorted_sorted x l :
  StronglySorted not_after l -> StronglySorted not_after (insert_sorted x l).
Proof using less_asym le_trans.
  induction l as [|y l IH]; intros Hs; simpl; [repeat constructor|].
  apply StronglySorted_inv in Hs as [Hs Hall].
  destruct (less x y) eqn:E.
  - constructor; [by constructor|]. constructor; [by apply less_asym|].
    eapply Forall_impl; [exact Hall|]. intros z Hz. unfold not_after in *.
    eapply le_trans; [by apply less_asym|done].
  - constructor; [by apply IH|].
    rewrite insert_sorted_perm. by constructor.
Qed.

Lemma sort_slice_sorted l : StronglySorted not_after (sort_slice l).
Proof using less_asym le_trans.
  unfold sort_slice.
  assert (H : StronglySorted not_after []) by constructor.
  revert H. generalize (@nil A). induction l as [|x l IH]; intros acc H; simpl; [done|].
  apply IH. by apply insert_sorted_sorted.
Qed.
End sorting.

(** ** Sorting by a string key *)

Section sort_key.
Context {A : Type} (key : A -> string).

Definition sort_by_key (l : list A) : list A := sort_slice (fun x y => key x <s key y) l.

Lemma sort_by_key_perm l : sort_by_key l ≡ₚ l.
Proof. apply sort_slice_perm. Qed.

Lemma sort_by_key_sorted l : StronglySorted (fun x y => (key y <s key x) = false) (sort_by_key l).
Proof. apply (sort_slice_sorted (fun x y => key x <s key y)); eauto with fgdns. Qed.

(** Two lists sorted by the same key with the same elements and distinct keys are equal. *)
Lemma key_sorted_unique l1 l2 :
  StronglySorted (fun x y => (key y <s key x) = false) l1 ->
  StronglySorted (fun x y => (key y <s key x) = false) l2 ->
  NoDup (key <$> l1) -> l1 ≡ₚ l2 -> l1 = l2.
Proof.
  revert l2. induction l1 as [|x l1 IH]; intros l2 H1 H2 Hnd Hp.
  { by apply Permutation_nil_l in Hp as ->. }
  destruct l2 as [|y l2]; [by apply Permutation_nil_r in Hp|].
  apply StronglySorted_inv in H1 as [H1 F1]. apply StronglySorted_inv in H2 as [H2 F2].
  rewrite Forall_forall in F1, F2. rewrite fmap_cons, NoDup_cons in Hnd. destruct Hnd as [Hx Hnd].
  assert (x = y) as ->.
  { assert (Hy : y ∈ x :: l1) by (rewrite Hp; left).
    assert (Hx' : x ∈ y :: l2) by (rewrite <- Hp; left).
    rewrite elem_of_cons in Hy, Hx'. destruct Hy as [->|Hy]; [done|].
    destruct Hx' as [->|Hx']; [done|].
    destruct Hx. rewrite (str_ltb_total (key x) (key y)); eauto using list_elem_of_fmap_2. }
  f_equal. apply IH; try done. by apply Permutation_cons_inv in Hp.
Qed.

(** The same with repeated elements, when the key tells different elements apart. *)
Lemma key_sorted_unique_inj l1 l2 :
  StronglySorted (fun x y => (key y <s key x) = false) l1 ->
  StronglySorted (fun x y => (key y <s key x) = false) l2 ->
  (forall x y, x ∈ l1 -> y ∈ l1 -> key x = key y -> x = y) -> l1 ≡ₚ l2 -> l1 = l2.
Proof.
  revert l2. induction l1 as [|x l1 IH]; intros l2 H1 H2 Hinj Hp.
  { by apply Permutation_nil_l in Hp as ->. }
  destruct l2 as [|y l2]; [by apply Permutation_nil_r in Hp|].
  apply StronglySorted_inv in H1 as [H1 F1]. apply StronglySorted_inv in H2 as [H2 F2].
  rewrite Forall_forall in F1, F2.
  assert (Hy : y ∈ x :: l1) by (rewrite Hp; left).
  assert (Hx' : x ∈ y :: l2) by (rewrite <- Hp; left).
  assert (x = y) as <-.
  { apply elem_of_cons in Hy as Hy'. destruct Hy' as [->|Hy']; [done|].
    apply elem_of_cons in Hx' as [->|Hx']; [done|].
    apply Hinj; [left|done|]. apply str_ltb_total; auto. }
  f_equal. apply IH; try done; [|by apply Permutation_cons_inv in Hp].
  intros; apply Hinj; try by right. done.
Qed.

Lemma sort_by_key_inj_eq l1 l2 : (forall x y, x ∈ l1 -> y ∈ l1 -> key x = key y -> x = y) -> l1 ≡ₚ l2 ->
  sort_by_key l1 = sort_by_key l2.
Proof.
  intros Hinj Hp. apply key_sorted_unique_inj; try apply sort_by_key_sorted.
  - intros x y. rewrite !sort_by_key_perm. apply Hinj.
  - by rewrite !sort_by_key_perm.
Qed.

Lemma sort_by_key_perm_eq l1 l2 : NoDup (key <$> l1) -> l1 ≡ₚ l2 -> sort_by_key l1 = sort_by_key l2.
Proof.
  intros Hnd Hp. apply key_sorted_unique; try apply sort_by_key_sorted.
  - by rewrite sort_by_key_perm.
  - by rewrite !sort_by_key_perm.
Qed.
End sort_key.

(** ** Iteration over Go maps

    [range m] visits the entries of a map in an unspecified order that may
    differ from one statement to the next.  The model takes the order as a
    parameter, indexed by the number of the statement, and assumes only that
    every entry is visited exactly once. *)

Class MapRange := {
  map_range (site : nat) {A : Type} : gmap string A -> list (string * A);
  map_range_perm (site : nat) {A : Type} (m : gmap string A) : map_range site m ≡ₚ map_to_list m
}.

(** One possible order, used to evaluate the definitions. *)
Definition canonical_range : MapRange :=
  {| map_range _ A m := map_to_list m; map_range_perm _ A m := Permutation_refl _ |}.

(** The reverse order: a second instance, to compare two runs. *)
Definition reverse_range : MapRange.
Proof.
  refine {| map_range _ A m := rev (map_to_list m) |}.
  intros _ A m. symmetry. apply Permutation_rev.
Defined.

Section map_range.
Context `{MapRange}.

Lemma elem_of_map_range site {A} (m : gmap string A) k v :
  (k, v) ∈ map_range site m <-> m !! k = Some v.
Proof. by rewrite map_range_perm, elem_of_map_to_list. Qed.

Lemma NoDup_map_range_keys site {A} (m : gmap string A) : NoDup (map_range site m).*1.
Proof. rewrite map_range_perm. apply NoDup_fst_map_to_list. Qed.

Lemma NoDup_map_range site {A} (m : gmap string A) : NoDup (map_range site m).
Proof. rewrite map_range_perm. apply NoDup_map_to_list. Qed.
End map_range.

(** ** Loops

    A Go loop that updates local variables is a left fold over the sequence it
    ranges over. *)

Lemma foldl_ind {A B} (P : B -> Prop) (f : B -> A -> B) (b : B) (l : list A) :
  P b -> (forall b x, x ∈ l -> P b -> P (f b x)) -> P (foldl f b l).
Proof.
  revert b. induction l as [|x l IH]; intros b Hb Hf; simpl; [done|].
  apply IH; [apply Hf; [left|done]|]. intros; apply Hf; [by right|done].
Qed.

(** Induction that also tracks the elements already visited. *)
Lemma foldl_ind_done {A B} (P : list A -> B -> Prop) (f : B -> A -> B) (b : B) (l : list A) :
  P [] b ->
  (forall done b x, x ∈ l -> P done b -> P (done ++ [x]) (f b x)) ->
  P l (foldl f b l).
Proof.
  intros Hb Hf.
  assert (G : forall l' done b', (forall x, x ∈ l' -> x ∈ l) -> P done b' -> P (done ++ l') (foldl f b' l')).
  { induction l' as [|x l' IH]; intros dn b' Hl HP; simpl; [by rewrite app_nil_r|].
    rewrite (cons_middle x dn l'), app_assoc. apply IH.
    - intros y Hy. apply Hl. by right.
    - apply Hf; [apply Hl; left|done]. }
  by apply (G l [] b).
Qed.

Lemma elem_of_snoc {A} (l : list A) x : x ∈ l ++ [x].
Proof. apply elem_of_app. right. by apply list_elem_of_singleton. Qed.

Lemma foldl_perm {A B} (R : relation B) `{!PreOrder R} (f : B -> A -> B) (b : B) (l1 l2 : list A) :
  (forall x, Proper (R ==> R) (fun b => f b x)) ->
  (forall b x y, R (f (f b x) y) (f (f b y) x)) ->
  l1 ≡ₚ l2 -> R (foldl f b l1) (foldl f b l2).
Proof.
  intros Hp Hc Hl. revert b. assert (G : forall l b1 b2, R b1 b2 -> R (foldl f b1 l) (foldl f b2 l)).
  { induction l as [|x l IH]; intros b1 b2 Hb; simpl; [done|]. apply IH. by apply Hp. }
  induction Hl; intros b; simpl.
  - reflexivity.
  - apply IHHl.
  - apply G. apply Hc.
  - etrans; [apply IHHl1|apply IHHl2].
Qed.

(** ** Maps of slices: [m[f(e)] = append(m[f(e)], e)] over a slice *)

Section group_by.
Context {A : Type} (f : A -> string).

Definition append_at (m : gmap string (list A)) (k : string) (e : A) : gmap string (list A) :=
  <[k := default [] (m !! k) ++ [e]]> m.

Lemma append_at_new m k e : e ∈ default [] (append_at m k e !! k).
Proof. unfold append_at. rewrite lookup_insert_eq. apply elem_of_app. right. by apply list_elem_of_singleton. Qed.
Lemma append_at_mono m k k' e x : x ∈ default [] (m !! k') -> x ∈ default [] (append_at m k e !! k').
Proof.
  unfold append_at. rewrite lookup_insert. case_decide as E; [subst|done]. intros Hx. apply elem_of_app. by left.
Qed.

Definition group_by (l : list A) : gmap string (list A) :=
  foldl (fun m e => append_at m (f e) e) ∅ l.

Lemma group_by_foldl m l k :
  default [] (foldl (fun m e => append_at m (f e) e) m l !! k)
  = default [] (m !! k) ++ filter (fun e => f e = k) l.
Proof.
  revert m. induction l as [|e l IH]; intros m; simpl; [by rewrite app_nil_r|].
  rewrite IH. unfold append_at. rewrite filter_cons. case_decide as E.
  - subst. rewrite lookup_insert_eq. simpl. by rewrite <- app_assoc.
  - by rewrite lookup_insert_ne.
Qed.

Lemma group_by_default l k : default [] (group_by l !! k) = filter (fun e => f e = k) l.
Proof. unfold group_by. by rewrite group_by_foldl, lookup_empty. Qed.

Lemma group_by_nonempty_aux m l k :
  (forall k, m !! k <> Some []) -> foldl (fun m e => append_at m (f e) e) m l !! k <> Some [].
Proof.
  revert m. induction l as [|e l IH]; intros m Hm; simpl; [done|]. apply IH. intros k'.
  unfold append_at. rewrite lookup_insert. case_decide; [|done].
  destruct (default [] (m !! f e)); done.
Qed.

Lemma group_by_lookup l k es :
  group_by l !! k = Some es <-> es = filter (fun e => f e = k) l /\ es <> [].
Proof.
  pose proof (group_by_default l k) as Hd.
  pose proof (group_by_nonempty_aux ∅ l k) as Hne. fold (group_by l) in Hne.
  destruct (group_by l !! k) as [es'|]; simpl in *.
  - split.
    + intros [= ->]. split; [done|]. intros ->. destruct Hne; [|done]. intros; by rewrite lookup_empty.
    + by intros [-> _]; rewrite Hd.
  - split; [done|]. by intros [-> Hes].
Qed.

Lemma group_by_elem l k es e : group_by l !! k = Some es -> e ∈ es <-> e ∈ l /\ f e = k.
Proof. rewrite group_by_lookup. intros [-> _]. rewrite list_elem_of_filter. tauto. Qed.

Lemma group_by_perm l1 l2 k : l1 ≡ₚ l2 -> default [] (group_by l1 !! k) ≡ₚ default [] (group_by l2 !! k).
Proof. intros Hp. rewrite !group_by_default. by apply filter_Permutation. Qed.
End group_by.
