(* ===== verification/Effects.v ===== *)
(** * Effectful code

    Code that threads a world (the API server, the device) and errors through
    many calls is written in a small state and error monad.  Its Hoare triples
    have one postcondition for results and one for errors; [keeps] is the case
    of an invariant, with a hint database that walks through a program. *)
From S2P Require Import Prelude.
From Stdlib Require Import Lia.

(** ** The monad *)

Definition M (W E A : Type) : Type := W -> W * result E A.

Definition ret {W E A} (a : A) : M W E A := fun w => (w, Ok a).
Definition fail {W E A} (e : E) : M W E A := fun w => (w, Err e).
Definition bind {W E A B} (m : M W E A) (k : A -> M W E B) : M W E B :=
  fun w => match m w with (w, Ok a) => k a w | (w, Err e) => (w, Err e) end.

(** [_, _ = m]: the result is dropped. *)
Definition discard {W E F A} (m : M W E A) : M W F unit := fun w => ((m w).1, Ok tt).
(** The result, error or not, as a value. *)
Definition attempt {W E F A} (m : M W E A) : M W F (result E A) := fun w => let '(w, r) := m w in (w, Ok r).
(** [fmt.Errorf("...: %w", err)] and other translations of the error. *)
Definition wrap {W E F A} (f : E -> F) (m : M W E A) : M W F A :=
  fun w => match m w with (w, Ok a) => (w, Ok a) | (w, Err e) => (w, Err (f e)) end.
Definition lift {W E A} (r : result E A) : M W E A := fun w => (w, r).
(** [if !b { return e }]. *)
Definition require {W E} (b : bool) (e : E) : M W E unit := if b then ret tt else fail e.
Definition read {W E A} (f : W -> A) : M W E A := fun w => (w, Ok (f w)).
(** An observation that cannot fail, during which the world may move on. *)
Definition observe {W E A} (f : W -> W * A) : M W E A := fun w => let '(w, a) := f w in (w, Ok a).

Notation "'let!' x ':=' m 'in' k" := (bind m (fun x => k))
  (at level 10, x pattern, m at level 100, k at level 200) : go_scope.
Notation "'do!' m 'in' k" := (bind m (fun _ => k)) (at level 10, m at level 100, k at level 200) : go_scope.

Fixpoint each {W E A} (f : A -> M W E unit) (l : list A) : M W E unit :=
  match l with [] => ret tt | x :: l => bind (f x) (fun _ => each f l) end.

(** ** Errors of an API server *)

Inductive APIError := NotFound | Conflict | AlreadyExists | OtherError (e : string).

(** ** Hoare triples *)

Section hoare.
Context {W : Type}.

Definition hoare {E A} (P : W -> Prop) (m : M W E A) (Q : A -> W -> Prop) (R : E -> W -> Prop) : Prop :=
  forall w w' r, P w -> m w = (w', r) -> match r with Ok a => Q a w' | Err e => R e w' end.

Context {E A B : Type}.

Lemma hoare_ret (a : A) (Q : A -> W -> Prop) (R : E -> W -> Prop) : hoare (Q a) (ret a) Q R.
Proof. by intros w w' r HP [= <- <-]. Qed.

Lemma hoare_fail (e : E) (Q : A -> W -> Prop) (R : E -> W -> Prop) : hoare (R e) (fail e) Q R.
Proof. by intros w w' r HP [= <- <-]. Qed.

Lemma hoare_bind (P : W -> Prop) (m : M W E A) (k : A -> M W E B) Q' Q R :
  hoare P m Q' R -> (forall a, hoare (Q' a) (k a) Q R) -> hoare P (bind m k) Q R.
Proof.
  intros Hm Hk w w' r HP. unfold bind. destruct (m w) as [w1 [a|e]] eqn:Em.
  - pose proof (Hm _ _ _ HP Em) as H1. cbn in H1. intros E1. by apply (Hk a w1).
  - intros [= <- <-]. exact (Hm _ _ _ HP Em).
Qed.

Lemma hoare_conseq (P P' : W -> Prop) (m : M W E A) (Q Q' : A -> W -> Prop) (R R' : E -> W -> Prop) :
  hoare P' m Q' R' -> (forall w, P w -> P' w) -> (forall a w, Q' a w -> Q a w) -> (forall e w, R' e w -> R e w) ->
  hoare P m Q R.
Proof. intros Hm HP HQ HR w w' r Hw Em. specialize (Hm _ _ _ (HP _ Hw) Em). destruct r; auto. Qed.

Lemma hoare_pre (P P' : W -> Prop) (m : M W E A) (Q : A -> W -> Prop) (R : E -> W -> Prop) :
  hoare P' m Q R -> (forall w, P w -> P' w) -> hoare P m Q R.
Proof. intros Hm HP w w' r Hw. by apply Hm, HP. Qed.

Lemma hoare_wrap {F} (P : W -> Prop) (f : E -> F) (m : M W E A) (Q : A -> W -> Prop) (R : F -> W -> Prop) :
  hoare P m Q (fun e => R (f e)) -> hoare P (wrap f m) Q R.
Proof.
  intros Hm w w' r HP. unfold wrap. destruct (m w) as [w1 [a|e]] eqn:Em; intros [= <- <-]; exact (Hm _ _ _ HP Em).
Qed.

Lemma hoare_attempt {F} (P Q : W -> Prop) (m : M W E A) (R : F -> W -> Prop) :
  hoare P m (fun _ => Q) (fun _ => Q) -> hoare P (attempt m) (fun _ => Q) R.
Proof.
  intros Hm w w' r HP. unfold attempt. destruct (m w) as [w1 [a|e]] eqn:Em; intros [= <- <-]; exact (Hm _ _ _ HP Em).
Qed.

Lemma hoare_lift (r : result E A) (P : W -> Prop) (Q : A -> W -> Prop) (R : E -> W -> Prop) :
  (forall a w, P w -> r = Ok a -> Q a w) -> (forall e w, P w -> r = Err e -> R e w) -> hoare P (lift r) Q R.
Proof. intros HQ HR w w' r' HP [= <- <-]. destruct r; eauto. Qed.

Lemma hoare_require (b : bool) (e : E) (P : W -> Prop) (R : E -> W -> Prop) :
  (forall w, P w -> b = false -> R e w) -> hoare P (require b e) (fun _ w => P w /\ b = true) R.
Proof. intros HR w w' r HP. unfold require. destruct b; intros [= <- <-]; [done|auto]. Qed.

Lemma hoare_read (f : W -> A) (P : W -> Prop) (R : E -> W -> Prop) : hoare P (read f) (fun a w => P w /\ a = f w) R.
Proof. by intros w w' r HP [= <- <-]. Qed.
End hoare.

(** An invariant that every run keeps, whether it succeeds or fails. *)
Definition keeps {W E A} (I : W -> Prop) (m : M W E A) : Prop := hoare I m (fun _ => I) (fun _ => I).

Section keeps.
Context {W E F A B : Type} (I : W -> Prop).
#[local] Open Scope go_scope.

Lemma keeps_ret (a : A) : keeps I (ret (E := E) a).
Proof. by intros w w' r HI [= <- <-]. Qed.
Lemma keeps_fail (e : E) : keeps I (fail (A := A) e).
Proof. by intros w w' r HI [= <- <-]. Qed.
Lemma keeps_lift (r : result E A) : keeps I (lift r).
Proof. by apply hoare_lift. Qed.
Lemma keeps_read (f : W -> A) : keeps I (read (E := E) f).
Proof. by intros w w' r HI [= <- <-]. Qed.
Lemma keeps_observe (f : W -> W * A) : (forall w, I w -> I (f w).1) -> keeps I (observe (E := E) f).
Proof. intros Hf w w' r HI. specialize (Hf w HI). unfold observe. destruct (f w). by intros [= <- <-]. Qed.
Lemma keeps_require (b : bool) (e : E) : keeps I (require b e).
Proof. unfold require. destruct b; by intros w w' r HI [= <- <-]. Qed.
Lemma keeps_bind (m : M W E A) (k : A -> M W E B) : keeps I m -> (forall a, keeps I (k a)) -> keeps I (bind m k).
Proof. intros Hm Hk. eapply hoare_bind; [exact Hm|exact Hk]. Qed.
Lemma keeps_guard (b : bool) (e : E) (m : M W E A) : (b = true -> keeps I m) -> keeps I (do! require b e in m).
Proof. intros Hm. unfold bind, require. destruct b; cbn; [by apply Hm|]. by intros w w' r HI [= <- <-]. Qed.
Lemma keeps_discard (m : M W E A) : keeps I m -> keeps I (discard (F := F) m).
Proof.
  intros Hm w w' r HI. unfold discard. destruct (m w) as [w1 r1] eqn:Em. intros [= <- <-].
  specialize (Hm _ _ _ HI Em). by destruct r1.
Qed.
Lemma keeps_attempt (m : M W E A) : keeps I m -> keeps I (attempt (F := F) m).
Proof.
  intros Hm w w' r HI. unfold attempt. destruct (m w) as [w1 r1] eqn:Em. intros [= <- <-].
  specialize (Hm _ _ _ HI Em). by destruct r1.
Qed.
Lemma keeps_wrap (f : E -> F) (m : M W E A) : keeps I m -> keeps I (wrap f m).
Proof.
  intros Hm w w' r HI. unfold wrap. destruct (m w) as [w1 r1] eqn:Em. specialize (Hm _ _ _ HI Em).
  destruct r1; by intros [= <- <-].
Qed.
End keeps.

Lemma keeps_each {W E A} (I : W -> Prop) (f : A -> M W E unit) l : (forall x, keeps I (f x)) -> keeps I (each f l).
Proof. intros Hf. induction l as [|x l IH]; cbn [each]; [apply keeps_ret|]. by apply keeps_bind. Qed.

Lemma hoare_keeps {W E A} (I : W -> Prop) (m : M W E A) : keeps I m -> hoare I m (fun _ => I) (fun _ => I).
Proof. done. Qed.

Create HintDb effects.
#[export] Hint Resolve keeps_ret keeps_fail keeps_lift keeps_read keeps_require keeps_bind keeps_discard keeps_attempt
  keeps_wrap keeps_each : effects.

(** [walk] steps through a program of a [keeps] goal: binds, tests and calls. *)
Ltac walk :=
  repeat first
    [ solve [auto with effects]
    | apply keeps_bind; [|intros ?]
    | apply keeps_discard | apply keeps_attempt | apply keeps_wrap | apply keeps_each; intros ?
    | match goal with |- keeps _ (match ?x with _ => _ end) => destruct x eqn:?
                    | |- keeps _ (if ?x then _ else _) => destruct x eqn:? end ].

(** Taking a run apart: what ran before a result was returned. *)
Lemma bind_ok {W E A B} (m : M W E A) (k : A -> M W E B) w w' b : bind m k w = (w', Ok b) ->
  exists a w1, m w = (w1, Ok a) /\ k a w1 = (w', Ok b).
Proof. unfold bind. destruct (m w) as [w1 [a|e]]; [eauto|done]. Qed.

(** A run either stops at the first call or goes on from its result. *)
Lemma bind_run {W E A B} (m : M W E A) (k : A -> M W E B) w w' r : bind m k w = (w', r) ->
  (exists e, m w = (w', Err e) /\ r = Err e) \/ exists a w1, m w = (w1, Ok a) /\ k a w1 = (w', r).
Proof. unfold bind. destruct (m w) as [w1 [a|e]]; [eauto|]. intros [= <- <-]. eauto. Qed.

Lemma require_ok {W E} b (e : E) (w w' : W) u : require b e w = (w', Ok u) -> b = true /\ w' = w.
Proof. unfold require. destruct b; [by intros [= <- _]|done]. Qed.

Lemma require_err {W E} b (e e' : E) (w w' : W) : require b e w = (w', Err e') -> w' = w.
Proof. unfold require. destruct b; [done|by intros [= <- _]]. Qed.

(** A run of [bind (bind m f) g] is one of [m], [f] and [g] in turn. *)
Lemma bind_assoc {W E A B C} (m : M W E A) (f : A -> M W E B) (g : B -> M W E C) w :
  bind (bind m f) g w = bind m (fun a => bind (f a) g) w.
Proof. unfold bind. by destruct (m w) as [w1 [a|e]]. Qed.

Lemma lift_ok {W E A} (r : result E A) (w w' : W) a : lift r w = (w', Ok a) -> r = Ok a /\ w' = w.
Proof. by intros [= -> ->]. Qed.

Lemma wrap_ok {W E F A} (f : E -> F) (m : M W E A) w w' a : wrap f m w = (w', Ok a) -> m w = (w', Ok a).
Proof. unfold wrap. destruct (m w) as [w1 [x|e]]; [by intros [= <- <-]|done]. Qed.

Ltac run_ok H :=
  repeat match type of H with
  | bind (require _ _) _ _ = (_, Ok _) =>
      let u := fresh "u" in let w := fresh "w" in let Hr := fresh "Hr" in
      apply bind_ok in H as (u & w & Hr & H); apply require_ok in Hr as [Hr ->]
  | bind (lift _) _ _ = (_, Ok _) =>
      let a := fresh "a" in let w := fresh "w" in let Hl := fresh "Hl" in
      apply bind_ok in H as (a & w & Hl & H); apply lift_ok in Hl as [Hl ->]
  end.
