(* ===== verification/GoStrings.v ===== *)
(** * The Go string functions the program uses

    A Go string is a sequence of bytes, here [string] with 8-bit characters;
    [==] and [<] are byte-wise.  [strings.ToLower], [strings.ToUpper],
    [strings.EqualFold] and [strings.TrimSpace] are modelled on the ASCII
    range, where Go has a byte-wise fast path; bytes above 127 are left
    unchanged (DNS names, Kubernetes names and provider IDs are ASCII). *)
From Stdlib Require Import String Ascii ZArith Lia.
From S2P Require Import Prelude.
Open Scope string_scope.
Open Scope list_scope.
Open Scope go_scope.

Definition is_space (c : ascii) : bool :=
  match c with
  | "009" | "010" | "011" | "012" | "013" | " " => true
  | _ => false
  end%char.

Definition lower_char (c : ascii) : ascii :=
  let n := nat_of_ascii c in
  if (65 <=? n)%nat && (n <=? 90)%nat then ascii_of_nat (n + 32) else c.

Definition upper_char (c : ascii) : ascii :=
  let n := nat_of_ascii c in
  if (97 <=? n)%nat && (n <=? 122)%nat then ascii_of_nat (n - 32) else c.

Fixpoint str_map (f : ascii -> ascii) (s : string) : string :=
  match s with "" => "" | String c s' => String (f c) (str_map f s') end.

Definition ToLower : string -> string := str_map lower_char.
Definition ToUpper : string -> string := str_map upper_char.
Definition EqualFold (a b : string) : bool := ToLower a =s ToLower b.

Fixpoint trim_left (s : string) : string :=
  match s with String c s' => if is_space c then trim_left s' else s | "" => "" end.

Fixpoint trim_right (s : string) : string :=
  match s with
  | "" => ""
  | String c s' =>
      match trim_right s' with
      | "" => if is_space c then "" else String c ""
      | t => String c t
      end
  end.

Definition TrimSpace (s : string) : string := trim_right (trim_left s).

Fixpoint CutSuffix (s suffix : string) : option string :=
  if s =s suffix then Some ""
  else match s with "" => None | String c s' => String c <$> CutSuffix s' suffix end.

Definition HasSuffix (s suffix : string) : bool :=
  match CutSuffix s suffix with Some _ => true | None => false end.

Definition TrimSuffix (s suffix : string) : string := default s (CutSuffix s suffix).

Fixpoint CutPrefix (s prefix : string) {struct prefix} : option string :=
  match prefix, s with
  | "", _ => Some s
  | String p prefix', String c s' => if Ascii.eqb p c then CutPrefix s' prefix' else None
  | _, "" => None
  end.

Definition HasPrefix (s prefix : string) : bool :=
  match CutPrefix s prefix with Some _ => true | None => false end.

Definition TrimPrefix (s prefix : string) : string := default s (CutPrefix s prefix).

Fixpoint Join (parts : list string) (sep : string) : string :=
  match parts with
  | [] => ""
  | [p] => p
  | p :: rest => p +:+ sep +:+ Join rest sep
  end.

(** [strings.Split(s, sep)] for a one-byte separator. *)
Fixpoint SplitChar (s : string) (sep : ascii) : list string :=
  match s with
  | "" => [""]
  | String c s' =>
      let rest := SplitChar s' sep in
      if Ascii.eqb c sep then "" :: rest
      else match rest with
           | p :: ps => String c p :: ps
           | [] => [String c ""]
           end
  end.

Fixpoint contains_char (c : ascii) (s : string) : bool :=
  match s with "" => false | String d s' => Ascii.eqb c d || contains_char c s' end.

(** ** Laws *)

Lemma app_assoc_s (a b c : string) : a +:+ (b +:+ c) = (a +:+ b) +:+ c.
Proof. induction a; simpl; congruence. Qed.

Lemma app_nil_s (a : string) : a +:+ "" = a.
Proof. induction a; simpl; congruence. Qed.

Lemma app_inv_head_s (a b c : string) : a +:+ b = a +:+ c -> b = c.
Proof. induction a; simpl; intros H; [done|]. injection H as H. auto. Qed.

Lemma length_app_s (a b : string) :
  String.length (a +:+ b) = (String.length a + String.length b)%nat.
Proof. induction a; simpl; congruence. Qed.

Lemma app_inv_tail_s (a b c : string) : a +:+ c = b +:+ c -> a = b.
Proof.
  revert b. induction a as [|x a IH]; intros [|y b] H; simpl in *.
  - done.
  - apply (f_equal String.length) in H. simpl in H. rewrite length_app_s in H. lia.
  - apply (f_equal String.length) in H. simpl in H. rewrite length_app_s in H. lia.
  - injection H as -> H. f_equal. auto.
Qed.

Lemma lower_char_idem (c : ascii) : lower_char (lower_char c) = lower_char c.
Proof. destruct c as [[] [] [] [] [] [] [] []]; reflexivity. Qed.

Lemma upper_char_idem (c : ascii) : upper_char (upper_char c) = upper_char c.
Proof. destruct c as [[] [] [] [] [] [] [] []]; reflexivity. Qed.

Lemma lower_char_space (c : ascii) : is_space (lower_char c) = is_space c.
Proof. destruct c as [[] [] [] [] [] [] [] []]; reflexivity. Qed.

Lemma upper_char_space (c : ascii) : is_space (upper_char c) = is_space c.
Proof. destruct c as [[] [] [] [] [] [] [] []]; reflexivity. Qed.

Lemma lower_char_dot (c : ascii) : lower_char c = "."%char -> c = "."%char.
Proof. destruct c as [[] [] [] [] [] [] [] []]; intros H; try discriminate H; reflexivity. Qed.

Lemma str_map_app f a b : str_map f (a +:+ b) = str_map f a +:+ str_map f b.
Proof. induction a; simpl; congruence. Qed.

Lemma str_map_idem f s : (forall c, f (f c) = f c) -> str_map f (str_map f s) = str_map f s.
Proof. intros Hf. induction s; simpl; congruence. Qed.

Lemma ToLower_idem s : ToLower (ToLower s) = ToLower s.
Proof. apply str_map_idem, lower_char_idem. Qed.

Lemma ToUpper_idem s : ToUpper (ToUpper s) = ToUpper s.
Proof. apply str_map_idem, upper_char_idem. Qed.

Lemma trim_left_idem s : trim_left (trim_left s) = trim_left s.
Proof. induction s as [|c s IH]; simpl; [done|]. destruct (is_space c) eqn:E; [done|]. simpl. by rewrite E. Qed.

Lemma trim_right_idem s : trim_right (trim_right s) = trim_right s.
Proof.
  induction s as [|c s IH]; simpl; [done|].
  destruct (trim_right s) as [|d t] eqn:E.
  - destruct (is_space c) eqn:Ec; simpl; [done|]. by rewrite Ec.
  - change (trim_right (String c (String d t)))
      with (match trim_right (String d t) with
            | "" => if is_space c then "" else String c "" | u => String c u end).
    by rewrite IH.
Qed.

Lemma trim_left_right_comm s : trim_left (trim_right s) = trim_right (trim_left s).
Proof.
  induction s as [|c s IH]; [done|]. simpl trim_left at 2.
  destruct (is_space c) eqn:Ec.
  - rewrite <- IH. simpl. destruct (trim_right s) as [|d t].
    + by rewrite Ec.
    + simpl trim_left at 1. by rewrite Ec.
  - simpl. destruct (trim_right s) as [|d t].
    + rewrite Ec. simpl. by rewrite Ec.
    + simpl. by rewrite Ec.
Qed.

Lemma TrimSpace_idem s : TrimSpace (TrimSpace s) = TrimSpace s.
Proof. unfold TrimSpace. rewrite trim_left_right_comm, trim_right_idem. by rewrite trim_left_idem. Qed.

Lemma trim_left_map f s : (forall c, is_space (f c) = is_space c) ->
  trim_left (str_map f s) = str_map f (trim_left s).
Proof. intros Hf. induction s as [|c s IH]; simpl; [done|]. rewrite Hf. by destruct (is_space c). Qed.

Lemma trim_right_map f s : (forall c, is_space (f c) = is_space c) ->
  trim_right (str_map f s) = str_map f (trim_right s).
Proof.
  intros Hf. induction s as [|c s IH]; simpl; [done|]. rewrite IH, Hf.
  destruct (trim_right s); simpl; [|done]. by destruct (is_space c).
Qed.

Lemma TrimSpace_map f s : (forall c, is_space (f c) = is_space c) ->
  TrimSpace (str_map f s) = str_map f (TrimSpace s).
Proof. intros Hf. unfold TrimSpace. by rewrite trim_left_map, trim_right_map. Qed.

Lemma TrimSpace_ToLower s : TrimSpace (ToLower s) = ToLower (TrimSpace s).
Proof. apply TrimSpace_map, lower_char_space. Qed.

Lemma TrimSpace_ToUpper s : TrimSpace (ToUpper s) = ToUpper (TrimSpace s).
Proof. apply TrimSpace_map, upper_char_space. Qed.

Lemma CutSuffix_Some s suf p : CutSuffix s suf = Some p <-> s = p +:+ suf.
Proof.
  revert p. induction s as [|c s IH]; intros p; simpl.
  - destruct ("" =s suf) eqn:E; bools.
    + subst. split; [by intros [= <-]|]. by destruct p.
    + split; [done|]. destruct p; simpl; intros Hp; congruence.
  - destruct (String c s =s suf) eqn:E; bools.
    + subst suf. split; [intros [= <-]; reflexivity|]. intros H. f_equal.
      destruct p as [|d p]; [reflexivity|]. apply (f_equal String.length) in H. simpl in H.
      rewrite length_app_s in H. simpl in H. lia.
    + destruct (CutSuffix s suf) as [q|] eqn:Eq; simpl.
      * pose proof (proj1 (IH q) eq_refl) as ->. split.
        -- by intros [= <-].
        -- destruct p as [|d p]; simpl; [intros Hp; congruence|]. intros [= -> H].
           by apply app_inv_tail_s in H as ->.
      * split; [done|]. destruct p as [|d p]; simpl; [intros Hp; congruence|]. intros [= -> ->].
        pose proof (proj2 (IH p) eq_refl). discriminate.
Qed.

Lemma HasSuffix_spec s suf : HasSuffix s suf = true <-> exists p, s = p +:+ suf.
Proof.
  unfold HasSuffix. destruct (CutSuffix s suf) as [p|] eqn:E.
  - apply CutSuffix_Some in E. naive_solver.
  - split; [done|]. intros [p Hp]. apply CutSuffix_Some in Hp. congruence.
Qed.

Lemma HasSuffix_app p suf : HasSuffix (p +:+ suf) suf = true.
Proof. apply HasSuffix_spec. eauto. Qed.

Lemma TrimSuffix_app p suf : TrimSuffix (p +:+ suf) suf = p.
Proof. unfold TrimSuffix. by rewrite (proj2 (CutSuffix_Some (p +:+ suf) suf p) eq_refl). Qed.

Lemma TrimSuffix_no s suf : HasSuffix s suf = false -> TrimSuffix s suf = s.
Proof. unfold HasSuffix, TrimSuffix. by destruct (CutSuffix s suf). Qed.

(** ** Joining with a separator that does not occur in the parts *)

Lemma contains_char_app c a b : contains_char c (a +:+ b) = contains_char c a || contains_char c b.
Proof. induction a; simpl; [done|]. by rewrite IHa, orb_assoc. Qed.

Lemma sep_split_unique c a b a' b' :
  contains_char c a = false -> contains_char c a' = false ->
  a +:+ String c b = a' +:+ String c b' -> a = a' /\ b = b'.
Proof.
  revert a'. induction a as [|x a IH]; intros [|y a'] Ha Ha' H; simpl in *.
  - injection H as ->. done.
  - injection H as -> _. by rewrite Ascii.eqb_refl in Ha'.
  - injection H as -> _. by rewrite Ascii.eqb_refl in Ha.
  - bools. injection H as -> H. destruct (IH a') as [-> ->]; done.
Qed.

(** The trimming functions only remove characters. *)
Lemma contains_char_TrimSpace c s : contains_char c s = false -> contains_char c (TrimSpace s) = false.
Proof.
  intros Hs. unfold TrimSpace.
  assert (Hl : contains_char c (trim_left s) = false).
  { induction s as [|d s IH]; simpl in *; [done|]. bools. destruct (is_space d); simpl; [auto|]. by bools. }
  revert Hl. generalize (trim_left s). clear. intros s.
  induction s as [|d s IH]; simpl; [done|]. intros Hs. bools.
  destruct (trim_right s) as [|e t]; [destruct (is_space d); simpl; bools; done|].
  specialize (IH H0). rewrite <- IH. change (Ascii.eqb c d || contains_char c (String e t) = contains_char c (String e t)).
  by rewrite H.
Qed.

Lemma contains_char_map f c s : (forall d, f d = c -> d = c) -> contains_char c s = false ->
  contains_char c (str_map f s) = false.
Proof.
  intros Hf. induction s as [|d s IH]; simpl; [done|]. intros Hs. bools; [|auto].
  apply Ascii.eqb_neq. intros Hd. symmetry in Hd. apply Hf in Hd as ->. by rewrite Ascii.eqb_refl in H.
Qed.

Lemma contains_char_TrimSuffix c s suf : contains_char c s = false -> contains_char c (TrimSuffix s suf) = false.
Proof.
  unfold TrimSuffix. destruct (CutSuffix s suf) as [p|] eqn:E; simpl; [|done].
  apply CutSuffix_Some in E as ->. rewrite contains_char_app. intros. by bools.
Qed.

Lemma lower_char_pipe (c : ascii) : lower_char c = "|"%char -> c = "|"%char.
Proof. destruct c as [[] [] [] [] [] [] [] []]; intros H; try discriminate H; reflexivity. Qed.

Lemma upper_char_pipe (c : ascii) : upper_char c = "|"%char -> c = "|"%char.
Proof. destruct c as [[] [] [] [] [] [] [] []]; intros H; try discriminate H; reflexivity. Qed.

#[export] Hint Rewrite ToLower_idem ToUpper_idem TrimSpace_idem TrimSpace_ToLower TrimSpace_ToUpper : fgdns_rw.
