(* ===== verification/NetIP.v ===== *)
(** * IP addresses: [net.ParseIP], [net.IP.String] and [net.IP.To4]

    The Go standard library's textual forms of IP addresses, as far as
    internal/dns and internal/source use them.  A [net.IP] holds 16 bytes; here
    it is the list of its eight 16-bit groups, and an IPv4 address is the
    IPv4-mapped form [0:0:0:0:0:ffff:a.b.c.d].  [ParseIP] follows
    [netip.ParseAddr] (which it calls) and rejects zones. *)
From Stdlib Require Import String Ascii ZArith Lia.
From S2P Require Import Prelude GoStrings.
Open Scope string_scope.
Open Scope list_scope.
Open Scope go_scope.
Open Scope Z_scope.

Abbreviation IP := (list Z).

Definition wf_ip (ip : IP) : Prop := length ip = 8%nat /\ Forall (fun g => 0 <= g < 65536) ip.

(** ** Digits *)

Definition digit_val (c : ascii) : option Z :=
  let n := Z.of_N (N_of_ascii c) in
  if (48 <=? n) && (n <=? 57) then Some (n - 48) else None.

Definition hex_val (c : ascii) : option Z :=
  let n := Z.of_N (N_of_ascii c) in
  if (48 <=? n) && (n <=? 57) then Some (n - 48)
  else if (97 <=? n) && (n <=? 102) then Some (n - 87)
  else if (65 <=? n) && (n <=? 70) then Some (n - 55)
  else None.

Definition digit_char (d : Z) : ascii := ascii_of_N (Z.to_N (d + 48)).
Definition hex_char (d : Z) : ascii :=
  ascii_of_N (Z.to_N (if d <? 10 then d + 48 else d + 87)).

(** ** Printing *)

Definition dec_byte (b : Z) : string :=
  if b <? 10 then String (digit_char b) ""
  else if b <? 100 then String (digit_char (b / 10)) (String (digit_char (b mod 10)) "")
  else String (digit_char (b / 100)) (String (digit_char (b / 10 mod 10)) (String (digit_char (b mod 10)) "")).

Definition hex_group (g : Z) : string :=
  if g <? 16 then String (hex_char g) ""
  else if g <? 256 then String (hex_char (g / 16)) (String (hex_char (g mod 16)) "")
  else if g <? 4096 then
    String (hex_char (g / 256)) (String (hex_char (g / 16 mod 16)) (String (hex_char (g mod 16)) ""))
  else String (hex_char (g / 4096)) (String (hex_char (g / 256 mod 16))
         (String (hex_char (g / 16 mod 16)) (String (hex_char (g mod 16)) ""))).

(** [To4]: the four bytes of an IPv4 or IPv4-mapped address. *)
Definition To4 (ip : IP) : option (list Z) :=
  match ip with
  | [0; 0; 0; 0; 0; 65535; a; b] => Some [a / 256; a mod 256; b / 256; b mod 256]
  | _ => None
  end.

Fixpoint zero_run (gs : list Z) : nat :=
  match gs with 0 :: gs' => S (zero_run gs') | _ => O end.

(** The first longest run of at least two zero groups: its start and length. *)
Fixpoint longest_run (i : nat) (gs : list Z) (best : nat * nat) : nat * nat :=
  match gs with
  | [] => best
  | _ :: gs' =>
      let l := zero_run gs in
      longest_run (S i) gs' (if (2 <=? l)%nat && (snd best <? l)%nat then (i, l) else best)
  end.

Definition join_groups (gs : list Z) : string := Join (hex_group <$> gs) ":".

Definition string6 (gs : IP) : string :=
  let '(start, len) := longest_run 0 gs (O, O) in
  if (len =? 0)%nat then join_groups gs
  else join_groups (take start gs) +:+ "::" +:+ join_groups (drop (start + len) gs).

Definition IPString (ip : IP) : string :=
  match To4 ip with
  | Some bytes => Join (dec_byte <$> bytes) "."
  | None => string6 ip
  end.

(** ** Parsing *)

Fixpoint parse_v4 (s : string) (pos : nat) (val : Z) (digLen : nat) (fields : list Z) : option (list Z) :=
  match s with
  | "" => if (pos <? 3)%nat then None else Some (fields ++ [val])
  | String c s' =>
      match digit_val c with
      | Some d =>
          if (digLen =? 1)%nat && (val =? 0) then None
          else if 255 <? val * 10 + d then None
          else parse_v4 s' pos (val * 10 + d) (S digLen) fields
      | None =>
          if Ascii.eqb c "." then
            if (digLen =? 0)%nat || (s' =s "") then None
            else if (pos =? 3)%nat then None
            else parse_v4 s' (S pos) 0 0 (fields ++ [val])
          else None
      end
  end.

Fixpoint scan_hex (s : string) (off : nat) (acc : Z) : option (Z * nat * string) :=
  match s with
  | "" => Some (acc, off, "")
  | String c s' =>
      match hex_val c with
      | Some d => if (3 <? off)%nat then None else scan_hex s' (S off) (acc * 16 + d)
      | None => Some (acc, off, s)
      end
  end.

(** The loop of [parseIPv6]; [fuel] counts the groups still free, so that the
    loop condition [i < 16] is [fuel > 0]. *)
Fixpoint v6_loop (fuel : nat) (s : string) (gs : list Z) (ell : option nat)
  : option (string * list Z * option nat) :=
  match fuel with
  | O => Some (s, gs, ell)
  | S fuel' =>
      match scan_hex s 0 0 with
      | None => None
      | Some (acc, off, rest) =>
          if (off =? 0)%nat then None
          else match rest with
          | "" => Some ("", gs ++ [acc], ell)
          | String c rest' =>
              if Ascii.eqb c "." then
                if match ell with None => negb (length gs =? 6)%nat | Some _ => false end then None
                else if (8 <? length gs + 2)%nat then None
                else match parse_v4 s 0 0 0 [] with
                     | Some [a; b; c; d] => Some ("", gs ++ [a * 256 + b; c * 256 + d], ell)
                     | _ => None
                     end
              else if negb (Ascii.eqb c ":") then None
              else match rest' with
                   | "" => None
                   | String c2 rest'' =>
                       if Ascii.eqb c2 ":" then
                         match ell with
                         | Some _ => None
                         | None =>
                             let ell' := Some (S (length gs)) in
                             if rest'' =s "" then Some ("", gs ++ [acc], ell')
                             else v6_loop fuel' rest'' (gs ++ [acc]) ell'
                         end
                       else v6_loop fuel' rest' (gs ++ [acc]) ell
                   end
          end
      end
  end.

Definition v6_finish (r : string * list Z * option nat) : option IP :=
  let '(s, gs, ell) := r in
  if negb (s =s "") then None
  else if (length gs <? 8)%nat then
    match ell with
    | None => None
    | Some e => Some (take e gs ++ replicate (8 - length gs) 0 ++ drop e gs)
    end
  else match ell with Some _ => None | None => Some gs end.

Definition parse_v6 (s : string) : option IP :=
  match CutPrefix s "::" with
  | Some "" => Some (replicate 8 0)
  | Some s' => v6_loop 8 s' [] (Some O) ≫= v6_finish
  | None => v6_loop 8 s [] None ≫= v6_finish
  end.

(** The first of ['.'], [':'] and ['%'] selects the family. *)
Fixpoint ip_family (s : string) : option ascii :=
  match s with
  | "" => None
  | String c s' =>
      if Ascii.eqb c "." || Ascii.eqb c ":" || Ascii.eqb c "%" then Some c else ip_family s'
  end.

Definition ParseIP (s : string) : option IP :=
  match ip_family s with
  | Some "."%char =>
      match parse_v4 s 0 0 0 [] with
      | Some [a; b; c; d] => Some [0; 0; 0; 0; 0; 65535; a * 256 + b; c * 256 + d]
      | _ => None
      end
  | Some ":"%char => if contains_char "%" s then None else parse_v6 s
  | _ => None
  end.

Example parse_examples :
  (ParseIP "192.0.2.10", ParseIP "192.0.2.010", ParseIP "2001:DB8::1", ParseIP "::ffff:192.0.2.1",
   IPString <$> ParseIP "2001:DB8:0:0:1:0:0:0", ParseIP "fe80::1%eth0", ParseIP "1.2.3")
  = (Some [0; 0; 0; 0; 0; 65535; 49152; 522], None, Some [8193; 3512; 0; 0; 0; 0; 0; 1],
     Some [0; 0; 0; 0; 0; 65535; 49152; 513], Some "2001:db8:0:0:1::", None, None).
Proof. vm_compute. reflexivity. Qed.

(** ** Round trip *)

Lemma digit_val_char d : 0 <= d < 10 -> digit_val (digit_char d) = Some d.
Proof.
  intros H. assert (In d [0;1;2;3;4;5;6;7;8;9]) as Hin by (simpl; lia).
  simpl in Hin. repeat destruct Hin as [<-|Hin]; done.
Qed.

Lemma hex_val_char d : 0 <= d < 16 -> hex_val (hex_char d) = Some d.
Proof.
  intros H. assert (In d [0;1;2;3;4;5;6;7;8;9;10;11;12;13;14;15]) as Hin by (simpl; lia).
  simpl in Hin. repeat destruct Hin as [<-|Hin]; done.
Qed.

Definition sep_char (c : ascii) : bool := Ascii.eqb c "." || Ascii.eqb c ":" || Ascii.eqb c "%".

Lemma digit_char_not_sep d : 0 <= d < 10 -> sep_char (digit_char d) = false.
Proof.
  intros H. assert (In d [0;1;2;3;4;5;6;7;8;9]) as Hin by (simpl; lia).
  simpl in Hin. repeat destruct Hin as [<-|Hin]; done.
Qed.

Lemma hex_char_not_sep d : 0 <= d < 16 -> sep_char (hex_char d) = false.
Proof.
  intros H. assert (In d [0;1;2;3;4;5;6;7;8;9;10;11;12;13;14;15]) as Hin by (simpl; lia).
  simpl in Hin. repeat destruct Hin as [<-|Hin]; done.
Qed.

Lemma parse_v4_digit s pos val n fields d :
  0 <= d < 10 -> (n =? 1)%nat && (val =? 0) = false -> val * 10 + d <= 255 ->
  parse_v4 (String (digit_char d) s) pos val n fields = parse_v4 s pos (val * 10 + d) (S n) fields.
Proof.
  intros Hd Hn Hv. simpl. rewrite digit_val_char by done. rewrite Hn.
  by replace (255 <? val * 10 + d) with false by lia.
Qed.

Lemma parse_v4_dec b s pos fields : 0 <= b < 256 ->
  parse_v4 (dec_byte b +:+ s) pos 0 0 fields = parse_v4 s pos b (String.length (dec_byte b)) fields.
Proof.
  intros Hb. unfold dec_byte.
  destruct (b <? 10) eqn:E1; [|destruct (b <? 100) eqn:E2]; simpl String.append; simpl String.length.
  - rewrite parse_v4_digit by (done || lia). f_equal; lia.
  - assert (1 <= b / 10 < 10) by (split; [apply Z.div_le_lower_bound|apply Z.div_lt_upper_bound]; lia).
    pose proof (Z.div_mod b 10 ltac:(lia)). pose proof (Z.mod_pos_bound b 10 ltac:(lia)).
    rewrite !parse_v4_digit; try (done || lia). f_equal; lia.
  - assert (1 <= b / 100 < 10) by (split; [apply Z.div_le_lower_bound|apply Z.div_lt_upper_bound]; lia).
    pose proof (Z.div_mod b 10 ltac:(lia)). pose proof (Z.mod_pos_bound b 10 ltac:(lia)).
    pose proof (Z.div_mod (b / 10) 10 ltac:(lia)). pose proof (Z.mod_pos_bound (b / 10) 10 ltac:(lia)).
    rewrite Z.div_div in * by lia. change (10 * 10) with 100 in *.
    rewrite !parse_v4_digit; try (done || lia). f_equal; lia.
Qed.

Lemma dec_byte_length b : (1 <= String.length (dec_byte b) <= 3)%nat.
Proof. unfold dec_byte. destruct (b <? 10), (b <? 100); simpl; lia. Qed.

Lemma parse_v4_dot s pos val n fields : (n <> 0)%nat -> (pos <> 3)%nat -> s <> "" ->
  parse_v4 (String "." s) pos val n fields = parse_v4 s (S pos) 0 0 (fields ++ [val]).
Proof.
  intros Hn Hp Hs. simpl. replace (n =? 0)%nat with false by (symmetry; by apply Nat.eqb_neq).
  replace (pos =? 3)%nat with false by (symmetry; by apply Nat.eqb_neq).
  by rewrite (proj2 (eqb_neq_iff s "")).
Qed.

Lemma dec_byte_app_nonempty b s : dec_byte b +:+ s <> "".
Proof. unfold dec_byte. by destruct (b <? 10), (b <? 100). Qed.

Lemma parse_v4_print a b c d :
  Forall (fun x => 0 <= x < 256) [a; b; c; d] ->
  parse_v4 (Join (dec_byte <$> [a; b; c; d]) ".") 0 0 0 [] = Some [a; b; c; d].
Proof.
  rewrite !Forall_cons. intros (Ha & Hb & Hc & Hd & _).
  pose proof (dec_byte_length a). pose proof (dec_byte_length b).
  pose proof (dec_byte_length c). simpl Join.
  rewrite <- (app_nil_s (dec_byte d)).
  do 3 (rewrite parse_v4_dec by done; rewrite parse_v4_dot by (try lia; apply dec_byte_app_nonempty)).
  by rewrite parse_v4_dec.
Qed.

Lemma ip_family_skip c s : sep_char c = false -> ip_family (String c s) = ip_family s.
Proof. intros H. simpl. unfold sep_char in H. by rewrite H. Qed.

Lemma ip_family_dec b s : 0 <= b < 256 -> ip_family (dec_byte b +:+ s) = ip_family s.
Proof.
  intros Hb. unfold dec_byte.
  pose proof (Z.mod_pos_bound b 10 ltac:(lia)). pose proof (Z.mod_pos_bound (b / 10) 10 ltac:(lia)).
  destruct (b <? 10) eqn:E1; [|destruct (b <? 100) eqn:E2]; simpl String.append;
  rewrite !ip_family_skip; try done; apply digit_char_not_sep; try lia;
  split; try apply Z.div_pos; try apply Z.div_lt_upper_bound; lia.
Qed.

(** The shape of a printed group: non-empty, all hexadecimal digits. *)
Lemma scan_hex_step d s off acc : 0 <= d < 16 -> (off <= 3)%nat ->
  scan_hex (String (hex_char d) s) off acc = scan_hex s (S off) (acc * 16 + d).
Proof.
  intros Hd Ho. simpl. rewrite hex_val_char by done.
  by replace (3 <? off)%nat with false by (symmetry; apply Nat.ltb_ge; lia).
Qed.

Definition no_hex_head (s : string) : Prop :=
  match s with "" => True | String c _ => hex_val c = None end.

Lemma scan_hex_stop s off acc : no_hex_head s -> scan_hex s off acc = Some (acc, off, s).
Proof. destruct s; simpl; [done|]. by intros ->. Qed.

(** The hexadecimal digits of a group, most significant first. *)
Lemma hex_digits g : 0 <= g < 65536 ->
  (0 <= g / 16 mod 16 < 16 /\ 0 <= g / 256 mod 16 < 16 /\ 0 <= g mod 16 < 16) /\
  g = ((g / 4096 * 16 + g / 256 mod 16) * 16 + g / 16 mod 16) * 16 + g mod 16 /\
  g / 256 = g / 4096 * 16 + g / 256 mod 16 /\ g / 16 = g / 256 * 16 + g / 16 mod 16 /\ 0 <= g / 4096 < 16.
Proof.
  intros Hg.
  pose proof (Z.div_mod g 16 ltac:(lia)). pose proof (Z.mod_pos_bound g 16 ltac:(lia)).
  pose proof (Z.div_mod (g / 16) 16 ltac:(lia)). pose proof (Z.mod_pos_bound (g / 16) 16 ltac:(lia)).
  pose proof (Z.div_mod (g / 16 / 16) 16 ltac:(lia)). pose proof (Z.mod_pos_bound (g / 16 / 16) 16 ltac:(lia)).
  rewrite !Z.div_div in * by lia. change (16 * 16) with 256 in *. change (256 * 16) with 4096 in *.
  repeat split; try lia.
Qed.

Lemma scan_hex_group g s : 0 <= g < 65536 -> no_hex_head s ->
  scan_hex (hex_group g +:+ s) 0 0 = Some (g, String.length (hex_group g), s).
Proof.
  intros Hg Hs. destruct (hex_digits g Hg) as ((?&?&?) & ? & ? & ? & ?). unfold hex_group.
  destruct (g <? 16) eqn:E1; [|destruct (g <? 256) eqn:E2; [|destruct (g <? 4096) eqn:E3]];
  simpl String.append; simpl String.length;
  rewrite !scan_hex_step by lia; rewrite scan_hex_stop by done; do 3 f_equal; lia.
Qed.

Lemma hex_group_cons g : 0 <= g < 65536 ->
  exists d s, hex_group g = String (hex_char d) s /\ 0 <= d < 16.
Proof.
  intros Hg. destruct (hex_digits g Hg) as ((?&?&?) & ? & ? & ? & ?). unfold hex_group.
  destruct (g <? 16) eqn:E1; [|destruct (g <? 256) eqn:E2; [|destruct (g <? 4096) eqn:E3]];
  eexists _, _; (split; [reflexivity|]); lia.
Qed.

Lemma hex_group_chars g : 0 <= g < 65536 ->
  forall s, ip_family (hex_group g +:+ s) = ip_family s /\
            contains_char "%" (hex_group g +:+ s) = contains_char "%" s.
Proof.
  assert (Hpct : forall d s, 0 <= d < 16 ->
            contains_char "%" (String (hex_char d) s) = contains_char "%" s).
  { intros d s Hd. pose proof (hex_char_not_sep d Hd) as H. unfold sep_char in H. bools.
    change (contains_char "%" (String (hex_char d) s))
      with (Ascii.eqb "%" (hex_char d) || contains_char "%" s).
    by rewrite Ascii.eqb_sym, H0. }
  intros Hg s. destruct (hex_digits g Hg) as ((?&?&?) & ? & ? & ? & ?). unfold hex_group.
  destruct (g <? 16) eqn:E1; [|destruct (g <? 256) eqn:E2; [|destruct (g <? 4096) eqn:E3]];
  simpl String.append; split;
  first [ rewrite !ip_family_skip; [done|..]; apply hex_char_not_sep; lia
        | rewrite !Hpct by lia; done ].
Qed.

Lemma join_groups_cons g g' gs : join_groups (g :: g' :: gs) = hex_group g +:+ ":" +:+ join_groups (g' :: gs).
Proof. reflexivity. Qed.

Lemma join_groups_head g gs : 0 <= g < 65536 ->
  exists d s, join_groups (g :: gs) = String (hex_char d) s /\ 0 <= d < 16.
Proof.
  intros Hg. destruct (hex_group_cons g Hg) as (d & s & E & Hd). destruct gs as [|g' gs].
  - exists d, s. unfold join_groups. simpl. by rewrite E.
  - rewrite join_groups_cons, E. eexists _, _. split; [reflexivity|done].
Qed.

Lemma hex_group_length g : String.length (hex_group g) <> 0%nat.
Proof. unfold hex_group. by destruct (g <? 16), (g <? 256), (g <? 4096). Qed.

(** One iteration of the parser over a printed group that a colon and a further
    group follow. *)
Definition hex_head (t : string) : Prop := exists d s, t = String (hex_char d) s /\ 0 <= d < 16.

Lemma hex_head_app t u : hex_head t -> hex_head (t +:+ u).
Proof. intros (d & s & -> & Hd). eexists _, _. split; [reflexivity|done]. Qed.

Lemma v6_loop_group fuel g t gs ell :
  0 <= g < 65536 -> hex_head t ->
  v6_loop (S fuel) (hex_group g +:+ ":" +:+ t) gs ell = v6_loop fuel t (gs ++ [g]) ell.
Proof.
  intros Hg (d & s & -> & Hd). cbn [v6_loop].
  rewrite scan_hex_group by done.
  replace (String.length (hex_group g) =? 0)%nat with false
    by (symmetry; apply Nat.eqb_neq, hex_group_length).
  pose proof (hex_char_not_sep d Hd) as H. unfold sep_char in H. bools.
  simpl String.append. cbn [Ascii.eqb Bool.eqb negb].
  by rewrite H1.
Qed.

Lemma v6_loop_join l : forall fuel gs ell,
  l <> [] -> Forall (fun g => 0 <= g < 65536) l -> (length l <= fuel)%nat ->
  v6_loop fuel (join_groups l) gs ell = Some ("", gs ++ l, ell).
Proof.
  induction l as [|g l IH]; [done|]. intros fuel gs ell _ Hl Hf. apply Forall_cons in Hl as [Hg Hl].
  destruct fuel as [|fuel]; [simpl in Hf; lia|].
  destruct l as [|g' l].
  - cbn [v6_loop]. change (join_groups [g]) with (hex_group g).
    rewrite <- (app_nil_s (hex_group g)) at 1. rewrite scan_hex_group by done.
    by replace (String.length (hex_group g) =? 0)%nat with false
      by (symmetry; apply Nat.eqb_neq, hex_group_length).
  - rewrite join_groups_cons. assert (Hg' := proj1 (proj1 (Forall_cons _ _ _) Hl)).
    rewrite v6_loop_group by (done || by apply join_groups_head). rewrite IH by (done || simpl in *; lia).
    by rewrite <- app_assoc.
Qed.

(** The parser over groups, an ellipsis and further groups. *)
Lemma v6_loop_ellipsis l r : forall fuel gs,
  l <> [] -> Forall (fun g => 0 <= g < 65536) (l ++ r) -> (length l + length r <= fuel)%nat ->
  v6_loop fuel (join_groups l +:+ "::" +:+ join_groups r) gs None
  = Some ("", gs ++ l ++ r, Some (length gs + length l)%nat).
Proof.
  induction l as [|g l IH]; [done|]. intros fuel gs _ Hl Hf.
  rewrite <- app_comm_cons, Forall_cons in Hl. destruct Hl as [Hg Hl].
  destruct fuel as [|fuel]; [simpl in Hf; lia|].
  destruct l as [|g' l].
  - change (join_groups [g]) with (hex_group g). cbn [v6_loop].
    rewrite scan_hex_group by done.
    replace (String.length (hex_group g) =? 0)%nat with false
      by (symmetry; apply Nat.eqb_neq, hex_group_length).
    simpl String.append. cbn [Ascii.eqb Bool.eqb negb].
    destruct r as [|g' r].
    + simpl. by rewrite Nat.add_1_r.
    + assert (Hg' := proj1 (proj1 (Forall_cons _ _ _) Hl)).
      destruct (join_groups_head g' r Hg') as (d & s & E & Hd). rewrite E.
      replace (String (hex_char d) s =s "") with false by reflexivity.
      rewrite <- E, v6_loop_join by (done || simpl in *; lia).
      rewrite <- app_assoc. simpl. by rewrite Nat.add_1_r.
  - rewrite join_groups_cons. assert (Hg' := proj1 (proj1 (Forall_cons _ _ _) Hl)).
    rewrite <- !app_assoc_s.
    rewrite v6_loop_group by (done || by apply hex_head_app, join_groups_head).
    rewrite IH by (done || simpl in *; lia). rewrite <- app_assoc, length_app. simpl.
    do 3 f_equal. lia.
Qed.

(** The run the printer compresses consists of zeros. *)
Lemma zero_run_spec gs : take (zero_run gs) gs = replicate (zero_run gs) 0 /\ (zero_run gs <= length gs)%nat.
Proof.
  induction gs as [|[| |] gs IH]; simpl; try (split; [done|lia]).
  destruct IH as [IH Hl]. split; [by rewrite IH|lia].
Qed.

Definition zero_block (gs : list Z) (r : nat * nat) : Prop :=
  gs = take r.1 gs ++ replicate r.2 0 ++ drop (r.1 + r.2) gs /\ (r.1 + r.2 <= length gs)%nat /\ r.2 <> 1%nat.

Lemma zero_block_none gs : zero_block gs (O, O).
Proof. unfold zero_block. simpl. split; [done|lia]. Qed.

Lemma longest_run_block pre gs best :
  zero_block (pre ++ gs) best -> zero_block (pre ++ gs) (longest_run (length pre) gs best).
Proof.
  revert pre best. induction gs as [|g gs IH]; intros pre best Hb; [done|].
  cbn [longest_run]. rewrite cons_middle, app_assoc in Hb |- *.
  replace (S (length pre)) with (length (pre ++ [g])) by (rewrite length_app; simpl; lia).
  apply IH. destruct ((2 <=? zero_run (g :: gs))%nat && _) eqn:E; [|done]. bools.
  apply Nat.leb_le in H.
  rewrite <- app_assoc. change ([g] ++ gs) with (g :: gs).
  destruct (zero_run_spec (g :: gs)) as [Hz Hl]. unfold zero_block. cbn [fst snd].
  split; [|split; [rewrite length_app; lia|lia]].
  rewrite take_app_length, drop_app_add'; [|done]. f_equal.
  rewrite <- Hz. by rewrite take_drop.
Qed.

Lemma longest_run_spec gs : zero_block gs (longest_run 0 gs (O, O)).
Proof. apply (longest_run_block [] gs (O, O)). apply zero_block_none. Qed.

Lemma join_groups_family gs s : Forall (fun g => 0 <= g < 65536) gs ->
  ip_family s = Some ":"%char \/ (2 <= length gs)%nat ->
  ip_family (join_groups gs +:+ s) = Some ":"%char.
Proof.
  induction gs as [|g gs IH]; intros Hg Hs; [destruct Hs; [done|simpl in *; lia]|].
  apply Forall_cons in Hg as [Hg Hgs]. destruct gs as [|g' gs].
  - change (join_groups [g]) with (hex_group g). rewrite (proj1 (hex_group_chars g Hg s)).
    destruct Hs; [done|simpl in *; lia].
  - rewrite join_groups_cons, <- app_assoc_s. by rewrite (proj1 (hex_group_chars g Hg _)).
Qed.

Lemma join_groups_no_zone gs s : Forall (fun g => 0 <= g < 65536) gs ->
  contains_char "%" (join_groups gs +:+ s) = contains_char "%" s.
Proof.
  induction gs as [|g gs IH]; intros Hg; [done|]. apply Forall_cons in Hg as [Hg Hgs].
  destruct gs as [|g' gs].
  - apply (proj2 (hex_group_chars g Hg s)).
  - rewrite join_groups_cons, <- !app_assoc_s, (proj2 (hex_group_chars g Hg _)).
    change (contains_char "%" (":" +:+ (join_groups (g' :: gs) +:+ s)))
      with (contains_char "%" (join_groups (g' :: gs) +:+ s)). by apply IH.
Qed.

Lemma join_groups_zone_free gs : Forall (fun g => 0 <= g < 65536) gs -> contains_char "%" (join_groups gs) = false.
Proof. intros Hg. rewrite <- (app_nil_s (join_groups gs)). by rewrite join_groups_no_zone. Qed.

Lemma parse_v6_join gs : wf_ip gs -> parse_v6 (join_groups gs) = Some gs.
Proof.
  intros [Hl Hg]. destruct gs as [|g gs]; [done|]. unfold parse_v6.
  destruct (join_groups_head g gs) as (d & s & E & Hd); [by apply Forall_cons in Hg as [? _]|].
  rewrite E. pose proof (hex_char_not_sep d Hd) as H. unfold sep_char in H. bools.
  cbn [CutPrefix]. rewrite Ascii.eqb_sym, H1, <- E.
  rewrite v6_loop_join by (done || lia).
  change (v6_finish ("", g :: gs, None) = Some (g :: gs)). unfold v6_finish. by rewrite Hl.
Qed.

Lemma parse_v6_ellipsis l r n : wf_ip (l ++ replicate n 0 ++ r) -> (2 <= n)%nat ->
  parse_v6 (join_groups l +:+ "::" +:+ join_groups r) = Some (l ++ replicate n 0 ++ r).
Proof.
  intros [Hlen Hg] Hn. rewrite !length_app, length_replicate in Hlen.
  apply Forall_app in Hg as [Hgl Hg]. apply Forall_app in Hg as [_ Hgr].
  assert (Hfin : forall e, e = length l ->
            v6_finish ("", l ++ r, Some e) = Some (l ++ replicate n 0 ++ r)).
  { intros e ->. unfold v6_finish. simpl negb. cbn iota.
    rewrite (proj2 (Nat.ltb_lt _ _)) by (rewrite length_app; lia).
    rewrite take_app_length, drop_app_length, length_app.
    by replace (8 - (length l + length r))%nat with n by lia. }
  unfold parse_v6. destruct l as [|g l].
  - change (CutPrefix (join_groups [] +:+ "::" +:+ join_groups r) "::") with (Some (join_groups r)).
    destruct r as [|g r].
    + simpl. rewrite app_nil_r. simpl in Hlen. by replace n with 8%nat by lia.
    + destruct (join_groups_head g r) as (d & s & E & Hd); [by apply Forall_cons in Hgr as [? _]|].
      rewrite E, <- E. rewrite v6_loop_join by (done || simpl in *; lia). by apply Hfin.
  - destruct (join_groups_head g l) as (d & s & E & Hd); [by apply Forall_cons in Hgl as [? _]|].
    pose proof (hex_char_not_sep d Hd) as H. unfold sep_char in H. bools.
    assert (CutPrefix (join_groups (g :: l) +:+ "::" +:+ join_groups r) "::" = None) as ->.
    { rewrite E. cbn [CutPrefix String.append]. by rewrite Ascii.eqb_sym, H1. }
    rewrite v6_loop_ellipsis by (done || (by apply Forall_app) || simpl in *; lia).
    by apply Hfin.
Qed.

Lemma To4_Some ip bytes : To4 ip = Some bytes ->
  exists a b, ip = [0; 0; 0; 0; 0; 65535; a; b] /\ bytes = [a / 256; a mod 256; b / 256; b mod 256].
Proof.
  unfold To4. intros H.
  repeat match type of H with context [match ?x with _ => _ end] => destruct x; try discriminate H end.
  injection H as <-. eauto.
Qed.

Lemma byte_split g : 0 <= g < 65536 -> 0 <= g / 256 < 256 /\ 0 <= g mod 256 < 256 /\ g / 256 * 256 + g mod 256 = g.
Proof.
  intros Hg. pose proof (Z.div_mod g 256 ltac:(lia)). pose proof (Z.mod_pos_bound g 256 ltac:(lia)).
  repeat split; try lia.
Qed.

Lemma ParseIP_v4 a b : 0 <= a < 65536 -> 0 <= b < 65536 ->
  ParseIP (Join (dec_byte <$> [a / 256; a mod 256; b / 256; b mod 256]) ".")
  = Some [0; 0; 0; 0; 0; 65535; a; b].
Proof.
  intros Ha Hb. destruct (byte_split a Ha) as (? & ? & ?). destruct (byte_split b Hb) as (? & ? & ?).
  unfold ParseIP. assert (ip_family (Join (dec_byte <$> [a / 256; a mod 256; b / 256; b mod 256]) ".") = Some "."%char) as ->.
  { simpl Join. by rewrite ip_family_dec. }
  rewrite parse_v4_print by (repeat constructor; lia). do 2 f_equal. congruence.
Qed.

(** Printing and parsing an address gives the address back, for IPv4, IPv6 and
    IPv4-mapped addresses and every placement of the compressed zero run. *)
Lemma ParseIP_IPString (ip : IP) : wf_ip ip -> ParseIP (IPString ip) = Some ip.
Proof.
  intros Hwf. unfold IPString. destruct (To4 ip) as [bytes|] eqn:E4.
  { apply To4_Some in E4 as (a & b & -> & ->). destruct Hwf as [_ Hg].
    rewrite !Forall_cons in Hg. apply ParseIP_v4; tauto. }
  unfold string6. pose proof (longest_run_spec ip) as Hz.
  destruct (longest_run 0 ip (O, O)) as [st len]. destruct Hz as (Hz & Hle & Hn1). cbn [fst snd] in *.
  destruct Hwf as [Hlen Hg]. unfold ParseIP. destruct (len =? 0)%nat eqn:El.
  - rewrite <- (app_nil_s (join_groups ip)) at 1. rewrite join_groups_family by (auto; lia).
    rewrite join_groups_zone_free by done. by apply parse_v6_join.
  - apply Nat.eqb_neq in El. assert (Hwf : wf_ip ip) by done.
    rewrite Hz in Hg, Hwf. apply Forall_app in Hg as [Hg1 Hg2]. apply Forall_app in Hg2 as [_ Hg3].
    rewrite join_groups_family by (try done; left; reflexivity).
    assert (contains_char "%" (join_groups (take st ip) +:+ "::" +:+ join_groups (drop (st + len) ip))
            = false) as ->.
    { rewrite join_groups_no_zone by done. by apply join_groups_zone_free. }
    rewrite (parse_v6_ellipsis _ _ len) by (done || lia). by rewrite <- Hz.
Qed.

(** ** The parser returns only well-formed addresses *)

Lemma digit_val_range c d : digit_val c = Some d -> 0 <= d < 10.
Proof. unfold digit_val. intros H. case_match eqn:E; [|done]. bools. injection H as <-. lia. Qed.

Lemma hex_val_range c d : hex_val c = Some d -> 0 <= d < 16.
Proof. unfold hex_val. intros H. repeat case_match; try done; bools; injection H as <-; lia. Qed.

Lemma parse_v4_wf s : forall pos val n fields r,
  0 <= val < 256 -> Forall (fun x => 0 <= x < 256) fields ->
  parse_v4 s pos val n fields = Some r -> Forall (fun x => 0 <= x < 256) r.
Proof.
  induction s as [|c s IH]; intros pos val n fields r Hv Hf H; simpl in H.
  - case_match; [done|]. injection H as <-. apply Forall_app; split; [done|by constructor].
  - destruct (digit_val c) as [d|] eqn:Ed.
    + apply digit_val_range in Ed. repeat (case_match; [done|]). eapply IH; [|done|exact H]. lia.
    + repeat (case_match; try done). eapply IH; [| |exact H]; [lia|].
      apply Forall_app; split; [done|by constructor].
Qed.

Lemma scan_hex_wf s : forall off acc g off' rest,
  0 <= acc < 16 ^ Z.of_nat off -> (off <= 4)%nat ->
  scan_hex s off acc = Some (g, off', rest) -> 0 <= g < 65536.
Proof.
  assert (Hend : forall off acc, (off <= 4)%nat -> 0 <= acc < 16 ^ Z.of_nat off -> 0 <= acc < 65536).
  { intros off acc Ho Ha. split; [lia|]. eapply Z.lt_le_trans; [apply Ha|].
    change 65536 with (16 ^ 4). apply Z.pow_le_mono_r; lia. }
  induction s as [|c s IH]; intros off acc g off' rest Ha Ho H; simpl in H.
  - injection H as <- <- <-. eauto.
  - destruct (hex_val c) as [d|] eqn:Ed; [|injection H as <- <- <-; eauto].
    apply hex_val_range in Ed. destruct (3 <? off)%nat eqn:E3; [done|]. apply Nat.ltb_ge in E3.
    eapply IH; [| |exact H]; [|lia]. rewrite Nat2Z.inj_succ, Z.pow_succ_r by lia. lia.
Qed.

Lemma v6_loop_wf fuel : forall s gs ell r,
  (length gs + fuel = 8)%nat -> Forall (fun g => 0 <= g < 65536) gs ->
  (forall e, ell = Some e -> (e <= length gs)%nat) ->
  v6_loop fuel s gs ell = Some r ->
  (length r.1.2 <= 8)%nat /\ Forall (fun g => 0 <= g < 65536) r.1.2 /\
  (forall e, r.2 = Some e -> (e <= length r.1.2)%nat).
Proof.
  induction fuel as [|fuel IH]; intros s gs ell r Hl Hg He H; cbn [v6_loop] in H.
  { injection H as <-. simpl. split; [lia|done]. }
  destruct (scan_hex s 0 0) as [[[acc off] rest]|] eqn:Es; [|done].
  assert (Hacc : 0 <= acc < 65536) by (eapply (scan_hex_wf s 0); [| |exact Es]; simpl; lia).
  assert (Hsnoc : Forall (fun g => 0 <= g < 65536) (gs ++ [acc])) by (apply Forall_app; split; [done|by constructor]).
  assert (Hlen : length (gs ++ [acc]) = S (length gs)) by (rewrite length_app; simpl; lia).
  assert (He' : forall e, ell = Some e -> (e <= length (gs ++ [acc]))%nat)
    by (intros e Hs; apply He in Hs; lia).
  case_match; [done|]. destruct rest as [|c rest'].
  { injection H as <-. simpl. split; [lia|done]. }
  destruct (Ascii.eqb c "."); [|destruct (negb (Ascii.eqb c ":")); [done|]].
  - case_match; [done|]. destruct (8 <? length gs + 2)%nat eqn:E8; [done|]. apply Nat.ltb_ge in E8.
    destruct (parse_v4 s 0 0 0 []) as [[|a [|b [|c' [|d [|]]]]]|] eqn:E4; try done.
    apply parse_v4_wf in E4; [|lia|done]. rewrite !Forall_cons in E4. injection H as <-. simpl.
    rewrite length_app. simpl. split; [lia|]. split; [|intros e Hs; apply He in Hs; lia].
    apply Forall_app; split; [done|]. repeat constructor; lia.
  - destruct rest' as [|c2 rest'']; [done|]. destruct (Ascii.eqb c2 ":").
    + destruct ell; [done|]. case_match.
      * injection H as <-. simpl. split; [lia|]. split; [done|]. intros e [= <-]. lia.
      * eapply IH; [| | |exact H]; [lia|done|]. intros e [= <-]. lia.
    + eapply IH; [| | |exact H]; [lia|done|done].
Qed.

Lemma parse_v6_wf s ip : parse_v6 s = Some ip -> wf_ip ip.
Proof.
  assert (Hloop : forall s' ell, (forall e, ell = Some e -> (e <= 0)%nat) ->
            v6_loop 8 s' [] ell ≫= v6_finish = Some ip -> wf_ip ip).
  { intros s' ell He H. destruct (v6_loop 8 s' [] ell) as [r|] eqn:E; [|done]. simpl in H.
    apply v6_loop_wf in E as (Hl & Hg & Hell); [|done..]. destruct r as [[s2 gs] ell2].
    cbn [fst snd] in *. unfold v6_finish in H. repeat case_match; try done.
    - injection H as <-. rename select ((_ <? _)%nat = true) into Hlt. apply Nat.ltb_lt in Hlt.
      specialize (Hell _ eq_refl). split.
      + rewrite !length_app, length_take, length_replicate, length_drop. lia.
      + apply Forall_app; split; [by apply Forall_take|]. apply Forall_app; split; [|by apply Forall_drop].
        apply Forall_replicate. lia.
    - injection H as <-. rename select ((_ <? _)%nat = false) into Hlt. apply Nat.ltb_ge in Hlt.
      split; [lia|done]. }
  unfold parse_v6. destruct (CutPrefix s "::") as [[|c s']|].
  - intros [= <-]. split; [done|]. by repeat constructor.
  - apply Hloop. intros e [= <-]. lia.
  - apply Hloop. done.
Qed.

Lemma ParseIP_wf s ip : ParseIP s = Some ip -> wf_ip ip.
Proof.
  unfold ParseIP. intros H. repeat case_match; try done; [|by eapply parse_v6_wf].
  rename select (parse_v4 _ _ _ _ _ = _) into E4.
  apply parse_v4_wf in E4; [|lia|done]. rewrite !Forall_cons in E4. injection H as <-.
  split; [done|]. repeat constructor; lia.
Qed.

(** ** A printed address has no surrounding space *)

Fixpoint no_space (s : string) : bool :=
  match s with "" => true | String c s' => negb (is_space c) && no_space s' end.

Lemma no_space_trim s : no_space s = true -> TrimSpace s = s.
Proof.
  unfold TrimSpace. intros H.
  assert (trim_left s = s) as -> by (destruct s; simpl in *; [done|]; bools; by rewrite H).
  induction s as [|c s IH]; simpl in *; [done|]. bools. rewrite IH by done.
  rewrite H. by destruct s.
Qed.

Lemma no_space_app a b : no_space (a +:+ b) = no_space a && no_space b.
Proof. induction a; simpl; [done|]. by rewrite IHa, andb_assoc. Qed.

Lemma hex_char_no_space d : 0 <= d < 16 -> is_space (hex_char d) = false.
Proof.
  intros H. assert (In d [0;1;2;3;4;5;6;7;8;9;10;11;12;13;14;15]) as Hin by (simpl; lia).
  simpl in Hin. repeat destruct Hin as [<-|Hin]; done.
Qed.

Lemma digit_char_no_space d : 0 <= d < 10 -> is_space (digit_char d) = false.
Proof.
  intros H. assert (In d [0;1;2;3;4;5;6;7;8;9]) as Hin by (simpl; lia).
  simpl in Hin. repeat destruct Hin as [<-|Hin]; done.
Qed.

Lemma join_groups_no_space gs : Forall (fun g => 0 <= g < 65536) gs -> no_space (join_groups gs) = true.
Proof.
  assert (Hg1 : forall g, 0 <= g < 65536 -> no_space (hex_group g) = true).
  { intros g Hg. destruct (hex_digits g Hg) as ((?&?&?) & ? & ? & ? & ?). unfold hex_group.
    destruct (g <? 16) eqn:E1; [|destruct (g <? 256) eqn:E2; [|destruct (g <? 4096) eqn:E3]];
    simpl no_space; rewrite !hex_char_no_space by lia; done. }
  induction gs as [|g gs IH]; intros Hg; [done|]. apply Forall_cons in Hg as [Hg Hgs].
  destruct gs as [|g' gs]; [by apply Hg1|].
  rewrite join_groups_cons, !no_space_app, Hg1, IH by done. done.
Qed.

Lemma dec_byte_no_space b : 0 <= b < 256 -> no_space (dec_byte b) = true.
Proof.
  intros Hb. pose proof (Z.mod_pos_bound b 10 ltac:(lia)). pose proof (Z.mod_pos_bound (b / 10) 10 ltac:(lia)).
  pose proof (Z.div_pos b 10 ltac:(lia) ltac:(lia)). pose proof (Z.div_pos b 100 ltac:(lia) ltac:(lia)).
  pose proof (Z.div_lt_upper_bound b 100 10 ltac:(lia) ltac:(lia)).
  unfold dec_byte. destruct (b <? 10) eqn:E1; [|destruct (b <? 100) eqn:E2]; simpl no_space;
  rewrite !digit_char_no_space; try done; try lia.
  split; [lia|]. apply Z.div_lt_upper_bound; lia.
Qed.

Lemma IPString_no_space ip : wf_ip ip -> TrimSpace (IPString ip) = IPString ip.
Proof.
  intros [Hlen Hg]. apply no_space_trim. unfold IPString. destruct (To4 ip) as [bytes|] eqn:E4.
  { apply To4_Some in E4 as (a & b & -> & ->). rewrite !Forall_cons in Hg.
    destruct (byte_split a) as (?&?&_); [tauto|]. destruct (byte_split b) as (?&?&_); [tauto|].
    cbn [fmap list_fmap Join]. rewrite !no_space_app, !dec_byte_no_space by done. done. }
  unfold string6. destruct (longest_run _ _ _) as [st len].
  destruct (len =? 0)%nat; [by apply join_groups_no_space|].
  rewrite !no_space_app. bools; [|done|]; apply join_groups_no_space; auto using Forall_take, Forall_drop.
Qed.
