(* ===== verification/GoEncoding.v ===== *)
(** * encoding/json, encoding/hex and crypto/sha256 as the program uses them

    The controller identifies plans, operations and ownership claims by the
    lowercase hexadecimal SHA-256 digest of a JSON document.  The three
    encoders are executable here, so identifiers can be computed and compared.
    JSON strings are escaped as [json.Marshal] does on ASCII; bytes above 127
    are passed through, as valid UTF-8 other than U+2028 and U+2029 is. *)
From Stdlib Require Import String Ascii ZArith Lia.
From S2P Require Import Prelude GoStrings.
Open Scope string_scope.
Open Scope list_scope.
Open Scope Z_scope.

(** ** SHA-256 on lists of bytes *)

Definition w32 (x : Z) : Z := x mod 2 ^ 32.
Definition rotr (n x : Z) : Z := Z.lor (Z.shiftr x n) (w32 (Z.shiftl x (32 - n))).
Definition not32 (x : Z) : Z := Z.lxor x (2 ^ 32 - 1).

(** FIPS 180-4 takes the constants from the first primes: 32 bits of the
    fractional parts of their cube roots and square roots. *)
Definition primes_to (bound : nat) : list Z :=
  let candidates := map (fun i => Z.of_nat i + 2) (seq 0 bound) in
  List.filter (fun p => forallb (fun d => (p <=? d) || negb (p mod d =? 0)) candidates) candidates.

(** The largest [r] below [2 ^ n] with [lo + r] not above the cube root of [x]. *)
Fixpoint cube_root (n : nat) (lo x : Z) : Z :=
  match n with
  | O => lo
  | S n => let mid := lo + 2 ^ Z.of_nat n in cube_root n (if mid ^ 3 <=? x then mid else lo) x
  end.

Definition sha_k : list Z :=
  Eval vm_compute in map (fun p => w32 (cube_root 40 0 (p * 2 ^ 96))) (primes_to 310).

Definition sha_init : list Z := Eval vm_compute in map (fun p => w32 (Z.sqrt (p * 2 ^ 64))) (primes_to 18).

Definition be_bytes (n : nat) (x : Z) : list Z :=
  map (fun i => Z.land (Z.shiftr x (8 * Z.of_nat (n - 1 - i))) 255) (seq 0 n).

Definition sha_pad (msg : list Z) : list Z :=
  let len := Z.of_nat (length msg) in
  let zeros := Z.to_nat ((55 - len) mod 64) in
  msg ++ [0x80] ++ repeat 0 zeros ++ be_bytes 8 (8 * len).

Fixpoint be_words (bytes : list Z) : list Z :=
  match bytes with
  | a :: b :: c :: d :: rest => (Z.shiftl a 24 + Z.shiftl b 16 + Z.shiftl c 8 + d) :: be_words rest
  | _ => []
  end.

(** The message schedule, newest word first. *)
Fixpoint sha_extend (n : nat) (rw : list Z) : list Z :=
  match n with
  | O => rw
  | S n =>
      let g i := nth i rw 0 in
      let s0 := Z.lxor (Z.lxor (rotr 7 (g 14%nat)) (rotr 18 (g 14%nat))) (Z.shiftr (g 14%nat) 3) in
      let s1 := Z.lxor (Z.lxor (rotr 17 (g 1%nat)) (rotr 19 (g 1%nat))) (Z.shiftr (g 1%nat) 10) in
      sha_extend n (w32 (g 15%nat + s0 + g 6%nat + s1) :: rw)
  end.

Definition sha_round (st : list Z) (kw : Z * Z) : list Z :=
  match st with
  | [a; b; c; d; e; f; g; h] =>
      let s1 := Z.lxor (Z.lxor (rotr 6 e) (rotr 11 e)) (rotr 25 e) in
      let ch := Z.lxor (Z.land e f) (Z.land (not32 e) g) in
      let t1 := w32 (h + s1 + ch + kw.1 + kw.2) in
      let s0 := Z.lxor (Z.lxor (rotr 2 a) (rotr 13 a)) (rotr 22 a) in
      let maj := Z.lxor (Z.lxor (Z.land a b) (Z.land a c)) (Z.land b c) in
      let t2 := w32 (s0 + maj) in
      [w32 (t1 + t2); a; b; c; w32 (d + t1); e; f; g]
  | _ => st
  end.

Definition sha_block (st block : list Z) : list Z :=
  let w := rev (sha_extend 48 (rev block)) in
  zip_with (fun x y => w32 (x + y)) st (foldl sha_round st (combine sha_k w)).

Fixpoint sha_blocks (fuel : nat) (st words : list Z) : list Z :=
  match fuel, words with
  | S fuel, _ :: _ => sha_blocks fuel (sha_block st (take 16 words)) (drop 16 words)
  | _, _ => st
  end.

Definition Sum256 (msg : list Z) : list Z :=
  let words := be_words (sha_pad msg) in
  sha_blocks (length words) sha_init words ≫= be_bytes 4.

Fixpoint bytes_of (s : string) : list Z :=
  match s with "" => [] | String c s' => Z.of_nat (nat_of_ascii c) :: bytes_of s' end.

Definition hex_digit (n : Z) : ascii :=
  ascii_of_nat (Z.to_nat (if n <? 10 then 48 + n else 87 + n)).

Definition EncodeToString (bytes : list Z) : string :=
  foldr (fun b s => String (hex_digit (b / 16)) (String (hex_digit (b mod 16)) s)) "" bytes.

Definition hex_sha256 (s : string) : string := EncodeToString (Sum256 (bytes_of s)).

Example hex_sha256_abc :
  hex_sha256 "abc" = "ba7816bf8f01cfea414140de5dae2223b00361a396177a9cb410ff61f20015ad".
Proof. vm_compute. reflexivity. Qed.

Example hex_sha256_two_blocks :
  hex_sha256 "abcdbcdecdefdefgefghfghighijhijkijkljklmklmnlmnomnopnopq"
  = "248d6a61d20638b8e5c026930c3e6039a33ce45964ff2167f6ecedd419db06c1".
Proof. vm_compute. reflexivity. Qed.

(** ** JSON *)

Inductive json : Type :=
| JString (s : string)
| JInt (n : Z)
| JBool (b : bool)
| JNull
| JArray (items : list json)
| JObject (fields : list (string * json)).

Definition quote : string := String "034" "".

Definition escape_char (c : ascii) (rest : string) : string :=
  let n := nat_of_ascii c in
  if (n =? 34)%nat then String "092" (String "034" rest)
  else if (n =? 92)%nat then String "092" (String "092" rest)
  else if (n =? 8)%nat then String "092" (String "b" rest)
  else if (n =? 12)%nat then String "092" (String "f" rest)
  else if (n =? 10)%nat then String "092" (String "n" rest)
  else if (n =? 13)%nat then String "092" (String "r" rest)
  else if (n =? 9)%nat then String "092" (String "t" rest)
  else if (n <? 32)%nat || (n =? 60)%nat || (n =? 62)%nat || (n =? 38)%nat then
    String "092" ("u00" +:+ String (hex_digit (Z.of_nat n / 16)) (String (hex_digit (Z.of_nat n mod 16)) rest))
  else String c rest.

Fixpoint escape (s : string) : string :=
  match s with "" => "" | String c s' => escape_char c (escape s') end.

Definition json_string (s : string) : string := quote +:+ escape s +:+ quote.

(** [fmt.Sprint] and [json.Marshal] of integers. *)
Fixpoint print_nat_fuel (fuel : nat) (n : Z) (acc : string) : string :=
  match fuel with
  | O => acc
  | S fuel =>
      let acc := String (ascii_of_nat (Z.to_nat (48 + n mod 10))) acc in
      if n / 10 =? 0 then acc else print_nat_fuel fuel (n / 10) acc
  end.

(** A number has at most one decimal digit per binary digit. *)
Definition digits_fuel (n : Z) : nat := S (Z.to_nat (Z.log2 n)).

Definition FormatInt (n : Z) : string :=
  if n <? 0 then String "-" (print_nat_fuel (digits_fuel (- n)) (- n) "") else print_nat_fuel (digits_fuel n) n "".

Definition FormatBool (b : bool) : string := if b then "true" else "false".

Fixpoint Marshal (j : json) : string :=
  match j with
  | JString s => json_string s
  | JInt n => FormatInt n
  | JBool b => FormatBool b
  | JNull => "null"
  | JArray items => "[" +:+ Join (map Marshal items) "," +:+ "]"
  | JObject fields =>
      "{" +:+ Join (map (fun f => json_string f.1 +:+ ":" +:+ Marshal f.2) fields) "," +:+ "}"
  end.

(** A field with [omitempty]. *)
Definition omit_string (name s : string) : list (string * json) :=
  if (s =s "")%go then [] else [(name, JString s)].
Definition omit_array (name : string) (items : list json) : list (string * json) :=
  match items with [] => [] | _ => [(name, JArray items)] end.
Definition omit_object (name : string) (o : option json) : list (string * json) :=
  match o with None => [] | Some j => [(name, j)] end.

(** ** Decimal printing is injective *)

Fixpoint decode_from (v : Z) (s : string) : Z :=
  match s with "" => v | String c s' => decode_from (v * 10 + (Z.of_nat (nat_of_ascii c) - 48)) s' end.

Lemma digit_value d : 0 <= d < 10 -> Z.of_nat (nat_of_ascii (ascii_of_nat (Z.to_nat (48 + d)))) - 48 = d.
Proof. intros Hd. rewrite nat_ascii_embedding by lia. lia. Qed.

Lemma print_nat_decode fuel : forall n acc, 0 <= n -> (n = 0 -> fuel <> O) -> Z.log2 n < Z.of_nat fuel ->
  decode_from 0 (print_nat_fuel fuel n acc) = decode_from n acc.
Proof.
  induction fuel as [|fuel IH]; intros n acc Hn H0 Hf.
  { destruct (Z.eq_dec n 0) as [->|]; [by destruct (H0 eq_refl)|]. pose proof (Z.log2_nonneg n). lia. }
  cbn [print_nat_fuel]. pose proof (Z.mod_pos_bound n 10 ltac:(lia)) as Hm.
  pose proof (Z.div_mod n 10 ltac:(lia)) as Hdm. destruct (Z.eqb_spec (n / 10) 0) as [E|E].
  - cbn [decode_from]. rewrite digit_value by done. f_equal. lia.
  - assert (Hd : 0 < n / 10) by (pose proof (Z.div_pos n 10); lia).
    rewrite IH; [|lia|lia|].
    + cbn [decode_from]. rewrite digit_value by done. f_equal. lia.
    + assert (Hl : Z.log2 (n / 10) < Z.log2 n); [|lia].
      apply Z.log2_lt_pow2; [done|]. destruct (Z.log2_spec n) as [_ Hs]; [lia|].
      rewrite Z.pow_succ_r in Hs by apply Z.log2_nonneg. lia.
Qed.

Lemma FormatInt_decode n : 0 <= n -> decode_from 0 (FormatInt n) = n.
Proof.
  intros Hn. unfold FormatInt. destruct (Z.ltb_spec n 0); [lia|].
  rewrite print_nat_decode; [done|done|done|]. unfold digits_fuel. pose proof (Z.log2_nonneg n). lia.
Qed.

Lemma FormatInt_inj a b : 0 <= a -> 0 <= b -> FormatInt a = FormatInt b -> a = b.
Proof. intros Ha Hb E. rewrite <- (FormatInt_decode a Ha), <- (FormatInt_decode b Hb). by rewrite E. Qed.

Lemma digit_not_colon d : 0 <= d < 10 -> ascii_of_nat (Z.to_nat (48 + d)) <> ":"%char.
Proof.
  intros Hd. assert (H : d = 0 \/ d = 1 \/ d = 2 \/ d = 3 \/ d = 4 \/ d = 5 \/ d = 6 \/ d = 7 \/ d = 8 \/ d = 9) by lia.
  repeat (destruct H as [->|H]; [discriminate|]). subst. discriminate.
Qed.

Lemma FormatInt_no_colon n : 0 <= n -> contains_char ":" (FormatInt n) = false.
Proof.
  intros Hn. unfold FormatInt. destruct (Z.ltb_spec n 0); [lia|].
  assert (G : forall fuel m acc, contains_char ":" acc = false -> contains_char ":" (print_nat_fuel fuel m acc) = false).
  { induction fuel as [|fuel IH]; intros m acc Ha; cbn [print_nat_fuel]; [done|].
    assert (Hs : contains_char ":" (String (ascii_of_nat (Z.to_nat (48 + m mod 10))) acc) = false).
    { cbn [contains_char]. rewrite Ha, orb_false_r. apply Ascii.eqb_neq. intros E. symmetry in E.
      revert E. apply digit_not_colon, Z.mod_pos_bound. lia. }
    destruct (_ =? 0); [done|]. by apply IH. }
  by apply G.
Qed.
