(* ===== verification/Endpoint.v ===== *)
(** * internal/dns/endpoint.go: DNS endpoints and their identities

    The record [Endpoint], its normalization, its three keys ([Key],
    [LogicalKey], [MutationGroupKey]) and [BuildEndpoints]. *)
From Stdlib Require Import String Ascii ZArith Lia.
From S2P Require Import Prelude GoStrings NetIP.
Open Scope string_scope.
Open Scope list_scope.
Open Scope go_scope.

Definition RecordA : string := "A".
Definition RecordAAAA : string := "AAAA".
Definition RecordCNAME : string := "CNAME".

Record SourceRef := mkSourceRef {
  APIVersion : string;
  Kind : string;
  Namespace : string;
  Name : string;
  UID : string
}.

Definition zeroSourceRef : SourceRef := mkSourceRef "" "" "" "" "".

(** [SourceRef.String]. *)
Definition SourceRef_String (s : SourceRef) : string :=
  if Namespace s =s "" then Kind s +:+ "/" +:+ Name s
  else Kind s +:+ "/" +:+ Namespace s +:+ "/" +:+ Name s.

Record Endpoint := mkEndpoint {
  DNSName : string;
  RecordType : string;
  Targets : list string;
  TTL : Z;
  Zone : string;
  OwnerID : string;
  Source : SourceRef;
  ProviderID : string;
  Disabled : bool
}.

(** The zero value [dns.Endpoint{}]. *)
Definition zeroEndpoint : Endpoint := mkEndpoint "" "" [] 0 "" "" zeroSourceRef "" false.

#[export] Instance SourceRef_eq_dec : EqDecision SourceRef.
Proof. solve_decision. Defined.
#[export] Instance Endpoint_eq_dec : EqDecision Endpoint.
Proof. solve_decision. Defined.
#[export] Instance Endpoint_inhabited : Inhabited Endpoint := populate zeroEndpoint.

(** Field updates [e.Disabled = b], [e.OwnerID = o], [e.Zone = z]. *)
Definition set_Disabled (b : bool) (e : Endpoint) : Endpoint :=
  mkEndpoint (DNSName e) (RecordType e) (Targets e) (TTL e) (Zone e) (OwnerID e) (Source e) (ProviderID e) b.
Definition set_OwnerID (o : string) (e : Endpoint) : Endpoint :=
  mkEndpoint (DNSName e) (RecordType e) (Targets e) (TTL e) (Zone e) o (Source e) (ProviderID e) (Disabled e).
Definition set_Zone (z : string) (e : Endpoint) : Endpoint :=
  mkEndpoint (DNSName e) (RecordType e) (Targets e) (TTL e) z (OwnerID e) (Source e) (ProviderID e) (Disabled e).
Definition set_Source (s : SourceRef) (e : Endpoint) : Endpoint :=
  mkEndpoint (DNSName e) (RecordType e) (Targets e) (TTL e) (Zone e) (OwnerID e) s (ProviderID e) (Disabled e).

(** ** Normalization *)

Definition NormalizeDNSName (name : string) : string :=
  TrimSuffix (ToLower (TrimSpace name)) ".".

Definition NormalizeTarget (target : string) : string :=
  let target := TrimSpace target in
  match ParseIP target with
  | Some ip => IPString ip
  | None => NormalizeDNSName target
  end.

Definition sort_strings (l : list string) : list string := sort_by_key (fun s => s) l.

Definition Normalize (e : Endpoint) : Endpoint :=
  mkEndpoint
    (NormalizeDNSName (DNSName e))
    (ToUpper (TrimSpace (RecordType e)))
    (sort_strings (NormalizeTarget <$> Targets e))
    (TTL e)
    (NormalizeDNSName (Zone e))
    (OwnerID e) (Source e) (ProviderID e) (Disabled e).

(** ** Identities *)

Definition Key (e : Endpoint) : string :=
  let e := Normalize e in
  let parts := [Zone e; DNSName e; RecordType e] in
  let parts := match Targets e with t :: _ => parts ++ [t] | [] => parts end in
  Join parts "|".

Definition LogicalKey (e : Endpoint) : string :=
  let e := Normalize e in Join [Zone e; DNSName e; RecordType e] "|".

Definition MutationGroupKey (e : Endpoint) : string :=
  let e := Normalize e in Join [Zone e; DNSName e] "|".

Fixpoint targets_equal (a b : list string) : bool :=
  match a, b with
  | [], [] => true
  | x :: a', y :: b' => (x =s y) && targets_equal a' b'
  | _, _ => false
  end.

Definition EqualRecord (e other : Endpoint) : bool :=
  let e := Normalize e in
  let other := Normalize other in
  if negb (DNSName e =s DNSName other) || negb (RecordType e =s RecordType other)
     || negb (TTL e =? TTL other)%Z || negb (Bool.eqb (Disabled e) (Disabled other))
  then false
  else targets_equal (Targets e) (Targets other).

Definition RecordKey (zone name recordType : string) : string :=
  Join [NormalizeDNSName zone; NormalizeDNSName name; ToUpper (TrimSpace recordType)] "|".

Definition RecordTypeForTarget (target : string) : string :=
  match ParseIP (TrimSpace target) with
  | None => RecordCNAME
  | Some ip => match To4 ip with Some _ => RecordA | None => RecordAAAA end
  end.

(** ** [BuildEndpoints]: one endpoint per distinct non-empty target *)

Definition build_step (hostname : string) (ttl : Z) (zone ownerID : string) (source : SourceRef)
    (st : gset string * list Endpoint) (target : string) : gset string * list Endpoint :=
  let '(seen, endpoints) := st in
  let target := NormalizeTarget target in
  if target =s "" then st
  else
    let recordType := RecordTypeForTarget target in
    let key := RecordKey zone hostname recordType +:+ "|" +:+ target in
    if bool_decide (key ∈ seen) then st
    else ({[key]} ∪ seen,
          endpoints ++ [Normalize (mkEndpoint (NormalizeDNSName hostname) recordType [target] ttl
                                     zone ownerID source "" false)]).

Definition BuildEndpoints (hostname : string) (targets : list string) (ttl : Z)
    (zone ownerID : string) (source : SourceRef) : list Endpoint :=
  sort_by_key Key
    (foldl (build_step hostname ttl zone ownerID source) (∅, []) targets).2.

(** ** Normalization laws *)

Lemma ToLower_prefix a b : ToLower (a +:+ b) = a +:+ b -> ToLower b = b -> ToLower a = a.
Proof.
  unfold ToLower. rewrite str_map_app. intros H Hb. rewrite Hb in H. by apply app_inv_tail_s in H.
Qed.

Lemma NormalizeDNSName_lower n : ToLower (NormalizeDNSName n) = NormalizeDNSName n.
Proof.
  unfold NormalizeDNSName, TrimSuffix.
  destruct (CutSuffix (ToLower (TrimSpace n)) ".") as [p|] eqn:E; simpl; [|apply ToLower_idem].
  apply CutSuffix_Some in E. apply (ToLower_prefix p "."); [|done].
  rewrite <- E. apply ToLower_idem.
Qed.

(** A name that normalization leaves alone: no surrounding space, no trailing
    dot, lower case.  [NormalizeDNSName] removes one trailing dot only, so that
    its result need not be canonical (see [NormalizeDNSName_not_idempotent]). *)
Definition canonical_name (n : string) : Prop := NormalizeDNSName n = n.
Definition canonical_target (t : string) : Prop := NormalizeTarget t = t.

Lemma NormalizeDNSName_canonical n :
  TrimSpace (NormalizeDNSName n) = NormalizeDNSName n ->
  HasSuffix (NormalizeDNSName n) "." = false -> canonical_name (NormalizeDNSName n).
Proof.
  intros Ht Hd. unfold canonical_name. set (r := NormalizeDNSName n) in *.
  unfold NormalizeDNSName. rewrite Ht. unfold r at 1. rewrite NormalizeDNSName_lower.
  by apply TrimSuffix_no.
Qed.

Example NormalizeDNSName_not_idempotent :
  NormalizeDNSName "a.example.com.." = "a.example.com." /\
  NormalizeDNSName (NormalizeDNSName "a.example.com..") = "a.example.com".
Proof. vm_compute. split; reflexivity. Qed.

Lemma NormalizeTarget_ip t ip :
  ParseIP (TrimSpace t) = Some ip ->
  NormalizeTarget t = IPString ip /\ ParseIP (TrimSpace (NormalizeTarget t)) = Some ip.
Proof.
  intros H. pose proof (ParseIP_wf _ _ H) as Hwf. unfold NormalizeTarget. rewrite H. split; [done|].
  rewrite IPString_no_space by done. by apply ParseIP_IPString.
Qed.

Lemma NormalizeTarget_ip_canonical t ip : ParseIP (TrimSpace t) = Some ip -> canonical_target (NormalizeTarget t).
Proof.
  intros H. destruct (NormalizeTarget_ip t ip H) as [E Hp]. unfold canonical_target.
  destruct (NormalizeTarget_ip _ _ Hp) as [E' _]. congruence.
Qed.

#[export] Instance str_le_antisymm : AntiSymm eq (fun x y : string => (y <s x) = false).
Proof. intros x y H1 H2. by apply str_ltb_total. Qed.

Lemma sort_strings_unique l1 l2 : l1 ≡ₚ l2 -> sort_strings l1 = sort_strings l2.
Proof.
  intros Hp. eapply (StronglySorted_unique (fun x y : string => (y <s x) = false)).
  - apply (sort_by_key_sorted (fun s => s)).
  - apply (sort_by_key_sorted (fun s => s)).
  - unfold sort_strings. by rewrite !sort_by_key_perm.
Qed.

Lemma sort_strings_idem l : sort_strings (sort_strings l) = sort_strings l.
Proof. apply sort_strings_unique. unfold sort_strings. by rewrite sort_by_key_perm. Qed.

Lemma sort_strings_Forall (P : string -> Prop) l : Forall P (sort_strings l) <-> Forall P l.
Proof. unfold sort_strings. by rewrite sort_by_key_perm. Qed.

(** An endpoint whose one-pass normalization is final. *)
Definition settled (e : Endpoint) : Prop :=
  canonical_name (NormalizeDNSName (DNSName e)) /\ canonical_name (NormalizeDNSName (Zone e)) /\
  Forall (fun t => canonical_target (NormalizeTarget t)) (Targets e).

Lemma fmap_fixed {A} (f : A -> A) l : Forall (fun x => f x = x) l -> f <$> l = l.
Proof. induction 1 as [|x l Hx Hl IH]; [done|]. by rewrite fmap_cons, Hx, IH. Qed.

Lemma Normalize_settled e : settled e -> Normalize (Normalize e) = Normalize e.
Proof.
  intros (Hn & Hz & Ht). unfold Normalize. simpl.
  rewrite Hn, Hz. autorewrite with fgdns_rw.
  rewrite fmap_fixed; [by rewrite sort_strings_idem|].
  apply sort_strings_Forall, Forall_fmap. exact Ht.
Qed.

(** Normalized endpoints, as the planner handles them. *)
Definition normalized (e : Endpoint) : Prop := Normalize e = e.

Lemma normalized_settled e : settled e -> normalized (Normalize e).
Proof. apply Normalize_settled. Qed.

(** ** Identity laws *)

(** The key of an endpoint is determined by, and determines, its zone, name,
    type and first target, as long as ["|"] occurs in none of the first three. *)
Definition identity_of (e : Endpoint) : string * string * string * option string :=
  let e := Normalize e in (Zone e, DNSName e, RecordType e, head (Targets e)).

Definition pipe_free (e : Endpoint) : Prop :=
  contains_char "|" (Zone (Normalize e)) = false /\
  contains_char "|" (DNSName (Normalize e)) = false /\
  contains_char "|" (RecordType (Normalize e)) = false.

(** No ["|"] in the fields as they arrive. *)
Definition no_pipe (e : Endpoint) : Prop :=
  contains_char "|" (Zone e) = false /\ contains_char "|" (DNSName e) = false /\
  contains_char "|" (RecordType e) = false.

Lemma NormalizeDNSName_no_pipe n : contains_char "|" n = false -> contains_char "|" (NormalizeDNSName n) = false.
Proof.
  intros Hn. apply contains_char_TrimSuffix, contains_char_map; [apply lower_char_pipe|].
  by apply contains_char_TrimSpace.
Qed.

Lemma Normalize_no_pipe e : no_pipe e -> no_pipe (Normalize e).
Proof.
  intros (Hz & Hn & Ht). split; [|split]; simpl; try (by apply NormalizeDNSName_no_pipe).
  apply contains_char_map; [apply upper_char_pipe|]. by apply contains_char_TrimSpace.
Qed.

Lemma no_pipe_pipe_free e : no_pipe e -> pipe_free e.
Proof. apply Normalize_no_pipe. Qed.

Lemma RecordType_Normalize e : RecordType (Normalize (Normalize e)) = RecordType (Normalize e).
Proof. simpl. by autorewrite with fgdns_rw. Qed.

Lemma Key_unfold e : Key e = LogicalKey e +:+
  match Targets (Normalize e) with t :: _ => "|" +:+ t | [] => "" end.
Proof.
  unfold Key, LogicalKey. destruct (Targets (Normalize e)) as [|t ts]; cbn [app Join].
  - by rewrite app_nil_s.
  - by rewrite <- !app_assoc_s.
Qed.

Lemma LogicalKey_unfold e :
  LogicalKey e = MutationGroupKey e +:+ String "|" (RecordType (Normalize e)).
Proof. unfold LogicalKey, MutationGroupKey. cbn [Join]. by rewrite <- !app_assoc_s. Qed.

Lemma contains_char_cons c d s : contains_char c (String d s) = Ascii.eqb c d || contains_char c s.
Proof. reflexivity. Qed.

Lemma contains_char_sep c s : contains_char c (String c s) = true.
Proof. rewrite contains_char_cons, Ascii.eqb_refl. done. Qed.

Lemma sep_opt_unique c a a' (b b' : option string) :
  contains_char c a = false -> contains_char c a' = false ->
  a +:+ match b with Some t => String c t | None => "" end
  = a' +:+ match b' with Some t => String c t | None => "" end -> a = a' /\ b = b'.
Proof.
  intros Ha Ha' H. destruct b as [t|], b' as [t'|].
  - destruct (sep_split_unique c a t a' t') as [-> ->]; done.
  - rewrite app_nil_s in H. exfalso. rewrite <- H, contains_char_app, contains_char_sep, orb_true_r in Ha'. done.
  - rewrite app_nil_s in H. exfalso. rewrite H, contains_char_app, contains_char_sep, orb_true_r in Ha. done.
  - rewrite !app_nil_s in H. done.
Qed.

Lemma Key_as_opt e :
  Key e = Zone (Normalize e) +:+ String "|" (DNSName (Normalize e) +:+ String "|"
    (RecordType (Normalize e) +:+ match head (Targets (Normalize e)) with Some t => String "|" t | None => "" end)).
Proof.
  rewrite Key_unfold. unfold LogicalKey. cbn [Join]. rewrite <- !app_assoc_s.
  by destruct (Targets (Normalize e)).
Qed.

Lemma Key_inj e1 e2 : pipe_free e1 -> pipe_free e2 -> Key e1 = Key e2 -> identity_of e1 = identity_of e2.
Proof.
  intros (Hz1 & Hn1 & Ht1) (Hz2 & Hn2 & Ht2). rewrite !Key_as_opt. intros H.
  apply sep_split_unique in H as [Ez H]; [|done..].
  apply sep_split_unique in H as [En H]; [|done..].
  apply sep_opt_unique in H as [Et Eh]; [|done..].
  unfold identity_of. congruence.
Qed.

Lemma Key_ext e1 e2 : identity_of e1 = identity_of e2 -> Key e1 = Key e2.
Proof.
  unfold identity_of. cbv zeta. rewrite !Key_as_opt.
  generalize (Normalize e1) (Normalize e2). intros n1 n2 [= -> -> -> ->]. done.
Qed.

Lemma LogicalKey_ext e1 e2 : identity_of e1 = identity_of e2 -> LogicalKey e1 = LogicalKey e2.
Proof.
  unfold identity_of, LogicalKey. cbv zeta. generalize (Normalize e1) (Normalize e2). intros n1 n2 H.
  congruence.
Qed.

Lemma MutationGroupKey_ext e1 e2 : identity_of e1 = identity_of e2 -> MutationGroupKey e1 = MutationGroupKey e2.
Proof.
  unfold identity_of, MutationGroupKey. cbv zeta. generalize (Normalize e1) (Normalize e2). intros n1 n2 H.
  congruence.
Qed.

Lemma identity_group e1 e2 : identity_of e1 = identity_of e2 ->
  LogicalKey e1 = LogicalKey e2 /\ MutationGroupKey e1 = MutationGroupKey e2.
Proof. split; [by apply LogicalKey_ext|by apply MutationGroupKey_ext]. Qed.

(** The coarser keys of two records with the same key agree. *)
Lemma Key_coarser e1 e2 : pipe_free e1 -> pipe_free e2 -> Key e1 = Key e2 ->
  LogicalKey e1 = LogicalKey e2 /\ MutationGroupKey e1 = MutationGroupKey e2.
Proof. intros. by apply identity_group, Key_inj. Qed.

Lemma LogicalKey_coarser e1 e2 : pipe_free e1 -> pipe_free e2 -> LogicalKey e1 = LogicalKey e2 ->
  MutationGroupKey e1 = MutationGroupKey e2 /\ RecordType (Normalize e1) = RecordType (Normalize e2).
Proof.
  intros (Hz1 & Hn1 & Ht1) (Hz2 & Hn2 & Ht2). unfold LogicalKey, MutationGroupKey. cbn [Join].
  intros H. apply sep_split_unique in H as [Ez H]; [|done..]. apply sep_split_unique in H as [En Et]; [|done..].
  by rewrite Ez, En, Et.
Qed.

Lemma targets_equal_spec a b : targets_equal a b = true <-> a = b.
Proof.
  revert b. induction a as [|x a IH]; intros [|y b]; simpl; try (split; done).
  rewrite andb_true_iff, IH, eqb_eq_iff. split; [by intros [-> ->]|]. by intros [= -> ->].
Qed.

(** [EqualRecord] compares name, type, TTL, status and the target multiset. *)
Lemma EqualRecord_spec e o :
  EqualRecord e o = true <->
  DNSName (Normalize e) = DNSName (Normalize o) /\ RecordType (Normalize e) = RecordType (Normalize o) /\
  TTL e = TTL o /\ Disabled e = Disabled o /\ Targets (Normalize e) = Targets (Normalize o).
Proof.
  unfold EqualRecord. simpl TTL. simpl Disabled.
  destruct (_ || _) eqn:E.
  - split; [done|]. intros (H1 & H2 & H3 & H4 & _). exfalso. rewrite H1, H2, H3, H4 in E.
    rewrite !String.eqb_refl, Z.eqb_refl, eqb_reflx in E. done.
  - bools. rewrite targets_equal_spec. apply Z.eqb_eq in H1. apply eqb_prop in H0. tauto.
Qed.

(** ** [BuildEndpoints] *)

Section build.
Context (hostname : string) (ttl : Z) (zone ownerID : string) (source : SourceRef).

(** The endpoint of one normalized target. *)
Definition endpoint_for (target : string) : Endpoint :=
  Normalize (mkEndpoint (NormalizeDNSName hostname) (RecordTypeForTarget target) [target] ttl
               zone ownerID source "" false).

Definition build_key (target : string) : string :=
  RecordKey zone hostname (RecordTypeForTarget target) +:+ "|" +:+ target.

Lemma RecordTypeForTarget_cases t :
  RecordTypeForTarget t = RecordA \/ RecordTypeForTarget t = RecordAAAA \/ RecordTypeForTarget t = RecordCNAME.
Proof. unfold RecordTypeForTarget. repeat case_match; auto. Qed.

Lemma RecordTypeForTarget_upper t :
  ToUpper (TrimSpace (RecordTypeForTarget t)) = RecordTypeForTarget t /\
  contains_char "|" (RecordTypeForTarget t) = false.
Proof. destruct (RecordTypeForTarget_cases t) as [->|[->| ->]]; done. Qed.

Lemma build_key_inj t t' : build_key t = build_key t' -> t = t'.
Proof.
  unfold build_key, RecordKey. rewrite !(proj1 (RecordTypeForTarget_upper _)).
  cbn [Join]. rewrite <- !app_assoc_s. intros H.
  do 4 apply app_inv_head_s in H. apply sep_split_unique in H as [_ H]; [done|..];
  apply RecordTypeForTarget_upper.
Qed.

(** Targets seen so far and the endpoints emitted for them. *)
Definition build_inv (done : list string) (st : gset string * list Endpoint) : Prop :=
  exists ts, st.2 = endpoint_for <$> ts /\ NoDup ts /\ (forall k, k ∈ st.1 <-> k ∈ build_key <$> ts) /\
    (forall t, t ∈ ts <-> t <> "" /\ t ∈ NormalizeTarget <$> done).

Lemma build_inv_step done st t : build_inv done st ->
  build_inv (done ++ [t]) (build_step hostname ttl zone ownerID source st t).
Proof.
  destruct st as [seen es]. intros (ts & He & Hnd & Hs & Hts). unfold build_step. cbn [fst snd] in *.
  assert (Hsplit : forall x, x ∈ NormalizeTarget <$> done ++ [t] <-> x ∈ NormalizeTarget <$> done \/ x = NormalizeTarget t).
  { intros x. rewrite fmap_app, elem_of_app. cbn. rewrite list_elem_of_singleton. done. }
  destruct (NormalizeTarget t =s "") eqn:E; bools.
  { exists ts. repeat split; try done; [by apply Hs|by apply Hs|by apply Hts| |].
    - apply Hsplit. left. by apply Hts.
    - intros [Hne Hx]. apply Hts. split; [done|]. apply Hsplit in Hx as [Hx| ->]; [done|congruence]. }
  case_bool_decide as Ein.
  - apply Hs, list_elem_of_fmap in Ein as (t' & Hk & Ht').
    apply build_key_inj in Hk. subst t'. exists ts.
    repeat split; try done; [by apply Hs|by apply Hs|by apply Hts| |].
    + apply Hsplit. left. by apply Hts.
    + intros [Hne Hx]. apply Hsplit in Hx as [Hx| ->]; [|done]. apply Hts. done.
  - exists (ts ++ [NormalizeTarget t]). cbn [fst snd]. split; [|split; [|split]].
    + rewrite fmap_app, He. done.
    + apply NoDup_app. split; [done|]. split; [|apply NoDup_singleton].
      intros x Hx Hx2. apply list_elem_of_singleton in Hx2 as ->. apply Ein, Hs.
      by apply (list_elem_of_fmap_2 build_key).
    + intros k. rewrite fmap_app, elem_of_union, elem_of_app, Hs. cbn.
      rewrite elem_of_singleton, list_elem_of_singleton. tauto.
    + intros x. rewrite elem_of_app, list_elem_of_singleton, Hsplit, Hts.
      split; [intros [[Hx1 Hx2]| ->]; auto|]. tauto.
Qed.

Lemma build_fold_inv targets :
  build_inv targets (foldl (build_step hostname ttl zone ownerID source) (∅, []) targets).
Proof.
  apply (foldl_ind_done build_inv).
  - exists []. repeat split; try done; [constructor|..]; cbn; set_solver.
  - intros dn st t _. apply build_inv_step.
Qed.

Lemma endpoint_for_type t : RecordType (Normalize (endpoint_for t)) = RecordTypeForTarget t.
Proof.
  change (ToUpper (TrimSpace (ToUpper (TrimSpace (RecordTypeForTarget t)))) = RecordTypeForTarget t).
  by rewrite !(proj1 (RecordTypeForTarget_upper _)).
Qed.

Lemma endpoint_for_targets t : canonical_target t -> Targets (Normalize (endpoint_for t)) = [t].
Proof.
  intros Ht. change ([NormalizeTarget (NormalizeTarget t)] = [t]).
  unfold canonical_target in Ht. by rewrite !Ht.
Qed.

Lemma endpoint_for_key t : canonical_target t ->
  Key (endpoint_for t) = NormalizeDNSName (NormalizeDNSName zone) +:+ String "|"
    (NormalizeDNSName (NormalizeDNSName (NormalizeDNSName hostname)) +:+ String "|"
      (RecordTypeForTarget t +:+ String "|" t)).
Proof. intros Ht. by rewrite Key_as_opt, endpoint_for_type, endpoint_for_targets. Qed.

Lemma endpoint_for_key_inj t t' : canonical_target t -> canonical_target t' ->
  Key (endpoint_for t) = Key (endpoint_for t') -> t = t'.
Proof.
  intros Ht Ht'. rewrite !endpoint_for_key by done. intros H.
  apply app_inv_head_s in H. injection H as H. apply app_inv_head_s in H. injection H as H.
  apply sep_split_unique in H as [_ H]; [done|..]; apply RecordTypeForTarget_upper.
Qed.

Lemma BuildEndpoints_elem targets e :
  e ∈ BuildEndpoints hostname targets ttl zone ownerID source <->
  exists t, t ∈ targets /\ NormalizeTarget t <> "" /\ e = endpoint_for (NormalizeTarget t).
Proof.
  unfold BuildEndpoints. rewrite (sort_by_key_perm Key).
  destruct (build_fold_inv targets) as (ts & -> & _ & _ & Hts).
  rewrite list_elem_of_fmap. split.
  - intros (t & -> & Ht). apply Hts in Ht as [Hne Ht]. apply list_elem_of_fmap in Ht as (t0 & -> & Ht0). eauto.
  - intros (t & Ht & Hne & ->). eexists. split; [reflexivity|]. apply Hts.
    split; [done|]. by apply (list_elem_of_fmap_2 NormalizeTarget).
Qed.

Lemma BuildEndpoints_NoDup targets :
  Forall (fun t => canonical_target (NormalizeTarget t)) targets ->
  NoDup (Key <$> BuildEndpoints hostname targets ttl zone ownerID source).
Proof.
  intros Hc. unfold BuildEndpoints. rewrite (sort_by_key_perm Key).
  destruct (build_fold_inv targets) as (ts & -> & Hnd & _ & Hts).
  assert (Hcts : Forall canonical_target ts).
  { apply Forall_forall. intros t Ht. apply Hts in Ht as [_ Ht].
    apply list_elem_of_fmap in Ht as (t0 & -> & Ht0). rewrite Forall_forall in Hc. by apply Hc. }
  clear Hts Hc. induction Hnd as [|t ts Ht Hnd IH]; [constructor|].
  apply Forall_cons in Hcts as [Hct Hcts]. rewrite !fmap_cons. constructor; [|by apply IH].
  rewrite !list_elem_of_fmap. intros (e & Hk & He). apply list_elem_of_fmap in He as (t' & -> & Ht').
  rewrite Forall_forall in Hcts. apply endpoint_for_key_inj in Hk as ->; auto.
Qed.
End build.
