(* ===== verification/Plan.v ===== *)
(** * internal/plan/plan.go: the reconciliation planner

    [BuildWithCleanupScope] compares the desired and the current records and
    returns the operations that reconcile them.  The function is split at its
    loops: each loop is a step function folded over the order in which the Go
    [range] statement visits its map ([map_range n] for the n-th statement). *)
From Stdlib Require Import String Ascii ZArith Lia.
From S2P Require Import Prelude GoStrings NetIP Endpoint.
Open Scope string_scope.
Open Scope list_scope.
Open Scope go_scope.

Definition OperationCreate : string := "create".
Definition OperationUpdate : string := "update".
Definition OperationReplace : string := "replace".
Definition OperationDelete : string := "delete".
Definition OperationDeactivate : string := "deactivate".
Definition OperationConflict : string := "conflict".

Definition CleanupDelete : string := "delete".
Definition CleanupDeactivate : string := "deactivate".
Definition CleanupKeep : string := "keep".

Record Operation := mkOperation {
  OpType : string;
  Desired : Endpoint;
  Current : Endpoint;
  Reason : string
}.

#[export] Instance Operation_eq_dec : EqDecision Operation.
Proof. solve_decision. Defined.

Definition Operation_String (o : Operation) : string :=
  let name := if DNSName (Desired o) =s "" then DNSName (Current o) else DNSName (Desired o) in
  let recordType := if RecordType (Desired o) =s "" then RecordType (Current o) else RecordType (Desired o) in
  OpType o +:+ " " +:+ recordType +:+ " " +:+ name +:+ " " +:+ Reason o.

Definition Format (operations : list Operation) : string :=
  match operations with [] => "no changes" | _ => Join (Operation_String <$> operations) (String "010" "") end.

(** ** Helpers *)

Definition operationPhaseRank (opType : string) : nat :=
  if opType =s OperationConflict then 0
  else if (opType =s OperationUpdate) || (opType =s OperationReplace) then 1
  else if opType =s OperationCreate then 2
  else if (opType =s OperationDelete) || (opType =s OperationDeactivate) then 3
  else 4.

Definition ownedBy (endpoint : Endpoint) (ownerID : string) : bool :=
  TrimSpace (OwnerID endpoint) =s TrimSpace ownerID.

Definition has_provider_id (e : Endpoint) : bool := negb (TrimSpace (ProviderID e) =s "").

Definition owned_less (a b : Endpoint) : bool :=
  if negb (Bool.eqb (has_provider_id a) (has_provider_id b)) then has_provider_id a
  else ProviderID a <s ProviderID b.

Definition partitionOwned (endpoints : list Endpoint) (ownerID : string) : list Endpoint * list Endpoint :=
  (sort_slice owned_less (filter (fun e => ownedBy e ownerID = true) endpoints),
   filter (fun e => ownedBy e ownerID = false) endpoints).

Definition groupByLogicalKey (endpoints : list Endpoint) : gmap string (list Endpoint) :=
  group_by LogicalKey endpoints.

Definition sortEndpoints (endpoints : list Endpoint) : list Endpoint := sort_by_key Key endpoints.

Definition cnameTypesConflict (first second : string) : bool :=
  negb (first =s second) && ((first =s RecordCNAME) || (second =s RecordCNAME)).

(** [cnames] counts the CNAME endpoints met so far. *)
Fixpoint multiple_cnames (cnames : nat) (endpoints : list Endpoint) : bool :=
  match endpoints with
  | [] => false
  | e :: rest =>
      if negb (RecordType e =s RecordCNAME) then multiple_cnames cnames rest
      else if (1 <? S cnames)%nat || (1 <? length (Targets e))%nat then true
      else multiple_cnames (S cnames) rest
  end.

Definition desiredSetHasMultipleCNAMETargets (endpoints : list Endpoint) : bool :=
  multiple_cnames 0 endpoints.

Fixpoint desiredSetHasCNAMEConflict (endpoints : list Endpoint) : bool :=
  match endpoints with
  | [] => false
  | e :: rest =>
      existsb (fun e' => cnameTypesConflict (RecordType e) (RecordType e')) rest
      || desiredSetHasCNAMEConflict rest
  end.

Definition hasCNAMETypeTransition (desired current : list Endpoint) : bool :=
  existsb (fun d => existsb (fun c => cnameTypesConflict (RecordType d) (RecordType c)) current) desired.

Definition needsCNAMETargetReplacement (desired current : list Endpoint) : bool :=
  match desired with
  | [d] =>
      if negb (RecordType d =s RecordCNAME) then false
      else if existsb (fun r => Key r =s Key d) current then false
      else existsb (fun r => RecordType r =s RecordCNAME) current
  | _ => false
  end.

Fixpoint remove_first_key (endpoints : list Endpoint) (targetKey : string) : list Endpoint :=
  match endpoints with
  | [] => []
  | e :: rest => if Key e =s targetKey then rest else e :: remove_first_key rest targetKey
  end.

Definition removeEndpoint (endpoints : list Endpoint) (target : Endpoint) : list Endpoint :=
  remove_first_key endpoints (Key target).

Definition unownedCNAMEConflict (desired : Endpoint) (unowned : list Endpoint) : option Endpoint :=
  List.find (fun current => cnameTypesConflict (RecordType desired) (RecordType current)) unowned.

Definition operationKey (o : Operation) : string :=
  if negb (DNSName (Desired o) =s "") then Key (Desired o) else Key (Current o).

Definition operation_less (a b : Operation) : bool :=
  let ra := operationPhaseRank (OpType a) in
  let rb := operationPhaseRank (OpType b) in
  if negb (ra =? rb)%nat then (ra <? rb)%nat
  else if negb (OpType a =s OpType b) then OpType a <s OpType b
  else operationKey a <s operationKey b.

Definition reasonCNAMEMultipleTargets : string :=
  "desired records contain more than one CNAME target for the same DNS name".

(** ** The maps the planner indexes its inputs with *)

Record PlanIndex := mkPlanIndex {
  desiredByKey : gmap string Endpoint;
  currentByKey : gmap string (list Endpoint);
  currentByLogicalKey : gmap string (list Endpoint);
  currentByMutationGroup : gmap string (list Endpoint);
  desiredByMutationGroup : gmap string (list Endpoint)
}.

Definition index_desired (desired : list Endpoint) : gmap string Endpoint :=
  foldl (fun m e => let e := Normalize e in <[Key e := e]> m) ∅ desired.

Definition slice_at (m : gmap string (list Endpoint)) (k : string) : list Endpoint := default [] (m !! k).
Definition first_of (l : list Endpoint) : Endpoint := default zeroEndpoint (head l).

Section planner.
Context `{MapRange}.
Context (ownerID cleanup : string) (cleanupAllowed : Endpoint -> bool).

Definition build_index (desired current : list Endpoint) : PlanIndex :=
  let dbk := index_desired desired in
  let cur := Normalize <$> current in
  mkPlanIndex dbk (group_by Key cur) (group_by LogicalKey cur) (group_by MutationGroupKey cur)
    (sortEndpoints <$> group_by MutationGroupKey (map_range 0 dbk).*2).

Section phases.
Context (ix : PlanIndex).

(** *** Conflicts inside the desired set *)
Definition desired_conflict (desiredEndpoints : list Endpoint) : option Operation :=
  if desiredSetHasCNAMEConflict desiredEndpoints then
    Some (mkOperation OperationConflict (first_of desiredEndpoints) zeroEndpoint
      "desired records contain a CNAME and another record type for the same DNS name")
  else if desiredSetHasMultipleCNAMETargets desiredEndpoints then
    Some (mkOperation OperationConflict (first_of desiredEndpoints) zeroEndpoint reasonCNAMEMultipleTargets)
  else None.

Definition conflict_step (mc : gmap string Operation) (entry : string * list Endpoint) : gmap string Operation :=
  match desired_conflict entry.2 with
  | Some op => <[entry.1 := op]> mc
  | None => mc
  end.

(** *** Conflicts with rows the controller does not own *)
Definition unowned_step (mc : gmap string Operation) (entry : string * Endpoint) : gmap string Operation :=
  let desiredEndpoint := entry.2 in
  let mutationGroup := MutationGroupKey desiredEndpoint in
  let mutationGroupUnowned := (partitionOwned (slice_at (currentByMutationGroup ix) mutationGroup) ownerID).2 in
  match unownedCNAMEConflict desiredEndpoint mutationGroupUnowned with
  | None => mc
  | Some currentEndpoint =>
      let candidate := mkOperation OperationConflict desiredEndpoint currentEndpoint
        "CNAME conflicts with an unowned record for this DNS name" in
      match mc !! mutationGroup with
      | Some existing =>
          if operationKey candidate <s operationKey existing then <[mutationGroup := candidate]> mc else mc
      | None => <[mutationGroup := candidate]> mc
      end
  end.

(** *** CNAME transitions: an in-place replacement or a conflict *)
Definition transition_step (st : gmap string Operation * gmap string Operation)
    (entry : string * list Endpoint) : gmap string Operation * gmap string Operation :=
  let '(mc, cr) := st in
  let '(mutationGroup, desiredEndpoints) := entry in
  match mc !! mutationGroup with
  | Some _ => st
  | None =>
      let owned := (partitionOwned (slice_at (currentByMutationGroup ix) mutationGroup) ownerID).1 in
      let targetTransition := needsCNAMETargetReplacement desiredEndpoints owned in
      if negb targetTransition && negb (hasCNAMETypeTransition desiredEndpoints owned) then st
      else
        let logicalUnowned :=
          (partitionOwned (slice_at (currentByLogicalKey ix) (LogicalKey (first_of desiredEndpoints))) ownerID).2 in
        if (length desiredEndpoints =? 1)%nat && (0 <? length logicalUnowned)%nat then
          (<[mutationGroup := mkOperation OperationConflict (first_of desiredEndpoints) (first_of logicalUnowned)
               "logical record is not owned by this controller"]> mc, cr)
        else if (length desiredEndpoints =? 1)%nat && (length owned =? 1)%nat
                && has_provider_id (first_of owned) && cleanupAllowed (first_of owned)
                && (negb targetTransition || (cleanup =s CleanupDelete)) then
          (mc, <[mutationGroup := mkOperation OperationReplace (first_of desiredEndpoints) (first_of owned)
                   (if targetTransition then "record target changed" else "record type changed")]> cr)
        else
          (<[mutationGroup := mkOperation OperationConflict (first_of desiredEndpoints) (first_of owned)
               (if targetTransition then "CNAME target transition cannot retain the current record"
                else "CNAME record-type transition requires exactly one owned current row with a provider ID")]> mc,
           cr)
  end.

(** *** The loop over the desired records *)
Record MainState := mkMainState {
  operations : list Operation;
  reportedMutationConflicts : gset string;
  createCandidates : list Endpoint;
  staleCandidates : list Endpoint;
  conflictLogicalKeys : gset string
}.

Definition desired_step (mc cr : gmap string Operation) (st : MainState) (entry : string * Endpoint) : MainState :=
  let '(key, desiredEndpoint) := entry in
  let '(mkMainState ops reported creates stales clk) := st in
  let mutationGroup := MutationGroupKey desiredEndpoint in
  match mc !! mutationGroup with
  | Some conflictOperation =>
      mkMainState (if bool_decide (mutationGroup ∈ reported) then ops else ops ++ [conflictOperation])
        ({[mutationGroup]} ∪ reported) creates stales clk
  | None =>
      match cr !! mutationGroup with
      | Some _ => st
      | None =>
          let logicalKey := LogicalKey desiredEndpoint in
          let logicalUnowned := (partitionOwned (slice_at (currentByLogicalKey ix) logicalKey) ownerID).2 in
          match logicalUnowned with
          | u :: _ =>
              mkMainState (ops ++ [mkOperation OperationConflict desiredEndpoint u
                                     "logical record is not owned by this controller"])
                reported creates stales ({[logicalKey]} ∪ clk)
          | [] =>
              let owned := (partitionOwned (slice_at (currentByKey ix) key) ownerID).1 in
              match owned with
              | [] => mkMainState ops reported (creates ++ [desiredEndpoint]) stales clk
              | mtch :: duplicates =>
                  mkMainState
                    (if negb (EqualRecord mtch desiredEndpoint) then
                       ops ++ [mkOperation OperationUpdate desiredEndpoint mtch "record differs from desired state"]
                     else ops)
                    reported creates
                    (stales ++ filter (fun d => cleanupAllowed d = true) duplicates) clk
              end
          end
      end
  end.

(** *** The loop over the current records whose key is not desired *)
Definition stale_row (mc cr : gmap string Operation) (clk : gset string) (currentEndpoint : Endpoint) : bool :=
  if bool_decide (is_Some (mc !! MutationGroupKey currentEndpoint)) then false
  else if bool_decide (is_Some (cr !! MutationGroupKey currentEndpoint)) then false
  else if bool_decide (LogicalKey currentEndpoint ∈ clk) then false
  else ownedBy currentEndpoint ownerID && cleanupAllowed currentEndpoint.

Definition stale_step (mc cr : gmap string Operation) (clk : gset string) (stales : list Endpoint)
    (entry : string * list Endpoint) : list Endpoint :=
  match desiredByKey ix !! entry.1 with
  | Some _ => stales
  | None => stales ++ filter (fun e => stale_row mc cr clk e = true) entry.2
  end.

(** *** Pairing one missing with one stale record *)
Definition pair_step (clk : gset string) (staleByLogical : gmap string (list Endpoint))
    (st : list Operation * list Endpoint * list Endpoint) (entry : string * list Endpoint)
    : list Operation * list Endpoint * list Endpoint :=
  let '(ops, creates, stales) := st in
  let '(logical, group) := entry in
  if bool_decide (logical ∈ clk) then st
  else match group, slice_at staleByLogical logical with
       | [create], [stale] =>
           if negb (has_provider_id stale) then st
           else (ops ++ [mkOperation OperationReplace create stale "record target changed"],
                 removeEndpoint creates create, removeEndpoint stales stale)
       | _, _ => st
       end.

(** *** Cleanup of the stale records *)
Definition cleanup_operation (pendingCreateGroups : gset string) (currentEndpoint : Endpoint) : list Operation :=
  if bool_decide (MutationGroupKey currentEndpoint ∈ pendingCreateGroups) then []
  else if cleanup =s CleanupDelete then
    [mkOperation OperationDelete zeroEndpoint currentEndpoint "managed record is stale"]
  else if cleanup =s CleanupDeactivate then
    if Disabled currentEndpoint then []
    else [mkOperation OperationDeactivate (set_Disabled true currentEndpoint) currentEndpoint
            "managed record is stale"]
  else [].
End phases.

(** ** [BuildWithCleanupScope] *)

Record PlanState := mkPlanState {
  index : PlanIndex;
  mutationConflicts : gmap string Operation;
  cnameReplacements : gmap string Operation;
  main : MainState;            (* after the loop over the desired records *)
  allStale : list Endpoint;    (* after the loop over the current records *)
  paired : list Operation * list Endpoint * list Endpoint
}.

Definition plan_state (desired current : list Endpoint) : PlanState :=
  let ix := build_index desired current in
  let mc0 := foldl conflict_step ∅ (map_range 1 (desiredByMutationGroup ix)) in
  let mc1 := foldl (unowned_step ix) mc0 (map_range 2 (desiredByKey ix)) in
  let '(mc, cr) := foldl (transition_step ix) (mc1, ∅) (map_range 3 (desiredByMutationGroup ix)) in
  let m := foldl (desired_step ix mc cr) (mkMainState [] ∅ [] [] ∅) (map_range 4 (desiredByKey ix)) in
  let stales := foldl (stale_step ix mc cr (conflictLogicalKeys m)) (staleCandidates m)
                  (map_range 5 (currentByKey ix)) in
  let ops := operations m ++ (map_range 6 cr).*2 in
  let p :=
    if cleanup =s CleanupDelete then
      foldl (pair_step (conflictLogicalKeys m) (groupByLogicalKey stales))
        (ops, createCandidates m, stales)
        (map_range 7 (groupByLogicalKey (createCandidates m)))
    else (ops, createCandidates m, stales) in
  mkPlanState ix mc cr m stales p.

Definition create_operation (e : Endpoint) : Operation :=
  mkOperation OperationCreate e zeroEndpoint "record is missing".

Definition pending_groups (creates : list Endpoint) : gset string :=
  foldl (fun s e => {[MutationGroupKey e]} ∪ s) ∅ creates.

Definition unsorted_operations (st : PlanState) : list Operation :=
  let '(ops, creates, stales) := paired st in
  ops ++ (create_operation <$> creates)
      ++ (stales ≫= cleanup_operation (pending_groups creates)).

Definition BuildWithCleanupScope (desired current : list Endpoint) : list Operation :=
  sort_slice operation_less (unsorted_operations (plan_state desired current)).
End planner.

Definition Build `{MapRange} (desired current : list Endpoint) (ownerID cleanup : string) : list Operation :=
  BuildWithCleanupScope ownerID cleanup (fun _ => true) desired current.
