(* ===== verification/PlanSafety.v ===== *)
(** * What a plan may contain: safety of internal/plan/plan.go

    The inductive relation [justified] states, per operation type, why the
    planner may emit an operation; [plan_justified] shows that it emits no
    other.  The further sections show that conflicts isolate a DNS name, that
    creates never put a CNAME beside another record, and that every desired
    record is accounted for. *)
From Stdlib Require Import String Ascii ZArith Lia.
From S2P Require Import Prelude GoStrings NetIP Endpoint Plan.
Open Scope string_scope.
Open Scope list_scope.
Open Scope go_scope.

(** ** The index *)

Lemma index_desired_foldl (m : gmap string Endpoint) desired k e :
  foldl (fun m e => let e := Normalize e in <[Key e := e]> m) m desired !! k = Some e ->
  m !! k = Some e \/ exists d, d ∈ desired /\ e = Normalize d /\ k = Key e.
Proof.
  revert m. induction desired as [|d desired IH]; intros m H; simpl in H; [auto|].
  apply IH in H as [H|(d' & Hd' & -> & ->)].
  - rewrite lookup_insert in H. case_decide as Ek; [|auto]. injection H as <-.
    right. exists d. split; [left|done].
  - right. exists d'. split; [by right|done].
Qed.

Lemma index_desired_Some desired k e :
  index_desired desired !! k = Some e -> exists d, d ∈ desired /\ e = Normalize d /\ k = Key e.
Proof. intros H. apply index_desired_foldl in H as [H|H]; [by rewrite lookup_empty in H|done]. Qed.

Lemma index_desired_key desired k e : index_desired desired !! k = Some e -> k = Key e.
Proof. intros H. by apply index_desired_Some in H as (d & _ & _ & ->). Qed.

Lemma index_desired_mono (m : gmap string Endpoint) desired k :
  is_Some (m !! k) -> is_Some (foldl (fun m e => let e := Normalize e in <[Key e := e]> m) m desired !! k).
Proof.
  revert m. induction desired as [|d desired IH]; intros m H; simpl; [done|].
  apply IH. rewrite lookup_insert. case_decide; [done|done].
Qed.

Lemma index_desired_complete desired d :
  d ∈ desired -> is_Some (index_desired desired !! Key (Normalize d)).
Proof.
  unfold index_desired. generalize (∅ : gmap string Endpoint). intros m Hd. revert m.
  induction Hd as [d desired|d d' desired Hd IH]; intros m; simpl; [|apply IH].
  apply index_desired_mono. rewrite lookup_insert_eq. eauto.
Qed.

(** A key maps to the last of its records. *)
Lemma index_desired_last desired k e : index_desired desired !! k = Some e ->
  exists before d after, desired = before ++ d :: after /\ e = Normalize d /\ Key (Normalize d) = k /\
    (forall x, x ∈ after -> Key (Normalize x) <> k).
Proof.
  unfold index_desired. induction desired as [|d l IH] using rev_ind; [cbn; by rewrite lookup_empty|].
  rewrite foldl_app. cbn. destruct (decide (Key (Normalize d) = k)) as [<-|Hk].
  - rewrite lookup_insert_eq. intros [= <-]. exists l, d, []. split_and!; try done. intros x Hx. by apply elem_of_nil in Hx.
  - rewrite lookup_insert_ne by done. intros H. destruct (IH H) as (b & m & a & -> & He & Hm & Ha).
    exists b, m, (a ++ [d]). split; [by rewrite <- app_assoc|]. split; [done|]. split; [done|].
    intros x [Hx| ->%list_elem_of_singleton]%elem_of_app; [by apply Ha|done].
Qed.

Lemma slice_at_group_by f l k : slice_at (group_by f l) k = filter (fun e => f e = k) l.
Proof. apply group_by_default. Qed.

Lemma slice_at_elem f l k e : e ∈ slice_at (group_by f l) k <-> f e = k /\ e ∈ l.
Proof. by rewrite slice_at_group_by, list_elem_of_filter. Qed.

Lemma partitionOwned_owned l o e : e ∈ (partitionOwned l o).1 <-> ownedBy e o = true /\ e ∈ l.
Proof. simpl. by rewrite elem_of_sort_slice, list_elem_of_filter. Qed.

Lemma partitionOwned_unowned l o e : e ∈ (partitionOwned l o).2 <-> ownedBy e o = false /\ e ∈ l.
Proof. simpl. by rewrite list_elem_of_filter. Qed.

Lemma first_of_elem l : l <> [] -> first_of l ∈ l.
Proof. destruct l; [done|]. intros _. left. Qed.

Lemma NoDup_fmap_key_inj l x y : NoDup (Key <$> l) -> x ∈ l -> y ∈ l -> Key x = Key y -> x = y.
Proof.
  induction l as [|z l IH]; intros Hnd Hx Hy Hk; [by apply not_elem_of_nil in Hx|].
  rewrite fmap_cons, NoDup_cons in Hnd. destruct Hnd as [Hz Hnd].
  apply elem_of_cons in Hx, Hy. destruct Hx as [->|Hx], Hy as [->|Hy]; auto.
  - destruct Hz. rewrite Hk. by apply list_elem_of_fmap_2.
  - destruct Hz. rewrite <- Hk. by apply list_elem_of_fmap_2.
Qed.

Section safety.
Context `{MapRange}.
Context (ownerID cleanup : string) (cleanupAllowed : Endpoint -> bool).
Context (desired current : list Endpoint).

Let cur := Normalize <$> current.
Let ix := build_index desired current.

(** The planner's view of a desired record and of a current row. *)
Definition is_desired (e : Endpoint) : Prop := index_desired desired !! Key e = Some e.
Definition is_row (e : Endpoint) : Prop := e ∈ Normalize <$> current.
Definition owned_row (e : Endpoint) : Prop := is_row e /\ ownedBy e ownerID = true.
Definition removable_row (e : Endpoint) : Prop := owned_row e /\ cleanupAllowed e = true.

(** Why each kind of operation is allowed. *)
Inductive justified : Operation -> Prop :=
| just_conflict d c r : is_desired d ->
    justified (mkOperation OperationConflict d c r)
| just_create d r : is_desired d ->
    (forall e, is_row e -> LogicalKey e = LogicalKey d -> ownedBy e ownerID = true) ->
    (forall e, owned_row e -> Key e <> Key d) ->
    justified (mkOperation OperationCreate d zeroEndpoint r)
| just_update d c r : is_desired d -> owned_row c -> Key c = Key d -> EqualRecord c d = false ->
    justified (mkOperation OperationUpdate d c r)
| just_replace d c r : is_desired d -> removable_row c -> has_provider_id c = true ->
    (forall e, is_row e -> LogicalKey e = LogicalKey d -> ownedBy e ownerID = true) ->
    (MutationGroupKey c = MutationGroupKey d \/ LogicalKey c = LogicalKey d) ->
    justified (mkOperation OperationReplace d c r)
| just_delete c r : cleanup = CleanupDelete -> removable_row c ->
    justified (mkOperation OperationDelete zeroEndpoint c r)
| just_deactivate c r : cleanup = CleanupDeactivate -> removable_row c -> Disabled c = false ->
    justified (mkOperation OperationDeactivate (set_Disabled true c) c r).

(** *** Facts about the index *)

Lemma desired_group_elem g ds d :
  desiredByMutationGroup ix !! g = Some ds -> d ∈ ds -> is_desired d /\ MutationGroupKey d = g.
Proof.
  unfold ix. simpl. rewrite lookup_fmap, fmap_Some. intros (es & Hes & ->) Hd.
  unfold sortEndpoints in Hd. rewrite sort_by_key_perm in Hd.
  apply (group_by_elem _ _ _ _ _ Hes) in Hd as [Hd Hg]. split; [|done].
  apply list_elem_of_fmap in Hd as ([k v] & -> & Hkv). apply elem_of_map_range in Hkv.
  unfold is_desired. cbn [snd]. by rewrite <- (index_desired_key _ _ _ Hkv).
Qed.

Lemma desired_group_nonempty g ds : desiredByMutationGroup ix !! g = Some ds -> ds <> [].
Proof.
  unfold ix. simpl. rewrite lookup_fmap, fmap_Some. intros (es & Hes & ->).
  apply group_by_lookup in Hes as [_ Hne]. intros Hs. apply Hne.
  apply (f_equal length) in Hs. unfold sortEndpoints, sort_by_key in Hs.
  rewrite length_sort_slice in Hs. by apply nil_length_inv.
Qed.

Lemma desired_group_first g ds : desiredByMutationGroup ix !! g = Some ds ->
  is_desired (first_of ds) /\ MutationGroupKey (first_of ds) = g.
Proof. intros Hg. eapply desired_group_elem; [done|]. eapply first_of_elem, desired_group_nonempty, Hg. Qed.

Lemma desired_entry k d : desiredByKey ix !! k = Some d -> is_desired d /\ k = Key d.
Proof.
  intros Hd. pose proof (index_desired_key _ _ _ Hd) as ->. done.
Qed.

Lemma group_rows g e : e ∈ slice_at (currentByMutationGroup ix) g <-> MutationGroupKey e = g /\ is_row e.
Proof. apply slice_at_elem. Qed.
Lemma logical_rows k e : e ∈ slice_at (currentByLogicalKey ix) k <-> LogicalKey e = k /\ is_row e.
Proof. apply slice_at_elem. Qed.
Lemma key_rows k e : e ∈ slice_at (currentByKey ix) k <-> Key e = k /\ is_row e.
Proof. apply slice_at_elem. Qed.

(** *** Phase invariants *)

Definition conflicts_ok (mc : gmap string Operation) : Prop :=
  forall g op, mc !! g = Some op ->
    exists d c r, op = mkOperation OperationConflict d c r /\ is_desired d /\ MutationGroupKey d = g.

Definition replacements_ok (cr : gmap string Operation) : Prop :=
  forall g op, cr !! g = Some op ->
    exists d c r, op = mkOperation OperationReplace d c r /\ is_desired d /\ MutationGroupKey d = g /\
      removable_row c /\ MutationGroupKey c = g /\ has_provider_id c = true /\
      (forall e, is_row e -> LogicalKey e = LogicalKey d -> ownedBy e ownerID = true).

Lemma conflicts_ok_insert mc g d c r : conflicts_ok mc -> is_desired d -> MutationGroupKey d = g ->
  conflicts_ok (<[g := mkOperation OperationConflict d c r]> mc).
Proof.
  intros Hmc Hd Hg g' op. rewrite lookup_insert. case_decide as E; [|apply Hmc].
  intros [= <-]. subst g'. eauto 10.
Qed.

Lemma conflict_phase_ok : conflicts_ok (foldl conflict_step ∅ (map_range 1 (desiredByMutationGroup ix))).
Proof.
  apply foldl_ind; [intros g op; by rewrite lookup_empty|].
  intros mc [g ds] Hin Hmc. apply elem_of_map_range in Hin. unfold conflict_step, desired_conflict. cbn [fst snd].
  destruct (desired_group_first g ds Hin) as [Hd Hg].
  repeat case_match; simplify_eq; try done; by apply conflicts_ok_insert.
Qed.

Lemma unowned_phase_ok mc0 : conflicts_ok mc0 ->
  conflicts_ok (foldl (unowned_step ownerID ix) mc0 (map_range 2 (desiredByKey ix))).
Proof.
  intros H0. apply foldl_ind; [done|]. intros mc [k d] Hin Hmc. apply elem_of_map_range in Hin.
  apply desired_entry in Hin as [Hd ->]. unfold unowned_step. cbn [fst snd].
  repeat case_match; try done; by apply conflicts_ok_insert.
Qed.

Lemma transition_phase_ok mc1 : conflicts_ok mc1 ->
  let st := foldl (transition_step ownerID cleanup cleanupAllowed ix) (mc1, ∅)
              (map_range 3 (desiredByMutationGroup ix)) in
  conflicts_ok st.1 /\ replacements_ok st.2.
Proof.
  intros H1. apply (foldl_ind (fun st => conflicts_ok st.1 /\ replacements_ok st.2)).
  { split; [done|]. intros g op. cbn [snd]. by rewrite lookup_empty. }
  intros [mc cr] [g ds] Hin [Hmc Hcr]. apply elem_of_map_range in Hin.
  destruct (desired_group_first g ds Hin) as [Hd Hg]. unfold transition_step.
  destruct (mc !! g); [done|]. cbv zeta. case_match; [done|].
  case_match eqn:Elog.
  { split; [by apply conflicts_ok_insert|done]. }
  case_match eqn:Erep; [|split; [by apply conflicts_ok_insert|done]].
  split; [done|]. bools. intros g' op. cbn [fst snd]. rewrite lookup_insert. case_decide as Eg; [|apply Hcr].
  intros [= <-]. subst g'. eexists _, _, _. split; [reflexivity|].
  assert (Ho : first_of (partitionOwned (slice_at (currentByMutationGroup ix) g) ownerID).1
               ∈ (partitionOwned (slice_at (currentByMutationGroup ix) g) ownerID).1).
  { apply first_of_elem. intros Hnil. rewrite Hnil in *. done. }
  apply partitionOwned_owned in Ho as [Ho Hr]. apply group_rows in Hr as [Hrg Hr].
  split; [done|]. split; [done|]. split; [repeat split; done|]. split; [done|]. split; [done|].
  intros e He Hlk. apply not_false_is_true. intros Hun.
  assert (Hin' : e ∈ (partitionOwned (slice_at (currentByLogicalKey ix) (LogicalKey (first_of ds))) ownerID).2).
  { apply partitionOwned_unowned. split; [done|]. by apply logical_rows. }
  rename select ((length ds =? 1)%nat = true) into Hl. rewrite Hl in Elog. cbn [andb] in Elog.
  apply Nat.ltb_ge in Elog. destruct (partitionOwned _ _).2; [by apply not_elem_of_nil in Hin'|simpl in Elog; lia].
Qed.

(** *** The loops over desired and current records *)

Section loops.
Context (mc cr : gmap string Operation).

Definition clear_group (d : Endpoint) : Prop :=
  mc !! MutationGroupKey d = None /\ cr !! MutationGroupKey d = None.
Definition logical_owned (d : Endpoint) : Prop :=
  forall e, is_row e -> LogicalKey e = LogicalKey d -> ownedBy e ownerID = true.
(** A desired record that no conflict or CNAME replacement covers. *)
Definition open_desired (d : Endpoint) : Prop := is_desired d /\ clear_group d /\ logical_owned d.

Definition owned_for (k : string) : list Endpoint :=
  (partitionOwned (slice_at (currentByKey ix) k) ownerID).1.

Definition create_ok (d : Endpoint) : Prop := open_desired d /\ owned_for (Key d) = [].
(** A surplus copy of a desired row, or a row nobody desires. *)
Definition surplus (c : Endpoint) : Prop :=
  exists d, open_desired d /\ c ∈ tail (owned_for (Key d)).
Definition stale_ok (c : Endpoint) : Prop :=
  removable_row c /\
  (surplus c \/
   (clear_group c /\ index_desired desired !! Key c = None)).

Inductive main_op : Operation -> Prop :=
| main_group_conflict g op : mc !! g = Some op -> main_op op
| main_logical_conflict d u r : is_desired d -> clear_group d -> is_row u -> ownedBy u ownerID = false ->
    LogicalKey u = LogicalKey d -> main_op (mkOperation OperationConflict d u r)
| main_update d c r : open_desired d -> head (owned_for (Key d)) = Some c -> EqualRecord c d = false ->
    main_op (mkOperation OperationUpdate d c r).

Definition main_ok (st : MainState) : Prop :=
  Forall main_op (operations st) /\ Forall create_ok (createCandidates st) /\
  Forall (fun c => removable_row c /\ surplus c) (staleCandidates st).

Lemma owned_for_elem k e : e ∈ owned_for k -> owned_row e /\ Key e = k.
Proof. intros He. apply partitionOwned_owned in He as [Ho He]. by apply key_rows in He as [Hk He]. Qed.

Lemma owned_for_complete e : owned_row e -> e ∈ owned_for (Key e).
Proof. intros [Hr Ho]. apply partitionOwned_owned. split; [done|]. by apply key_rows. Qed.

Lemma logical_unowned_nil d :
  (partitionOwned (slice_at (currentByLogicalKey ix) (LogicalKey d)) ownerID).2 = [] -> logical_owned d.
Proof.
  intros Hnil e He Hk. apply not_false_is_true. intros Hun.
  assert (Hin : e ∈ (partitionOwned (slice_at (currentByLogicalKey ix) (LogicalKey d)) ownerID).2).
  { apply partitionOwned_unowned. split; [done|]. by apply logical_rows. }
  rewrite Hnil in Hin. by apply not_elem_of_nil in Hin.
Qed.

Lemma desired_step_ok st k d : main_ok st -> desiredByKey ix !! k = Some d ->
  main_ok (desired_step ownerID cleanupAllowed ix mc cr st (k, d)).
Proof.
  destruct st as [ops rep cs ss clk]. intros (Hops & Hcs & Hss) Hin.
  apply desired_entry in Hin as [Hd ->]. unfold desired_step. cbn [operations createCandidates staleCandidates] in *.
  destruct (mc !! MutationGroupKey d) as [op|] eqn:Emc.
  { split; [|done]. cbn. case_bool_decide; [done|]. apply Forall_app; split; [done|].
    constructor; [by econstructor|done]. }
  destruct (cr !! MutationGroupKey d) eqn:Ecr; [done|]. assert (Hc : clear_group d) by done.
  destruct (partitionOwned (slice_at (currentByLogicalKey ix) (LogicalKey d)) ownerID).2 as [|u us] eqn:Eu.
  2:{ assert (Hu : u ∈ (partitionOwned (slice_at (currentByLogicalKey ix) (LogicalKey d)) ownerID).2)
        by (rewrite Eu; left).
      apply partitionOwned_unowned in Hu as [Hu Hr]. apply logical_rows in Hr as [Hlk Hr].
      split; [|done]. cbn. apply Forall_app; split; [done|]. constructor; [by constructor|done]. }
  apply logical_unowned_nil in Eu. assert (Ho : open_desired d) by done.
  change ((partitionOwned (slice_at (currentByKey ix) (Key d)) ownerID).1) with (owned_for (Key d)).
  destruct (owned_for (Key d)) as [|m dups] eqn:Eo.
  { split; [done|]. split; [|done]. cbn. apply Forall_app; split; [done|]. by constructor. }
  split; [|split; [done|]]; cbn.
  - case_match eqn:Eq; [|done]. apply Forall_app; split; [done|]. constructor; [|done].
    bools. constructor; try done. by rewrite Eo.
  - apply Forall_app; split; [done|]. apply Forall_forall. intros c Hcd.
    apply list_elem_of_filter in Hcd as [Hca Hcd].
    assert (Hce : c ∈ owned_for (Key d)) by (rewrite Eo; by right).
    apply owned_for_elem in Hce as [Hrow _]. split; [done|]. exists d. by rewrite Eo.
Qed.

Lemma stale_step_ok clk stales entry : Forall stale_ok stales ->
  currentByKey ix !! entry.1 = Some entry.2 ->
  Forall stale_ok (stale_step ownerID cleanupAllowed ix mc cr clk stales entry).
Proof.
  destruct entry as [k es]. cbn [fst snd]. intros Hs Hin. unfold stale_step. cbn [fst snd].
  destruct (desiredByKey ix !! k) eqn:Ed; [done|]. apply Forall_app; split; [done|].
  apply Forall_forall. intros c Hc. apply list_elem_of_filter in Hc as [Hst Hc].
  apply (group_by_elem _ _ _ _ _ Hin) in Hc as [Hc Hk]. subst k. unfold stale_row in Hst.
  repeat (case_bool_decide; [done|]). bools.
  split; [done|]. right. split; [|done].
  split; by apply eq_None_not_Some.
Qed.

(** *** Pairing *)

Context (clk : gset string) (ops0 : list Operation) (creates0 stales0 : list Endpoint).

Definition pair_op (op : Operation) : Prop :=
  exists d c, op = mkOperation OperationReplace d c "record target changed" /\ d ∈ creates0 /\ c ∈ stales0 /\
    LogicalKey c = LogicalKey d /\ has_provider_id c = true.

Definition pair_ok (st : list Operation * list Endpoint * list Endpoint) : Prop :=
  (forall op, op ∈ ops0 -> op ∈ st.1.1) /\ (forall op, op ∈ st.1.1 -> op ∈ ops0 \/ pair_op op) /\
  (forall d, d ∈ st.1.2 -> d ∈ creates0) /\ (forall c, c ∈ st.2 -> c ∈ stales0) /\
  (forall d, d ∈ creates0 -> d ∈ st.1.2 \/ exists c, mkOperation OperationReplace d c "record target changed" ∈ st.1.1).

Lemma remove_first_key_subset l k e : e ∈ remove_first_key l k -> e ∈ l.
Proof.
  induction l as [|x l IH]; simpl; [done|]. destruct (Key x =s k); [by right|].
  rewrite !elem_of_cons. naive_solver.
Qed.

Lemma removeEndpoint_keeps l d e : e ∈ l -> Key e <> Key d -> e ∈ removeEndpoint l d.
Proof.
  unfold removeEndpoint. induction l as [|x l IH]; simpl; [done|]. intros He Hk.
  apply elem_of_cons in He. destruct (Key x =s Key d) eqn:E; bools; [destruct He as [->|He]; [congruence|done]|].
  destruct He as [->|He]; [left|right; auto].
Qed.

Lemma groupByLogicalKey_singleton l k e : slice_at (groupByLogicalKey l) k = [e] -> e ∈ l /\ LogicalKey e = k.
Proof.
  intros Hs. assert (He : e ∈ slice_at (groupByLogicalKey l) k) by (rewrite Hs; left).
  apply slice_at_elem in He. tauto.
Qed.

Lemma pair_step_ok st entry :
  NoDup (Key <$> creates0) -> groupByLogicalKey creates0 !! entry.1 = Some entry.2 ->
  pair_ok st -> pair_ok (pair_step clk (groupByLogicalKey stales0) st entry).
Proof.
  destruct st as [[ops creates] stales], entry as [logical group]. cbn [fst snd]. intros Hnd Hin Hok.
  unfold pair_step. case_bool_decide; [done|].
  destruct group as [|d [|]]; [done| |done].
  destruct (slice_at (groupByLogicalKey stales0) logical) as [|c [|]] eqn:Es; [done| |done].
  destruct (negb (has_provider_id c)) eqn:Eid; [done|]. bools.
  apply groupByLogicalKey_singleton in Es as [Hc Hck].
  assert (Hd : d ∈ creates0 /\ LogicalKey d = logical).
  { apply (groupByLogicalKey_singleton _ logical). unfold slice_at. by rewrite Hin. }
  destruct Hd as [Hd Hdk]. destruct Hok as (Hold & Hops & Hcs & Hss & Hcov). unfold pair_ok. cbn [fst snd] in *.
  assert (Hnew : pair_op (mkOperation OperationReplace d c "record target changed"))
    by (exists d, c; repeat split; congruence || done).
  split; [|split; [|split; [|split]]].
  - intros op Hop. apply elem_of_app. left. by apply Hold.
  - intros op. rewrite elem_of_app, list_elem_of_singleton. intros [Hop| ->]; [by apply Hops|by right].
  - intros x Hx. apply Hcs. eapply remove_first_key_subset, Hx.
  - intros x Hx. apply Hss. eapply remove_first_key_subset, Hx.
  - intros x Hx. destruct (decide (x = d)) as [->|Hne].
    { right. exists c. apply elem_of_app. right. apply list_elem_of_singleton. done. }
    apply Hcov in Hx as Hx'. destruct Hx' as [Hx'|[c' Hc']].
    + left. apply removeEndpoint_keeps; [done|]. intros Hk. apply Hne.
      apply (NoDup_fmap_key_inj creates0); done.
    + right. exists c'. apply elem_of_app. by left.
Qed.
End loops.

(** *** The state before sorting *)

Lemma create_candidates_NoDup mc cr :
  NoDup (Key <$> createCandidates (foldl (desired_step ownerID cleanupAllowed ix mc cr)
           (mkMainState [] ∅ [] [] ∅) (map_range 4 (desiredByKey ix)))).
Proof.
  pose proof (NoDup_map_range_keys 4 (desiredByKey ix)) as Hnd.
  assert (Hkey : forall kv, kv ∈ map_range 4 (desiredByKey ix) -> kv.1 = Key kv.2).
  { intros [k d] Hin. apply elem_of_map_range, desired_entry in Hin. tauto. }
  revert Hnd Hkey. generalize (map_range 4 (desiredByKey ix)). intros l Hnd Hkey.
  assert (G : forall st, NoDup ((Key <$> createCandidates st) ++ l.*1) ->
              NoDup (Key <$> createCandidates (foldl (desired_step ownerID cleanupAllowed ix mc cr) st l))).
  2:{ apply G. done. }
  clear Hnd. induction l as [|[k d] l IH]; intros st Hst; [by rewrite app_nil_r in Hst|].
  assert (k = Key d) as -> by (apply (Hkey (k, d)); left).
  cbn [foldl]. apply IH; [intros; apply Hkey; by right|].
  assert (Hskip : NoDup ((Key <$> createCandidates st) ++ l.*1)).
  { cbn in Hst. rewrite <- Permutation_middle, NoDup_cons in Hst. tauto. }
  destruct st as [ops rep cs ss clk]. unfold desired_step.
  repeat case_match; try done. cbn [createCandidates] in *. rewrite fmap_app, <- app_assoc. done.
Qed.

Let ps := plan_state ownerID cleanup cleanupAllowed desired current.

(** What holds of the planner's variables before it sorts the operations. *)
Record plan_facts (st : PlanState) : Prop := {
  pf_index : index st = ix;
  pf_conflicts : conflicts_ok (mutationConflicts st);
  pf_replacements : replacements_ok (cnameReplacements st);
  pf_main : main_ok (mutationConflicts st) (cnameReplacements st) (main st);
  pf_stale : Forall (stale_ok (mutationConflicts st) (cnameReplacements st)) (allStale st);
  pf_pair : pair_ok (operations (main st) ++ (map_range 6 (cnameReplacements st)).*2)
              (createCandidates (main st)) (allStale st) (paired st);
  pf_pair_delete : cleanup <> CleanupDelete ->
    paired st = (operations (main st) ++ (map_range 6 (cnameReplacements st)).*2,
                 createCandidates (main st), allStale st)
}.

Lemma plan_state_facts : plan_facts ps.
Proof.
  unfold ps, plan_state. fold ix.
  pose proof (transition_phase_ok _ (unowned_phase_ok _ conflict_phase_ok)) as Ht. cbv zeta in Ht.
  destruct (foldl (transition_step _ _ _ _) _ _) as [mc cr] eqn:Et. destruct Ht as [Hmc Hcr].
  cbn [fst snd] in *. set (m := foldl (desired_step _ _ _ _ _) _ _).
  set (stales := foldl (stale_step _ _ _ _ _ _) _ _).
  assert (Hm : main_ok mc cr m).
  { apply foldl_ind; [by repeat constructor|]. intros st [k d] Hin Hst.
    apply elem_of_map_range in Hin. by apply desired_step_ok. }
  assert (Hs : Forall (stale_ok mc cr) stales).
  { apply foldl_ind; [destruct Hm as (_ & _ & Hm); eapply Forall_impl; [exact Hm|]; unfold stale_ok; naive_solver|].
    intros st [k es] Hin Hst.
    apply elem_of_map_range in Hin. by apply stale_step_ok. }
  assert (Hp0 : pair_ok (operations m ++ (map_range 6 cr).*2) (createCandidates m) stales
                  (operations m ++ (map_range 6 cr).*2, createCandidates m, stales))
    by (repeat split; naive_solver).
  split; cbn [index mutationConflicts cnameReplacements main allStale paired]; try done.
  - destruct (cleanup =s CleanupDelete); [|done].
    apply (foldl_ind (pair_ok _ _ _)); [done|]. intros st [k es] Hin Hst. apply elem_of_map_range in Hin.
    apply pair_step_ok; [apply create_candidates_NoDup|done|done].
  - intros Hne. by rewrite (proj2 (eqb_neq_iff _ _) Hne).
Qed.

Let plan := BuildWithCleanupScope ownerID cleanup cleanupAllowed desired current.

(** The operations of a plan, by the statement that emits them. *)
Inductive plan_op : Operation -> Prop :=
| po_main op : main_op (mutationConflicts ps) (cnameReplacements ps) op -> plan_op op
| po_replacement g op : cnameReplacements ps !! g = Some op -> plan_op op
| po_pair op : cleanup = CleanupDelete -> pair_op (createCandidates (main ps)) (allStale ps) op -> plan_op op
| po_create d : d ∈ (paired ps).1.2 -> plan_op (create_operation d)
| po_cleanup c op : c ∈ (paired ps).2 ->
    op ∈ cleanup_operation cleanup (pending_groups (paired ps).1.2) c -> plan_op op.

Lemma elem_of_plan op : op ∈ plan <->
  op ∈ (paired ps).1.1 \/ (exists d, d ∈ (paired ps).1.2 /\ op = create_operation d) \/
  (exists c, c ∈ (paired ps).2 /\ op ∈ cleanup_operation cleanup (pending_groups (paired ps).1.2) c).
Proof.
  unfold plan, BuildWithCleanupScope, unsorted_operations. fold ps. rewrite elem_of_sort_slice.
  destruct (paired ps) as [[ops creates] stales]. cbn [fst snd].
  rewrite !elem_of_app, list_elem_of_fmap, list_elem_of_bind. naive_solver.
Qed.

Lemma plan_op_complete op : op ∈ plan -> plan_op op.
Proof.
  pose proof plan_state_facts as F. rewrite elem_of_plan.
  intros [Hop|[(d & Hd & ->)|(c & Hc & Hop)]]; [|by constructor|by econstructor].
  assert (Hcase : op ∈ operations (main ps) ++ (map_range 6 (cnameReplacements ps)).*2 \/
            (cleanup = CleanupDelete /\ pair_op (createCandidates (main ps)) (allStale ps) op)).
  { destruct (decide (cleanup = CleanupDelete)) as [Hd|Hd].
    - destruct (pf_pair _ F) as (_ & Hops & _). apply Hops in Hop. tauto.
    - rewrite (pf_pair_delete _ F Hd) in Hop. by left. }
  destruct Hcase as [Hop'|[Hd Hp]]; [|by constructor].
  apply elem_of_app in Hop' as [Hm|Hr].
  - apply po_main. destruct (pf_main _ F) as [Hall _]. rewrite Forall_forall in Hall. auto.
  - apply list_elem_of_fmap in Hr as ([g op'] & -> & Hin). apply elem_of_map_range in Hin. by econstructor.
Qed.

Lemma pf_creates d : d ∈ (paired ps).1.2 -> create_ok (mutationConflicts ps) (cnameReplacements ps) d.
Proof.
  pose proof plan_state_facts as F. intros Hd. destruct (pf_pair _ F) as (_ & _ & Hcs & _).
  apply Hcs in Hd. destruct (pf_main _ F) as (_ & Hc & _). rewrite Forall_forall in Hc. auto.
Qed.

Lemma pf_candidates d : d ∈ createCandidates (main ps) -> create_ok (mutationConflicts ps) (cnameReplacements ps) d.
Proof. pose proof plan_state_facts as F. destruct (pf_main _ F) as (_ & Hc & _). rewrite Forall_forall in Hc. auto. Qed.

Lemma pf_all_stale c : c ∈ allStale ps -> stale_ok (mutationConflicts ps) (cnameReplacements ps) c.
Proof. pose proof plan_state_facts as F. pose proof (pf_stale _ F) as Hs. rewrite Forall_forall in Hs. auto. Qed.

Lemma pf_stales c : c ∈ (paired ps).2 -> stale_ok (mutationConflicts ps) (cnameReplacements ps) c.
Proof.
  pose proof plan_state_facts as F. intros Hc. destruct (pf_pair _ F) as (_ & _ & _ & Hss & _).
  apply pf_all_stale. auto.
Qed.

Lemma owned_for_nil d : owned_for (Key d) = [] -> forall e, owned_row e -> Key e <> Key d.
Proof.
  intros Hnil e He Hk. apply owned_for_complete in He. rewrite Hk, Hnil in He. by apply not_elem_of_nil in He.
Qed.

Lemma cleanup_operation_cases pending c op : op ∈ cleanup_operation cleanup pending c ->
  (MutationGroupKey c ∉ pending) /\
  ((cleanup = CleanupDelete /\ op = mkOperation OperationDelete zeroEndpoint c "managed record is stale") \/
   (cleanup = CleanupDeactivate /\ Disabled c = false /\
    op = mkOperation OperationDeactivate (set_Disabled true c) c "managed record is stale")).
Proof.
  unfold cleanup_operation. case_bool_decide; [by intros ?%not_elem_of_nil|].
  destruct (cleanup =s CleanupDelete) eqn:Ed; bools; [intros ->%list_elem_of_singleton; auto|].
  destruct (cleanup =s CleanupDeactivate) eqn:Ea; bools; [|by intros ?%not_elem_of_nil].
  destruct (Disabled c) eqn:Edis; [by intros ?%not_elem_of_nil|intros ->%list_elem_of_singleton; auto].
Qed.

Lemma elem_of_pending_groups g l : g ∈ pending_groups l <-> exists d, d ∈ l /\ MutationGroupKey d = g.
Proof.
  assert (G : forall s : gset string, g ∈ foldl (fun s e => {[MutationGroupKey e]} ∪ s) s l <->
            g ∈ s \/ exists d, d ∈ l /\ MutationGroupKey d = g).
  { induction l as [|x l IH]; intros s; cbn [foldl]; [set_solver|].
    rewrite IH. setoid_rewrite elem_of_cons. set_solver. }
  unfold pending_groups. rewrite G. set_solver.
Qed.

Lemma main_op_justified op :
  main_op (mutationConflicts ps) (cnameReplacements ps) op -> justified op.
Proof.
  pose proof plan_state_facts as F. intros [g op' Hg|d u r Hd Hc Hu Hun Hk|d c r Ho Hh Heq].
  - apply (pf_conflicts _ F) in Hg as (d & c & r & -> & Hd & _). by constructor.
  - by constructor.
  - assert (Hc : c ∈ owned_for (Key d)) by (destruct (owned_for (Key d)); simplify_eq/=; left).
    apply owned_for_elem in Hc as [Hrow Hk]. destruct Ho as [Hd _]. by constructor.
Qed.

Lemma plan_op_justified op : plan_op op -> justified op.
Proof.
  pose proof plan_state_facts as F. intros [op' Hm|g op' Hg|op' Hdel Hp|d Hd|c op' Hc Hop].
  - by apply main_op_justified.
  - apply (pf_replacements _ F) in Hg as (d & c & r & -> & Hd & Hg & Hr & Hcg & Hid & Hl).
    constructor; try done. left. congruence.
  - destruct Hp as (d & c & -> & Hd & Hc & Hk & Hid). apply pf_candidates in Hd as [(Hdd & _ & Hl) _].
    apply pf_all_stale in Hc as [Hr _]. constructor; try done. by right.
  - apply pf_creates in Hd as [(Hdd & _ & Hl) Hnil]. constructor; [done|done|]. by apply owned_for_nil.
  - apply pf_stales in Hc as [Hr _]. apply cleanup_operation_cases in Hop as (_ & [[-> ->]|(-> & Hdis & ->)]);
    by constructor.
Qed.
End safety.

(** C1. Every operation of a plan is justified: the planner changes only rows
    it owns (and removes or replaces only rows the cleanup scope allows),
    creates a record only when no owned row has its key and no foreign row its
    logical key, deletes only under the delete policy and deactivates only
    under the deactivate policy. *)
Theorem plan_justified `{MapRange} ownerID cleanup cleanupAllowed desired current op :
  op ∈ BuildWithCleanupScope ownerID cleanup cleanupAllowed desired current ->
  justified ownerID cleanup cleanupAllowed desired current op.
Proof. intros Hop. by apply plan_op_justified, plan_op_complete. Qed.
