(* ===== verification/PlanLaws.v ===== *)
(** * Completeness of internal/plan/plan.go

    [PlanSafety] bounds what a plan may contain; this file shows what it must
    contain: which DNS names are blocked or replaced, that every desired record
    is accounted for, that conflicts isolate their record, that CNAME
    exclusivity is kept and that a converged target yields the empty plan. *)
From Stdlib Require Import String Ascii ZArith Lia.
From S2P Require Import Prelude GoStrings NetIP Endpoint Plan PlanSafety.
Open Scope string_scope.
Open Scope list_scope.
Open Scope go_scope.

(** ** The boolean checks on CNAME sets *)

Lemma cnameTypesConflict_sym a b : cnameTypesConflict a b = cnameTypesConflict b a.
Proof. unfold cnameTypesConflict. by rewrite String.eqb_sym, orb_comm. Qed.

Lemma cnameTypesConflict_false a b :
  cnameTypesConflict a b = false <-> a = b \/ (a <> RecordCNAME /\ b <> RecordCNAME).
Proof.
  unfold cnameTypesConflict. rewrite andb_false_iff, negb_false_iff, orb_false_iff, eqb_eq_iff, !eqb_neq_iff. done.
Qed.

Lemma desiredSetHasCNAMEConflict_false l x y : desiredSetHasCNAMEConflict l = false -> x ∈ l -> y ∈ l ->
  cnameTypesConflict (RecordType x) (RecordType y) = false.
Proof.
  assert (Hh : forall h l y, existsb (fun e' => cnameTypesConflict (RecordType h) (RecordType e')) l = false ->
             y ∈ l -> cnameTypesConflict (RecordType h) (RecordType y) = false).
  { intros h l' y'. induction l' as [|z l' IH]; simpl; [by intros _ ?%not_elem_of_nil|].
    intros Hz Hy. bools. apply elem_of_cons in Hy as [->|Hy]; auto. }
  induction l as [|h l IH]; simpl; [by intros _ ?%not_elem_of_nil|].
  intros Hl Hx Hy. bools. apply elem_of_cons in Hx, Hy. destruct Hx as [->|Hx], Hy as [->|Hy]; eauto.
  - apply cnameTypesConflict_false. by left.
  - rewrite cnameTypesConflict_sym. eauto.
Qed.

Lemma multiple_cnames_one l x : multiple_cnames 1 l = false -> x ∈ l -> RecordType x <> RecordCNAME.
Proof.
  induction l as [|h l IH]; simpl; [by intros _ ?%not_elem_of_nil|].
  destruct (RecordType h =s RecordCNAME) eqn:E; bools; [done|]. simpl.
  intros Hl Hx. apply elem_of_cons in Hx as [->|Hx]; auto.
Qed.

Lemma multiple_cnames_zero l x y : multiple_cnames 0 l = false -> x ∈ l -> y ∈ l ->
  RecordType x = RecordCNAME -> RecordType y = RecordCNAME -> x = y.
Proof.
  induction l as [|h l IH]; simpl; [by intros _ ?%not_elem_of_nil|].
  intros Hl Hx Hy Ex Ey. apply elem_of_cons in Hx, Hy.
  destruct (RecordType h =s RecordCNAME) eqn:E; bools; simpl in Hl.
  - destruct (1 <? length (Targets h))%nat; [done|].
    destruct Hx as [->|Hx], Hy as [->|Hy]; [done| | |]; exfalso; eapply multiple_cnames_one; eauto.
  - destruct Hx as [->|Hx], Hy as [->|Hy]; auto; congruence.
Qed.

Section laws.
Context `{MapRange}.
Context (ownerID cleanup : string) (cleanupAllowed : Endpoint -> bool).
Context (desired current : list Endpoint).

Let ix := build_index desired current.
Let ps := plan_state ownerID cleanup cleanupAllowed desired current.
Let plan := BuildWithCleanupScope ownerID cleanup cleanupAllowed desired current.

Abbreviation is_desired := (is_desired desired).
Abbreviation is_row := (is_row current).
Abbreviation owned_row := (owned_row ownerID current).

Definition group_desired (g : string) : list Endpoint := slice_at (desiredByMutationGroup ix) g.
Definition group_owned (g : string) : list Endpoint :=
  (partitionOwned (slice_at (currentByMutationGroup ix) g) ownerID).1.
Definition group_unowned (g : string) : list Endpoint :=
  (partitionOwned (slice_at (currentByMutationGroup ix) g) ownerID).2.

Lemma elem_of_group_desired g d : d ∈ group_desired g <-> is_desired d /\ MutationGroupKey d = g.
Proof.
  unfold group_desired, slice_at. split.
  - destruct (desiredByMutationGroup ix !! g) as [ds|] eqn:E; [|by intros ?%not_elem_of_nil].
    intros Hd. eapply desired_group_elem; done.
  - intros [Hd Hg]. unfold ix. cbn [build_index desiredByMutationGroup]. rewrite lookup_fmap.
    pose proof (group_by_default MutationGroupKey (map_range 0 (index_desired desired)).*2 g) as Hdef.
    assert (Hin : d ∈ default [] (group_by MutationGroupKey (map_range 0 (index_desired desired)).*2 !! g)).
    { rewrite Hdef, list_elem_of_filter. split; [done|].
      apply (list_elem_of_fmap_2 snd _ (Key d, d)). by apply elem_of_map_range. }
    destruct (group_by _ _ !! g); simpl in *; [|by apply not_elem_of_nil in Hin].
    unfold sortEndpoints. by rewrite sort_by_key_perm.
Qed.

Lemma elem_of_group_owned g e : e ∈ group_owned g <-> owned_row e /\ MutationGroupKey e = g.
Proof. unfold group_owned, ix. rewrite partitionOwned_owned, group_rows. unfold PlanSafety.owned_row. tauto. Qed.

Lemma elem_of_group_unowned g e :
  e ∈ group_unowned g <-> is_row e /\ ownedBy e ownerID = false /\ MutationGroupKey e = g.
Proof. unfold group_unowned, ix. rewrite partitionOwned_unowned, group_rows. tauto. Qed.

(** Why a DNS name leaves the ordinary path. *)
Definition desired_clash (g : string) : Prop := desired_conflict (group_desired g) <> None.
Definition foreign_clash (g : string) : Prop :=
  exists d, d ∈ group_desired g /\ unownedCNAMEConflict d (group_unowned g) <> None.
Definition transition (g : string) : Prop :=
  needsCNAMETargetReplacement (group_desired g) (group_owned g) = true \/
  hasCNAMETypeTransition (group_desired g) (group_owned g) = true.

Lemma group_desired_lookup g ds : desiredByMutationGroup ix !! g = Some ds -> group_desired g = ds.
Proof. unfold group_desired, slice_at. by intros ->. Qed.

Lemma desired_group_present g d : d ∈ group_desired g ->
  desiredByMutationGroup ix !! g = Some (group_desired g).
Proof.
  unfold group_desired, slice_at. by destruct (desiredByMutationGroup ix !! g); [|intros ?%not_elem_of_nil].
Qed.

(** ** Exactly these names are in conflict or replaced *)

Let mc0 := foldl conflict_step ∅ (map_range 1 (desiredByMutationGroup ix)).
Let mc1 := foldl (unowned_step ownerID ix) mc0 (map_range 2 (desiredByKey ix)).

Lemma desired_conflict_nil : desired_conflict [] = None.
Proof. reflexivity. Qed.

Lemma mc0_spec g : is_Some (mc0 !! g) <-> desired_clash g.
Proof.
  assert (G : forall g, is_Some (mc0 !! g) <->
            exists ds, (g, ds) ∈ map_range 1 (desiredByMutationGroup ix) /\ desired_conflict ds <> None).
  { unfold mc0. apply (foldl_ind_done (fun l (mc : gmap string Operation) => forall g, is_Some (mc !! g) <->
        exists ds, (g, ds) ∈ l /\ desired_conflict ds <> None)).
    - intros g'. rewrite lookup_empty. split; [by intros [? ?]|]. intros (? & ?%not_elem_of_nil & _). done.
    - intros dn mc [g1 ds1] _ IH g'. unfold conflict_step. cbn [fst snd].
      setoid_rewrite elem_of_app. setoid_rewrite list_elem_of_singleton.
      assert (Hother : g' <> g1 \/ desired_conflict ds1 = None -> is_Some (mc !! g') <->
                exists ds, ((g', ds) ∈ dn \/ (g', ds) = (g1, ds1)) /\ desired_conflict ds <> None)
        by (rewrite IH; naive_solver).
      destruct (desired_conflict ds1) eqn:E; [|by apply Hother; right].
      rewrite lookup_insert. case_decide as E'; [subst|by apply Hother; left].
      split; [|done]. intros _. exists ds1. split; [by right|]. by rewrite E. }
  rewrite G. unfold desired_clash. split.
  - intros (ds & Hin & Hc). apply elem_of_map_range in Hin. by rewrite (group_desired_lookup _ _ Hin).
  - intros Hc. destruct (group_desired g) as [|d ds] eqn:E; [by rewrite desired_conflict_nil in Hc|].
    exists (d :: ds). split; [|done]. apply elem_of_map_range. rewrite <- E.
    apply (desired_group_present _ d). rewrite E. left.
Qed.

Lemma mc1_spec g : is_Some (mc1 !! g) <-> desired_clash g \/ foreign_clash g.
Proof.
  rewrite <- mc0_spec.
  assert (G : is_Some (mc1 !! g) <-> is_Some (mc0 !! g) \/
     exists k d, (k, d) ∈ map_range 2 (desiredByKey ix) /\ MutationGroupKey d = g /\
                 unownedCNAMEConflict d (group_unowned g) <> None).
  { revert g. unfold mc1. apply (foldl_ind_done (fun l (mc : gmap string Operation) =>
      forall g, is_Some (mc !! g) <-> is_Some (mc0 !! g) \/
        exists k d, (k, d) ∈ l /\ MutationGroupKey d = g /\ unownedCNAMEConflict d (group_unowned g) <> None)).
    - intros g'. split; [by left|]. intros [?|(? & ? & ?%not_elem_of_nil & _)]; done.
    - intros dn mc [k d] _ IH g'. unfold unowned_step. cbn [fst snd].
      fold (group_unowned (MutationGroupKey d)).
      setoid_rewrite elem_of_app. setoid_rewrite list_elem_of_singleton.
      assert (Hstep : forall mc' : gmap string Operation, (forall g, is_Some (mc' !! g) <->
                 is_Some (mc !! g) \/ (g = MutationGroupKey d /\ unownedCNAMEConflict d (group_unowned g) <> None)) ->
               is_Some (mc' !! g') <-> is_Some (mc0 !! g') \/ exists k0 d0, ((k0, d0) ∈ dn \/ (k0, d0) = (k, d)) /\
                 MutationGroupKey d0 = g' /\ unownedCNAMEConflict d0 (group_unowned g') <> None).
      { intros mc' Hmc'. rewrite Hmc', IH. naive_solver. }
      destruct (unownedCNAMEConflict d (group_unowned (MutationGroupKey d))) eqn:E.
      2:{ apply Hstep. naive_solver. }
      assert (Hins : forall op g1, is_Some ((<[MutationGroupKey d := op]> mc : gmap string Operation) !! g1) <->
                is_Some (mc !! g1) \/ (g1 = MutationGroupKey d /\ unownedCNAMEConflict d (group_unowned g1) <> None)).
      { intros op g1. rewrite lookup_insert. case_decide; [|naive_solver]. subst. rewrite E.
        split; [by right|done]. }
      destruct (mc !! MutationGroupKey d) eqn:Em; [|by apply Hstep].
      destruct (_ <s _); [by apply Hstep|]. apply Hstep. intros g1. split; [by left|].
      intros [?|[-> _]]; [done|]. by rewrite Em. }
  rewrite G. unfold foreign_clash. split; (intros [?|Hx]; [by left|right]).
  - destruct Hx as (k & d & Hin & Hg & Hc). exists d. split; [|done]. apply elem_of_map_range in Hin.
    apply desired_entry in Hin as [Hd _]. by apply elem_of_group_desired.
  - destruct Hx as (d & Hd & Hc). apply elem_of_group_desired in Hd as [Hd Hg].
    exists (Key d), d. split; [by apply elem_of_map_range|done].
Qed.

Let tr := foldl (transition_step ownerID cleanup cleanupAllowed ix) (mc1, ∅) (map_range 3 (desiredByMutationGroup ix)).

Lemma plan_state_maps : mutationConflicts ps = tr.1 /\ cnameReplacements ps = tr.2.
Proof.
  unfold ps, plan_state. fold ix. fold mc0. fold mc1. fold tr. by destruct tr.
Qed.

#[local] Instance transition_dec g : Decision (transition g).
Proof. unfold transition. apply _. Defined.

Definition touched (st : gmap string Operation * gmap string Operation) (g : string) : Prop :=
  is_Some (st.1 !! g) \/ is_Some (st.2 !! g).

Lemma transitionb_spec g :
  negb (needsCNAMETargetReplacement (group_desired g) (group_owned g)) &&
  negb (hasCNAMETypeTransition (group_desired g) (group_owned g)) = true <-> ~ transition g.
Proof.
  unfold transition. destruct (needsCNAMETargetReplacement _ _), (hasCNAMETypeTransition _ _); naive_solver.
Qed.

(** One step of the transition loop touches its name exactly when the name is in transition. *)
Lemma transition_step_touched st g ds g' : desiredByMutationGroup ix !! g = Some ds ->
  touched (transition_step ownerID cleanup cleanupAllowed ix st (g, ds)) g' <->
  touched st g' \/ (g' = g /\ transition g).
Proof.
  intros Hin. destruct st as [mc cr]. unfold transition_step.
  destruct (mc !! g) eqn:Em.
  { split; [by left|]. intros [?|[-> _]]; [done|]. left. cbn. by rewrite Em. }
  rewrite <- (group_desired_lookup _ _ Hin). fold (group_owned g). cbv zeta.
  destruct (_ && _) eqn:Et; [apply transitionb_spec in Et; naive_solver|].
  assert (Ht : transition g).
  { destruct (decide (needsCNAMETargetReplacement (group_desired g) (group_owned g) = true)) as [|Hn]; [by left|].
    right. apply not_true_is_false in Hn. rewrite Hn in Et. by apply negb_false_iff in Et. }
  assert (Hins : forall (m : gmap string Operation) op, is_Some (<[g := op]> m !! g') <-> is_Some (m !! g') \/ g' = g).
  { intros m op. rewrite lookup_insert. case_decide; naive_solver. }
  unfold touched. repeat case_match; cbn [fst snd]; rewrite Hins; naive_solver.
Qed.

Lemma transition_nonempty g : transition g -> exists d, d ∈ group_desired g.
Proof.
  unfold transition. destruct (group_desired g) as [|d ds]; [cbn; naive_solver|]. exists d. left.
Qed.

Lemma touched_spec g : touched tr g <-> desired_clash g \/ foreign_clash g \/ transition g.
Proof.
  assert (G : touched tr g <-> is_Some (mc1 !! g) \/
            exists ds, (g, ds) ∈ map_range 3 (desiredByMutationGroup ix) /\ transition g).
  { revert g. unfold tr. apply (foldl_ind_done (fun l st => forall g, touched st g <-> is_Some (mc1 !! g) \/
      exists ds, (g, ds) ∈ l /\ transition g)).
    - intros g. unfold touched. cbn [fst snd]. rewrite lookup_empty. split.
      + intros [?|[? ?]]; [by left|done].
      + intros [?|(? & ?%not_elem_of_nil & _)]; [by left|done].
    - intros dn st [g1 ds1] Hin IH g. apply elem_of_map_range in Hin.
      rewrite transition_step_touched, IH by done.
      setoid_rewrite elem_of_app. setoid_rewrite list_elem_of_singleton. naive_solver. }
  rewrite G, mc1_spec. split; [naive_solver|]. intros [?|[?|Ht]]; [tauto|tauto|].
  right. destruct (transition_nonempty _ Ht) as [d Hd]. exists (group_desired g).
  split; [|done]. apply elem_of_map_range. by apply (desired_group_present _ d).
Qed.

Lemma length_one {A} (l : list A) : (length l =? 1)%nat = true -> exists x, l = [x].
Proof. destruct l as [|x [|]]; try done. eauto. Qed.

(** A CNAME replacement joins the only desired record of a name to its only owned row. *)
Lemma replacement_unique g op : cnameReplacements ps !! g = Some op ->
  group_desired g = [Desired op] /\ group_owned g = [Current op].
Proof.
  rewrite (proj2 plan_state_maps). revert g op. unfold tr.
  apply (foldl_ind (fun st => forall g op, st.2 !! g = Some op ->
    group_desired g = [Desired op] /\ group_owned g = [Current op])).
  { intros g op. cbn. by rewrite lookup_empty. }
  intros [mc cr] [g1 ds1] Hin IH g op. apply elem_of_map_range in Hin. unfold transition_step.
  destruct (mc !! g1); [apply IH|]. fold (group_owned g1). cbv zeta.
  case_match; [apply IH|]. case_match; [apply IH|].
  case_match eqn:Er; [|apply IH]. cbn [snd]. rewrite lookup_insert. case_decide; [|apply IH].
  intros [= <-]. subst. bools. rewrite (group_desired_lookup _ _ Hin).
  repeat match goal with H : (length ?l =? 1)%nat = true |- _ =>
    let E := fresh in apply length_one in H as [? E]; rewrite E; clear E end.
  done.
Qed.

(** A name is never both in conflict and replaced, and a clash is always a conflict. *)
Definition replaceable (g : string) : Prop :=
  (length (group_desired g) =? 1)%nat &&
    (0 <? length (partitionOwned (slice_at (currentByLogicalKey ix) (LogicalKey (first_of (group_desired g))))
                    ownerID).2)%nat = false /\
  (length (group_desired g) =? 1)%nat && (length (group_owned g) =? 1)%nat
    && has_provider_id (first_of (group_owned g)) && cleanupAllowed (first_of (group_owned g))
    && (negb (needsCNAMETargetReplacement (group_desired g) (group_owned g)) || (cleanup =s CleanupDelete)) = true.

Lemma transition_maps g :
  (is_Some (tr.2 !! g) -> replaceable g /\ transition g /\ mc1 !! g = None) /\
  (is_Some (tr.1 !! g) -> is_Some (mc1 !! g) \/ ~ replaceable g) /\
  (is_Some (mc1 !! g) -> is_Some (tr.1 !! g)).
Proof.
  revert g. unfold tr. apply (foldl_ind (fun st => forall g,
    (is_Some (st.2 !! g) -> replaceable g /\ transition g /\ mc1 !! g = None) /\
    (is_Some (st.1 !! g) -> is_Some (mc1 !! g) \/ ~ replaceable g) /\ (is_Some (mc1 !! g) -> is_Some (st.1 !! g)))).
  { intros g. cbn [fst snd]. rewrite lookup_empty. split; [by intros [? ?]|]. split; auto. }
  intros [mc cr] [g1 ds1] Hin IH g. apply elem_of_map_range in Hin. unfold transition_step.
  destruct (mc !! g1) eqn:Em; [apply IH|].
  rewrite <- (group_desired_lookup _ _ Hin). fold (group_owned g1). cbv zeta. clear ds1 Hin.
  case_match eqn:Et; [apply IH|].
  assert (Ht : transition g1).
  { destruct (decide (transition g1)) as [|Hn]; [done|]. apply transitionb_spec in Hn. congruence. }
  assert (Hmc : forall op, ~ replaceable g1 ->
            (is_Some (cr !! g) -> replaceable g /\ transition g /\ mc1 !! g = None) /\
            (is_Some (<[g1 := op]> mc !! g) -> is_Some (mc1 !! g) \/ ~ replaceable g) /\
            (is_Some (mc1 !! g) -> is_Some (<[g1 := op]> mc !! g))).
  { intros op Hr. destruct (IH g) as (H1 & H2 & H3). split; [done|].
    rewrite lookup_insert. case_decide; [|done]. subst. split; [by right|done]. }
  case_match eqn:E1; [apply Hmc; intros [? ?]; congruence|].
  case_match eqn:E2; [|apply Hmc; intros [? ?]; congruence].
  destruct (IH g) as (H1 & H2 & H3). cbn [fst snd] in *. split; [|done].
  rewrite lookup_insert. case_decide; [|done]. subst. intros _. split; [done|]. split; [done|].
  apply eq_None_not_Some. intros Hs. apply H3 in Hs. rewrite Em in Hs. by destruct Hs.
Qed.

Lemma replacement_not_conflict g : is_Some (cnameReplacements ps !! g) -> mutationConflicts ps !! g = None.
Proof.
  rewrite (proj1 plan_state_maps), (proj2 plan_state_maps). intros Hr. apply eq_None_not_Some. intros Hc.
  destruct (transition_maps g) as (H1 & H2 & _). apply H1 in Hr as (Hrep & _ & Hn). apply H2 in Hc as [Hs|?]; [|done].
  rewrite Hn in Hs. by destruct Hs.
Qed.

Lemma clash_is_conflict g : desired_clash g \/ foreign_clash g -> is_Some (mutationConflicts ps !! g).
Proof. rewrite (proj1 plan_state_maps), <- mc1_spec. apply transition_maps. Qed.

Lemma untouched_clear d :
  clear_group (mutationConflicts ps) (cnameReplacements ps) d <-> ~ touched tr (MutationGroupKey d).
Proof.
  unfold clear_group, touched. rewrite (proj1 plan_state_maps), (proj2 plan_state_maps).
  rewrite !eq_None_not_Some. tauto.
Qed.

(** ** Every desired record is accounted for *)

Section main_loop.
Context (mc cr : gmap string Operation).

Definition accounted (st : MainState) (d : Endpoint) : Prop :=
  (exists op, mc !! MutationGroupKey d = Some op /\ op ∈ operations st) \/
  is_Some (cr !! MutationGroupKey d) \/
  (~ logical_owned ownerID current d /\ LogicalKey d ∈ conflictLogicalKeys st /\
   exists u r, mkOperation OperationConflict d u r ∈ operations st) \/
  d ∈ createCandidates st \/
  (exists c, logical_owned ownerID current d /\ c ∈ owned_for ownerID desired current (Key d) /\
     (EqualRecord c d = true \/ exists r, mkOperation OperationUpdate d c r ∈ operations st)).

Definition reported_ok (st : MainState) : Prop :=
  forall g op, g ∈ reportedMutationConflicts st -> mc !! g = Some op -> op ∈ operations st.

(** The sets of [st] grow along the loop. *)
Definition grows (st st' : MainState) : Prop :=
  operations st ⊆ operations st' /\ createCandidates st ⊆ createCandidates st' /\
  conflictLogicalKeys st ⊆ conflictLogicalKeys st'.

Lemma desired_step_grows st entry : grows st (desired_step ownerID cleanupAllowed ix mc cr st entry).
Proof.
  destruct st as [ops rep cs ss clk], entry as [k d]. unfold desired_step, grows.
  repeat case_match; cbn; set_solver.
Qed.

Lemma accounted_grows st st' d : grows st st' -> accounted st d -> accounted st' d.
Proof. intros (Ho & Hc & Hk). unfold accounted. naive_solver. Qed.

Lemma desired_step_accounts st d : is_desired d -> reported_ok st ->
  reported_ok (desired_step ownerID cleanupAllowed ix mc cr st (Key d, d)) /\
  accounted (desired_step ownerID cleanupAllowed ix mc cr st (Key d, d)) d.
Proof.
  intros Hd Hrep. destruct st as [ops rep cs ss clk]. unfold desired_step.
  unfold reported_ok, accounted in *. cbn [operations reportedMutationConflicts] in Hrep.
  destruct (mc !! MutationGroupKey d) as [op|] eqn:Em.
  { cbn. case_bool_decide as Er.
    - split; [|left; eauto]. intros g op' Hg. apply Hrep. set_solver.
    - split; [|left; exists op; set_solver]. intros g op' Hg Hop.
      destruct (decide (g = MutationGroupKey d)) as [->|]; [rewrite Em in Hop; set_solver|].
      apply elem_of_app. left. apply (Hrep g); [set_solver|done]. }
  destruct (cr !! MutationGroupKey d) eqn:Ec; [by split; [|eauto]|].
  destruct (partitionOwned (slice_at (currentByLogicalKey ix) (LogicalKey d)) ownerID).2 as [|u us] eqn:Eu.
  2:{ cbn [operations reportedMutationConflicts createCandidates conflictLogicalKeys]. split; [set_solver|]. right; right; left. split; [|split; [set_solver|exists u; eexists; apply elem_of_snoc]].
      assert (Hu : u ∈ (partitionOwned (slice_at (currentByLogicalKey ix) (LogicalKey d)) ownerID).2)
        by (rewrite Eu; left).
      apply partitionOwned_unowned in Hu as [Hu Hr]. unfold ix in Hr. apply logical_rows in Hr as [Hlk Hr].
      intros Hl. rewrite (Hl u Hr Hlk) in Hu. done. }
  assert (Hl : logical_owned ownerID current d) by (eapply logical_unowned_nil; exact Eu).
  fold ix. change ((partitionOwned (slice_at (currentByKey ix) (Key d)) ownerID).1)
    with (owned_for ownerID desired current (Key d)).
  destruct (owned_for ownerID desired current (Key d)) as [|c dups] eqn:Eo; cbn.
  { split; [exact Hrep|]. do 3 right. left. apply elem_of_snoc. }
  split.
  - destruct (EqualRecord c d); cbn; [exact Hrep|]. set_solver.
  - do 4 right. exists c. split; [done|]. split; [left|]. destruct (EqualRecord c d); [by left|right].
    eexists. cbn. apply elem_of_snoc.
Qed.

Lemma main_loop_accounts :
  let st := foldl (desired_step ownerID cleanupAllowed ix mc cr) (mkMainState [] ∅ [] [] ∅)
              (map_range 4 (desiredByKey ix)) in
  forall d, is_desired d -> accounted st d.
Proof.
  intros st. assert (G : reported_ok st /\ forall k d, (k, d) ∈ map_range 4 (desiredByKey ix) -> accounted st d).
  { unfold st. apply (foldl_ind_done (fun l st => reported_ok st /\ forall k d, (k, d) ∈ l -> accounted st d)).
    - split; [intros g op; set_solver|]. by intros ? ? ?%not_elem_of_nil.
    - intros dn st' [k d] Hin [Hr Ha]. apply elem_of_map_range, desired_entry in Hin as [Hd ->].
      destruct (desired_step_accounts st' d Hd Hr) as [Hr' Hd']. split; [done|].
      intros k' d' Hin. apply elem_of_app in Hin as [Hin|Hin].
      + eapply accounted_grows; [apply desired_step_grows|eauto].
      + apply list_elem_of_singleton in Hin. by simplify_eq. }
  intros d Hd. apply (proj2 G (Key d)). by apply elem_of_map_range.
Qed.
End main_loop.

Lemma plan_state_main : main ps =
  foldl (desired_step ownerID cleanupAllowed ix (mutationConflicts ps) (cnameReplacements ps))
    (mkMainState [] ∅ [] [] ∅) (map_range 4 (desiredByKey ix)).
Proof. unfold ps, plan_state. fold ix. by destruct (foldl (transition_step _ _ _ _) _ _). Qed.

Lemma plan_accounts d : is_desired d ->
  accounted (mutationConflicts ps) (cnameReplacements ps) (main ps) d.
Proof. rewrite plan_state_main. apply main_loop_accounts. Qed.

Lemma main_operation_in_plan op : op ∈ operations (main ps) -> op ∈ plan.
Proof.
  intros Hop. apply elem_of_plan. left. fold ps.
  destruct (pf_pair _ _ _ _ _ _ (plan_state_facts ownerID cleanup cleanupAllowed desired current)) as [Hold _].
  apply Hold, elem_of_app. by left.
Qed.

Lemma replacement_in_plan g op : cnameReplacements ps !! g = Some op -> op ∈ plan.
Proof.
  intros Hop. apply elem_of_plan. left. fold ps.
  destruct (pf_pair _ _ _ _ _ _ (plan_state_facts ownerID cleanup cleanupAllowed desired current)) as [Hold _].
  apply Hold, elem_of_app. right. apply (list_elem_of_fmap_2 snd _ (g, op)). by apply elem_of_map_range.
Qed.

Lemma candidate_in_plan d : d ∈ createCandidates (main ps) ->
  exists op, op ∈ plan /\ Desired op = d /\ (OpType op = OperationCreate \/ OpType op = OperationReplace).
Proof.
  intros Hd.
  destruct (pf_pair _ _ _ _ _ _ (plan_state_facts ownerID cleanup cleanupAllowed desired current))
    as (_ & _ & _ & _ & Hcov). fold ps in Hcov.
  destruct (Hcov d Hd) as [Hc|[c Hc]].
  - exists (create_operation d). split; [|by auto]. apply elem_of_plan. right. left. eauto.
  - eexists. split; [apply elem_of_plan; left; exact Hc|]. by auto.
Qed.

(** The four ways a desired record is accounted for in a plan. *)
Definition covered_by_plan (d : Endpoint) : Prop :=
  (exists op, op ∈ plan /\ OpType op = OperationConflict /\ MutationGroupKey (Desired op) = MutationGroupKey d) \/
  (exists op, op ∈ plan /\ Desired op = d /\
     (OpType op = OperationCreate \/ OpType op = OperationReplace \/ OpType op = OperationUpdate)) \/
  (exists c, owned_row c /\ Key c = Key d /\ EqualRecord c d = true).

Lemma desired_covered d : is_desired d -> covered_by_plan d.
Proof.
  pose proof (plan_state_facts ownerID cleanup cleanupAllowed desired current) as F. fold ps in F.
  intros Hd. destruct (plan_accounts d Hd) as [(op & Hg & Hop)|[[op Hg]|[(_ & _ & u & r & Hop)|[Hc|(c & _ & Hc & Hx)]]]].
  - left. exists op. split; [by apply main_operation_in_plan|].
    apply (pf_conflicts _ _ _ _ _ _ F) in Hg as (d' & c & r & -> & _ & Hg'). done.
  - right. left. exists op. split; [by eapply replacement_in_plan|].
    apply (pf_replacements _ _ _ _ _ _ F) in Hg as Hr. destruct Hr as (d' & c & r & -> & _).
    split; [|cbn; by auto]. apply replacement_unique in Hg as [Hu _].
    assert (Hin : d ∈ group_desired (MutationGroupKey d)) by by apply elem_of_group_desired.
    rewrite Hu in Hin. by apply list_elem_of_singleton in Hin.
  - left. eexists. split; [by apply main_operation_in_plan|]. done.
  - right. left. destruct (candidate_in_plan d Hc) as (op & Hop & Hdd & Ht). exists op. naive_solver.
  - unfold ix in Hc. apply owned_for_elem in Hc as [Hrow Hk]. destruct Hx as [Heq|[r Hop]].
    + right. right. eauto.
    + right. left. eexists. split; [by apply main_operation_in_plan|]. cbn. auto.
Qed.

(** ** The records an operation changes at the provider *)

Inductive touches : Operation -> Endpoint -> Prop :=
| touch_create d c r : touches (mkOperation OperationCreate d c r) d
| touch_update_new d c r : touches (mkOperation OperationUpdate d c r) d
| touch_update_old d c r : touches (mkOperation OperationUpdate d c r) c
| touch_replace_new d c r : touches (mkOperation OperationReplace d c r) d
| touch_replace_old d c r : touches (mkOperation OperationReplace d c r) c
| touch_delete d c r : touches (mkOperation OperationDelete d c r) c
| touch_deactivate d c r : touches (mkOperation OperationDeactivate d c r) c.

Lemma touches_not_conflict d c r e : ~ touches (mkOperation OperationConflict d c r) e.
Proof. inversion 1. Qed.

Lemma stale_origin c : c ∈ allStale ps ->
  (exists d, open_desired ownerID desired current (mutationConflicts ps) (cnameReplacements ps) d /\
             c ∈ owned_for ownerID desired current (Key d)) \/
  (clear_group (mutationConflicts ps) (cnameReplacements ps) c /\ (LogicalKey c ∉ conflictLogicalKeys (main ps))).
Proof.
  pose proof (plan_state_facts ownerID cleanup cleanupAllowed desired current) as F. fold ps in F.
  set (mc := mutationConflicts ps). set (cr := cnameReplacements ps).
  assert (Hs : allStale ps = foldl (stale_step ownerID cleanupAllowed ix mc cr (conflictLogicalKeys (main ps)))
                 (staleCandidates (main ps)) (map_range 5 (currentByKey ix))).
  { unfold mc, cr, ps, plan_state. fold ix. by destruct (foldl (transition_step _ _ _ _) _ _). }
  rewrite Hs. clear Hs. revert c.
  apply (foldl_ind (fun l => forall c, c ∈ l ->
    (exists d, open_desired ownerID desired current mc cr d /\ c ∈ owned_for ownerID desired current (Key d)) \/
    (clear_group mc cr c /\ (LogicalKey c ∉ conflictLogicalKeys (main ps))))).
  - intros c Hc. destruct (pf_main _ _ _ _ _ _ F) as (_ & _ & Hst). rewrite Forall_forall in Hst.
    destruct (Hst c Hc) as [_ (d & Ho & Hd)]. left. exists d. split; [done|].
    destruct (owned_for ownerID desired current (Key d)); [done|by right].
  - intros l [k es] _ IH c. unfold stale_step. cbn [fst snd]. case_match; [apply IH|].
    rewrite elem_of_app, list_elem_of_filter. intros [Hc|[Hst _]]; [auto|]. right. unfold stale_row in Hst.
    repeat (case_bool_decide; [done|]). split; [split; by apply eq_None_not_Some|done].
Qed.

Section separated.
Hypothesis Hpipe : Forall no_pipe (desired ++ current).

Lemma desired_pipe_free d : is_desired d -> pipe_free d.
Proof using Hpipe.
  intros Hd. apply index_desired_Some in Hd as (d0 & Hd0 & -> & _). rewrite Forall_forall in Hpipe.
  apply no_pipe_pipe_free, Normalize_no_pipe, Hpipe, elem_of_app. by left.
Qed.

Lemma row_pipe_free e : is_row e -> pipe_free e.
Proof using Hpipe.
  intros He. apply list_elem_of_fmap in He as (e0 & -> & He0). rewrite Forall_forall in Hpipe.
  apply no_pipe_pipe_free, Normalize_no_pipe, Hpipe, elem_of_app. by right.
Qed.

Lemma owned_for_coarser d c : is_desired d -> c ∈ owned_for ownerID desired current (Key d) ->
  LogicalKey c = LogicalKey d /\ MutationGroupKey c = MutationGroupKey d.
Proof using Hpipe.
  intros Hd Hc. apply owned_for_elem in Hc as [[Hrow _] Hk].
  apply Key_coarser; [by apply row_pipe_free|by apply desired_pipe_free|done].
Qed.

(** A record that an operation changes is either new for an open desired
    record, or belongs to a CNAME replacement, or is stale. *)
Lemma touches_cases op e : op ∈ plan -> touches op e ->
  (exists d, open_desired ownerID desired current (mutationConflicts ps) (cnameReplacements ps) d /\
             LogicalKey e = LogicalKey d /\ MutationGroupKey e = MutationGroupKey d) \/
  (is_Some (cnameReplacements ps !! MutationGroupKey e)) \/
  (clear_group (mutationConflicts ps) (cnameReplacements ps) e /\ (LogicalKey e ∉ conflictLogicalKeys (main ps))).
Proof using Hpipe.
  pose proof (plan_state_facts ownerID cleanup cleanupAllowed desired current) as F. fold ps in F.
  assert (Hstale : forall c, c ∈ allStale ps ->
    (exists d, open_desired ownerID desired current (mutationConflicts ps) (cnameReplacements ps) d /\
               LogicalKey c = LogicalKey d /\ MutationGroupKey c = MutationGroupKey d) \/
    (clear_group (mutationConflicts ps) (cnameReplacements ps) c /\ (LogicalKey c ∉ conflictLogicalKeys (main ps)))).
  { intros c Hc. apply stale_origin in Hc as [(d & Ho & Hc)|?]; [|by right]. left. exists d. split; [done|].
    destruct Ho as [Hd _]. by apply owned_for_coarser. }
  intros Hop Ht. apply plan_op_complete in Hop.
  destruct Hop as [op' Hm|g op' Hg|op' _ Hp|d Hd|c op' Hc Hop].
  - destruct Hm as [g op' Hg|d u r Hd Hcl Hu Hun Hk|d c r Ho Hh Heq].
    + apply (pf_conflicts _ _ _ _ _ _ F) in Hg as (d & c & r & -> & _). by apply touches_not_conflict in Ht.
    + by apply touches_not_conflict in Ht.
    + left. exists d. split; [done|]. inversion Ht; subst; [done|].
      destruct Ho as [Hd _]. apply owned_for_coarser; [done|].
      destruct (owned_for ownerID desired current (Key d)); simplify_eq/=; left.
  - right; left. apply (pf_replacements _ _ _ _ _ _ F) in Hg as Hr.
    destruct Hr as (d & c & r & -> & _ & Hdg & _ & Hcg & _). assert (MutationGroupKey e = g) as -> by (by inversion Ht; subst). eauto.
  - destruct Hp as (d & c & -> & Hd & Hc & Hk & _). inversion Ht; subst.
    + left. apply pf_candidates in Hd as [Ho _]. eauto.
    + apply Hstale in Hc. tauto.
  - inversion Ht; subst. left. apply pf_creates in Hd as [Ho _]. eauto.
  - assert (Hc' : c ∈ allStale ps).
    { destruct (pf_pair _ _ _ _ _ _ F) as (_ & _ & _ & Hss & _). auto. }
    apply cleanup_operation_cases in Hop as (_ & [[_ ->]|(_ & _ & ->)]); inversion Ht; subst;
      apply Hstale in Hc'; tauto.
Qed.

Lemma touches_no_conflict_group op e : op ∈ plan -> touches op e ->
  mutationConflicts ps !! MutationGroupKey e = None.
Proof using Hpipe.
  intros Hop Ht. destruct (touches_cases op e Hop Ht) as [(d & (_ & [Hc _] & _) & _ & Hg)|[Hr|[[Hc _] _]]].
  - by rewrite Hg.
  - by apply replacement_not_conflict.
  - done.
Qed.

Lemma touched_known op e : op ∈ plan -> touches op e -> is_desired e \/ is_row e.
Proof using.
  intros Hop Ht. apply plan_op_complete, plan_op_justified in Hop.
  destruct Hop as [| |d c r Hd [Hc _]|d c r Hd [[Hc _] _]|c r _ [[Hc _] _]|c r _ [[Hc _] _]];
    inversion Ht; subst; auto.
Qed.

Lemma logical_conflict_key d u : is_desired d ->
  clear_group (mutationConflicts ps) (cnameReplacements ps) d ->
  is_row u -> ownedBy u ownerID = false -> LogicalKey u = LogicalKey d ->
  LogicalKey d ∈ conflictLogicalKeys (main ps).
Proof using.
  intros Hd [Hmc Hcr] Hu Hun Hk.
  assert (Hno : ~ logical_owned ownerID current d) by (intros Hl; rewrite (Hl u Hu Hk) in Hun; done).
  destruct (plan_accounts d Hd) as [(op & Hg & _)|[[op Hg]|[(_ & Hin & _)|[Hc|(c & Hl & _)]]]]; try done; try congruence.
  apply pf_candidates in Hc as [(_ & _ & Hl) _]. done.
Qed.

Lemma conflict_separate op op' e : op ∈ plan -> OpType op = OperationConflict -> op' ∈ plan -> touches op' e ->
  LogicalKey e <> LogicalKey (Desired op).
Proof using Hpipe.
  pose proof (plan_state_facts ownerID cleanup cleanupAllowed desired current) as F. fold ps in F.
  intros Hop Hty Hop' Ht Hk.
  assert (He : pipe_free e).
  { destruct (touched_known op' e Hop' Ht); [by apply desired_pipe_free|by apply row_pipe_free]. }
  apply plan_op_complete in Hop.
  destruct Hop as [op Hm|g op Hg|op _ Hp|d Hd|c op Hc Hop].
  - destruct Hm as [g op Hg|d u r Hd Hcl Hu Hun Hku|d c r Ho Hh Heq]; [| |done].
    + apply (pf_conflicts _ _ _ _ _ _ F) in Hg as Hg'. destruct Hg' as (d & c & r & -> & Hd & Hdg).
      cbn [Desired] in Hk. apply LogicalKey_coarser in Hk as [Hgk _]; [|done|by apply desired_pipe_free].
      pose proof (touches_no_conflict_group op' e Hop' Ht) as Hn. rewrite Hgk, Hdg in Hn.
      unfold ps in Hn. congruence.
    + cbn [Desired] in Hk. destruct (touches_cases op' e Hop' Ht) as [(d' & (_ & _ & Hl) & Hk' & _)|[Hr|[_ Hn]]].
      * rewrite (Hl u) in Hun; [done|done|congruence].
      * apply LogicalKey_coarser in Hk as [Hgk _]; [|done|by apply desired_pipe_free].
        destruct Hcl as [_ Hcr]. rewrite Hgk in Hr. unfold ps in Hr. rewrite Hcr in Hr. by destruct Hr.
      * apply Hn. rewrite Hk. by apply (logical_conflict_key d u).
  - apply (pf_replacements _ _ _ _ _ _ F) in Hg as (d & c & r & -> & _). done.
  - destruct Hp as (d & c & -> & _). done.
  - done.
  - apply cleanup_operation_cases in Hop as (_ & [[_ ->]|(_ & _ & ->)]); done.
Qed.
End separated.

(** ** CNAME exclusivity of the records the ordinary path handles *)

Lemma group_desired_NoDup g : NoDup (group_desired g).
Proof.
  unfold group_desired, slice_at, ix. cbn [build_index desiredByMutationGroup]. rewrite lookup_fmap.
  destruct (group_by _ _ !! g) as [es|] eqn:Ees; simpl; [|constructor].
  unfold sortEndpoints. rewrite sort_by_key_perm. apply group_by_lookup in Ees as [-> _].
  apply NoDup_filter, (NoDup_fmap_1 Key). rewrite <- list_fmap_compose.
  erewrite (Forall_fmap_ext_1 _ fst); [apply NoDup_map_range_keys|].
  apply Forall_forall. intros [k v] Hkv. apply elem_of_map_range, index_desired_key in Hkv. done.
Qed.

Section open_record.
Context (d : Endpoint).
Hypothesis Hopen : open_desired ownerID desired current (mutationConflicts ps) (cnameReplacements ps) d.
Let g := MutationGroupKey d.

Lemma open_untouched : ~ desired_clash g /\ ~ foreign_clash g /\ ~ transition g.
Proof using Hopen. destruct Hopen as (_ & Hc & _). apply untouched_clear in Hc. rewrite touched_spec in Hc. tauto. Qed.

Lemma open_in_group : d ∈ group_desired g.
Proof using Hopen. destruct Hopen as (Hd & _). by apply elem_of_group_desired. Qed.

Lemma desired_compatible d' : d' ∈ group_desired g ->
  cnameTypesConflict (RecordType d) (RecordType d') = false /\
  (RecordType d = RecordCNAME -> d' = d).
Proof using Hopen.
  intros Hd'. destruct open_untouched as (Hc & _). pose proof open_in_group as Hd.
  unfold desired_clash, desired_conflict in Hc.
  destruct (desiredSetHasCNAMEConflict _) eqn:E1; [by destruct Hc|].
  destruct (desiredSetHasMultipleCNAMETargets _) eqn:E2; [by destruct Hc|].
  pose proof (desiredSetHasCNAMEConflict_false _ d d' E1 Hd Hd') as Hcf. split; [done|].
  intros Ec. apply cnameTypesConflict_false in Hcf as [Hcf|[Hcf _]]; [|done].
  apply (multiple_cnames_zero _ d' d E2); congruence || done.
Qed.

Lemma row_compatible e : is_row e -> MutationGroupKey e = g ->
  cnameTypesConflict (RecordType d) (RecordType e) = false.
Proof using Hopen.
  intros He Hg. destruct open_untouched as (_ & Hf & Ht). pose proof open_in_group as Hd.
  destruct (ownedBy e ownerID) eqn:Eo.
  - apply not_true_is_false. intros Hcf. apply Ht. right. unfold hasCNAMETypeTransition.
    apply existsb_exists. exists d. split; [by apply list_elem_of_In|]. apply existsb_exists.
    exists e. split; [|done]. apply list_elem_of_In, elem_of_group_owned. done.
  - apply not_true_is_false. intros Hcf. apply Hf. exists d. split; [done|].
    unfold unownedCNAMEConflict. intros Hn. eapply List.find_none in Hn; [|apply list_elem_of_In, elem_of_group_unowned].
    + cbn in Hn. rewrite Hcf in Hn. done.
    + done.
Qed.

Lemma cname_group_singleton : RecordType d = RecordCNAME -> group_desired g = [d].
Proof using Hopen.
  intros Ec. pose proof open_in_group as Hd. pose proof (group_desired_NoDup g) as Hnd.
  assert (Hall : forall d', d' ∈ group_desired g -> d' = d) by (intros d' Hd'; by apply desired_compatible).
  destruct (group_desired g) as [|x [|y l]].
  - by apply not_elem_of_nil in Hd.
  - f_equal. apply Hall. left.
  - exfalso. apply NoDup_cons in Hnd as [Hx _]. apply Hx. rewrite (Hall x), (Hall y); [left|right; left|left].
Qed.

Lemma cname_create_no_row e : owned_for ownerID desired current (Key d) = [] ->
  is_row e -> MutationGroupKey e = g -> RecordType d = RecordCNAME -> False.
Proof using Hopen.
  intros Hnil He Hg Ec. pose proof (row_compatible e He Hg) as Hcf.
  apply cnameTypesConflict_false in Hcf as [Het|[? _]]; [|done].
  destruct (ownedBy e ownerID) eqn:Eo.
  - destruct open_untouched as (_ & _ & Ht). apply Ht. left.
    rewrite (cname_group_singleton Ec). unfold needsCNAMETargetReplacement. rewrite Ec. cbn [negb].
    replace (RecordCNAME =s RecordCNAME) with true by done. cbn [negb].
    destruct (existsb (fun r => Key r =s Key d) (group_owned g)) eqn:Ek.
    { apply existsb_exists in Ek as (r & Hr & Hk). bools. apply list_elem_of_In, elem_of_group_owned in Hr as [Hr _].
      exfalso. eapply (owned_for_nil ownerID desired current d); done. }
    apply existsb_exists. exists e. split; [by apply list_elem_of_In, elem_of_group_owned|].
    bools. congruence.
  - destruct Hopen as (Hdd & _ & Hl). rewrite (Hl e) in Eo; [done|done|].
    rewrite !LogicalKey_unfold. rewrite Hg. fold g. do 2 f_equal.
    apply list_elem_of_fmap in He as (e0 & -> & _). apply index_desired_Some in Hdd as (d0 & _ & -> & _).
    rewrite !RecordType_Normalize. done.
Qed.
End open_record.

(** ** Converged targets *)

(** Every desired record has exactly one owned row, which equals it; every
    owned row is desired; foreign rows have other names. *)
Record converged : Prop := {
  conv_rows : forall d, is_desired d ->
    exists c, owned_for ownerID desired current (Key d) = [c] /\ EqualRecord c d = true;
  conv_owned : forall e, owned_row e -> is_Some (index_desired desired !! Key e);
  conv_foreign : forall e d, is_row e -> ownedBy e ownerID = false -> is_desired d ->
    MutationGroupKey e <> MutationGroupKey d;
  conv_desired : forall g, ~ desired_clash g
}.

Section quiescence.
Hypothesis Hpipe : Forall no_pipe (desired ++ current).
Hypothesis Hconv : converged.

Lemma converged_no_transition g : ~ transition g.
Proof using Hpipe Hconv.
  intros [Hn|Ht].
  - unfold needsCNAMETargetReplacement in Hn. destruct (group_desired g) as [|d [|]] eqn:Eg; try done.
    assert (Hd : d ∈ group_desired g) by (rewrite Eg; left). apply elem_of_group_desired in Hd as [Hd Hg].
    destruct (conv_rows Hconv d Hd) as (c & Hc & _).
    assert (Hcin : c ∈ owned_for ownerID desired current (Key d)) by (rewrite Hc; left).
    apply owned_for_coarser in Hcin as Hgk; [|done|done]. destruct Hgk as [_ Hgk].
    apply owned_for_elem in Hcin as [Hrow Hk].
    replace (existsb (fun r => Key r =s Key d) (group_owned g)) with true in Hn; [by destruct (negb _) in Hn|].
    symmetry. apply existsb_exists. exists c. split; [|by bools].
    apply list_elem_of_In, elem_of_group_owned. split; [done|congruence].
  - unfold hasCNAMETypeTransition in Ht. apply existsb_exists in Ht as (d & Hd & Ht).
    apply existsb_exists in Ht as (c & Hc & Ht). apply list_elem_of_In in Hd, Hc.
    apply elem_of_group_owned in Hc as [Hc Hg]. destruct (conv_owned Hconv c Hc) as [d' Hd'].
    pose proof (index_desired_key _ _ _ Hd') as Hk. rewrite Hk in Hd'.
    assert (Hid : identity_of c = identity_of d').
    { apply Key_inj; [apply row_pipe_free; [done|apply Hc]|by apply desired_pipe_free|done]. }
    assert (Hin : d' ∈ group_desired g).
    { apply elem_of_group_desired. split; [done|]. rewrite <- Hg. symmetry. by apply MutationGroupKey_ext. }
    pose proof (conv_desired Hconv g) as Hcl. unfold desired_clash, desired_conflict in Hcl.
    destruct (desiredSetHasCNAMEConflict (group_desired g)) eqn:E; [by destruct Hcl|].
    pose proof (desiredSetHasCNAMEConflict_false _ d d' E Hd Hin) as Hcf.
    assert (Hty : RecordType c = RecordType d').
    { destruct Hc as [Hc _]. apply list_elem_of_fmap in Hc as (c0 & -> & _).
      apply index_desired_Some in Hd' as (d0 & _ & -> & _).
      unfold identity_of in Hid. cbv zeta in Hid. apply (f_equal (fun x => x.1.2)) in Hid. cbn [fst snd] in Hid.
      by rewrite !RecordType_Normalize in Hid. }
    congruence.
Qed.

Lemma converged_untouched g : mutationConflicts ps !! g = None /\ cnameReplacements ps !! g = None.
Proof using Hpipe Hconv.
  assert (Hn : ~ touched tr g).
  { rewrite touched_spec. intros [Hc|[(d & Hd & Hc)|Ht]].
    - by eapply conv_desired.
    - unfold unownedCNAMEConflict in Hc. destruct (List.find _ _) as [e|] eqn:Ef; [|done].
      apply List.find_some in Ef as [He _]. apply list_elem_of_In, elem_of_group_unowned in He as (He & Hun & Hg).
      apply elem_of_group_desired in Hd as [Hd Hg']. eapply conv_foreign; eauto. congruence.
    - by eapply converged_no_transition. }
  unfold touched in Hn. rewrite (proj1 plan_state_maps), (proj2 plan_state_maps), !eq_None_not_Some. tauto.
Qed.

Lemma converged_plan op : ~ op ∈ plan.
Proof using Hpipe Hconv.
  assert (Hcreate : forall d, ~ create_ok ownerID desired current (mutationConflicts ps) (cnameReplacements ps) d).
  { intros d [(Hd & _) Hnil]. destruct (conv_rows Hconv d Hd) as (c & Hc & _). congruence. }
  intros Hop. apply plan_op_complete in Hop.
  destruct Hop as [op Hm|g op Hg|op _ Hp|d Hd|c op Hc Hop].
  - destruct Hm as [g op Hg|d u r Hd Hcl Hu Hun Hk|d c r (Hd & _) Hh Heq].
    + destruct (converged_untouched g) as [Hn _]. unfold ps in Hn. congruence.
    + apply (conv_foreign Hconv u d); try done.
      apply LogicalKey_coarser in Hk as [? _]; [done|by apply row_pipe_free|by apply desired_pipe_free].
    + destruct (conv_rows Hconv d Hd) as (c' & Hc & Heq'). rewrite Hc in Hh. simplify_eq/=. congruence.
  - destruct (converged_untouched g) as [_ Hn]. unfold ps in Hn. congruence.
  - destruct Hp as (d & c & _ & Hd & _). apply pf_candidates in Hd. by apply Hcreate in Hd.
  - apply pf_creates in Hd. by apply Hcreate in Hd.
  - apply pf_stales in Hc as [[Hown _] [(d & (Hd & _) & Ht)|[_ Hno]]].
    + destruct (conv_rows Hconv d Hd) as (c' & Hc' & _). rewrite Hc' in Ht. by apply not_elem_of_nil in Ht.
    + destruct (conv_owned Hconv c Hown) as [? ?]. congruence.
Qed.
End quiescence.

(** ** Cleanup waits for creates *)

Lemma create_in_plan op : op ∈ plan -> OpType op = OperationCreate ->
  exists d, op = create_operation d /\ d ∈ (paired ps).1.2.
Proof.
  pose proof (plan_state_facts ownerID cleanup cleanupAllowed desired current) as F. fold ps in F.
  intros Hop Hty. apply plan_op_complete in Hop.
  destruct Hop as [op [g op' Hg| |] |g op Hg|op _ Hp|d Hd|c op Hc Hop]; try done.
  - apply (pf_conflicts _ _ _ _ _ _ F) in Hg as (d & c & r & -> & _). done.
  - apply (pf_replacements _ _ _ _ _ _ F) in Hg as (d & c & r & -> & _). done.
  - destruct Hp as (d & c & -> & _). done.
  - eauto.
  - apply cleanup_operation_cases in Hop as (_ & [[_ ->]|(_ & _ & ->)]); done.
Qed.

Lemma removal_in_plan op : op ∈ plan -> OpType op = OperationDelete \/ OpType op = OperationDeactivate ->
  exists c, c ∈ (paired ps).2 /\ op ∈ cleanup_operation cleanup (pending_groups (paired ps).1.2) c.
Proof.
  pose proof (plan_state_facts ownerID cleanup cleanupAllowed desired current) as F. fold ps in F.
  intros Hop Hty. apply plan_op_complete in Hop.
  destruct Hop as [op [g op' Hg| |] |g op Hg|op _ Hp|d Hd|c op Hc Hop]; cbn in Hty;
    try (by destruct Hty as [?|?]).
  - apply (pf_conflicts _ _ _ _ _ _ F) in Hg as (d & c & r & -> & _). by destruct Hty as [?|?].
  - apply (pf_replacements _ _ _ _ _ _ F) in Hg as (d & c & r & -> & _). by destruct Hty as [?|?].
  - destruct Hp as (d & c & -> & _). by destruct Hty as [?|?].
  - eauto.
Qed.
End laws.

(** C10. A plan removes or deactivates no record of a DNS name for which it
    also creates one, so a stale address goes only after its successor is
    there. *)
Theorem cleanup_waits_for_creates `{MapRange} ownerID cleanup cleanupAllowed desired current del crt :
  del ∈ BuildWithCleanupScope ownerID cleanup cleanupAllowed desired current ->
  OpType del = OperationDelete \/ OpType del = OperationDeactivate ->
  crt ∈ BuildWithCleanupScope ownerID cleanup cleanupAllowed desired current ->
  OpType crt = OperationCreate ->
  MutationGroupKey (Current del) <> MutationGroupKey (Desired crt).
Proof.
  intros Hdel Hdt Hcrt Hct Hg. apply removal_in_plan in Hdel as (c & _ & Hdel); [|done].
  apply create_in_plan in Hcrt as (d & -> & Hd); [|done].
  apply cleanup_operation_cases in Hdel as (Hn & [[_ ->]|(_ & _ & ->)]); apply Hn, elem_of_pending_groups;
    cbn in Hg; eauto.
Qed.

(** C17. Every desired record is accounted for.  Desired records with the same zone,
    name, type and target count as one, and the last of them in the list is the one
    meant; it is covered by a conflict of its DNS name, by an operation that creates
    it or turns a row into it, or by an owned row that already equals it. *)
Theorem plan_covers_desired `{MapRange} ownerID cleanup cleanupAllowed desired current d :
  d ∈ desired ->
  exists before meant after, desired = before ++ meant :: after /\ Key (Normalize meant) = Key (Normalize d) /\
    (forall x, x ∈ after -> Key (Normalize x) <> Key (Normalize d)) /\
    covered_by_plan ownerID cleanup cleanupAllowed desired current (Normalize meant).
Proof.
  intros Hd. destruct (index_desired_complete _ _ Hd) as [n Hn].
  destruct (index_desired_last _ _ _ Hn) as (before & meant & after & Hl & -> & Hk & Ha).
  exists before, meant, after. split; [done|]. split; [done|]. split; [done|].
  apply desired_covered. unfold is_desired. by rewrite Hk.
Qed.

(** A reported conflict isolates its record: no operation of the same plan
    changes a record with the zone, name and type of the conflict. *)
Theorem conflict_isolates_record `{MapRange} ownerID cleanup cleanupAllowed desired current op op' e :
  Forall no_pipe (desired ++ current) ->
  op ∈ BuildWithCleanupScope ownerID cleanup cleanupAllowed desired current ->
  OpType op = OperationConflict ->
  op' ∈ BuildWithCleanupScope ownerID cleanup cleanupAllowed desired current ->
  touches op' e -> LogicalKey e <> LogicalKey (Desired op).
Proof. intros. by eapply conflict_separate. Qed.

(** A name whose desired records clash with each other (a CNAME beside
    another type, or two CNAME targets), or clash with a record of another
    owner, is left alone: no operation of the plan changes any record of it. *)
Theorem clash_blocks_name `{MapRange} ownerID cleanup cleanupAllowed desired current g op e :
  Forall no_pipe (desired ++ current) ->
  desired_clash desired current g \/ foreign_clash ownerID desired current g ->
  op ∈ BuildWithCleanupScope ownerID cleanup cleanupAllowed desired current ->
  touches op e -> MutationGroupKey e <> g.
Proof.
  intros Hp Hc Hop Ht Hg. subst g. apply (clash_is_conflict _ cleanup cleanupAllowed) in Hc as [c Hc].
  pose proof (touches_no_conflict_group _ _ _ _ _ Hp op e Hop Ht). congruence.
Qed.


(** CNAME exclusivity: a plan creates a record beside an existing row of
    the same DNS name only when neither of them is a CNAME. *)
Theorem create_beside_row_no_cname `{MapRange} ownerID cleanup cleanupAllowed desired current crt e :
  crt ∈ BuildWithCleanupScope ownerID cleanup cleanupAllowed desired current ->
  OpType crt = OperationCreate ->
  e ∈ Normalize <$> current -> MutationGroupKey e = MutationGroupKey (Desired crt) ->
  RecordType (Desired crt) <> RecordCNAME /\ RecordType e <> RecordCNAME.
Proof.
  intros Hop Hty He Hg. apply create_in_plan in Hop as (d & -> & Hd); [|done].
  apply pf_creates in Hd as [Ho Hnil]. cbn [Desired create_operation] in *.
  assert (Hd : RecordType d <> RecordCNAME) by (intros Ec; by eapply cname_create_no_row).
  split; [done|]. pose proof (row_compatible _ _ _ _ _ _ Ho e He Hg) as Hcf.
  apply cnameTypesConflict_false in Hcf as [<-|[_ ?]]; done.
Qed.

(** CNAME exclusivity inside a plan: two records it creates for one DNS
    name are equal, or neither of them is a CNAME. *)
Theorem creates_share_name_no_cname `{MapRange} ownerID cleanup cleanupAllowed desired current c1 c2 :
  c1 ∈ BuildWithCleanupScope ownerID cleanup cleanupAllowed desired current ->
  OpType c1 = OperationCreate ->
  c2 ∈ BuildWithCleanupScope ownerID cleanup cleanupAllowed desired current ->
  OpType c2 = OperationCreate ->
  MutationGroupKey (Desired c1) = MutationGroupKey (Desired c2) ->
  Desired c1 = Desired c2 \/
  (RecordType (Desired c1) <> RecordCNAME /\ RecordType (Desired c2) <> RecordCNAME).
Proof.
  intros H1 Hty1 H2 Hty2 Hg. apply create_in_plan in H1 as (d1 & -> & Hd1); [|done].
  apply create_in_plan in H2 as (d2 & -> & Hd2); [|done]. cbn [Desired create_operation] in *.
  apply pf_creates in Hd1 as [Ho1 _]. apply pf_creates in Hd2 as [Ho2 _].
  assert (Hin : d2 ∈ group_desired desired current (MutationGroupKey d1))
    by (destruct Ho2 as [Hd2 _]; by apply elem_of_group_desired).
  destruct (desired_compatible _ _ _ _ _ _ Ho1 d2 Hin) as [Hcf Heq].
  destruct (decide (RecordType d1 = RecordCNAME)) as [Ec|Ec]; [left; symmetry; auto|].
  right. apply cnameTypesConflict_false in Hcf as [<-|[_ ?]]; done.
Qed.

(** C18. A converged target is left alone: when every desired record has
    exactly one owned row equal to it, every owned row is desired, foreign rows
    have other names, the desired records do not clash with each other (no CNAME
    beside another type or target for one name), and no zone, name or type contains
    the separator of the keys, the plan is empty, whatever the policy. *)
Theorem converged_plan_empty `{MapRange} ownerID cleanup cleanupAllowed desired current :
  Forall no_pipe (desired ++ current) ->
  converged ownerID desired current ->
  BuildWithCleanupScope ownerID cleanup cleanupAllowed desired current = [].
Proof.
  intros Hp Hc. destruct (BuildWithCleanupScope _ _ _ _ _) as [|op ops] eqn:E; [done|]. exfalso.
  eapply (converged_plan ownerID cleanup cleanupAllowed desired current Hp Hc op). rewrite E. left.
Qed.

(** ** Order of execution *)

Lemma operation_less_asym a b : operation_less a b = true -> operation_less b a = false.
Proof.
  unfold operation_less. cbv zeta. rewrite (Nat.eqb_sym (operationPhaseRank (OpType b))), (String.eqb_sym (OpType b)).
  destruct (_ =? _)%nat eqn:Er; cbn [negb].
  - destruct (OpType a =s OpType b); cbn [negb]; auto with fgdns.
  - rewrite Nat.ltb_lt, Nat.ltb_ge. lia.
Qed.

Lemma operation_less_false a b : operation_less b a = false <->
  (operationPhaseRank (OpType a) < operationPhaseRank (OpType b))%nat \/
  (operationPhaseRank (OpType a) = operationPhaseRank (OpType b) /\
   ((OpType a <> OpType b /\ (OpType b <s OpType a) = false) \/
    (OpType a = OpType b /\ (operationKey b <s operationKey a) = false))).
Proof.
  unfold operation_less. cbv zeta. destruct (_ =? _)%nat eqn:Er; cbn [negb].
  - apply Nat.eqb_eq in Er. rewrite Er. destruct (OpType b =s OpType a) eqn:Et; bools; cbn [negb]; rewrite ?Et; split; try lia; naive_solver lia.
  - apply Nat.eqb_neq in Er. rewrite Nat.ltb_ge. split; intros; lia.
Qed.

Lemma operation_le_trans a b c :
  operation_less b a = false -> operation_less c b = false -> operation_less c a = false.
Proof.
  rewrite !operation_less_false.
  intros [H1|[E1 H1]] [H2|[E2 H2]]; [left; lia|left; lia|left; lia|]. right. split; [lia|].
  destruct H1 as [[N1 L1]|[Q1 L1]], H2 as [[N2 L2]|[Q2 L2]].
  - left. split; [|eauto with fgdns]. intros Hq. rewrite Hq in *.
    apply N2. by apply str_ltb_total.
  - left. rewrite <- Q2. done.
  - left. rewrite Q1. done.
  - right. split; [congruence|eauto with fgdns].
Qed.

(** A plan lists its operations in the order of execution: conflicts
    first, then updates and replacements, then creates, then removals. *)
Theorem plan_ordered `{MapRange} ownerID cleanup cleanupAllowed desired current :
  StronglySorted (fun a b => (operationPhaseRank (OpType a) <= operationPhaseRank (OpType b))%nat)
    (BuildWithCleanupScope ownerID cleanup cleanupAllowed desired current).
Proof.
  pose proof (sort_slice_sorted operation_less operation_less_asym operation_le_trans
    (unsorted_operations cleanup (plan_state ownerID cleanup cleanupAllowed desired current))) as Hs.
  unfold BuildWithCleanupScope. induction Hs as [|a l Hs IH Hall]; constructor; [done|].
  eapply Forall_impl; [exact Hall|]. intros b Hb. unfold not_after in Hb. apply operation_less_false in Hb.
  destruct Hb as [?|[-> _]]; lia.
Qed.
