(* ===== verification/PlanExamples.v ===== *)
(** * Concrete plans

    A small zone on which the planner is evaluated, and the theorems about
    plans applied to it. *)
From Stdlib Require Import String Ascii ZArith Lia.
From S2P Require Import Prelude GoStrings NetIP Endpoint Plan PlanSafety PlanLaws.
Open Scope string_scope.
Open Scope list_scope.
Open Scope go_scope.

#[local] Existing Instance canonical_range.

Definition rec (name rt tgt owner id : string) : Endpoint :=
  mkEndpoint name rt [tgt] 300 "example.com" owner zeroSourceRef id false.

Definition me : string := "cluster-a".

(** Four names: a missing address, a record in sync, a foreign CNAME and a stale row. *)
Definition ex_desired : list Endpoint :=
  [rec "new.example.com" "A" "10.0.0.1" me "";
   rec "keep.example.com" "A" "10.0.0.2" me "";
   rec "taken.example.com" "A" "10.0.0.3" me "";
   rec "moved.example.com" "A" "10.0.0.4" me ""; rec "moved.example.com" "A" "10.0.0.5" me ""].

Definition ex_current : list Endpoint :=
  [rec "keep.example.com" "A" "10.0.0.2" me "1";
   rec "taken.example.com" "CNAME" "other.example.net" "someone" "2";
   rec "moved.example.com" "A" "10.0.0.9" me "3";
   rec "stale.example.com" "A" "10.0.0.7" me "4"].

Definition ex_plan : list Operation := Build ex_desired ex_current me CleanupDelete.

Definition op_conflict := mkOperation OperationConflict (Normalize (rec "taken.example.com" "A" "10.0.0.3" me ""))
  (Normalize (rec "taken.example.com" "CNAME" "other.example.net" "someone" "2"))
  "CNAME conflicts with an unowned record for this DNS name".
Definition op_create := create_operation (Normalize (rec "new.example.com" "A" "10.0.0.1" me "")).
Definition op_moved4 := create_operation (Normalize (rec "moved.example.com" "A" "10.0.0.4" me "")).
Definition op_moved5 := create_operation (Normalize (rec "moved.example.com" "A" "10.0.0.5" me "")).
Definition op_delete := mkOperation OperationDelete zeroEndpoint
  (Normalize (rec "stale.example.com" "A" "10.0.0.7" me "4")) "managed record is stale".

(** The stale address of the moved name stays until both new ones exist. *)
Example ex_plan_value : ex_plan = [op_conflict; op_moved4; op_moved5; op_create; op_delete].
Proof. vm_compute. reflexivity. Qed.

(** [in_plan] proves membership in a concrete plan by evaluation. *)
Ltac in_plan := apply (bool_decide_unpack _); vm_compute; exact I.

Lemma plan_justified_witness :
  op_delete ∈ ex_plan /\ justified me CleanupDelete (fun _ => true) ex_desired ex_current op_delete.
Proof. split; [in_plan|]. apply (plan_justified me CleanupDelete (fun _ => true)). in_plan. Defined.

Lemma cleanup_waits_for_creates_witness :
  MutationGroupKey (Current op_delete) <> MutationGroupKey (Desired op_create).
Proof.
  apply (cleanup_waits_for_creates me CleanupDelete (fun _ => true) ex_desired ex_current);
    [in_plan|by left|in_plan|reflexivity].
Defined.

Lemma plan_covers_desired_witness :
  let d := rec "new.example.com" "A" "10.0.0.1" me "" in
  exists before meant after, ex_desired = before ++ meant :: after /\ Key (Normalize meant) = Key (Normalize d) /\
    (forall x, x ∈ after -> Key (Normalize x) <> Key (Normalize d)) /\
    covered_by_plan me CleanupDelete (fun _ => true) ex_desired ex_current (Normalize meant).
Proof. apply (plan_covers_desired me CleanupDelete (fun _ => true)). left. Defined.

Lemma ex_no_pipe : Forall no_pipe (ex_desired ++ ex_current).
Proof. repeat (apply Forall_cons; split; [by vm_compute|]). apply Forall_nil. done. Qed.

Lemma conflict_isolates_record_witness : LogicalKey (Desired op_create) <> LogicalKey (Desired op_conflict).
Proof.
  apply (conflict_isolates_record me CleanupDelete (fun _ => true) ex_desired ex_current op_conflict op_create);
    [exact ex_no_pipe|in_plan|reflexivity|in_plan|constructor].
Defined.

Lemma clash_blocks_name_witness : MutationGroupKey (Desired op_create) <> "example.com|taken.example.com".
Proof.
  apply (clash_blocks_name me CleanupDelete (fun _ => true) ex_desired ex_current
           "example.com|taken.example.com" op_create); [exact ex_no_pipe| |in_plan|constructor].
  right. exists (Desired op_conflict). split; [in_plan|]. vm_compute. discriminate.
Defined.

Lemma create_beside_row_no_cname_witness :
  RecordType (Desired op_moved4) <> RecordCNAME /\
  RecordType (Normalize (rec "moved.example.com" "A" "10.0.0.9" me "3")) <> RecordCNAME.
Proof.
  apply (create_beside_row_no_cname me CleanupDelete (fun _ => true) ex_desired ex_current op_moved4);
    [in_plan|reflexivity|in_plan|vm_compute; reflexivity].
Defined.

Lemma creates_share_name_no_cname_witness :
  Desired op_moved4 = Desired op_moved5 \/
  (RecordType (Desired op_moved4) <> RecordCNAME /\ RecordType (Desired op_moved5) <> RecordCNAME).
Proof.
  apply (creates_share_name_no_cname me CleanupDelete (fun _ => true) ex_desired ex_current);
    [in_plan|reflexivity|in_plan|reflexivity|vm_compute; reflexivity].
Defined.

(** A converged zone: one record in sync and one foreign row of another name. *)
Definition conv_want : list Endpoint := [rec "keep.example.com" "A" "10.0.0.2" me ""].
Definition conv_have : list Endpoint :=
  [rec "keep.example.com" "A" "10.0.0.2" me "1"; rec "else.example.com" "A" "10.0.0.3" "someone" "2"].

Lemma conv_desired_only d : is_desired conv_want d -> d = Normalize (rec "keep.example.com" "A" "10.0.0.2" me "").
Proof. intros Hd. apply index_desired_Some in Hd as (d0 & Hd0%list_elem_of_singleton & -> & _). by subst. Qed.

Lemma conv_group_nil g : g <> "example.com|keep.example.com" -> group_desired conv_want conv_have g = [].
Proof.
  intros Hg. apply elem_of_nil_inv. intros d Hd. apply elem_of_group_desired in Hd as [Hd <-].
  apply Hg. by rewrite (conv_desired_only d Hd).
Qed.

Lemma conv_converged : converged me conv_want conv_have.
Proof.
  split.
  - intros d ->%conv_desired_only. exists (Normalize (rec "keep.example.com" "A" "10.0.0.2" me "1")).
    split; vm_compute; reflexivity.
  - intros e [He Ho]. apply list_elem_of_fmap in He as (e0 & -> & He0).
    repeat (apply elem_of_cons in He0 as [->|He0]; [try discriminate Ho; vm_compute; eauto|]).
    by apply not_elem_of_nil in He0.
  - intros e d He Hun ->%conv_desired_only. apply list_elem_of_fmap in He as (e0 & -> & He0).
    repeat (apply elem_of_cons in He0 as [->|He0]; [try discriminate Hun; vm_compute; discriminate|]).
    by apply not_elem_of_nil in He0.
  - intros g Hc. unfold desired_clash in Hc. destruct (decide (g = "example.com|keep.example.com")) as [->|Hg].
    + apply Hc. vm_compute. reflexivity.
    + by rewrite conv_group_nil in Hc.
Qed.

Lemma converged_plan_empty_witness : Build conv_want conv_have me CleanupDelete = [].
Proof.
  apply (converged_plan_empty me CleanupDelete (fun _ => true)); [|exact conv_converged].
  repeat (apply Forall_cons; split; [by vm_compute|]). by apply Forall_nil.
Defined.
