(* ===== verification/Document.v ===== *)
(** * internal/plan/document.go: the target-scoped mutation contract

    The reviewed plan is a [Document]; its identifier is the SHA-256 digest of
    the canonical JSON form.  This file models the data, the canonical form,
    [Validate] and the cycle search over the prerequisite edges. *)
From Stdlib Require Import String Ascii ZArith Lia.
From S2P Require Import Prelude GoStrings NetIP GoEncoding Endpoint Plan.
Open Scope string_scope.
Open Scope list_scope.
Open Scope go_scope.

Definition DocumentSchemaVersion : string := "v1alpha1".
Definition DocumentAPIVersion : string := "fortigate-external-dns.kgskr.io/" +:+ DocumentSchemaVersion.
Definition DocumentKind : string := "ReconciliationPlan".

Record TargetIdentity := mkTargetIdentity {
  TI_Namespace : string; TI_Name : string; TI_UID : string; TI_Generation : Z; TI_VDOM : string; TI_Zone : string }.

Record ProviderPrecondition := mkProviderPrecondition { PP_Revision : string; PP_Stable : bool; PP_Complete : bool }.

Record DiscoverySourcePrecondition := mkDiscoverySource {
  DS_Kind : string; DS_Namespace : string; DS_Name : string; DS_ResourceVersion : string; DS_Complete : bool }.

Record DiscoveryPrecondition := mkDiscovery {
  DP_Generation : Z; DP_Complete : bool; DP_Sources : list DiscoverySourcePrecondition }.

Record PolicyResourcePrecondition := mkPolicyResource {
  PR_Namespace : string; PR_Name : string; PR_UID : string; PR_Generation : Z; PR_ResourceVersion : string }.

Record PolicyPrecondition := mkPolicyPrecondition {
  PO_Generation : Z; PO_Complete : bool; PO_Resources : list PolicyResourcePrecondition }.

Record OwnershipPrecondition := mkOwnershipPrecondition {
  OW_Namespace : string; OW_Name : string; OW_UID : string; OW_ResourceVersion : string;
  OW_ProviderID : string; OW_Fingerprint : string; OW_Phase : string }.

Record Preconditions := mkPreconditions {
  Provider : ProviderPrecondition; Discovery : DiscoveryPrecondition; Policy : PolicyPrecondition;
  Ownership : list OwnershipPrecondition }.

Record SanitizedRecord := mkSanitizedRecord {
  SR_Zone : string; SR_DNSName : string; SR_RecordType : string; SR_Targets : list string; SR_TTL : Z;
  SR_ProviderID : string; SR_Disabled : bool }.

(** [OperationReason] and [SafetyDecisionCode] are string types in the code. *)
Definition OperationReasonUnspecified : string := "unspecified".
Definition OperationReasonRecordMissing : string := "record-missing".
Definition OperationReasonRecordDiffers : string := "record-differs".
Definition OperationReasonRecordStale : string := "record-stale".
Definition OperationReasonRecordTargetChanged : string := "record-target-changed".
Definition OperationReasonRecordTypeChanged : string := "record-type-changed".
Definition OperationReasonLogicalRecordUnowned : string := "logical-record-unowned".
Definition OperationReasonCNAMEUnownedConflict : string := "cname-unowned-conflict".
Definition OperationReasonCNAMETypeConflict : string := "cname-type-conflict".
Definition OperationReasonCNAMETransitionAmbiguous : string := "cname-transition-ambiguous".

Record SanitizedOperation := mkSanitizedOperation {
  SO_ID : string; SO_Type : string; SO_Desired : option SanitizedRecord; SO_Current : option SanitizedRecord;
  SO_Reason : string }.

Record PrerequisiteEdge := mkEdge { OperationID : string; RequiresOperationID : string }.

Definition SafetyDecisionCodes : list string :=
  ["discovery-complete"; "provider-snapshot-stable"; "policy-accepted"; "ownership-authorized";
   "empty-desired-guard"; "cleanup-limit"; "logical-conflict"; "approval-required"].
Definition SafetyDecisionUnspecified : string := "unspecified".

Record SafetyDecision := mkSafetyDecision { Code : string; Allowed : bool; OperationIDs : list string }.

Record Document := mkDocument {
  Doc_APIVersion : string;
  Doc_Kind : string;
  Target : TargetIdentity;
  Doc_Preconditions : Preconditions;
  Operations : list SanitizedOperation;
  Prerequisites : list PrerequisiteEdge;
  SafetyDecisions : list SafetyDecision
}.

#[export] Instance TargetIdentity_eq_dec : EqDecision TargetIdentity.
Proof. solve_decision. Defined.
#[export] Instance ProviderPrecondition_eq_dec : EqDecision ProviderPrecondition.
Proof. solve_decision. Defined.
#[export] Instance DiscoverySourcePrecondition_eq_dec : EqDecision DiscoverySourcePrecondition.
Proof. solve_decision. Defined.
#[export] Instance DiscoveryPrecondition_eq_dec : EqDecision DiscoveryPrecondition.
Proof. solve_decision. Defined.
#[export] Instance PolicyResourcePrecondition_eq_dec : EqDecision PolicyResourcePrecondition.
Proof. solve_decision. Defined.
#[export] Instance PolicyPrecondition_eq_dec : EqDecision PolicyPrecondition.
Proof. solve_decision. Defined.
#[export] Instance OwnershipPrecondition_eq_dec : EqDecision OwnershipPrecondition.
Proof. solve_decision. Defined.
#[export] Instance Preconditions_eq_dec : EqDecision Preconditions.
Proof. solve_decision. Defined.
#[export] Instance SanitizedRecord_eq_dec : EqDecision SanitizedRecord.
Proof. solve_decision. Defined.
#[export] Instance SanitizedOperation_eq_dec : EqDecision SanitizedOperation.
Proof. solve_decision. Defined.
#[export] Instance PrerequisiteEdge_eq_dec : EqDecision PrerequisiteEdge.
Proof. solve_decision. Defined.

(** ** Sanitizing *)

Definition endpointIsZero (e : Endpoint) : bool :=
  (DNSName e =s "") && (RecordType e =s "") && (length (Targets e) =? 0)%nat && (TTL e =? 0)%Z
  && (Zone e =s "") && (ProviderID e =s "") && negb (Disabled e).

Definition sanitizeRecord (e : Endpoint) : SanitizedRecord :=
  let e := Normalize e in
  mkSanitizedRecord (Zone e) (DNSName e) (RecordType e) (Targets e) (TTL e) (TrimSpace (ProviderID e)) (Disabled e).

Definition operationReason (reason : string) : string :=
  let r := TrimSpace reason in
  if r =s "record is missing" then OperationReasonRecordMissing
  else if r =s "record differs from desired state" then OperationReasonRecordDiffers
  else if r =s "managed record is stale" then OperationReasonRecordStale
  else if r =s "record target changed" then OperationReasonRecordTargetChanged
  else if r =s "record type changed" then OperationReasonRecordTypeChanged
  else if r =s "logical record is not owned by this controller" then OperationReasonLogicalRecordUnowned
  else if r =s "CNAME conflicts with an unowned record for this DNS name" then OperationReasonCNAMEUnownedConflict
  else if (r =s "desired records contain a CNAME and another record type for the same DNS name")
          || (r =s reasonCNAMEMultipleTargets) then OperationReasonCNAMETypeConflict
  else if (r =s "CNAME record-type transition requires exactly one owned current row with a provider ID")
          || (r =s "CNAME target transition cannot retain the current record")
       then OperationReasonCNAMETransitionAmbiguous
  else OperationReasonUnspecified.

Definition known_reasons : list string :=
  [OperationReasonRecordMissing; OperationReasonRecordDiffers; OperationReasonRecordStale;
   OperationReasonRecordTargetChanged; OperationReasonRecordTypeChanged; OperationReasonLogicalRecordUnowned;
   OperationReasonCNAMEUnownedConflict; OperationReasonCNAMETypeConflict; OperationReasonCNAMETransitionAmbiguous].

Definition canonicalOperationReason (reason : string) : string :=
  if existsb (String.eqb reason) known_reasons then reason else OperationReasonUnspecified.

Definition canonicalSafetyDecisionCode (code : string) : string :=
  if existsb (String.eqb code) SafetyDecisionCodes then code else SafetyDecisionUnspecified.

(** The JSON object of a record, in the order of the struct fields. *)
Definition json_record (r : SanitizedRecord) : json :=
  JObject ([("zone", JString (SR_Zone r)); ("dnsName", JString (SR_DNSName r));
            ("recordType", JString (SR_RecordType r))]
           ++ omit_array "targets" (JString <$> SR_Targets r) ++ [("ttl", JInt (SR_TTL r))]
           ++ omit_string "providerID" (SR_ProviderID r) ++ [("disabled", JBool (SR_Disabled r))]).

Definition operationID (op : SanitizedOperation) : string :=
  hex_sha256 (Marshal (JObject
    ([("type", JString (SO_Type op))] ++ omit_object "desired" (json_record <$> SO_Desired op)
     ++ omit_object "current" (json_record <$> SO_Current op) ++ [("reason", JString (SO_Reason op))]))).

Definition SanitizeOperation (operation : Operation) : SanitizedOperation :=
  let opt e := if negb (endpointIsZero e) then Some (sanitizeRecord e) else None in
  let sanitized := mkSanitizedOperation "" (TrimSpace (OpType operation)) (opt (Desired operation))
                     (opt (Current operation)) (operationReason (Reason operation)) in
  mkSanitizedOperation (operationID sanitized) (SO_Type sanitized) (SO_Desired sanitized) (SO_Current sanitized)
    (SO_Reason sanitized).

Definition NewDocument (target : TargetIdentity) (preconditions : Preconditions) (operations : list Operation)
    : Document :=
  mkDocument DocumentAPIVersion DocumentKind target preconditions (SanitizeOperation <$> operations) [] [].

(** ** The canonical form *)

Definition nul : string := String "000" "".

Definition discoverySourceSortKey (s : DiscoverySourcePrecondition) : string :=
  Join [DS_Kind s; DS_Namespace s; DS_Name s; DS_ResourceVersion s; FormatBool (DS_Complete s)] nul.
Definition policyResourceSortKey (r : PolicyResourcePrecondition) : string :=
  Join [PR_Namespace r; PR_Name r; PR_UID r; FormatInt (PR_Generation r); PR_ResourceVersion r] nul.
Definition ownershipSortKey (o : OwnershipPrecondition) : string :=
  Join [OW_Namespace o; OW_Name o; OW_UID o; OW_ResourceVersion o; OW_ProviderID o; OW_Fingerprint o; OW_Phase o] nul.
Definition operationSortKey (op : SanitizedOperation) : string := Join [SO_ID op; SO_Type op; SO_Reason op] nul.
Definition prerequisiteSortKey (e : PrerequisiteEdge) : string := Join [OperationID e; RequiresOperationID e] nul.
Definition safetyDecisionSortKey (d : SafetyDecision) : string :=
  Join [Code d; FormatBool (Allowed d); Join (OperationIDs d) (String "001" "")] nul.

(** [out] keeps a value unless it equals the one appended last. *)
Definition drop_repeats {A} `{EqDecision A} (values : list A) : list A :=
  foldl (fun out v => if decide (last out = Some v) then out else out ++ [v]) [] values.

Definition sortedUniqueStrings (values : list string) : list string :=
  drop_repeats (sort_strings (TrimSpace <$> values)).

Definition trim_edge (e : PrerequisiteEdge) : PrerequisiteEdge :=
  mkEdge (TrimSpace (OperationID e)) (TrimSpace (RequiresOperationID e)).

Definition deduplicatePrerequisites (edges : list PrerequisiteEdge) : list PrerequisiteEdge :=
  drop_repeats (sort_by_key prerequisiteSortKey (trim_edge <$> edges)).

Definition canonicalTarget (t : TargetIdentity) : TargetIdentity :=
  mkTargetIdentity (TrimSpace (TI_Namespace t)) (TrimSpace (TI_Name t)) (TrimSpace (TI_UID t)) (TI_Generation t)
    (TrimSpace (TI_VDOM t)) (NormalizeDNSName (TI_Zone t)).

Definition canonicalSource (s : DiscoverySourcePrecondition) : DiscoverySourcePrecondition :=
  mkDiscoverySource (TrimSpace (DS_Kind s)) (TrimSpace (DS_Namespace s)) (TrimSpace (DS_Name s))
    (TrimSpace (DS_ResourceVersion s)) (DS_Complete s).

Definition canonicalResource (r : PolicyResourcePrecondition) : PolicyResourcePrecondition :=
  mkPolicyResource (TrimSpace (PR_Namespace r)) (TrimSpace (PR_Name r)) (TrimSpace (PR_UID r)) (PR_Generation r)
    (TrimSpace (PR_ResourceVersion r)).

Definition canonicalOwnership (o : OwnershipPrecondition) : OwnershipPrecondition :=
  mkOwnershipPrecondition (TrimSpace (OW_Namespace o)) (TrimSpace (OW_Name o)) (TrimSpace (OW_UID o))
    (TrimSpace (OW_ResourceVersion o)) (TrimSpace (OW_ProviderID o)) (TrimSpace (OW_Fingerprint o))
    (TrimSpace (OW_Phase o)).

Definition canonicalPreconditions (p : Preconditions) : Preconditions :=
  mkPreconditions
    (mkProviderPrecondition (TrimSpace (PP_Revision (Provider p))) (PP_Stable (Provider p)) (PP_Complete (Provider p)))
    (mkDiscovery (DP_Generation (Discovery p)) (DP_Complete (Discovery p))
       (sort_by_key discoverySourceSortKey (canonicalSource <$> DP_Sources (Discovery p))))
    (mkPolicyPrecondition (PO_Generation (Policy p)) (PO_Complete (Policy p))
       (sort_by_key policyResourceSortKey (canonicalResource <$> PO_Resources (Policy p))))
    (sort_by_key ownershipSortKey (canonicalOwnership <$> Ownership p)).

Definition canonicalRecord (r : SanitizedRecord) : SanitizedRecord :=
  let e := Normalize (mkEndpoint (SR_DNSName r) (SR_RecordType r) (SR_Targets r) 0 (SR_Zone r) "" zeroSourceRef "" false) in
  mkSanitizedRecord (Zone e) (DNSName e) (RecordType e) (sortedUniqueStrings (Targets e)) (SR_TTL r)
    (TrimSpace (SR_ProviderID r)) (SR_Disabled r).

Definition canonicalOperation (op : SanitizedOperation) : SanitizedOperation :=
  let op := mkSanitizedOperation (TrimSpace (SO_ID op)) (TrimSpace (SO_Type op)) (canonicalRecord <$> SO_Desired op)
              (canonicalRecord <$> SO_Current op) (canonicalOperationReason (SO_Reason op)) in
  if SO_ID op =s "" then
    mkSanitizedOperation (operationID op) (SO_Type op) (SO_Desired op) (SO_Current op) (SO_Reason op)
  else op.

Definition canonicalDecision (d : SafetyDecision) : SafetyDecision :=
  mkSafetyDecision (canonicalSafetyDecisionCode (Code d)) (Allowed d) (sortedUniqueStrings (OperationIDs d)).

Definition canonicalCopy (d : Document) : Document :=
  let api := TrimSpace (Doc_APIVersion d) in
  let kind := TrimSpace (Doc_Kind d) in
  mkDocument
    (if api =s "" then DocumentAPIVersion else api)
    (if kind =s "" then DocumentKind else kind)
    (canonicalTarget (Target d))
    (canonicalPreconditions (Doc_Preconditions d))
    (sort_by_key operationSortKey (canonicalOperation <$> Operations d))
    (deduplicatePrerequisites (Prerequisites d))
    (sort_by_key safetyDecisionSortKey (canonicalDecision <$> SafetyDecisions d)).

(** ** The cycle search *)

Inductive Mark := visiting | visited.

(** The state of the search with the offending operation, [""] when there is
    none; [None] when the fuel does not suffice. *)
Definition VisitResult : Type := option (gmap string Mark * string).

(** The loop both over the requirements of an operation and over all keys. *)
Fixpoint visit_each (visit : gmap string Mark -> string -> VisitResult) (state : gmap string Mark)
    (ids : list string) : VisitResult :=
  match ids with
  | [] => Some (state, "")
  | id :: rest =>
      match visit state id with
      | None => None
      | Some (state, cycle) => if negb (cycle =s "") then Some (state, cycle) else visit_each visit state rest
      end
  end.

Fixpoint visit (dependencies : gmap string (list string)) (fuel : nat) (state : gmap string Mark)
    (operationID : string) : VisitResult :=
  match fuel with
  | O => None
  | S fuel =>
      match state !! operationID with
      | Some visiting => Some (state, operationID)
      | Some visited => Some (state, "")
      | None =>
          match visit_each (visit dependencies fuel) (<[operationID := visiting]> state)
                  (default [] (dependencies !! operationID)) with
          | None => None
          | Some (state, cycle) =>
              if negb (cycle =s "") then Some (state, cycle) else Some (<[operationID := visited]> state, "")
          end
      end
  end.

(** Each nested call has marked one more key of [dependencies], so the depth
    never exceeds the number of keys plus two. *)
Definition cycle_fuel (dependencies : gmap string (list string)) : nat := S (S (size dependencies)).

Section cycle.
Context `{MapRange}.

Definition dependencyCycle (dependencies : gmap string (list string)) : option string :=
  snd <$> visit_each (visit dependencies (cycle_fuel dependencies)) ∅ (map_range 0 dependencies).*1.

(** ** [Validate] *)

Inductive DocumentError :=
| UnsupportedAPIVersion (v : string) | UnsupportedKind (k : string) | TargetNameRequired | TargetZoneRequired
| OperationIDRequired | DuplicateOperationID (id : string) | UnsupportedOperationType (t : string)
| UnknownOperation (id : string) | UnknownRequirement (id : string) | SelfRequirement (id : string)
| PrerequisiteCycle (id : string) | UnknownDecisionOperation (id : string)
| OutOfFuel. (* never returned: [dependencyCycle_total] *)

Definition supportedOperationType (t : string) : bool :=
  (t =s OperationCreate) || (t =s OperationUpdate) || (t =s OperationReplace) || (t =s OperationDelete)
  || (t =s OperationDeactivate) || (t =s OperationConflict).

Fixpoint validate_operations (ids : gset string) (ops : list SanitizedOperation) : result DocumentError (gset string) :=
  match ops with
  | [] => Ok ids
  | op :: rest =>
      if TrimSpace (SO_ID op) =s "" then Err OperationIDRequired
      else if bool_decide (SO_ID op ∈ ids) then Err (DuplicateOperationID (SO_ID op))
      else if negb (supportedOperationType (SO_Type op)) then Err (UnsupportedOperationType (SO_Type op))
      else validate_operations ({[SO_ID op]} ∪ ids) rest
  end.

Fixpoint validate_edges (ids : gset string) (dependencies : gmap string (list string)) (edges : list PrerequisiteEdge)
    : result DocumentError (gmap string (list string)) :=
  match edges with
  | [] => Ok dependencies
  | e :: rest =>
      if negb (bool_decide (OperationID e ∈ ids)) then Err (UnknownOperation (OperationID e))
      else if negb (bool_decide (RequiresOperationID e ∈ ids)) then Err (UnknownRequirement (RequiresOperationID e))
      else if OperationID e =s RequiresOperationID e then Err (SelfRequirement (OperationID e))
      else validate_edges ids (append_at dependencies (OperationID e) (RequiresOperationID e)) rest
  end.

Fixpoint validate_decisions (ids : gset string) (operationIDs : list string) : result DocumentError unit :=
  match operationIDs with
  | [] => Ok tt
  | id :: rest =>
      if negb (bool_decide (id ∈ ids)) then Err (UnknownDecisionOperation id) else validate_decisions ids rest
  end.

Definition Validate (d : Document) : result DocumentError unit :=
  if negb (Doc_APIVersion d =s DocumentAPIVersion) then Err (UnsupportedAPIVersion (Doc_APIVersion d))
  else if negb (Doc_Kind d =s DocumentKind) then Err (UnsupportedKind (Doc_Kind d))
  else if TrimSpace (TI_Name (Target d)) =s "" then Err TargetNameRequired
  else if TrimSpace (TI_Zone (Target d)) =s "" then Err TargetZoneRequired
  else
    let? ids := validate_operations ∅ (Operations d) in
    let? dependencies := validate_edges ids ∅ (Prerequisites d) in
    match dependencyCycle dependencies with
    | None => Err OutOfFuel
    | Some cycle =>
        if negb (cycle =s "") then Err (PrerequisiteCycle cycle)
        else validate_decisions ids (SafetyDecisions d ≫= OperationIDs)
    end.
End cycle.

(** ** Canonical JSON and the identifier of a document *)

Definition json_target (t : TargetIdentity) : json :=
  JObject (omit_string "namespace" (TI_Namespace t) ++ [("name", JString (TI_Name t))] ++ omit_string "uid" (TI_UID t)
           ++ [("generation", JInt (TI_Generation t))] ++ omit_string "vdom" (TI_VDOM t)
           ++ [("zone", JString (TI_Zone t))]).

Definition json_source (s : DiscoverySourcePrecondition) : json :=
  JObject ([("kind", JString (DS_Kind s))] ++ omit_string "namespace" (DS_Namespace s) ++ omit_string "name" (DS_Name s)
           ++ omit_string "resourceVersion" (DS_ResourceVersion s) ++ [("complete", JBool (DS_Complete s))]).

Definition json_resource (r : PolicyResourcePrecondition) : json :=
  JObject ([("namespace", JString (PR_Namespace r)); ("name", JString (PR_Name r))] ++ omit_string "uid" (PR_UID r)
           ++ [("generation", JInt (PR_Generation r)); ("resourceVersion", JString (PR_ResourceVersion r))]).

Definition json_ownership (o : OwnershipPrecondition) : json :=
  JObject ([("namespace", JString (OW_Namespace o)); ("name", JString (OW_Name o))] ++ omit_string "uid" (OW_UID o)
           ++ [("resourceVersion", JString (OW_ResourceVersion o))] ++ omit_string "providerID" (OW_ProviderID o)
           ++ [("fingerprint", JString (OW_Fingerprint o)); ("phase", JString (OW_Phase o))]).

Definition json_preconditions (p : Preconditions) : json :=
  JObject ([("provider", JObject [("revision", JString (PP_Revision (Provider p)));
                                  ("stable", JBool (PP_Stable (Provider p)));
                                  ("complete", JBool (PP_Complete (Provider p)))]);
            ("discovery", JObject ([("generation", JInt (DP_Generation (Discovery p)));
                                    ("complete", JBool (DP_Complete (Discovery p)))]
                                   ++ omit_array "sources" (json_source <$> DP_Sources (Discovery p))));
            ("policy", JObject ([("generation", JInt (PO_Generation (Policy p)));
                                 ("complete", JBool (PO_Complete (Policy p)))]
                                ++ omit_array "resources" (json_resource <$> PO_Resources (Policy p))))]
           ++ omit_array "ownership" (json_ownership <$> Ownership p)).

Definition json_operation (op : SanitizedOperation) : json :=
  JObject ([("id", JString (SO_ID op)); ("type", JString (SO_Type op))]
           ++ omit_object "desired" (json_record <$> SO_Desired op)
           ++ omit_object "current" (json_record <$> SO_Current op) ++ [("reason", JString (SO_Reason op))]).

Definition json_edge (e : PrerequisiteEdge) : json :=
  JObject [("operationID", JString (OperationID e)); ("requiresOperationID", JString (RequiresOperationID e))].

Definition json_decision (d : SafetyDecision) : json :=
  JObject ([("code", JString (Code d)); ("allowed", JBool (Allowed d))]
           ++ omit_array "operationIDs" (JString <$> OperationIDs d)).

Definition json_document (d : Document) : json :=
  JObject ([("apiVersion", JString (Doc_APIVersion d)); ("kind", JString (Doc_Kind d));
            ("target", json_target (Target d)); ("preconditions", json_preconditions (Doc_Preconditions d))]
           ++ omit_array "operations" (json_operation <$> Operations d)
           ++ omit_array "prerequisites" (json_edge <$> Prerequisites d)
           ++ omit_array "safetyDecisions" (json_decision <$> SafetyDecisions d)).

(** [json.Marshal] of a document runs its [MarshalJSON]: canonicalize, validate, print. *)
Definition CanonicalJSON `{MapRange} (d : Document) : result DocumentError string :=
  let canonical := canonicalCopy d in
  let? _ := Validate canonical in Ok (Marshal (json_document canonical)).

Definition ID `{MapRange} (d : Document) : result DocumentError string :=
  let? canonical := CanonicalJSON d in Ok (hex_sha256 canonical).
