(* ===== verification/DocumentGraph.v ===== *)
(** * The prerequisite graph of a plan document

    [dependencyCycle] terminates within its fuel, reports only operations that
    lie on a cycle, and reports none exactly when the operations can be listed
    with every requirement before its dependants. *)
From Stdlib Require Import String Ascii ZArith Lia Relations.
From S2P Require Import Prelude GoStrings NetIP GoEncoding Endpoint Plan Document.
Open Scope string_scope.
Open Scope list_scope.
Open Scope go_scope.

Section graph.
Context (deps : gmap string (list string)).

Definition requires (a b : string) : Prop := b ∈ default [] (deps !! a).

(** Names used in the graph are not empty: the search returns [""] for "no cycle". *)
Definition named : Prop := forall a b, requires a b -> a <> "" /\ b <> "".

(** Every requirement comes earlier in the list. *)
Definition topological (order : list string) : Prop :=
  forall l1 x l2, order = l1 ++ x :: l2 -> forall y, requires x y -> y ∈ l1.

(** The stack of the search: each operation requires the one visited from it. *)
Fixpoint path (stack : list string) (next : string) : Prop :=
  match stack with
  | [] => True
  | x :: rest => requires x next /\ path rest x
  end.

Record search_ok (state : gmap string Mark) (stack fin : list string) : Prop := {
  so_visited : forall x, state !! x = Some visited <-> x ∈ fin;
  so_visiting : forall x, state !! x = Some visiting <-> x ∈ stack;
  so_topological : topological fin;
  so_stack : NoDup stack
}.

Lemma path_cycle stack next x : path stack next -> x ∈ stack -> clos_trans _ requires x next.
Proof.
  revert next. induction stack as [|y stack IH]; intros next Hp Hx; [by apply not_elem_of_nil in Hx|].
  destruct Hp as [Hr Hp]. apply elem_of_cons in Hx as [->|Hx]; [by constructor|].
  eapply t_trans; [by apply IH|by constructor].
Qed.

Lemma path_dom stack next x : path stack next -> x ∈ stack -> x ∈ dom deps.
Proof.
  revert next. induction stack as [|y stack IH]; intros next Hp Hx; [by apply not_elem_of_nil in Hx|].
  destruct Hp as [Hr Hp]. apply elem_of_cons in Hx as [->|Hx]; [|by eapply IH].
  unfold requires in Hr. apply elem_of_dom. destruct (deps !! y); [eauto|by apply not_elem_of_nil in Hr].
Qed.

Lemma path_length stack next : NoDup stack -> path stack next -> (length stack <= size deps)%nat.
Proof.
  intros Hnd Hp. rewrite <- size_dom, <- (size_list_to_set (C := gset string)) by done.
  apply subseteq_size. intros x Hx. apply elem_of_list_to_set in Hx. by eapply path_dom.
Qed.

Lemma topological_snoc order x : topological order -> (forall y, requires x y -> y ∈ order) ->
  topological (order ++ [x]).
Proof.
  intros Ht Hx l1 z l2 E y Hy. destruct (decide (l2 = [])) as [->|Hne].
  - apply app_inj_tail in E as [<- <-]. by apply Hx.
  - destruct (exists_last Hne) as (l2' & w & ->). rewrite app_comm_cons, app_assoc in E.
    apply app_inj_tail in E as [-> ->]. by eapply Ht.
Qed.

(** What a call [visit fuel state id] guarantees. *)
Definition visit_post (stack fin : list string) (ids : list string) (r : VisitResult) : Prop :=
  exists state' c, r = Some (state', c) /\
    ((c = "" /\ exists fin', search_ok state' stack (fin ++ fin') /\ (forall x, x ∈ ids -> x ∈ fin ++ fin')) \/
     (c <> "" /\ clos_trans _ requires c c)).

Hypothesis Hnamed : named.

Lemma visit_each_post v stack fin state ids :
  (forall state fin id, id ∈ ids -> search_ok state stack fin -> visit_post stack fin [id] (v state id)) ->
  search_ok state stack fin -> visit_post stack fin ids (visit_each v state ids).
Proof using.
  intros Hv. revert state fin Hv. induction ids as [|id ids IH]; intros state fin Hv Hs; simpl.
  - exists state, "". split; [done|]. left. split; [done|]. exists []. rewrite app_nil_r. split; [done|].
    by intros ? ?%not_elem_of_nil.
  - destruct (Hv state fin id ltac:(left) Hs) as (st1 & c & -> & [[-> (f1 & Hs1 & Hin)]|[Hc Hcyc]]).
    + cbn. destruct (IH st1 (fin ++ f1)) as (st2 & c & -> & Hpost); [|done|].
      { intros ? ? ? Hid. apply Hv. by right. }
      exists st2, c. split; [done|]. destruct Hpost as [[-> (f2 & Hs2 & Hin2)]|?]; [left|by right].
      split; [done|]. exists (f1 ++ f2). rewrite app_assoc. split; [done|].
      intros x Hx. apply elem_of_cons in Hx as [->|Hx]; [|auto].
      apply elem_of_app. left. apply Hin. left.
    + apply eqb_neq_iff in Hc as Hc'. rewrite Hc'. cbn. exists st1, c. split; [done|]. by right.
Qed.

Lemma visit_correct fuel : forall state stack fin id,
  search_ok state stack fin -> path stack id -> id <> "" ->
  (size deps + 2 <= fuel + length stack)%nat ->
  visit_post stack fin [id] (visit deps fuel state id).
Proof using Hnamed.
  induction fuel as [|fuel IH]; intros state stack fin id Hs Hp Hid Hf.
  { pose proof (path_length stack id (so_stack _ _ _ Hs) Hp). lia. }
  cbn [visit]. destruct (state !! id) as [[|]|] eqn:E.
  - exists state, id. split; [done|]. right. split; [done|]. apply (so_visiting _ _ _ Hs) in E. by eapply path_cycle.
  - exists state, "". split; [done|]. left. split; [done|]. exists []. rewrite app_nil_r. split; [done|].
    intros x ->%list_elem_of_singleton. by apply (so_visited _ _ _ Hs).
  - assert (Hns : ~ id ∈ stack) by (intros Hin; apply (so_visiting _ _ _ Hs) in Hin; congruence).
    assert (Hnf : ~ id ∈ fin) by (intros Hin; apply (so_visited _ _ _ Hs) in Hin; congruence).
    assert (Hs1 : search_ok (<[id := visiting]> state) (id :: stack) fin).
    { destruct Hs as [Hv Hg Ht Hn]. split; [| |done|by constructor].
      - intros x. rewrite lookup_insert. case_decide; [subst; naive_solver|apply Hv].
      - intros x. rewrite lookup_insert, elem_of_cons, <- Hg. case_decide; naive_solver. }
    assert (Hpost : visit_post (id :: stack) fin (default [] (deps !! id))
               (visit_each (visit deps fuel) (<[id := visiting]> state) (default [] (deps !! id)))).
    { apply visit_each_post; [|done]. intros st' fin' y Hy Hs'. apply IH; [done|by split| |simpl; lia].
      by apply (Hnamed id y). }
    destruct Hpost as (st' & c & -> & [[-> (f' & Hs' & Hin)]|[Hc Hcyc]]).
    + cbn. exists (<[id := visited]> st'), "". split; [done|]. left. split; [done|]. exists (f' ++ [id]).
      rewrite app_assoc. split; [|intros x ->%list_elem_of_singleton; apply elem_of_snoc].
      destruct Hs' as [Hv Hg Ht Hn]. split.
      * intros x. rewrite lookup_insert, elem_of_app, list_elem_of_singleton, <- Hv. case_decide; naive_solver.
      * intros x. rewrite lookup_insert. case_decide as Ex; [subst; naive_solver|].
        rewrite Hg, elem_of_cons. naive_solver.
      * by apply topological_snoc.
      * by apply NoDup_cons in Hn as [_ Hn].
    + apply eqb_neq_iff in Hc as Hc'. rewrite Hc'. cbn. exists st', c. split; [done|]. by right.
Qed.

Context `{MapRange}.
Hypothesis Hkeys : forall k, is_Some (deps !! k) -> k <> "".

Lemma empty_search : search_ok ∅ [] [].
Proof using.
  split; [| | |constructor]; intros x; rewrite ?lookup_empty.
  - split; [done|by intros ?%not_elem_of_nil].
  - split; [done|by intros ?%not_elem_of_nil].
  - intros ? ? E. by destruct x.
Qed.

(** Either a cycle through the reported operation, or an execution order. *)
Lemma dependencyCycle_spec : exists c, dependencyCycle deps = Some c /\
  ((c = "" /\ exists order, topological order /\ forall a b, requires a b -> a ∈ order) \/
   (c <> "" /\ clos_trans _ requires c c)).
Proof using Hnamed Hkeys.
  assert (Hpost : visit_post [] [] (map_range 0 deps).*1
            (visit_each (visit deps (cycle_fuel deps)) ∅ (map_range 0 deps).*1)).
  { apply visit_each_post; [|apply empty_search]. intros st fin id Hin Hs.
    apply list_elem_of_fmap in Hin as ([k v] & -> & Hkv). apply elem_of_map_range in Hkv.
    apply visit_correct; [done|done|eauto|unfold cycle_fuel; simpl; lia]. }
  destruct Hpost as (st & c & Hr & Hpost). exists c. unfold dependencyCycle. rewrite Hr. split; [done|].
  destruct Hpost as [[-> (fin & Hs & Hin)]|?]; [left|by right]. split; [done|]. exists fin.
  split; [apply Hs|]. intros a b Hab. apply Hin. unfold requires in Hab.
  destruct (deps !! a) as [ds|] eqn:E; [|by apply not_elem_of_nil in Hab].
  apply (list_elem_of_fmap_2 fst _ (a, ds)). by apply elem_of_map_range.
Qed.

Lemma topological_acyclic order : topological order -> (forall a b, requires a b -> a ∈ order) ->
  forall x, ~ clos_trans _ requires x x.
Proof using.
  intros Ht Hall.
  assert (Hback : forall l1 x l2, order = l1 ++ x :: l2 -> forall y, clos_trans _ requires x y -> y ∈ l1).
  { intros l1 x l2 E y Hxy. apply clos_trans_tn1 in Hxy. induction Hxy as [y Hy|y z Hyz Hxy IH].
    - by eapply Ht.
    - apply list_elem_of_split in IH as (k1 & k2 & ->). apply elem_of_app. left.
      eapply (Ht k1 y (k2 ++ x :: l2)); [|done]. by rewrite E, <- app_assoc. }
  intros x Hx. assert (Hin : x ∈ order).
  { apply clos_trans_t1n in Hx. inversion Hx; subst; eauto. }
  (* the first occurrence cannot be preceded by another one *)
  assert (Hfirst : forall n l1 l2, (length l1 <= n)%nat -> order = l1 ++ x :: l2 -> False).
  { induction n as [|n IH]; intros l1 l2 Hl E; pose proof (Hback _ _ _ E x Hx) as Hx1.
    - destruct l1; [by apply not_elem_of_nil in Hx1|simpl in Hl; lia].
    - apply list_elem_of_split in Hx1 as (k1 & k2 & ->). rewrite length_app in Hl. simpl in Hl.
      eapply (IH k1 (k2 ++ x :: l2)); [lia|]. by rewrite E, <- app_assoc. }
  apply list_elem_of_split in Hin as (l1 & l2 & E). eapply (Hfirst (length l1)); eauto.
Qed.
End graph.

(** C35. The cycle search is total and exact: it always returns within its
    fuel; it reports no operation exactly when the requirements have no cycle,
    and an operation it reports requires itself, directly or not. *)
Theorem dependencyCycle_exact `{MapRange} (deps : gmap string (list string)) :
  (forall k ds, deps !! k = Some ds -> k <> "" /\ Forall (fun d => d <> "") ds) ->
  exists c, dependencyCycle deps = Some c /\
    (c = "" <-> forall x, ~ clos_trans _ (requires deps) x x) /\
    (c <> "" -> clos_trans _ (requires deps) c c).
Proof.
  intros Hn. assert (Hnamed : named deps).
  { intros a b Hab. unfold requires in Hab. destruct (deps !! a) as [ds|] eqn:E; [|by apply not_elem_of_nil in Hab].
    destruct (Hn a ds E) as [Ha Hds]. rewrite Forall_forall in Hds. auto. }
  destruct (dependencyCycle_spec deps Hnamed) as (c & Hc & Hspec).
  { intros k [ds Hk]. by apply (Hn k ds). }
  exists c. split; [done|]. destruct Hspec as [[-> (order & Ht & Hall)]|[Hne Hcyc]].
  - split; [|done]. split; [|done]. intros _. by eapply topological_acyclic.
  - split; [|done]. split; [by intros ->|]. intros Ha. by apply Ha in Hcyc.
Qed.
