(* ===== verification/Executor.v ===== *)
(** * internal/plan/executor.go: executing a reviewed document

    The revalidator and the applier are the two interfaces the executor
    depends on; they act on a world state [W] that stands for the provider and
    the cluster.  [Execute] is total: the outer loop runs at most once per
    operation plus one. *)
From Stdlib Require Import String Ascii ZArith Lia.
From S2P Require Import Prelude GoStrings NetIP GoEncoding Endpoint Plan Document DocumentGraph.
Open Scope string_scope.
Open Scope list_scope.
Open Scope go_scope.

Inductive ApplyOutcome := ApplySucceeded | ApplyFailed | ApplyBlocked.

#[export] Instance ApplyOutcome_eq_dec : EqDecision ApplyOutcome.
Proof. solve_decision. Defined.

Record OperationOutcome := mkOutcome { OO_OperationID : string; Result : ApplyOutcome; OO_Reason : string }.

#[export] Instance OperationOutcome_eq_dec : EqDecision OperationOutcome.
Proof. solve_decision. Defined.

(** [dependencyState] returns the pair (ready, blocked). *)
Fixpoint dependencyState (dependencies : list string) (results : gmap string ApplyOutcome) : bool * bool :=
  match dependencies with
  | [] => (true, false)
  | dependency :: rest =>
      match results !! dependency with
      | None => (false, false)
      | Some ApplySucceeded => dependencyState rest results
      | Some _ => (false, true)
      end
  end.

Inductive ExecError :=
| ExecUnconfigured
| ExecInvalid (e : DocumentError)
| ExecRevalidation (e : string)
| ExecCancelled (e : string)
| ExecNoProgress
| ExecOutOfFuel. (* never returned: [Execute_terminates] *)

Section executor.
Context {W : Type} `{MapRange}.

(** Revalidator.Revalidate, OperationApplier.ApplyOperation and ctx.Err. *)
Record ExecEnv := mkExecEnv {
  Revalidate : W -> Document -> option SanitizedOperation -> W * option string;
  ApplyOperation : W -> SanitizedOperation -> W * option string;
  ctxErr : W -> option string
}.

Record ExecState := mkExecState {
  world : W;
  results : gmap string ApplyOutcome;
  outcomes : list OperationOutcome
}.

Definition record_outcome (st : ExecState) (w : W) (id : string) (r : ApplyOutcome) (reason : string) : ExecState :=
  mkExecState w (<[id := r]> (results st)) (outcomes st ++ [mkOutcome id r reason]).

Section loops.
Context (env : ExecEnv) (canonical : Document) (dependencies : gmap string (list string)).

(** One pass over [pending]: the state, the operations left over and whether
    there was progress; [Err] carries the state when the context ended. *)
Fixpoint exec_pass (pending : list SanitizedOperation) (st : ExecState) (next : list SanitizedOperation)
    (progress : bool) : result (ExecState * string) (ExecState * list SanitizedOperation * bool) :=
  match pending with
  | [] => Ok (st, next, progress)
  | operation :: rest =>
      let '(ready, blocked) := dependencyState (default [] (dependencies !! SO_ID operation)) (results st) in
      if blocked then
        exec_pass rest (record_outcome st (world st) (SO_ID operation) ApplyBlocked "prerequisite-failed") next true
      else if negb ready then exec_pass rest st (next ++ [operation]) progress
      else
        match ctxErr env (world st) with
        | Some err => Err (st, err)
        | None =>
            match Revalidate env (world st) canonical (Some operation) with
            | (w, Some _) =>
                exec_pass rest (record_outcome st w (SO_ID operation) ApplyFailed "precondition-drift") next true
            | (w, None) =>
                match ApplyOperation env w operation with
                | (w, Some _) =>
                    exec_pass rest (record_outcome st w (SO_ID operation) ApplyFailed "provider-request-failed")
                      next true
                | (w, None) =>
                    exec_pass rest (record_outcome st w (SO_ID operation) ApplySucceeded "") next true
                end
            end
        end
  end.

Fixpoint exec_loop (fuel : nat) (pending : list SanitizedOperation) (st : ExecState)
    : ExecState * option ExecError :=
  match pending with
  | [] => (st, None)
  | _ =>
      match fuel with
      | O => (st, Some ExecOutOfFuel)
      | S fuel =>
          match exec_pass pending st [] false with
          | Err (st, err) => (st, Some (ExecCancelled err))
          | Ok (st, next, progress) =>
              if negb progress then (st, Some ExecNoProgress) else exec_loop fuel next st
          end
      end
  end.
End loops.

Definition edge_dependencies (edges : list PrerequisiteEdge) : gmap string (list string) :=
  foldl (fun m e => append_at m (OperationID e) (RequiresOperationID e)) ∅ edges.

Definition sort_outcomes (l : list OperationOutcome) : list OperationOutcome := sort_by_key OO_OperationID l.

(** Outcomes, error and final world; [None] for a missing revalidator or applier. *)
Definition Execute (e : option ExecEnv) (w : W) (document : Document)
    : list OperationOutcome * option ExecError * W :=
  match e with
  | None => ([], Some ExecUnconfigured, w)
  | Some env =>
      let canonical := canonicalCopy document in
      match Validate canonical with
      | Err err => ([], Some (ExecInvalid err), w)
      | Ok _ =>
          match Revalidate env w canonical None with
          | (w, Some err) => ([], Some (ExecRevalidation err), w)
          | (w, None) =>
              let operations := sort_by_key SO_ID (Operations canonical) in
              match exec_loop env canonical (edge_dependencies (Prerequisites canonical))
                      (S (length operations)) operations (mkExecState w ∅ []) with
              | (st, Some err) => (outcomes st, Some err, world st)
              | (st, None) => (sort_outcomes (outcomes st), None, world st)
              end
          end
      end
  end.
End executor.
Arguments ExecEnv W : clear implicits.
Arguments ExecState W : clear implicits.

(** ** [SnapshotRevalidator] *)

Definition ErrPreconditionDrift : string := "plan precondition drifted".

Section snapshot.
Context {W : Type}.
Context (CurrentPlanState : option (W -> TargetIdentity -> W * result string (TargetIdentity * Preconditions))).

Definition SnapshotRevalidate (w : W) (document : Document) (_ : option SanitizedOperation) : W * option string :=
  match CurrentPlanState with
  | None => (w, Some "plan state reader is required")
  | Some read =>
      match read w (Target document) with
      | (w, Err err) => (w, Some err)
      | (w, Ok (target, preconditions)) =>
          if negb (bool_decide (canonicalTarget target = canonicalTarget (Target document))) then
            (w, Some (ErrPreconditionDrift +:+ ": target identity changed"))
          else if negb (bool_decide (canonicalPreconditions preconditions
                                     = canonicalPreconditions (Doc_Preconditions document))) then
            (w, Some (ErrPreconditionDrift +:+ ": provider, discovery, policy, or ownership state changed"))
          else (w, None)
      end
  end.
End snapshot.

(** ** Facts about a pass *)

Section pass.
Context {W : Type} `{MapRange}.
Context (env : ExecEnv W) (canonical : Document) (deps : gmap string (list string)).

Definition requirements (id : string) : list string := default [] (deps !! id).

(** What the outcomes say, in the order in which they were appended. *)
Inductive run_ok : gmap string ApplyOutcome -> list OperationOutcome -> Prop :=
| run_nil : run_ok ∅ []
| run_blocked m l id d : run_ok m l -> m !! id = None -> d ∈ requirements id ->
    (m !! d = Some ApplyFailed \/ m !! d = Some ApplyBlocked) ->
    run_ok (<[id := ApplyBlocked]> m) (l ++ [mkOutcome id ApplyBlocked "prerequisite-failed"])
| run_done m l id r reason : run_ok m l -> m !! id = None -> r <> ApplyBlocked ->
    (forall d, d ∈ requirements id -> m !! d = Some ApplySucceeded) ->
    run_ok (<[id := r]> m) (l ++ [mkOutcome id r reason]).

Lemma dependencyState_ready ds m b : dependencyState ds m = (true, b) ->
  b = false /\ forall d, d ∈ ds -> m !! d = Some ApplySucceeded.
Proof.
  induction ds as [|d ds IH]; simpl; [by intros [= <-]; split; [|intros ? ?%not_elem_of_nil]|].
  destruct (m !! d) as [[]|] eqn:E; try done. intros Hr. apply IH in Hr as [-> Hr]. split; [done|].
  intros x Hx. apply elem_of_cons in Hx as [->|Hx]; auto.
Qed.

Lemma dependencyState_blocked ds m b : dependencyState ds m = (b, true) ->
  exists d, d ∈ ds /\ (m !! d = Some ApplyFailed \/ m !! d = Some ApplyBlocked).
Proof.
  induction ds as [|d ds IH]; simpl; [done|].
  destruct (m !! d) as [[]|] eqn:E; try done.
  - intros Hr. apply IH in Hr as (x & Hx & ?). exists x. split; [by right|done].
  - intros _. exists d. split; [left|auto].
  - intros _. exists d. split; [left|auto].
Qed.

Lemma dependencyState_waiting ds m : dependencyState ds m = (false, false) -> exists d, d ∈ ds /\ m !! d = None.
Proof.
  induction ds as [|d ds IH]; simpl; [done|].
  destruct (m !! d) as [[]|] eqn:E; try done.
  - intros Hr. apply IH in Hr as (x & Hx & ?). exists x. split; [by right|done].
  - intros _. exists d. split; [left|done].
Qed.

Definition ids (ops : list SanitizedOperation) : list string := SO_ID <$> ops.

(** The operations a pass has settled and those it has left. *)
Record pass_inv (all : list string) (st : ExecState W) (next rest : list SanitizedOperation) : Prop := {
  pi_run : run_ok (results st) (outcomes st);
  pi_split : all ≡ₚ (OO_OperationID <$> outcomes st) ++ ids (next ++ rest);
  pi_results : forall id, is_Some (results st !! id) <-> id ∈ OO_OperationID <$> outcomes st
}.

Lemma record_outcome_inv all st next op rest w r reason :
  NoDup all -> pass_inv all st next (op :: rest) ->
  (r = ApplyBlocked -> reason = "prerequisite-failed" /\ exists d, d ∈ requirements (SO_ID op) /\
     (results st !! d = Some ApplyFailed \/ results st !! d = Some ApplyBlocked)) ->
  (r <> ApplyBlocked -> forall d, d ∈ requirements (SO_ID op) -> results st !! d = Some ApplySucceeded) ->
  pass_inv all (record_outcome st w (SO_ID op) r reason) next rest.
Proof.
  intros Hnd [Hrun Hsp Hres] Hb Hd.
  assert (Hnone : results st !! SO_ID op = None).
  { apply eq_None_not_Some. rewrite Hres. intros Hin. rewrite Hsp in Hnd. apply NoDup_app in Hnd as (_ & Hdis & _).
    apply (Hdis _ Hin). unfold ids. rewrite fmap_app, fmap_cons. apply elem_of_app. right. left. }
  split; cbn [record_outcome results outcomes].
  - destruct (decide (r = ApplyBlocked)) as [->|Hr].
    + destruct (Hb eq_refl) as (-> & d & Hd1 & Hd2). by eapply run_blocked.
    + by apply run_done; auto.
  - rewrite Hsp, fmap_app. unfold ids. rewrite !fmap_app, fmap_cons. cbn.
    rewrite <- app_assoc. apply Permutation_app_head. cbn. by rewrite Permutation_middle.
  - intros id. rewrite lookup_insert, fmap_app, elem_of_app. cbn. rewrite list_elem_of_singleton, <- Hres.
    case_decide; naive_solver.
Qed.

(** A pass keeps the invariant, and makes progress unless every operation waits. *)
Lemma exec_pass_spec all pending : NoDup all -> forall st next progress,
  pass_inv all st next pending ->
  match exec_pass env canonical deps pending st next progress with
  | Err (st', _) => exists pending', pass_inv all st' [] pending'
  | Ok (st', next', progress') =>
      pass_inv all st' next' [] /\
      (length next' <= length next + length pending)%nat /\
      (progress = true -> progress' = true) /\
      (progress = false -> progress' = true -> (length next' < length next + length pending)%nat) /\
      (progress' = false -> results st' = results st /\ next' = next ++ pending /\
         forall op, op ∈ pending -> exists d, d ∈ requirements (SO_ID op) /\ results st !! d = None)
  end.
Proof.
  intros Hnd. induction pending as [|op pending IH]; intros st next progress Hinv; cbn [exec_pass].
  { split; [done|]. split; [lia|]. split; [done|]. split; [congruence|]. intros _.
    rewrite app_nil_r. split; [done|]. split; [done|]. by intros ? ?%not_elem_of_nil. }
  fold (requirements (SO_ID op)).
  assert (Hgo : forall w r reason,
    (r = ApplyBlocked -> reason = "prerequisite-failed" /\ exists d, d ∈ requirements (SO_ID op) /\
       (results st !! d = Some ApplyFailed \/ results st !! d = Some ApplyBlocked)) ->
    (r <> ApplyBlocked -> forall d, d ∈ requirements (SO_ID op) -> results st !! d = Some ApplySucceeded) ->
    match exec_pass env canonical deps pending (record_outcome st w (SO_ID op) r reason) next true with
    | Err (st', _) => exists pending', pass_inv all st' [] pending'
    | Ok (st', next', progress') =>
        pass_inv all st' next' [] /\ (length next' <= length next + S (length pending))%nat /\
        (progress = true -> progress' = true) /\
        (progress = false -> progress' = true -> (length next' < length next + S (length pending))%nat) /\
        (progress' = false -> results st' = results st /\ next' = next ++ op :: pending /\
           forall op', op' ∈ op :: pending -> exists d, d ∈ requirements (SO_ID op') /\ results st !! d = None)
    end).
  { intros w r reason Hb Hd. specialize (IH _ next true (record_outcome_inv all st next op pending w r reason Hnd Hinv Hb Hd)).
    destruct (exec_pass _ _ _ _ _ _ _) as [[[st' next'] progress']|[st' e]]; [|done].
    destruct IH as (H1 & H2 & H3 & _). rewrite (H3 eq_refl).
    split; [done|]. split; [lia|]. split; [done|]. split; [lia|done]. }
  destruct (dependencyState (requirements (SO_ID op)) (results st)) as [ready blocked] eqn:E.
  destruct blocked; [|destruct ready; cbn [negb]].
  - apply Hgo; [|done]. intros _. split; [done|]. by eapply dependencyState_blocked.
  - apply dependencyState_ready in E as [_ Hready].
    destruct (ctxErr env (world st)); [exists (next ++ op :: pending); by destruct Hinv; split|].
    destruct (Revalidate env (world st) canonical (Some op)) as [w [err|]]; [by apply Hgo|].
    destruct (ApplyOperation env w op) as [w' [err|]]; by apply Hgo.
  - apply dependencyState_waiting in E as Hwait.
    assert (Hinv' : pass_inv all st (next ++ [op]) pending).
    { destruct Hinv. split; [done| |done]. by rewrite <- app_assoc. }
    specialize (IH st (next ++ [op]) progress Hinv').
    destruct (exec_pass _ _ _ _ _ _ _) as [[[st' next'] progress']|[st' e]]; [|done].
    rewrite length_app in IH. simpl in IH. destruct IH as (H1 & H2 & H3 & H4 & H5).
    split; [done|]. split; [simpl; lia|]. split; [done|]. split; [intros Hp1 Hp2; specialize (H4 Hp1 Hp2); simpl; lia|].
    intros Hp. destruct (H5 Hp) as (Hr & -> & Hall). split; [done|]. rewrite <- app_assoc. split; [done|].
    intros op' Hop'. apply elem_of_cons in Hop' as [->|Hop']; auto.
Qed.
End pass.

(** ** The loop *)

Section loop.
Context {W : Type} `{MapRange}.
Context (env : ExecEnv W) (canonical : Document) (deps : gmap string (list string)).
Context (all order : list string).
Hypothesis Hnd : NoDup all.
Hypothesis Hclosed : forall a b, requires deps a b -> b ∈ all.
Hypothesis Htopo : topological deps order.
Hypothesis Horder : forall a b, requires deps a b -> a ∈ order.

(** In a set of operations some operation has no requirement inside the set. *)
Lemma some_minimal (pending : list string) : pending <> [] ->
  ~ (forall x, x ∈ pending -> exists d, requires deps x d /\ d ∈ pending).
Proof using Htopo Horder.
  intros Hne Hwait.
  assert (Hno : forall n l1 x l2, (length l1 <= n)%nat -> order = l1 ++ x :: l2 -> ~ x ∈ pending).
  { induction n as [|n IH]; intros l1 x l2 Hl E Hx; destruct (Hwait x Hx) as (d & Hd & Hdp);
      pose proof (Htopo _ _ _ E d Hd) as Hin.
    - destruct l1; [by apply not_elem_of_nil in Hin|simpl in Hl; lia].
    - apply list_elem_of_split in Hin as (k1 & k2 & ->). rewrite length_app in Hl. simpl in Hl.
      eapply (IH k1 d (k2 ++ x :: l2)); [lia| |done]. by rewrite E, <- app_assoc. }
  destruct pending as [|x pending]; [done|]. destruct (Hwait x ltac:(left)) as (d & Hd & _).
  apply Horder, list_elem_of_split in Hd as (l1 & l2 & E). eapply (Hno (length l1) l1 x); [lia|done|left].
Qed.

Lemma exec_loop_spec fuel : forall pending st,
  pass_inv deps all st [] pending -> (length pending < fuel)%nat ->
  match exec_loop env canonical deps fuel pending st with
  | (st', None) => run_ok deps (results st') (outcomes st') /\ all ≡ₚ OO_OperationID <$> outcomes st'
  | (st', Some (ExecCancelled _)) => run_ok deps (results st') (outcomes st')
  | (_, Some _) => False
  end.
Proof using Hnd Hclosed Htopo Horder.
  induction fuel as [|fuel IH]; intros pending st Hinv Hf; [lia|].
  destruct pending as [|op pending].
  { destruct Hinv as [Hr Hs _]. cbn in *. by rewrite app_nil_r in Hs. }
  cbn [exec_loop]. pose proof (exec_pass_spec env canonical deps all (op :: pending) Hnd st [] false Hinv) as Hp.
  destruct (exec_pass _ _ _ _ _ _ _) as [[[st' next'] progress']|[st' e]]; [|by destruct Hp as [? []]].
  destruct Hp as (Hinv' & _ & _ & Hless & Hstuck). destruct progress'; cbn [negb].
  - apply IH; [destruct Hinv' as [? Hs ?]; split; try done; by rewrite app_nil_r in Hs|].
    specialize (Hless eq_refl eq_refl). simpl in *. lia.
  - destruct (Hstuck eq_refl) as (_ & _ & Hwait). apply (some_minimal (ids (op :: pending))); [done|].
    intros x Hx. apply list_elem_of_fmap in Hx as (o & -> & Ho). destruct (Hwait o Ho) as (d & Hd & Hnone).
    exists d. split; [done|]. destruct Hinv as [_ Hs Hres].
    assert (Hin : d ∈ all) by by eapply Hclosed. rewrite Hs in Hin. apply elem_of_app in Hin as [Hin|Hin]; [|done].
    apply Hres in Hin as [? ?]. congruence.
Qed.

(** Without cancellation the loop never stops early. *)
Lemma exec_pass_not_cancelled pending st next progress : (forall w, ctxErr env w = None) ->
  exists r, exec_pass env canonical deps pending st next progress = Ok r.
Proof using.
  intros Hctx. revert st next progress. induction pending as [|op pending IH]; intros; cbn [exec_pass]; [eauto|].
  rewrite Hctx. repeat case_match; eauto.
Qed.

Lemma exec_loop_not_cancelled fuel pending st e : (forall w, ctxErr env w = None) ->
  (exec_loop env canonical deps fuel pending st).2 <> Some (ExecCancelled e).
Proof using.
  intros Hctx. revert pending st. induction fuel as [|fuel IH]; intros [|op pending] st; cbn [exec_loop]; try done.
  destruct (exec_pass_not_cancelled (op :: pending) st [] false Hctx) as [[[st' next'] p'] ->].
  destruct p'; cbn [negb]; [apply IH|done].
Qed.
End loop.

(** ** What [Validate] establishes *)

Lemma validate_operations_ok ids ops s : validate_operations ids ops = Ok s ->
  (forall x, x ∈ s <-> x ∈ ids \/ x ∈ SO_ID <$> ops) /\ NoDup (SO_ID <$> ops) /\
  (forall x, x ∈ SO_ID <$> ops -> (x ∉ ids) /\ TrimSpace x <> "").
Proof.
  revert ids. induction ops as [|op ops IH]; intros ids; cbn [validate_operations].
  { intros [= ->]. split; [set_solver|]. split; [constructor|]. by intros ? ?%not_elem_of_nil. }
  destruct (TrimSpace (SO_ID op) =s "") eqn:E1; [done|]. case_bool_decide as E2; [done|].
  destruct (negb _); [done|]. intros Hv. apply IH in Hv as (H1 & H2 & H3). bools. rewrite fmap_cons. split; [|split].
  - intros x. rewrite H1, elem_of_cons, elem_of_union, elem_of_singleton. tauto.
  - constructor; [|done]. intros Hin. apply H3 in Hin as [Hin _]. set_solver.
  - intros x Hx. apply elem_of_cons in Hx as [->|Hx]; [done|]. apply H3 in Hx as [Hx ?]. set_solver.
Qed.

Lemma validate_edges_ok ids deps edges m : validate_edges ids deps edges = Ok m ->
  m = foldl (fun m e => append_at m (OperationID e) (RequiresOperationID e)) deps edges /\
  Forall (fun e => OperationID e ∈ ids /\ RequiresOperationID e ∈ ids /\ OperationID e <> RequiresOperationID e) edges.
Proof.
  revert deps. induction edges as [|e edges IH]; intros deps; cbn [validate_edges]; [by intros [= <-]|].
  repeat case_bool_decide; cbn [negb]; try done. destruct (OperationID e =s RequiresOperationID e) eqn:E; [done|].
  intros Hv. apply IH in Hv as [-> Hall]. bools. split; [done|]. by constructor.
Qed.

Lemma edge_dependencies_requires edges a b :
  requires (edge_dependencies edges) a b <-> exists e, e ∈ edges /\ OperationID e = a /\ RequiresOperationID e = b.
Proof.
  unfold edge_dependencies, requires.
  assert (G : forall m, b ∈ default [] (foldl (fun m e => append_at m (OperationID e) (RequiresOperationID e)) m edges !! a)
            <-> b ∈ default [] (m !! a) \/ exists e, e ∈ edges /\ OperationID e = a /\ RequiresOperationID e = b).
  { induction edges as [|e edges IH]; intros m; cbn [foldl].
    - split; [by left|]. intros [?|(? & ?%not_elem_of_nil & _)]; done.
    - rewrite IH. unfold append_at. rewrite lookup_insert. setoid_rewrite elem_of_cons.
      case_decide as Ea; [subst a; cbn; rewrite elem_of_app, list_elem_of_singleton|]; naive_solver. }
  rewrite G, lookup_empty. cbn. split; [|by right]. by intros [?%not_elem_of_nil|?].
Qed.

Lemma edge_dependencies_key edges a ds : edge_dependencies edges !! a = Some ds ->
  exists e, e ∈ edges /\ OperationID e = a.
Proof.
  unfold edge_dependencies.
  assert (G : forall m, is_Some (foldl (fun m e => append_at m (OperationID e) (RequiresOperationID e)) m edges !! a) ->
            is_Some (m !! a) \/ exists e, e ∈ edges /\ OperationID e = a).
  { induction edges as [|e edges IH]; intros m Hs; cbn [foldl] in Hs; [by left|].
    apply IH in Hs as [Hs|(e' & He & Ha)]; [|right; exists e'; split; [by right|done]].
    unfold append_at in Hs. rewrite lookup_insert in Hs. case_decide; [right; exists e; split; [left|done]|by left]. }
  intros Hs. destruct (G ∅) as [[? Hn]|?]; [by rewrite Hs| |done]. by rewrite lookup_empty in Hn.
Qed.

(** A valid document has distinct identifiers, closed edges and an execution order. *)
Lemma Validate_ok `{MapRange} d : Validate d = Ok tt ->
  NoDup (ids (Operations d)) /\
  (forall e, e ∈ Prerequisites d -> OperationID e ∈ ids (Operations d) /\ RequiresOperationID e ∈ ids (Operations d)) /\
  exists order, topological (edge_dependencies (Prerequisites d)) order /\
    forall a b, requires (edge_dependencies (Prerequisites d)) a b -> a ∈ order.
Proof.
  unfold Validate. do 4 (case_match; [done|]). intros Hv.
  destruct (validate_operations ∅ (Operations d)) as [s|] eqn:Eo; [|done].
  apply validate_operations_ok in Eo as (Hs & Hnd & Hnb). cbn in Hv.
  destruct (validate_edges s ∅ (Prerequisites d)) as [m|] eqn:Ee; [|done].
  apply validate_edges_ok in Ee as [-> Hall]. cbn in Hv. rewrite Forall_forall in Hall.
  fold (edge_dependencies (Prerequisites d)) in Hv.
  assert (Hin : forall x, x ∈ s -> x ∈ ids (Operations d)) by (intros x Hx; apply Hs in Hx as [?|?]; [set_solver|done]).
  assert (Hne : forall x, x ∈ s -> x <> "").
  { intros x Hx ->. by apply Hin, Hnb in Hx as [_ Hx]. }
  split; [done|]. split; [intros e He; destruct (Hall e He) as (? & ? & ?); auto|].
  assert (Hnamed : named (edge_dependencies (Prerequisites d))).
  { intros a b Hab. apply edge_dependencies_requires in Hab as (e & He & <- & <-).
    destruct (Hall e He) as (? & ? & ?). auto. }
  destruct (dependencyCycle_spec _ Hnamed) as (c & Hc & Hspec).
  { intros k [ds Hk]. apply edge_dependencies_key in Hk as (e & He & <-). destruct (Hall e He) as (? & ? & ?). auto. }
  destruct Hspec as [[-> Ho]|[Hne' _]]; [done|]. rewrite Hc in Hv. apply eqb_neq_iff in Hne'. by rewrite Hne' in Hv.
Qed.

(** ** Reading a run *)

Lemma run_ok_results deps m l : run_ok deps m l ->
  NoDup (OO_OperationID <$> l) /\
  forall id r, m !! id = Some r <-> exists reason, mkOutcome id r reason ∈ l.
Proof.
  intros Hr.
  assert (Hstep : forall (m : gmap string ApplyOutcome) l id r reason,
            (NoDup (OO_OperationID <$> l) /\ forall i x, m !! i = Some x <-> exists s, mkOutcome i x s ∈ l) ->
            m !! id = None ->
            NoDup (OO_OperationID <$> (l ++ [mkOutcome id r reason])) /\
            forall i x, <[id := r]> m !! i = Some x <-> exists s, mkOutcome i x s ∈ l ++ [mkOutcome id r reason]).
  { intros m' l' id r reason [Hnd Hm] Hnone. assert (Hni : ~ id ∈ OO_OperationID <$> l').
    { intros Hin. apply list_elem_of_fmap in Hin as ([i x s] & -> & Hin). cbn in Hnone.
      assert (Hs : m' !! i = Some x) by (apply Hm; eauto). congruence. }
    split.
    - rewrite fmap_app. apply NoDup_app. split; [done|]. split; [|apply NoDup_singleton].
      intros x Hx ->%list_elem_of_singleton. done.
    - intros i x. rewrite lookup_insert. setoid_rewrite elem_of_app. setoid_rewrite list_elem_of_singleton.
      case_decide; [subst|rewrite Hm; naive_solver]. split.
      + intros [= <-]. eauto.
      + intros (s & [Hin|Heq]); [|naive_solver]. destruct Hni. by apply (list_elem_of_fmap_2 OO_OperationID) in Hin. }
  induction Hr; [|by apply Hstep..]. split; [constructor|]. intros id r. rewrite lookup_empty.
  split; [done|]. by intros (? & ?%not_elem_of_nil).
Qed.

(** Blocked operations are exactly those with a requirement that did not succeed. *)
Lemma run_ok_blocked deps m l id r : run_ok deps m l -> m !! id = Some r ->
  r = ApplyBlocked <-> exists d r', d ∈ requirements deps id /\ m !! d = Some r' /\ r' <> ApplySucceeded.
Proof.
  intros Hr. revert id r.
  assert (Hmono : forall m' (m : gmap string ApplyOutcome) id0 r0, m' = <[id0 := r0]> m -> m !! id0 = None ->
            forall d x, m !! d = Some x -> m' !! d = Some x).
  { intros m' m0 id0 r0 -> Hn d x Hd. rewrite lookup_insert. case_decide; [congruence|done]. }
  assert (Hold : forall (m : gmap string ApplyOutcome) l id0 r0 id r, run_ok deps m l -> m !! id0 = None -> m !! id = Some r ->
            (r = ApplyBlocked <-> exists d r', d ∈ requirements deps id /\ m !! d = Some r' /\ r' <> ApplySucceeded) ->
            (r <> ApplyBlocked -> forall d, d ∈ requirements deps id -> m !! d = Some ApplySucceeded) ->
            r = ApplyBlocked <-> exists d r', d ∈ requirements deps id /\ <[id0 := r0]> m !! d = Some r' /\ r' <> ApplySucceeded).
  { intros m0 l0 id0 r0 id r _ Hn Hid Hiff Hsucc. split.
    - intros Hb. apply Hiff in Hb as (d & r' & Hd & Hm & Hne). exists d, r'. split; [done|]. split; [|done]. by eapply Hmono.
    - intros (d & r' & Hd & Hm & Hne). destruct (decide (r = ApplyBlocked)) as [|Hnb]; [done|].
      specialize (Hsucc Hnb d Hd). eapply Hmono in Hsucc; [|reflexivity|done]. rewrite Hsucc in Hm. congruence. }
  assert (Hsucc : forall m l, run_ok deps m l -> forall id r, m !! id = Some r -> r <> ApplyBlocked ->
            forall d, d ∈ requirements deps id -> m !! d = Some ApplySucceeded).
  { clear m l Hr. induction 1 as [|m l id0 d0 Hrun IH Hn Hd0 Hf|m l id0 r0 reason Hrun IH Hn Hnb Hall]; intros id r.
    - by rewrite lookup_empty.
    - rewrite lookup_insert. case_decide; [by intros [= <-]|]. intros Hid Hr d Hd. eapply Hmono; [done|done|eauto].
    - rewrite lookup_insert. case_decide.
      + subst. intros [= <-] _ d Hd. eapply Hmono; [done|done|auto].
      + intros Hid Hr d Hd. eapply Hmono; [done|done|eauto]. }
  induction Hr as [|m l id0 d0 Hrun IH Hn Hd0 Hf|m l id0 r0 reason Hrun IH Hn Hnb Hall]; intros id r.
  - by rewrite lookup_empty.
  - rewrite lookup_insert at 1. case_decide as E.
    + subst. intros [= <-]. split; [|done]. intros _. exists d0.
      destruct Hf as [Hf|Hf]; (eexists; split; [done|]; split; [eapply Hmono; eauto|done]).
    + intros Hid. eapply Hold; eauto.
  - rewrite lookup_insert at 1. case_decide as E.
    + subst. intros [= <-]. split; [done|]. intros (d & r' & Hd & Hm & Hne). exfalso. apply Hne.
      specialize (Hall d Hd). eapply Hmono in Hall; [|reflexivity|done]. rewrite Hall in Hm. congruence.
    + intros Hid. eapply Hold; eauto.
Qed.

Section execute.
Context {W : Type} `{MapRange}.

Lemma initial_inv deps (w : W) ops : pass_inv deps (ids ops) (mkExecState w ∅ []) [] (sort_by_key SO_ID ops).
Proof.
  split; cbn [results outcomes].
  - constructor.
  - cbn. unfold ids. by rewrite sort_by_key_perm.
  - intros id. rewrite lookup_empty. cbn. split; [by intros [? ?]|by intros ?%not_elem_of_nil].
Qed.

(** The loop of [Execute] on a valid document. *)
Lemma Execute_loop (env : ExecEnv W) w d : Validate d = Ok tt ->
  match exec_loop env d (edge_dependencies (Prerequisites d)) (S (length (sort_by_key SO_ID (Operations d))))
          (sort_by_key SO_ID (Operations d)) (mkExecState w ∅ []) with
  | (st', None) => run_ok (edge_dependencies (Prerequisites d)) (results st') (outcomes st') /\
                   ids (Operations d) ≡ₚ OO_OperationID <$> outcomes st'
  | (st', Some (ExecCancelled _)) => run_ok (edge_dependencies (Prerequisites d)) (results st') (outcomes st')
  | (_, Some _) => False
  end.
Proof.
  intros Hv. apply Validate_ok in Hv as (Hnd & Hedges & order & Ht & Ho).
  eapply exec_loop_spec; [exact Hnd| |exact Ht|exact Ho|apply initial_inv|lia].
  intros a b Hab. apply edge_dependencies_requires in Hab as (e & He & _ & <-). by apply Hedges.
Qed.
End execute.

(** C33. Executing a valid, revalidated document without cancellation always
    finishes without error, with exactly one outcome per operation, sorted by
    identifier; an operation is blocked exactly when one of its prerequisites
    failed or was itself blocked, so failures never stop unrelated operations. *)
Theorem Execute_complete {W} `{MapRange} (env : ExecEnv W) w w1 document :
  Validate (canonicalCopy document) = Ok tt ->
  Revalidate env w (canonicalCopy document) None = (w1, None) ->
  (forall w, ctxErr env w = None) ->
  exists outs w', Execute (Some env) w document = (outs, None, w') /\
    (OO_OperationID <$> outs) ≡ₚ ids (Operations (canonicalCopy document)) /\
    NoDup (OO_OperationID <$> outs) /\
    StronglySorted (fun a b => (OO_OperationID b <s OO_OperationID a) = false) outs /\
    forall o, o ∈ outs ->
      (Result o = ApplyBlocked <->
       exists e o', e ∈ Prerequisites (canonicalCopy document) /\ OperationID e = OO_OperationID o /\
         o' ∈ outs /\ RequiresOperationID e = OO_OperationID o' /\ Result o' <> ApplySucceeded).
Proof.
  intros Hv Hrv Hctx. unfold Execute. rewrite Hv, Hrv.
  pose proof (Execute_loop env w1 _ Hv) as Hl.
  pose proof (fun e => exec_loop_not_cancelled env (canonicalCopy document)
    (edge_dependencies (Prerequisites (canonicalCopy document)))
    (S (length (sort_by_key SO_ID (Operations (canonicalCopy document)))))
    (sort_by_key SO_ID (Operations (canonicalCopy document))) (mkExecState w1 ∅ []) e Hctx) as Hnc.
  destruct (exec_loop _ _ _ _ _ _) as [st [e|]]; [destruct e; try done; by destruct (Hnc e)|].
  destruct Hl as [Hrun Hp]. eexists _, _. split; [reflexivity|]. unfold sort_outcomes.
  destruct (run_ok_results _ _ _ Hrun) as [Hnd Hres].
  split; [by rewrite sort_by_key_perm, Hp|]. split; [by rewrite sort_by_key_perm|]. split; [apply sort_by_key_sorted|].
  setoid_rewrite sort_by_key_perm. intros [id r reason] Ho. cbn [Result OO_OperationID].
  assert (Hid : results st !! id = Some r) by (apply Hres; eauto).
  rewrite (run_ok_blocked _ _ _ _ _ Hrun Hid). split.
  - intros (d & r' & Hd & Hm & Hne). apply edge_dependencies_requires in Hd as (e & He & <- & <-).
    apply Hres in Hm as (s & Hs). exists e, (mkOutcome (RequiresOperationID e) r' s). done.
  - intros (e & [d r' s] & He & Hoid & Ho' & Hreq & Hne). cbn in *. exists d, r'. split; [|split; [apply Hres; eauto|done]].
    apply edge_dependencies_requires. eauto.
Qed.

(** ** The order of provider requests

    [logged env] is [env] with a log of the requests that the provider
    accepted; the log is part of the world, so the executor is unchanged. *)

Section logged.
Context {W : Type} `{MapRange} (env : ExecEnv W).

Definition logged : ExecEnv (W * list string) := mkExecEnv
  (fun w d op => let '(w', e) := Revalidate env w.1 d op in ((w', w.2), e))
  (fun w op => let '(w', e) := ApplyOperation env w.1 op in
               ((w', match e with None => w.2 ++ [SO_ID op] | Some _ => w.2 end), e))
  (fun w => ctxErr env w.1).

Definition succeeded_ids (l : list OperationOutcome) : list string :=
  OO_OperationID <$> filter (fun o => Result o = ApplySucceeded) l.

Definition log_ok (st : ExecState (W * list string)) : Prop := (world st).2 = succeeded_ids (outcomes st).

Lemma log_ok_record st w id r reason : (log_ok st -> w.2 = (world st).2 ++
    (if decide (r = ApplySucceeded) then [id] else [])) -> log_ok st -> log_ok (record_outcome st w id r reason).
Proof.
  intros Hw Hl. unfold log_ok, succeeded_ids. cbn [record_outcome world outcomes]. rewrite (Hw Hl).
  rewrite filter_app, fmap_app. rewrite filter_cons, filter_nil. unfold log_ok, succeeded_ids in Hl. rewrite Hl.
  cbn [Result]. by case_decide.
Qed.

Lemma exec_pass_logged canonical deps pending : forall st next progress, log_ok st ->
  match exec_pass logged canonical deps pending st next progress with
  | Ok (st', _, _) => log_ok st' | Err (st', _) => log_ok st' end.
Proof.
  induction pending as [|op pending IH]; intros st next progress Hl; cbn [exec_pass]; [done|].
  destruct (dependencyState _ _) as [ready blocked]. destruct blocked; [|destruct ready; cbn [negb]].
  - apply IH, log_ok_record; [by rewrite app_nil_r|done].
  - cbn [ctxErr logged]. destruct (ctxErr env (world st).1); [done|].
    cbn [Revalidate ApplyOperation logged].
    destruct (Revalidate env (world st).1 canonical (Some op)) as [w [err|]]; cbn [fst snd].
    + apply IH, log_ok_record; [by rewrite app_nil_r|done].
    + destruct (ApplyOperation env w op) as [w' [err|]]; apply IH, log_ok_record; try done.
      by rewrite app_nil_r.
  - by apply IH.
Qed.

Lemma exec_loop_logged canonical deps fuel : forall pending st, log_ok st ->
  log_ok (exec_loop logged canonical deps fuel pending st).1.
Proof.
  induction fuel as [|fuel IH]; intros [|op pending] st Hl; cbn [exec_loop]; try done.
  pose proof (exec_pass_logged canonical deps (op :: pending) st [] false Hl) as Hp.
  destruct (exec_pass _ _ _ _ _ _ _) as [[[st' next'] p']|[st' e]]; [|done].
  destruct p'; cbn [negb]; [by apply IH|done].
Qed.

(** In a run, an operation succeeds only after all its requirements did. *)
Lemma run_ok_order deps m l : run_ok deps m l ->
  (forall d, m !! d = Some ApplySucceeded -> d ∈ succeeded_ids l) /\
  forall l1 x l2, succeeded_ids l = l1 ++ x :: l2 -> forall d, d ∈ requirements deps x -> d ∈ l1.
Proof.
  assert (Hsnoc : forall l id r reason, succeeded_ids (l ++ [mkOutcome id r reason])
            = succeeded_ids l ++ (if decide (r = ApplySucceeded) then [id] else [])).
  { intros. unfold succeeded_ids. rewrite filter_app, fmap_app, filter_cons, filter_nil. cbn [Result]. by case_decide. }
  induction 1 as [|m l id0 d0 Hrun [IH1 IH2] Hn Hd0 Hf|m l id0 r0 reason Hrun [IH1 IH2] Hn Hnb Hall].
  - split; [intros d; by rewrite lookup_empty|]. intros l1 x l2 E. by destruct l1.
  - rewrite Hsnoc, app_nil_r. split; [|done]. intros d. rewrite lookup_insert. case_decide; [done|auto].
  - rewrite Hsnoc. case_decide as E.
    + split.
      * intros d. rewrite lookup_insert. case_decide; [subst; intros _; apply elem_of_snoc|].
        intros Hd. apply elem_of_app. left. auto.
      * intros l1 x l2 Es d Hd. destruct (decide (l2 = [])) as [->|Hne].
        -- apply app_inj_tail in Es as [<- <-]. auto.
        -- destruct (exists_last Hne) as (l2' & y & ->). rewrite app_comm_cons, app_assoc in Es.
           apply app_inj_tail in Es as [Es _]. eauto.
    + rewrite app_nil_r. split; [|done]. intros d. rewrite lookup_insert. case_decide; [congruence|auto].
Qed.

Lemma succeeded_ids_NoDup l : NoDup (OO_OperationID <$> l) -> NoDup (succeeded_ids l).
Proof.
  unfold succeeded_ids. induction l as [|o l IH]; intros Hnd; [constructor|].
  rewrite fmap_cons, NoDup_cons in Hnd. destruct Hnd as [Ho Hnd]. rewrite filter_cons. case_decide; [|auto].
  rewrite fmap_cons. constructor; [|auto]. intros Hin. apply Ho.
  apply list_elem_of_fmap in Hin as (o' & Heq & Hin). apply list_elem_of_filter in Hin as [_ Hin].
  rewrite Heq. by apply list_elem_of_fmap_2.
Qed.

Lemma empty_log document : NoDup (A := string) [] /\ [] ≡ₚ succeeded_ids [] /\
  forall l1 (x : string) l2 e, [] = l1 ++ x :: l2 -> e ∈ Prerequisites (canonicalCopy document) -> OperationID e = x -> RequiresOperationID e ∈ l1.
Proof. split_and!; [constructor|done|]. by intros [] x l2 e E. Qed.
End logged.

(** C34. Provider requests respect the prerequisite edges, in every execution: one
    that finishes, one that is cancelled on the way, and one that ends before the first
    request.  In the order in which the provider accepted them, every operation comes
    after all the operations it requires, none is accepted twice, and the accepted ones
    are exactly those with a succeeded outcome. *)
Theorem Execute_respects_prerequisites {W} `{MapRange} (env : ExecEnv W) w document outs err w' log :
  Execute (Some (logged env)) (w, []) document = (outs, err, (w', log)) ->
  NoDup log /\ log ≡ₚ succeeded_ids outs /\
  forall l1 x l2 e, log = l1 ++ x :: l2 -> e ∈ Prerequisites (canonicalCopy document) ->
    OperationID e = x -> RequiresOperationID e ∈ l1.
Proof.
  unfold Execute. destruct (Validate (canonicalCopy document)) as [[]|] eqn:Hv; [|intros [= <- _ _ <-]; by apply empty_log].
  cbn [Revalidate logged fst snd]. destruct (Revalidate env w _ None) as [w1 [e1|]]; [intros [= <- _ _ <-]; by apply empty_log|].
  pose proof (Execute_loop (logged env) (w1, []) _ Hv) as Hl.
  pose proof (exec_loop_logged env (canonicalCopy document) (edge_dependencies (Prerequisites (canonicalCopy document)))
    (S (length (sort_by_key SO_ID (Operations (canonicalCopy document)))))
    (sort_by_key SO_ID (Operations (canonicalCopy document))) (mkExecState (w1, []) ∅ []) eq_refl) as Hlog.
  destruct (exec_loop _ _ _ _ _ _) as [st x]. unfold log_ok in Hlog. cbn [fst] in Hlog. intros E.
  assert (Hrun : run_ok (edge_dependencies (Prerequisites (canonicalCopy document))) (results st) (outcomes st)).
  { destruct x as [[]|]; try done. apply Hl. }
  assert (Hw : world st = (w', log) /\ outs ≡ₚ outcomes st).
  { destruct x; injection E as <- _ ->; [done|]. split; [done|apply sort_by_key_perm]. }
  destruct Hw as [Hw Houts]. rewrite Hw in Hlog. cbn [snd] in Hlog. subst log. split_and!.
  - by eapply succeeded_ids_NoDup, run_ok_results.
  - unfold succeeded_ids. by rewrite Houts.
  - intros l1 x' l2 e Ex He Hx. eapply (proj2 (run_ok_order _ _ _ Hrun)); [exact Ex|].
    apply edge_dependencies_requires. eauto.
Qed.
