(* ===== verification/DocumentCanonical.v ===== *)
(** * The canonical form does not depend on the order of the input

    Two documents with the same content in another order have the same
    canonical copy, so the same canonical bytes and the same identifier. *)
From Stdlib Require Import String Ascii ZArith Lia.
From S2P Require Import Prelude GoStrings NetIP GoEncoding Endpoint Plan Document DocumentGraph Executor.
Open Scope string_scope.
Open Scope list_scope.
Open Scope go_scope.

(** The same content, with every collection in any order. *)
Record doc_perm (d1 d2 : Document) : Prop := {
  dp_api : Doc_APIVersion d1 = Doc_APIVersion d2;
  dp_kind : Doc_Kind d1 = Doc_Kind d2;
  dp_target : Target d1 = Target d2;
  dp_provider : Provider (Doc_Preconditions d1) = Provider (Doc_Preconditions d2);
  dp_discovery : DP_Generation (Discovery (Doc_Preconditions d1)) = DP_Generation (Discovery (Doc_Preconditions d2)) /\
                 DP_Complete (Discovery (Doc_Preconditions d1)) = DP_Complete (Discovery (Doc_Preconditions d2));
  dp_policy : PO_Generation (Policy (Doc_Preconditions d1)) = PO_Generation (Policy (Doc_Preconditions d2)) /\
              PO_Complete (Policy (Doc_Preconditions d1)) = PO_Complete (Policy (Doc_Preconditions d2));
  dp_sources : DP_Sources (Discovery (Doc_Preconditions d1)) ≡ₚ DP_Sources (Discovery (Doc_Preconditions d2));
  dp_resources : PO_Resources (Policy (Doc_Preconditions d1)) ≡ₚ PO_Resources (Policy (Doc_Preconditions d2));
  dp_ownership : Ownership (Doc_Preconditions d1) ≡ₚ Ownership (Doc_Preconditions d2);
  dp_operations : Operations d1 ≡ₚ Operations d2;
  dp_prerequisites : Prerequisites d1 ≡ₚ Prerequisites d2;
  dp_decisions : SafetyDecisions d1 ≡ₚ SafetyDecisions d2
}.

Definition key_injective {A} (key : A -> string) (l : list A) : Prop :=
  forall x y, x ∈ l -> y ∈ l -> key x = key y -> x = y.

(** The sort keys tell the canonical elements apart: operations have distinct
    identifiers and no field contains the separator of its key. *)
Record keys_distinguish (d : Document) : Prop := {
  kd_sources : key_injective discoverySourceSortKey (canonicalSource <$> DP_Sources (Discovery (Doc_Preconditions d)));
  kd_resources : key_injective policyResourceSortKey (canonicalResource <$> PO_Resources (Policy (Doc_Preconditions d)));
  kd_ownership : key_injective ownershipSortKey (canonicalOwnership <$> Ownership (Doc_Preconditions d));
  kd_operations : key_injective operationSortKey (canonicalOperation <$> Operations d);
  kd_prerequisites : key_injective prerequisiteSortKey (trim_edge <$> Prerequisites d);
  kd_decisions : key_injective safetyDecisionSortKey (canonicalDecision <$> SafetyDecisions d)
}.

Lemma canonicalCopy_perm d1 d2 : doc_perm d1 d2 -> keys_distinguish d1 -> canonicalCopy d1 = canonicalCopy d2.
Proof.
  intros [Hapi Hkind Ht Hpr [Hd1 Hd2] [Hp1 Hp2] Hsrc Hres Hown Hops Hpre Hdec] [K1 K2 K3 K4 K5 K6].
  unfold canonicalCopy, canonicalPreconditions, deduplicatePrerequisites.
  rewrite Hapi, Hkind, Ht, Hpr, Hd1, Hd2, Hp1, Hp2.
  assert (Hs : forall A B (f : A -> B) key l1 l2, key_injective key (f <$> l1) -> l1 ≡ₚ l2 ->
             sort_by_key key (f <$> l1) = sort_by_key key (f <$> l2)).
  { intros A B f key l1 l2 Hk Hp. apply sort_by_key_inj_eq; [done|]. by rewrite Hp. }
  by rewrite (Hs _ _ _ _ _ _ K1 Hsrc), (Hs _ _ _ _ _ _ K2 Hres), (Hs _ _ _ _ _ _ K3 Hown), (Hs _ _ _ _ _ _ K4 Hops),
    (Hs _ _ _ _ _ _ K5 Hpre), (Hs _ _ _ _ _ _ K6 Hdec).
Qed.

(** The identifier that is approved does not depend on the order in which
    operations, edges, decisions and preconditions were collected. *)
Theorem ID_order_independent `{MapRange} d1 d2 : doc_perm d1 d2 -> keys_distinguish d1 -> ID d1 = ID d2.
Proof. intros Hp Hk. unfold ID, CanonicalJSON. by rewrite (canonicalCopy_perm d1 d2). Qed.

(** ** Sorting without repetitions *)

Lemma StronglySorted_snoc_inv {A} (R : A -> A -> Prop) l x y : StronglySorted R (l ++ [y]) -> x ∈ l -> R x y.
Proof.
  induction l as [|a l IH]; intros Hs Hx; [by apply not_elem_of_nil in Hx|].
  apply StronglySorted_inv in Hs as [Hs Ha]. apply elem_of_cons in Hx as [->|Hx]; [|auto].
  rewrite Forall_forall in Ha. apply Ha, elem_of_snoc.
Qed.

Lemma drop_repeats_sorted {A} `{EqDecision A} (lt : A -> A -> Prop) (l : list A) :
  (forall x, ~ lt x x) -> (forall x y z, lt x y -> lt y z -> lt x z) ->
  StronglySorted (fun x y => x = y \/ lt x y) l ->
  (forall x, x ∈ drop_repeats l <-> x ∈ l) /\ StronglySorted lt (drop_repeats l).
Proof.
  intros Hirr Htr. unfold drop_repeats.
  assert (Hsnoc : forall out v, StronglySorted lt out -> (forall x, x ∈ out -> lt x v) -> StronglySorted lt (out ++ [v])).
  { induction out as [|a out IH]; intros v Hs Hv; [repeat constructor|]. apply StronglySorted_inv in Hs as [Hs Ha].
    simpl. constructor; [apply IH; [done|]; intros; apply Hv; by right|].
    apply Forall_app. split; [done|]. constructor; [apply Hv; left|done]. }
  assert (G : forall out, StronglySorted (fun x y => x = y \/ lt x y) l -> StronglySorted lt out ->
    (forall x y, x ∈ out -> y ∈ l -> x = y \/ lt x y) ->
    let r := foldl (fun out v => if decide (last out = Some v) then out else out ++ [v]) out l in
    (forall x, x ∈ r <-> x ∈ out \/ x ∈ l) /\ StronglySorted lt r).
  { induction l as [|v l IH]; intros out Hl Ho Hc; simpl.
    { split; [|done]. intros x. split; [by left|]. by intros [?|?%not_elem_of_nil]. }
    apply StronglySorted_inv in Hl as [Hl Hv]. rewrite Forall_forall in Hv. case_decide as E.
    - destruct (IH out Hl Ho) as [H1 H2]; [intros; apply Hc; [done|by right]|]. split; [|done].
      intros x. rewrite H1, elem_of_cons. apply last_Some_elem_of in E. naive_solver.
    - destruct (IH (out ++ [v]) Hl) as [H1 H2].
      + apply Hsnoc; [done|]. intros x Hx. destruct (Hc x v Hx ltac:(left)) as [->|?]; [|done].
        exfalso. apply E. destruct (exists_last (l := out)) as (o' & y & ->); [by intros ->; apply not_elem_of_nil in Hx|].
        rewrite last_snoc. apply elem_of_app in Hx as [Hx|Hx]; [|by apply list_elem_of_singleton in Hx as ->].
        destruct (Hc y v ltac:(apply elem_of_snoc) ltac:(left)) as [->|Hlt]; [done|].
        exfalso. apply (Hirr v). eapply Htr; [|exact Hlt]. by eapply StronglySorted_snoc_inv.
      + intros x y Hx Hy. apply elem_of_app in Hx as [Hx| ->%list_elem_of_singleton]; [apply Hc; [done|by right]|auto].
      + split; [|done]. intros x. rewrite H1, elem_of_app, list_elem_of_singleton, elem_of_cons. tauto. }
  intros Hs. destruct (G []) as [H1 H2]; [done|constructor|by intros ? ? ?%not_elem_of_nil|]. split; [|done].
  intros x. rewrite H1. split; [|by right]. by intros [?%not_elem_of_nil|?].
Qed.

(** [sortedUniqueStrings] returns the trimmed values in strictly increasing
    order, each once. *)
Theorem sortedUniqueStrings_spec values :
  (forall v, v ∈ sortedUniqueStrings values <-> exists u, u ∈ values /\ v = TrimSpace u) /\
  StronglySorted (fun a b => (a <s b) = true) (sortedUniqueStrings values).
Proof.
  destruct (drop_repeats_sorted (fun a b => (a <s b) = true) (sort_strings (TrimSpace <$> values))) as [H1 H2].
  - intros x. by rewrite str_ltb_irrefl.
  - eauto with fgdns.
  - pose proof (sort_by_key_sorted (fun s => s) (TrimSpace <$> values)) as Hs.
    unfold sort_strings. induction Hs as [|a l Hs IH Ha]; constructor; [done|].
    eapply Forall_impl; [exact Ha|]. intros b Hb.
    destruct (a <s b) eqn:E; [by right|left]. by apply str_ltb_total.
  - split; [|done]. intros v. unfold sortedUniqueStrings. rewrite H1. unfold sort_strings.
    rewrite sort_by_key_perm, list_elem_of_fmap. naive_solver.
Qed.
