(* ===== verification/Queue.v ===== *)
(** * internal/workqueue: the target queue

    [TargetQueue] wraps the typed rate-limiting queue of client-go, which is
    the interface [ClientQueue]; the laws the wrapper relies on are
    [ClientQueueLaws].  Every section that holds the mutex is one definition,
    so that the interleavings of workers, timers and event handlers are the
    sequences of these steps ([qstep]).  Times and durations are nanoseconds. *)
From Stdlib Require Import String Ascii ZArith Lia QArith.
From S2P Require Import Prelude GoStrings.
Open Scope string_scope.
Open Scope list_scope.
Open Scope Z_scope.

(** ** types.go *)

Record TargetKey := mkTargetKey { TK_Namespace : string; TK_Name : string }.

#[export] Instance TargetKey_eq_dec : EqDecision TargetKey.
Proof. solve_decision. Defined.

#[export] Instance TargetKey_countable : Countable TargetKey.
Proof.
  apply (inj_countable' (fun k => (TK_Namespace k, TK_Name k)) (fun p => mkTargetKey p.1 p.2)).
  by intros [].
Defined.

Definition TargetKey_String (k : TargetKey) : string := TK_Namespace k +:+ "/" +:+ TK_Name k.

(** The two validators of k8s.io/apimachinery; they return the list of problems. *)
Class KeyValidation := {
  IsDNS1123Label : string -> list string;
  IsDNS1123Subdomain : string -> list string
}.

Section keys.
Context `{KeyValidation}.

Definition NewTargetKey (namespace name : string) : result string TargetKey :=
  let key := mkTargetKey (TrimSpace namespace) (TrimSpace name) in
  match IsDNS1123Label (TK_Namespace key) with
  | _ :: _ => Err ("invalid target namespace: " +:+ Join (IsDNS1123Label (TK_Namespace key)) "; ")
  | [] =>
      match IsDNS1123Subdomain (TK_Name key) with
      | _ :: _ => Err ("invalid target name: " +:+ Join (IsDNS1123Subdomain (TK_Name key)) "; ")
      | [] => Ok key
      end
  end.

Definition valid (k : TargetKey) : bool := is_ok (NewTargetKey (TK_Namespace k) (TK_Name k)).
End keys.

(** ** The client-go queue *)

Inductive GetResult := GetShutdown | GetItem (k : TargetKey).

Class ClientQueue (Q : Type) := {
  cq_Add : TargetKey -> Q -> Q;
  cq_Get : Q -> option (Q * GetResult);       (* [None]: the call blocks *)
  cq_Done : TargetKey -> Q -> Q;
  cq_Forget : TargetKey -> Q -> Q;
  cq_NumRequeues : TargetKey -> Q -> Z;
  cq_Len : Q -> Z;
  cq_ShutDown : Q -> Q;
  cq_ShuttingDown : Q -> bool;
  cq_When : TargetKey -> Q -> Q * Z           (* the exponential limiter, which counts a failure *)
}.

(** The documented behaviour of the queue: [dirty] keys need processing, a key
    is handed out to one worker at a time, and a key that is added while it is
    processed stays dirty. *)
Class ClientQueueLaws (Q : Type) `{ClientQueue Q} := {
  dirty : Q -> gset TargetKey;
  processing : Q -> gset TargetKey;
  Add_dirty k q : cq_ShuttingDown q = false -> dirty (cq_Add k q) = {[k]} ∪ dirty q;
  Add_shutting k q : cq_ShuttingDown (cq_Add k q) = cq_ShuttingDown q;
  Get_item q q' k : cq_Get q = Some (q', GetItem k) ->
    k ∈ dirty q /\ (k ∉ processing q) /\ dirty q' = dirty q ∖ {[k]} /\ processing q' = {[k]} ∪ processing q /\
    cq_ShuttingDown q' = cq_ShuttingDown q;
  Get_shutdown q q' : cq_Get q = Some (q', GetShutdown) -> cq_ShuttingDown q = true;
  Done_dirty k q : dirty (cq_Done k q) = dirty q;
  Done_shutting k q : cq_ShuttingDown (cq_Done k q) = cq_ShuttingDown q;
  Forget_dirty k q : dirty (cq_Forget k q) = dirty q;
  Forget_shutting k q : cq_ShuttingDown (cq_Forget k q) = cq_ShuttingDown q;
  When_dirty k q : dirty (cq_When k q).1 = dirty q;
  When_shutting k q : cq_ShuttingDown (cq_When k q).1 = cq_ShuttingDown q
}.

(** ** Configuration *)

Definition Millisecond : Z := 1000000.
Definition Second : Z := 1000 * Millisecond.
Definition Minute : Z := 60 * Second.
Definition DefaultDebounce : Z := 500 * Millisecond.
Definition DefaultRetryBase : Z := Second.
Definition DefaultRetryMax : Z := Minute.
Definition DefaultMaxRetries : Z := 8.
Definition DefaultJitter : Q := 1 # 5.

Record Config := mkConfig {
  cfg_Debounce : Z;
  cfg_DebounceFor : option (TargetKey -> Z);
  cfg_DisableDebounce : bool;
  cfg_RetryBase : Z;
  cfg_RetryMax : Z;
  cfg_MaxRetries : Z;
  cfg_Jitter : Q
}.

Definition Qltb (a b : Q) : bool := negb (Qle_bool b a).

(** The checks and defaults of [New]. *)
Definition New_config (c : Config) : result string Config :=
  if cfg_Debounce c <? 0 then Err "debounce cannot be negative"
  else if cfg_DisableDebounce c && negb (cfg_Debounce c =? 0) then
    Err "disable debounce conflicts with a nonzero debounce"
  else
    let debounce := if (cfg_Debounce c =? 0) && negb (cfg_DisableDebounce c) then DefaultDebounce else cfg_Debounce c in
    let debounceFor := if cfg_DisableDebounce c then None else cfg_DebounceFor c in
    let retryBase := if cfg_RetryBase c =? 0 then DefaultRetryBase else cfg_RetryBase c in
    let retryMax := if cfg_RetryMax c =? 0 then DefaultRetryMax else cfg_RetryMax c in
    let maxRetries := if cfg_MaxRetries c =? 0 then DefaultMaxRetries else cfg_MaxRetries c in
    let jitter := if Qeq_bool (cfg_Jitter c) 0 then DefaultJitter else cfg_Jitter c in
    if (retryBase <? 0) || (retryMax <? retryBase) then
      Err "retry delays must be positive and max must be at least base"
    else if maxRetries <? 0 then Err "max retries cannot be negative"
    else if Qltb jitter 0 || Qltb 1 jitter then Err "jitter must be between zero and one"
    else Ok (mkConfig debounce debounceFor (cfg_DisableDebounce c) retryBase retryMax maxRetries jitter).

(** [jitteredRateLimiter.When]: [scale] is the floating-point product
    [float64(delay) * factor] of the code, converted to a duration. *)
Definition jittered_When (jitterZero : bool) (maxDelay : Z) (scale : Z -> Z) (delay : Z) : Z :=
  if jitterZero || (delay =? 0) then delay
  else
    let jittered := scale delay in
    if jittered <? 0 then 0 else if maxDelay <? jittered then maxDelay else jittered.

(** ** The queue *)

Record pendingDebounce := mkPending { generation : Z; deadline : Z }.

Inductive Completion := CompletionSucceeded | CompletionRetried | CompletionExhausted | CompletionForgotten.

#[export] Instance Completion_eq_dec : EqDecision Completion.
Proof. solve_decision. Defined.

Record TargetQueue (Q : Type) := mkQueue {
  queue : Q;
  debounce : Z;
  debounceFor : option (TargetKey -> Z);
  maxRetries : Z;
  maxBackoff : Z;
  now : Z;                                  (* the clock *)
  deleted : gset TargetKey;
  pending : gmap TargetKey pendingDebounce;
  retrying : gmap TargetKey pendingDebounce;
  held : gmap TargetKey Z;
  periodic : gset TargetKey;
  nextTimer : Z;
  stopped : bool                            (* [stopCh] is closed *)
}.
Arguments mkQueue {Q}.
Arguments queue {Q}. Arguments debounce {Q}. Arguments debounceFor {Q}. Arguments maxRetries {Q}.
Arguments maxBackoff {Q}. Arguments now {Q}. Arguments deleted {Q}. Arguments pending {Q}. Arguments retrying {Q}.
Arguments held {Q}. Arguments periodic {Q}. Arguments nextTimer {Q}. Arguments stopped {Q}.

Section queue.
Context {Q : Type} `{ClientQueue Q} `{KeyValidation}.

Definition New (c : Config) (q : Q) (t : Z) : result string (TargetQueue Q) :=
  match New_config c with
  | Err e => Err e
  | Ok c => Ok (mkQueue q (cfg_Debounce c) (cfg_DebounceFor c) (cfg_MaxRetries c) (cfg_RetryMax c) t
                  ∅ ∅ ∅ ∅ ∅ 0 false)
  end.

(** Record updates. *)
Definition with_queue (f : Q -> Q) (s : TargetQueue Q) : TargetQueue Q :=
  mkQueue (f (queue s)) (debounce s) (debounceFor s) (maxRetries s) (maxBackoff s) (now s) (deleted s) (pending s)
    (retrying s) (held s) (periodic s) (nextTimer s) (stopped s).
Definition with_deleted (f : gset TargetKey -> gset TargetKey) (s : TargetQueue Q) : TargetQueue Q :=
  mkQueue (queue s) (debounce s) (debounceFor s) (maxRetries s) (maxBackoff s) (now s) (f (deleted s)) (pending s)
    (retrying s) (held s) (periodic s) (nextTimer s) (stopped s).
Definition with_pending (f : gmap TargetKey pendingDebounce -> gmap TargetKey pendingDebounce)
    (s : TargetQueue Q) : TargetQueue Q :=
  mkQueue (queue s) (debounce s) (debounceFor s) (maxRetries s) (maxBackoff s) (now s) (deleted s) (f (pending s))
    (retrying s) (held s) (periodic s) (nextTimer s) (stopped s).
Definition with_retrying (f : gmap TargetKey pendingDebounce -> gmap TargetKey pendingDebounce)
    (s : TargetQueue Q) : TargetQueue Q :=
  mkQueue (queue s) (debounce s) (debounceFor s) (maxRetries s) (maxBackoff s) (now s) (deleted s) (pending s)
    (f (retrying s)) (held s) (periodic s) (nextTimer s) (stopped s).
Definition with_held (f : gmap TargetKey Z -> gmap TargetKey Z) (s : TargetQueue Q) : TargetQueue Q :=
  mkQueue (queue s) (debounce s) (debounceFor s) (maxRetries s) (maxBackoff s) (now s) (deleted s) (pending s)
    (retrying s) (f (held s)) (periodic s) (nextTimer s) (stopped s).
Definition with_periodic (f : gset TargetKey -> gset TargetKey) (s : TargetQueue Q) : TargetQueue Q :=
  mkQueue (queue s) (debounce s) (debounceFor s) (maxRetries s) (maxBackoff s) (now s) (deleted s) (pending s)
    (retrying s) (held s) (f (periodic s)) (nextTimer s) (stopped s).
Definition with_timer (s : TargetQueue Q) : TargetQueue Q :=
  mkQueue (queue s) (debounce s) (debounceFor s) (maxRetries s) (maxBackoff s) (now s) (deleted s) (pending s)
    (retrying s) (held s) (periodic s) ((nextTimer s + 1) mod 2 ^ 64) (stopped s).
Definition with_now (t : Z) (s : TargetQueue Q) : TargetQueue Q :=
  mkQueue (queue s) (debounce s) (debounceFor s) (maxRetries s) (maxBackoff s) t (deleted s) (pending s)
    (retrying s) (held s) (periodic s) (nextTimer s) (stopped s).

Definition stopRetryLocked (key : TargetKey) (s : TargetQueue Q) : TargetQueue Q := with_retrying (delete key) s.

Definition scheduleRetryLocked (key : TargetKey) (delay : Z) (s : TargetQueue Q) : TargetQueue Q * bool :=
  if bool_decide (key ∈ deleted s) || cq_ShuttingDown (queue s) then (s, false)
  else
    let takeover s :=
      let s := stopRetryLocked key s in
      if delay <=? 0 then (with_queue (cq_Add key) s, true)
      else
        let s := with_timer s in
        (with_retrying <[key := mkPending (nextTimer s) (now s + delay)]> s, true) in
    match pending s !! key with
    | Some p =>
        if negb (deadline p <? now s + delay) then (s, true) else takeover (with_pending (delete key) s)
    | None => takeover s
    end.

(** *** [Enqueue]: the section under the read lock, then the one under the lock *)

(** [Some b]: the call returns [b] without taking the write lock. *)
Definition enqueue_debounce (key : TargetKey) (s : TargetQueue Q) : Z :=
  match debounceFor s with
  | Some f => if 0 <? f key then f key else debounce s
  | None => debounce s
  end.

Definition enqueue_read (key : TargetKey) (s : TargetQueue Q) : TargetQueue Q * option bool :=
  if negb (valid key) || cq_ShuttingDown (queue s) then (s, Some false)
  else if bool_decide (key ∈ deleted s) then (s, Some false)
  else match pending s !! key with
       | Some _ => (s, Some true)
       | None =>
           if (enqueue_debounce key s =? 0) && negb (bool_decide (is_Some (retrying s !! key)))
              && negb (bool_decide (is_Some (held s !! key)))
           then (with_queue (cq_Add key) s, Some true)
           else (s, None)
       end.

Definition enqueue_locked (key : TargetKey) (debounce : Z) (s : TargetQueue Q) : TargetQueue Q * bool :=
  if bool_decide (key ∈ deleted s) then (s, false)
  else match pending s !! key with
       | Some _ => (s, true)
       | None =>
           let keep := match retrying s !! key with
                       | Some retry => debounce <=? deadline retry - now s
                       | None => false
                       end in
           if keep then (s, true)
           else
             let s := stopRetryLocked key s in
             let '(s, delay) :=
               match held s !! key with
               | Some until =>
                   if debounce <? until - now s then (s, until - now s)
                   else if until - now s <=? 0 then (with_held (delete key) s, debounce)
                   else (s, debounce)
               | None => (s, debounce)
               end in
             if delay <=? 0 then (with_queue (cq_Add key) s, true)
             else
               let s := with_timer s in
               (with_pending <[key := mkPending (nextTimer s) (now s + delay)]> s, true)
       end.

Definition Enqueue (key : TargetKey) (s : TargetQueue Q) : TargetQueue Q * bool :=
  let d := enqueue_debounce key s in
  match enqueue_read key s with
  | (s, Some b) => (s, b)
  | (s, None) => enqueue_locked key d s
  end.

(** *** [EnqueuePeriodic] *)

Definition periodic_locked (key : TargetKey) (s : TargetQueue Q) : TargetQueue Q * bool :=
  if bool_decide (key ∈ deleted s) then (s, false)
  else
    let s := with_pending (delete key) s in
    let s := stopRetryLocked key s in
    let s := with_periodic (union {[key]}) s in
    (with_queue (cq_Add key) s, true).

Definition EnqueuePeriodic (key : TargetKey) (s : TargetQueue Q) : TargetQueue Q * bool :=
  if negb (valid key) || cq_ShuttingDown (queue s) then (s, false)
  else if bool_decide (key ∈ deleted s) then (s, false)
  else periodic_locked key s.

Definition ActivateTarget (key : TargetKey) (s : TargetQueue Q) : TargetQueue Q :=
  with_deleted (fun d => d ∖ {[key]}) s.

Definition forget_locked (key : TargetKey) (s : TargetQueue Q) : TargetQueue Q :=
  stopRetryLocked key
    (with_pending (delete key)
      (with_periodic (fun p => p ∖ {[key]})
        (with_held (delete key) (with_deleted (union {[key]}) s)))).

Definition ForgetTarget (key : TargetKey) (s : TargetQueue Q) : TargetQueue Q :=
  with_queue (cq_Forget key) (forget_locked key s).

(** *** One iteration of the loop of [Get] *)

Inductive GetOutcome := Deliver (k : TargetKey) | Closed | Again.

Definition get_step (s : TargetQueue Q) : option (TargetQueue Q * GetOutcome) :=
  match cq_Get (queue s) with
  | None => None
  | Some (q, GetShutdown) => Some (with_queue (fun _ => q) s, Closed)
  | Some (q, GetItem key) =>
      let s := with_queue (fun _ => q) s in
      if bool_decide (key ∈ deleted s) then
        Some (with_queue (fun q => cq_Done key (cq_Forget key q)) s, Again)
      else
        let isPeriodic := bool_decide (key ∈ periodic s) in
        let s := with_periodic (fun p => p ∖ {[key]}) s in
        let s := if isPeriodic then stopRetryLocked key s else s in
        (* a missing entry is the zero time, long past *)
        let delay := match held s !! key with Some until => until - now s | None => 0 end in
        if negb isPeriodic && (0 <? delay) then
          Some (with_queue (cq_Done key) (scheduleRetryLocked key delay s).1, Again)
        else Some (s, Deliver key)
  end.

(** [Get] repeats until a key is delivered, the queue is closed or it blocks. *)
Fixpoint Get (fuel : nat) (s : TargetQueue Q) : option (TargetQueue Q * GetOutcome) :=
  match fuel with
  | O => Some (s, Again)
  | S fuel =>
      match get_step s with
      | Some (s, Again) => Get fuel s
      | r => r
      end
  end.

(** *** [Complete] *)

(** [when] is the limiter of the queue: the jittered delay of the next retry. *)
Context (when : TargetKey -> Q -> Q * Z).

Definition Complete (key : TargetKey) (reconcileErr : bool) (s : TargetQueue Q) : TargetQueue Q * Completion :=
  let forget s := with_queue (fun q => cq_Done key (cq_Forget key q)) s in
  if bool_decide (key ∈ deleted s) then (forget s, CompletionForgotten)
  else if negb reconcileErr then (forget (with_held (delete key) s), CompletionSucceeded)
  else if maxRetries s <=? cq_NumRequeues key (queue s) then
    let s := with_held <[key := now s + maxBackoff s]> s in
    let s := match pending s !! key with
             | Some _ => (scheduleRetryLocked key (maxBackoff s) s).1
             | None => s
             end in
    (with_queue (cq_Done key) s, CompletionExhausted)
  else
    let '(q, delay) := when key (queue s) in
    let s := with_queue (fun _ => q) s in
    let s := with_held <[key := now s + delay]> s in
    match scheduleRetryLocked key delay s with
    | (s, false) => (forget s, CompletionForgotten)
    | (s, true) => (with_queue (cq_Done key) s, CompletionRetried)
    end.

(** *** Timers and shutdown *)

Definition waitForDebounce (key : TargetKey) (gen : Z) (s : TargetQueue Q) : TargetQueue Q :=
  match pending s !! key with
  | Some p =>
      if negb (generation p =? gen) then s
      else
        let s := with_pending (delete key) s in
        if negb (bool_decide (key ∈ deleted s)) && negb (cq_ShuttingDown (queue s))
        then with_queue (cq_Add key) s else s
  | None => s
  end.

Definition waitForRetry (key : TargetKey) (gen : Z) (s : TargetQueue Q) : TargetQueue Q :=
  match retrying s !! key with
  | Some p =>
      if negb (generation p =? gen) then s
      else
        let s := with_retrying (delete key) s in
        if negb (bool_decide (key ∈ deleted s)) && negb (cq_ShuttingDown (queue s))
        then with_queue (cq_Add key) s else s
  | None => s
  end.

Definition ShutDown (s : TargetQueue Q) : TargetQueue Q :=
  if stopped s then s
  else
    let s := with_retrying (fun _ => ∅) (with_pending (fun _ => ∅) s) in
    mkQueue (cq_ShutDown (queue s)) (debounce s) (debounceFor s) (maxRetries s) (maxBackoff s) (now s) (deleted s)
      (pending s) (retrying s) (held s) (periodic s) (nextTimer s) true.

Definition IsTargetForgotten (key : TargetKey) (s : TargetQueue Q) : bool := bool_decide (key ∈ deleted s).
Definition NumRequeues (key : TargetKey) (s : TargetQueue Q) : Z := cq_NumRequeues key (queue s).
Definition Len (s : TargetQueue Q) : Z := cq_Len (queue s).

(** ** Interleavings *)

Inductive QLabel :=
| LEnqueueRead (k : TargetKey) | LEnqueueWrite (k : TargetKey) (debounce : Z)
| LPeriodic (k : TargetKey) | LActivate (k : TargetKey) | LForget (k : TargetKey) | LForgetQueue (k : TargetKey)
| LGet (o : GetOutcome) | LComplete (k : TargetKey) (err : bool)
| LDebounceTimer (k : TargetKey) (gen : Z) | LRetryTimer (k : TargetKey) (gen : Z)
| LShutDown | LTick.

Inductive qstep : TargetQueue Q -> QLabel -> TargetQueue Q -> Prop :=
| st_enqueue_read s k : qstep s (LEnqueueRead k) (enqueue_read k s).1
| st_enqueue_write s k d : 0 <= d -> qstep s (LEnqueueWrite k d) (enqueue_locked k d s).1
| st_periodic s k : qstep s (LPeriodic k) (periodic_locked k s).1
| st_activate s k : qstep s (LActivate k) (ActivateTarget k s)
| st_forget s k : qstep s (LForget k) (forget_locked k s)
| st_forget_queue s k : qstep s (LForgetQueue k) (with_queue (cq_Forget k) s)
| st_get s s' o : get_step s = Some (s', o) -> qstep s (LGet o) s'
| st_complete s k err : qstep s (LComplete k err) (Complete k err s).1
| st_debounce_timer s k g : qstep s (LDebounceTimer k g) (waitForDebounce k g s)
| st_retry_timer s k g : qstep s (LRetryTimer k g) (waitForRetry k g s)
| st_shutdown s : qstep s LShutDown (ShutDown s)
| st_tick s t : now s <= t -> qstep s LTick (with_now t s).

Inductive qrun : TargetQueue Q -> list QLabel -> TargetQueue Q -> Prop :=
| run_refl s : qrun s [] s
| run_step s l s' ls s'' : qstep s l s' -> qrun s' ls s'' -> qrun s (l :: ls) s''.
End queue.
