(* ===== verification/QueueLaws.v ===== *)
(** * Properties of the target queue under every interleaving *)
From Stdlib Require Import String Ascii ZArith Lia.
From S2P Require Import Prelude GoStrings Queue.
Open Scope string_scope.
Open Scope list_scope.
Open Scope Z_scope.

Section laws.
Context {Q : Type} `{CL : ClientQueueLaws Q} `{KeyValidation}.

Implicit Types s : TargetQueue Q.

(** Work for the key is on its way: queued, or behind one of the two timers. *)
Definition scheduled (s : TargetQueue Q) (k : TargetKey) : Prop :=
  k ∈ dirty (queue s) \/ is_Some (pending s !! k) \/ is_Some (retrying s !! k).

(** At most one timer per key, and nothing is kept for a forgotten target. *)
Record queue_wf (s : TargetQueue Q) : Prop := {
  wf_timers : forall k, pending s !! k = None \/ retrying s !! k = None;
  wf_deleted : forall k, k ∈ deleted s ->
    pending s !! k = None /\ retrying s !! k = None /\ held s !! k = None /\ k ∉ periodic s
}.

(** What [scheduleRetryLocked] leaves alone and what it guarantees. *)
Lemma scheduleRetry_spec k d s : let r := scheduleRetryLocked k d s in
  deleted r.1 = deleted s /\ held r.1 = held s /\ periodic r.1 = periodic s /\ now r.1 = now s /\
  cq_ShuttingDown (queue r.1) = cq_ShuttingDown (queue s) /\
  (forall k', k' <> k -> pending r.1 !! k' = pending s !! k' /\ retrying r.1 !! k' = retrying s !! k') /\
  (forall k', k' ∈ dirty (queue s) -> k' ∈ dirty (queue r.1)) /\
  (r.2 = false -> r.1 = s /\ (k ∈ deleted s \/ cq_ShuttingDown (queue s) = true)) /\
  (r.2 = true -> (k ∉ deleted s) /\ cq_ShuttingDown (queue s) = false /\ scheduled r.1 k /\
     (pending r.1 !! k = None \/ r.1 = s)).
Proof.
  unfold scheduleRetryLocked. case_bool_decide as Ed; cbn [orb].
  { cbn [fst snd]. repeat (split; [done|]). split; [by auto|done]. }
  destruct (cq_ShuttingDown (queue s)) eqn:Es.
  { cbn [fst snd]. repeat (split; [done|]). split; [by auto|done]. }
  assert (Htake : forall s0, deleted s0 = deleted s -> held s0 = held s -> periodic s0 = periodic s -> now s0 = now s ->
    queue s0 = queue s -> pending s0 !! k = None ->
    (forall k', k' <> k -> pending s0 !! k' = pending s !! k') -> retrying s0 = retrying s ->
    let r := (let s1 := stopRetryLocked k s0 in
              if d <=? 0 then (with_queue (cq_Add k) s1, true)
              else let s2 := with_timer s1 in (with_retrying <[k := mkPending (nextTimer s2) (now s2 + d)]> s2, true)) in
    deleted r.1 = deleted s /\ held r.1 = held s /\ periodic r.1 = periodic s /\ now r.1 = now s /\
    cq_ShuttingDown (queue r.1) = false /\
    (forall k', k' <> k -> pending r.1 !! k' = pending s !! k' /\ retrying r.1 !! k' = retrying s !! k') /\
    (forall k', k' ∈ dirty (queue s) -> k' ∈ dirty (queue r.1)) /\
    (r.2 = false -> r.1 = s /\ (k ∈ deleted s \/ false = true)) /\
    (r.2 = true -> (k ∉ deleted s) /\ false = false /\ scheduled r.1 k /\ (pending r.1 !! k = None \/ r.1 = s))).
  { intros s0 H1 H2 H3 H4 H5 H6 H7 H8. cbv zeta.
    assert (Es0 : cq_ShuttingDown (queue s0) = false) by (rewrite H5; exact Es).
    rewrite <- H5. destruct (d <=? 0); cbn; unfold scheduled; cbn; rewrite ?Add_shutting, ?Add_dirty by exact Es0.
    - repeat (split; [done|]). split; [intros k' Hk'; rewrite H8; split; [by apply H7|by rewrite lookup_delete_ne]|].
      split; [set_solver|]. split; [done|]. intros _. split; [done|]. split; [done|]. split; [left; set_solver|by left].
    - repeat (split; [done|]).
      split; [intros k' Hk'; rewrite H8; split; [by apply H7|by rewrite lookup_insert_ne, lookup_delete_ne]|].
      split; [done|]. split; [done|]. intros _. split; [done|]. split; [done|].
      split; [right; right; rewrite lookup_insert_eq; eauto|by left]. }
  destruct (pending s !! k) as [p|] eqn:Ep; [destruct (negb _)|].
  - cbn [fst snd]. do 8 (split; [done|]). intros _. split; [done|]. split; [done|].
    split; [|by right]. right. left. rewrite Ep. eauto.
  - apply Htake; cbn; try done; [by rewrite lookup_delete_eq|]. intros k' Hk'. by rewrite lookup_delete_ne.
  - by apply Htake.
Qed.

Lemma scheduleRetry_wf k d s : queue_wf s -> queue_wf (scheduleRetryLocked k d s).1.
Proof.
  intros [Ht Hd].
  destruct (scheduleRetry_spec k d s) as (E1 & E2 & E3 & _ & _ & Eo & _ & Hf & Htrue). split.
  - intros k'. destruct (decide (k' = k)) as [->|Hne]; [|by rewrite !(proj1 (Eo k' Hne)), !(proj2 (Eo k' Hne))].
    destruct (scheduleRetryLocked k d s).2.
    + destruct (Htrue eq_refl) as (_ & _ & _ & [?|Heq]); [by left|]. rewrite Heq. apply Ht.
    + rewrite (proj1 (Hf eq_refl)). apply Ht.
  - intros k' Hk'. rewrite E1 in Hk'. rewrite E2, E3. destruct (decide (k' = k)) as [->|Hne].
    + destruct (scheduleRetryLocked k d s).2; [by destruct (Htrue eq_refl)|]. rewrite (proj1 (Hf eq_refl)). by apply Hd.
    + rewrite (proj1 (Eo k' Hne)), (proj2 (Eo k' Hne)). by apply Hd.
Qed.
(** *** The invariant *)

Lemma wf_with_queue f s : queue_wf s -> queue_wf (with_queue f s).
Proof. intros [? ?]. by split. Qed.

Lemma wf_with_held key t s : queue_wf s -> (key ∉ deleted s) -> queue_wf (with_held <[key := t]> s).
Proof.
  intros [Ht Hd] Hk. split; [done|]. intros k Hin. cbn in *. destruct (Hd k Hin) as (? & ? & ? & ?).
  rewrite lookup_insert_ne by (intros ->; done). done.
Qed.

Lemma wf_unhold key s : queue_wf s -> queue_wf (with_held (delete key) s).
Proof.
  intros [Ht Hd]. split; [done|]. intros k Hin. cbn in *. destruct (Hd k Hin) as (? & ? & Hh & ?).
  rewrite lookup_delete_None. auto.
Qed.

Lemma wf_stopRetry key s : queue_wf s -> queue_wf (stopRetryLocked key s).
Proof.
  intros [Ht Hd]. split; cbn.
  - intros k. rewrite lookup_delete_None. destruct (Ht k); auto.
  - intros k Hin. destruct (Hd k Hin) as (? & ? & ? & ?). rewrite lookup_delete_None. auto.
Qed.

Lemma wf_drop_pending key s : queue_wf s -> queue_wf (with_pending (delete key) s).
Proof.
  intros [Ht Hd]. split; cbn.
  - intros k. rewrite lookup_delete_None. destruct (Ht k); auto.
  - intros k Hin. destruct (Hd k Hin) as (? & ? & ? & ?). rewrite lookup_delete_None. auto.
Qed.

Lemma wf_drop_retrying key s : queue_wf s -> queue_wf (with_retrying (delete key) s).
Proof. apply wf_stopRetry. Qed.

Lemma wf_drop_periodic key s : queue_wf s -> queue_wf (with_periodic (fun p => p ∖ {[key]}) s).
Proof.
  intros [Ht Hd]. split; cbn; [done|]. intros k Hin. destruct (Hd k Hin) as (? & ? & ? & ?).
  repeat split; try done. set_solver.
Qed.

Lemma wf_enqueue_locked key d s : queue_wf s -> queue_wf (enqueue_locked key d s).1.
Proof.
  intros Hwf. unfold enqueue_locked. case_bool_decide as Ed; [done|]. destruct (pending s !! key) eqn:Ep; [done|].
  cbv zeta. destruct (match retrying s !! key with Some _ => _ | None => _ end); [done|].
  assert (Hadd : forall s0 delay, queue_wf s0 -> deleted s0 = deleted s -> retrying s0 !! key = None ->
    queue_wf (if delay <=? 0 then (with_queue (cq_Add key) s0, true)
              else let s1 := with_timer s0 in
                   (with_pending <[key := mkPending (nextTimer s1) (now s1 + delay)]> s1, true)).1).
  { intros s0 delay [Ht Hd] Hdel Hr. destruct (delay <=? 0); cbn [fst]; [by split|]. split; cbn.
    - intros k. rewrite lookup_insert. case_decide; [subst; by right|apply Ht].
    - intros k Hin. destruct (Hd k Hin) as (? & ? & ? & ?). rewrite lookup_insert_ne; [done|].
      intros ->. by rewrite Hdel in Hin. }
  assert (Hr : forall f, retrying (with_held f (stopRetryLocked key s)) !! key = None)
    by (intros; cbn; apply lookup_delete_eq).
  assert (Hr0 : retrying (stopRetryLocked key s) !! key = None) by (cbn; apply lookup_delete_eq).
  destruct (held (stopRetryLocked key s) !! key) as [until|]; [|apply Hadd; auto using wf_stopRetry].
  destruct (d <? _); [apply Hadd; auto using wf_stopRetry|].
  destruct (_ <=? 0); apply Hadd; auto using wf_stopRetry, wf_unhold.
Qed.

Lemma wf_get_step s s' o : queue_wf s -> get_step s = Some (s', o) -> queue_wf s'.
Proof.
  intros Hwf. unfold get_step. destruct (cq_Get (queue s)) as [[q [|key]]|]; [| |done].
  { intros [= <- <-]. by apply wf_with_queue. }
  case_bool_decide; [intros [= <- <-]; by repeat apply wf_with_queue|]. cbv zeta.
  match goal with |- context [if ?b then stopRetryLocked key ?x else ?x] =>
    set (s1 := if b then stopRetryLocked key x else x) end.
  assert (Hs1 : queue_wf s1).
  { unfold s1. case_bool_decide; [apply wf_stopRetry|]; by apply wf_drop_periodic, wf_with_queue. }
  destruct (negb _ && _); intros [= <- <-]; [|done]. by apply wf_with_queue, scheduleRetry_wf.
Qed.

Context (when : TargetKey -> Q -> Q * Z).

Lemma wf_Complete key err s : queue_wf s -> queue_wf (Complete when key err s).1.
Proof.
  intros Hwf. unfold Complete. cbv zeta. case_bool_decide as Ed; [by apply wf_with_queue|].
  destruct (negb err); [by apply wf_with_queue, wf_unhold|]. destruct (_ <=? _).
  - cbn [fst]. apply wf_with_queue. assert (Hh : queue_wf (with_held <[key := now s + maxBackoff s]> s))
      by by apply wf_with_held. case_match; [by apply scheduleRetry_wf|done].
  - destruct (when key (queue s)) as [q delay]. set (s1 := with_held _ _).
    assert (Hh : queue_wf s1) by (unfold s1; apply wf_with_held; [by apply wf_with_queue|done]).
    pose proof (scheduleRetry_wf key delay s1 Hh) as Hs.
    destruct (scheduleRetryLocked key delay s1) as [s2 []]; cbn [fst] in *; by apply wf_with_queue.
Qed.

(** The invariant holds in every interleaving. *)
Lemma wf_step s l s' : queue_wf s -> qstep when s l s' -> queue_wf s'.
Proof.
  intros Hwf Hstep. destruct Hstep as [s k|s k d _|s k|s k|s k|s k|s s' o Hg|s k err|s k g|s k g|s|s t].
  - unfold enqueue_read. repeat case_match; try done; by apply wf_with_queue.
  - by apply wf_enqueue_locked.
  - unfold periodic_locked. case_bool_decide as Ed; [done|]. cbn [fst]. apply wf_with_queue.
    destruct (wf_stopRetry k _ (wf_drop_pending k _ Hwf)) as [Ht Hd]. split; [done|].
    intros k' Hin. destruct (Hd k' Hin) as (? & ? & ? & ?). repeat split; try done. cbn in *. set_solver.
  - destruct Hwf as [Ht Hd]. split; [done|]. intros k' Hin. apply Hd. cbn in Hin. set_solver.
  - unfold forget_locked. destruct Hwf as [Ht Hd]. split; cbn.
    + intros k'. rewrite !lookup_delete_None. destruct (Ht k'); auto.
    + intros k' Hin. rewrite !lookup_delete_None. destruct (decide (k' = k)) as [->|Hne]; [set_solver|].
      destruct (Hd k') as (? & ? & ? & ?); [set_solver|]. repeat split; auto. set_solver.
  - by apply wf_with_queue.
  - by eapply wf_get_step.
  - by apply wf_Complete.
  - unfold waitForDebounce. repeat case_match; try done; repeat apply wf_with_queue; by apply wf_drop_pending.
  - unfold waitForRetry. repeat case_match; try done; repeat apply wf_with_queue; by apply wf_drop_retrying.
  - unfold ShutDown. destruct (stopped s); [done|]. destruct Hwf as [_ Hd]. split; cbn.
    + intros k. left. apply lookup_empty.
    + intros k Hin. destruct (Hd k Hin) as (_ & _ & ? & ?). rewrite !lookup_empty. done.
  - destruct Hwf. by split.
Qed.

(** *** No event is lost *)

(** The target is active, the queue open and work for the target on its way. *)
Definition live (s : TargetQueue Q) (k : TargetKey) : Prop :=
  (k ∉ deleted s) /\ cq_ShuttingDown (queue s) = false /\ scheduled s k.

Lemma live_Add k k' s : live s k -> live (with_queue (cq_Add k') s) k.
Proof.
  intros (Hd & Hs & Hl). split; [done|]. cbn. rewrite Add_shutting. split; [done|]. unfold scheduled in *. cbn.
  rewrite Add_dirty by done. set_solver.
Qed.

Lemma live_Add_self k s : (k ∉ deleted s) -> cq_ShuttingDown (queue s) = false -> live (with_queue (cq_Add k) s) k.
Proof.
  intros Hd Hs. split; [done|]. cbn. rewrite Add_shutting. split; [done|]. left. cbn. rewrite Add_dirty by done. set_solver.
Qed.

Lemma live_ext k s s' : deleted s' = deleted s -> cq_ShuttingDown (queue s') = cq_ShuttingDown (queue s) ->
  (k ∈ dirty (queue s) -> k ∈ dirty (queue s')) -> pending s' !! k = pending s !! k ->
  retrying s' !! k = retrying s !! k -> live s k -> live s' k.
Proof.
  intros Hd Hs Hdq Hp Hr (H1 & H2 & H3). split; [by rewrite Hd|]. split; [by rewrite Hs|].
  unfold scheduled in *. rewrite Hp, Hr. tauto.
Qed.

Lemma live_scheduleRetry k k' d s : live s k -> live (scheduleRetryLocked k' d s).1 k.
Proof.
  intros Hl. destruct (scheduleRetry_spec k' d s) as (E1 & _ & _ & _ & E5 & Eo & Ed & Hf & Ht).
  destruct (decide (k = k')) as [<-|Hne].
  - destruct (scheduleRetryLocked k d s).2.
    + destruct (Ht eq_refl) as (H1 & H2 & H3 & _). split; [by rewrite E1|]. split; [by rewrite E5|done].
    + destruct (Hf eq_refl) as [-> _]. done.
  - apply (live_ext _ s); try done; [by apply Ed|by apply Eo|by apply Eo].
Qed.

Lemma live_enqueue_locked k k' d s : live s k -> live (enqueue_locked k' d s).1 k.
Proof.
  intros Hl. unfold enqueue_locked. case_bool_decide as Ed; [done|]. destruct (pending s !! k') eqn:Ep; [done|].
  cbv zeta. destruct (match retrying s !! k' with Some _ => _ | None => _ end); [done|].
  assert (Hfin : forall s0 delay, deleted s0 = deleted s -> queue s0 = queue s -> pending s0 = pending s ->
    retrying s0 = delete k' (retrying s) ->
    live (if delay <=? 0 then (with_queue (cq_Add k') s0, true)
          else let s1 := with_timer s0 in
               (with_pending <[k' := mkPending (nextTimer s1) (now s1 + delay)]> s1, true)).1 k).
  { intros s0 delay E1 E2 E3 E4. destruct Hl as (H1 & H2 & H3).
    destruct (decide (k = k')) as [<-|Hne].
    - destruct (delay <=? 0); cbn [fst].
      + apply live_Add_self; [by rewrite E1|by rewrite E2].
      + split; cbn; [by rewrite E1|]. split; [by rewrite E2|]. right. left. cbn. rewrite lookup_insert_eq. eauto.
    - assert (Hl0 : live s0 k).
      { apply (live_ext _ s); try done; [by rewrite E2|by rewrite E2|by rewrite E3|].
        rewrite E4. by rewrite lookup_delete_ne. }
      destruct (delay <=? 0); cbn [fst]; [by apply live_Add|].
      apply (live_ext _ s0); try done. cbn. by rewrite lookup_insert_ne. }
  destruct (held (stopRetryLocked k' s) !! k') as [until|]; [|by apply Hfin].
  destruct (d <? _); [by apply Hfin|]. by destruct (_ <=? 0); apply Hfin.
Qed.

Lemma live_get k s s' o : live s k -> get_step s = Some (s', o) -> o <> Deliver k -> live s' k.
Proof.
  intros Hl. unfold get_step. destruct (cq_Get (queue s)) as [[q [|key]]|] eqn:Eg; [| |done].
  { intros [= <- <-] _. destruct Hl as (_ & Hs & _). apply Get_shutdown in Eg. congruence. }
  apply Get_item in Eg as (Hk & _ & Hdq & _ & Hsh).
  destruct (decide (key = k)) as [->|Hne].
  - destruct Hl as (Hd & Hs & Hsch). rewrite bool_decide_eq_false_2 by done. cbv zeta.
    match goal with |- context [if ?b then stopRetryLocked k ?x else ?x] =>
      set (s1 := if b then stopRetryLocked k x else x) end.
    destruct (negb _ && _) eqn:Eheld; intros [= <- <-]; [intros _|by intros []].
    destruct (scheduleRetry_spec k (match held s1 !! k with Some until => until - now s1 | None => 0 end) s1)
      as (E1 & _ & _ & _ & E5 & _ & _ & Hf & Ht).
    assert (Hd1 : k ∉ deleted s1) by (unfold s1; case_bool_decide; done).
    assert (Hs1 : cq_ShuttingDown (queue s1) = false) by (unfold s1; case_bool_decide; cbn; congruence).
    destruct (scheduleRetryLocked _ _ s1).2 eqn:Er; [|destruct (Hf eq_refl) as [_ [?|?]]; congruence || done].
    destruct (Ht eq_refl) as (_ & _ & Hsc & _). split; [cbn; by rewrite E1|]. cbn.
    rewrite Done_shutting, E5. split; [done|]. unfold scheduled in *. cbn. by rewrite Done_dirty.
  - assert (Hl1 : forall s0, deleted s0 = deleted s -> queue s0 = q -> pending s0 !! k = pending s !! k ->
               retrying s0 !! k = retrying s !! k -> live s0 k).
    { intros s0 E1 E2 E3 E4. apply (live_ext _ s); try done; [by rewrite E2|]. intros Hin. rewrite E2, Hdq. set_solver. }
    case_bool_decide.
    { intros [= <- <-] _. apply (live_ext _ (with_queue (fun _ => q) s)); try done; cbn.
      - by rewrite Done_shutting, Forget_shutting.
      - by rewrite Done_dirty, Forget_dirty.
      - by apply Hl1. }
    cbv zeta. match goal with |- context [if ?b then stopRetryLocked key ?x else ?x] =>
      set (s1 := if b then stopRetryLocked key x else x) end.
    assert (Hs1 : live s1 k).
    { unfold s1. case_bool_decide; apply Hl1; try done. cbn. by rewrite lookup_delete_ne. }
    destruct (negb _ && _); intros [= <- <-] _; [|done].
    eapply live_ext; [..|apply (live_scheduleRetry k key); exact Hs1]; try done; cbn;
      [by rewrite Done_shutting|by rewrite Done_dirty].
Qed.

Lemma Enqueue_live k s : (Enqueue k s).2 = true -> live (Enqueue k s).1 k.
Proof.
  unfold Enqueue, enqueue_read. destruct (negb (valid k)) eqn:Ev; cbn [orb]; [done|].
  destruct (cq_ShuttingDown (queue s)) eqn:Es; [done|]. case_bool_decide as Ed; [done|].
  destruct (pending s !! k) eqn:Ep; [intros _; split; [done|]; split; [done|]; right; left; cbn; rewrite Ep; eauto|].
  destruct (_ && _ && _); [intros _; by apply live_Add_self|].
  unfold enqueue_locked. rewrite bool_decide_eq_false_2, Ep by done. cbv zeta.
  destruct (match retrying s !! k with Some _ => _ | None => _ end) eqn:Ek.
  { intros _. split; [done|]. split; [done|]. right; right. cbn. destruct (retrying s !! k); [eauto|done]. }
  assert (Hfin : forall s0 delay, deleted s0 = deleted s -> queue s0 = queue s ->
    live (if delay <=? 0 then (with_queue (cq_Add k) s0, true)
          else let s1 := with_timer s0 in
               (with_pending <[k := mkPending (nextTimer s1) (now s1 + delay)]> s1, true)).1 k).
  { intros s0 delay E1 E2. destruct (delay <=? 0); cbn [fst].
    - apply live_Add_self; [by rewrite E1|by rewrite E2].
    - split; cbn; [by rewrite E1|]. split; [by rewrite E2|]. right. left. cbn. rewrite lookup_insert_eq. eauto. }
  destruct (held (stopRetryLocked k s) !! k) as [until|]; [|intros _; by apply Hfin].
  destruct (_ <? _); [intros _; by apply Hfin|]. by destruct (_ <=? 0); intros _; apply Hfin.
Qed.

Hypothesis when_dirty : forall k q, dirty (when k q).1 = dirty q.
Hypothesis when_shutting : forall k q, cq_ShuttingDown (when k q).1 = cq_ShuttingDown q.

Lemma live_Complete k key err s : live s k -> live (Complete when key err s).1 k.
Proof.
  intros Hl. unfold Complete. cbv zeta.
  assert (Hfg : forall s0, live s0 k -> live (with_queue (fun q => cq_Done key (cq_Forget key q)) s0) k).
  { intros s0 Hl0. apply (live_ext _ s0); try done; cbn;
      [by rewrite Done_shutting, Forget_shutting|by rewrite Done_dirty, Forget_dirty]. }
  assert (Hdn : forall s0, live s0 k -> live (with_queue (cq_Done key) s0) k).
  { intros s0 Hl0. apply (live_ext _ s0); try done; cbn; [by rewrite Done_shutting|by rewrite Done_dirty]. }
  case_bool_decide; [by apply Hfg|]. destruct (negb err); [apply Hfg; by apply (live_ext _ s)|].
  destruct (_ <=? _).
  - cbn [fst]. apply Hdn. case_match; [apply live_scheduleRetry|]; by apply (live_ext _ s).
  - pose proof (when_dirty key (queue s)) as Hwd. pose proof (when_shutting key (queue s)) as Hws.
    destruct (when key (queue s)) as [q delay]. cbn [fst] in *.
    match goal with |- context [scheduleRetryLocked key delay ?x] => set (s1 := x) end.
    assert (Hl1 : live s1 k) by (apply (live_ext _ s); try done; cbn; by rewrite Hwd).
    pose proof (live_scheduleRetry k key delay s1 Hl1) as Hl2.
    destruct (scheduleRetryLocked key delay s1) as [s2 []]; cbn [fst] in *; auto.
Qed.

Lemma live_step s l s' k : live s k -> qstep when s l s' ->
  l <> LForget k -> l <> LShutDown -> l <> LGet (Deliver k) -> live s' k.
Proof.
  intros Hl Hstep Hnf Hns Hng. destruct Hstep as [s k'|s k' d _|s k'|s k'|s k'|s k'|s s' o Hg|s k' err|s k' g|s k' g|s|s t].
  - unfold enqueue_read. repeat case_match; try done; by apply live_Add.
  - by apply live_enqueue_locked.
  - unfold periodic_locked. case_bool_decide as Ed; [done|]. cbn [fst].
    destruct (decide (k' = k)) as [->|Hne]; [destruct Hl as (? & ? & _); by apply live_Add_self|].
    apply live_Add, (live_ext _ s); try done; cbn; by rewrite lookup_delete_ne.
  - destruct Hl as (Hd & Hs & Hsc). split; [cbn; set_solver|done].
  - assert (Hne : k' <> k) by congruence. destruct Hl as (Hd & Hs & Hsc).
    split; [cbn; set_solver|]. split; [done|]. unfold scheduled in *. cbn. by rewrite !lookup_delete_ne.
  - apply (live_ext _ s); try done; cbn; [by rewrite Forget_shutting|by rewrite Forget_dirty].
  - eapply live_get; eauto. congruence.
  - by apply live_Complete.
  - unfold waitForDebounce. destruct (pending s !! k') eqn:Ep; [|done]. destruct (negb _); [done|]. cbv zeta.
    destruct (decide (k' = k)) as [->|Hne].
    + destruct Hl as (Hd & Hs & _). cbn. rewrite bool_decide_eq_false_2, Hs by done. cbn. by apply live_Add_self.
    + assert (Hl' : live (with_pending (delete k') s) k)
        by (apply (live_ext _ s); try done; cbn; by rewrite lookup_delete_ne).
      destruct (_ && _); [by apply live_Add|done].
  - unfold waitForRetry. destruct (retrying s !! k') eqn:Ep; [|done]. destruct (negb _); [done|]. cbv zeta.
    destruct (decide (k' = k)) as [->|Hne].
    + destruct Hl as (Hd & Hs & _). cbn. rewrite bool_decide_eq_false_2, Hs by done. cbn. by apply live_Add_self.
    + assert (Hl' : live (with_retrying (delete k') s) k)
        by (apply (live_ext _ s); try done; cbn; by rewrite lookup_delete_ne).
      destruct (_ && _); [by apply live_Add|done].
  - done.
  - by apply (live_ext _ s).
Qed.


Lemma live_run s ls s' k : live s k -> qrun when s ls s' ->
  (LForget k ∉ ls) -> (LShutDown ∉ ls) -> (LGet (Deliver k) ∉ ls) -> live s' k.
Proof.
  intros Hl Hrun. induction Hrun as [s|s l s1 ls s2 Hstep Hrun IH]; intros H1 H2 H3; [done|].
  rewrite not_elem_of_cons in H1, H2, H3. destruct H1 as [H1 H1'], H2 as [H2 H2'], H3 as [H3 H3'].
  apply IH; try done. eapply live_step; eauto.
Qed.
End laws.

(** *** Backoff *)

Section backoff.
Context {Q : Type} `{CL : ClientQueueLaws Q} `{KeyValidation}.
Context (when : TargetKey -> Q -> Q * Z).
Implicit Types s : TargetQueue Q.

(** Until [t] the key is held and no periodic audit asks for it. *)
Definition backing_off (k : TargetKey) (t : Z) (s : TargetQueue Q) : Prop :=
  (held s !! k = Some t /\ k ∉ periodic s) \/ t <= now s.

Lemma backing_off_ext k t s s' : held s' !! k = held s !! k -> now s' = now s ->
  (k ∈ periodic s' -> k ∈ periodic s) -> backing_off k t s -> backing_off k t s'.
Proof. intros Eh En Ep [[Hh Hp]|Hn]; [left|right; by rewrite En]. split; [by rewrite Eh|auto]. Qed.

Lemma backing_off_enqueue k t key d s : backing_off k t s -> backing_off k t (enqueue_locked key d s).1.
Proof.
  intros Hb. unfold enqueue_locked. case_bool_decide; [done|]. case_match; [done|]. cbv zeta.
  destruct (match retrying s !! key with Some _ => _ | None => _ end); [done|].
  assert (Hfin : forall s0 delay, backing_off k t s0 ->
    backing_off k t (if delay <=? 0 then (with_queue (cq_Add key) s0, true)
          else let s1 := with_timer s0 in
               (with_pending <[key := mkPending (nextTimer s1) (now s1 + delay)]> s1, true)).1).
  { intros s0 delay Hb0. by destruct (delay <=? 0); apply (backing_off_ext _ _ s0). }
  cbn [held stopRetryLocked with_retrying]. destruct (held s !! key) as [until|] eqn:Eh.
  - destruct (d <? _); [apply Hfin; by apply (backing_off_ext _ _ s)|].
    destruct (until - _ <=? 0) eqn:Eu; apply Hfin; [|by apply (backing_off_ext _ _ s)].
    apply Z.leb_le in Eu. cbn in Eu. destruct Hb as [[Hh Hp]|Hn]; [|by right].
    destruct (decide (k = key)) as [->|Hne]; [right; cbn; rewrite Eh in Hh; simplify_eq; lia|].
    left. cbn. by rewrite lookup_delete_ne.
  - apply Hfin. by apply (backing_off_ext _ _ s).
Qed.

Lemma backing_off_get k t s s' o : backing_off k t s -> get_step s = Some (s', o) ->
  backing_off k t s' /\ (o = Deliver k -> t <= now s).
Proof.
  intros Hb. unfold get_step. destruct (cq_Get (queue s)) as [[q [|key]]|] eqn:Eg; [| |done].
  { intros [= <- <-]. split; [by apply (backing_off_ext _ _ s)|done]. }
  case_bool_decide; [intros [= <- <-]; split; [by apply (backing_off_ext _ _ s)|done]|]. cbv zeta.
  match goal with |- context [if ?b then stopRetryLocked key ?x else ?x] =>
    set (s1 := if b then stopRetryLocked key x else x) end.
  assert (Hb1 : backing_off k t s1).
  { unfold s1. case_bool_decide; apply (backing_off_ext _ _ s); try done; cbn; set_solver. }
  assert (Es1 : held s1 = held s /\ now s1 = now s) by (unfold s1; by case_bool_decide). destruct Es1 as [Eh En].
  destruct (negb _ && _) eqn:Ed; intros [= <- <-].
  - split; [|done].
    destruct (scheduleRetry_spec key (match held s1 !! key with Some until => until - now s1 | None => 0 end) s1)
      as (_ & E2 & E3 & E4 & _). apply (backing_off_ext _ _ s1); try done; cbn; [by rewrite E2|by rewrite E3].
  - split; [done|]. intros [= ->]. destruct Hb as [[Hh Hp]|Hn]; [|done]. cbn in Ed.
    rewrite bool_decide_eq_false_2, Eh, En, Hh in Ed by done. cbn in Ed. apply Z.ltb_ge in Ed. lia.
Qed.

Lemma backing_off_step k t s l s' : backing_off k t s -> qstep when s l s' ->
  l <> LPeriodic k -> l <> LForget k -> (forall e, l <> LComplete k e) ->
  backing_off k t s' /\ (l = LGet (Deliver k) -> t <= now s).
Proof.
  intros Hb Hstep Hnp Hnf Hnc.
  destruct Hstep as [s k'|s k' d _|s k'|s k'|s k'|s k'|s s' o Hg|s k' err|s k' g|s k' g|s|s t' Ht].
  - split; [|done]. unfold enqueue_read. repeat case_match; try done; by apply (backing_off_ext _ _ s).
  - split; [|done]. by apply backing_off_enqueue.
  - split; [|done]. unfold periodic_locked. case_bool_decide; [done|]. cbn [fst].
    apply (backing_off_ext _ _ s); try done. cbn. intros [->%elem_of_singleton|?]%elem_of_union; [congruence|done].
  - split; [|done]. by apply (backing_off_ext _ _ s).
  - split; [|done]. assert (Hne : k' <> k) by congruence. unfold forget_locked.
    apply (backing_off_ext _ _ s); try done; cbn; [by rewrite lookup_delete_ne|set_solver].
  - split; [|done]. by apply (backing_off_ext _ _ s).
  - destruct (backing_off_get k t s s' o Hb Hg) as [? Hd]. split; [done|]. intros [= ->]. auto.
  - split; [|done]. assert (Hne : k' <> k) by (intros ->; by apply (Hnc err)). unfold Complete. cbv zeta.
    case_bool_decide; [by apply (backing_off_ext _ _ s)|].
    destruct (negb err); [apply (backing_off_ext _ _ s); try done; cbn; by rewrite lookup_delete_ne|].
    assert (Hsch : forall d s0, backing_off k t s0 -> backing_off k t (scheduleRetryLocked k' d s0).1).
    { intros d s0 Hb0. destruct (scheduleRetry_spec k' d s0) as (_ & E2 & E3 & E4 & _).
      apply (backing_off_ext _ _ s0); try done; [by rewrite E2|by rewrite E3]. }
    assert (Hh : forall s0 u, backing_off k t s0 -> backing_off k t (with_held <[k' := u]> s0)).
    { intros s0 u Hb0. apply (backing_off_ext _ _ s0); try done. cbn. by rewrite lookup_insert_ne. }
    destruct (_ <=? _).
    + cbn [fst]. case_match; [eapply backing_off_ext; [..|apply Hsch, Hh, Hb]; done|].
      eapply backing_off_ext; [..|apply Hh, Hb]; done.
    + destruct (when k' (queue s)) as [q delay].
      match goal with |- context [scheduleRetryLocked k' delay ?x] => set (s1 := x) end.
      assert (Hb1 : backing_off k t s1) by (apply Hh; by apply (backing_off_ext _ _ s)).
      pose proof (Hsch delay s1 Hb1) as Hb2.
      destruct (scheduleRetryLocked k' delay s1) as [s2 []]; cbn [fst] in *; by apply (backing_off_ext _ _ s2).
  - split; [|done]. unfold waitForDebounce. repeat case_match; try done; by apply (backing_off_ext _ _ s).
  - split; [|done]. unfold waitForRetry. repeat case_match; try done; by apply (backing_off_ext _ _ s).
  - split; [|done]. unfold ShutDown. case_match; [done|]. by apply (backing_off_ext _ _ s).
  - split; [|done]. destruct Hb as [?|?]; [by left|right; cbn; lia].
Qed.

Lemma backing_off_run k t s ls s' : backing_off k t s -> qrun when s ls s' ->
  (LPeriodic k ∉ ls) -> (LForget k ∉ ls) -> (forall e, LComplete k e ∉ ls) -> backing_off k t s'.
Proof.
  intros Hb Hrun. induction Hrun as [s|s l s1 ls s2 Hstep Hrun IH]; intros H1 H2 H3; [done|].
  rewrite not_elem_of_cons in H1, H2. assert (H3' : forall e, l <> LComplete k e /\ (LComplete k e ∉ ls)).
  { intros e. specialize (H3 e). rewrite not_elem_of_cons in H3. split; [|tauto]. intros ->. tauto. }
  destruct H1 as [H1 H1'], H2 as [H2 H2'].
  apply IH; [|done|done|intros e; apply H3'].
  apply (backing_off_step k t s l s1 Hb Hstep); [congruence|congruence|intros e; apply H3'].
Qed.

(** A failed attempt leaves the key held. *)
Lemma Complete_holds k s s1 c : Complete when k true s = (s1, c) -> c = CompletionRetried \/ c = CompletionExhausted ->
  periodic s1 = periodic s /\ exists d, held s1 !! k = Some (now s + d) /\
    (c = CompletionExhausted -> d = maxBackoff s) /\ (c = CompletionRetried -> d = (when k (queue s)).2).
Proof.
  unfold Complete. cbv zeta. case_bool_decide; [intros [= <- <-] [?|?]; done|]. cbn [negb].
  destruct (_ <=? _).
  - intros [= <- <-] _. case_match.
    + match goal with |- context [scheduleRetryLocked k ?d ?x] =>
        destruct (scheduleRetry_spec k d x) as (_ & E2 & E3 & _) end.
      cbn. rewrite E2, E3. cbn. split; [done|]. eexists. rewrite lookup_insert_eq. split; [done|]. split; done.
    + cbn. split; [done|]. eexists. rewrite lookup_insert_eq. split; [done|]. split; done.
  - destruct (when k (queue s)) as [q delay].
    match goal with |- context [scheduleRetryLocked k delay ?x] =>
      destruct (scheduleRetry_spec k delay x) as (_ & E2 & E3 & _); destruct (scheduleRetryLocked k delay x) as [s2 []] end.
    + intros [= <- <-] _. cbn [fst] in E2, E3. cbn. rewrite E2, E3. cbn. split; [done|]. eexists.
      rewrite lookup_insert_eq. split; [done|]. split; done.
    + intros [= <- <-] [?|?]; done.
Qed.

(** *** Forgotten targets and the loop of [Get] *)

Lemma deleted_step k s l s' : k ∈ deleted s -> qstep when s l s' -> l <> LActivate k ->
  k ∈ deleted s' /\ l <> LGet (Deliver k).
Proof.
  intros Hd Hstep Hna. destruct Hstep as [s k'|s k' d _|s k'|s k'|s k'|s k'|s s' o Hg|s k' err|s k' g|s k' g|s|s t].
  - split; [|done]. unfold enqueue_read. repeat case_match; done.
  - split; [|done]. unfold enqueue_locked. cbv zeta. repeat case_match; cbn in *; simplify_eq; done.
  - split; [|done]. unfold periodic_locked. by case_match.
  - split; [|done]. cbn. apply elem_of_difference. split; [done|]. rewrite elem_of_singleton. congruence.
  - split; [|done]. cbn. by apply elem_of_union_r.
  - done.
  - unfold get_step in Hg. destruct (cq_Get (queue s)) as [[q [|key]]|]; [| |done].
    { by simplify_eq. }
    cbn in Hg. case_bool_decide as Ed; [by simplify_eq|].
    assert (Hne : key <> k) by (intros ->; done).
    match goal with H : context [if ?b then stopRetryLocked key ?x else ?x] |- _ =>
      set (s1 := if b then stopRetryLocked key x else x) in * end.
    assert (Es1 : deleted s1 = deleted s) by (unfold s1; by case_bool_decide).
    destruct (negb _ && _); simplify_eq/=; [|split; [by rewrite Es1|congruence]].
    destruct (scheduleRetry_spec key (match held s1 !! key with Some until => until - now s1 | None => 0 end) s1)
      as (E1 & _). split; [|done]. cbn. by rewrite E1, Es1.
  - split; [|done]. unfold Complete. cbv zeta. case_bool_decide; [done|]. destruct (negb err); [done|].
    destruct (_ <=? _).
    + cbn [fst]. case_match; [|done]. match goal with |- context [scheduleRetryLocked k' ?d ?x] =>
        destruct (scheduleRetry_spec k' d x) as (E1 & _) end.
      unfold with_queue. cbn [deleted]. by rewrite E1.
    + destruct (when k' (queue s)) as [q delay].
      match goal with |- context [scheduleRetryLocked k' delay ?x] =>
        destruct (scheduleRetry_spec k' delay x) as (E1 & _); destruct (scheduleRetryLocked k' delay x) as [s2 []] end;
      cbn [fst] in *; unfold with_queue; cbn [deleted]; by rewrite E1.
  - split; [|done]. unfold waitForDebounce. repeat case_match; done.
  - split; [|done]. unfold waitForRetry. repeat case_match; done.
  - split; [|done]. unfold ShutDown. by case_match.
  - done.
Qed.

(** Every pass of the loop that does not return takes a key out of the queue. *)
Lemma get_step_again s s' : get_step s = Some (s', Again) -> (size (dirty (queue s')) < size (dirty (queue s)))%nat.
Proof.
  unfold get_step. destruct (cq_Get (queue s)) as [[q [|key]]|] eqn:Eg; [done| |done].
  apply Get_item in Eg as (Hk & _ & Hdq & _ & _).
  assert (Hsz : (size (dirty q) < size (dirty (queue s)))%nat).
  { rewrite Hdq. apply subset_size. set_solver. }
  case_bool_decide; [intros [= <-]; cbn; by rewrite Done_dirty, Forget_dirty|]. cbv zeta.
  match goal with |- context [if ?b then stopRetryLocked key ?x else ?x] =>
    set (s1 := if b then stopRetryLocked key x else x) end.
  destruct (negb _ && _) eqn:Ed; [|done]. intros [= <-]. cbn. rewrite Done_dirty.
  assert (Eq1 : queue s1 = q) by (unfold s1; by case_bool_decide).
  set (delay := match held s1 !! key with Some until => until - now s1 | None => 0 end) in *.
  apply andb_true_iff in Ed as [_ Ed]. apply Z.ltb_lt in Ed.
  assert (Hq : queue (scheduleRetryLocked key delay s1).1 = queue s1).
  { unfold scheduleRetryLocked. destruct (_ || _); [done|]. cbv zeta.
    assert (El : (delay <=? 0) = false) by (apply Z.leb_gt; lia). rewrite El. by repeat case_match. }
  by rewrite Hq, Eq1.
Qed.
End backoff.

Section claims.
Context {Q : Type} `{CL : ClientQueueLaws Q} `{KeyValidation}.

(** C19. No event is lost: once [Enqueue] has accepted a key, work for it stays
  queued or behind a timer through every interleaving of workers, timers,
  audits and other events, until a worker receives it, the target is
  forgotten or the queue shuts down. *)
Theorem event_not_lost (when : TargetKey -> Q -> Q * Z) k s s1 ls s2 :
(forall k q, dirty (when k q).1 = dirty q) ->
(forall k q, cq_ShuttingDown (when k q).1 = cq_ShuttingDown q) ->
Enqueue k s = (s1, true) -> qrun when s1 ls s2 ->
(LForget k ∉ ls) -> (LShutDown ∉ ls) -> (LGet (Deliver k) ∉ ls) -> scheduled s2 k.
Proof.
intros Hwd Hws He Hrun H1 H2 H3. pose proof (Enqueue_live when k s) as Hl. rewrite He in Hl. cbn in Hl.
destruct (live_run when Hwd Hws s1 ls s2 k (Hl eq_refl) Hrun H1 H2 H3) as (_ & _ & Hs). done.
Qed.

(** Event churn cannot defeat the backoff: after a failed attempt that is
  retried or exhausted, no interleaving delivers the key before the backoff
  (the limiter's delay, or the maximum after exhaustion) has elapsed, unless
  a periodic audit asks for it or the target is forgotten. *)
Theorem backoff_respected (when : TargetKey -> Q -> Q * Z) k s s1 c ls s2 s3 :
Complete when k true s = (s1, c) -> c = CompletionRetried \/ c = CompletionExhausted ->
(k ∉ periodic s) -> qrun when s1 ls s2 ->
(LPeriodic k ∉ ls) -> (LForget k ∉ ls) -> (forall e, LComplete k e ∉ ls) ->
get_step s2 = Some (s3, Deliver k) ->
now s + (if decide (c = CompletionExhausted) then maxBackoff s else (when k (queue s)).2) <= now s2.
Proof.
intros Hc Hcc Hp Hrun H1 H2 H3 Hg. destruct (Complete_holds when k s s1 c Hc Hcc) as (Hper & d & Hh & He & Hr).
assert (Hb : backing_off k (now s + d) s1) by (left; rewrite Hper; done).
pose proof (backing_off_run when k _ s1 ls s2 Hb Hrun H1 H2 H3) as Hb2.
destruct (backing_off_get k _ s2 s3 _ Hb2 Hg) as [_ Hdl]. specialize (Hdl eq_refl).
case_decide; [by rewrite <- He|]. destruct Hcc as [Hcc|Hcc]; [|done]. by rewrite <- Hr.
Qed.

(** A forgotten target stays silent: after [ForgetTarget] no interleaving
  delivers the key or accepts an event for it before it is activated again. *)
Theorem forgotten_target_silent (when : TargetKey -> Q -> Q * Z) k s ls s2 :
qrun when (ForgetTarget k s) ls s2 -> (LActivate k ∉ ls) ->
(LGet (Deliver k) ∉ ls) /\ (Enqueue k s2).2 = false /\ (EnqueuePeriodic k s2).2 = false.
Proof.
intros Hrun Hna. assert (Hd : k ∈ deleted (ForgetTarget k s)) by (cbn; set_solver).
revert Hd. generalize dependent (ForgetTarget k s). intros s0 Hrun. induction Hrun as [s0|s0 l s1 ls s2 Hstep Hrun IH]; intros Hd.
- split; [apply not_elem_of_nil|]. unfold Enqueue, enqueue_read, EnqueuePeriodic.
  rewrite bool_decide_eq_true_2 by done. by destruct (_ || _).
- rewrite not_elem_of_cons in Hna. destruct (deleted_step when k s0 l s1 Hd Hstep) as [Hd1 Hl]; [intros ->; apply (proj1 Hna); reflexivity|].
  destruct IH as (H1 & H2 & H3); [exact (proj2 Hna)|done|]. split; [|done]. apply not_elem_of_cons. split; [congruence|done].
Qed.

(** [Get] does not spin: with no other activity its loop returns, blocks or
  delivers after at most one pass per queued key. *)
Theorem Get_terminates s : match Get (S (size (dirty (queue s)))) s with Some (_, Again) => False | _ => True end.
Proof.
remember (size (dirty (queue s))) as n eqn:En. assert (Hn : (size (dirty (queue s)) <= n)%nat) by lia. clear En.
assert (Hunfold : forall n s, Get (S n) s = match get_step s with Some (s, Again) => Get n s | r => r end) by done.
revert s Hn. induction n as [|n IH]; intros s Hn; rewrite Hunfold;
  destruct (get_step s) as [[s' [k| |]]|] eqn:Eg; try exact I; apply (get_step_again (fun _ q => (q, 0))) in Eg; [lia|].
apply IH. lia.
Qed.

(** C20. In every interleaving there is at most one timer per key and nothing is
  kept for a forgotten target. *)
Theorem queue_invariant (when : TargetKey -> Q -> Q * Z) c q t s ls s2 :
New c q t = Ok s -> qrun when s ls s2 -> queue_wf s2.
Proof.
intros Hnew Hrun. assert (Hwf : queue_wf s).
{ unfold New in Hnew. destruct (New_config c); [|done]. injection Hnew as <-. split; cbn; intros k.
  - left. apply lookup_empty.
  - set_solver. }
clear Hnew. induction Hrun as [|s l s1 ls s2 Hstep Hrun IH]; [done|]. apply IH. by eapply wf_step.
Qed.
End claims.
