(* ===== verification/Scheduling.v ===== *)
(** * internal/workqueue: events, audits and cache gates

    The dispatcher that turns informer events into queue operations, the
    semantic fingerprints that filter update noise, the audit schedule and the
    gate in front of cleanup. *)
From Stdlib Require Import String Ascii ZArith Lia.
From S2P Require Import Prelude GoStrings GoEncoding Queue.
Open Scope string_scope.
Open Scope list_scope.
Open Scope Z_scope.

(** ** events.go *)

Inductive EventKind :=
| EventService | EventIngress | EventGateway | EventHTTPRoute | EventEndpointSlice | EventTarget | EventPolicy
| EventOwnership | EventChangePlan | EventSecret | UnknownKind (name : string).

Inductive EventAction := EventAdd | EventUpdate | EventDelete | UnknownAction (name : string).

#[export] Instance EventKind_eq_dec : EqDecision EventKind.
Proof. solve_decision. Defined.
#[export] Instance EventAction_eq_dec : EqDecision EventAction.
Proof. solve_decision. Defined.

Definition kind_name (k : EventKind) : string :=
  match k with
  | EventService => "Service" | EventIngress => "Ingress" | EventGateway => "Gateway" | EventHTTPRoute => "HTTPRoute"
  | EventEndpointSlice => "EndpointSlice" | EventTarget => "FortiGateDNSTarget" | EventPolicy => "FortiGateDNSPolicy"
  | EventOwnership => "FortiGateDNSRecordOwnership" | EventChangePlan => "FortiGateDNSChangePlan"
  | EventSecret => "SecretMetadata" | UnknownKind n => n
  end.

Definition validEventKind (k : EventKind) : bool := match k with UnknownKind _ => false | _ => true end.

(** The bytes [writeFingerprintPart] feeds to the hash. *)
Definition writeFingerprintPart (value : string) : string :=
  FormatInt (Z.of_nat (String.length value)) +:+ String ":" (value +:+ String "000" "").

Section fingerprint.
Context `{MapRange}.

Definition sorted_fields (fields : gmap string string) : list (string * string) :=
  (fun key => (key, default "" (fields !! key))) <$> sort_by_key (fun s => s) (map_range 0 fields).*1.

Definition fingerprint_payload (kind : EventKind) (fields : gmap string string) : string :=
  foldl (fun acc kv => acc +:+ writeFingerprintPart kv.1 +:+ writeFingerprintPart kv.2)
    (writeFingerprintPart (kind_name kind)) (sorted_fields fields).

Definition NewSemanticFingerprint (kind : EventKind) (fields : gmap string string) : result string string :=
  if negb (validEventKind kind) then Err ("unsupported event kind " +:+ kind_name kind)
  else Ok (hex_sha256 (fingerprint_payload kind fields)).
End fingerprint.

Record Event := mkEvent {
  Ev_Kind : EventKind; Action : EventAction; Ev_Namespace : string; Ev_Name : string; RelatedTarget : string;
  OldFingerprint : string; NewFingerprint : string }.

Definition validate_event (e : Event) : option string :=
  if negb (validEventKind (Ev_Kind e)) then Some ("unsupported event kind " +:+ kind_name (Ev_Kind e))
  else match Action e with
       | EventAdd | EventDelete => None
       | EventUpdate =>
           if (OldFingerprint e =s "")%go || (NewFingerprint e =s "")%go
           then Some "update event requires old and new semantic fingerprints" else None
       | UnknownAction n => Some ("unsupported event action " +:+ n)
       end.

Definition Meaningful (e : Event) : bool :=
  match Action e with EventUpdate => negb (OldFingerprint e =s NewFingerprint e)%go | _ => true end.

Record DispatchResult := mkDispatch { Enqueued : Z; Forgotten : Z; Ignored : bool }.

(** What the callback for deleted targets may fail with: whether the error is the
    one that ends the runtime is visible through every wrapping. *)
Inductive DeletionError := DeletionScopeChanged | DeletionFailed (e : string).

Definition sort_keys (keys : list TargetKey) : list TargetKey := sort_by_key TargetKey_String keys.

(** ** schedule.go *)

Record TargetSchedule := mkSchedule { TS_Key : TargetKey; Revision : string; Interval : Z }.
Record auditDeadline := mkDeadline { revision : string; interval : Z; next : Z }.

Section schedule.
Context `{KeyValidation}.

Definition due_entry (deadlines : gmap TargetKey auditDeadline) (t fallback : Z) (immediateNew : bool)
    (target : TargetSchedule) : auditDeadline :=
  let ivl := if Interval target =? 0 then fallback else Interval target in
  let fresh := mkDeadline (Revision target) ivl (if immediateNew then t else t + ivl) in
  match deadlines !! TS_Key target with
  | Some entry =>
      if negb (revision entry =s Revision target)%go || negb (interval entry =? ivl) then fresh else entry
  | None => fresh
  end.

Fixpoint due_loop (deadlines : gmap TargetKey auditDeadline) (t fallback : Z) (immediateNew : bool)
    (targets : list TargetSchedule) (nextMap : gmap TargetKey auditDeadline) (due : list TargetKey)
    : result string (gmap TargetKey auditDeadline * list TargetKey) :=
  match targets with
  | [] => Ok (nextMap, due)
  | target :: rest =>
      if negb (valid (TS_Key target)) || (Interval target <? 0) then Err "invalid target audit schedule"
      else if bool_decide (is_Some (nextMap !! TS_Key target)) then
        due_loop deadlines t fallback immediateNew rest nextMap due
      else
        let entry := due_entry deadlines t fallback immediateNew target in
        let ivl := if Interval target =? 0 then fallback else Interval target in
        if next entry <=? t then
          due_loop deadlines t fallback immediateNew rest
            (<[TS_Key target := mkDeadline (revision entry) (interval entry) (t + ivl)]> nextMap)
            (due ++ [TS_Key target])
        else due_loop deadlines t fallback immediateNew rest (<[TS_Key target := entry]> nextMap) due
  end.

(** The new deadlines and the keys that are due. *)
Definition Due (deadlines : gmap TargetKey auditDeadline) (t : Z) (targets : list TargetSchedule) (fallback : Z)
    (immediateNew : bool) : result string (gmap TargetKey auditDeadline * list TargetKey) :=
  if fallback <=? 0 then Err "audit fallback interval must be positive"
  else
    let? r := due_loop deadlines t fallback immediateNew targets ∅ [] in
    Ok (r.1, sort_keys r.2).

Definition Delay (deadlines : gmap TargetKey auditDeadline) (t fallback : Z) : Z :=
  let delay := map_fold (fun _ e d => if next e - t <? d then next e - t else d) fallback deadlines in
  if delay <? 0 then 0 else delay.
End schedule.

(** ** resync.go *)

Section resync.
Context {Q : Type} `{ClientQueue Q} `{KeyValidation}.

(** The lister returns schedules, or keys only. *)
Definition enqueueDue (list_schedules : result string (list TargetSchedule)) (interval : Z)
    (deadlines : gmap TargetKey auditDeadline) (s : TargetQueue Q)
    : result string (gmap TargetKey auditDeadline * list TargetKey * TargetQueue Q) :=
  let? targets := list_schedules in
  let? r := Due deadlines (now s) targets interval false in
  Ok (r.1, r.2, foldl (fun s key => (EnqueuePeriodic key s).1) s r.2).

Definition schedules_of_keys (keys : list TargetKey) : list TargetSchedule := (fun k => mkSchedule k "" 0) <$> keys.

Fixpoint enqueue_all_loop (keys : list TargetKey) (seen : gset TargetKey) (s : TargetQueue Q)
    : TargetQueue Q * option string :=
  match keys with
  | [] => (s, None)
  | key :: rest =>
      if negb (valid key) then (s, Some "target lister returned an invalid key")
      else if bool_decide (key ∈ seen) then enqueue_all_loop rest seen s
      else enqueue_all_loop rest ({[key]} ∪ seen) (EnqueuePeriodic key s).1
  end.

Definition EnqueueAll (keys : list TargetKey) (s : TargetQueue Q) : TargetQueue Q * option string :=
  enqueue_all_loop (sort_keys keys) ∅ s.
End resync.

(** ** sync.go *)

Record CacheRequirement := mkCacheRequirement { CR_Kind : EventKind; HasSynced : option bool }.

Fixpoint gate_loop (seen : list EventKind) (requirements acc : list CacheRequirement)
    : result string (list CacheRequirement) :=
  match requirements with
  | [] => Ok acc
  | r :: rest =>
      if negb (validEventKind (CR_Kind r)) then Err ("unsupported cache kind " +:+ kind_name (CR_Kind r))
      else match HasSynced r with
           | None => Err ("cache " +:+ kind_name (CR_Kind r) +:+ " has no sync function")
           | Some _ =>
               if bool_decide (CR_Kind r ∈ seen) then Err ("duplicate cache kind " +:+ kind_name (CR_Kind r))
               else gate_loop (CR_Kind r :: seen) rest (acc ++ [r])
           end
  end.

(** The functions [HasSynced] are represented by the value they return when the gate is asked. *)
Definition NewCacheSyncGate (requirements : list CacheRequirement) : result string (list CacheRequirement) :=
  let? rs := gate_loop [] requirements [] in Ok (sort_by_key (fun r => kind_name (CR_Kind r)) rs).

Definition ErrCachesNotSynchronized : string := "required informer caches are not synchronized".
Definition ErrDiscoveryIncomplete : string := "cached discovery is incomplete".
Definition ErrProviderSnapshotUnstable : string := "provider snapshot is not stable and complete".

Definition is_synced (r : CacheRequirement) : bool := default false (HasSynced r).

Definition RequireSynchronized (gate : option (list CacheRequirement)) : option string :=
  match gate with
  | None => Some ErrCachesNotSynchronized
  | Some requirements =>
      match filter (fun r => is_synced r = false) requirements with
      | [] => None
      | missing => Some (ErrCachesNotSynchronized +:+ ": " +:+ Join ((fun r => kind_name (CR_Kind r)) <$> missing) ",")
      end
  end.

Definition RequireCleanupSafety (gate : option (list CacheRequirement)) (discoveryComplete providerStable : bool)
    : option string :=
  match RequireSynchronized gate with
  | Some err => Some err
  | None =>
      if negb discoveryComplete then Some ErrDiscoveryIncomplete
      else if negb providerStable then Some ErrProviderSnapshotUnstable
      else None
  end.

(** ** Fingerprints distinguish their fields *)

Lemma app_split_length (a b x y : string) : String.length a = String.length b -> a +:+ x = b +:+ y -> a = b /\ x = y.
Proof.
  revert b. induction a as [|c a IH]; intros [|d b] Hl E; simpl in *; try lia; [done|].
  injection E as -> E. injection Hl as Hl. destruct (IH b Hl E) as [-> ->]. done.
Qed.

Lemma fingerprint_part_unique a b x y :
  writeFingerprintPart a +:+ x = writeFingerprintPart b +:+ y -> a = b /\ x = y.
Proof.
  unfold writeFingerprintPart. rewrite <- !app_assoc_s. intros E.
  apply sep_split_unique in E as [El E]; [|apply FormatInt_no_colon; lia..].
  apply FormatInt_inj in El; [|lia..]. apply Nat2Z.inj in El. rewrite <- !app_assoc_s in E.
  destruct (app_split_length a b _ _ El E) as [-> E']. by injection E' as ->.
Qed.

Definition field_bytes (kv : string * string) : string := writeFingerprintPart kv.1 +:+ writeFingerprintPart kv.2.
Definition fields_bytes (l : list (string * string)) : string := foldr (fun kv s => field_bytes kv +:+ s) "" l.

Lemma fields_bytes_foldl acc l :
  foldl (fun acc kv => acc +:+ writeFingerprintPart kv.1 +:+ writeFingerprintPart kv.2) acc l = acc +:+ fields_bytes l.
Proof.
  revert acc. induction l as [|kv l IH]; intros acc; cbn [foldl fields_bytes foldr]; [by rewrite app_nil_s|].
  rewrite IH. unfold field_bytes, fields_bytes. by rewrite <- !app_assoc_s.
Qed.

Lemma field_bytes_nonempty kv s : field_bytes kv +:+ s <> "".
Proof.
  intros E. apply (f_equal String.length) in E. unfold field_bytes, writeFingerprintPart in E.
  rewrite !length_app_s in E. simpl in E. lia.
Qed.

Lemma fields_bytes_inj l1 l2 : fields_bytes l1 = fields_bytes l2 -> l1 = l2.
Proof.
  revert l2. induction l1 as [|[k v] l1 IH]; intros [|[k' v'] l2] E; cbn [fields_bytes foldr] in E; try done.
  - symmetry in E. by apply field_bytes_nonempty in E.
  - by apply field_bytes_nonempty in E.
  - unfold field_bytes in E. cbn [fst snd] in E. rewrite <- !app_assoc_s in E.
    apply fingerprint_part_unique in E as [-> E]. apply fingerprint_part_unique in E as [-> E]. f_equal. by apply IH.
Qed.

Lemma kind_name_inj k1 k2 : validEventKind k1 = true -> validEventKind k2 = true -> kind_name k1 = kind_name k2 -> k1 = k2.
Proof. destruct k1, k2; try done. Qed.

Lemma sorted_fields_inj `{MapRange} (m1 m2 : gmap string string) : sorted_fields m1 = sorted_fields m2 -> m1 = m2.
Proof.
  assert (Hin : forall m k v, (k, v) ∈ sorted_fields m <-> m !! k = Some v).
  { intros m k v. unfold sorted_fields. rewrite list_elem_of_fmap. split.
    - intros (k' & [= -> ->] & Hk'). rewrite sort_by_key_perm in Hk'. apply list_elem_of_fmap in Hk' as ([k0 v0] & -> & Hk0).
      apply elem_of_map_range in Hk0. cbn. by rewrite Hk0.
    - intros Hm. exists k. rewrite Hm. split; [done|]. rewrite sort_by_key_perm.
      apply (list_elem_of_fmap_2 fst _ (k, v)). by apply elem_of_map_range. }
  intros E. apply map_eq. intros k. apply option_eq. intros v. by rewrite <- !Hin, E.
Qed.

(** Semantic fingerprints hash an unambiguous encoding: two events have the
    same bytes under the hash only when kind and all fields agree, so a changed
    field is noticed unless SHA-256 collides. *)
Theorem fingerprint_payload_injective `{MapRange} k1 k2 (f1 f2 : gmap string string) :
  validEventKind k1 = true -> validEventKind k2 = true ->
  fingerprint_payload k1 f1 = fingerprint_payload k2 f2 -> k1 = k2 /\ f1 = f2.
Proof.
  intros H1 H2. unfold fingerprint_payload. rewrite !fields_bytes_foldl. intros E.
  apply fingerprint_part_unique in E as [En E]. apply fields_bytes_inj, sorted_fields_inj in E as ->.
  split; [by apply kind_name_inj|done].
Qed.

(** ** Audits *)

Section due.
Context `{KeyValidation}.
Context (deadlines : gmap TargetKey auditDeadline) (t fallback : Z) (immediateNew : bool).
Hypothesis Hfallback : 0 < fallback.

(** The entry of the first schedule of a key decides. *)
Fixpoint first_schedule (k : TargetKey) (targets : list TargetSchedule) : option TargetSchedule :=
  match targets with
  | [] => None
  | x :: rest => if bool_decide (TS_Key x = k) then Some x else first_schedule k rest
  end.

Lemma due_loop_spec targets nextMap due m d :
  due_loop deadlines t fallback immediateNew targets nextMap due = Ok (m, d) ->
  (forall k e, nextMap !! k = Some e -> t < next e) ->
  (forall k e, m !! k = Some e -> t < next e) /\
  (forall k, k ∈ d <-> k ∈ due \/ (nextMap !! k = None /\ exists x, first_schedule k targets = Some x /\
                                    next (due_entry deadlines t fallback immediateNew x) <= t)) /\
  (forall k, is_Some (m !! k) <-> is_Some (nextMap !! k) \/ is_Some (first_schedule k targets)).
Proof using Hfallback.
  revert nextMap due. induction targets as [|x targets IH]; intros nextMap due; cbn [due_loop first_schedule].
  { intros [= <- <-] Hn. split; [done|]. split; intros k; [|].
    - split; [by left|]. intros [?|(_ & ? & ? & _)]; done.
    - split; [by left|]. intros [?|[? ?]]; done. }
  destruct (negb _ || _) eqn:Ev; [done|]. bools. apply Z.ltb_ge in H1.
  case_bool_decide as Es.
  { intros Hl Hn. destruct (IH _ _ Hl Hn) as (I1 & I2 & I3). split; [done|]. split; intros k.
    - rewrite I2. case_bool_decide as Ek; [subst; rewrite (eq_None_not_Some (nextMap !! TS_Key x)); naive_solver|done].
    - rewrite I3. case_bool_decide as Ek; [subst; naive_solver|done]. }
  cbv zeta. set (e := due_entry deadlines t fallback immediateNew x).
  set (ivl := if Interval x =? 0 then fallback else Interval x).
  assert (Hivl : 0 < ivl) by (unfold ivl; destruct (Z.eqb_spec (Interval x) 0); lia).
  apply eq_None_not_Some in Es.
  assert (Hgo : forall e' due', t < next e' -> (forall k, k ∈ due' <-> k ∈ due \/ (k = TS_Key x /\ next e <= t)) ->
    due_loop deadlines t fallback immediateNew targets (<[TS_Key x := e']> nextMap) due' = Ok (m, d) ->
    (forall k e, nextMap !! k = Some e -> t < next e) ->
    (forall k e, m !! k = Some e -> t < next e) /\
    (forall k, k ∈ d <-> k ∈ due \/ (nextMap !! k = None /\
       exists y, (if bool_decide (TS_Key x = k) then Some x else first_schedule k targets) = Some y /\
                 next (due_entry deadlines t fallback immediateNew y) <= t)) /\
    (forall k, is_Some (m !! k) <-> is_Some (nextMap !! k) \/
       is_Some (if bool_decide (TS_Key x = k) then Some x else first_schedule k targets))).
  { intros e' due' He' Hdue Hl Hn. destruct (IH _ _ Hl) as (I1 & I2 & I3).
    { intros k e0. rewrite lookup_insert. case_decide; [by intros [= <-]|apply Hn]. }
    split; [done|]. split; intros k.
    - rewrite I2, Hdue, lookup_insert. unfold e. case_bool_decide as Ek; case_decide; subst; try done; naive_solver.
    - rewrite I3, lookup_insert. case_bool_decide; case_decide; subst; try done; naive_solver. }
  destruct (Z.leb_spec (next e) t) as [Hle|Hgt].
  - apply Hgo; [cbn; lia|]. intros k. rewrite elem_of_app, list_elem_of_singleton. tauto.
  - apply Hgo; [done|]. intros k. split; [by left|]. intros [?|[_ ?]]; [done|lia].
Qed.
End due.

Lemma Delay_bounds (m : gmap TargetKey auditDeadline) t fallback : 0 < fallback ->
  (forall k e, m !! k = Some e -> t < next e) -> 0 < Delay m t fallback <= fallback.
Proof.
  intros Hf Hm. unfold Delay.
  assert (G : 0 < map_fold (fun _ e d => if next e - t <? d then next e - t else d) fallback m <= fallback).
  { revert Hm. induction m as [|k e m Hk _ IH] using map_first_key_ind; intros Hm; [rewrite map_fold_empty; lia|].
    rewrite map_fold_insert_L; [|intros; repeat case_match; lia|done].
    destruct IH as [I1 I2]; [intros k' e' He'; apply (Hm k'); rewrite lookup_insert_ne; [done|congruence]|].
    specialize (Hm k e ltac:(by rewrite lookup_insert_eq)). destruct (Z.ltb_spec (next e - t)
      (map_fold (fun _ e d => if next e - t <? d then next e - t else d) fallback m)); lia. }
  destruct (Z.ltb_spec (map_fold (fun _ e d => if next e - t <? d then next e - t else d) fallback m) 0); lia.
Qed.

(** The audit schedule neither starves nor spins: after a round it holds
    exactly the listed targets, a target was due exactly when its deadline had
    passed, and the wait until the next round is positive and at most the
    fallback interval. *)
Theorem Due_schedule `{KeyValidation} deadlines t targets fallback immediateNew m due :
  Due deadlines t targets fallback immediateNew = Ok (m, due) ->
  (forall k, is_Some (m !! k) <-> exists x, x ∈ targets /\ TS_Key x = k) /\
  (forall k, k ∈ due <-> exists x, first_schedule k targets = Some x /\
                           next (due_entry deadlines t fallback immediateNew x) <= t) /\
  0 < Delay m t fallback <= fallback.
Proof.
  unfold Due. destruct (Z.leb_spec fallback 0); [done|].
  destruct (due_loop _ _ _ _ _ _ _) as [[m0 d0]|] eqn:El; [|done]. cbn [rbind fst snd]. intros [= <- <-].
  destruct (due_loop_spec deadlines t fallback immediateNew ltac:(lia) _ _ _ _ _ El) as (I1 & I2 & I3).
  { intros k e. by rewrite lookup_empty. }
  assert (Hfirst : forall k l, is_Some (first_schedule k l) <-> exists x, x ∈ l /\ TS_Key x = k).
  { intros k. induction l as [|x l IH]; cbn [first_schedule].
    - split; [by intros [? ?]|]. by intros (? & ?%not_elem_of_nil & _).
    - setoid_rewrite elem_of_cons. case_bool_decide; [split; [eauto|eauto]|]. rewrite IH. naive_solver. }
  split; [|split].
  - intros k. rewrite I3, lookup_empty, Hfirst. split; [|by right]. by intros [[? ?]|?].
  - intros k. unfold sort_keys. rewrite sort_by_key_perm, I2, lookup_empty. split; [|by right].
    by intros [?%not_elem_of_nil|[_ ?]].
  - apply Delay_bounds; [lia|done].
Qed.

(** The gate is open exactly when every required cache has synchronized. *)
Lemma RequireSynchronized_spec gate :
  RequireSynchronized gate = None <-> exists rs, gate = Some rs /\ Forall (fun r => HasSynced r = Some true) rs.
Proof.
  unfold RequireSynchronized. destruct gate as [rs|]; [|split; [done|by intros (? & ? & _)]].
  assert (Hf : filter (fun r => is_synced r = false) rs = [] <-> Forall (fun r => HasSynced r = Some true) rs).
  { split.
    - intros Hn. apply Forall_forall. intros r Hr. destruct (HasSynced r) as [[]|] eqn:E; [done|..]; exfalso;
        apply (not_elem_of_nil r); rewrite <- Hn; apply list_elem_of_filter; unfold is_synced; by rewrite E.
    - intros Hall. apply elem_of_nil_inv. intros r Hr. apply list_elem_of_filter in Hr as [Hu Hr].
      rewrite Forall_forall in Hall. unfold is_synced in Hu. by rewrite (Hall r Hr) in Hu. }
  destruct (filter _ rs) as [|r l] eqn:E.
  - split; [|done]. intros _. exists rs. split; [done|]. by apply Hf.
  - split; [done|]. intros (? & [= <-] & Hall). by apply Hf in Hall.
Qed.

(** Cleanup is allowed exactly when every required cache has synchronized,
    discovery was complete and the provider snapshot was stable. *)
Theorem cleanup_safety_exact gate complete stable :
  RequireCleanupSafety gate complete stable = None <->
  (exists rs, gate = Some rs /\ Forall (fun r => HasSynced r = Some true) rs) /\ complete = true /\ stable = true.
Proof.
  pose proof (RequireSynchronized_spec gate) as Hs.
  unfold RequireCleanupSafety. destruct (RequireSynchronized gate) as [err|].
  - split; [done|]. intros [Hg _]. by apply Hs in Hg.
  - destruct complete, stable; cbn; split; try done; try (by intros (_ & ? & ?)). intros _. split; [by apply Hs|done].
Qed.
