(* ===== verification/Client.v ===== *)
(** * internal/fortigate/client.go: the FortiGate REST client

    The device behind the HTTP client is the interface [Device] on a world
    state [W]; decoding a response body with json.Unmarshal into the two
    structs of the code is part of it.  Everything the code decides itself --
    paging, retries, envelopes, record translation, the apply loop -- is
    defined here. *)
From Stdlib Require Import String Ascii ZArith Lia QArith.
From S2P Require Import Prelude GoStrings NetIP GoEncoding Endpoint Plan Document Executor.
Open Scope string_scope.
Open Scope list_scope.
Open Scope Z_scope.
Open Scope go_scope.

(** ** Data *)

(** Values json decodes into an [any] field, and the further types the code accepts. *)
Inductive Scalar :=
| ScalarNil | ScalarString (s : string) | ScalarFloat64 (q : Q) | ScalarInt (n : Z) | ScalarUint64 (n : Z)
| ScalarNumber (n : option Z) | ScalarOther.

Record fortiRecord := mkFortiRecord {
  FR_ID : Scalar; FR_MKey : Scalar; FR_Hostname : string; FR_Type : string; FR_IP : string; FR_IPv6 : string;
  FR_CanonicalName : string; FR_TTL : Z; FR_Status : string }.

Record fortiResponse := mkFortiResponse {
  Results : list fortiRecord; Size : option Z; MatchedCount : option Z; Resp_Revision : option string }.

Record fortiEnvelope := mkEnvelope { Env_Status : string; HTTPStatus : Z; Env_Error : option Z; Message : string }.

Inductive ClientError :=
| errMissingProviderID | errZoneApexUnsupported | errInvalidProviderID | errUnsupportedRecordType (t : string)
| errUnknownOperation (t : string) | errOutsideZone (name zone : string)
| errTransport (context : bool) | errBodyRead (context : bool) | errBodyTooLarge | errNonObject | errInvalidEnvelope | errEnvelopeStatus (s : string)
| errEnvelopeHTTPStatus (n : Z) | errEnvelopeCode (n : Z) | errHTTPStatus (n : Z) | errDecode (e : string)
| errCancelled (e : string) | errUnauthorized (e : string)
| errListMetadata | errListNegative (n : Z) | errListSizeChanged (a b : Z) | errListMatched (a b : Z)
| errListNoRevision | errListRevision (a b : string) | errListNoID | errListRepeatedID (id : string)
| errListInconsistent (a b : Z) | errListStalled
| errOutOfFuel. (* never returned: [ListRecords_terminates] *)

(** [errors.Is] with an error of the context; [wraps] decides it for the errors of the authority check. *)
Definition wraps_context_error (wraps : string -> bool) (e : ClientError) : bool :=
  match e with
  | errCancelled _ => true
  | errTransport context | errBodyRead context => context
  | errUnauthorized reason => wraps reason
  | _ => false
  end.

Definition fortiListPageSize : Z := 1000.
Definition defaultMaxResponseBytes : Z := 32 * 2 ^ 20.
Definition ms : Z := 1000000.
Definition retryBaseDelay : Z := 100 * ms.
Definition retryMaxDelay : Z := 5000 * ms.
Definition retryAfterMaxDelay : Z := 30000 * ms.

(** ** Record translation *)

Fixpoint all_digits (s : string) : bool :=
  match s with
  | "" => true
  | String c s' => let n := nat_of_ascii c in (48 <=? n)%nat && (n <=? 57)%nat && all_digits s'
  end.

(** [providerIDPattern]. *)
Definition provider_id_ok (s : string) : bool := negb (s =s "") && all_digits s.

Definition int64_min : Z := - 2 ^ 63.
Definition int64_max : Z := 2 ^ 63 - 1.

Definition scalarRecordID (raw : Scalar) : string :=
  match raw with
  | ScalarString s => TrimSpace s
  | ScalarFloat64 q =>
      let n := Qnum (Qred q) in
      if Pos.eqb (Qden (Qred q)) 1 && (int64_min <=? n) && (n <=? int64_max) then FormatInt n else ""
  | ScalarInt n => FormatInt n
  | ScalarUint64 n => FormatInt n
  | ScalarNumber (Some n) => FormatInt n
  | ScalarNumber None | ScalarNil | ScalarOther => ""
  end.

Definition recordID (record : fortiRecord) : string :=
  if negb (scalarRecordID (FR_MKey record) =s "") then scalarRecordID (FR_MKey record)
  else scalarRecordID (FR_ID record).

Definition appendIfNotEmpty (values : list string) (value : string) : list string :=
  if TrimSpace value =s "" then values else values ++ [value].

Definition qualifiedHostname (hostname zone : string) : string :=
  let hostname := NormalizeDNSName hostname in
  if hostname =s "" then "" else hostname +:+ "." +:+ NormalizeDNSName zone.

Definition qualifiedCanonicalName (name zone : string) : string :=
  let name := TrimSpace name in
  if name =s "" then ""
  else if HasSuffix name "." then NormalizeDNSName name
  else qualifiedHostname name zone.

Definition toEndpoint (r : fortiRecord) (zone : string) : Endpoint :=
  let recordType := ToUpper (FR_Type r) in
  let targets :=
    if recordType =s RecordA then appendIfNotEmpty [] (FR_IP r)
    else if recordType =s RecordAAAA then appendIfNotEmpty [] (FR_IPv6 r)
    else if recordType =s RecordCNAME then appendIfNotEmpty [] (qualifiedCanonicalName (FR_CanonicalName r) zone)
    else appendIfNotEmpty (appendIfNotEmpty (appendIfNotEmpty [] (FR_IP r)) (FR_IPv6 r)) (FR_CanonicalName r) in
  mkEndpoint (qualifiedHostname (FR_Hostname r) zone) recordType targets (FR_TTL r) zone "" zeroSourceRef (recordID r)
    (EqualFold (FR_Status r) "disable" || EqualFold (FR_Status r) "disabled").

Definition relativeHostname (name zone : string) : result ClientError string :=
  let name := NormalizeDNSName name in
  let zone := NormalizeDNSName zone in
  if name =s zone then Err errZoneApexUnsupported
  else match CutSuffix name ("." +:+ zone) with
       | None => Err (errOutsideZone name zone)
       | Some relative => if relative =s "" then Err (errOutsideZone name zone) else Ok relative
       end.

Definition endpointToRecord (endpoint : Endpoint) (zone : string) : result ClientError fortiRecord :=
  let endpoint := Normalize endpoint in
  if negb ((RecordType endpoint =s RecordA) || (RecordType endpoint =s RecordAAAA)
           || (RecordType endpoint =s RecordCNAME)) then Err (errUnsupportedRecordType (RecordType endpoint))
  else
    let? hostname := relativeHostname (DNSName endpoint) zone in
    let status := if Disabled endpoint then "disable" else "enable" in
    let rec ip ip6 cname :=
      mkFortiRecord ScalarNil ScalarNil hostname (RecordType endpoint) ip ip6 cname (TTL endpoint) status in
    Ok (match Targets endpoint with
        | [] => rec "" "" ""
        | t :: _ =>
            if RecordType endpoint =s RecordAAAA then rec "" t ""
            else if RecordType endpoint =s RecordCNAME then rec "" "" (NormalizeDNSName t +:+ ".")
            else rec t "" ""
        end).

Definition isCleanupOperation (t : string) : bool := (t =s OperationDelete) || (t =s OperationDeactivate).
Definition isCleanupPrerequisite (t : string) : bool :=
  (t =s OperationCreate) || (t =s OperationUpdate) || (t =s OperationReplace).

Definition currentProviderID (operation : Operation) : result ClientError string :=
  let id := TrimSpace (ProviderID (Current operation)) in
  if id =s "" then Err errMissingProviderID
  else if negb (provider_id_ok id) then Err errInvalidProviderID
  else Ok id.

(** ** Requests *)

Inductive Method := MethodGet | MethodPost | MethodPut | MethodDelete.

#[export] Instance Method_eq_dec : EqDecision Method.
Proof. solve_decision. Defined.

(** [url.PathEscape]: unreserved bytes and [$&+=:@] stay, the rest is %XX. *)
Definition path_safe (c : ascii) : bool :=
  let n := nat_of_ascii c in
  ((48 <=? n) && (n <=? 57) || (65 <=? n) && (n <=? 90) || (97 <=? n) && (n <=? 122))%nat
  || existsb (Ascii.eqb c) ["-"; "_"; "."; "~"; "$"; "&"; "+"; "="; ":"; "@"]%char.

Definition hex_upper (n : nat) : ascii := ascii_of_nat (if (n <? 10)%nat then 48 + n else 55 + n)%nat.

Fixpoint PathEscape (s : string) : string :=
  match s with
  | "" => ""
  | String c s' =>
      let n := nat_of_ascii c in
      if path_safe c then String c (PathEscape s')
      else String "%" (String (hex_upper (n / 16)) (String (hex_upper (n mod 16)) (PathEscape s')))
  end.

Definition recordsPath (zone recordID : string) : string :=
  let base := "/api/v2/cmdb/system/dns-database/" +:+ PathEscape zone +:+ "/dns-entry" in
  if recordID =s "" then base else base +:+ "/" +:+ PathEscape recordID.

Record Request := mkRequest {
  Req_Method : Method; Req_Path : string; Req_VDOM : string; Req_Query : option (Z * Z); Req_Body : option fortiRecord }.

(** What one attempt yields: no response, a response whose body cannot be read,
    or a status with its body and Retry-After header. *)
(** Whether a failure wraps an error of the context is part of it. *)
Inductive HttpResult := TransportFailure (context : bool) | BodyFailure (context : bool) | HttpResponse (status : Z) (raw retryAfter : string).

Record ClientConfig := mkClientConfig { C_Zone : string; C_VDOM : string; C_Retries : Z }.

Section client.
Context {W : Type}.

(** The device, the clock and the authority check. *)
Record Device := mkDevice {
  Do : W -> Request -> W * HttpResult;
  sleep : W -> Z -> W * option string;
  jitterDelay : W -> Z -> W * Z;                 (* time.Duration(jitter() * float64(ceiling)) *)
  parseTime : W -> string -> option Z;           (* http.ParseTime(value).Sub(now) *)
  ctxError : W -> W * option string;             (* ctx.Err(); what goes on beside may cancel before it is read *)
  beforeOperation : W -> W * option string;      (* plan.CheckBeforeOperation *)
  unmarshalEnvelope : string -> option fortiEnvelope;
  unmarshalList : string -> result string fortiResponse
}.

Context (dev : Device) (cfg : ClientConfig).

Definition newRequest (m : Method) (path : string) (query : option (Z * Z)) (body : option fortiRecord) : Request :=
  mkRequest m path (C_VDOM cfg) query body.

Definition first_is_brace (s : string) : bool := match s with String c _ => Ascii.eqb c "{" | "" => false end.

Definition envelopeRetryable (raw : string) : bool :=
  match unmarshalEnvelope dev raw with
  | None => false
  | Some env => (HTTPStatus env =? 429) || (500 <=? HTTPStatus env)
  end.

Definition checkEnvelope (m : Method) (raw : string) : option ClientError :=
  let trimmed := TrimSpace raw in
  if trimmed =s "" then None
  else
    let mutation := negb (bool_decide (m = MethodGet)) in
    if mutation && negb (first_is_brace trimmed) then Some errNonObject
    else match unmarshalEnvelope dev raw with
         | None => if mutation then Some errInvalidEnvelope else None
         | Some env =>
             if negb (Env_Status env =s "") && negb (EqualFold (Env_Status env) "success") then
               Some (errEnvelopeStatus (Env_Status env))
             else if negb (HTTPStatus env =? 0) && ((HTTPStatus env <? 200) || (300 <=? HTTPStatus env)) then
               Some (errEnvelopeHTTPStatus (HTTPStatus env))
             else match Env_Error env with
                  | Some code => if negb (code =? 0) then Some (errEnvelopeCode code) else None
                  | None => None
                  end
         end.

(** *** Delays *)

Fixpoint retry_ceiling (n : nat) (ceiling : Z) : Z :=
  match n with
  | O => ceiling
  | S n => if ceiling <? retryMaxDelay then retry_ceiling n (ceiling * 2) else ceiling
  end.

Definition retryDelay (w : W) (attempt : nat) (retryAfter : Z) : W * Z :=
  let ceiling := retry_ceiling (attempt - 1) retryBaseDelay in
  let ceiling := if retryMaxDelay <? ceiling then retryMaxDelay else ceiling in
  let '(w, delay) := jitterDelay dev w ceiling in
  (w, if delay <? retryAfter then retryAfter else delay).

Definition strip_sign (s : string) : bool * string :=
  match s with
  | String c s' => if Ascii.eqb c "-" then (true, s') else if Ascii.eqb c "+" then (false, s') else (false, s)
  | "" => (false, "")
  end.

(** [strconv.ParseInt(value, 10, 64)]. *)
Definition ParseInt (s : string) : option Z :=
  let '(neg, digits) := strip_sign s in
  if provider_id_ok digits then
    let n := decode_from 0 digits in
    let n := if neg : bool then - n else n in
    if (int64_min <=? n) && (n <=? int64_max) then Some n else None
  else None.

Definition parseRetryAfter (w : W) (value : string) : Z :=
  let value := TrimSpace value in
  let clamp delay := if delay <=? 0 then 0 else if retryAfterMaxDelay <? delay then retryAfterMaxDelay else delay in
  if value =s "" then 0
  else match ParseInt value with
       | Some seconds =>
           if seconds <=? 0 then 0
           else if 30 <? seconds then retryAfterMaxDelay
           else clamp (seconds * 1000 * ms)
       | None => clamp (default 0 (parseTime dev w value))
       end.

(** *** [doJSON]: one attempt, then the retry loop *)

Inductive Attempt := AttemptDone (raw : string) | AttemptFail (e : ClientError) | AttemptRetry (e : ClientError) (retryAfter : Z).

Definition attempt_once (w : W) (req : Request) : W * Attempt :=
  let retryable := negb (bool_decide (Req_Method req = MethodPost)) in
  match Do dev w req with
  | (w, TransportFailure c) => (w, if negb retryable then AttemptFail (errTransport c) else AttemptRetry (errTransport c) 0)
  | (w, BodyFailure c) => (w, if negb retryable then AttemptFail (errBodyRead c) else AttemptRetry (errBodyRead c) 0)
  | (w, HttpResponse status raw header) =>
      if defaultMaxResponseBytes <? Z.of_nat (String.length raw) then (w, AttemptFail errBodyTooLarge)
      else if (200 <=? status) && (status <? 300) then
        match checkEnvelope (Req_Method req) raw with
        | None => (w, AttemptDone raw)
        | Some e => (w, if negb retryable || negb (envelopeRetryable raw) then AttemptFail e else AttemptRetry e 0)
        end
      else
        let retryAfter := if (status =? 429) || (status =? 503) then parseRetryAfter w header else 0 in
        (w, if negb retryable || (negb (status =? 429) && (status <? 500)) then AttemptFail (errHTTPStatus status)
            else AttemptRetry (errHTTPStatus status) retryAfter)
  end.

(** [attemptsLeft] attempts remain, the next one is number [attempt]. *)
Fixpoint do_loop (attemptsLeft attempt : nat) (last : ClientError) (w : W) (req : Request) : W * result ClientError string :=
  match attemptsLeft with
  | O => (w, Err last)
  | S attemptsLeft =>
      match attempt_once w req with
      | (w, AttemptDone raw) => (w, Ok raw)
      | (w, AttemptFail e) => (w, Err e)
      | (w, AttemptRetry e retryAfter) =>
          match attemptsLeft with
          | O => (w, Err e)
          | S _ =>
              let '(w, d) := retryDelay w attempt retryAfter in
              match sleep dev w d with
              | (w, Some err) => (w, Err (errCancelled err))
              | (w, None) => do_loop attemptsLeft (S attempt) e w req
              end
          end
      end
  end.

(** With no attempt at all the code returns its nil [lastErr]: success. *)
Definition doJSON (w : W) (req : Request) : W * result ClientError string :=
  match Z.to_nat (C_Retries cfg + 1) with
  | O => (w, Ok "")
  | attempts => do_loop attempts 1 (errTransport false) w req
  end.

(** *** [ListRecords] *)

Record ListState := mkListState {
  collected : list fortiRecord; seenProviderIDs : gset string; start : Z; total : Z; list_revision : string; pages : nat }.

Fixpoint collect_records (results : list fortiRecord) (seen : gset string) (acc : list fortiRecord)
    : result ClientError (gset string * list fortiRecord) :=
  match results with
  | [] => Ok (seen, acc)
  | record :: rest =>
      let providerID := TrimSpace (recordID record) in
      if providerID =s "" then Err errListNoID
      else if negb (provider_id_ok providerID) then Err errInvalidProviderID
      else if bool_decide (providerID ∈ seen) then Err (errListRepeatedID providerID)
      else collect_records rest ({[providerID]} ∪ seen) (acc ++ [record])
  end.

(** The checks of one page; the flag says whether the listing is complete. *)
Definition list_page (st : ListState) (response : fortiResponse) : result ClientError (ListState * bool) :=
  match Size response with
  | None => Err errListMetadata
  | Some size =>
      if size <? 0 then Err (errListNegative size)
      else if negb (total st =? -1) && negb (size =? total st) then Err (errListSizeChanged (total st) size)
      else
        let tot := if total st =? -1 then size else total st in
        let count := Z.of_nat (length (Results response)) in
        let matched := default count (MatchedCount response) in
        if negb (matched =? count) then Err (errListMatched matched count)
        else
          let responseRevision := TrimSpace (default "" (Resp_Revision response)) in
          let? revision :=
            (if (pages st =? 0)%nat then Ok responseRevision
             else if (responseRevision =s "") || (list_revision st =s "") then Err errListNoRevision
             else if negb (responseRevision =s list_revision st) then
               Err (errListRevision (list_revision st) responseRevision)
             else Ok (list_revision st)) in
          let? c := collect_records (Results response) (seenProviderIDs st) (collected st) in
          let '(seen, records) := c in
          let len := Z.of_nat (length records) in
          if tot <? len then Err (errListInconsistent len tot)
          else
            let st' := mkListState records seen (start st) tot revision (S (pages st)) in
            if len =? tot then Ok (st', true)
            else if count =? 0 then Err errListStalled
            else Ok (mkListState records seen (start st + count) tot revision (S (pages st)), false)
  end.

Definition fetch_page (w : W) (st : ListState) : W * result ClientError fortiResponse :=
  let req := newRequest MethodGet (recordsPath (C_Zone cfg) "") (Some (start st, fortiListPageSize)) None in
  match doJSON w req with
  | (w, Err e) => (w, Err e)
  | (w, Ok raw) =>
      (* an empty body leaves the zero response *)
      if TrimSpace raw =s "" then (w, Ok (mkFortiResponse [] None None None))
      else match unmarshalList dev raw with
           | Ok r => (w, Ok r)
           | Err e => (w, Err (errDecode e))
           end
  end.

Fixpoint list_loop (fuel : nat) (w : W) (st : ListState) : W * result ClientError (list fortiRecord) :=
  match fuel with
  | O => (w, Err errOutOfFuel)
  | S fuel =>
      match fetch_page w st with
      | (w, Err e) => (w, Err e)
      | (w, Ok response) =>
          match list_page st response with
          | Err e => (w, Err e)
          | Ok (st, true) => (w, Ok (collected st))
          | Ok (st, false) => list_loop fuel w st
          end
      end
  end.

Definition empty_list : ListState := mkListState [] ∅ 0 (-1) "" 0.

Definition visible_endpoints (records : list fortiRecord) : list Endpoint :=
  Normalize <$> filter (fun e => (negb (DNSName e =s "") && negb (RecordType e =s "")) = true)
                  ((fun r => toEndpoint r (C_Zone cfg)) <$> records).

(** After the first page the size is known and every further page adds a
    record, so [total] further pages are enough. *)
Definition ListRecords (w : W) : W * result ClientError (list Endpoint) :=
  let finish (r : W * result ClientError (list fortiRecord)) :=
    match r with (w, Ok records) => (w, Ok (visible_endpoints records)) | (w, Err e) => (w, Err e) end in
  match fetch_page w empty_list with
  | (w, Err e) => (w, Err e)
  | (w, Ok response) =>
      match list_page empty_list response with
      | Err e => (w, Err e)
      | Ok (st, true) => finish (w, Ok (collected st))
      | Ok (st, false) => finish (list_loop (S (Z.to_nat (total st))) w st)
      end
  end.

(** *** [recordsRevision] *)

Definition json_snapshot_record (e : Endpoint) : json :=
  let e := Normalize e in
  JObject [("providerID", JString (ProviderID e)); ("zone", JString (Zone e)); ("dnsName", JString (DNSName e));
           ("recordType", JString (RecordType e));
           ("targets", match Targets e with [] => JNull | ts => JArray (JString <$> ts) end);
           ("ttl", JInt (TTL e)); ("disabled", JBool (Disabled e))].

Definition recordsRevision (records : list Endpoint) : string :=
  let encoded := sort_strings ((fun e => Marshal (json_snapshot_record e)) <$> records) in
  "sha256:" +:+ hex_sha256 ("[" +:+ Join encoded "," +:+ "]").

Definition ListRecordsWithRevision (w : W) : W * result ClientError (list Endpoint * string) :=
  match ListRecords w with
  | (w, Err e) => (w, Err e)
  | (w, Ok records) => (w, Ok (records, recordsRevision records))
  end.

(** *** Applying operations *)

Definition send (w : W) (m : Method) (path : string) (body : option fortiRecord) : W * option ClientError :=
  match doJSON w (newRequest m path None body) with
  | (w, Ok _) => (w, None)
  | (w, Err e) => (w, Some e)
  end.

Definition applyOne (w : W) (operation : Operation) : W * option ClientError :=
  if OpType operation =s OperationCreate then
    match endpointToRecord (Desired operation) (C_Zone cfg) with
    | Err e => (w, Some e)
    | Ok body => send w MethodPost (recordsPath (C_Zone cfg) "") (Some body)
    end
  else if (OpType operation =s OperationUpdate) || (OpType operation =s OperationDeactivate)
          || (OpType operation =s OperationReplace) then
    match currentProviderID operation with
    | Err e => (w, Some e)
    | Ok id =>
        match endpointToRecord (Desired operation) (C_Zone cfg) with
        | Err e => (w, Some e)
        | Ok body => send w MethodPut (recordsPath (C_Zone cfg) id) (Some body)
        end
    end
  else if OpType operation =s OperationDelete then
    match currentProviderID operation with
    | Err e => (w, Some e)
    | Ok id => send w MethodDelete (recordsPath (C_Zone cfg) id) None
    end
  else (w, Some (errUnknownOperation (OpType operation))).

Record ApplyState := mkApplyState {
  A_outcomes : list OperationOutcome;
  errs : list ClientError;
  failedPrerequisiteGroups : gset string
}.

Definition recordOutcome (st : ApplyState) (operation : Operation) (r : ApplyOutcome) (reason : string) : ApplyState :=
  mkApplyState (A_outcomes st ++ [mkOutcome (SO_ID (SanitizeOperation operation)) r reason]) (errs st)
    (failedPrerequisiteGroups st).

(** The early exit of the loop: the rest is blocked, and the error only
    surfaces when no operation failed before. *)
Definition stop_apply (st : ApplyState) (remaining : list Operation) (e : ClientError) (reason : string) : ApplyState :=
  let st := match errs st with [] => mkApplyState (A_outcomes st) [e] (failedPrerequisiteGroups st) | _ => st end in
  foldl (fun st op => recordOutcome st op ApplyBlocked reason) st remaining.

Fixpoint apply_loop (dryRun : bool) (operations : list Operation) (st : ApplyState) (w : W) : W * ApplyState :=
  match operations with
  | [] => (w, st)
  | operation :: rest =>
      match ctxError dev w with
      | (w, Some err) => (w, stop_apply st operations (errCancelled err) "context-canceled")
      | (w, None) =>
          if OpType operation =s OperationConflict then
            apply_loop dryRun rest (recordOutcome st operation ApplyBlocked "planning-conflict") w
          else if dryRun then apply_loop dryRun rest (recordOutcome st operation ApplyBlocked "dry-run") w
          else
            match beforeOperation dev w with
            | (w, Some err) => (w, stop_apply st operations (errUnauthorized err) "authorization-revoked")
            | (w, None) =>
                if isCleanupOperation (OpType operation)
                   && bool_decide (MutationGroupKey (Current operation) ∈ failedPrerequisiteGroups st) then
                  apply_loop dryRun rest (recordOutcome st operation ApplyBlocked "prerequisite-failed") w
                else
                  match applyOne w operation with
                  | (w, Some e) =>
                      let groups := if isCleanupPrerequisite (OpType operation)
                                    then {[MutationGroupKey (Desired operation)]} ∪ failedPrerequisiteGroups st
                                    else failedPrerequisiteGroups st in
                      let st := mkApplyState (A_outcomes st) (errs st ++ [e]) groups in
                      apply_loop dryRun rest (recordOutcome st operation ApplyFailed "provider-request-failed") w
                  | (w, None) => apply_loop dryRun rest (recordOutcome st operation ApplySucceeded "") w
                  end
            end
      end
  end.

Definition ApplyWithResults (w : W) (operations : list Operation) (dryRun : bool)
    : W * (list OperationOutcome * list ClientError) :=
  let '(w, st) := apply_loop dryRun operations (mkApplyState [] [] ∅) w in (w, (A_outcomes st, errs st)).

Definition Apply (w : W) (operations : list Operation) (dryRun : bool) : W * list ClientError :=
  let '(w, (_, es)) := ApplyWithResults w operations dryRun in (w, es).
End client.
Arguments Device W : clear implicits.
