(* ===== verification/ClientLaws.v ===== *)
(** * Properties of the FortiGate client *)
From Stdlib Require Import String Ascii ZArith Lia.
From S2P Require Import Prelude GoStrings NetIP GoEncoding Endpoint Plan Document Executor Client.
Open Scope string_scope.
Open Scope list_scope.
Open Scope Z_scope.
Open Scope go_scope.

(** ** Translating a record there and back *)

Lemma trim_left_length s : (String.length (trim_left s) <= String.length s)%nat.
Proof. induction s as [|c s IH]; simpl; [done|]. destruct (is_space c); simpl; lia. Qed.

(** A string that [trim_left] keeps does not start with a blank. *)
Lemma trim_left_head c s : trim_left (String c s) = String c s -> is_space c = false.
Proof.
  simpl. destruct (is_space c); [|done]. intros E. apply (f_equal String.length) in E. simpl in E.
  pose proof (trim_left_length s). lia.
Qed.

Lemma trim_left_extend a b : trim_left a = a -> a <> "" -> trim_left (a +:+ b) = a +:+ b.
Proof. destruct a as [|c a]; [done|]. intros E _. simpl. by rewrite (trim_left_head c a E). Qed.

Lemma trim_left_prefix a b : trim_left (a +:+ b) = a +:+ b -> a <> "" -> trim_left a = a.
Proof. destruct a as [|c a]; [done|]. intros E _. simpl in *. by rewrite (trim_left_head c (a +:+ b) E). Qed.

Lemma trim_right_dot s : trim_right (s +:+ ".") = s +:+ ".".
Proof. induction s as [|c s IH]; simpl; [done|]. rewrite IH. by destruct (s +:+ ".") eqn:E; [destruct s|]. Qed.

Lemma TrimSpace_left s : trim_left (TrimSpace s) = TrimSpace s.
Proof. unfold TrimSpace. by rewrite trim_left_right_comm, trim_left_idem. Qed.

Lemma NormalizeDNSName_left n : trim_left (NormalizeDNSName n) = NormalizeDNSName n.
Proof.
  unfold NormalizeDNSName, TrimSuffix. destruct (CutSuffix (ToLower (TrimSpace n)) ".") as [p|] eqn:E; simpl.
  - apply CutSuffix_Some in E. destruct (decide (p = "")) as [->|Hp]; [done|].
    apply (trim_left_prefix p "."); [|done]. rewrite <- E. rewrite <- TrimSpace_ToLower. apply TrimSpace_left.
  - rewrite <- TrimSpace_ToLower. apply TrimSpace_left.
Qed.

Lemma TrimSpace_absolute n : NormalizeDNSName n <> "" ->
  TrimSpace (NormalizeDNSName n +:+ ".") = NormalizeDNSName n +:+ ".".
Proof.
  intros Hne. unfold TrimSpace. rewrite trim_left_extend; [apply trim_right_dot|apply NormalizeDNSName_left|done].
Qed.

Lemma NormalizeDNSName_absolute n : NormalizeDNSName n <> "" ->
  NormalizeDNSName (NormalizeDNSName n +:+ ".") = NormalizeDNSName n.
Proof.
  intros Hne. unfold NormalizeDNSName at 1. rewrite TrimSpace_absolute by done.
  unfold ToLower. rewrite str_map_app. fold (ToLower (NormalizeDNSName n)).
  rewrite NormalizeDNSName_lower. apply (TrimSuffix_app (NormalizeDNSName n) ".").
Qed.

(** A CNAME target written with a trailing dot is read back as it was. *)
Lemma qualifiedCanonicalName_absolute t zone : NormalizeDNSName t <> "" ->
  qualifiedCanonicalName (NormalizeDNSName t +:+ ".") zone = NormalizeDNSName t.
Proof.
  intros Hne. unfold qualifiedCanonicalName. rewrite TrimSpace_absolute by done.
  assert (Hn : (NormalizeDNSName t +:+ "." =s "") = false) by (bools; by destruct (NormalizeDNSName t)).
  rewrite Hn, HasSuffix_app. by apply NormalizeDNSName_absolute.
Qed.

Lemma relativeHostname_ok name zone rel : relativeHostname name zone = Ok rel ->
  NormalizeDNSName name = rel +:+ "." +:+ NormalizeDNSName zone /\ rel <> "".
Proof.
  unfold relativeHostname. cbv zeta. destruct (_ =s _); [done|].
  destruct (CutSuffix _ _) as [p|] eqn:E; [|done]. destruct (p =s "") eqn:Ep; [done|]. intros [= <-]. bools.
  by apply CutSuffix_Some in E.
Qed.

Lemma qualifiedHostname_relative name zone rel : relativeHostname name zone = Ok rel -> canonical_name rel ->
  qualifiedHostname rel zone = NormalizeDNSName name.
Proof.
  intros Hr Hc. apply relativeHostname_ok in Hr as [-> Hne]. unfold qualifiedHostname.
  unfold canonical_name in Hc. rewrite Hc. apply eqb_neq_iff in Hne. by rewrite Hne.
Qed.

Lemma status_disabled (d : bool) :
  (EqualFold (if d then "disable" else "enable") "disable" || EqualFold (if d then "disable" else "enable") "disabled") = d.
Proof. by destruct d. Qed.

Definition with_record_id (id : string) (r : fortiRecord) : fortiRecord :=
  mkFortiRecord (FR_ID r) (ScalarString id) (FR_Hostname r) (FR_Type r) (FR_IP r) (FR_IPv6 r) (FR_CanonicalName r)
    (FR_TTL r) (FR_Status r).

(** Evaluates the comparisons between the three record types. *)
Ltac eval_types :=
  repeat match goal with
  | |- context [String.eqb ?a ?b] =>
      lazymatch a with RecordA => idtac | RecordAAAA => idtac | RecordCNAME => idtac | ToUpper RecordA => idtac
                     | ToUpper RecordAAAA => idtac | ToUpper RecordCNAME => idtac end;
      let v := eval vm_compute in (String.eqb a b) in change (String.eqb a b) with v
  end.

(** The row that the device stores for [r], read back. *)
Lemma record_readback e zone t r id : endpointToRecord e zone = Ok r -> Targets (Normalize e) = [t] ->
  TrimSpace t <> "" -> canonical_name (FR_Hostname r) ->
  (RecordType (Normalize e) = RecordCNAME -> canonical_name t) ->
  let row := toEndpoint (with_record_id id r) zone in
  DNSName row = NormalizeDNSName (DNSName (Normalize e)) /\ RecordType row = RecordType (Normalize e) /\
  Targets row = [t] /\ TTL row = TTL e /\ Disabled row = Disabled e /\ Zone row = zone.
Proof.
  unfold endpointToRecord. cbv zeta.
  assert (Ettl : TTL (Normalize e) = TTL e /\ Disabled (Normalize e) = Disabled e) by done. revert Ettl.
  generalize (Normalize e). intros n [<- <-] Hr Ht Hne Hcan Hcn. rewrite Ht in Hr.
  destruct (negb _) eqn:Ety; [done|]. bools.
  destruct (relativeHostname (DNSName n) zone) as [rel|] eqn:Erel; [|done]. cbn [rbind] in Hr.
  assert (Hty : RecordType n = RecordA \/ RecordType n = RecordAAAA \/ RecordType n = RecordCNAME).
  { apply orb_true_iff in Ety as [Ety|Ety]; [apply orb_true_iff in Ety as [Ety|Ety]|]; bools; auto. }
  apply eqb_neq_iff in Hne. injection Hr as <-.
  assert (Hrel : canonical_name rel) by (revert Hcan; by repeat case_match).
  pose proof (qualifiedHostname_relative _ _ _ Erel Hrel) as Hq. unfold toEndpoint, with_record_id. clear Hcan.
  destruct Hty as [Ey|[Ey|Ey]]; rewrite Ey in *; eval_types;
    cbn -[NormalizeDNSName qualifiedHostname TrimSpace EqualFold qualifiedCanonicalName String.eqb]; eval_types;
    cbn -[NormalizeDNSName qualifiedHostname TrimSpace EqualFold qualifiedCanonicalName String.eqb];
    unfold appendIfNotEmpty; rewrite status_disabled, Hq.
  - by rewrite Hne.
  - by rewrite Hne.
  - assert (Htn : NormalizeDNSName t = t) by by apply Hcn.
    assert (Hne' : NormalizeDNSName t <> "") by (rewrite Htn; intros ->; done).
    by rewrite qualifiedCanonicalName_absolute, Htn, Hne by done.
Qed.

(** C40. A record written to the device and read back is the same record: for a
    normalized single-target endpoint inside the zone, the row the client
    decodes equals the endpoint it encoded (name, type, target, TTL, status). *)
Theorem record_roundtrip e zone t r id :
  settled e -> endpointToRecord e zone = Ok r -> Targets (Normalize e) = [t] -> TrimSpace t <> "" ->
  canonical_name (FR_Hostname r) -> (RecordType (Normalize e) = RecordCNAME -> canonical_name t) ->
  EqualRecord (toEndpoint (with_record_id id r) zone) e = true.
Proof.
  intros Hset Hr Ht Hne Hcan Hcn.
  destruct (record_readback e zone t r id Hr Ht Hne Hcan Hcn) as (E1 & E2 & E3 & E4 & E5 & _).
  pose proof (Normalize_settled e Hset) as Hidem. apply EqualRecord_spec. rewrite E4, E5. split; [|split; [|split; [done|split; [done|]]]].
  - change (NormalizeDNSName (DNSName (toEndpoint (with_record_id id r) zone)) = DNSName (Normalize e)). rewrite E1.
    change (DNSName (Normalize (Normalize (Normalize e))) = DNSName (Normalize e)). by rewrite !Hidem.
  - change (ToUpper (TrimSpace (RecordType (toEndpoint (with_record_id id r) zone))) = RecordType (Normalize e)).
    rewrite E2. apply (RecordType_Normalize e).
  - change (sort_strings (NormalizeTarget <$> Targets (toEndpoint (with_record_id id r) zone)) = Targets (Normalize e)).
    rewrite E3, <- Ht. change (Targets (Normalize (Normalize e)) = Targets (Normalize e)). by rewrite Hidem.
Qed.

(** ** How often the device is asked

    [metered dev] counts the requests of each method that reach the device. *)

Section metered.
Context {W : Type} (dev : Device W) (cfg : ClientConfig).

Definition metered : Device (W * list Method) := mkDevice
  (fun w req => let '(w', r) := Do dev w.1 req in ((w', w.2 ++ [Req_Method req]), r))
  (fun w d => let '(w', r) := sleep dev w.1 d in ((w', w.2), r))
  (fun w c => let '(w', r) := jitterDelay dev w.1 c in ((w', w.2), r))
  (fun w s => parseTime dev w.1 s)
  (fun w => let '(w', r) := ctxError dev w.1 in ((w', w.2), r))
  (fun w => let '(w', r) := beforeOperation dev w.1 in ((w', w.2), r))
  (unmarshalEnvelope dev) (unmarshalList dev).

Lemma attempt_once_metered w req w' r : attempt_once metered w req = (w', r) ->
  w'.2 = w.2 ++ [Req_Method req] /\
  (Req_Method req = MethodPost -> forall e d, r <> AttemptRetry e d).
Proof.
  unfold attempt_once. cbn [Do metered]. destruct (Do dev w.1 req) as [w1 hr]. intros E. split.
  - destruct hr as [| |status raw header]; repeat case_match; by simplify_eq.
  - intros Hp e d. rewrite bool_decide_eq_true_2 in E by done. cbn [negb orb] in E.
    destruct hr as [| |status raw header]; repeat case_match; by simplify_eq.
Qed.

(** Between one and [n] requests, all of the request's method; one for POST. *)
Lemma do_loop_metered n attempt last w req w' r : do_loop metered (S n) attempt last w req = (w', r) ->
  exists k, w'.2 = w.2 ++ repeat (Req_Method req) (S k) /\ (k <= n)%nat /\ (Req_Method req = MethodPost -> k = O).
Proof.
  revert attempt last w. induction n as [|n IH]; intros attempt last w; cbn [do_loop];
    destruct (attempt_once metered w req) as [w1 a] eqn:Ea;
    destruct (attempt_once_metered _ _ _ _ Ea) as [Hw1 Hpost].
  - intros E. exists O. destruct a; simplify_eq; cbn; auto.
  - destruct a as [raw|e|e d]; [intros [= <- <-]; exists O; cbn; split; [done|split; [lia|done]]..|].
    destruct (retryDelay metered w1 attempt d) as [w2 dl] eqn:Er.
    assert (Hw2 : w2.2 = w1.2).
    { unfold retryDelay in Er. cbn [jitterDelay metered] in Er. by destruct (jitterDelay dev w1.1 _); simplify_eq. }
    cbn [sleep metered]. destruct (sleep dev w2.1 dl) as [w3 [err|]].
    + intros [= <- <-]. exists O. cbn. rewrite Hw2, Hw1. split; [done|split; [lia|done]].
    + intros E. destruct (IH (S attempt) e (w3, w2.2) E) as (k & Hk & Hle & Hp). cbn [snd] in Hk. exists (S k).
      rewrite Hk, Hw2, Hw1, <- app_assoc. split; [done|]. split; [lia|].
      intros Hm. by destruct (Hpost Hm e d).
Qed.

Lemma doJSON_metered w req w' r : doJSON metered cfg w req = (w', r) ->
  exists k, w'.2 = w.2 ++ repeat (Req_Method req) k /\ Z.of_nat k <= Z.max 0 (C_Retries cfg + 1) /\
    (Req_Method req = MethodPost -> (k <= 1)%nat).
Proof.
  unfold doJSON. destruct (Z.to_nat (C_Retries cfg + 1)) as [|n] eqn:En; cbv iota.
  - intros [= <- <-]. exists O. rewrite app_nil_r. split; [done|]. split; lia.
  - intros E. destruct (do_loop_metered n _ _ _ _ _ _ E) as (k & Hk & Hle & Hp). exists (S k).
    split; [done|]. split; [lia|]. intros Hm. rewrite (Hp Hm). lia.
Qed.

Lemma send_metered w m path body w' r : send metered cfg w m path body = (w', r) ->
  exists k, w'.2 = w.2 ++ repeat m k /\ Z.of_nat k <= Z.max 0 (C_Retries cfg + 1) /\ (m = MethodPost -> (k <= 1)%nat).
Proof.
  unfold send. destruct (doJSON metered cfg w _) as [w1 [raw|e]] eqn:E; intros [= <- <-]; by apply doJSON_metered in E.
Qed.

(** The method that applies an operation of a type. *)
Definition method_for (t : string) : Method :=
  if t =s OperationCreate then MethodPost else if t =s OperationDelete then MethodDelete else MethodPut.

Lemma applyOne_metered w op w' err : applyOne metered cfg w op = (w', err) ->
  exists k, w'.2 = w.2 ++ repeat (method_for (OpType op)) k /\ Z.of_nat k <= Z.max 0 (C_Retries cfg + 1) /\
    (OpType op = OperationCreate -> (k <= 1)%nat).
Proof.
  assert (Hnone : forall m, exists k, w.2 = w.2 ++ repeat m k /\ Z.of_nat k <= Z.max 0 (C_Retries cfg + 1) /\
    (OpType op = OperationCreate -> (k <= 1)%nat)).
  { intros m. exists O. rewrite app_nil_r. split; [done|]. lia. }
  unfold applyOne, method_for. destruct (OpType op =s OperationCreate) eqn:E1; bools.
  { destruct (endpointToRecord _ _); [|intros [= <- <-]; apply Hnone]. intros E. apply send_metered in E as (k & ? & ? & ?). eauto. }
  destruct (OpType op =s OperationDelete) eqn:E2; bools.
  - rewrite E2 in *. cbn -[send]. destruct (currentProviderID op); [|intros [= <- <-]; apply Hnone].
    intros E. apply send_metered in E as (k & ? & ? & ?). exists k. naive_solver.
  - destruct (_ || _); [|intros [= <- <-]; apply Hnone]. destruct (currentProviderID op); [|intros [= <- <-]; apply Hnone].
    destruct (endpointToRecord _ _); [|intros [= <- <-]; apply Hnone]. intros E. apply send_metered in E as (k & ? & ? & ?).
    exists k. naive_solver.
Qed.
End metered.

(** Writes are bounded and creates are never repeated: applying one
    operation sends at most [Retries + 1] requests of the single method for its
    type, and a create -- whose row key the device assigns -- sends its POST at
    most once, whatever the device answers. *)
Theorem applyOne_requests {W} (dev : Device W) cfg w op w' ms' err :
  applyOne (metered dev) cfg (w, []) op = ((w', ms'), err) ->
  exists k, ms' = repeat (method_for (OpType op)) k /\ Z.of_nat k <= Z.max 0 (C_Retries cfg + 1) /\
    (OpType op = OperationCreate -> (k <= 1)%nat).
Proof. intros E. apply applyOne_metered in E. exact E. Qed.

(** ** The apply loop *)

Section apply.
Context {W : Type} (dev : Device W) (cfg : ClientConfig).

Definition outcome_ids (ops : list Operation) : list string := (fun op => SO_ID (SanitizeOperation op)) <$> ops.

Lemma stop_apply_outcomes st ops e reason :
  exists l, A_outcomes (stop_apply st ops e reason) = A_outcomes st ++ l /\
    OO_OperationID <$> l = outcome_ids ops /\ Forall (fun o => Result o = ApplyBlocked) l.
Proof.
  unfold stop_apply. set (st0 := match errs st with [] => _ | _ => st end).
  assert (E0 : A_outcomes st0 = A_outcomes st) by (unfold st0; by destruct (errs st)). rewrite <- E0.
  generalize st0. clear. induction ops as [|op ops IH]; intros st; cbn [foldl outcome_ids fmap].
  - exists []. by rewrite app_nil_r.
  - destruct (IH (recordOutcome st op ApplyBlocked reason)) as (l & -> & Hid & Hall). cbn [recordOutcome A_outcomes].
    eexists. rewrite <- app_assoc. split; [reflexivity|]. rewrite fmap_app. split; [cbn; by rewrite Hid|].
    by constructor.
Qed.

(** The loop appends one outcome per operation, in order. *)
Lemma apply_loop_outcomes dryRun ops : forall st w w' st', apply_loop dev cfg dryRun ops st w = (w', st') ->
  exists l, A_outcomes st' = A_outcomes st ++ l /\ OO_OperationID <$> l = outcome_ids ops.
Proof.
  induction ops as [|op ops IH]; intros st w w' st'; cbn [apply_loop].
  { intros [= <- <-]. exists []. by rewrite app_nil_r. }
  assert (Hgo : forall w0 st0 o, A_outcomes st0 = A_outcomes st ++ [o] ->
            OO_OperationID o = SO_ID (SanitizeOperation op) ->
            apply_loop dev cfg dryRun ops st0 w0 = (w', st') ->
            exists l, A_outcomes st' = A_outcomes st ++ l /\ OO_OperationID <$> l = outcome_ids (op :: ops)).
  { intros w0 st0 o E0 Eo El. apply IH in El as (l & -> & Hl). rewrite E0. exists (o :: l).
    rewrite <- app_assoc. split; [done|]. cbn. by rewrite Eo, Hl. }
  destruct (ctxError dev w) as [w0 [err|]]; [intros [= <- <-]; destruct (stop_apply_outcomes st (op :: ops) (errCancelled err) "context-canceled") as (l & ? & ? & _); eauto|].
  destruct (OpType op =s OperationConflict); [by eapply Hgo|]. destruct dryRun; [by eapply Hgo|].
  destruct (beforeOperation dev w0) as [w1 [err|]]; [intros [= <- <-]; destruct (stop_apply_outcomes st (op :: ops) (errUnauthorized err) "authorization-revoked") as (l & ? & ? & _); eauto|].
  destruct (_ && _); [by eapply Hgo|]. destruct (applyOne dev cfg w1 op) as [w2 [e|]]; by eapply Hgo.
Qed.

(** A group with a failed prerequisite stays in the set, and cleanups of it are blocked. *)
Lemma apply_loop_blocks dryRun g ops : forall st w w' st' l, g ∈ failedPrerequisiteGroups st ->
  apply_loop dev cfg dryRun ops st w = (w', st') -> A_outcomes st' = A_outcomes st ++ l ->
  forall i op o, ops !! i = Some op -> l !! i = Some o -> isCleanupOperation (OpType op) = true ->
    MutationGroupKey (Current op) = g -> Result o = ApplyBlocked.
Proof.
  induction ops as [|op ops IH]; intros st w w' st' l Hg El Eo i x o Hi Hl Hc Hx; [done|]. cbn [apply_loop] in El.
  assert (Hstop : forall e reason, stop_apply st (op :: ops) e reason = st' -> Result o = ApplyBlocked).
  { intros e reason Es. destruct (stop_apply_outcomes st (op :: ops) e reason) as (l' & El' & _ & Hall).
    rewrite Es, Eo in El'. apply app_inv_head in El' as ->. rewrite Forall_lookup in Hall. eauto. }
  assert (Hgo : forall w0 st0 o0, A_outcomes st0 = A_outcomes st ++ [o0] ->
            failedPrerequisiteGroups st ⊆ failedPrerequisiteGroups st0 ->
            (isCleanupOperation (OpType op) = true -> MutationGroupKey (Current op) = g -> Result o0 = ApplyBlocked) ->
            apply_loop dev cfg dryRun ops st0 w0 = (w', st') -> Result o = ApplyBlocked).
  { intros w0 st0 o0 E0 Hsub H0 El0. destruct (apply_loop_outcomes dryRun ops _ _ _ _ El0) as (l' & El' & _).
    assert (l = o0 :: l') as ->.
    { rewrite Eo, E0, <- app_assoc in El'. by apply app_inv_head in El'. }
    destruct i as [|i]; cbn in Hi, Hl; [simplify_eq; auto|].
    eapply (IH st0 w0 w' st' l'); eauto. }
  destruct (ctxError dev w) as [w0 [err|]]; [simplify_eq; by eapply Hstop|].
  destruct (OpType op =s OperationConflict); [eapply Hgo; try exact El; done|].
  destruct dryRun; [eapply Hgo; try exact El; done|].
  destruct (beforeOperation dev w0) as [w1 [err|]]; [simplify_eq; by eapply Hstop|].
  destruct (isCleanupOperation (OpType op) && _) eqn:Ecl; [eapply Hgo; try exact El; done|].
  assert (Hnot : isCleanupOperation (OpType op) = true -> MutationGroupKey (Current op) = g -> False).
  { intros Hop Hgk. rewrite Hop in Ecl. cbn [andb] in Ecl. rewrite Hgk in Ecl. by rewrite bool_decide_eq_true_2 in Ecl. }
  destruct (applyOne dev cfg w1 op) as [w2 [e|]]; eapply Hgo; try exact El; try done.
  - cbn. case_match; set_solver.
  - cbn. naive_solver.
  - cbn. naive_solver.
Qed.

(** A prerequisite that failed is followed by the loop with its group in the set. *)
Lemma apply_loop_failed dryRun ops : forall st w w' st' l, apply_loop dev cfg dryRun ops st w = (w', st') ->
  A_outcomes st' = A_outcomes st ++ l ->
  forall i j p c o1 o2, (i < j)%nat -> ops !! i = Some p -> ops !! j = Some c -> l !! i = Some o1 -> l !! j = Some o2 ->
    isCleanupPrerequisite (OpType p) = true -> Result o1 = ApplyFailed ->
    isCleanupOperation (OpType c) = true -> MutationGroupKey (Current c) = MutationGroupKey (Desired p) ->
    Result o2 = ApplyBlocked.
Proof.
  induction ops as [|op ops IH]; intros st w w' st' l El Eo i j p c o1 o2 Hij Hi Hj Hl1 Hl2 Hp Hf Hc Hg; [done|].
  cbn [apply_loop] in El.
  assert (Hstop : forall e reason, stop_apply st (op :: ops) e reason = st' -> Result o2 = ApplyBlocked).
  { intros e reason Es. destruct (stop_apply_outcomes st (op :: ops) e reason) as (l' & El' & _ & Hall).
    rewrite Es, Eo in El'. apply app_inv_head in El' as ->. rewrite Forall_lookup in Hall. eauto. }
  assert (Hgo : forall w0 st0 o0, A_outcomes st0 = A_outcomes st ++ [o0] ->
            (Result o0 = ApplyFailed -> isCleanupPrerequisite (OpType op) = true ->
             MutationGroupKey (Desired op) ∈ failedPrerequisiteGroups st0) ->
            apply_loop dev cfg dryRun ops st0 w0 = (w', st') -> Result o2 = ApplyBlocked).
  { intros w0 st0 o0 E0 H0 El0. destruct (apply_loop_outcomes dryRun ops _ _ _ _ El0) as (l' & El' & _).
    assert (l = o0 :: l') as ->.
    { rewrite Eo, E0, <- app_assoc in El'. by apply app_inv_head in El'. }
    destruct j as [|j]; [lia|]. destruct i as [|i]; cbn in *; simplify_eq.
    - eapply (apply_loop_blocks dryRun (MutationGroupKey (Desired p)) ops st0 w0 w' st' l'); eauto.
    - eapply (IH st0 w0 w' st' l' El0 El' i j); eauto. lia. }
  destruct (ctxError dev w) as [w0 [err|]]; [simplify_eq; by eapply Hstop|].
  destruct (OpType op =s OperationConflict); [eapply Hgo; try exact El; done|].
  destruct dryRun; [eapply Hgo; try exact El; done|].
  destruct (beforeOperation dev w0) as [w1 [err|]]; [simplify_eq; by eapply Hstop|].
  destruct (_ && _); [eapply Hgo; try exact El; done|].
  destruct (applyOne dev cfg w1 op) as [w2 [e|]]; eapply Hgo; try exact El; try done.
  cbn. intros _ ->. set_solver.
Qed.
End apply.

(** [ApplyWithResults] reports exactly one outcome per operation, in the
    order of the plan, however the batch ends. *)
Theorem apply_reports_every_operation {W} (dev : Device W) cfg w ops dryRun :
  OO_OperationID <$> (ApplyWithResults dev cfg w ops dryRun).2.1 = outcome_ids ops.
Proof.
  unfold ApplyWithResults. destruct (apply_loop dev cfg dryRun ops (mkApplyState [] [] ∅) w) as [w' st'] eqn:E.
  apply apply_loop_outcomes in E as (l & E & Hl). cbn in *. by rewrite E.
Qed.

(** C27. A cleanup never follows a failed prerequisite: when a create, update or
    replace of a DNS name failed, every later delete or deactivate of that name
    in the batch is blocked, so the old record survives. *)
Theorem failed_prerequisite_blocks_cleanup {W} (dev : Device W) cfg w ops dryRun i j p c o1 o2 :
  (i < j)%nat -> ops !! i = Some p -> ops !! j = Some c ->
  (ApplyWithResults dev cfg w ops dryRun).2.1 !! i = Some o1 ->
  (ApplyWithResults dev cfg w ops dryRun).2.1 !! j = Some o2 ->
  isCleanupPrerequisite (OpType p) = true -> Result o1 = ApplyFailed ->
  isCleanupOperation (OpType c) = true -> MutationGroupKey (Current c) = MutationGroupKey (Desired p) ->
  Result o2 = ApplyBlocked.
Proof.
  unfold ApplyWithResults. destruct (apply_loop dev cfg dryRun ops (mkApplyState [] [] ∅) w) as [w' st'] eqn:E.
  cbn [fst snd]. intros. eapply (apply_loop_failed dev cfg dryRun ops (mkApplyState [] [] ∅) w w' st' (A_outcomes st'));
    eauto.
Qed.

(** A dry run, and conflicts in any run, send nothing to the device. *)
Theorem dry_run_sends_nothing {W} (dev : Device W) cfg w ops :
  (ApplyWithResults (metered dev) cfg (w, []) ops true).1.2 = [].
Proof.
  unfold ApplyWithResults. generalize (mkApplyState [] [] ∅). revert w.
  induction ops as [|op ops IH]; intros w st; cbn [apply_loop]; [done|].
  cbn [ctxError metered]. destruct (ctxError dev (w, []).1) as [w0 [err|]]; [done|]. destruct (_ =s _); apply IH.
Qed.

(** ** Listing *)

Definition record_key (r : fortiRecord) : string := TrimSpace (recordID r).
Definition page_revision (p : fortiResponse) : string := TrimSpace (default "" (Resp_Revision p)).

Lemma collect_records_ok results : forall seen acc seen' acc',
  collect_records results seen acc = Ok (seen', acc') ->
  acc' = acc ++ results /\ (forall x, x ∈ seen' <-> x ∈ seen \/ x ∈ record_key <$> results) /\
  NoDup (record_key <$> results) /\ (forall x, x ∈ record_key <$> results -> (x ∉ seen) /\ provider_id_ok x = true).
Proof.
  induction results as [|r results IH]; intros seen acc seen' acc'; cbn [collect_records].
  { intros [= <- <-]. rewrite app_nil_r. split; [done|]. split; [set_solver|]. split; [constructor|].
    by intros ? ?%not_elem_of_nil. }
  fold (record_key r). destruct (record_key r =s "") eqn:E1; [done|]. destruct (negb (provider_id_ok _)) eqn:E2; [done|].
  case_bool_decide as E3; [done|]. intros El. apply IH in El as (-> & H1 & H2 & H3). bools.
  rewrite <- app_assoc, fmap_cons. split; [done|]. split; [|split].
  - intros x. rewrite H1, elem_of_cons, elem_of_union, elem_of_singleton. tauto.
  - constructor; [|done]. intros Hin. apply H3 in Hin as [Hin _]. set_solver.
  - intros x Hx. apply elem_of_cons in Hx as [->|Hx]; [done|]. apply H3 in Hx as [Hx ?]. set_solver.
Qed.

(** The pages accepted so far agree with each other. *)
Record list_inv (st : ListState) (pgs : list fortiResponse) : Prop := {
  li_collected : collected st = pgs ≫= Results;
  li_sizes : Forall (fun p => Size p = Some (total st)) pgs;
  li_total : (pgs = [] /\ total st = -1) \/ (pgs <> [] /\ 0 <= total st);
  li_pages : pages st = length pgs;
  li_seen : forall x, x ∈ seenProviderIDs st <-> x ∈ record_key <$> collected st;
  li_nodup : NoDup (record_key <$> collected st);
  li_ids : Forall (fun r => provider_id_ok (record_key r) = true) (collected st);
  li_revisions : Forall (fun p => page_revision p = list_revision st) pgs;
  li_paged : (2 <= length pgs)%nat -> list_revision st <> ""
}.

Lemma list_page_spec st pgs response st' b : list_inv st pgs -> list_page st response = Ok (st', b) ->
  list_inv st' (pgs ++ [response]) /\
  (b = true -> Z.of_nat (length (collected st')) = total st') /\
  (b = false -> (length (collected st) < length (collected st'))%nat /\ Z.of_nat (length (collected st')) < total st') /\
  (total st = -1 \/ total st' = total st).
Proof.
  intros [I1 I2 I3 I4 I5 I6 I7 I8 I9]. unfold list_page.
  destruct (Size response) as [size|] eqn:Es; [|done]. destruct (Z.ltb_spec size 0) as [|Hs]; [done|].
  destruct (negb _ && negb _) eqn:Et; [done|]. cbv zeta.
  set (tot := if total st =? -1 then size else total st). set (count := Z.of_nat (length (Results response))).
  destruct (negb (_ =? count)); [done|].
  assert (Htot : size = tot /\ 0 <= tot /\ (pgs = [] \/ total st = tot)).
  { unfold tot in *. destruct (Z.eqb_spec (total st) (-1)) as [E|E]; cbn [negb andb] in Et.
    - destruct I3 as [[-> _]|[_ ?]]; [auto|lia].
    - apply negb_false_iff, Z.eqb_eq in Et. destruct I3 as [[_ ?]|[_ ?]]; [lia|]. split; [done|]. split; [lia|by right]. }
  destruct Htot as (Hsize & Htot0 & Hprev). fold (page_revision response).
  destruct (if (pages st =? 0)%nat then _ else _) as [revision|] eqn:Er; [|done]. cbn [rbind].
  assert (Hrev : page_revision response = revision /\ Forall (fun p => page_revision p = revision) pgs /\
                 ((1 <= length pgs)%nat -> revision <> "")).
  { destruct (Nat.eqb_spec (pages st) 0) as [E|E].
    - injection Er as <-. rewrite I4 in E. apply nil_length_inv in E as ->. split; [done|]. split; [done|simpl; lia].
    - destruct ((page_revision response =s "") || (list_revision st =s "")) eqn:Eb; [done|].
      destruct (page_revision response =s list_revision st) eqn:En; cbn [negb] in Er; [|done].
      injection Er as <-. bools. split; [done|]. split; [done|]. by intros _. }
  destruct Hrev as (Hr1 & Hr2 & Hr3).
  destruct (collect_records _ _ _) as [[seen records]|] eqn:Ec; [|done]. cbn [rbind].
  apply collect_records_ok in Ec as (Hrec & Hseen & Hnd & Hids).
  destruct (Z.ltb_spec tot (Z.of_nat (length records))) as [|Hle]; [done|].
  assert (Hinv : forall s, list_inv (mkListState records seen s tot revision (S (pages st))) (pgs ++ [response])).
  { intros s. split; cbn.
    - rewrite bind_app, Hrec, I1. cbn. by rewrite app_nil_r.
    - apply Forall_app. split; [|by constructor; [congruence|]].
      destruct Hprev as [->|Ht]; [done|]. by rewrite <- Ht.
    - right. split; [by destruct pgs|done].
    - rewrite length_app, I4. simpl. lia.
    - intros x. rewrite Hseen, Hrec, fmap_app, elem_of_app, I5. done.
    - rewrite Hrec, fmap_app. apply NoDup_app. split; [done|]. split; [|done].
      intros x Hx Hx'. apply Hids in Hx' as [Hx' _]. by apply Hx', I5.
    - rewrite Hrec. apply Forall_app. split; [done|]. apply Forall_forall. intros r Hr.
      apply Hids. by apply list_elem_of_fmap_2.
    - apply Forall_app. split; [done|]. by constructor.
    - rewrite length_app. simpl. intros. apply Hr3. lia. }
  assert (Hlen : length records = (length (collected st) + length (Results response))%nat)
    by (by rewrite Hrec, length_app).
  assert (Hkeep : total st = -1 \/ tot = total st).
  { unfold tot. destruct (Z.eqb_spec (total st) (-1)); auto. }
  destruct (Z.eqb_spec (Z.of_nat (length records)) tot) as [El|El].
  - intros [= <- <-]. split; [apply Hinv|]. split; [done|]. split; [done|done].
  - destruct (Z.eqb_spec count 0) as [|Hc]; [done|]. intros [= <- <-]. split; [apply Hinv|]. split; [done|].
    split; [|done]. intros _. cbn. unfold count in Hc. lia.
Qed.

(** *** Only the loop itself runs out of fuel *)

Lemma collect_records_fuel results seen acc e : collect_records results seen acc = Err e -> e <> errOutOfFuel.
Proof.
  revert seen acc. induction results as [|r results IH]; intros seen acc; cbn [collect_records]; [done|].
  destruct (_ =s _); [by intros [= <-]|]. destruct (negb _); [by intros [= <-]|].
  case_bool_decide; [by intros [= <-]|]. apply IH.
Qed.

Lemma list_page_fuel st response e : list_page st response = Err e -> e <> errOutOfFuel.
Proof.
  unfold list_page. destruct (Size response); [|by intros [= <-]]. destruct (_ <? _); [by intros [= <-]|].
  destruct (_ && _); [by intros [= <-]|]. cbv zeta. destruct (negb _); [by intros [= <-]|].
  assert (Hr : forall r, (if (pages st =? 0)%nat then Ok r
      else if (r =s "") || (list_revision st =s "") then Err errListNoRevision
      else if negb (r =s list_revision st) then Err (errListRevision (list_revision st) r) else Ok (list_revision st)) = Err e ->
      e <> errOutOfFuel).
  { intros r. repeat case_match; by intros [= <-]. }
  destruct (if (pages st =? 0)%nat then _ else _) as [rv|e0] eqn:Er; cbn [rbind].
  - destruct (collect_records _ _ _) as [[sn rc]|e1] eqn:Ec; cbn [rbind].
    + repeat case_match; by intros [= <-].
    + intros [= ->]. by eapply collect_records_fuel.
  - intros [= ->]. by eapply Hr.
Qed.

Section listing.
Context {W : Type} (dev : Device W) (cfg : ClientConfig).

(** A complete listing. *)
Definition snapshot (pgs : list fortiResponse) (records : list fortiRecord) : Prop :=
  exists st, list_inv st pgs /\ collected st = records /\ Z.of_nat (length records) = total st /\ pgs <> [].

Lemma list_loop_spec fuel : forall w st pgs, list_inv st pgs -> pgs <> [] ->
  Z.of_nat (length (collected st)) < total st ->
  (total st - Z.of_nat (length (collected st)) < Z.of_nat fuel) ->
  match list_loop dev cfg fuel w st with
  | (_, Ok records) => exists more, snapshot (pgs ++ more) records
  | (_, Err e) => (forall w0 st0 w1, fetch_page dev cfg w0 st0 <> (w1, Err errOutOfFuel)) -> e <> errOutOfFuel
  end.
Proof.
  induction fuel as [|fuel IH]; intros w st pgs Hinv Hne Hlt Hf; [lia|]. cbn [list_loop].
  destruct (fetch_page dev cfg w st) as [w1 [response|e]] eqn:Ef; [|intros Hn ->; by eapply Hn].
  destruct (list_page st response) as [[st' b]|e] eqn:Ep.
  - destruct (list_page_spec _ _ _ _ _ Hinv Ep) as (Hinv' & Htrue & Hfalse & Ht).
    assert (Htot : total st' = total st).
    { destruct Ht as [Ht|Ht]; [|done]. destruct (li_total _ _ Hinv) as [[? _]|[_ ?]]; [done|lia]. }
    destruct b.
    + exists [response], st'. split; [done|]. split; [done|]. split; [by apply Htrue|by destruct pgs].
    + destruct (Hfalse eq_refl) as [Hgrow Hlt'].
      specialize (IH w1 st' (pgs ++ [response]) Hinv' ltac:(by destruct pgs) Hlt' ltac:(lia)).
      destruct (list_loop dev cfg fuel w1 st') as [w2 [records|e]]; [|done].
      destruct IH as (more & Hs). exists (response :: more). by rewrite <- app_assoc in Hs.
  - intros _. by eapply list_page_fuel.
Qed.

Lemma checkEnvelope_fuel m raw : checkEnvelope dev m raw <> Some errOutOfFuel.
Proof. unfold checkEnvelope. repeat case_match; done. Qed.

Lemma attempt_once_fuel w req w' r : attempt_once dev w req = (w', r) ->
  match r with AttemptFail e | AttemptRetry e _ => e <> errOutOfFuel | _ => True end.
Proof.
  unfold attempt_once. destruct (Do dev w req) as [w1 [| |status raw header]].
  - intros [= <- <-]. by destruct (negb _).
  - intros [= <- <-]. by destruct (negb _).
  - case_match; [by intros [= <- <-]|]. case_match.
    + pose proof (checkEnvelope_fuel (Req_Method req) raw) as Hc.
      destruct (checkEnvelope dev (Req_Method req) raw) as [e|]; intros [= <- <-]; [|done].
      assert (Hne : e <> errOutOfFuel) by congruence. by destruct (_ || _).
    + intros [= <- <-]. by destruct (_ || _).
Qed.

Lemma doJSON_fuel w req w' : doJSON dev cfg w req <> (w', Err errOutOfFuel).
Proof.
  assert (G : forall n attempt last w, last <> errOutOfFuel -> do_loop dev n attempt last w req <> (w', Err errOutOfFuel)).
  { induction n as [|n IH]; intros attempt last w0 Hl; cbn [do_loop]; [congruence|].
    destruct (attempt_once dev w0 req) as [w1 a] eqn:Ea. apply attempt_once_fuel in Ea.
    destruct a as [raw|e|e d]; [done|congruence|]. destruct n; [congruence|].
    destruct (retryDelay dev w1 attempt d) as [w2 dl]. destruct (sleep dev w2 dl) as [w3 [err|]]; [done|by apply IH]. }
  unfold doJSON. destruct (Z.to_nat (C_Retries cfg + 1)); cbv iota; [done|]. by apply G.
Qed.

Lemma fetch_page_fuel w st w' : fetch_page dev cfg w st <> (w', Err errOutOfFuel).
Proof.
  unfold fetch_page. destruct (doJSON _ _ _ _) as [w1 [raw|e]] eqn:E.
  - repeat case_match; done.
  - intros [= -> ->]. by eapply doJSON_fuel.
Qed.

Lemma empty_list_inv : list_inv empty_list [].
Proof.
  split; cbn.
  1,2,4: done.
  - by left.
  - intros x. rewrite elem_of_empty. split; [done|by intros ?%not_elem_of_nil].
  - constructor.
  - constructor.
  - constructor.
  - intros. lia.
Qed.

(** The listing as a whole. *)
Lemma ListRecords_cases w : match ListRecords dev cfg w with
  | (_, Ok eps) => exists pgs records, snapshot pgs records /\ eps = visible_endpoints cfg records
  | (_, Err e) => e <> errOutOfFuel end.
Proof.
  unfold ListRecords. destruct (fetch_page dev cfg w empty_list) as [w1 [response|e]] eqn:Ef.
  2:{ intros ->. by apply fetch_page_fuel in Ef. }
  destruct (list_page empty_list response) as [[st b]|e] eqn:Ep; [|by eapply list_page_fuel].
  destruct (list_page_spec _ _ _ _ _ empty_list_inv Ep) as (Hinv & Htrue & Hfalse & _). cbn [app] in Hinv. destruct b.
  - exists [response], (collected st). split; [|done]. exists st. split; [done|]. split; [done|]. by split; [apply Htrue|].
  - destruct (Hfalse eq_refl) as [_ Hlt].
    pose proof (list_loop_spec (S (Z.to_nat (total st))) w1 st [response] Hinv ltac:(done) Hlt ltac:(lia)) as Hl.
    destruct (list_loop dev cfg (S (Z.to_nat (total st))) w1 st) as [w2 [records|e]].
    + destruct Hl as (more & Hs). eauto.
    + apply Hl. intros. apply fetch_page_fuel.
Qed.
End listing.

(** A listing is one consistent snapshot: when [ListRecords] succeeds, its
    pages all reported the same total, the rows of the pages are exactly that
    many, their numeric provider identifiers are pairwise distinct, and with
    more than one page every page carried the same non-empty revision. *)
Theorem ListRecords_consistent {W} (dev : Device W) cfg w w' eps :
  ListRecords dev cfg w = (w', Ok eps) ->
  exists pgs tot rev, pgs <> [] /\ eps = visible_endpoints cfg (pgs ≫= Results) /\
    Forall (fun p => Size p = Some tot) pgs /\ Z.of_nat (length (pgs ≫= Results)) = tot /\
    NoDup (record_key <$> (pgs ≫= Results)) /\
    Forall (fun r => provider_id_ok (record_key r) = true) (pgs ≫= Results) /\
    Forall (fun p => page_revision p = rev) pgs /\ ((2 <= length pgs)%nat -> rev <> "").
Proof.
  intros E. pose proof (ListRecords_cases dev cfg w) as Hc. rewrite E in Hc.
  destruct Hc as (pgs & records & (st & Hinv & <- & Hlen & Hne) & ->).
  exists pgs, (total st), (list_revision st). destruct Hinv as [I1 I2 I3 I4 I5 I6 I7 I8 I9]. rewrite <- I1.
  repeat (split; [done|]). done.
Qed.

(** Listing terminates: the page loop never outlives the size the device
    reported on the first page. *)
Theorem ListRecords_terminates {W} (dev : Device W) cfg w w' : ListRecords dev cfg w <> (w', Err errOutOfFuel).
Proof. intros E. pose proof (ListRecords_cases dev cfg w) as Hc. by rewrite E in Hc. Qed.

Lemma retry_ceiling_nonneg n : forall c, 0 <= c -> 0 <= retry_ceiling n c.
Proof. induction n as [|n IH]; intros c Hc; cbn [retry_ceiling]; [done|]. destruct (_ <? _); [apply IH; lia|done]. Qed.

(** Retry waits are bounded: with jitter inside its ceiling, no wait exceeds
    thirty seconds, and a Retry-After of the device is respected up to that. *)
Theorem retryDelay_bounds {W} (dev : Device W) w attempt header w' d :
  (forall w c, 0 <= c -> 0 <= (jitterDelay dev w c).2 <= c) ->
  retryDelay dev w attempt (parseRetryAfter dev w header) = (w', d) ->
  parseRetryAfter dev w header <= d <= retryAfterMaxDelay.
Proof.
  intros Hj. assert (Hr : 0 <= parseRetryAfter dev w header <= retryAfterMaxDelay).
  { unfold parseRetryAfter, retryAfterMaxDelay, ms. cbv zeta. repeat case_match; rewrite ?Z.leb_gt, ?Z.ltb_ge in *; lia. }
  unfold retryDelay. set (ceiling := if _ : bool then _ else _).
  assert (Hc : 0 <= ceiling <= retryMaxDelay).
  { assert (0 <= retryMaxDelay) by (unfold retryMaxDelay, ms; lia).
    pose proof (retry_ceiling_nonneg (attempt - 1) retryBaseDelay ltac:(unfold retryBaseDelay, ms; lia)).
    unfold ceiling. destruct (Z.ltb_spec retryMaxDelay (retry_ceiling (attempt - 1) retryBaseDelay)); lia. }
  specialize (Hj w ceiling (proj1 Hc)). destruct (jitterDelay dev w ceiling) as [w1 j]. cbn in Hj. intros [= <- <-].
  assert (Hmax : retryMaxDelay <= retryAfterMaxDelay) by (unfold retryMaxDelay, retryAfterMaxDelay, ms; lia).
  destruct (Z.ltb_spec j (parseRetryAfter dev w header)); lia.
Qed.
