(* ===== verification/Claims.v ===== *)
(** * internal/ownership/fingerprint.go and repository.go: ownership claims

    In a shared zone a record belongs to a controller by a claim, an API object
    named after the record's identity.  The repository creates claims, binds them
    to provider rows and moves them through their phases; every write is guarded
    by the resource version that was read.  The API server behind [Store] is the
    record [ClaimStore] of operations on a world. *)
From Stdlib Require Import String Ascii ZArith Lia.
From S2P Require Import Prelude Effects GoStrings NetIP GoEncoding Endpoint.
Open Scope string_scope.
Open Scope list_scope.
Open Scope Z_scope.
Open Scope go_scope.

(** ** Data *)

Definition GroupName : string := "fortigate-external-dns.kgskr.io".
Definition ClaimFinalizer : string := GroupName +:+ "/ownership-protection".
Definition claimNamePrefix : string := "record-".

Definition OwnershipModeExclusive : string := "exclusive".
Definition OwnershipModeShared : string := "shared".

(** A phase is a string; [""] is a claim whose status was never written. *)
Definition OwnershipPhaseReserved : string := "Reserved".
Definition OwnershipPhaseConfirmed : string := "Confirmed".
Definition OwnershipPhaseOrphaned : string := "Orphaned".
Definition OwnershipPhaseConflict : string := "Conflict".

Record Identity := mkIdentity {
  Id_TargetName : string; Id_Zone : string; Id_DNSName : string; Id_RecordType : string; Id_Target : string }.

#[export] Instance Identity_eq_dec : EqDecision Identity.
Proof. solve_decision. Defined.

Record DNSRecordKey := mkRecordKey { RK_Name : string; RK_Type : string; RK_Target : string }.

#[export] Instance DNSRecordKey_eq_dec : EqDecision DNSRecordKey.
Proof. solve_decision. Defined.

Record SourceObjectReference := mkSourceObject {
  SOR_APIVersion : string; SOR_Kind : string; SOR_Namespace : string; SOR_Name : string; SOR_UID : string }.

#[export] Instance SourceObjectReference_eq_dec : EqDecision SourceObjectReference.
Proof. solve_decision. Defined.

Record ClaimSpec := mkClaimSpec {
  TargetRef : string; Cl_ProviderID : string; Cl_Record : DNSRecordKey; Cl_Fingerprint : string;
  Cl_Sources : list SourceObjectReference; Cl_ControllerID : string; AdoptionRequested : bool }.

#[export] Instance ClaimSpec_eq_dec : EqDecision ClaimSpec.
Proof. solve_decision. Defined.

Record ClaimStatus := mkClaimStatus {
  Cl_Phase : string; ObservedProviderRevision : string; LastConfirmedTime : option Z }.

#[export] Instance ClaimStatus_eq_dec : EqDecision ClaimStatus.
Proof. solve_decision. Defined.

Record Claim := mkClaim {
  Cl_Namespace : string; Cl_Name : string; Cl_UID : string; ResourceVersion : string; Finalizers : list string;
  Cl_Deleting : bool; Cl_Spec : ClaimSpec; Cl_Status : ClaimStatus }.

#[export] Instance Claim_eq_dec : EqDecision Claim.
Proof. solve_decision. Defined.

Definition phase_of (c : Claim) : string := Cl_Phase (Cl_Status c).

Definition with_spec (s : ClaimSpec) (c : Claim) : Claim :=
  mkClaim (Cl_Namespace c) (Cl_Name c) (Cl_UID c) (ResourceVersion c) (Finalizers c) (Cl_Deleting c) s (Cl_Status c).
Definition with_status (s : ClaimStatus) (c : Claim) : Claim :=
  mkClaim (Cl_Namespace c) (Cl_Name c) (Cl_UID c) (ResourceVersion c) (Finalizers c) (Cl_Deleting c) (Cl_Spec c) s.
Definition with_finalizers (l : list string) (c : Claim) : Claim :=
  mkClaim (Cl_Namespace c) (Cl_Name c) (Cl_UID c) (ResourceVersion c) l (Cl_Deleting c) (Cl_Spec c) (Cl_Status c).

Definition set_ProviderID (id : string) (s : ClaimSpec) : ClaimSpec :=
  mkClaimSpec (TargetRef s) id (Cl_Record s) (Cl_Fingerprint s) (Cl_Sources s) (Cl_ControllerID s) (AdoptionRequested s).
Definition set_Fingerprint (f : string) (s : ClaimSpec) : ClaimSpec :=
  mkClaimSpec (TargetRef s) (Cl_ProviderID s) (Cl_Record s) f (Cl_Sources s) (Cl_ControllerID s) (AdoptionRequested s).
Definition set_Sources (l : list SourceObjectReference) (s : ClaimSpec) : ClaimSpec :=
  mkClaimSpec (TargetRef s) (Cl_ProviderID s) (Cl_Record s) (Cl_Fingerprint s) l (Cl_ControllerID s) (AdoptionRequested s).

(** The errors, by the sentinel they wrap; the rest carry their text. *)
Inductive OwnershipError :=
| ErrClaimNotFound | ErrClaimConflict | ErrDuplicateClaim | ErrStaleClaim | ErrClaimNotConfirmed | ErrClaimNotDestructive
| ErrProviderSnapshot | ErrProviderDrift | ErrProviderConflict | ErrAdoptionApproval
| ErrRequest (reason : string) | ErrClaimAPI (e : APIError) | ErrProvider (context : bool).

(** ** fingerprint.go *)

Definition IdentityFor (targetName : string) (endpoint : Endpoint) : result OwnershipError Identity :=
  let endpoint := Normalize endpoint in
  match Targets endpoint with
  | [target] =>
      let targetName := ToLower (TrimSpace targetName) in
      if target =s "" then Err (ErrRequest "ownership identity requires exactly one non-empty record target")
      else if targetName =s "" then Err (ErrRequest "ownership identity requires a target name")
      else if (Zone endpoint =s "") || (DNSName endpoint =s "") then
        Err (ErrRequest "ownership identity requires a zone and DNS name")
      else if (RecordType endpoint =s RecordA) || (RecordType endpoint =s RecordAAAA) || (RecordType endpoint =s RecordCNAME) then
        Ok (mkIdentity targetName (Zone endpoint) (DNSName endpoint) (RecordType endpoint) target)
      else Err (ErrRequest "ownership identity does not support record type")
  | _ => Err (ErrRequest "ownership identity requires exactly one non-empty record target")
  end.

Definition json_identity (i : Identity) : json :=
  JObject [("targetName", JString (Id_TargetName i)); ("zone", JString (Id_Zone i)); ("dnsName", JString (Id_DNSName i));
           ("recordType", JString (Id_RecordType i)); ("target", JString (Id_Target i))].

Definition str_prefix (n : nat) (s : string) : string := String.substring 0 n s.

Definition ClaimName (identity : Identity) : string :=
  claimNamePrefix +:+ str_prefix 56 (hex_sha256 (Marshal (json_identity identity))).

(** The payload of a fingerprint, before hashing. *)
Definition json_fingerprint (i : Identity) (ttl : Z) (status : string) : json :=
  JObject [("identity", json_identity i); ("ttl", JInt ttl); ("status", JString status)].

Definition Fingerprint (targetName : string) (endpoint : Endpoint) : result OwnershipError string :=
  let? identity := IdentityFor targetName endpoint in
  Ok (hex_sha256 (Marshal (json_fingerprint identity (TTL endpoint) (if Disabled endpoint then "disable" else "enable")))).

Definition RecordKey (identity : Identity) : DNSRecordKey :=
  mkRecordKey (Id_DNSName identity) (Id_RecordType identity) (Id_Target identity).

Definition ClaimMatches (claim : Claim) (targetName : string) (endpoint : Endpoint) : bool :=
  match IdentityFor targetName endpoint, Fingerprint targetName endpoint with
  | Ok identity, Ok fingerprint =>
      (Cl_Name claim =s ClaimName identity) && (TargetRef (Cl_Spec claim) =s Id_TargetName identity)
      && bool_decide (Cl_Record (Cl_Spec claim) = RecordKey identity) && (Cl_Fingerprint (Cl_Spec claim) =s fingerprint)
  | _, _ => false
  end.

(** ** Provider snapshots (manager.go) *)

Record Snapshot := mkSnapshot { Revision : string; Stable : bool; Records : list Endpoint }.

Definition validateSnapshot (snapshot : Snapshot) : result OwnershipError unit :=
  if negb (Stable snapshot) || (TrimSpace (Revision snapshot) =s "") then Err ErrProviderSnapshot else Ok tt.

Definition providerRecordsByID (records : list Endpoint) (providerID : string) : list Endpoint :=
  filter (fun r => TrimSpace (ProviderID r) = TrimSpace providerID) records.

Record Inspection := mkInspection { exact_rows : list Endpoint; divergent_rows : list Endpoint; providerIDReused : bool }.

(** One record of [inspectClaimRecords]. *)
Definition inspect_claim_step (records : list Endpoint) (targetName : string) (claim : Claim) (st : Inspection) (record : Endpoint)
    : Inspection :=
  let id := Cl_ProviderID (Cl_Spec claim) in
  let reused := if negb (id =s "") && (ProviderID record =s id)
                then negb (length (providerRecordsByID records id) =? 1)%nat else providerIDReused st in
  match IdentityFor targetName record, Fingerprint targetName record with
  | Ok identity, Ok fingerprint =>
      if negb (bool_decide (RecordKey identity = Cl_Record (Cl_Spec claim))) then mkInspection (exact_rows st) (divergent_rows st) reused
      else if fingerprint =s Cl_Fingerprint (Cl_Spec claim) then mkInspection (exact_rows st ++ [record]) (divergent_rows st) reused
      else mkInspection (exact_rows st) (divergent_rows st ++ [record]) reused
  | _, _ => mkInspection (exact_rows st) (divergent_rows st) reused
  end.

(** A record with an identity has a fingerprint, so the error return is dead. *)
Definition inspectClaimRecords (records : list Endpoint) (targetName : string) (claim : Claim) : Inspection :=
  foldl (inspect_claim_step records targetName claim) (mkInspection [] [] false) records.

(** ** repository.go *)

Definition claimsForRecord (claims : list Claim) (targetName : string) (record : DNSRecordKey) : list Claim :=
  filter (fun c => EqualFold (TrimSpace (TargetRef (Cl_Spec c))) targetName = true /\ Cl_Record (Cl_Spec c) = record) claims.

Definition claimSpecMatches (claim : Claim) (identity : Identity) (fingerprint controllerID : string) : bool :=
  EqualFold (TrimSpace (TargetRef (Cl_Spec claim))) (Id_TargetName identity)
  && bool_decide (Cl_Record (Cl_Spec claim) = RecordKey identity)
  && (Cl_Fingerprint (Cl_Spec claim) =s fingerprint)
  && (Cl_ControllerID (Cl_Spec claim) =s TrimSpace controllerID).

Definition requestIdentity (targetName : string) (endpoint : Endpoint) : result OwnershipError (Identity * string) :=
  let? identity := IdentityFor targetName endpoint in
  let? fingerprint := Fingerprint targetName endpoint in
  Ok (identity, fingerprint).

Definition containsString (values : list string) (wanted : string) : bool := bool_decide (wanted ∈ values).
Definition removeString (values : list string) (unwanted : string) : list string := filter (fun v => v <> unwanted) values.

Definition translateWriteError (e : APIError) : OwnershipError :=
  match e with Conflict => ErrStaleClaim | AlreadyExists => ErrClaimConflict | e => ErrClaimAPI e end.

Definition complete_source (s : SourceObjectReference) : bool :=
  negb ((TrimSpace (SOR_APIVersion s) =s "") || (TrimSpace (SOR_Kind s) =s "") || (TrimSpace (SOR_Namespace s) =s "")
        || (TrimSpace (SOR_Name s) =s "") || (TrimSpace (SOR_UID s) =s "")).

Section repository.
Context {W : Type}.

Record ClaimStore := mkClaimStore {
  store_Get : string -> M W APIError Claim;
  store_List : M W APIError (list Claim);
  store_Create : Claim -> M W APIError Claim;
  store_Update : Claim -> M W APIError Claim;
  store_UpdateStatus : Claim -> M W APIError Claim;
  store_Delete : string -> string -> M W APIError unit;     (* name, expected resource version *)
  store_now : W -> Z
}.

Record ReserveRequest := mkReserve {
  Rq_Namespace : string; Rq_TargetName : string; Rq_ControllerID : string; Rq_Endpoint : Endpoint;
  Rq_Sources : list SourceObjectReference; Rq_Snapshot : option (M W OwnershipError Snapshot) }.

Context (store : ClaimStore).

Definition Get (name : string) : M W OwnershipError Claim :=
  wrap (fun e => match e with NotFound => ErrClaimNotFound | e => ErrClaimAPI e end) (store_Get store name).

Definition List : M W OwnershipError (list Claim) := wrap ErrClaimAPI (store_List store).

(** [Get], and the version that was planned for. *)
Definition get_version (name expectedResourceVersion : string) : M W OwnershipError Claim :=
  let! claim := Get name in
  do! require (negb (expectedResourceVersion =s "") && (ResourceVersion claim =s expectedResourceVersion)) ErrStaleClaim in
  ret claim.

Definition transition (name expectedResourceVersion phase providerRevision : string) : M W OwnershipError Claim :=
  let! claim := get_version name expectedResourceVersion in
  let! now := read (store_now store) in
  let confirmed := if phase =s OwnershipPhaseConfirmed then Some now else LastConfirmedTime (Cl_Status claim) in
  wrap translateWriteError
    (store_UpdateStatus store (with_status (mkClaimStatus phase (TrimSpace providerRevision) confirmed) claim)).

Definition markClaimsConflict (claims : list Claim) : M W OwnershipError unit :=
  each (fun c => discard (E := OwnershipError)
    (transition (Cl_Name c) (ResourceVersion c) OwnershipPhaseConflict (ObservedProviderRevision (Cl_Status c)))) claims.

Definition MarkOrphaned (name rv providerRevision : string) : M W OwnershipError Claim :=
  transition name rv OwnershipPhaseOrphaned providerRevision.
Definition MarkConflict (name rv providerRevision : string) : M W OwnershipError Claim :=
  transition name rv OwnershipPhaseConflict providerRevision.

Definition RevalidateUnique (name expectedResourceVersion : string) : M W OwnershipError Claim :=
  let! claim := get_version name expectedResourceVersion in
  let! claims := List in
  let logical := claimsForRecord claims (TargetRef (Cl_Spec claim)) (Cl_Record (Cl_Spec claim)) in
  match logical with
  | [c] => if Cl_Name c =s Cl_Name claim then ret claim else do! markClaimsConflict logical in fail ErrDuplicateClaim
  | _ => do! markClaimsConflict logical in fail ErrDuplicateClaim
  end.

Definition RebindConfirmed (name rv targetName : string) (endpoint : Endpoint) (providerID providerRevision : string)
    : M W OwnershipError Claim :=
  let! claim := RevalidateUnique name rv in
  do! require (phase_of claim =s OwnershipPhaseConfirmed) ErrClaimNotConfirmed in
  let! identity := lift (IdentityFor targetName endpoint) in
  do! require ((Cl_Name claim =s ClaimName identity) && bool_decide (Cl_Record (Cl_Spec claim) = RecordKey identity)
               && (Cl_ProviderID (Cl_Spec claim) =s providerID)) ErrClaimConflict in
  let! fingerprint := lift (Fingerprint targetName endpoint) in
  let! updated := wrap translateWriteError (store_Update store (with_spec (set_Fingerprint fingerprint (Cl_Spec claim)) claim)) in
  transition (Cl_Name updated) (ResourceVersion updated) OwnershipPhaseConfirmed providerRevision.

Definition add_finalizer (c : Claim) : Claim :=
  if containsString (Finalizers c) ClaimFinalizer then c else with_finalizers (Finalizers c ++ [ClaimFinalizer]) c.

(** [None]: a row still exists, the caller fails closed. *)
Definition recoverOrphaned (take_snapshot : M W OwnershipError Snapshot) (claim : Claim) (fingerprint : string)
    (request : ReserveRequest) : M W OwnershipError (option Claim) :=
  let! snapshot := take_snapshot in
  do! lift (validateSnapshot snapshot) in
  let inspection := inspectClaimRecords (Records snapshot) (Rq_TargetName request) claim in
  let id := Cl_ProviderID (Cl_Spec claim) in
  if bool_decide (exact_rows inspection = []) && bool_decide (divergent_rows inspection = [])
     && ((id =s "") || bool_decide (providerRecordsByID (Records snapshot) id = []))
  then
    let reset := set_Sources (Rq_Sources request) (set_Fingerprint fingerprint (set_ProviderID "" (Cl_Spec claim))) in
    let! updated := wrap translateWriteError (store_Update store (with_spec reset (add_finalizer claim))) in
    let! reserved := transition (Cl_Name updated) (ResourceVersion updated) OwnershipPhaseReserved "" in
    ret (Some reserved)
  else ret None.

Definition recoverable (claim : Claim) (identity : Identity) (request : ReserveRequest) : bool :=
  (phase_of claim =s OwnershipPhaseOrphaned) && negb (Cl_Deleting claim)
  && EqualFold (TrimSpace (TargetRef (Cl_Spec claim))) (Id_TargetName identity)
  && bool_decide (Cl_Record (Cl_Spec claim) = RecordKey identity)
  && (Cl_ControllerID (Cl_Spec claim) =s TrimSpace (Rq_ControllerID request)).

(** The rest of [Reserve] for an existing claim that was not recovered. *)
Definition reserve_matching (claim : Claim) (identity : Identity) (fingerprint : string) (request : ReserveRequest)
    : M W OwnershipError Claim :=
  if negb (claimSpecMatches claim identity fingerprint (Rq_ControllerID request)) then
    do! discard (transition (Cl_Name claim) (ResourceVersion claim) OwnershipPhaseConflict "") in
    fail ErrClaimConflict
  else
    let! claim := (if containsString (Finalizers claim) ClaimFinalizer then ret claim
                   else wrap translateWriteError (store_Update store (add_finalizer claim))) in
    let phase := phase_of claim in
    if (phase =s OwnershipPhaseReserved) || (phase =s OwnershipPhaseConfirmed) then ret claim
    else if phase =s "" then transition (Cl_Name claim) (ResourceVersion claim) OwnershipPhaseReserved ""
    else if phase =s OwnershipPhaseOrphaned then fail ErrClaimNotConfirmed
    else fail ErrClaimConflict.

Definition reserve_existing (claim : Claim) (identity : Identity) (fingerprint : string) (request : ReserveRequest)
    : M W OwnershipError Claim :=
  match Rq_Snapshot request with
  | Some take_snapshot =>
      if recoverable claim identity request then
        let! recovered := recoverOrphaned take_snapshot claim fingerprint request in
        match recovered with
        | Some c => ret c
        | None => reserve_matching claim identity fingerprint request
        end
      else reserve_matching claim identity fingerprint request
  | None => reserve_matching claim identity fingerprint request
  end.

Definition new_claim (namespace : string) (identity : Identity) (fingerprint providerID : string)
    (sources : list SourceObjectReference) (controllerID : string) (adoption : bool) : Claim :=
  mkClaim namespace (ClaimName identity) "" "" [ClaimFinalizer] false
    (mkClaimSpec (Id_TargetName identity) providerID (RecordKey identity) fingerprint sources (TrimSpace controllerID) adoption)
    (mkClaimStatus "" "" None).

Definition Reserve (request : ReserveRequest) : M W OwnershipError Claim :=
  let! (identity, fingerprint) := lift (requestIdentity (Rq_TargetName request) (Rq_Endpoint request)) in
  do! require (negb ((TrimSpace (Rq_Namespace request) =s "") || (TrimSpace (Rq_ControllerID request) =s "")))
        (ErrRequest "ownership namespace and controller ID are required") in
  do! require (negb (bool_decide (Rq_Sources request = []))) (ErrRequest "ownership source identity is required") in
  do! require (forallb complete_source (Rq_Sources request)) (ErrRequest "ownership source identity requires apiVersion, kind, namespace, name, and uid") in
  let name := ClaimName identity in
  let! claims := wrap ErrClaimAPI (store_List store) in
  let logical := claimsForRecord claims (Id_TargetName identity) (RecordKey identity) in
  match logical with
  | [] =>
      let! created := wrap translateWriteError (store_Create store
        (new_claim (Rq_Namespace request) identity fingerprint "" (Rq_Sources request) (Rq_ControllerID request) false)) in
      transition (Cl_Name created) (ResourceVersion created) OwnershipPhaseReserved ""
  | [claim] =>
      if Cl_Name claim =s name then reserve_existing claim identity fingerprint request
      else do! markClaimsConflict logical in fail ErrDuplicateClaim
  | _ => do! markClaimsConflict logical in fail ErrDuplicateClaim
  end.

Definition confirmable (phase : string) : bool :=
  (phase =s OwnershipPhaseReserved) || (phase =s OwnershipPhaseOrphaned) || (phase =s OwnershipPhaseConfirmed).

Definition Confirm (name rv providerID providerRevision : string) : M W OwnershipError Claim :=
  do! require (negb ((TrimSpace providerID =s "") || (TrimSpace providerRevision =s "")))
        (ErrRequest "provider ID and stable revision are required to confirm ownership") in
  let! claim := RevalidateUnique name rv in
  do! require (confirmable (phase_of claim)) ErrClaimConflict in
  let id := Cl_ProviderID (Cl_Spec claim) in
  if negb (id =s "") && negb (id =s providerID) then
    do! discard (transition (Cl_Name claim) (ResourceVersion claim) OwnershipPhaseConflict providerRevision) in
    fail ErrClaimConflict
  else
    let! claim := (if id =s providerID then ret claim
                   else wrap translateWriteError (store_Update store (with_spec (set_ProviderID providerID (Cl_Spec claim)) claim))) in
    transition (Cl_Name claim) (ResourceVersion claim) OwnershipPhaseConfirmed providerRevision.

Record AdoptionRequest := mkAdoption {
  Ad_Reserve : ReserveRequest; Ad_ProviderID : string; Ad_ProviderRevision : string; Ad_PlanHash : string;
  Ad_ApprovedPlanHash : string; Ad_ExpectedFingerprint : string }.

Definition Adopt (request : AdoptionRequest) : M W OwnershipError Claim :=
  let rq := Ad_Reserve request in
  let! (identity, fingerprint) := lift (requestIdentity (Rq_TargetName rq) (Rq_Endpoint rq)) in
  do! require (negb ((TrimSpace (Rq_Namespace rq) =s "") || (TrimSpace (Rq_ControllerID rq) =s "")))
        (ErrRequest "ownership namespace and controller ID are required") in
  do! require (negb (Ad_PlanHash request =s "") && (Ad_PlanHash request =s Ad_ApprovedPlanHash request))
        (ErrRequest "adoption requires exact approved plan hash") in
  do! require (negb ((Ad_ProviderRevision request =s "") || (Ad_ProviderID request =s "")))
        (ErrRequest "adoption requires stable provider revision and provider ID") in
  do! require (negb (Ad_ExpectedFingerprint request =s "") && (Ad_ExpectedFingerprint request =s fingerprint))
        (ErrRequest "adoption fingerprint changed") in
  let! claims := wrap ErrClaimAPI (store_List store) in
  let logical := claimsForRecord claims (Id_TargetName identity) (RecordKey identity) in
  match logical with
  | [] =>
      let! created := wrap translateWriteError (store_Create store
        (new_claim (Rq_Namespace rq) identity fingerprint (Ad_ProviderID request) (Rq_Sources rq) (Rq_ControllerID rq) true)) in
      transition (Cl_Name created) (ResourceVersion created) OwnershipPhaseConfirmed (Ad_ProviderRevision request)
  | [_] => fail ErrClaimConflict
  | _ => do! markClaimsConflict logical in fail ErrDuplicateClaim
  end.

Definition releaseFinalizer (name rv : string) : M W OwnershipError Claim :=
  let! claim := RevalidateUnique name rv in
  wrap translateWriteError (store_Update store (with_finalizers (removeString (Finalizers claim) ClaimFinalizer) claim)).

Definition deleteClaim (name rv : string) : M W OwnershipError unit :=
  do! require (negb (rv =s "")) ErrStaleClaim in
  let! r := attempt (store_Delete store name rv) in
  match r with
  | Ok _ | Err NotFound => ret tt
  | Err e => fail (translateWriteError e)
  end.
End repository.
Arguments ClaimStore W : clear implicits.
Arguments ReserveRequest W : clear implicits.
Arguments AdoptionRequest W : clear implicits.
