(* ===== verification/Manager.v ===== *)
(** * internal/ownership/manager.go: claims against the provider

    The two-phase create, the authorization of a mutation, adoption, the
    reconciliation of a claim with a snapshot and its release. *)
From Stdlib Require Import String Ascii ZArith Lia.
From S2P Require Import Prelude Effects GoStrings NetIP GoEncoding Endpoint Plan Document Claims.
Open Scope string_scope.
Open Scope list_scope.
Open Scope Z_scope.
Open Scope go_scope.

(** ** Inspecting a snapshot *)

(** One record of [inspectRecord], for a desired identity and fingerprint. *)
Definition inspect_step (records : list Endpoint) (targetName : string) (identity : Identity) (fingerprint providerID : string)
    (st : Inspection) (record : Endpoint) : Inspection :=
  let reused := if negb (providerID =s "") && (ProviderID record =s providerID)
                then negb (length (providerRecordsByID records providerID) =? 1)%nat else providerIDReused st in
  match IdentityFor targetName record, Fingerprint targetName record with
  | Ok id, Ok fp =>
      if negb (bool_decide (id = identity)) then mkInspection (exact_rows st) (divergent_rows st) reused
      else if fp =s fingerprint then mkInspection (exact_rows st ++ [record]) (divergent_rows st) reused
      else mkInspection (exact_rows st) (divergent_rows st ++ [record]) reused
  | _, _ => mkInspection (exact_rows st) (divergent_rows st) reused
  end.

Definition inspectRecord (records : list Endpoint) (targetName : string) (desired : Endpoint) (providerID : string)
    : result OwnershipError Inspection :=
  let? identity := IdentityFor targetName desired in
  let? fingerprint := Fingerprint targetName desired in
  Ok (foldl (inspect_step records targetName identity fingerprint providerID) (mkInspection [] [] false) records).

(** Reused identifier, several exact rows, or any divergent row. *)
Definition ambiguous (i : Inspection) : bool :=
  providerIDReused i || (1 <? length (exact_rows i))%nat || (0 <? length (divergent_rows i))%nat.

Definition existingRecordMutation (t : string) : bool :=
  (t =s OperationUpdate) || (t =s OperationReplace) || (t =s OperationDeactivate) || (t =s OperationDelete).

Record MutationPrecondition := mkMutation {
  Mut_Mode : string; Mut_TargetName : string; Mut_ControllerID : string; Mut_ProviderRevision : string;
  Mut_Ownership : OwnershipPrecondition }.

Definition PreconditionForClaim (mode : string) (claim : Claim) (providerRevision : string) : MutationPrecondition :=
  mkMutation mode (TargetRef (Cl_Spec claim)) (Cl_ControllerID (Cl_Spec claim)) providerRevision
    (mkOwnershipPrecondition (Cl_Namespace claim) (Cl_Name claim) (Cl_UID claim) (ResourceVersion claim)
       (Cl_ProviderID (Cl_Spec claim)) (Cl_Fingerprint (Cl_Spec claim)) (phase_of claim)).

Section manager.
Context {W : Type}.

Record ClaimProvider := mkClaimProvider {
  provider_Snapshot : M W OwnershipError Snapshot;
  provider_Create : Endpoint -> M W OwnershipError unit;
  provider_ctx : W -> W * option OwnershipError                   (* ctx.Err() *)
}.

Context (store : ClaimStore W).

(** [(claim, handled, err)]: [None] when not handled. *)
Definition confirmObserved (claim : Claim) (targetName : string) (endpoint : Endpoint) (snapshot : Snapshot)
    : M W OwnershipError (option (result OwnershipError Claim)) :=
  let conflict : M W OwnershipError (option (result OwnershipError Claim)) :=
    do! discard (MarkConflict store (Cl_Name claim) (ResourceVersion claim) (Revision snapshot)) in
    ret (Some (Err ErrProviderConflict)) in
  match inspectRecord (Records snapshot) targetName endpoint "" with
  | Err e => ret (Some (Err e))
  | Ok i =>
      if ambiguous i then conflict
      else match exact_rows i with
           | [] =>
               if phase_of claim =s OwnershipPhaseConfirmed then
                 do! discard (MarkOrphaned store (Cl_Name claim) (ResourceVersion claim) (Revision snapshot)) in
                 ret (Some (Err ErrClaimNotDestructive))
               else ret None
           | row :: _ =>
               if TrimSpace (ProviderID row) =s "" then conflict
               else if negb (length (providerRecordsByID (Records snapshot) (ProviderID row)) =? 1)%nat then conflict
               else let! r := attempt (Confirm store (Cl_Name claim) (ResourceVersion claim) (ProviderID row) (Revision snapshot)) in
                    ret (Some r)
           end
  end.

(** The request with the provider's snapshot when it has none. *)
Definition with_provider_snapshot (provider : ClaimProvider) (request : ReserveRequest W) : ReserveRequest W :=
  mkReserve (Rq_Namespace request) (Rq_TargetName request) (Rq_ControllerID request) (Rq_Endpoint request) (Rq_Sources request)
    (match Rq_Snapshot request with Some s => Some s | None => Some (provider_Snapshot provider) end).

(** After the request was issued with result [createErr]. *)
Definition after_create (provider : ClaimProvider) (request : ReserveRequest W) (claim : Claim)
    (createErr : result OwnershipError unit) : M W OwnershipError Claim :=
  let! listed := attempt (provider_Snapshot provider) in
  let unsafe e : M W OwnershipError Claim := fail (match createErr with Err c => c | Ok _ => e end) in
  match listed with
  | Err e => unsafe e
  | Ok after =>
      match validateSnapshot after with
      | Err e => unsafe e
      | Ok _ =>
          let! currentClaim := Get store (Cl_Name claim) in
          let! handled := confirmObserved currentClaim (Rq_TargetName request) (Rq_Endpoint request) after in
          match handled with
          | Some r => lift r
          | None => unsafe (ErrRequest "provider create succeeded but exact row was not observable; claim remains Reserved")
          end
      end
  end.

Definition ReconcileCreate (provider : ClaimProvider) (request : ReserveRequest W) : M W OwnershipError Claim :=
  let! claim := Reserve store (with_provider_snapshot provider request) in
  let! snapshot := provider_Snapshot provider in
  do! lift (validateSnapshot snapshot) in
  let! handled := confirmObserved claim (Rq_TargetName request) (Rq_Endpoint request) snapshot in
  match handled with
  | Some r => lift r
  | None =>
      do! require (phase_of claim =s OwnershipPhaseReserved) ErrClaimConflict in
      let! createErr := attempt (provider_Create provider (Normalize (Rq_Endpoint request))) in
      after_create provider request claim createErr
  end.

(** The fields a claim must share with the precondition it was planned under. *)
Definition claim_as_planned (claim : Claim) (p : MutationPrecondition) : bool :=
  let o := Mut_Ownership p in
  (TargetRef (Cl_Spec claim) =s TrimSpace (Mut_TargetName p)) && (Cl_ControllerID (Cl_Spec claim) =s TrimSpace (Mut_ControllerID p))
  && negb (Cl_ProviderID (Cl_Spec claim) =s "") && (Cl_ProviderID (Cl_Spec claim) =s OW_ProviderID o)
  && negb (Cl_Fingerprint (Cl_Spec claim) =s "") && (Cl_Fingerprint (Cl_Spec claim) =s OW_Fingerprint o)
  && ((OW_Namespace o =s "") || (Cl_Namespace claim =s OW_Namespace o)) && ((OW_UID o =s "") || (Cl_UID claim =s OW_UID o)).

(** The live row is the one the claim describes. *)
Definition row_as_claimed (claim : Claim) (p : MutationPrecondition) (row : Endpoint) : bool :=
  match Fingerprint (Mut_TargetName p) row, IdentityFor (Mut_TargetName p) row with
  | Ok fp, Ok identity =>
      (fp =s OW_Fingerprint (Mut_Ownership p)) && (Cl_Name claim =s ClaimName identity)
      && bool_decide (Cl_Record (Cl_Spec claim) = RecordKey identity)
  | _, _ => false
  end.

Definition AuthorizeMutation (operationType : string) (p : MutationPrecondition) (snapshot : Snapshot) : M W OwnershipError unit :=
  if Mut_Mode p =s OwnershipModeExclusive then ret tt
  else
    do! require (Mut_Mode p =s OwnershipModeShared) (ErrRequest "unknown ownership mode") in
    do! require (existingRecordMutation operationType) (ErrRequest "operation is not an existing-record mutation") in
    do! lift (validateSnapshot snapshot) in
    do! require (negb (Mut_ProviderRevision p =s "") && (Revision snapshot =s Mut_ProviderRevision p)) ErrProviderDrift in
    do! require (OW_Phase (Mut_Ownership p) =s OwnershipPhaseConfirmed) ErrClaimNotDestructive in
    let! claim := RevalidateUnique store (OW_Name (Mut_Ownership p)) (OW_ResourceVersion (Mut_Ownership p)) in
    do! require (phase_of claim =s OwnershipPhaseConfirmed) ErrClaimNotDestructive in
    do! require (claim_as_planned claim p) ErrClaimConflict in
    let conflict : M W OwnershipError unit :=
      do! discard (MarkConflict store (Cl_Name claim) (ResourceVersion claim) (Revision snapshot)) in fail ErrProviderConflict in
    match providerRecordsByID (Records snapshot) (OW_ProviderID (Mut_Ownership p)) with
    | [row] => if row_as_claimed claim p row then ret tt else conflict
    | _ => conflict
    end.

Definition ExecuteMutation (provider : ClaimProvider) (operationType : string) (p : MutationPrecondition)
    (mutate : M W OwnershipError unit) : M W OwnershipError unit :=
  let! snapshot := provider_Snapshot provider in
  do! AuthorizeMutation operationType p snapshot in
  let! cancelled := observe (provider_ctx provider) in
  match cancelled with Some e => fail e | None => mutate end.

Definition AdoptRecord (provider : ClaimProvider) (request : AdoptionRequest W) : M W OwnershipError Claim :=
  let rq := Ad_Reserve request in
  do! require (negb (Ad_PlanHash request =s "") && (Ad_PlanHash request =s Ad_ApprovedPlanHash request)) ErrAdoptionApproval in
  let! snapshot := provider_Snapshot provider in
  do! lift (validateSnapshot snapshot) in
  do! require (negb (Ad_ProviderRevision request =s "") && (Revision snapshot =s Ad_ProviderRevision request)) ErrProviderDrift in
  let! i := lift (inspectRecord (Records snapshot) (Rq_TargetName rq) (Rq_Endpoint rq) (Ad_ProviderID request)) in
  match providerIDReused i, exact_rows i, divergent_rows i with
  | false, [row], [] =>
      do! require (ProviderID row =s Ad_ProviderID request) ErrProviderConflict in Adopt store request
  | _, _, _ => fail ErrProviderConflict
  end.

Definition conflict_claim (claim : Claim) (snapshot : Snapshot) : M W OwnershipError (Claim * option OwnershipError) :=
  let! updated := MarkConflict store (Cl_Name claim) (ResourceVersion claim) (Revision snapshot) in
  ret (updated, Some ErrProviderConflict).

(** The claim is returned beside the conflict error. *)
Definition ReconcileClaim (claimName rv targetName : string) (snapshot : Snapshot)
    : M W OwnershipError (Claim * option OwnershipError) :=
  do! lift (validateSnapshot snapshot) in
  let! claim := RevalidateUnique store claimName rv in
  let i := inspectClaimRecords (Records snapshot) targetName claim in
  let plain (m : M W OwnershipError Claim) : M W OwnershipError (Claim * option OwnershipError) := let! c := m in ret (c, None) in
  if ambiguous i then conflict_claim claim snapshot
  else match exact_rows i with
       | [] =>
           if phase_of claim =s OwnershipPhaseReserved then ret (claim, None)
           else plain (MarkOrphaned store (Cl_Name claim) (ResourceVersion claim) (Revision snapshot))
       | row :: _ =>
           let id := Cl_ProviderID (Cl_Spec claim) in
           if (ProviderID row =s "") || (negb (id =s "") && negb (ProviderID row =s id)) then conflict_claim claim snapshot
           else plain (Confirm store (Cl_Name claim) (ResourceVersion claim) (ProviderID row) (Revision snapshot))
       end.

Definition ReleaseClaimFinalizer (claimName rv targetName : string) (snapshot : Snapshot) : M W OwnershipError Claim :=
  do! lift (validateSnapshot snapshot) in
  let! claim := RevalidateUnique store claimName rv in
  let id := Cl_ProviderID (Cl_Spec claim) in
  do! require ((id =s "") || bool_decide (providerRecordsByID (Records snapshot) id = [])) ErrClaimNotDestructive in
  do! require (bool_decide (exact_rows (inspectClaimRecords (Records snapshot) targetName claim) = [])) ErrClaimNotDestructive in
  releaseFinalizer store (Cl_Name claim) (ResourceVersion claim).

Definition ReleaseAndDeleteClaim (claimName rv targetName : string) (snapshot : Snapshot) : M W OwnershipError unit :=
  let! released := ReleaseClaimFinalizer claimName rv targetName snapshot in
  deleteClaim store (Cl_Name released) (ResourceVersion released).
End manager.
Arguments ClaimProvider W : clear implicits.
