(* ===== verification/ClaimsLaws.v ===== *)
(** * Properties of ownership claims

    Every operation of the repository keeps an invariant of the world that the
    store's operations keep.  Instances of it: requests to the device, and that a
    confirmed claim is bound to a provider row. *)
From Stdlib Require Import String Ascii ZArith Lia.
From S2P Require Import Prelude Effects GoStrings NetIP GoEncoding Endpoint Plan Document Claims Manager.
Open Scope string_scope.
Open Scope list_scope.
Open Scope Z_scope.
Open Scope go_scope.

(** ** Invariants the store itself keeps *)

Section frame.
Context {W : Type} (I : W -> Prop) (store : ClaimStore W).

Record store_keeps : Prop := {
  sk_Get n : keeps I (store_Get store n);
  sk_List : keeps I (store_List store);
  sk_Create c : keeps I (store_Create store c);
  sk_Update c : keeps I (store_Update store c);
  sk_UpdateStatus c : keeps I (store_UpdateStatus store c);
  sk_Delete n rv : keeps I (store_Delete store n rv)
}.

Hypothesis Hstore : store_keeps.

Lemma stored_Get n : keeps I (store_Get store n).
Proof. apply Hstore. Qed.
Lemma stored_List : keeps I (store_List store).
Proof. apply Hstore. Qed.
Lemma stored_Create x : keeps I (store_Create store x).
Proof. apply Hstore. Qed.
Lemma stored_Update x : keeps I (store_Update store x).
Proof. apply Hstore. Qed.
Lemma stored_UpdateStatus x : keeps I (store_UpdateStatus store x).
Proof. apply Hstore. Qed.
Lemma stored_Delete n rv : keeps I (store_Delete store n rv).
Proof. apply Hstore. Qed.
#[local] Hint Resolve stored_Get stored_List stored_Create stored_Update stored_UpdateStatus stored_Delete : effects.

Lemma keeps_Get n : keeps I (Get store n).
Proof. unfold Get. walk. Qed.
Lemma keeps_List : keeps I (List store).
Proof. unfold List. walk. Qed.
#[local] Hint Resolve keeps_Get keeps_List : effects.

Lemma keeps_get_version n rv : keeps I (get_version store n rv).
Proof. unfold get_version. walk. Qed.
#[local] Hint Resolve keeps_get_version : effects.

Lemma keeps_transition n rv phase rev : keeps I (transition store n rv phase rev).
Proof. unfold transition. walk. Qed.
#[local] Hint Resolve keeps_transition : effects.

Lemma keeps_markClaimsConflict l : keeps I (markClaimsConflict store l).
Proof. unfold markClaimsConflict. walk. Qed.
Lemma keeps_MarkConflict n rv rev : keeps I (MarkConflict store n rv rev).
Proof. apply keeps_transition. Qed.
Lemma keeps_MarkOrphaned n rv rev : keeps I (MarkOrphaned store n rv rev).
Proof. apply keeps_transition. Qed.
#[local] Hint Resolve keeps_markClaimsConflict keeps_MarkConflict keeps_MarkOrphaned : effects.

Lemma keeps_RevalidateUnique n rv : keeps I (RevalidateUnique store n rv).
Proof. unfold RevalidateUnique. walk. Qed.
#[local] Hint Resolve keeps_RevalidateUnique : effects.

Lemma keeps_RebindConfirmed n rv t e id rev : keeps I (RebindConfirmed store n rv t e id rev).
Proof. unfold RebindConfirmed. walk. Qed.
Lemma keeps_Confirm n rv id rev : keeps I (Confirm store n rv id rev).
Proof. unfold Confirm. walk. Qed.
Lemma keeps_Adopt r : keeps I (Adopt store r).
Proof. unfold Adopt. walk. Qed.
Lemma keeps_releaseFinalizer n rv : keeps I (releaseFinalizer store n rv).
Proof. unfold releaseFinalizer. walk. Qed.
Lemma keeps_deleteClaim n rv : keeps I (deleteClaim store n rv).
Proof. unfold deleteClaim. walk. Qed.
#[local] Hint Resolve keeps_RebindConfirmed keeps_Confirm keeps_Adopt keeps_releaseFinalizer keeps_deleteClaim : effects.

Lemma keeps_recoverOrphaned s c f r : keeps I s -> keeps I (recoverOrphaned store s c f r).
Proof. intros Hs. unfold recoverOrphaned. walk. Qed.
Lemma keeps_reserve_matching c i f r : keeps I (reserve_matching store c i f r).
Proof. unfold reserve_matching. walk. Qed.
#[local] Hint Resolve keeps_recoverOrphaned keeps_reserve_matching : effects.

Lemma keeps_Reserve r : (forall s, Rq_Snapshot r = Some s -> keeps I s) -> keeps I (Reserve store r).
Proof. intros Hs. unfold Reserve, reserve_existing. walk. Qed.

Lemma keeps_confirmObserved c t e s : keeps I (confirmObserved store c t e s).
Proof. unfold confirmObserved. walk. Qed.
#[local] Hint Resolve keeps_confirmObserved : effects.

Lemma keeps_AuthorizeMutation t p s : keeps I (AuthorizeMutation store t p s).
Proof. unfold AuthorizeMutation. walk. Qed.
Lemma keeps_ReconcileClaim n rv t s : keeps I (ReconcileClaim store n rv t s).
Proof. unfold ReconcileClaim, conflict_claim. walk. Qed.
Lemma keeps_ReleaseClaimFinalizer n rv t s : keeps I (ReleaseClaimFinalizer store n rv t s).
Proof. unfold ReleaseClaimFinalizer. walk. Qed.
#[local] Hint Resolve keeps_ReleaseClaimFinalizer : effects.
Lemma keeps_ReleaseAndDeleteClaim n rv t s : keeps I (ReleaseAndDeleteClaim store n rv t s).
Proof. unfold ReleaseAndDeleteClaim. walk. Qed.
End frame.

(** ** What a successful check has established *)

Section checks.
Context {W : Type} (store : ClaimStore W).

Lemma get_version_ok n rv w w' claim : get_version store n rv w = (w', Ok claim) ->
  store_Get store n w = (w', Ok claim) /\ rv <> "" /\ ResourceVersion claim = rv.
Proof.
  unfold get_version. intros E. apply bind_ok in E as (c & w1 & E1 & E). run_ok E. apply wrap_ok in E1.
  injection E as <- <-. bools. naive_solver.
Qed.

(** The claim as it is stored, alone for its record. *)
Definition live_and_unique (n rv : string) (w w' : W) (claim : Claim) : Prop :=
  exists w1 claims c, store_Get store n w = (w1, Ok claim) /\ ResourceVersion claim = rv /\ rv <> "" /\
    store_List store w1 = (w', Ok claims) /\
    claimsForRecord claims (TargetRef (Cl_Spec claim)) (Cl_Record (Cl_Spec claim)) = [c] /\ Cl_Name c = Cl_Name claim.

Lemma RevalidateUnique_ok n rv w w' claim : RevalidateUnique store n rv w = (w', Ok claim) -> live_and_unique n rv w w' claim.
Proof.
  unfold RevalidateUnique. intros E. apply bind_ok in E as (x & w1 & E1 & E). apply get_version_ok in E1 as (E1 & Hne & Hrv).
  apply bind_ok in E as (claims & w2 & E2 & E). apply wrap_ok in E2.
  destruct (claimsForRecord _ _ _) as [|c [|? ?]] eqn:Ec; [| |]; cycle 1.
  { destruct (Cl_Name c =s Cl_Name x) eqn:En; [|apply bind_ok in E as (? & ? & _ & [=])].
    injection E as <- <-. bools. exists w1, claims, c. naive_solver. }
  all: by apply bind_ok in E as (? & ? & _ & [=]).
Qed.

Lemma validateSnapshot_ok s : validateSnapshot s = Ok tt -> Stable s = true /\ TrimSpace (Revision s) <> "".
Proof. unfold validateSnapshot. destruct (_ || _) eqn:E; [done|]. bools. naive_solver. Qed.

(** The row a confirmed claim is bound to is live, alone and as claimed. *)
Record row_authorized (targetName revision : string) (claim : Claim) (snapshot : Snapshot) (row : Endpoint) : Prop := {
  au_stable : Stable snapshot = true /\ Revision snapshot = revision;
  au_phase : phase_of claim = OwnershipPhaseConfirmed;
  au_bound : Cl_ProviderID (Cl_Spec claim) <> "";
  au_row : providerRecordsByID (Records snapshot) (Cl_ProviderID (Cl_Spec claim)) = [row];
  au_fingerprint : Fingerprint targetName row = Ok (Cl_Fingerprint (Cl_Spec claim));
  au_identity : exists identity, IdentityFor targetName row = Ok identity /\ Cl_Name claim = ClaimName identity /\
                  Cl_Record (Cl_Spec claim) = RecordKey identity
}.

Lemma row_as_claimed_ok claim p row : row_as_claimed claim p row = true ->
  Fingerprint (Mut_TargetName p) row = Ok (OW_Fingerprint (Mut_Ownership p)) /\
  exists identity, IdentityFor (Mut_TargetName p) row = Ok identity /\ Cl_Name claim = ClaimName identity /\
                  Cl_Record (Cl_Spec claim) = RecordKey identity.
Proof.
  unfold row_as_claimed. destruct (Fingerprint _ _) as [fp|]; [|done]. destruct (IdentityFor _ _) as [i|]; [|done].
  intros H. apply andb_true_iff in H as [H H3]. apply andb_true_iff in H as [H1 H2]. apply bool_decide_eq_true in H3.
  bools. subst. eauto.
Qed.

Lemma claim_as_planned_ok claim p : claim_as_planned claim p = true ->
  Cl_ProviderID (Cl_Spec claim) <> "" /\ Cl_ProviderID (Cl_Spec claim) = OW_ProviderID (Mut_Ownership p) /\
  Cl_Fingerprint (Cl_Spec claim) = OW_Fingerprint (Mut_Ownership p) /\
  TargetRef (Cl_Spec claim) = TrimSpace (Mut_TargetName p) /\ Cl_ControllerID (Cl_Spec claim) = TrimSpace (Mut_ControllerID p).
Proof. unfold claim_as_planned. intros H. repeat apply andb_true_iff in H as [H ?]. bools. done. Qed.

Lemma AuthorizeMutation_ok t p snapshot w w' : Mut_Mode p <> OwnershipModeExclusive ->
  AuthorizeMutation store t p snapshot w = (w', Ok tt) ->
  existingRecordMutation t = true /\ OW_Phase (Mut_Ownership p) = OwnershipPhaseConfirmed /\
  exists claim row, live_and_unique (OW_Name (Mut_Ownership p)) (OW_ResourceVersion (Mut_Ownership p)) w w' claim /\
    claim_as_planned claim p = true /\ row_authorized (Mut_TargetName p) (Mut_ProviderRevision p) claim snapshot row.
Proof.
  unfold AuthorizeMutation. intros Hm%eqb_neq_iff. rewrite Hm. intros E. run_ok E. rename Hl into Hv. destruct a.
  apply validateSnapshot_ok in Hv as [Hst _]. apply bind_ok in E as (claim & w1 & E1 & E). apply RevalidateUnique_ok in E1.
  run_ok E. destruct (providerRecordsByID _ _) as [|row [|? ?]] eqn:Er; [| |]; cycle 1.
  { destruct (row_as_claimed claim p row) eqn:Ea; [|apply bind_ok in E as (? & ? & _ & [=])]. injection E as <-.
    bools. split; [done|]. split; [done|]. exists claim, row. split; [done|]. split; [done|].
    apply row_as_claimed_ok in Ea as [Hf Hi]. pose proof (claim_as_planned_ok _ _ Hr4) as (Hb & Hid & Hfp & _).
    split; [naive_solver|done|done|by rewrite Hid|by rewrite Hfp|done]. }
  all: by apply bind_ok in E as (? & ? & _ & [=]).
Qed.
End checks.

(** ** Inspecting a listing *)

Lemma Fingerprint_total t e identity : IdentityFor t e = Ok identity -> exists fp, Fingerprint t e = Ok fp.
Proof. unfold Fingerprint. intros ->. cbn [rbind]. eauto. Qed.

Definition seen_rows (i : Inspection) : list Endpoint := exact_rows i ++ divergent_rows i.

(** The rows of the identity, and no others, are exact or divergent. *)
Lemma inspect_fold records t identity fp id rows : forall st row,
  row ∈ seen_rows (foldl (inspect_step records t identity fp id) st rows) <->
  row ∈ seen_rows st \/ (row ∈ rows /\ IdentityFor t row = Ok identity).
Proof.
  induction rows as [|x rows IH]; intros st row; cbn [foldl]; [set_solver|]. rewrite IH. clear IH.
  enough (H : row ∈ seen_rows (inspect_step records t identity fp id st x) <->
              row ∈ seen_rows st \/ (row = x /\ IdentityFor t x = Ok identity)).
  { rewrite H, elem_of_cons. naive_solver. }
  unfold inspect_step, seen_rows. destruct (IdentityFor t x) as [i|] eqn:Ei; [|cbn; naive_solver].
  destruct (Fingerprint_total _ _ _ Ei) as [f ->]. case_bool_decide as Hi; cbn [negb]; [subst i|cbn; naive_solver].
  destruct (f =s fp); cbn; rewrite !elem_of_app, list_elem_of_singleton; naive_solver.
Qed.

Lemma inspectRecord_rows records t desired id i : inspectRecord records t desired id = Ok i ->
  exists identity, IdentityFor t desired = Ok identity /\
    forall row, row ∈ seen_rows i <-> row ∈ records /\ IdentityFor t row = Ok identity.
Proof.
  unfold inspectRecord. destruct (IdentityFor t desired) as [identity|] eqn:Ei; [|done].
  destruct (Fingerprint_total _ _ _ Ei) as [f ->]. cbn [rbind]. intros [= <-]. exists identity. split; [done|]. intros row.
  rewrite inspect_fold. unfold seen_rows. cbn. rewrite elem_of_nil. naive_solver.
Qed.

(** When nothing was observed, no row of the identity is listed. *)
Lemma confirmObserved_none {W} (store : ClaimStore W) c t e s w w' : confirmObserved store c t e s w = (w', Ok None) ->
  phase_of c <> OwnershipPhaseConfirmed /\
  exists identity, IdentityFor t e = Ok identity /\ forall row, row ∈ Records s -> IdentityFor t row <> Ok identity.
Proof.
  unfold confirmObserved. destruct (inspectRecord _ _ _ _) as [i|] eqn:Ei; [|by intros [=]].
  destruct (ambiguous i) eqn:Ea; [by intros E; apply bind_ok in E as (? & ? & _ & [=])|].
  apply inspectRecord_rows in Ei as (identity & Hid & Hrows). unfold ambiguous in Ea.
  apply orb_false_iff in Ea as [Ea Hdiv]. apply Nat.ltb_ge in Hdiv. destruct (divergent_rows i) eqn:Ed; [|cbn in Hdiv; lia].
  destruct (exact_rows i) as [|row ?] eqn:Ee.
  - destruct (_ =s _) eqn:Ep; [by intros E; apply bind_ok in E as (? & ? & _ & [=])|]. intros _. bools. split; [done|].
    exists identity. split; [done|]. intros row Hr Hi. apply (conj Hr), Hrows in Hi. unfold seen_rows in Hi.
    rewrite Ee, Ed in Hi. by apply elem_of_nil in Hi.
  - destruct (_ =s ""); [by intros E; apply bind_ok in E as (? & ? & _ & [=])|].
    destruct (negb _); intros E; by apply bind_ok in E as (? & ? & _ & [=]).
Qed.

(** ** Releasing a claim *)

(** The rows [inspectClaimRecords] finds exact. *)
Lemma inspect_claim_fold records t claim rows : forall st row,
  row ∈ exact_rows (foldl (inspect_claim_step records t claim) st rows) <->
  row ∈ exact_rows st \/ (row ∈ rows /\ Fingerprint t row = Ok (Cl_Fingerprint (Cl_Spec claim)) /\
    exists identity, IdentityFor t row = Ok identity /\ RecordKey identity = Cl_Record (Cl_Spec claim)).
Proof.
  induction rows as [|x rows IH]; intros st row; cbn [foldl]; [set_solver|]. rewrite IH. clear IH.
  enough (H : row ∈ exact_rows (inspect_claim_step records t claim st x) <->
              row ∈ exact_rows st \/ (row = x /\ Fingerprint t x = Ok (Cl_Fingerprint (Cl_Spec claim)) /\
                exists identity, IdentityFor t x = Ok identity /\ RecordKey identity = Cl_Record (Cl_Spec claim))).
  { rewrite H, elem_of_cons. naive_solver. }
  unfold inspect_claim_step. destruct (IdentityFor t x) as [i|] eqn:Ei; [|cbn; naive_solver].
  destruct (Fingerprint_total _ _ _ Ei) as [f Ef]. rewrite Ef. case_bool_decide as Hi; cbn [negb]; [|cbn; naive_solver].
  destruct (f =s Cl_Fingerprint (Cl_Spec claim)) eqn:Ee; bools; cbn; rewrite ?elem_of_app, ?list_elem_of_singleton; naive_solver.
Qed.

Section release.
Context {W : Type} (store : ClaimStore W) (I : W -> Prop).
Context (Hget : forall n, keeps I (store_Get store n)) (Hlist : keeps I (store_List store)).
Context (Hstatus : forall c, keeps I (store_UpdateStatus store c)).

(** What a listing must show before a claim is given up. *)
Definition record_absent (t : string) (s : Snapshot) (claim : Claim) : Prop :=
  Stable s = true /\
  (Cl_ProviderID (Cl_Spec claim) <> "" -> providerRecordsByID (Records s) (Cl_ProviderID (Cl_Spec claim)) = []) /\
  forall row identity, row ∈ Records s -> IdentityFor t row = Ok identity -> RecordKey identity = Cl_Record (Cl_Spec claim) ->
    Fingerprint t row <> Ok (Cl_Fingerprint (Cl_Spec claim)).

#[local] Hint Resolve Hget Hlist Hstatus : effects.

Lemma RevalidateUnique_quiet n rv : keeps I (RevalidateUnique store n rv).
Proof.
  unfold RevalidateUnique, get_version, List, Get, markClaimsConflict, transition, get_version, Get. walk.
Qed.

(** C26. A claim is given up only when its record is gone: [ReleaseAndDeleteClaim]
    removes the finalizer and deletes the object only if the snapshot is stable,
    has no row under the claim's provider ID and no row that is the claimed
    record.  Otherwise it issues no update and no delete: whatever the reads and
    status writes of the store preserve still holds. *)
Theorem claim_release_requires_absence n rv t s w w' r : I w ->
  ReleaseAndDeleteClaim store n rv t s w = (w', r) ->
  I w' \/ exists claim w1 w2, live_and_unique store n rv w1 w2 claim /\ record_absent t s claim.
Proof.
  intros HI E. unfold ReleaseAndDeleteClaim, ReleaseClaimFinalizer in E. rewrite bind_assoc in E.
  apply bind_run in E as [(e & [= <- _] & _)|([] & w0 & [Hv ->]%lift_ok & E)]; [by left|].
  apply validateSnapshot_ok in Hv as [Hst _]. rewrite bind_assoc in E.
  apply bind_run in E as [(e & Er & _)|(claim & w1 & Er & E)]; pose proof (RevalidateUnique_quiet n rv _ _ _ HI Er) as H1; [by left|].
  apply RevalidateUnique_ok in Er. cbv zeta in E. rewrite bind_assoc in E.
  apply bind_run in E as [(e & Eq & _)|([] & w2 & [Eid ->]%require_ok & E)]; [left; by apply require_err in Eq as ->|].
  rewrite bind_assoc in E.
  apply bind_run in E as [(e & Eq & _)|([] & w2 & [Hex ->]%require_ok & E)]; [left; by apply require_err in Eq as ->|].
  apply bool_decide_eq_true in Hex.
  right. exists claim, w, w1. split; [done|]. split; [done|]. split.
  - intros Hne%eqb_neq_iff. rewrite Hne in Eid. by apply bool_decide_eq_true in Eid.
  - intros row identity Hr Hi Hk Hf.
    assert (Hin : row ∈ exact_rows (inspectClaimRecords (Records s) t claim)).
    { unfold inspectClaimRecords. rewrite inspect_claim_fold. right. split; [done|]. split; [done|]. eauto. }
    rewrite Hex in Hin. by apply elem_of_nil in Hin.
Qed.
End release.
