(* ===== verification/ClaimHistory.v ===== *)
(** * The stored versions of claims

    The API server is known by the versions it has stored: an object's name and
    resource version identify its content for ever, a write replaces the version
    it was based on, and the status subresource separates spec from status.
    Other writers may add versions at any time.  Against this interface the
    repository's operations keep two properties: what a reservation returns is a
    claim for the requested record, and a confirmed claim is bound to a row. *)
From Stdlib Require Import String Ascii ZArith Lia.
From S2P Require Import Prelude Effects GoStrings NetIP GoEncoding Endpoint Plan Document Claims Manager ClaimsLaws.
Open Scope string_scope.
Open Scope list_scope.
Open Scope Z_scope.
Open Scope go_scope.

Definition version_key (c : Claim) : string * string := (Cl_Name c, ResourceVersion c).

(** [metav1.Time] is sent as RFC 3339: of the nanoseconds the clock gives, whole
    seconds arrive. *)
Definition wire_time (t : Z) : Z := t / 1000000000 * 1000000000.
Definition wire_status (s : ClaimStatus) : ClaimStatus :=
  mkClaimStatus (Cl_Phase s) (ObservedProviderRevision s) (wire_time <$> LastConfirmedTime s).

Lemma wire_status_idem s : wire_status (wire_status s) = wire_status s.
Proof. unfold wire_status. cbn. f_equal. destruct (LastConfirmedTime s); cbn; [|done]. f_equal. unfold wire_time. by rewrite Z.div_mul. Qed.

(** What a request makes of the version [old] it is based on. *)
Definition created_from (c r : Claim) : Prop := Cl_Name r = Cl_Name c /\ Cl_Spec r = Cl_Spec c /\ phase_of r = "".
Definition updated_from (c old r : Claim) : Prop := Cl_Name r = Cl_Name c /\ Cl_Spec r = Cl_Spec c /\ Cl_Status r = Cl_Status old.
Definition status_updated_from (c old r : Claim) : Prop := Cl_Name r = Cl_Name c /\ Cl_Spec r = Cl_Spec old /\ Cl_Status r = wire_status (Cl_Status c).
Definition touched_from (old r : Claim) : Prop := Cl_Spec r = Cl_Spec old /\ Cl_Status r = Cl_Status old.

Section history.
Context {W : Type} (hist : W -> gmap (string * string) Claim) (others : Claim -> Prop).

Definition stored (w : W) (c : Claim) : Prop := hist w !! version_key c = Some c.

(** Versions are never dropped or changed; a new one is another writer's or the request's. *)
Definition grows (mine : Claim -> Prop) (w w' : W) : Prop :=
  hist w ⊆ hist w' /\ forall k c, hist w' !! k = Some c -> hist w !! k = Some c \/ others c \/ mine c.

(** A version [r] made from the one stored under [key], which another writer may have just stored. *)
Definition based_on (f : Claim -> Claim -> Prop) (key : string * string) (w w' : W) (r : Claim) : Prop :=
  exists old, hist w' !! key = Some old /\ (hist w !! key = Some old \/ others old) /\ f old r.

(** A failed request may have been carried out. *)
Class ClaimServer (store : ClaimStore W) : Prop := {
  cs_Get n w w' r : store_Get store n w = (w', r) -> grows (fun _ => False) w w' /\
    (forall c, r = Ok c -> stored w' c /\ Cl_Name c = n);
  cs_List w w' r : store_List store w = (w', r) -> grows (fun _ => False) w w' /\
    (forall l c, r = Ok l -> c ∈ l -> stored w' c);
  cs_Create c w w' r : store_Create store c w = (w', r) -> grows (created_from c) w w' /\
    (forall x, r = Ok x -> stored w' x /\ created_from c x);
  cs_Update c w w' r : store_Update store c w = (w', r) -> grows (based_on (updated_from c) (version_key c) w w') w w' /\
    (forall x, r = Ok x -> stored w' x /\ based_on (updated_from c) (version_key c) w w' x);
  cs_UpdateStatus c w w' r : store_UpdateStatus store c w = (w', r) ->
    grows (based_on (status_updated_from c) (version_key c) w w') w w' /\
    (forall x, r = Ok x -> stored w' x /\ based_on (status_updated_from c) (version_key c) w w' x);
  (* without an expected version, whatever version there is *)
  cs_Delete n rv w w' r : store_Delete store n rv w = (w', r) ->
    exists found, (rv <> "" -> found = rv) /\ grows (based_on touched_from (n, found) w w') w w'
}.
End history.

Section repository.
Context {W : Type} (hist : W -> gmap (string * string) Claim) (others : Claim -> Prop) (store : ClaimStore W).
Context `{!ClaimServer hist others store}.

Lemma stored_mono w w' c : hist w ⊆ hist w' -> stored hist w c -> stored hist w' c.
Proof. intros Hsub H. by eapply lookup_weaken. Qed.

(** No request removes a version. *)
Lemma stored_kept d : store_keeps (fun w => stored hist w d) store.
Proof.
  split; intros; intros v v' r Hv Ev; destruct r; (eapply stored_mono; [|exact Hv]);
    first [ by apply (cs_Get hist others) in Ev as [[? _] _] | by apply (cs_List hist others) in Ev as [[? _] _]
          | by apply (cs_Create hist others) in Ev as [[? _] _] | by apply (cs_Update hist others) in Ev as [[? _] _]
          | by apply (cs_UpdateStatus hist others) in Ev as [[? _] _] | by apply (cs_Delete hist others) in Ev as (? & _ & ? & _) ].
Qed.

Lemma stored_unique w c d : stored hist w c -> stored hist w d -> version_key c = version_key d -> c = d.
Proof. unfold stored. intros Hc Hd E. rewrite E in Hc. congruence. Qed.

(** The versions two calls apart. *)
Lemma get_version_history n rv w w' c : get_version store n rv w = (w', Ok c) ->
  hist w ⊆ hist w' /\ stored hist w' c /\ version_key c = (n, rv).
Proof.
  intros E. apply get_version_ok in E as (E & _ & Hrv). apply (cs_Get hist others) in E as [[Hsub _] Hc].
  destruct (Hc c eq_refl) as [Hs Hn]. split; [done|]. split; [done|]. unfold version_key. by rewrite Hn, Hrv.
Qed.

Lemma RevalidateUnique_history n rv w w' c : RevalidateUnique store n rv w = (w', Ok c) ->
  hist w ⊆ hist w' /\ stored hist w' c /\ version_key c = (n, rv).
Proof.
  intros E. apply RevalidateUnique_ok in E as (w1 & claims & c' & E1 & Hrv & _ & E2 & _).
  apply (cs_Get hist others) in E1 as [[Hs1 _] Hc]. destruct (Hc c eq_refl) as [Hs Hn]. apply (cs_List hist others) in E2 as [[Hs2 _] _].
  split; [by transitivity (hist w1)|]. split; [by eapply stored_mono|]. unfold version_key. by rewrite Hn, Hrv.
Qed.

(** A transition changes the phase of the version it was asked for, and nothing of its spec. *)
Lemma transition_history c phase rev w w' r : stored hist w c ->
  transition store (Cl_Name c) (ResourceVersion c) phase rev w = (w', Ok r) ->
  stored hist w' r /\ Cl_Name r = Cl_Name c /\ Cl_Spec r = Cl_Spec c /\ phase_of r = phase.
Proof.
  intros Hc E. unfold transition in E. apply bind_ok in E as (d & w1 & E1 & E). apply get_version_history in E1 as (Hs & Hd & Hk).
  assert (d = c) as ->. { eapply stored_unique; [exact Hd|by eapply stored_mono|exact Hk]. }
  apply bind_ok in E as (now & w2 & [= <- <-] & E). apply wrap_ok, (cs_UpdateStatus hist others) in E as [[Hs2 _] Hr].
  destruct (Hr r eq_refl) as (Hst & old & Ho & _ & Hn & Hspec & Hstatus).
  assert (old = c) as ->.
  { apply (stored_mono _ _ _ Hs2) in Hd. unfold stored in Hd. change (version_key _) with (version_key c) in Ho. congruence. }
  split; [done|]. split; [done|]. split; [done|]. unfold phase_of. by rewrite Hstatus.
Qed.

Lemma update_history c w w' r : store_Update store c w = (w', Ok r) -> 
  stored hist w' r /\ Cl_Name r = Cl_Name c /\ Cl_Spec r = Cl_Spec c.
Proof. intros E. apply (cs_Update hist others) in E as [_ Hr]. destruct (Hr r eq_refl) as (? & ? & ? & _ & ? & ? & ?). done. Qed.

Lemma create_history c w w' r : store_Create store c w = (w', Ok r) -> 
  stored hist w' r /\ Cl_Name r = Cl_Name c /\ Cl_Spec r = Cl_Spec c.
Proof. intros E. apply (cs_Create hist others) in E as [_ Hr]. destruct (Hr r eq_refl) as (? & ? & ? & ?). done. Qed.

(** ** What [Reserve] returns *)

Definition reserves (identity : Identity) (fingerprint controllerID : string) (c : Claim) : Prop :=
  Cl_Name c = ClaimName identity /\ claimSpecMatches c identity fingerprint controllerID = true.

Lemma reserves_spec identity fp ctrl c d : Cl_Name d = Cl_Name c -> Cl_Spec d = Cl_Spec c ->
  reserves identity fp ctrl c -> reserves identity fp ctrl d.
Proof. unfold reserves, claimSpecMatches. by intros -> ->. Qed.

Lemma transition_reserves identity fp ctrl c phase rev w w' r : stored hist w c -> reserves identity fp ctrl c ->
  transition store (Cl_Name c) (ResourceVersion c) phase rev w = (w', Ok r) -> reserves identity fp ctrl r.
Proof. intros Hc Hres E. apply transition_history in E as (_ & Hn & Hs & _); [|done]. by eapply reserves_spec. Qed.

Lemma reserve_matching_reserves identity fp request c w w' r : stored hist w c -> Cl_Name c = ClaimName identity ->
  reserve_matching store c identity fp request w = (w', Ok r) -> reserves identity fp (Rq_ControllerID request) r.
Proof.
  intros Hc Hn E. unfold reserve_matching in E. destruct (claimSpecMatches _ _ _ _) eqn:Em; cbn [negb] in E;
    [|by apply bind_ok in E as (? & ? & _ & [=])].
  assert (Hres : reserves identity fp (Rq_ControllerID request) c) by done.
  apply bind_ok in E as (d & w1 & E1 & E).
  assert (stored hist w1 d /\ reserves identity fp (Rq_ControllerID request) d) as [Hd Hdr].
  { destruct (containsString _ _) eqn:Ef; [by injection E1 as <- <-|]. apply wrap_ok, update_history in E1 as (H1 & H2 & H3).
    split; [done|]. unfold add_finalizer in H2, H3. rewrite Ef in H2, H3. by eapply reserves_spec. }
  cbv zeta in E. destruct (_ || _); [by injection E as _ <-|]. destruct (_ =s ""); [by eapply transition_reserves|].
  by destruct (_ =s _).
Qed.

Lemma recoverOrphaned_reserves take identity fp request c w w' r : Cl_Name c = ClaimName identity -> recoverable c identity request = true ->
  recoverOrphaned store take c fp request w = (w', Ok (Some r)) -> reserves identity fp (Rq_ControllerID request) r.
Proof.
  intros Hn Hrec E. unfold recoverOrphaned in E. apply bind_ok in E as (s & w1 & E1 & E). run_ok E.
  cbv zeta in E. destruct (_ && _); [|done].
  apply bind_ok in E as (d & w2 & E2 & E). apply wrap_ok, update_history in E2 as (H1 & H2 & H3).
  apply bind_ok in E as (x & w3 & E3 & [= _ <-]). eapply transition_reserves; [done| |done].
  unfold recoverable in Hrec. unfold reserves, claimSpecMatches. rewrite H2, H3.
  apply andb_true_iff in Hrec as [Hrec Hctrl]. apply andb_true_iff in Hrec as [Hrec Hkey]. apply andb_true_iff in Hrec as [_ Ht].
  cbn [with_spec set_Sources set_Fingerprint set_ProviderID Cl_Spec Cl_Name TargetRef Cl_Record Cl_Fingerprint Cl_ControllerID].
  rewrite Ht, Hkey, Hctrl, String.eqb_refl. split; [|done]. unfold add_finalizer. by destruct (containsString _ _).
Qed.

Lemma IdentityFor_target t e identity : IdentityFor t e = Ok identity -> Id_TargetName identity = ToLower (TrimSpace t).
Proof. unfold IdentityFor. repeat case_match; by intros [= <-]. Qed.

Lemma requestIdentity_ok t e identity fp : requestIdentity t e = Ok (identity, fp) ->
  IdentityFor t e = Ok identity /\ Fingerprint t e = Ok fp.
Proof.
  unfold requestIdentity. destruct (IdentityFor t e) eqn:E1; [|done]. destruct (Fingerprint t e) eqn:E2; [|done].
  by intros [= <- <-].
Qed.

Lemma new_claim_reserves t e identity fp ns id sources ctrl adoption : IdentityFor t e = Ok identity ->
  reserves identity fp ctrl (new_claim ns identity fp id sources ctrl adoption).
Proof.
  intros Hi%IdentityFor_target. split; [done|]. unfold claimSpecMatches, new_claim.
  cbn [Cl_Spec TargetRef Cl_Record Cl_Fingerprint Cl_ControllerID]. rewrite !String.eqb_refl, bool_decide_eq_true_2 by done.
  unfold EqualFold. rewrite Hi, TrimSpace_ToLower, TrimSpace_idem. by rewrite String.eqb_refl.
Qed.

Lemma claimsForRecord_elem c claims t k : c ∈ claimsForRecord claims t k -> c ∈ claims.
Proof. unfold claimsForRecord. rewrite list_elem_of_filter. tauto. Qed.

(** A reservation names the requested identity, with its fingerprint and for the requesting controller. *)
Lemma Reserve_reserves request w w' c : (forall s d, Rq_Snapshot request = Some s -> keeps (fun w => stored hist w d) s) ->
  Reserve store request w = (w', Ok c) ->
  exists identity fp, IdentityFor (Rq_TargetName request) (Rq_Endpoint request) = Ok identity /\
    Fingerprint (Rq_TargetName request) (Rq_Endpoint request) = Ok fp /\ reserves identity fp (Rq_ControllerID request) c.
Proof.
  intros Hs E. unfold Reserve in E. apply bind_ok in E as ([identity fp] & w0 & Hl & E). apply lift_ok in Hl as [Hl ->].
  apply requestIdentity_ok in Hl as [Hi Hf]. exists identity, fp. split; [done|]. split; [done|]. run_ok E.
  apply bind_ok in E as (claims & w1 & E1 & E). apply wrap_ok, (cs_List hist others) in E1 as [_ Hall].
  destruct (claimsForRecord _ _ _) as [|d [|? ?]] eqn:Ec; cbv zeta in E; [| |by apply bind_ok in E as (? & ? & _ & [=])].
  - apply bind_ok in E as (d & w2 & E2 & E). apply wrap_ok, create_history in E2 as (H1 & H2 & H3).
    eapply transition_reserves; [done| |done]. eapply reserves_spec; [done|done|by eapply new_claim_reserves].
  - destruct (Cl_Name d =s ClaimName identity) eqn:En; [|by apply bind_ok in E as (? & ? & _ & [=])]. bools.
    assert (Hd : stored hist w1 d) by (eapply Hall; [done|]; eapply claimsForRecord_elem; rewrite Ec; by left).
    unfold reserve_existing in E. destruct (Rq_Snapshot request) as [s|] eqn:Es; [|by eapply reserve_matching_reserves].
    destruct (recoverable d identity request) eqn:Er; [|by eapply reserve_matching_reserves].
    apply bind_ok in E as (o & w2 & E2 & E). destruct o as [x|].
    { injection E as <- <-. by eapply recoverOrphaned_reserves. }
    eapply reserve_matching_reserves; [|done|done].
    assert (Hk : keeps (fun w => stored hist w d) (recoverOrphaned store s d fp request)).
    2:{ exact (Hk _ _ _ Hd E2). }
    apply keeps_recoverOrphaned; [apply stored_kept|by apply Hs].
Qed.
End repository.

(** ** Confirmed claims are bound *)

Definition bound (c : Claim) : Prop := phase_of c = OwnershipPhaseConfirmed -> Cl_ProviderID (Cl_Spec c) <> "".

Section bound.
Context {W : Type} (hist : W -> gmap (string * string) Claim) (store : ClaimStore W).
Context `{!ClaimServer hist bound store}.

(** Every version ever stored is bound when it is confirmed. *)
Definition all_bound (w : W) : Prop := map_Forall (fun _ c => bound c) (hist w).

Lemma stored_bound w c : all_bound w -> stored hist w c -> bound c.
Proof. intros Hall Hc. exact (Hall _ _ Hc). Qed.

Lemma grows_bound mine w w' : all_bound w -> grows hist bound mine w w' -> (forall c, mine c -> bound c) -> all_bound w'.
Proof. intros Hall [_ Hnew] Hm k c Hk. destruct (Hnew _ _ Hk) as [H|[H|H]]; auto. exact (Hall _ _ H). Qed.

Lemma store_Get_bound n : keeps all_bound (store_Get store n).
Proof. intros w w' r HI E. apply (cs_Get hist bound) in E as [Hg _]. destruct r; by eapply grows_bound. Qed.
Lemma store_List_bound : keeps all_bound (store_List store).
Proof. intros w w' r HI E. apply (cs_List hist bound) in E as [Hg _]. destruct r; by eapply grows_bound. Qed.
Lemma store_Create_bound c : keeps all_bound (store_Create store c).
Proof.
  intros w w' r HI E. apply (cs_Create hist bound) in E as [Hg _].
  destruct r; (eapply grows_bound; [done..|]); intros x (_ & _ & Hp) Hc; by rewrite Hp in Hc.
Qed.
Lemma store_Delete_bound n rv : keeps all_bound (store_Delete store n rv).
Proof.
  intros w w' r HI E. apply (cs_Delete hist bound) in E as (found & _ & Hg).
  destruct r; (eapply grows_bound; [done..|]); intros x (old & _ & Hold & Hs & Ht); unfold bound, phase_of;
    rewrite Hs, Ht; (destruct Hold as [Hold|Hold]; [exact (HI _ _ Hold)|exact Hold]).
Qed.

(** An update of a stored version is safe when it binds the claim, or leaves its identifier. *)
Lemma store_Update_bound c c' : version_key c' = version_key c ->
  (bound c -> forall x, Cl_Spec x = Cl_Spec c' -> Cl_Status x = Cl_Status c -> bound x) ->
  hoare (fun w => all_bound w /\ stored hist w c) (store_Update store c') (fun x w => all_bound w /\ stored hist w x /\ Cl_Name x = Cl_Name c' /\ Cl_Spec x = Cl_Spec c') (fun _ => all_bound).
Proof.
  intros Hk Hsafe w w' r [HI Hc] E. pose proof E as E0. apply (cs_Update hist bound) in E as [[Hsub Hnew] Hr].
  assert (Hw' : all_bound w').
  { eapply grows_bound; [done|by split|]. intros x (old & Hold & _ & _ & Hspec & Hst).
    assert (old = c) as ->.
    { apply (stored_mono hist _ _ _ Hsub) in Hc. unfold stored in Hc. rewrite Hk in Hold. congruence. }
    apply Hsafe; [by eapply stored_bound|done|done]. }
  destruct r as [x|e]; [|done]. by apply (update_history hist bound store) in E0 as (? & ? & ?).
Qed.

Lemma store_UpdateStatus_bound c c' : version_key c' = version_key c ->
  (bound c -> forall x, Cl_Spec x = Cl_Spec c -> phase_of x = phase_of c' -> bound x) ->
  hoare (fun w => all_bound w /\ stored hist w c) (store_UpdateStatus store c') (fun _ => all_bound) (fun _ => all_bound).
Proof.
  intros Hk Hsafe w w' r [HI Hc] E. apply (cs_UpdateStatus hist bound) in E as [[Hsub Hnew] Hr].
  assert (Hw' : all_bound w').
  { eapply grows_bound; [done|by split|]. intros x (old & Hold & _ & _ & Hspec & Hst).
    assert (old = c) as ->.
    { apply (stored_mono hist _ _ _ Hsub) in Hc. unfold stored in Hc. rewrite Hk in Hold. congruence. }
    apply Hsafe; [by eapply stored_bound|done|unfold phase_of; by rewrite Hst]. }
  by destruct r.
Qed.
#[local] Hint Resolve store_Get_bound store_List_bound store_Create_bound store_Delete_bound : effects.

Lemma Get_bound n : keeps all_bound (Get store n).
Proof. unfold Get. walk. Qed.
Lemma List_bound : keeps all_bound (List store).
Proof. unfold List. walk. Qed.
Lemma get_version_bound n rv : keeps all_bound (get_version store n rv).
Proof. unfold get_version. pose proof Get_bound. walk. Qed.
#[local] Hint Resolve Get_bound List_bound get_version_bound : effects.

(** A version read is stored, and stays so. *)
Lemma hoare_get_version n rv : hoare all_bound (get_version store n rv)
  (fun c w => all_bound w /\ stored hist w c /\ version_key c = (n, rv)) (fun _ => all_bound).
Proof.
  intros w w' r HI E. pose proof (get_version_bound _ _ _ _ _ HI E) as Hw. destruct r as [c|]; [|done].
  by apply (get_version_history hist bound store) in E as (_ & ? & ?).
Qed.

Lemma hoare_RevalidateUnique n rv : keeps all_bound (RevalidateUnique store n rv) ->
  hoare all_bound (RevalidateUnique store n rv)
  (fun c w => all_bound w /\ stored hist w c /\ version_key c = (n, rv)) (fun _ => all_bound).
Proof.
  intros Hk w w' r HI E. pose proof (Hk _ _ _ HI E) as Hw. destruct r as [c|]; [|done].
  by apply (RevalidateUnique_history hist bound store) in E as (_ & ? & ?).
Qed.

(** A transition to [phase] is safe when the version it is for may have that phase. *)
Lemma transition_hoare n rv phase rev (P : W -> Prop) : (forall w, P w -> all_bound w) ->
  (phase = OwnershipPhaseConfirmed -> exists c, version_key c = (n, rv) /\ Cl_ProviderID (Cl_Spec c) <> "" /\
     forall w, P w -> stored hist w c) ->
  hoare P (transition store n rv phase rev) (fun _ => all_bound) (fun _ => all_bound).
Proof.
  intros HP Hph w w' r Hw E. unfold transition, bind in E. destruct (get_version store n rv w) as [w1 [d|e]] eqn:E1.
  2:{ injection E as <- <-. exact (get_version_bound _ _ _ _ _ (HP _ Hw) E1). }
  pose proof (hoare_get_version _ _ _ _ _ (HP _ Hw) E1) as (H1 & Hd & Hk). unfold read in E. cbv zeta in E.
  assert (Hsafe : forall s, Cl_Phase s = phase -> bound d -> forall x, Cl_Spec x = Cl_Spec d ->
            phase_of x = phase_of (with_status s d) -> bound x).
  { intros s Hs _ x Hx1 Hx2 Hc. rewrite Hx2 in Hc. unfold phase_of in Hc. cbn in Hc. rewrite Hs in Hc.
    destruct (Hph Hc) as (c & Hck & Hid & Hst). rewrite Hx1. replace d with c; [done|].
    apply (get_version_history hist bound store) in E1 as (Hsub & _ & _). eapply (stored_unique hist w1); [|done|congruence].
    eapply stored_mono; [done|by apply Hst]. }
  refine (hoare_wrap (fun w => all_bound w /\ stored hist w d) _ _ (fun _ => all_bound) (fun _ => all_bound) _ _ _ _ (conj H1 Hd) E).
  eapply (store_UpdateStatus_bound d); [done|]. intros Hb x Hx1 Hx2. eapply Hsafe; [|done|done|exact Hx2]. done.
Qed.

Lemma transition_bound n rv phase rev : phase <> OwnershipPhaseConfirmed -> keeps all_bound (transition store n rv phase rev).
Proof. intros Hp. by apply transition_hoare. Qed.

Lemma conflict_bound n rv rev : keeps all_bound (transition store n rv OwnershipPhaseConflict rev).
Proof. by apply transition_bound. Qed.
Lemma reserved_bound n rv rev : keeps all_bound (transition store n rv OwnershipPhaseReserved rev).
Proof. by apply transition_bound. Qed.
Lemma orphaned_bound n rv rev : keeps all_bound (transition store n rv OwnershipPhaseOrphaned rev).
Proof. by apply transition_bound. Qed.
#[local] Hint Resolve conflict_bound reserved_bound orphaned_bound : effects.

Lemma markClaimsConflict_bound l : keeps all_bound (markClaimsConflict store l).
Proof. unfold markClaimsConflict. walk. Qed.
#[local] Hint Resolve markClaimsConflict_bound : effects.

Lemma RevalidateUnique_keeps_bound n rv : keeps all_bound (RevalidateUnique store n rv).
Proof. unfold RevalidateUnique. walk. Qed.

Lemma RevalidateUnique_bound n rv : hoare all_bound (RevalidateUnique store n rv)
  (fun c w => all_bound w /\ stored hist w c /\ version_key c = (n, rv)) (fun _ => all_bound).
Proof. apply hoare_RevalidateUnique, RevalidateUnique_keeps_bound. Qed.

(** Binding [bind]s with a stored claim: the rest starts from the world that stores it. *)
Definition from_stored {E A} (c : Claim) (m : M W E A) : Prop :=
  hoare (fun w => all_bound w /\ stored hist w c) m (fun _ => all_bound) (fun _ => all_bound).

Lemma from_stored_weaken {E A} c (m : M W E A) : keeps all_bound m -> from_stored c m.
Proof. intros Hm w w' r [HI _]. by apply Hm. Qed.

Lemma from_stored_require {E A} c b (e : E) (m : M W E A) : (b = true -> from_stored c m) -> from_stored c (do! require b e in m).
Proof.
  intros Hm w w' r HI. unfold bind, require. destruct b; cbn; [by apply Hm|]. intros [= <- <-]. apply HI.
Qed.

Lemma from_stored_lift {E A B} c (x : result E B) (k : B -> M W E A) : (forall b, x = Ok b -> from_stored c (k b)) ->
  from_stored c (bind (lift x) k).
Proof. intros Hm w w' r HI. unfold bind, lift. destruct x; [by apply Hm|]. intros [= <- <-]. apply HI. Qed.

Lemma from_stored_bound {E A} c (m : M W E A) : (bound c -> from_stored c m) -> from_stored c m.
Proof. intros Hm w w' r [HI Hst]. apply Hm; [by eapply stored_bound|done]. Qed.

(** An update of the stored claim, then the rest from the updated one. *)
Lemma from_stored_update {A} c c' (k : Claim -> M W OwnershipError A) : version_key c' = version_key c ->
  (bound c -> forall x, Cl_Spec x = Cl_Spec c' -> Cl_Status x = Cl_Status c -> bound x) ->
  (forall x, Cl_Spec x = Cl_Spec c' -> from_stored x (k x)) ->
  from_stored c (bind (wrap translateWriteError (store_Update store c')) k).
Proof.
  intros Hv Hsafe Hk. eapply hoare_bind; [apply hoare_wrap; by apply (store_Update_bound c)|].
  intros x w w' r (HI & Hst & _ & Hs). by apply Hk.
Qed.

(** A bound stored claim may be confirmed. *)
Lemma from_stored_confirm c rev : Cl_ProviderID (Cl_Spec c) <> "" ->
  from_stored c (transition store (Cl_Name c) (ResourceVersion c) OwnershipPhaseConfirmed rev).
Proof. intros Hid. apply transition_hoare; [tauto|]. intros _. exists c. split; [done|]. split; [done|tauto]. Qed.

Lemma RevalidateUnique_then {A} n rv (k : Claim -> M W OwnershipError A) :
  (forall c, from_stored c (k c)) -> keeps all_bound (bind (RevalidateUnique store n rv) k).
Proof.
  intros Hk. eapply hoare_bind; [apply RevalidateUnique_bound|]. intros c w w' r (HI & Hst & _). by apply Hk.
Qed.

Lemma RebindConfirmed_bound n rv t e id rev : keeps all_bound (RebindConfirmed store n rv t e id rev).
Proof.
  apply RevalidateUnique_then. intros c. apply from_stored_require. intros Hp. apply from_stored_lift. intros identity _.
  apply from_stored_require. intros _. apply from_stored_lift. intros fp _. bools. apply from_stored_bound. intros Hb.
  apply from_stored_update; [done| |].
  - intros _ x Hx _ _. rewrite Hx. by apply Hb.
  - intros x Hx. apply from_stored_confirm. rewrite Hx. by apply Hb.
Qed.

Lemma Confirm_bound n rv id rev : keeps all_bound (Confirm store n rv id rev).
Proof.
  apply keeps_guard. intros Hids. apply negb_true_iff, orb_false_iff in Hids as [Hid _]. bools.
  assert (Hne : id <> "") by by intros ->. apply RevalidateUnique_then. intros c. apply from_stored_require. intros _. cbv zeta.
  destruct (_ && _) eqn:Eid; [apply from_stored_weaken; walk|]. destruct (_ =s id) eqn:Ee; bools.
  - apply from_stored_confirm. by rewrite Ee.
  - apply from_stored_update; [done| |].
    + intros _ x Hx _ _. by rewrite Hx.
    + intros x Hx. apply from_stored_confirm. by rewrite Hx.
Qed.

Lemma Adopt_bound request : keeps all_bound (Adopt store request).
Proof.
  unfold Adopt. apply keeps_bind; [apply keeps_lift|]. intros [identity fp].
  do 2 (apply keeps_bind; [apply keeps_require|intros _]). apply keeps_guard. intros Hids.
  apply negb_true_iff, orb_false_iff in Hids as [_ Hid]. bools.
  apply keeps_bind; [apply keeps_require|intros _]. apply keeps_bind; [walk|]. intros claims. cbv zeta.
  destruct (claimsForRecord _ _ _) as [|? [|? ?]]; [|walk..].
  eapply hoare_bind.
  { apply hoare_wrap. intros w w' r HI E. pose proof (store_Create_bound _ _ _ _ HI E) as Hw.
    destruct r as [x|]; [|exact Hw]. apply (create_history hist bound store) in E as (Hs & _ & Hx).
    exact (conj Hw (conj Hs Hx)). }
  intros x w w' r (HI & Hst & Hx) E. refine (from_stored_confirm x (Ad_ProviderRevision request) _ _ _ _ (conj HI Hst) E).
  by rewrite Hx.
Qed.

(** Changing only the metadata of a stored claim. *)
Lemma metadata_bound c c' : version_key c' = version_key c -> Cl_Spec c' = Cl_Spec c ->
  from_stored c (wrap translateWriteError (store_Update store c')).
Proof.
  intros Hv Hs. eapply hoare_conseq with (R' := fun _ => all_bound);
    [apply hoare_wrap, (store_Update_bound c c' Hv)|done|by intros ? ? [? _]|done].
  intros Hb x Hx1 Hx2. unfold bound, phase_of. by rewrite Hx1, Hx2, Hs.
Qed.

Lemma releaseFinalizer_bound n rv : keeps all_bound (releaseFinalizer store n rv).
Proof. apply RevalidateUnique_then. intros c. by apply metadata_bound. Qed.

Lemma deleteClaim_bound n rv : keeps all_bound (deleteClaim store n rv).
Proof. unfold deleteClaim. walk. Qed.
#[local] Hint Resolve RebindConfirmed_bound Confirm_bound Adopt_bound releaseFinalizer_bound deleteClaim_bound
  RevalidateUnique_keeps_bound : effects.

Lemma reserve_matching_bound c identity fp request : from_stored c (reserve_matching store c identity fp request).
Proof.
  unfold reserve_matching. destruct (negb _); [apply from_stored_weaken; walk|].
  eapply hoare_bind with (Q' := fun _ => all_bound); [|intros d; apply hoare_keeps; cbv zeta; walk].
  destruct (containsString _ _) eqn:Ef; [by apply from_stored_weaken, keeps_ret|].
  apply metadata_bound; unfold add_finalizer; by rewrite Ef.
Qed.

Lemma recoverOrphaned_bound take c fp request : phase_of c = OwnershipPhaseOrphaned ->
  keeps all_bound take -> (forall d, keeps (fun w => stored hist w d) take) -> from_stored c (recoverOrphaned store take c fp request).
Proof.
  intros Hp Ht Hs. unfold recoverOrphaned. eapply hoare_bind.
  { intros w w' r [HI Hst] E. pose proof (Ht _ _ _ HI E) as H1. pose proof (Hs c _ _ _ Hst E) as H2.
    destruct r; [exact (conj H1 H2)|exact H1]. }
  intros s. apply from_stored_lift. intros _ _. cbv zeta. destruct (_ && _); [|apply from_stored_weaken, keeps_ret].
  apply from_stored_update; [unfold add_finalizer; by destruct (containsString _ _)| |].
  - intros _ x _ Hx Hc. unfold phase_of in *. by rewrite Hx, Hp in Hc.
  - intros x _. apply from_stored_weaken. walk.
Qed.

Lemma Reserve_bound request :
  (forall s, Rq_Snapshot request = Some s -> keeps all_bound s /\ forall d, keeps (fun w => stored hist w d) s) ->
  keeps all_bound (Reserve store request).
Proof.
  intros Hs. unfold Reserve. apply keeps_bind; [apply keeps_lift|]. intros [identity fp].
  do 3 (apply keeps_bind; [apply keeps_require|intros _]). cbv zeta. eapply hoare_bind.
  { apply hoare_wrap. intros w w' r HI E. pose proof (store_List_bound _ _ _ HI E) as Hw. destruct r as [l|]; [|exact Hw].
    apply (cs_List hist bound) in E as [_ Hl]. exact (conj Hw (fun c => Hl l c eq_refl)). }
  intros claims. destruct (claimsForRecord _ _ _) as [|d [|? ?]] eqn:Ec.
  - eapply hoare_pre; [apply hoare_keeps|by intros w [? _]]. walk.
  - apply (hoare_pre _ (fun w => all_bound w /\ stored hist w d)).
    2:{ intros w [HI Hall]. split; [done|]. apply Hall. eapply claimsForRecord_elem. rewrite Ec. by left. }
    destruct (_ =s _); [|apply from_stored_weaken; walk]. unfold reserve_existing.
    destruct (Rq_Snapshot request) as [s|]; [|apply reserve_matching_bound].
    destruct (recoverable d identity request) eqn:Er; [|apply reserve_matching_bound].
    destruct (Hs s eq_refl) as [Hs1 Hs2]. eapply hoare_bind.
    { intros w w' r [HI Hst] E. pose proof (keeps_recoverOrphaned _ _ (stored_kept hist bound store d) s d fp request (Hs2 d) _ _ _ Hst E) as Hk.
      assert (Hp : phase_of d = OwnershipPhaseOrphaned).
      { unfold recoverable in Er. repeat apply andb_true_iff in Er as [Er ?]. by bools. }
      pose proof (recoverOrphaned_bound s d fp request Hp Hs1 Hs2 _ _ _ (conj HI Hst) E) as Hb.
      destruct r; [exact (conj Hb Hk)|exact Hb]. }
    intros [x|]; [apply from_stored_weaken, keeps_ret|apply reserve_matching_bound].
  - eapply hoare_pre; [apply hoare_keeps|by intros w [? _]]. walk.
Qed.

(** *** The manager *)

Lemma MarkConflict_bound n rv rev : keeps all_bound (MarkConflict store n rv rev).
Proof. apply conflict_bound. Qed.
Lemma MarkOrphaned_bound n rv rev : keeps all_bound (MarkOrphaned store n rv rev).
Proof. apply orphaned_bound. Qed.
#[local] Hint Resolve MarkConflict_bound MarkOrphaned_bound : effects.

Lemma confirmObserved_bound c t e s : keeps all_bound (confirmObserved store c t e s).
Proof. unfold confirmObserved. walk. Qed.
Lemma AuthorizeMutation_bound t p s : keeps all_bound (AuthorizeMutation store t p s).
Proof. unfold AuthorizeMutation. walk. Qed.
Lemma ReconcileClaim_bound n rv t s : keeps all_bound (ReconcileClaim store n rv t s).
Proof. unfold ReconcileClaim, conflict_claim. walk. Qed.
Lemma ReleaseAndDeleteClaim_bound n rv t s : keeps all_bound (ReleaseAndDeleteClaim store n rv t s).
Proof. unfold ReleaseAndDeleteClaim, ReleaseClaimFinalizer. walk. Qed.
#[local] Hint Resolve confirmObserved_bound AuthorizeMutation_bound ReconcileClaim_bound ReleaseAndDeleteClaim_bound : effects.

(** What the provider's calls must respect: they are not claims. *)
Record provider_bound (provider : ClaimProvider W) : Prop := {
  pb_Snapshot : keeps all_bound (provider_Snapshot provider);
  pb_stored d : keeps (fun w => stored hist w d) (provider_Snapshot provider);
  pb_Create e : keeps all_bound (provider_Create provider e);
  pb_ctx w : all_bound w -> all_bound (provider_ctx provider w).1
}.

Lemma ReconcileCreate_bound provider request : provider_bound provider -> Rq_Snapshot request = None ->
  keeps all_bound (ReconcileCreate store provider request).
Proof.
  intros [Hsnap Hst Hcreate] Hreq. unfold ReconcileCreate, after_create. apply keeps_bind.
  { apply Reserve_bound. intros s. cbn. rewrite Hreq. by intros [= <-]. }
  intros c. walk.
Qed.

Lemma ExecuteMutation_bound provider t p mutate : provider_bound provider -> keeps all_bound mutate ->
  keeps all_bound (ExecuteMutation store provider t p mutate).
Proof. intros [Hsnap _ _ Hctx] Hm. pose proof (fun E => keeps_observe (E := E) all_bound _ Hctx). unfold ExecuteMutation. walk. Qed.

Lemma AdoptRecord_bound provider request : provider_bound provider -> keeps all_bound (AdoptRecord store provider request).
Proof. intros [Hsnap _ _]. unfold AdoptRecord. walk. Qed.
End bound.
