(* ===== verification/SharedClient.v ===== *)
(** * cmd/fortigate-external-dns/shared.go: the client of a shared zone

    The wrapper the runner uses for a shared zone.  It labels the provider's rows
    with the claims that own them, and turns every operation into the claim
    protocol of the manager around one request of the FortiGate client.  Claims
    and device live in one world. *)
From Stdlib Require Import String Ascii ZArith Lia.
From S2P Require Import Prelude Effects GoStrings NetIP GoEncoding Endpoint Plan Document Executor Client Claims Manager.
Open Scope string_scope.
Open Scope list_scope.
Open Scope Z_scope.
Open Scope go_scope.

Definition providerRowsByID (records : list Endpoint) (providerID : string) : list Endpoint :=
  filter (fun r => ProviderID r = providerID) records.

Definition is_exact (targetName wanted providerID : string) (record : Endpoint) : bool :=
  (ProviderID record =s providerID)
  && match Fingerprint targetName record with Ok fingerprint => fingerprint =s wanted | Err _ => false end.

Definition exactProviderRecord (records : list Endpoint) (providerID targetName : string) (desired : Endpoint)
    : result OwnershipError Endpoint :=
  let? wanted := Fingerprint targetName desired in
  match filter (fun r => is_exact targetName wanted providerID r = true) records with
  | [record] => Ok record
  | _ => Err ErrProviderConflict
  end.

Definition source_object (ref : SourceRef) : SourceObjectReference :=
  mkSourceObject (APIVersion ref) (Kind ref) (Namespace ref) (Name ref) (UID ref).
Definition source_ref (s : SourceObjectReference) : SourceRef :=
  mkSourceRef (SOR_APIVersion s) (SOR_Kind s) (SOR_Namespace s) (SOR_Name s) (SOR_UID s).

Definition set_owner (owner : string) (source : SourceRef) (e : Endpoint) : Endpoint :=
  mkEndpoint (DNSName e) (RecordType e) (Targets e) (TTL e) (Zone e) owner source (ProviderID e) (Disabled e).

(** The claim of a row, by the row's name; of two claims with one name the later counts. *)
Definition claims_by_name (claims : list Claim) : gmap string Claim :=
  foldl (fun m c => <[Cl_Name c := c]> m) ∅ claims.

Definition bind_row (targetName controller : string) (claims : gmap string Claim) (row : Endpoint) : Endpoint :=
  match IdentityFor targetName row with
  | Err _ => row
  | Ok identity =>
      match claims !! ClaimName identity with
      | None => row
      | Some claim =>
          if (phase_of claim =s OwnershipPhaseConfirmed) && (Cl_ControllerID (Cl_Spec claim) =s controller)
             && ClaimMatches claim targetName row
          then set_owner controller (match Cl_Sources (Cl_Spec claim) with s :: _ => source_ref s | [] => Source row end) row
          else row
      end
  end.

Record sharedDNSClient := mkShared { Sh_namespace : string; Sh_targetName : string; Sh_controller : string }.

Section shared.
Context {W : Type} (dev : Device W) (cfg : ClientConfig) (store : ClaimStore W) (wraps : string -> bool).
Context (c : sharedDNSClient).

(** The FortiGate client, with its errors as those of the provider. *)
Definition provider_error (es : list ClientError) : OwnershipError := ErrProvider (existsb (wraps_context_error wraps) es).

Definition client_list : M W OwnershipError (list Endpoint * string) :=
  wrap (fun e => provider_error [e]) (ListRecordsWithRevision dev cfg).

Definition client_apply (operations : list Operation) (dryRun : bool) : M W OwnershipError unit :=
  fun w => match Apply dev cfg w operations dryRun with
           | (w, []) => (w, Ok tt)
           | (w, es) => (w, Err (provider_error es))
           end.

Definition check_before_operation : M W OwnershipError unit :=
  fun w => match beforeOperation dev w with
           | (w, None) => (w, Ok tt)
           | (w, Some reason) => (w, Err (provider_error [errUnauthorized reason]))
           end.

Definition take_snapshot : M W OwnershipError Snapshot :=
  let! (records, revision) := client_list in ret (mkSnapshot revision (negb (revision =s "")) records).

Definition sharedProvider : ClaimProvider W :=
  mkClaimProvider take_snapshot
    (fun endpoint => client_apply [mkOperation OperationCreate endpoint zeroEndpoint ""] false)
    (fun w => match ctxError dev w with (w, None) => (w, None) | (w, Some reason) => (w, Some (provider_error [errCancelled reason])) end).

Definition bindConfirmedOwnership (records : list Endpoint) : M W OwnershipError (list Endpoint) :=
  let! claims := List store in
  ret (bind_row (Sh_targetName c) (Sh_controller c) (claims_by_name claims) <$> records).

Definition shared_ListRecordsWithRevision : M W OwnershipError (list Endpoint * string) :=
  let! (records, revision) := client_list in
  let! records := bindConfirmedOwnership records in
  ret (records, revision).

Fixpoint plan_preconditions (providerRevision : string) (operations : list Operation) (seen : gset string)
    (acc : list OwnershipPrecondition) : M W OwnershipError (list OwnershipPrecondition) :=
  match operations with
  | [] => ret acc
  | operation :: rest =>
      if (OpType operation =s OperationCreate) || (OpType operation =s OperationConflict)
      then plan_preconditions providerRevision rest seen acc
      else
        let! identity := lift (IdentityFor (Sh_targetName c) (Current operation)) in
        let name := ClaimName identity in
        if bool_decide (name ∈ seen) then plan_preconditions providerRevision rest seen acc
        else
          let! claim := Get store name in
          plan_preconditions providerRevision rest ({[name]} ∪ seen)
            (acc ++ [Mut_Ownership (PreconditionForClaim OwnershipModeShared claim providerRevision)])
  end.

Definition PlanOwnershipPreconditions (operations : list Operation) (providerRevision : string)
    : M W OwnershipError (list OwnershipPrecondition) :=
  do! require (negb (providerRevision =s "")) ErrProviderSnapshot in
  plan_preconditions providerRevision operations ∅ [].

(** *** Recovering an interrupted claim *)

Definition source_matches (claim : Claim) (desired : Endpoint) : bool :=
  let s := Source desired in
  existsb (fun r => negb (UID s =s "") && bool_decide (r = source_object s)) (Cl_Sources (Cl_Spec claim)).

Definition recoverable_claim (claim : Claim) (identity : Identity) (current desired : Endpoint) : bool :=
  (Cl_Namespace claim =s Sh_namespace c) && negb (Cl_Deleting claim) && (TargetRef (Cl_Spec claim) =s Sh_targetName c)
  && (Cl_ControllerID (Cl_Spec claim) =s Sh_controller c) && bool_decide (Cl_Record (Cl_Spec claim) = RecordKey identity)
  && (if phase_of claim =s OwnershipPhaseReserved then
        ClaimMatches claim (Sh_targetName c) desired
        && ((Cl_ProviderID (Cl_Spec claim) =s "") || (Cl_ProviderID (Cl_Spec claim) =s ProviderID current))
      else (phase_of claim =s OwnershipPhaseConfirmed) && (Cl_ProviderID (Cl_Spec claim) =s ProviderID current))
  && source_matches claim desired.

Definition finish_recovery (claim : Claim) (current desired : Endpoint) : M W OwnershipError unit :=
  let! snapshot := take_snapshot in
  if negb (Stable snapshot) || (Revision snapshot =s "") then ret tt
  else if negb (length (providerRowsByID (Records snapshot) (ProviderID current)) =? 1)%nat then ret tt
  else match exactProviderRecord (Records snapshot) (ProviderID current) (Sh_targetName c) desired with
       | Err _ => ret tt
       | Ok observed =>
           do! check_before_operation in
           if phase_of claim =s OwnershipPhaseReserved then
             let! (_, e) := ReconcileClaim store (Cl_Name claim) (ResourceVersion claim) (Sh_targetName c) snapshot in
             match e with Some e => fail e | None => ret tt end
           else match Fingerprint (Sh_targetName c) observed with
                | Err _ => ret tt
                | Ok fingerprint =>
                    if fingerprint =s Cl_Fingerprint (Cl_Spec claim) then ret tt
                    else do! RebindConfirmed store (Cl_Name claim) (ResourceVersion claim) (Sh_targetName c) observed
                               (ProviderID current) (Revision snapshot) in ret tt
                end
       end.

Definition recoverInterruptedClaim (operation : Operation) : M W OwnershipError unit :=
  let current := Current operation in
  let desired := Desired operation in
  if ProviderID current =s "" then ret tt
  else match IdentityFor (Sh_targetName c) current, IdentityFor (Sh_targetName c) desired with
       | Ok currentIdentity, Ok desiredIdentity =>
           if negb (bool_decide (desiredIdentity = currentIdentity)) then ret tt
           else
             let! claim := Get store (ClaimName currentIdentity) in
             if recoverable_claim claim currentIdentity current desired then finish_recovery claim current desired else ret tt
       | _, _ => ret tt
       end.

(** *** Operations *)

Definition release_deleted (claim : Claim) (after : Snapshot) : M W OwnershipError unit :=
  let! (reconciled, e) := ReconcileClaim store (Cl_Name claim) (ResourceVersion claim) (Sh_targetName c) after in
  match e with
  | Some e => fail e
  | None =>
      if phase_of reconciled =s OwnershipPhaseOrphaned
      then ReleaseAndDeleteClaim store (Cl_Name reconciled) (ResourceVersion reconciled) (Sh_targetName c) after
      else ret tt
  end.

Definition applyExisting (operation : Operation) : M W OwnershipError unit :=
  let! identity := lift (IdentityFor (Sh_targetName c) (Current operation)) in
  let! claim := Get store (ClaimName identity) in
  let! snapshot := take_snapshot in
  do! ExecuteMutation store sharedProvider (OpType operation)
        (PreconditionForClaim OwnershipModeShared claim (Revision snapshot)) (client_apply [operation] false) in
  let! after := take_snapshot in
  if OpType operation =s OperationDelete then release_deleted claim after
  else
    let! observed := lift (exactProviderRecord (Records after) (ProviderID (Current operation)) (Sh_targetName c) (Desired operation)) in
    do! RebindConfirmed store (Cl_Name claim) (ResourceVersion claim) (Sh_targetName c) observed
          (ProviderID (Current operation)) (Revision after) in
    ret tt.

Definition complete_ref (s : SourceRef) : bool :=
  negb ((APIVersion s =s "") || (Kind s =s "") || (Namespace s =s "") || (Name s =s "") || (UID s =s "")).

Definition shared_applyOne (operation : Operation) : M W OwnershipError unit :=
  let t := OpType operation in
  if t =s OperationCreate then
    let source := Source (Desired operation) in
    do! require (complete_ref source) (ErrRequest "shared ownership create requires complete source identity") in
    do! ReconcileCreate store sharedProvider
          (mkReserve (Sh_namespace c) (Sh_targetName c) (Sh_controller c) (Desired operation) [source_object source] None) in
    ret tt
  else if t =s OperationReplace then fail (ErrRequest "shared ownership replacement requires an explicit adoption plan")
  else if (t =s OperationUpdate) || (t =s OperationDeactivate) || (t =s OperationDelete) then applyExisting operation
  else ret tt.

(** *** A batch *)

Definition is_context_error (e : OwnershipError) : bool :=
  match e with ErrProvider context => context | ErrClaimAPI (OtherError reason) => wraps reason | _ => false end.

Record SharedState := mkSharedState {
  Sh_outcomes : list OperationOutcome; Sh_errs : list OwnershipError; failedGroups : gset string }.

Definition record (st : SharedState) (operation : Operation) (r : ApplyOutcome) (reason : string) : SharedState :=
  mkSharedState (Sh_outcomes st ++ [mkOutcome (SO_ID (SanitizeOperation operation)) r reason]) (Sh_errs st) (failedGroups st).

Definition block_rest (st : SharedState) (pending : list Operation) (e : OwnershipError) (reason : string) : SharedState :=
  foldl (fun st op => record st op ApplyBlocked reason)
    (mkSharedState (Sh_outcomes st) (Sh_errs st ++ [e]) (failedGroups st)) pending.

Definition record_failure (st : SharedState) (operation : Operation) (e : OwnershipError) : SharedState :=
  let st := record st operation ApplyFailed (if is_context_error e then "context-canceled" else "provider-request-failed") in
  let t := OpType operation in
  mkSharedState (Sh_outcomes st) (Sh_errs st ++ [e])
    (if (t =s OperationCreate) || (t =s OperationReplace) || (t =s OperationUpdate)
     then {[MutationGroupKey (Desired operation)]} ∪ failedGroups st else failedGroups st).

Fixpoint shared_loop (operations : list Operation) (st : SharedState) (w : W) : W * SharedState :=
  match operations with
  | [] => (w, st)
  | operation :: rest =>
      match ctxError dev w with
      | (w, Some reason) => (w, block_rest st operations (provider_error [errCancelled reason]) "context-canceled")
      | (w, None) =>
          match check_before_operation w with
          | (w, Err e) => (w, block_rest st operations e "authorization-revoked")
          | (w, Ok _) =>
              let t := OpType operation in
              if t =s OperationConflict then
                let '(w, _) := recoverInterruptedClaim operation w in
                shared_loop rest (record st operation ApplyBlocked "planning-conflict") w
              else if ((t =s OperationDelete) || (t =s OperationDeactivate))
                      && bool_decide (MutationGroupKey (Current operation) ∈ failedGroups st) then
                shared_loop rest (record st operation ApplyBlocked "prerequisite-failed") w
              else
                match shared_applyOne operation w with
                | (w, Err e) => shared_loop rest (record_failure st operation e) w
                | (w, Ok _) => shared_loop rest (record st operation ApplySucceeded "") w
                end
          end
      end
  end.

Definition dry_outcome (failed : bool) (operation : Operation) : OperationOutcome :=
  if OpType operation =s OperationConflict
  then mkOutcome (SO_ID (SanitizeOperation operation)) ApplyBlocked "planning-conflict"
  else if failed then mkOutcome (SO_ID (SanitizeOperation operation)) ApplyFailed "provider-request-failed"
  else mkOutcome (SO_ID (SanitizeOperation operation)) ApplyBlocked "dry-run".

Definition shared_ApplyWithResults (operations : list Operation) (dryRun : bool) (w : W)
    : W * (list OperationOutcome * list OwnershipError) :=
  if dryRun then
    let '(w, r) := client_apply operations true w in
    (w, (dry_outcome (negb (is_ok r)) <$> operations, match r with Ok _ => [] | Err e => [e] end))
  else
    let '(w, st) := shared_loop operations (mkSharedState [] [] ∅) w in (w, (Sh_outcomes st, Sh_errs st)).
End shared.
