(* ===== verification/SharedLaws.v ===== *)
(** * What a shared zone's client sends to the device

    The device calls of the client keep every invariant that the admitted
    requests keep.  With the requests metered this shows which requests the claim
    protocol lets through, and what was checked before each. *)
From Stdlib Require Import String Ascii ZArith Lia.
From S2P Require Import Prelude Effects GoStrings NetIP GoEncoding Endpoint Plan Document Executor Client ClientLaws Claims Manager ClaimsLaws ClaimHistory SharedClient.
Open Scope string_scope.
Open Scope list_scope.
Open Scope Z_scope.
Open Scope go_scope.

(** ** Invariants of the device *)

Section device_frame.
Context {W : Type} (I : W -> Prop) (dev : Device W) (cfg : ClientConfig) (admitted : Method -> Prop).

(** The device keeps [I] as long as only [admitted] methods are sent. *)
Record device_keeps : Prop := {
  dk_Do w req : I w -> admitted (Req_Method req) -> I (Do dev w req).1;
  dk_sleep w d : I w -> I (sleep dev w d).1;
  dk_jitter w d : I w -> I (jitterDelay dev w d).1;
  dk_before w : I w -> I (beforeOperation dev w).1;
  dk_ctx w : I w -> I (ctxError dev w).1
}.

Hypothesis Hdev : device_keeps.

Lemma attempt_once_keeps w req : I w -> admitted (Req_Method req) -> I (attempt_once dev w req).1.
Proof.
  intros HI Hm. pose proof (dk_Do Hdev w req HI Hm) as H. unfold attempt_once.
  destruct (Do dev w req) as [w' []]; repeat case_match; by simplify_eq.
Qed.

Lemma do_loop_keeps n : forall attempt last w req, I w -> admitted (Req_Method req) -> I (do_loop dev n attempt last w req).1.
Proof.
  induction n as [|n IH]; intros attempt last w req HI Hm; cbn [do_loop]; [done|].
  pose proof (attempt_once_keeps w req HI Hm) as H1. destruct (attempt_once dev w req) as [w1 [|?|e d]]; cbn in *; [done..|].
  destruct n as [|n]; [done|].
  assert (H2 : I (retryDelay dev w1 attempt d).1).
  { pose proof (dk_jitter Hdev w1) as H. unfold retryDelay. set (c := if _ <? _ then _ else _). specialize (H c H1).
    by destruct (jitterDelay dev w1 c). }
  destruct (retryDelay dev w1 attempt d) as [w2 d2]. pose proof (dk_sleep Hdev w2 d2 H2) as H3.
  destruct (sleep dev w2 d2) as [w3 []]; cbn in *; auto.
Qed.

Lemma doJSON_keeps w req : I w -> admitted (Req_Method req) -> I (doJSON dev cfg w req).1.
Proof. intros. unfold doJSON. destruct (Z.to_nat _); [done|]. by apply do_loop_keeps. Qed.

Lemma fetch_page_keeps w st : admitted MethodGet -> I w -> I (fetch_page dev cfg w st).1.
Proof.
  intros Hg HI. unfold fetch_page. set (req := newRequest _ _ _ _ _).
  pose proof (doJSON_keeps w req HI Hg) as H. destruct (doJSON dev cfg w req) as [w' []]; cbn in *; repeat case_match; done.
Qed.

Lemma list_loop_keeps n : admitted MethodGet -> forall w st, I w -> I (list_loop dev cfg n w st).1.
Proof.
  intros Hg. induction n as [|n IH]; intros w st HI; cbn [list_loop]; [done|].
  pose proof (fetch_page_keeps w st Hg HI) as H. destruct (fetch_page dev cfg w st) as [w' [r|]]; cbn in *; [|done].
  destruct (list_page st r) as [[st' []]|]; cbn; auto.
Qed.

Lemma ListRecords_keeps w : admitted MethodGet -> I w -> I (ListRecords dev cfg w).1.
Proof.
  intros Hg HI. unfold ListRecords. pose proof (fetch_page_keeps w empty_list Hg HI) as H.
  destruct (fetch_page dev cfg w empty_list) as [w' [r|]]; [|done].
  destruct (list_page empty_list r) as [[st' []]|]; [done| |done].
  pose proof (list_loop_keeps (S (Z.to_nat (total st'))) Hg w' st' H) as H2. cbv zeta.
  by destruct (list_loop dev cfg (S (Z.to_nat (total st'))) w' st') as [w2 []].
Qed.

Lemma keeps_ListRecordsWithRevision : admitted MethodGet -> keeps I (ListRecordsWithRevision dev cfg).
Proof.
  intros Hg w w' r HI. unfold ListRecordsWithRevision. pose proof (ListRecords_keeps w Hg HI) as H.
  destruct (ListRecords dev cfg w) as [w1 []]; by intros [= <- <-].
Qed.

Lemma send_keeps w m path body : I w -> admitted m -> I (send dev cfg w m path body).1.
Proof.
  intros HI Hm. unfold send. set (req := newRequest _ _ _ _ _). pose proof (doJSON_keeps w req HI Hm) as H.
  by destruct (doJSON dev cfg w req) as [w' []].
Qed.

Lemma applyOne_keeps w op : I w -> admitted (method_for (OpType op)) -> I (applyOne dev cfg w op).1.
Proof.
  intros HI. unfold applyOne, method_for. destruct (OpType op =s OperationCreate) eqn:E1.
  { intros Hm. destruct (endpointToRecord _ _); [by apply send_keeps|done]. }
  destruct (OpType op =s OperationDelete) eqn:E2; intros Hm.
  - bools. rewrite E2. cbn -[send]. destruct (currentProviderID op); [by apply send_keeps|done].
  - destruct (_ || _); [|done]. destruct (currentProviderID op); [|done].
    destruct (endpointToRecord _ _); [by apply send_keeps|done].
Qed.

Lemma apply_loop_keeps dryRun ops : (forall m, admitted m) -> forall st w, I w -> I (apply_loop dev cfg dryRun ops st w).1.
Proof.
  intros Hadm. induction ops as [|op ops IH]; intros st w HI; cbn [apply_loop]; [done|].
  pose proof (dk_ctx Hdev w HI) as Hc. destruct (ctxError dev w) as [w0 [err|]]; cbn in Hc; [done|].
  destruct (_ =s _); [by apply IH|]. destruct dryRun; [by apply IH|].
  pose proof (dk_before Hdev w0 Hc) as Hb. destruct (beforeOperation dev w0) as [w1 []]; [done|]. destruct (_ && _); [by apply IH|].
  pose proof (applyOne_keeps w1 op Hb (Hadm _)) as Ha. destruct (applyOne dev cfg w1 op) as [w2 []]; by apply IH.
Qed.

Lemma keeps_client_apply wraps ops dryRun : (forall m, admitted m) -> keeps I (client_apply dev cfg wraps ops dryRun).
Proof.
  intros Hadm w w' r HI. unfold client_apply, Apply, ApplyWithResults.
  pose proof (apply_loop_keeps dryRun ops Hadm (mkApplyState [] [] ∅) w HI) as H.
  destruct (apply_loop dev cfg dryRun ops (mkApplyState [] [] ∅) w) as [w1 st]. destruct (errs st); by intros [= <- <-].
Qed.
End device_frame.

Lemma device_keeps_weaken {W} (I : W -> Prop) dev (admitted admitted' : Method -> Prop) :
  (forall m, admitted' m -> admitted m) -> device_keeps I dev admitted -> device_keeps I dev admitted'.
Proof. intros Hm [H1 H2 H3 H4 H5]. split; [|done..]. intros w req Hw Hr. by apply H1, Hm. Qed.

(** ** The claim store beside a metered device *)

Section off_meter.
Context {W : Type} (store : ClaimStore W).

(** A call of the API server is not a request to the device. *)
Definition off_meter {E A} (m : M W E A) : M (W * list Method) E A := fun w => let '(w', r) := m w.1 in ((w', w.2), r).

Definition metered_store : ClaimStore (W * list Method) :=
  mkClaimStore (fun n => off_meter (store_Get store n)) (off_meter (store_List store)) (fun c => off_meter (store_Create store c))
    (fun c => off_meter (store_Update store c)) (fun c => off_meter (store_UpdateStatus store c))
    (fun n rv => off_meter (store_Delete store n rv)) (fun w => store_now store w.1).

Lemma off_meter_run {E A} (m : M W E A) w w' r : off_meter m w = (w', r) -> m w.1 = (w'.1, r) /\ w'.2 = w.2.
Proof. unfold off_meter. destruct (m w.1) as [w1 r1]. by intros [= <- <-]. Qed.

(** The requests that are not reads, and predicates on them. *)
Definition writes (ms : list Method) : list Method := filter (fun m => m <> MethodGet) ms.
Definition on_writes (Φ : list Method -> Prop) (w : W * list Method) : Prop := Φ (writes w.2).

Lemma writes_app a b : writes (a ++ b) = writes a ++ writes b.
Proof. apply filter_app. Qed.

Lemma writes_repeat m k : m <> MethodGet -> writes (repeat m k) = repeat m k.
Proof. intros Hm. induction k as [|k IH]; [done|]. cbn [repeat]. change (m :: repeat m k) with ([m] ++ repeat m k). rewrite (writes_app [m]), IH. unfold writes. cbn. by rewrite decide_True. Qed.

Lemma keeps_off_meter {E A} Φ (m : M W E A) : keeps (on_writes Φ) (off_meter m).
Proof. intros w w' r HI E1. apply off_meter_run in E1 as [_ E1]. unfold on_writes in *. destruct r; by rewrite E1. Qed.

Lemma metered_store_keeps Φ : store_keeps (on_writes Φ) metered_store.
Proof. split; intros; apply keeps_off_meter. Qed.

Lemma metered_device_keeps Φ (dev : Device W) : device_keeps (on_writes Φ) (metered dev) (fun m => m = MethodGet).
Proof.
  split; unfold on_writes; intros; cbn.
  - destruct (Do dev w.1 req). cbn. rewrite writes_app, H0. cbn. by rewrite app_nil_r.
  - by destruct (sleep dev w.1 d).
  - by destruct (jitterDelay dev w.1 d).
  - by destruct (beforeOperation dev w.1).
  - by destruct (ctxError dev w.1).
Qed.

(** A stored claim seen through the meter is one of the store. *)
Lemma live_and_unique_metered n rv w w' claim : live_and_unique metered_store n rv w w' claim ->
  live_and_unique store n rv w.1 w'.1 claim.
Proof.
  intros (w1 & claims & c & E1 & Hrv & Hne & E2 & E3 & E4). cbn in E1, E2.
  apply off_meter_run in E1 as [E1 _]. apply off_meter_run in E2 as [E2 _]. exists w1.1, claims, c. done.
Qed.
End off_meter.

Section shared_laws.
Context {W : Type} (I : W -> Prop) (dev : Device W) (cfg : ClientConfig) (store : ClaimStore W) (wraps : string -> bool).
Context (Hstore : store_keeps I store) (Hdev : device_keeps I dev (fun m => m = MethodGet)).

Lemma keeps_take_snapshot : keeps I (take_snapshot dev cfg wraps).
Proof.
  apply keeps_bind; [|intros []; apply keeps_ret]. apply keeps_wrap. by eapply keeps_ListRecordsWithRevision.
Qed.

Lemma keeps_check_before : keeps I (check_before_operation dev wraps).
Proof.
  intros w w' r HI. unfold check_before_operation. pose proof (dk_before _ _ _ Hdev w HI) as H.
  destruct (beforeOperation dev w) as [w1 []]; by intros [= <- <-].
Qed.

Lemma keeps_release_deleted c claim after : keeps I (release_deleted store c claim after).
Proof.
  unfold release_deleted. apply keeps_bind; [by apply keeps_ReconcileClaim|]. intros [x []]; [apply keeps_fail|].
  case_match; [by apply keeps_ReleaseAndDeleteClaim|apply keeps_ret].
Qed.

Lemma keeps_recoverInterruptedClaim c op : keeps I (recoverInterruptedClaim dev cfg store wraps c op).
Proof.
  unfold recoverInterruptedClaim, finish_recovery. cbv zeta.
  repeat first [ by apply keeps_Get | by apply keeps_ReconcileClaim | by apply keeps_RebindConfirmed | apply keeps_ret
               | apply keeps_fail | apply keeps_take_snapshot | apply keeps_check_before | apply keeps_bind; [|intros ?]
               | match goal with |- keeps _ (match ?x with _ => _ end) => destruct x end ].
Qed.
End shared_laws.

(** ** One write per operation, after its authorization *)

Section requests.
Context {W : Type} (dev : Device W) (cfg : ClientConfig) (store : ClaimStore W) (wraps : string -> bool).

Abbreviation mdev := (metered dev).
Abbreviation mstore := (metered_store store).

(** At most [Retries + 1] requests of one method; a POST at most once. *)
Definition one_request (m : Method) (ms : list Method) : Prop :=
  exists k, ms = repeat m k /\ Z.of_nat k <= Z.max 0 (C_Retries cfg + 1) /\ (m = MethodPost -> (k <= 1)%nat).

Lemma method_for_write t : method_for t <> MethodGet.
Proof. unfold method_for. by repeat case_match. Qed.

Lemma method_for_post t : method_for t = MethodPost -> t = OperationCreate.
Proof. unfold method_for. destruct (t =s OperationCreate) eqn:E; [by bools|]. by case_match. Qed.

Lemma one_request_nil m : one_request m [].
Proof. exists O. split; [done|]. lia. Qed.

Lemma client_apply_metered op w w' r : client_apply mdev cfg wraps [op] false w = (w', r) ->
  exists l, w'.2 = w.2 ++ l /\ one_request (method_for (OpType op)) l.
Proof.
  unfold client_apply, Apply, ApplyWithResults. cbn [apply_loop].
  assert (Hnone : exists l, w.2 = w.2 ++ l /\ one_request (method_for (OpType op)) l)
    by (exists []; rewrite app_nil_r; split; [done|apply one_request_nil]).
  cbn [ctxError metered]. destruct (ctxError dev w.1) as [w0 [err|]]; [cbn; intros [= <- <-]; done|].
  destruct (OpType op =s OperationConflict); [cbn; intros [= <- <-]; done|].
  cbn [beforeOperation metered fst snd]. destruct (beforeOperation dev w0) as [wb [e|]]; [cbn; intros [= <- <-]; done|].
  destruct (_ && _); [cbn; intros [= <- <-]; done|].
  destruct (applyOne mdev cfg (wb, w.2) op) as [w2 err] eqn:Ea.
  apply applyOne_metered in Ea as (k & Ek & Hk & Hc). cbn [snd] in Ek.
  assert (H : exists l, w2.2 = w.2 ++ l /\ one_request (method_for (OpType op)) l).
  { eexists. split; [exact Ek|]. exists k. split; [done|]. split; [done|]. intros Hm. apply Hc, (method_for_post _ Hm). }
  destruct err; cbn; intros [= <- <-]; done.
Qed.

Lemma hoare_client_apply op (P : Prop) (Φ : list Method -> Prop) :
  (P -> forall l, one_request (method_for (OpType op)) l -> Φ l) ->
  hoare (fun w => on_writes (fun l => l = []) w /\ P) (client_apply mdev cfg wraps [op] false)
    (fun _ => on_writes Φ) (fun _ => on_writes Φ).
Proof.
  intros HΦ w w' r [HI HP] E. apply client_apply_metered in E as (l & El & Hl). unfold on_writes in *.
  assert (Ew : writes w'.2 = l).
  { destruct Hl as (k & -> & _). by rewrite El, writes_app, HI, writes_repeat by apply method_for_write. }
  rewrite Ew. destruct r; auto.
Qed.

Abbreviation quiet := (on_writes (fun l => l = [])).

Lemma hoare_quiet {F A} (m : M (W * list Method) F A) (Φ : list Method -> Prop) :
  keeps quiet m -> Φ [] -> hoare quiet m (fun a w => quiet w /\ exists u u', m u = (u', Ok a)) (fun _ => on_writes Φ).
Proof.
  intros Hm HΦ w w' r HI E. specialize (Hm _ _ _ HI E). destruct r; [eauto|]. unfold on_writes in *. by rewrite Hm.
Qed.

(** The pure facts that a run of quiet calls has established are carried in [P]. *)
Lemma hoare_pure {F A} (P : Prop) (m : M (W * list Method) F A) (I : W * list Method -> Prop) Q R :
  (P -> hoare I m Q R) -> hoare (fun w => I w /\ P) m Q R.
Proof. intros H w w' r [HI HP]. by apply H. Qed.

Lemma take_snapshot_ok w w' snapshot : take_snapshot mdev cfg wraps w = (w', Ok snapshot) ->
  exists records revision, ListRecordsWithRevision mdev cfg w = (w', Ok (records, revision)) /\
    snapshot = mkSnapshot revision (negb (revision =s "")) records.
Proof.
  unfold take_snapshot, client_list. intros E. apply bind_ok in E as ([records revision] & w1 & E1%wrap_ok & E).
  injection E as <- <-. eauto.
Qed.

Lemma quiet_after {F A} (m : M (W * list Method) F A) v v' r : keeps quiet m -> quiet v -> m v = (v', r) -> quiet v'.
Proof. intros Hm Hv E. specialize (Hm _ _ _ Hv E). by destruct r. Qed.

(** The mutation runs right after its authorization, or nothing was sent. *)
Lemma ExecuteMutation_run t p mutate v v' r : Mut_Mode p <> OwnershipModeExclusive -> quiet v ->
  ExecuteMutation mstore (sharedProvider mdev cfg wraps) t p mutate v = (v', r) ->
  quiet v' \/
  exists snapshot v1 v2 v3 claim row, take_snapshot mdev cfg wraps v = (v1, Ok snapshot) /\
    existingRecordMutation t = true /\ OW_Phase (Mut_Ownership p) = OwnershipPhaseConfirmed /\
    live_and_unique mstore (OW_Name (Mut_Ownership p)) (OW_ResourceVersion (Mut_Ownership p)) v1 v2 claim /\
    claim_as_planned claim p = true /\ row_authorized (Mut_TargetName p) (Mut_ProviderRevision p) claim snapshot row /\
    ctxError mdev v2 = (v3, None) /\ quiet v3 /\ mutate v3 = (v', r).
Proof.
  intros Hmode Hq E. assert (Hsn : keeps quiet (take_snapshot mdev cfg wraps)) by apply keeps_take_snapshot, metered_device_keeps.
  unfold ExecuteMutation in E. cbn [provider_Snapshot provider_ctx sharedProvider] in E.
  apply bind_run in E as [(e & E & ->)|(snapshot & v1 & E1 & E)]; [left; by eapply quiet_after|].
  pose proof (quiet_after _ _ _ _ Hsn Hq E1) as Hq1.
  assert (Ha : keeps quiet (AuthorizeMutation mstore t p snapshot)) by apply keeps_AuthorizeMutation, metered_store_keeps.
  apply bind_run in E as [(e & E & ->)|([] & v2 & E2 & E)]; [left; by eapply quiet_after|].
  pose proof (quiet_after _ _ _ _ Ha Hq1 E2) as Hq2. apply AuthorizeMutation_ok in E2 as (Ht & Hph & claim & row & Hlive & Hp & Hrow); [|done].
  pose proof (dk_ctx _ _ _ (metered_device_keeps (fun l => l = []) dev) v2 Hq2) as Hq3.
  unfold bind, observe in E. destruct (ctxError mdev v2) as [v3 [e|]] eqn:Ectx; [left; by injection E as <- _|]. right.
  by exists snapshot, v1, v2, v3, claim, row.
Qed.

(** The checks before a mutation, from the state [v] in which it begins to the state
    [v'] in which its request is made: the claim of the record is read, the zone is
    listed twice with one revision, and the claim is read again, in this order. *)
Definition authorized_from (c : sharedDNSClient) (op : Operation) (v v' : W * list Method) : Prop :=
  exists identity planned v1 first revision v2 rows v3 v4 claim row,
    (OpType op = OperationUpdate \/ OpType op = OperationDeactivate \/ OpType op = OperationDelete) /\
    IdentityFor (Sh_targetName c) (Current op) = Ok identity /\
    store_Get mstore (ClaimName identity) v = (v1, Ok planned) /\ phase_of planned = OwnershipPhaseConfirmed /\
    ListRecordsWithRevision mdev cfg v1 = (v2, Ok (first, revision)) /\
    ListRecordsWithRevision mdev cfg v2 = (v3, Ok (rows, revision)) /\ revision <> "" /\
    live_and_unique mstore (Cl_Name planned) (ResourceVersion planned) v3 v4 claim /\
    phase_of claim = OwnershipPhaseConfirmed /\ Cl_ProviderID (Cl_Spec claim) <> "" /\
    Cl_ProviderID (Cl_Spec claim) = Cl_ProviderID (Cl_Spec planned) /\ Cl_Fingerprint (Cl_Spec claim) = Cl_Fingerprint (Cl_Spec planned) /\
    providerRecordsByID rows (Cl_ProviderID (Cl_Spec claim)) = [row] /\
    Fingerprint (TargetRef (Cl_Spec planned)) row = Ok (Cl_Fingerprint (Cl_Spec claim)) /\
    (exists observed, IdentityFor (TargetRef (Cl_Spec planned)) row = Ok observed /\ Cl_Name claim = ClaimName observed /\
       Cl_Record (Cl_Spec claim) = RecordKey observed) /\
    ctxError mdev v4 = (v', None).

Lemma existing_types t : existingRecordMutation t = true -> t <> OperationReplace -> t = OperationUpdate \/ t = OperationDeactivate \/ t = OperationDelete.
Proof. unfold existingRecordMutation. intros H Hn. rewrite !orb_true_iff, !eqb_eq_iff in H. naive_solver. Qed.

(** What follows a mutation sends nothing more. *)
Lemma after_mutation_keeps Φ c op planned : keeps (on_writes Φ) (let! after := take_snapshot mdev cfg wraps in
    if OpType op =s OperationDelete then release_deleted mstore c planned after
    else let! observed := lift (exactProviderRecord (Records after) (ProviderID (Current op)) (Sh_targetName c) (Desired op)) in
         do! RebindConfirmed mstore (Cl_Name planned) (ResourceVersion planned) (Sh_targetName c) observed
               (ProviderID (Current op)) (Revision after) in ret tt).
Proof.
  apply keeps_bind; [apply keeps_take_snapshot, metered_device_keeps|]. intros after.
  destruct (_ =s _); [apply keeps_release_deleted, metered_store_keeps|]. apply keeps_bind; [apply keeps_lift|]. intros observed.
  apply keeps_bind; [apply keeps_RebindConfirmed, metered_store_keeps|]. intros. apply keeps_ret.
Qed.

Lemma applyExisting_run c op v v' r : OpType op <> OperationReplace -> quiet v ->
  applyExisting mdev cfg mstore wraps c op v = (v', r) ->
  quiet v' \/ exists v1 v2 r', authorized_from c op v v1 /\ quiet v1 /\ client_apply mdev cfg wraps [op] false v1 = (v2, r') /\ writes v'.2 = writes v2.2.
Proof.
  intros Hop Hq E. assert (Hsn : keeps quiet (take_snapshot mdev cfg wraps)) by apply keeps_take_snapshot, metered_device_keeps.
  unfold applyExisting in E. apply bind_run in E as [(e & E & ->)|(ident & v1 & E1 & E)]; [left; eapply quiet_after; [apply keeps_lift|exact Hq|exact E]|].
  apply lift_ok in E1 as [Hid ->]. assert (Hg : forall n, keeps quiet (Get mstore n)) by (intros n; apply keeps_Get, metered_store_keeps).
  apply bind_run in E as [(e & E & ->)|(planned & v1 & E1 & E)]; [left; by apply (quiet_after _ _ _ _ (Hg _) Hq E)|].
  pose proof (quiet_after _ _ _ _ (Hg _) Hq E1) as Hq1.
  apply bind_run in E as [(e & E & ->)|(first & v2 & E2 & E)]; [left; by eapply quiet_after|].
  pose proof (quiet_after _ _ _ _ Hsn Hq1 E2) as Hq2. apply take_snapshot_ok in E2 as (rows1 & revision & E2 & ->).
  apply bind_run in E as [(e & E & ->)|([] & v3 & E3 & E)].
  all: match goal with H : ExecuteMutation _ _ _ _ _ _ = _ |- _ => apply ExecuteMutation_run in H as [Hn|Hm]; [| |done|done] end.
  { by left. }
  2:{ left. exact (quiet_after _ _ _ _ (after_mutation_keeps (fun l => l = []) c op planned) Hn E). }
  all: right; destruct Hm as (snapshot & v4 & v5 & v6 & claim & row & E4 & Ht & Hph & Hlive & Hp & Hrow & Hctx & Hq6 & Hmut);
    apply take_snapshot_ok in E4 as (rows & revision' & E4 & ->);
    apply claim_as_planned_ok in Hp as (Hne & Hpid & Hfp & _); destruct Hrow as [[Hst Hrev] Hcp _ Hone Hrf Hri]; cbn in Hpid, Hfp, Hst, Hrev, Hone, Hrf, Hri, Hlive, Hph; subst revision';
    eexists v6, _, _; (split; [|split; [exact Hq6|split; [exact Hmut|]]]);
    [exists ident, planned, v1, rows1, revision, v2, rows, v4, v5, claim, row; apply wrap_ok in E1; apply negb_true_iff, eqb_neq_iff in Hst;
     pose proof (existing_types _ Ht Hop); by split_and!|].
  - done.
  - pose proof (after_mutation_keeps (fun l => l = writes v3.2) c op planned _ _ _ eq_refl E) as Hk. by destruct r.
Qed.

(** C3. A change of an existing record of a shared zone sends its request (PUT or
    DELETE, at most [Retries + 1] times) only after its checks, which run in this
    order, each on the state the one before it left: the claim of the operation's
    record is read and Confirmed; the zone is listed twice, with one and the same
    non-empty revision; the claim is read back at the same resource version, is the
    only one of its record, is still Confirmed, and has the provider ID and fingerprint
    of the first reading; the second listing has exactly one row under the claim's
    provider ID, with the claim's fingerprint and identity; the context is alive.
    Otherwise, and for a replacement, nothing is sent.  The row of the request is the
    one the operation names; that it is the claim's own row and not an identical
    duplicate is not checked, and not claimed here. *)
Theorem shared_mutation_authorized c op w w' ms r : OpType op <> OperationCreate ->
  shared_applyOne mdev cfg mstore wraps c op (w, []) = ((w', ms), r) ->
  writes ms = [] \/
  exists v v' r', authorized_from c op (w, []) v /\ writes v.2 = [] /\
    client_apply mdev cfg wraps [op] false v = (v', r') /\ writes ms = writes v'.2 /\ one_request (method_for (OpType op)) (writes ms).
Proof.
  intros Hc E. unfold shared_applyOne in E. cbv zeta in E. apply eqb_neq_iff in Hc. rewrite Hc in E.
  destruct (OpType op =s OperationReplace) eqn:Er; [injection E as _ <- _; by left|].
  destruct (_ || _); [|injection E as _ <- _; by left]. bools.
  apply applyExisting_run in E as [Hn|(v & v' & r' & Ha & Hq & Em & Hw)]; [by left| |done|done]. right.
  exists v, v', r'. change (writes ms = writes v'.2) in Hw. rewrite Hw. split_and!; try done. apply client_apply_metered in Em as (l & El & k & -> & Hk).
  exists k. split; [|done]. unfold on_writes in Hq. by rewrite El, writes_app, Hq, writes_repeat by apply method_for_write.
Qed.

(** *** Creates *)

(** Before the POST: a Reserved claim for the record, and a stable listing without a row of it. *)
Definition create_evidence (c : sharedDNSClient) (op : Operation) : Prop :=
  exists identity fp claim snapshot u u',
    IdentityFor (Sh_targetName c) (Desired op) = Ok identity /\ Fingerprint (Sh_targetName c) (Desired op) = Ok fp /\
    reserves identity fp (Sh_controller c) claim /\ phase_of claim = OwnershipPhaseReserved /\
    take_snapshot mdev cfg wraps u = (u', Ok snapshot) /\ Stable snapshot = true /\
    forall row, row ∈ Records snapshot -> IdentityFor (Sh_targetName c) row <> Ok identity.

Section creates.
Context (hist : W -> gmap (string * string) Claim) (others : Claim -> Prop) `{!ClaimServer hist others store}.
Context (Hdev : forall d, device_keeps (fun w => stored hist w d) dev (fun _ => True)).

#[local] Instance metered_server : ClaimServer (fun w : W * list Method => hist w.1) others mstore.
Proof.
  split; cbn; intros *; intros E%off_meter_run; destruct E as [E _].
  - apply (cs_Get hist others) in E. exact E.
  - apply (cs_List hist others) in E. exact E.
  - apply (cs_Create hist others) in E. exact E.
  - apply (cs_Update hist others) in E. exact E.
  - apply (cs_UpdateStatus hist others) in E. exact E.
  - apply (cs_Delete hist others) in E. exact E.
Qed.

Lemma metered_keeps_stored d : device_keeps (fun w : W * list Method => stored hist w.1 d) mdev (fun _ => True).
Proof.
  destruct (Hdev d) as [H1 H2 H3 H4 H5]. split; cbn; intros [w ms]; cbn.
  - intros req Hw _. specialize (H1 w req Hw Logic.I). by destruct (Do dev w req).
  - intros x Hw. specialize (H2 w x Hw). by destruct (sleep dev w x).
  - intros x Hw. specialize (H3 w x Hw). by destruct (jitterDelay dev w x).
  - intros Hw. specialize (H4 w Hw). by destruct (beforeOperation dev w).
  - intros Hw. specialize (H5 w Hw). by destruct (ctxError dev w).
Qed.

Lemma ReconcileCreate_requests c op request : OpType op = OperationCreate ->
  request = mkReserve (Sh_namespace c) (Sh_targetName c) (Sh_controller c) (Desired op) [source_object (Source (Desired op))] None ->
  hoare quiet (ReconcileCreate mstore (sharedProvider mdev cfg wraps) request)
    (fun _ => on_writes (fun l => l = [] \/ (one_request MethodPost l /\ create_evidence c op)))
    (fun _ => on_writes (fun l => l = [] \/ (one_request MethodPost l /\ create_evidence c op))).
Proof.
  set (Φ := fun l : list Method => l = [] \/ (one_request MethodPost l /\ create_evidence c op)).
  intros Hop ->. assert (HΦ : Φ []) by by left. unfold ReconcileCreate.
  assert (Hsn : keeps quiet (take_snapshot mdev cfg wraps)) by apply keeps_take_snapshot, metered_device_keeps.
  eapply hoare_bind; [apply hoare_quiet; [apply keeps_Reserve; [apply metered_store_keeps|by intros s [= <-]]|done]|].
  intros claim. apply hoare_pure. intros (v & v' & Hres).
  apply (Reserve_reserves (fun w => hist w.1) others mstore) in Hres.
  2:{ intros s d [= <-]. eapply keeps_take_snapshot, device_keeps_weaken; [|apply metered_keeps_stored]. done. }
  destruct Hres as (identity & fp & Hid & Hfp & Hres). cbn in Hid, Hfp, Hres.
  eapply hoare_bind; [apply hoare_quiet; [exact Hsn|done]|]. intros snapshot. apply hoare_pure. intros (u & u' & Hu).
  eapply hoare_bind; [apply hoare_quiet; [apply keeps_lift|done]|]. intros []. apply hoare_pure. intros (? & ? & [Hv _]%lift_ok).
  apply validateSnapshot_ok in Hv as [Hst _].
  eapply hoare_bind; [apply hoare_quiet; [apply keeps_confirmObserved, metered_store_keeps|done]|]. intros [handled|]; apply hoare_pure.
  { intros _. eapply hoare_conseq; [apply hoare_keeps, keeps_lift|done|..]; intros ? w Hw; unfold on_writes in *; by rewrite Hw. }
  intros (v1 & v2 & Hnone). apply confirmObserved_none in Hnone as (_ & identity' & Hid' & Hrows). cbn in Hid', Hrows.
  assert (identity' = identity) as -> by congruence.
  eapply hoare_bind; [apply hoare_quiet; [apply keeps_require|done]|]. intros []. apply hoare_pure. intros (? & ? & [Hph _]%require_ok).
  bools. eapply hoare_bind with (Q' := fun _ => on_writes Φ).
  { apply hoare_attempt. cbn [provider_Create sharedProvider Rq_Endpoint].
    eapply hoare_pre; [apply (hoare_client_apply _ True Φ)|by intros]. intros _ l Hl. right. split; [exact Hl|].
    exists identity, fp, claim, snapshot, u, u'. by split_and!. }
  intros created. apply hoare_keeps. unfold after_create.
  assert (Hsn' : keeps (on_writes Φ) (take_snapshot mdev cfg wraps)) by apply keeps_take_snapshot, metered_device_keeps.
  apply keeps_bind; [by apply keeps_attempt|]. intros [after|]; [|apply keeps_fail].
  destruct (validateSnapshot after); [|apply keeps_fail]. apply keeps_bind; [apply keeps_Get, metered_store_keeps|]. intros cur.
  apply keeps_bind; [apply keeps_confirmObserved, metered_store_keeps|]. intros [|]; [apply keeps_lift|apply keeps_fail].
Qed.

Lemma shared_create_requests c op : OpType op = OperationCreate ->
  hoare quiet (shared_applyOne mdev cfg mstore wraps c op)
    (fun _ => on_writes (fun l => l = [] \/ (one_request MethodPost l /\ create_evidence c op)))
    (fun _ => on_writes (fun l => l = [] \/ (one_request MethodPost l /\ create_evidence c op))).
Proof.
  intros Hop. unfold shared_applyOne. rewrite Hop. change (OperationCreate =s OperationCreate) with true. cbv iota zeta.
  eapply hoare_bind; [apply (hoare_quiet _ (fun l => l = [] \/ (one_request MethodPost l /\ create_evidence c op)));
    [apply keeps_require|by left]|]. intros []. apply hoare_pure. intros ?.
  eapply hoare_bind; [by apply (ReconcileCreate_requests c op)|]. intros ?. apply hoare_keeps, keeps_ret.
Qed.

(** A record is created in a shared zone at most once and never over another:
    a create sends a single POST, and only after a claim for exactly this record,
    fingerprint and controller was stored as Reserved and a stable listing showed
    no row of the record's identity.  Otherwise it sends no write at all. *)
Theorem shared_create_reserved_first c op w w' ms r : OpType op = OperationCreate ->
  shared_applyOne mdev cfg mstore wraps c op (w, []) = ((w', ms), r) ->
  writes ms = [] \/ (writes ms = [MethodPost] /\ create_evidence c op).
Proof.
  intros Hop E. assert (Hq : quiet (w, [])) by done.
  assert (H : writes ms = [] \/ (one_request MethodPost (writes ms) /\ create_evidence c op)).
  { pose proof (shared_create_requests c op Hop _ _ _ Hq E) as H. by destruct r. }
  destruct H as [H|[(k & Hk & _ & Hle) Hev]]; [by left|]. specialize (Hle eq_refl). rewrite Hk.
  destruct k as [|[|k]]; [by left|by right|lia].
Qed.
End creates.
End requests.

(** ** Every operation leaves confirmed claims bound *)

Section bound.
Context {W : Type} (hist : W -> gmap (string * string) Claim) (store : ClaimStore W) `{!ClaimServer hist bound store}.
Context (dev : Device W) (cfg : ClientConfig) (wraps : string -> bool) (c : sharedDNSClient).
Context (Hdev : device_keeps (all_bound hist) dev (fun _ => True)).
Context (Hstored : forall d, device_keeps (fun w => stored hist w d) dev (fun _ => True)).

Lemma sharedProvider_bound : provider_bound hist (sharedProvider dev cfg wraps).
Proof.
  split; cbn [provider_Snapshot provider_Create provider_ctx sharedProvider].
  - eapply keeps_take_snapshot, device_keeps_weaken; [|exact Hdev]. done.
  - intros d. eapply keeps_take_snapshot, device_keeps_weaken; [|apply Hstored]. done.
  - intros e. eapply keeps_client_apply; [exact Hdev|done].
  - intros w Hw. pose proof (dk_ctx _ _ _ Hdev w Hw) as H. by destruct (ctxError dev w) as [? []].
Qed.

Lemma take_snapshot_bound : keeps (all_bound hist) (take_snapshot dev cfg wraps).
Proof. apply sharedProvider_bound. Qed.
Lemma check_before_bound : keeps (all_bound hist) (check_before_operation dev wraps).
Proof. eapply keeps_check_before, device_keeps_weaken; [|exact Hdev]. done. Qed.
Lemma ReconcileClaim_all_bound n rv t s : keeps (all_bound hist) (ReconcileClaim store n rv t s).
Proof. by apply ReconcileClaim_bound. Qed.
Lemma RebindConfirmed_all_bound n rv t e id rev : keeps (all_bound hist) (RebindConfirmed store n rv t e id rev).
Proof. by apply RebindConfirmed_bound. Qed.
Lemma ReleaseAndDelete_all_bound n rv t s : keeps (all_bound hist) (ReleaseAndDeleteClaim store n rv t s).
Proof. by apply ReleaseAndDeleteClaim_bound. Qed.
Lemma Get_all_bound n : keeps (all_bound hist) (Get store n).
Proof. by apply Get_bound. Qed.
#[local] Hint Resolve take_snapshot_bound check_before_bound ReconcileClaim_all_bound RebindConfirmed_all_bound
  ReleaseAndDelete_all_bound Get_all_bound : effects.

Lemma recoverInterruptedClaim_bound op : keeps (all_bound hist) (recoverInterruptedClaim dev cfg store wraps c op).
Proof. unfold recoverInterruptedClaim, finish_recovery. cbv zeta. walk. Qed.

Lemma applyExisting_bound op : keeps (all_bound hist) (applyExisting dev cfg store wraps c op).
Proof.
  unfold applyExisting, release_deleted.
  assert (Hm : keeps (all_bound hist) (client_apply dev cfg wraps [op] false)) by (eapply keeps_client_apply; [exact Hdev|done]).
  pose proof (fun t p => ExecuteMutation_bound hist store _ t p _ sharedProvider_bound Hm) as He. walk.
Qed.

Lemma shared_applyOne_bound op : keeps (all_bound hist) (shared_applyOne dev cfg store wraps c op).
Proof.
  pose proof applyExisting_bound. unfold shared_applyOne. cbv zeta. destruct (_ =s _); [|walk].
  apply keeps_bind; [walk|intros _]. apply keeps_bind; [|walk]. apply ReconcileCreate_bound; [done|apply sharedProvider_bound|done].
Qed.

Lemma shared_loop_bound ops : forall st w, all_bound hist w -> all_bound hist (shared_loop dev cfg store wraps c ops st w).1.
Proof.
  induction ops as [|op ops IH]; intros st w HI; cbn [shared_loop]; [done|]. pose proof (dk_ctx _ _ _ Hdev w HI) as H0.
  destruct (ctxError dev w) as [w0 [err|]]; cbn in H0; [done|].
  destruct (check_before_operation dev wraps w0) as [w1 r1] eqn:E1. pose proof (check_before_bound _ _ _ H0 E1) as H1.
  destruct r1; [|done]. destruct (_ =s _).
  { destruct (recoverInterruptedClaim _ _ _ _ _ _ _) as [w2 r2] eqn:E2.
    pose proof (recoverInterruptedClaim_bound op _ _ _ H1 E2) as H2. apply IH. by destruct r2. }
  destruct (_ && _); [by apply IH|]. destruct (shared_applyOne _ _ _ _ _ _ _) as [w2 r2] eqn:E2.
  pose proof (shared_applyOne_bound op _ _ _ H1 E2) as H2. destruct r2; by apply IH.
Qed.

(** C7. Confirmed claims are bound: whatever a batch does in a shared zone --
    creates, updates, deletes, recoveries, and their failures at any point -- no
    stored version of any claim is Confirmed without a provider ID, provided
    other writers of the API server keep to that too. *)
Theorem confirmed_claims_bound ops dryRun w : all_bound hist w ->
  all_bound hist (shared_ApplyWithResults dev cfg store wraps c ops dryRun w).1.
Proof.
  intros HI. unfold shared_ApplyWithResults. destruct dryRun.
  - destruct (client_apply dev cfg wraps ops true w) as [w1 r1] eqn:E.
    pose proof (keeps_client_apply (all_bound hist) dev cfg (fun _ => True) Hdev wraps ops true (fun _ => Logic.I) _ _ _ HI E) as H.
    by destruct r1.
  - pose proof (shared_loop_bound ops (mkSharedState [] [] ∅) w HI) as H. by destruct (shared_loop _ _ _ _ _ _ _ _).
Qed.
End bound.
