(* ===== verification/ClaimExamples.v ===== *)
(** * A concrete API server, and claims on it

    An in-memory API server that satisfies the interface of ClaimHistory: its
    world is the log of all versions, a version's number is its place in the log.
    The theorems about shared zones are applied to it, beside a scripted device. *)
From Stdlib Require Import String Ascii ZArith Lia.
From S2P Require Import Prelude Effects GoStrings NetIP GoEncoding Endpoint Plan Document Executor Client ClientLaws.
From S2P Require Import Claims Manager ClaimsLaws ClaimHistory SharedClient SharedLaws.
Open Scope string_scope.
Open Scope list_scope.
Open Scope Z_scope.
Open Scope go_scope.

(** ** The server *)

(** A version, and whether the object still existed with it. *)
Definition log := list (Claim * bool).
(** Beside the log: the device's answers to come, and the paths of the requests sent. *)
Definition world : Type := log * (list HttpResult * list string).

Definition with_version (n : nat) (c : Claim) : Claim :=
  mkClaim (Cl_Namespace c) (Cl_Name c) (Cl_UID c) (FormatInt (Z.of_nat n)) (Finalizers c) (Cl_Deleting c) (Cl_Spec c) (Cl_Status c).

Definition versions (l : log) : list (Claim * bool) := imap (fun i x => (with_version i x.1, x.2)) l.
Definition history (l : log) : gmap (string * string) Claim := list_to_map ((fun x => (version_key x.1, x.1)) <$> versions l).

(** The newest version of a name, when it is alive. *)
Definition current (l : log) (name : string) : option Claim :=
  match last (filter (fun x => Cl_Name x.1 = name) (versions l)) with Some (c, true) => Some c | _ => None end.

Definition names (l : log) : list string := remove_dups ((fun x => Cl_Name x.1) <$> l).

(** Appending a version, which is then returned. *)
Definition append (c : Claim) (alive : bool) : M world APIError Claim :=
  fun w => ((w.1 ++ [(c, alive)], w.2), Ok (with_version (length w.1) c)).

(** A write of [c] on the version it was read from. *)
Definition guarded {A} (c_name rv : string) (k : Claim -> M world APIError A) : M world APIError A :=
  fun w => match current w.1 c_name with
           | None => (w, Err NotFound)
           | Some old => if ResourceVersion old =s rv then k old w else (w, Err Conflict)
           end.

Definition server : ClaimStore world := mkClaimStore
  (fun n w => (w, match current w.1 n with Some c => Ok c | None => Err NotFound end))
  (fun w => (w, Ok (omap (current w.1) (names w.1))))
  (fun c w => match current w.1 (Cl_Name c) with
              | Some _ => (w, Err AlreadyExists)
              | None => append (with_status (mkClaimStatus "" "" None) c) true w
              end)
  (fun c => guarded (Cl_Name c) (ResourceVersion c) (fun old =>
     append (with_status (Cl_Status old) c) (negb (Cl_Deleting old && bool_decide (Finalizers c = [])))))
  (fun c => guarded (Cl_Name c) (ResourceVersion c) (fun old => append (with_status (wire_status (Cl_Status c)) (with_spec (Cl_Spec old) c)) true))
  (fun n rv => guarded n rv (fun old =>
     do! append (mkClaim (Cl_Namespace old) (Cl_Name old) (Cl_UID old) rv (Finalizers old) true (Cl_Spec old) (Cl_Status old))
           (negb (bool_decide (Finalizers old = []))) in ret tt))
  (fun w => Z.of_nat (length w.1)).

(** ** It satisfies the interface *)

Definition claim_history (w : world) : gmap (string * string) Claim := history w.1.

Lemma versions_lookup l i x : versions l !! i = Some x <-> exists y, l !! i = Some y /\ x = (with_version i y.1, y.2).
Proof.
  unfold versions. rewrite list_lookup_imap. apply fmap_Some.
Qed.

Lemma versions_keys l i j x y : versions l !! i = Some x -> versions l !! j = Some y -> version_key x.1 = version_key y.1 -> i = j.
Proof.
  rewrite !versions_lookup. intros (a & _ & ->) (b & _ & ->) [= _ E]. apply FormatInt_inj in E; lia.
Qed.

Lemma history_lookup l k c : history l !! k = Some c <-> exists b, (c, b) ∈ versions l /\ version_key c = k.
Proof.
  unfold history. rewrite <- elem_of_list_to_map.
  - rewrite list_elem_of_fmap. split.
    + intros ([c' b] & [= -> ->] & H). eauto.
    + intros (b & Hb & <-). by exists (c, b).
  - rewrite <- list_fmap_compose. apply NoDup_alt. intros i j k'. rewrite !list_lookup_fmap.
    destruct (versions l !! i) as [x|] eqn:Ei; [|done]. destruct (versions l !! j) as [y|] eqn:Ej; [|done].
    cbn. intros [= Hx] [= Hy]. eapply versions_keys; [exact Ei|exact Ej|congruence].
Qed.

Lemma versions_app l x : versions (l ++ [x]) = versions l ++ [(with_version (length l) x.1, x.2)].
Proof. unfold versions. rewrite imap_app. cbn. by rewrite Nat.add_0_r. Qed.

Lemma current_stored l n c : current l n = Some c -> history l !! version_key c = Some c /\ Cl_Name c = n.
Proof.
  unfold current. destruct (last _) as [[d b]|] eqn:E; [|done]. destruct b; [|done]. intros [= <-].
  apply last_Some_elem_of, list_elem_of_filter in E as [E1 E2]. split; [|done]. apply history_lookup. eauto.
Qed.

Lemma log_grows others mine (w : world) c b : mine (with_version (length w.1) c) ->
  grows claim_history others mine w (w.1 ++ [(c, b)], w.2).
Proof.
  intros Hm. split.
  - apply map_subseteq_spec. intros k d. unfold claim_history. rewrite !history_lookup. cbn [fst]. rewrite versions_app.
    intros (x & Hx & ?). exists x. rewrite elem_of_app. auto.
  - intros k d. unfold claim_history. rewrite !history_lookup. cbn [fst]. rewrite versions_app.
    intros (x & Hx & Hk). apply elem_of_app in Hx as [Hx|Hx%list_elem_of_singleton]; [left; eauto|].
    injection Hx as -> _. by right; right.
Qed.

Lemma grows_refl others mine (w : world) : grows claim_history others mine w w.
Proof. split; [done|auto]. Qed.

Lemma appended_stored (w : world) c b : stored claim_history (w.1 ++ [(c, b)], w.2) (with_version (length w.1) c).
Proof. unfold stored, claim_history. apply history_lookup. exists b. cbn [fst]. rewrite versions_app, elem_of_app, list_elem_of_singleton. auto. Qed.

(** What a guarded write has found. *)
Lemma guarded_run {A} n rv (k : Claim -> M world APIError A) w w' r : guarded n rv k w = (w', r) ->
  (w' = w /\ exists e, r = Err e) \/
  exists old, claim_history w !! (n, rv) = Some old /\ Cl_Name old = n /\ k old w = (w', r).
Proof.
  unfold guarded. destruct (current w.1 n) as [old|] eqn:Ec; [|intros [= <- <-]; left; eauto].
  destruct (ResourceVersion old =s rv) eqn:Ev; [|intros [= <- <-]; left; eauto]. intros E. bools. right.
  apply current_stored in Ec as [Hs Hn]. exists old. unfold version_key in Hs. rewrite Hn, Ev in Hs. auto.
Qed.

(** A version appended on the one stored under [key]. *)
Lemma append_based others f key (w : world) old c b : claim_history w !! key = Some old -> f old (with_version (length w.1) c) ->
  let w' := (w.1 ++ [(c, b)], w.2) in
  grows claim_history others (based_on claim_history others f key w w') w w' /\
  based_on claim_history others f key w w' (with_version (length w.1) c).
Proof.
  intros Ho Hf w'. assert (Hb : based_on claim_history others f key w w' (with_version (length w.1) c)).
  { exists old. split; [|auto]. eapply lookup_weaken; [exact Ho|]. apply (log_grows others (fun _ => True) w c b I). }
  split; [by apply log_grows|done].
Qed.

#[export] Instance server_laws : ClaimServer claim_history bound server.
Proof.
  split; cbn [store_Get store_List store_Create store_Update store_UpdateStatus store_Delete server].
  - intros n w w' r [= <- <-]. split; [apply grows_refl|]. intros c. destruct (current w.1 n) eqn:E; [|done].
    intros [= <-]. by apply current_stored in E.
  - intros w w' r [= <- <-]. split; [apply grows_refl|]. intros l c [= <-] Hc. apply list_elem_of_omap in Hc as (n & _ & Hc).
    by apply current_stored in Hc as [? _].
  - intros c w w' r. destruct (current w.1 (Cl_Name c)); [intros [= <- <-]; split; [apply grows_refl|done]|].
    intros [= <- <-]. split; [by apply log_grows|]. intros x [= <-]. split; [apply appended_stored|done].
  - intros c w w' r E. apply guarded_run in E as [[-> [e ->]]|(old & Ho & Hn & [= <- <-])].
    { split; [apply grows_refl|done]. }
    destruct (append_based bound (updated_from c) (version_key c) w old (with_status (Cl_Status old) c)
      (negb (Cl_Deleting old && bool_decide (Finalizers c = []))) Ho) as [Hg Hb]; [done|].
    split; [exact Hg|]. intros x [= <-]. split; [apply appended_stored|exact Hb].
  - intros c w w' r E. apply guarded_run in E as [[-> [e ->]]|(old & Ho & Hn & [= <- <-])].
    { split; [apply grows_refl|done]. }
    destruct (append_based bound (status_updated_from c) (version_key c) w old (with_status (wire_status (Cl_Status c)) (with_spec (Cl_Spec old) c))
      true Ho) as [Hg Hb]; [done|].
    split; [exact Hg|]. intros x [= <-]. split; [apply appended_stored|exact Hb].
  - intros n rv w w' r E. apply guarded_run in E as [[-> [e ->]]|(old & Ho & Hn & [= <- <-])]; exists rv; (split; [done|]); [apply grows_refl|].
    by eapply (append_based bound touched_from (n, rv) w old).
Qed.

(** ** A device and a zone *)

Definition row (id : string) : fortiRecord :=
  mkFortiRecord ScalarNil (ScalarString id) "www" "A" "10.0.0.1" "" "" 300 "enable".
Definition listing (raw : string) : result string fortiResponse :=
  let page rows := Ok (mkFortiResponse rows (Some (Z.of_nat (length rows))) None None) in
  if raw =s "none" then page [] else if raw =s "one" then page [row "7"] else page [row "7"; row "8"].

Definition device : Device world := mkDevice
  (fun w req => match w.2.1 with
                | [] => ((w.1, ([], w.2.2 ++ [Req_Path req])), TransportFailure false)
                | r :: rest => ((w.1, (rest, w.2.2 ++ [Req_Path req])), r)
                end)
  (fun w _ => (w, None)) (fun w c => (w, c)) (fun _ _ => None) (fun w => (w, None)) (fun w => (w, None))
  (fun _ => Some (mkEnvelope "success" 200 None "")) listing.

(** The device does not touch the API server. *)
Lemma device_keeps_log (P : log -> Prop) : device_keeps (fun w : world => P w.1) device (fun _ => True).
Proof. split; cbn; intros; [|done..]. by destruct w.2.1. Qed.

Definition answer (raw : string) : HttpResult := HttpResponse 200 raw "".
Definition zone : ClientConfig := mkClientConfig "example.com" "root" 2.
Definition shared_edge : sharedDNSClient := mkShared "dns" "edge" "controller-a".
Definition no_context (_ : string) : bool := false.

Definition web : SourceRef := mkSourceRef "v1" "Service" "web" "www" "uid-1".
Definition www (id : string) : Endpoint := mkEndpoint "www.example.com" "A" ["10.0.0.1"] 300 "example.com" "" web id false.
Definition create_www : Operation := mkOperation OperationCreate (www "") zeroEndpoint "".
Definition delete_www (id : string) : Operation := mkOperation OperationDelete zeroEndpoint (www id) "".

Definition run (op : Operation) (w : world) : world * result OwnershipError unit :=
  shared_applyOne device zone server no_context shared_edge op w.

(** The claim is reserved, the row created and observed, the claim confirmed for row 7. *)
Definition after_create : world := (run create_www ([], ([answer "none"; answer "{}"; answer "one"], []))).1.

Example create_confirms :
  (run create_www ([], ([answer "none"; answer "{}"; answer "one"], []))).2 = Ok tt /\
  (fun c => (phase_of c, Cl_ProviderID (Cl_Spec c))) <$> omap (current after_create.1) (names after_create.1)
    = [(OwnershipPhaseConfirmed, "7")].
Proof. vm_compute. done. Qed.

(** The row is deleted, and with it the claim. *)
Definition answers_delete : list HttpResult := [answer "one"; answer "one"; answer "{}"; answer "none"].
Example delete_releases :
  let r := run (delete_www "7") (after_create.1, (answers_delete, [])) in
  r.2 = Ok tt /\ omap (current r.1.1) (names r.1.1) = [].
Proof. vm_compute. done. Qed.

(** A second row with the same content, which nobody claimed, is deleted under
    the claim of row 7: the path of the DELETE ends in 8. *)
Example unclaimed_duplicate_deleted :
  let r := run (delete_www "8") (after_create.1, ([answer "two"; answer "two"; answer "{}"; answer "one"], [])) in
  last (take 3 r.1.2.2) = Some (recordsPath "example.com" "8") /\ recordsPath "example.com" "8" <> recordsPath "example.com" "7".
Proof. vm_compute. done. Qed.

(** Such a row is listed as the controller's own. *)
Example unclaimed_duplicate_owned :
  match shared_ListRecordsWithRevision device zone server no_context shared_edge (after_create.1, ([answer "two"], [])) with
  | (_, Ok (rows, _)) => (fun r => (ProviderID r, OwnerID r)) <$> rows = [("7", "controller-a"); ("8", "controller-a")]
  | _ => False
  end.
Proof. vm_compute. done. Qed.

(** ** The theorems on this zone *)

Definition confirmed_log : log := Eval vm_compute in after_create.1.
Definition before_delete : world := (confirmed_log, (answers_delete, [])).
Definition metered_delete : (world * list Method) * result OwnershipError unit := Eval vm_compute in
  shared_applyOne (metered device) zone (metered_store server) no_context shared_edge (delete_www "7") (before_delete, []).

Lemma shared_mutation_authorized_witness :
  writes metered_delete.1.2 = [MethodDelete] /\ exists v, authorized_from device zone server shared_edge (delete_www "7") (before_delete, []) v.
Proof.
  split; [vm_compute; reflexivity|].
  destruct (shared_mutation_authorized device zone server no_context shared_edge (delete_www "7") before_delete
    metered_delete.1.1 metered_delete.1.2 metered_delete.2) as [H|(v & _ & _ & H & _)]; [discriminate| |discriminate H|by exists v].
  vm_cast_no_check (eq_refl metered_delete).
Defined.

Definition metered_create : (world * list Method) * result OwnershipError unit := Eval vm_compute in
  shared_applyOne (metered device) zone (metered_store server) no_context shared_edge create_www
    (([], ([answer "none"; answer "{}"; answer "one"], [])), []).

Lemma shared_create_reserved_first_witness :
  writes metered_create.1.2 = [MethodPost] /\ create_evidence device zone no_context shared_edge create_www.
Proof.
  split; [vm_compute; reflexivity|].
  destruct (shared_create_reserved_first device zone server no_context claim_history bound
    (fun d => device_keeps_log (fun l => history l !! version_key d = Some d)) shared_edge create_www
    ([], ([answer "none"; answer "{}"; answer "one"], [])) metered_create.1.1 metered_create.1.2 metered_create.2 eq_refl)
    as [H|[_ H]]; [|discriminate H|exact H].
  vm_cast_no_check (eq_refl metered_create).
Defined.

Lemma confirmed_claims_bound_witness :
  all_bound claim_history (shared_ApplyWithResults device zone server no_context shared_edge [create_www] false
    ([], ([answer "none"; answer "{}"; answer "one"], []))).1.
Proof.
  apply (confirmed_claims_bound claim_history server device zone no_context shared_edge
    (device_keeps_log (fun l => map_Forall (fun _ c => bound c) (history l)))
    (fun d => device_keeps_log (fun l => history l !! version_key d = Some d)) [create_www] false).
  intros k c H. discriminate H.
Defined.

(** Nothing was deleted. *)
Definition all_alive (w : world) : Prop := forallb snd w.1 = true.

Lemma status_keeps_alive c : keeps all_alive (store_UpdateStatus server c).
Proof.
  intros w w' r HI E. apply guarded_run in E as [[-> [e ->]]|(old & _ & _ & [= <- <-])]; [done|].
  unfold all_alive in *. cbn [fst]. rewrite forallb_app, HI. done.
Qed.

Definition www_identity : Identity := mkIdentity "edge" "example.com" "www.example.com" "A" "10.0.0.1".
Definition release_run : world * result OwnershipError unit := Eval vm_compute in
  ReleaseAndDeleteClaim server (ClaimName www_identity) "3" "edge" (mkSnapshot "r1" true []) before_delete.

Lemma claim_release_requires_absence_witness :
  release_run.2 = Ok tt /\ exists claim, record_absent "edge" (mkSnapshot "r1" true []) claim.
Proof.
  split; [reflexivity|].
  destruct (claim_release_requires_absence server all_alive
    (fun n w w' r HI E => ltac:(injection E as <- <-; by destruct (current w.1 n)))
    (fun w w' r HI E => ltac:(by injection E as <- <-))
    status_keeps_alive (ClaimName www_identity) "3" "edge" (mkSnapshot "r1" true []) before_delete release_run.1 release_run.2)
    as [H|(claim & _ & _ & _ & H)]; [reflexivity| |discriminate H|by exists claim].
  vm_cast_no_check (eq_refl release_run).
Defined.
