(* ===== verification/Policy.v ===== *)
(** * internal/policy: namespaced DNS policies

    A policy is compiled to a constraint; candidates are checked against the
    global bounds and the policies of their namespace that match them, then
    the quotas of those policies are applied in a fixed order.  Label selectors
    belong to k8s.io/apimachinery and are the interface [Selectors]. *)
From Stdlib Require Import String Ascii ZArith Lia.
From S2P Require Import Prelude GoStrings NetIP GoEncoding Endpoint.
Open Scope string_scope.
Open Scope list_scope.
Open Scope Z_scope.
Open Scope go_scope.

(** ** net/netip *)

(** An address is IPv4, or IPv6 with a zone ([""] without one). *)
Inductive Addr := Addr4 (groups : IP) | Addr6 (groups : IP) (zone : string).

Fixpoint cut_char (c : ascii) (s : string) : option (string * string) :=
  match s with
  | "" => None
  | String d s' =>
      if Ascii.eqb c d then Some ("", s')
      else match cut_char c s' with Some (a, b) => Some (String d a, b) | None => None end
  end.

Definition ParseAddr (s : string) : option Addr :=
  match ip_family s with
  | Some "."%char => Addr4 <$> ParseIP s
  | Some ":"%char =>
      match cut_char "%" s with
      | Some (a, zone) => if zone =s "" then None else (fun ip => Addr6 ip zone) <$> ParseIP a
      | None => (fun ip => Addr6 ip "") <$> ParseIP s
      end
  | _ => None
  end.

(** The 128 bits of an address as a number. *)
Definition addr_value (groups : IP) : Z := foldl (fun acc g => acc * 65536 + g) 0 groups.

(** The masked network: family, network bits and their number. *)
Record Prefix := mkPrefix { is4 : bool; network : Z; bits : Z }.

Definition addr_width (is4 : bool) : Z := if is4 then 32 else 128.
Definition addr_bits (is4 : bool) (groups : IP) : Z := addr_value groups mod 2 ^ addr_width is4.

Definition Masked (is4 : bool) (groups : IP) (bits : Z) : Prefix :=
  let low := addr_width is4 - bits in
  mkPrefix is4 (Z.shiftl (Z.shiftr (addr_bits is4 groups) low) low) bits.

Definition Contains (p : Prefix) (a : Addr) : bool :=
  let same groups := Z.shiftr (addr_bits (is4 p) groups) (addr_width (is4 p) - bits p)
                     =? Z.shiftr (network p) (addr_width (is4 p) - bits p) in
  match a with
  | Addr4 groups => is4 p && same groups
  | Addr6 groups zone => negb (is4 p) && (zone =s "") && same groups
  end.

(** The last ["/"] of the string separates the address from the length. *)
Fixpoint cut_last (c : ascii) (s : string) : option (string * string) :=
  match s with
  | "" => None
  | String d s' =>
      match cut_last c s' with
      | Some (a, b) => Some (String d a, b)
      | None => if Ascii.eqb c d then Some ("", s') else None
      end
  end.

Fixpoint decimal (acc : Z) (s : string) : option Z :=
  match s with
  | "" => Some acc
  | String c s' => match digit_val c with Some d => decimal (acc * 10 + d) s' | None => None end
  end.

Definition parse_bits (s : string) : option Z :=
  match s with
  | "" => None
  | String c s' => if Ascii.eqb c "0" && negb (s' =s "") then None else decimal 0 s
  end.

(** [netip.ParsePrefix] followed by [Masked]. *)
Definition ParseMasked (s : string) : option Prefix :=
  match cut_last "/" s with
  | None => None
  | Some (a, b) =>
      match ParseAddr a, parse_bits b with
      | Some (Addr4 g), Some n => if n <=? 32 then Some (Masked true g n) else None
      | Some (Addr6 g zone), Some n => if (zone =s "") && (n <=? 128) then Some (Masked false g n) else None
      | _, _ => None
      end
  end.

(** ** Data *)

Class Selectors := {
  LabelSelector : Type;
  Selector : Type;
  Everything : Selector;
  LabelSelectorAsSelector : LabelSelector -> option Selector;
  Matches : Selector -> gmap string string -> bool
}.

Record TTLRange := mkTTLRange { Minimum : Z; Maximum : Z }.
Record OptInRequirement := mkOptIn { Annotation : string; OptInValue : string }.

Definition ReasonDenied : string := "Denied".
Definition ReasonHostnameNotAllowed : string := "HostnameNotAllowed".
Definition ReasonTTLNotAllowed : string := "TTLNotAllowed".
Definition ReasonTargetNotAllowed : string := "TargetNotAllowed".
Definition ReasonOptInRequired : string := "OptInRequired".
Definition ReasonNamespaceQuotaExceeded : string := "NamespaceQuotaExceeded".
Definition ReasonTargetQuotaExceeded : string := "TargetQuotaExceeded".
Definition ReasonPolicyInvalid : string := "PolicyInvalid".

Record Candidate := mkCandidate {
  Cand_Endpoint : Endpoint; TargetName : string; Labels : gmap string string; Annotations : gmap string string }.

Record Bounds := mkBounds {
  B_SourceKinds : list string; B_HostnameSuffixes : list string; B_TTL : option TTLRange; B_TargetCIDRs : list string;
  B_TargetHostnameSuffixes : list string }.

Record Rejection := mkRejection { Rejected_Candidate : Candidate; Rej_Reason : string }.
Record PolicyResult := mkPolicyResult {
  Pol_Allowed : list Candidate; Pol_Rejected : list Rejection; InvalidPolicyNamespaces : list string }.

(** ** Matching *)

Definition stringSet (values : list string) : gset string :=
  list_to_set (filter (fun v => v <> "") ((fun v => ToLower (TrimSpace v)) <$> values)).

Definition containsFold (values : gset string) (value : string) : bool :=
  bool_decide (ToLower (TrimSpace value) ∈ values).

Definition containsSourceKind (values : gset string) (candidate : string) : bool :=
  if containsFold values candidate then true
  else if negb (EqualFold candidate "Gateway") && negb (EqualFold candidate "HTTPRoute") then false
  else containsFold values "gateway".

(** The distinct non-empty normalized suffixes, sorted. *)
Definition normalizeSuffixes (values : list string) : list string :=
  sort_strings (elements (list_to_set (filter (fun v => v <> "") (NormalizeDNSName <$> values)) : gset string)).

Definition matchesSuffix (value : string) (suffixes : list string) : bool :=
  existsb (fun suffix => (NormalizeDNSName value =s suffix) || HasSuffix (NormalizeDNSName value) ("." +:+ suffix)) suffixes.

Definition containsAddress (prefixes : list Prefix) (a : Addr) : bool := existsb (fun p => Contains p a) prefixes.

Section policy.
Context `{Selectors} `{MapRange}.
(** [netip.Prefix.String], by which the prefixes are sorted. *)
Context (PrefixString : Prefix -> string).

Record PolicySpec := mkPolicySpec {
  Spec_Selector : option LabelSelector; SourceKinds : list string; AllowedHostnameSuffixes : list string;
  Spec_TTL : option TTLRange; AllowedTargetCIDRs : list string; AllowedTargetSuffixes : list string;
  RequireOptIn : option OptInRequirement; MaxRecordsPerNamespace : Z; MaxRecordsPerTarget : Z; Deny : bool }.

Record NamedPolicy := mkNamedPolicy { NP_Namespace : string; NP_Name : string; Spec : PolicySpec }.
Record InvalidPolicy := mkInvalidPolicy { IPol_Namespace : string; IPol_Name : string; IPol_Err : string }.

Record compiledConstraint := mkConstraint {
  cc_name : string; cc_selector : Selector; sourceKinds : gset string; hostnameSuffixes : list string;
  cc_ttl : option TTLRange; targetCIDRs : list Prefix; targetHostnameSuffixes : list string;
  requireOptIn : option OptInRequirement; maxRecordsPerNamespace : Z; maxRecordsPerTarget : Z; deny : bool }.

Record Evaluator := mkEvaluator {
  outer : compiledConstraint; policies : gmap string (list compiledConstraint); invalid : list InvalidPolicy;
  invalidNamespaces : gset string }.

Fixpoint compile_cidrs (name : string) (raws : list string) : result string (list Prefix) :=
  match raws with
  | [] => Ok []
  | raw :: rest =>
      match ParseMasked (TrimSpace raw) with
      | None => Err ("policy " +:+ name +:+ " target CIDR " +:+ raw)
      | Some p => let? ps := compile_cidrs name rest in Ok (p :: ps)
      end
  end.

Definition compile (name : string) (spec : PolicySpec) : result string compiledConstraint :=
  let? selector := match Spec_Selector spec with
                   | None => Ok Everything
                   | Some s => match LabelSelectorAsSelector s with
                               | Some sel => Ok sel
                               | None => Err ("policy " +:+ name +:+ " selector")
                               end
                   end in
  let inverted := match Spec_TTL spec with
                  | Some t => (0 <? Minimum t) && (0 <? Maximum t) && (Maximum t <? Minimum t)
                  | None => false
                  end in
  if inverted : bool then Err ("policy " +:+ name +:+ " minimum TTL exceeds maximum TTL")
  else
    let? cidrs := compile_cidrs name (AllowedTargetCIDRs spec) in
    Ok (mkConstraint name selector (stringSet (SourceKinds spec)) (normalizeSuffixes (AllowedHostnameSuffixes spec))
          (Spec_TTL spec) (sort_by_key PrefixString cidrs) (normalizeSuffixes (AllowedTargetSuffixes spec))
          (RequireOptIn spec) (MaxRecordsPerNamespace spec) (MaxRecordsPerTarget spec) (Deny spec)).

Definition invalid_less (a b : InvalidPolicy) : bool :=
  if negb (IPol_Namespace a =s IPol_Namespace b) then IPol_Namespace a <s IPol_Namespace b
  else IPol_Name a <s IPol_Name b.

Definition add_policy (e : Evaluator) (p : NamedPolicy) : Evaluator :=
  match compile (NP_Namespace p +:+ "/" +:+ NP_Name p) (Spec p) with
  | Err err =>
      mkEvaluator (outer e) (policies e) (invalid e ++ [mkInvalidPolicy (NP_Namespace p) (NP_Name p) err])
        ({[NP_Namespace p]} ∪ invalidNamespaces e)
  | Ok c => mkEvaluator (outer e) (append_at (policies e) (NP_Namespace p) c) (invalid e) (invalidNamespaces e)
  end.

Definition NewEvaluator (b : Bounds) (named : list NamedPolicy) : result string Evaluator :=
  let? o := compile "global bounds"
              (mkPolicySpec None (B_SourceKinds b) (B_HostnameSuffixes b) (B_TTL b) (B_TargetCIDRs b)
                 (B_TargetHostnameSuffixes b) None 0 0 false) in
  let e := foldl add_policy (mkEvaluator o ∅ [] ∅) named in
  Ok (mkEvaluator (outer e) (sort_by_key cc_name <$> policies e) (sort_slice invalid_less (invalid e))
        (invalidNamespaces e)).

(** ** Evaluation *)

Definition matches (c : compiledConstraint) (candidate : Candidate) : bool :=
  if negb (Matches (cc_selector c) (Labels candidate)) then false
  else bool_decide (sourceKinds c = ∅) || containsFold (sourceKinds c) (Kind (Source (Cand_Endpoint candidate))).

(** The targets of one endpoint against the two lists of one constraint. *)
Fixpoint target_reason (c : compiledConstraint) (targets : list string) : string :=
  match targets with
  | [] => ""
  | t :: rest =>
      let hasCIDRs := (0 <? length (targetCIDRs c))%nat in
      let hasSuffixes := (0 <? length (targetHostnameSuffixes c))%nat in
      match ParseAddr t with
      | Some address =>
          if (hasCIDRs && negb (containsAddress (targetCIDRs c) address)) || (negb hasCIDRs && hasSuffixes)
          then ReasonTargetNotAllowed else target_reason c rest
      | None =>
          if (hasSuffixes && negb (matchesSuffix t (targetHostnameSuffixes c))) || (negb hasSuffixes && hasCIDRs)
          then ReasonTargetNotAllowed else target_reason c rest
      end
  end.

Definition constraint_reason (candidate : Candidate) (e : Endpoint) (c : compiledConstraint) : string :=
  if deny c then ReasonDenied
  else if (0 <? length (hostnameSuffixes c))%nat && negb (matchesSuffix (DNSName e) (hostnameSuffixes c)) then
    ReasonHostnameNotAllowed
  else if match cc_ttl c with
          | Some t => (0 <? Minimum t) && (TTL e <? Minimum t) || (0 <? Maximum t) && (Maximum t <? TTL e)
          | None => false
          end then ReasonTTLNotAllowed
  else if match requireOptIn c with
          | Some r => negb (default "" (Annotations candidate !! Annotation r) =s OptInValue r)
          | None => false
          end then ReasonOptInRequired
  else target_reason c (Targets e).

Fixpoint evaluate_from (candidate : Candidate) (e : Endpoint) (constraints : list compiledConstraint) : string :=
  match constraints with
  | [] => ""
  | c :: rest =>
      let r := constraint_reason candidate e c in
      if negb (r =s "") then r else evaluate_from candidate e rest
  end.

Definition evaluateConstraints (candidate : Candidate) (constraints : list compiledConstraint) : string :=
  evaluate_from candidate (Normalize (Cand_Endpoint candidate)) constraints.

Definition minimumPositive (constraints : list compiledConstraint) (value : compiledConstraint -> Z) : Z :=
  foldl (fun minimum c => if (0 <? value c) && ((minimum =? 0) || (value c <? minimum)) then value c else minimum)
    0 constraints.

Definition candidateKey (c : Candidate) : string :=
  Join [TargetName c; Namespace (Source (Cand_Endpoint c)); Kind (Source (Cand_Endpoint c));
        Name (Source (Cand_Endpoint c)); Key (Cand_Endpoint c)] "|".

Record evaluatedCandidate := mkEvaluated { EC_Candidate : Candidate; namespaceLimit : Z; targetLimit : Z }.

Definition candidate_namespace (c : Candidate) : string := Namespace (Source (Cand_Endpoint c)).

Definition constraints_for (ev : Evaluator) (c : Candidate) : list compiledConstraint :=
  outer ev :: filter (fun p => matches p c = true) (default [] (policies ev !! candidate_namespace c)).

Definition evaluate_candidate (ev : Evaluator) (c : Candidate) : result string evaluatedCandidate :=
  if negb (bool_decide (sourceKinds (outer ev) = ∅))
     && negb (containsSourceKind (sourceKinds (outer ev)) (Kind (Source (Cand_Endpoint c)))) then Err ReasonDenied
  else if bool_decide (candidate_namespace c ∈ invalidNamespaces ev) then Err ReasonPolicyInvalid
  else
    let constraints := constraints_for ev c in
    let reason := evaluateConstraints c constraints in
    if negb (reason =s "") then Err reason
    else Ok (mkEvaluated c (minimumPositive constraints maxRecordsPerNamespace)
               (minimumPositive constraints maxRecordsPerTarget)).

Fixpoint evaluate_all (ev : Evaluator) (cs : list Candidate) : list evaluatedCandidate * list Rejection :=
  match cs with
  | [] => ([], [])
  | c :: rest =>
      let '(accepted, rejected) := evaluate_all ev rest in
      match evaluate_candidate ev c with
      | Ok a => (a :: accepted, rejected)
      | Err r => (accepted, mkRejection c r :: rejected)
      end
  end.

Record QuotaState := mkQuota {
  namespaceCount : gmap string Z; targetCount : gmap string Z; q_allowed : list Candidate; q_rejected : list Rejection }.

Definition count_of (m : gmap string Z) (k : string) : Z := default 0 (m !! k).

Definition quota_step (st : QuotaState) (c : evaluatedCandidate) : QuotaState :=
  let namespace := candidate_namespace (EC_Candidate c) in
  let targetQuotaKey := TargetName (EC_Candidate c) +:+ String "000" namespace in
  let reject r := mkQuota (namespaceCount st) (targetCount st) (q_allowed st)
                    (q_rejected st ++ [mkRejection (EC_Candidate c) r]) in
  if (0 <? namespaceLimit c) && (namespaceLimit c <=? count_of (namespaceCount st) namespace) then
    reject ReasonNamespaceQuotaExceeded
  else if (0 <? targetLimit c) && (targetLimit c <=? count_of (targetCount st) targetQuotaKey) then
    reject ReasonTargetQuotaExceeded
  else mkQuota (<[namespace := count_of (namespaceCount st) namespace + 1]> (namespaceCount st))
         (<[targetQuotaKey := count_of (targetCount st) targetQuotaKey + 1]> (targetCount st))
         (q_allowed st ++ [EC_Candidate c]) (q_rejected st).

(** A nil evaluator allows everything. *)
Definition Evaluate (e : option Evaluator) (candidates : list Candidate) : PolicyResult :=
  match e with
  | None => mkPolicyResult candidates [] []
  | Some ev =>
      let '(accepted, rejected) := evaluate_all ev (sort_by_key candidateKey candidates) in
      let st := foldl quota_step (mkQuota ∅ ∅ [] rejected) accepted in
      mkPolicyResult (q_allowed st) (q_rejected st) (sort_strings (elements (invalidNamespaces ev)))
  end.
End policy.

(** ** store.go *)

Definition uniqueNamespaces (values : list string) : list string :=
  sort_strings (elements (list_to_set (filter (fun v => v <> "") (TrimSpace <$> values)) : gset string)).

Section store.
Context `{Selectors}.
(** Listing the policies of one namespace; [""] is every namespace. *)
Context (list_policies : string -> result string (list NamedPolicy)).

Fixpoint add_unique (items : list NamedPolicy) (seen : gset string) (acc : list NamedPolicy)
    : result string (gset string * list NamedPolicy) :=
  match items with
  | [] => Ok (seen, acc)
  | p :: rest =>
      let key := NP_Namespace p +:+ "/" +:+ NP_Name p in
      if bool_decide (key ∈ seen) then Err ("duplicate DNS policy " +:+ key)
      else add_unique rest ({[key]} ∪ seen) (acc ++ [p])
  end.

Fixpoint list_namespaces (namespaces : list string) (seen : gset string) (acc : list NamedPolicy)
    : result string (list NamedPolicy) :=
  match namespaces with
  | [] => Ok acc
  | ns :: rest =>
      match list_policies ns with
      | Err e => Err ("list DNS policies: " +:+ e)
      | Ok items =>
          let? r := add_unique items seen acc in
          let '(seen, acc) := r in list_namespaces rest seen acc
      end
  end.

Definition policy_less (a b : NamedPolicy) : bool :=
  if negb (NP_Namespace a =s NP_Namespace b) then NP_Namespace a <s NP_Namespace b else NP_Name a <s NP_Name b.

Definition list_all (namespaces : list string) : result string (list NamedPolicy) :=
  let namespaces := match uniqueNamespaces namespaces with [] => [""] | l => l end in
  let? ps := list_namespaces namespaces ∅ [] in Ok (sort_slice policy_less ps).
End store.
