(* ===== verification/PolicyLaws.v ===== *)
(** * Properties of policy evaluation *)
From Stdlib Require Import String Ascii ZArith Lia.
From S2P Require Import Prelude GoStrings NetIP GoEncoding Endpoint Policy.
Open Scope string_scope.
Open Scope list_scope.
Open Scope Z_scope.
Open Scope go_scope.

Section policy_laws.
Context `{Selectors}.
Implicit Types (c : Candidate) (con : compiledConstraint) (ev : Evaluator).

(** ** What a constraint demands *)

Definition under_suffix (name : string) (suffixes : list string) : Prop :=
  exists s, s ∈ suffixes /\ (NormalizeDNSName name = s \/ exists p, NormalizeDNSName name = p +:+ "." +:+ s).

Definition target_allowed (con : compiledConstraint) (t : string) : Prop :=
  match ParseAddr t with
  | Some a => (targetCIDRs con <> [] -> exists p, p ∈ targetCIDRs con /\ Contains p a = true) /\
              (targetCIDRs con = [] -> targetHostnameSuffixes con = [])
  | None => (targetHostnameSuffixes con <> [] -> under_suffix t (targetHostnameSuffixes con)) /\
            (targetHostnameSuffixes con = [] -> targetCIDRs con = [])
  end.

Record satisfies (con : compiledConstraint) (c : Candidate) : Prop := {
  sat_deny : deny con = false;
  sat_hostname : hostnameSuffixes con <> [] ->
    under_suffix (DNSName (Normalize (Cand_Endpoint c))) (hostnameSuffixes con);
  sat_ttl : forall t, cc_ttl con = Some t ->
    (0 < Minimum t -> Minimum t <= TTL (Cand_Endpoint c)) /\ (0 < Maximum t -> TTL (Cand_Endpoint c) <= Maximum t);
  sat_optin : forall r, requireOptIn con = Some r -> default "" (Annotations c !! Annotation r) = OptInValue r;
  sat_targets : forall t, t ∈ Targets (Normalize (Cand_Endpoint c)) -> target_allowed con t
}.

Lemma matchesSuffix_spec name suffixes : matchesSuffix name suffixes = true <-> under_suffix name suffixes.
Proof.
  unfold matchesSuffix, under_suffix. rewrite existsb_exists. split.
  - intros (s & Hs & E). exists s. split; [by apply list_elem_of_In|].
    apply orb_true_iff in E as [E|E]; bools; [by left|right]. by apply HasSuffix_spec in E.
  - intros (s & Hs & E). exists s. split; [by apply list_elem_of_In|]. apply orb_true_iff.
    destruct E as [E|E]; [left; by bools|right]. by apply HasSuffix_spec.
Qed.

Lemma containsAddress_spec ps a : containsAddress ps a = true <-> exists p, p ∈ ps /\ Contains p a = true.
Proof.
  unfold containsAddress. rewrite existsb_exists. split; intros (p & Hp & E); exists p; split; try done;
    by apply list_elem_of_In.
Qed.

Lemma length_pos_iff {A} (l : list A) : (0 <? length l)%nat = true <-> l <> [].
Proof. destruct l; simpl; split; done. Qed.

Lemma length_pos_false {A} (l : list A) : (0 <? length l)%nat = false <-> l = [].
Proof. destruct l; simpl; split; done. Qed.

Lemma target_reason_spec con ts : target_reason con ts = "" <-> forall t, t ∈ ts -> target_allowed con t.
Proof.
  induction ts as [|t ts IH]; cbn [target_reason]; [split; [by intros _ ? ?%not_elem_of_nil|done]|].
  assert (Hcons : (forall x, x ∈ t :: ts -> target_allowed con x) <->
                  target_allowed con t /\ forall x, x ∈ ts -> target_allowed con x).
  { setoid_rewrite elem_of_cons. naive_solver. }
  rewrite Hcons, <- IH. unfold target_allowed, ReasonTargetNotAllowed.
  destruct (ParseAddr t) as [a|].
  - destruct (0 <? length (targetCIDRs con))%nat eqn:Ec; cbn [andb orb negb].
    + apply length_pos_iff in Ec. destruct (containsAddress (targetCIDRs con) a) eqn:Ea; cbn [andb orb negb].
      * apply containsAddress_spec in Ea. naive_solver.
      * split; [done|]. intros [[Hx _] _]. apply Hx, containsAddress_spec in Ec. congruence.
    + apply length_pos_false in Ec. cbn [andb orb negb]. rewrite Ec. destruct (0 <? length (targetHostnameSuffixes con))%nat eqn:Es; cbn [andb orb negb].
      * apply length_pos_iff in Es. split; [done|]. naive_solver.
      * apply length_pos_false in Es. naive_solver.
  - destruct (0 <? length (targetHostnameSuffixes con))%nat eqn:Es; cbn [andb orb negb].
    + apply length_pos_iff in Es. destruct (matchesSuffix t (targetHostnameSuffixes con)) eqn:Ea; cbn [andb orb negb].
      * apply matchesSuffix_spec in Ea. naive_solver.
      * split; [done|]. intros [[Hx _] _]. apply Hx, matchesSuffix_spec in Es. congruence.
    + apply length_pos_false in Es. cbn [andb orb negb]. rewrite Es. destruct (0 <? length (targetCIDRs con))%nat eqn:Ec; cbn [andb orb negb].
      * apply length_pos_iff in Ec. split; [done|]. naive_solver.
      * apply length_pos_false in Ec. naive_solver.
Qed.

Lemma constraint_reason_spec con c :
  constraint_reason c (Normalize (Cand_Endpoint c)) con = "" <-> satisfies con c.
Proof.
  unfold constraint_reason. destruct (deny con) eqn:Ed; [split; [done|intros [? _ _ _ _]; congruence]|].
  destruct (_ && negb _) eqn:Eh.
  { split; [done|]. intros [_ Hh _ _ _]. apply andb_true_iff in Eh as [E1 E2]. apply length_pos_iff in E1.
    apply Hh, matchesSuffix_spec in E1. by rewrite E1 in E2. }
  destruct (match cc_ttl con with Some _ => _ | None => _ end) eqn:Et.
  { split; [done|]. intros [_ _ Ht _ _]. destruct (cc_ttl con) as [t|]; [|done].
    destruct (Ht t eq_refl) as [Hmin Hmax]. change (TTL (Normalize (Cand_Endpoint c))) with (TTL (Cand_Endpoint c)) in Et.
    apply orb_true_iff in Et as [Et|Et]; apply andb_true_iff in Et as [E1 E2]; apply Z.ltb_lt in E1, E2;
      [specialize (Hmin E1)|specialize (Hmax E1)]; lia. }
  destruct (match requireOptIn con with Some _ => _ | None => _ end) eqn:Eo.
  { split; [done|]. intros [_ _ _ Ho _]. destruct (requireOptIn con) as [r|]; [|done]. bools. by destruct Eo; apply Ho. }
  rewrite target_reason_spec. split; [|by intros [_ _ _ _ ?]]. intros Htg. split; try done.
  - intros Hne. apply length_pos_iff in Hne. rewrite Hne in Eh. cbn in Eh. apply negb_false_iff in Eh.
    by apply matchesSuffix_spec.
  - intros t Et'. rewrite Et' in Et. change (TTL (Normalize (Cand_Endpoint c))) with (TTL (Cand_Endpoint c)) in Et.
    apply orb_false_iff in Et as [E1 E2]. split; intros Hpos; apply Z.ltb_lt in Hpos;
      [rewrite Hpos in E1; cbn in E1; apply Z.ltb_ge in E1|rewrite Hpos in E2; cbn in E2; apply Z.ltb_ge in E2]; lia.
  - intros r Er. rewrite Er in Eo. by bools.
Qed.

Lemma evaluateConstraints_spec c cons : evaluateConstraints c cons = "" <-> Forall (fun con => satisfies con c) cons.
Proof.
  unfold evaluateConstraints. induction cons as [|con cons IH]; cbn [evaluate_from]; [split; [constructor|done]|].
  rewrite Forall_cons, <- IH, <- constraint_reason_spec.
  destruct (constraint_reason c _ con =s "") eqn:E; cbn [negb]; bools; naive_solver.
Qed.

(** ** Every candidate is decided once *)

Lemma evaluate_all_perm ev cs :
  (EC_Candidate <$> (evaluate_all ev cs).1) ++ (Rejected_Candidate <$> (evaluate_all ev cs).2) ≡ₚ cs /\
  Forall (fun a => evaluate_candidate ev (EC_Candidate a) = Ok a) (evaluate_all ev cs).1.
Proof.
  induction cs as [|c cs [IH1 IH2]]; cbn [evaluate_all]; [done|].
  destruct (evaluate_all ev cs) as [acc rej]. cbn [fst snd] in *.
  destruct (evaluate_candidate ev c) as [a|r] eqn:E; cbn [fst snd].
  - assert (Hc : EC_Candidate a = c).
    { unfold evaluate_candidate in E. repeat case_match; simplify_eq. done. }
    rewrite fmap_cons, Hc. cbn. split; [by rewrite IH1|]. constructor; [by rewrite Hc|done].
  - rewrite fmap_cons. cbn. split; [by rewrite <- Permutation_middle, IH1|done].
Qed.

Definition quota_inv (rej0 : list Rejection) (dn : list evaluatedCandidate) (st : QuotaState) : Prop :=
  q_allowed st ++ (Rejected_Candidate <$> q_rejected st) ≡ₚ (EC_Candidate <$> dn) ++ (Rejected_Candidate <$> rej0) /\
  (forall c, c ∈ q_allowed st -> exists a, a ∈ dn /\ EC_Candidate a = c).

Lemma quota_partition rej0 accepted : quota_inv rej0 accepted (foldl quota_step (mkQuota ∅ ∅ [] rej0) accepted).
Proof.
  apply (foldl_ind_done (quota_inv rej0)); [split; [done|by intros ? ?%not_elem_of_nil]|].
  intros dn st a _ [Hp Ha].
  assert (Hrej : forall r, quota_inv rej0 (dn ++ [a]) (mkQuota (namespaceCount st) (targetCount st) (q_allowed st)
            (q_rejected st ++ [mkRejection (EC_Candidate a) r]))).
  { intros r. split; cbn.
    - rewrite !fmap_app. cbn. rewrite app_assoc, Hp, <- !app_assoc.
      apply Permutation_app_head, Permutation_app_comm.
    - intros c Hc. destruct (Ha c Hc) as (x & Hx & E). exists x. split; [apply elem_of_app; by left|done]. }
  unfold quota_step. cbv zeta. destruct (_ && _); [apply Hrej|]. destruct (_ && _); [apply Hrej|]. split; cbn.
  - rewrite !fmap_app. cbn. rewrite <- !app_assoc. cbn. rewrite <- !Permutation_middle. by rewrite Hp.
  - intros c Hc. apply elem_of_app in Hc as [Hc|Hc].
    + destruct (Ha c Hc) as (x & Hx & E). exists x. split; [apply elem_of_app; by left|done].
    + apply list_elem_of_singleton in Hc as ->. exists a. split; [apply elem_of_snoc|done].
Qed.

(** ** Quotas *)

Lemma minimumPositive_le cons f con : con ∈ cons -> 0 < f con ->
  0 < minimumPositive cons f /\ minimumPositive cons f <= f con.
Proof.
  unfold minimumPositive. intros Hin Hpos.
  assert (G : forall m, 0 <= m -> let r := foldl (fun (minimum : Z) (c : compiledConstraint) => if (0 <? f c) && ((minimum =? 0) || (f c <? minimum)) then f c else minimum) m cons in
            (0 < m -> 0 < r /\ r <= m) /\ (con ∈ cons -> 0 < r /\ r <= f con)).
  { clear Hin. induction cons as [|x cons IH]; intros m Hm; cbn [foldl]; [split; [lia|by intros ?%not_elem_of_nil]|].
    set (m' := if _ : bool then f x else m).
    assert (Hm' : 0 <= m' /\ (0 < m -> 0 < m' /\ m' <= m) /\ (0 < f x -> 0 < m' /\ m' <= f x)).
    { unfold m'. destruct (Z.ltb_spec 0 (f x)), (Z.eqb_spec m 0), (Z.ltb_spec (f x) m); cbn; lia. }
    destruct Hm' as (H0 & H1 & H2). destruct (IH m' H0) as [I1 I2]. split.
    - intros Hp. destruct (H1 Hp) as [? ?]. destruct (I1 ltac:(lia)) as [? ?]. split; lia.
    - intros Hc. apply elem_of_cons in Hc as [->|Hc]; [|auto]. destruct (H2 Hpos) as [? ?].
      destruct (I1 ltac:(lia)) as [? ?]. split; lia. }
  by apply (G 0).
Qed.

(** The candidates of a namespace that were allowed. *)
Definition in_namespace (ns : string) (l : list Candidate) : list Candidate :=
  filter (fun c => candidate_namespace c = ns) l.

Section quota.
Context (ns : string) (selected : Candidate -> bool) (limit : Z).
Hypothesis Hlimit : 0 < limit.

(** The counter counts, and no more than [limit] selected candidates pass. *)
Definition count_inv (st : QuotaState) : Prop :=
  count_of (namespaceCount st) ns = Z.of_nat (length (in_namespace ns (q_allowed st))) /\
  Z.of_nat (length (filter (fun c => selected c = true) (in_namespace ns (q_allowed st)))) <= limit.

Lemma filter_length_le {A} (P : A -> Prop) `{!forall x, Decision (P x)} (l : list A) :
  (length (filter P l) <= length l)%nat.
Proof. induction l as [|x l IH]; simpl; [done|]. rewrite filter_cons. case_decide; simpl; lia. Qed.

Lemma quota_count accepted rej0 :
  (forall a, a ∈ accepted -> candidate_namespace (EC_Candidate a) = ns -> selected (EC_Candidate a) = true ->
             0 < namespaceLimit a /\ namespaceLimit a <= limit) ->
  count_inv (foldl quota_step (mkQuota ∅ ∅ [] rej0) accepted).
Proof using Hlimit.
  intros Hsel. apply (foldl_ind count_inv).
  { split; cbn; [done|lia]. }
  intros st a Ha [Hc Hl]. specialize (Hsel a Ha). unfold quota_step. cbv zeta.
  destruct ((0 <? namespaceLimit a) && _) eqn:E1; [done|]. destruct ((0 <? targetLimit a) && _) eqn:E2; [done|].
  unfold count_inv, in_namespace in *. cbn. rewrite filter_app, filter_cons, filter_nil.
  destruct (decide (candidate_namespace (EC_Candidate a) = ns)) as [En|En].
  - rewrite En in *. unfold count_of. rewrite lookup_insert_eq. cbn. rewrite length_app. simpl.
    fold (count_of (namespaceCount st) ns). split; [lia|].
    rewrite filter_app, filter_cons, filter_nil, length_app. case_decide as Es; simpl; [|lia].
    destruct (Hsel eq_refl Es) as [Hpos Hle]. apply Z.ltb_lt in Hpos. rewrite Hpos in E1. cbn in E1.
    apply Z.leb_gt in E1.
    pose proof (filter_length_le (fun c => selected c = true) (filter (fun c => candidate_namespace c = ns) (q_allowed st))). lia.
  - unfold count_of. rewrite lookup_insert_ne by done. rewrite app_nil_r. done.
Qed.
End quota.
End policy_laws.

(** Evaluation decides every candidate exactly once: the allowed and the
    rejected candidates together are the candidates that came in. *)
Theorem Evaluate_partition `{Selectors} ev candidates :
  Pol_Allowed (Evaluate (Some ev) candidates) ++ (Rejected_Candidate <$> Pol_Rejected (Evaluate (Some ev) candidates))
  ≡ₚ candidates.
Proof.
  unfold Evaluate. pose proof (evaluate_all_perm ev (sort_by_key candidateKey candidates)) as [Hp _].
  destruct (evaluate_all ev _) as [acc rej]. cbn [fst snd] in Hp.
  destruct (quota_partition rej acc) as [Hq _]. cbn. by rewrite Hq, Hp, sort_by_key_perm.
Qed.

(** ** The policies as they are written *)

(** What follows reads the bounds and the policies of the cluster directly, not
    their compiled form. *)
Definition folded (v : string) : string := ToLower (TrimSpace v).
Definition kind_listed (kinds : list string) (kind : string) : Prop :=
  exists k, k ∈ kinds /\ folded k <> "" /\ folded k = folded kind.
Definition names_no_kind (kinds : list string) : Prop := forall k, k ∈ kinds -> folded k = "".
Definition suffixes_of (values : list string) : list string := filter (fun v => v <> "") (NormalizeDNSName <$> values).

Section raw_policies.
Context `{Selectors}.

Definition raw_target_allowed (cidrs suffixes : list string) (t : string) : Prop :=
  match ParseAddr t with
  | Some a => (cidrs <> [] -> exists raw p, raw ∈ cidrs /\ ParseMasked (TrimSpace raw) = Some p /\ Contains p a = true) /\
              (cidrs = [] -> suffixes_of suffixes = [])
  | None => (suffixes_of suffixes <> [] -> under_suffix t (suffixes_of suffixes)) /\
            (suffixes_of suffixes = [] -> cidrs = [])
  end.

(** A candidate within the limits of a policy. *)
Record meets (spec : PolicySpec) (c : Candidate) : Prop := {
  meets_deny : Deny spec = false;
  meets_hostname : suffixes_of (AllowedHostnameSuffixes spec) <> [] ->
    under_suffix (DNSName (Normalize (Cand_Endpoint c))) (suffixes_of (AllowedHostnameSuffixes spec));
  meets_ttl : forall t, Spec_TTL spec = Some t ->
    (0 < Minimum t -> Minimum t <= TTL (Cand_Endpoint c)) /\ (0 < Maximum t -> TTL (Cand_Endpoint c) <= Maximum t);
  meets_optin : forall r, RequireOptIn spec = Some r -> default "" (Annotations c !! Annotation r) = OptInValue r;
  meets_targets : forall t, t ∈ Targets (Normalize (Cand_Endpoint c)) ->
    raw_target_allowed (AllowedTargetCIDRs spec) (AllowedTargetSuffixes spec) t }.

(** A policy is about a candidate when its selector matches the labels and its
    source kinds, if it names any, include the candidate's. *)
Definition policy_applies (spec : PolicySpec) (c : Candidate) : Prop :=
  (forall s, Spec_Selector spec = Some s -> exists sel, LabelSelectorAsSelector s = Some sel /\ Matches sel (Labels c) = true) /\
  (names_no_kind (SourceKinds spec) \/ kind_listed (SourceKinds spec) (Kind (Source (Cand_Endpoint c)))).

Definition policy_valid (spec : PolicySpec) : Prop :=
  (forall s, Spec_Selector spec = Some s -> is_Some (LabelSelectorAsSelector s)) /\
  (forall t, Spec_TTL spec = Some t -> 0 < Minimum t -> 0 < Maximum t -> Minimum t <= Maximum t) /\
  (forall raw, raw ∈ AllowedTargetCIDRs spec -> is_Some (ParseMasked (TrimSpace raw))).

(** The global bounds: the source kinds, where gateway stands for both of its
    resources, and the limits. *)
Definition within_bounds (b : Bounds) (c : Candidate) : Prop :=
  let kind := Kind (Source (Cand_Endpoint c)) in
  (names_no_kind (B_SourceKinds b) \/ kind_listed (B_SourceKinds b) kind \/
   (EqualFold kind "Gateway" = true \/ EqualFold kind "HTTPRoute" = true) /\ kind_listed (B_SourceKinds b) "gateway") /\
  meets (mkPolicySpec None [] (B_HostnameSuffixes b) (B_TTL b) (B_TargetCIDRs b) (B_TargetHostnameSuffixes b) None 0 0 false) c.

(** ** ... and as they are compiled *)

Lemma elem_of_stringSet values v : v ∈ stringSet values <-> v <> "" /\ exists k, k ∈ values /\ v = folded k.
Proof.
  unfold stringSet. rewrite elem_of_list_to_set, list_elem_of_filter, list_elem_of_fmap. unfold folded. naive_solver.
Qed.

Lemma stringSet_empty values : stringSet values = ∅ <-> names_no_kind values.
Proof.
  split.
  - intros He k Hk. destruct (decide (folded k = "")) as [|Hn]; [done|].
    assert (Hin : folded k ∈ stringSet values) by (apply elem_of_stringSet; eauto). rewrite He in Hin. set_solver.
  - intros Hn. apply set_eq. intros v. split; [|set_solver]. intros (Hv & k & Hk & ->)%elem_of_stringSet. by rewrite (Hn k Hk) in Hv.
Qed.

Lemma containsFold_stringSet values kind : containsFold (stringSet values) kind = true <-> kind_listed values kind.
Proof.
  unfold containsFold. rewrite bool_decide_eq_true, elem_of_stringSet. unfold kind_listed. fold (folded kind). split.
  - intros (Hk & k & Hin & E). exists k. by rewrite <- E.
  - intros (k & Hin & Hk & E). rewrite <- E. eauto.
Qed.

Lemma elem_of_normalizeSuffixes values s : s ∈ normalizeSuffixes values <-> s ∈ suffixes_of values.
Proof.
  unfold normalizeSuffixes, suffixes_of. unfold sort_strings, sort_by_key. rewrite elem_of_sort_slice, elem_of_elements, elem_of_list_to_set. done.
Qed.

Lemma normalizeSuffixes_nil values : normalizeSuffixes values = [] <-> suffixes_of values = [].
Proof.
  pose proof (elem_of_normalizeSuffixes values) as Hs. split; intros E; rewrite E in Hs;
    [destruct (suffixes_of values) as [|s l]|destruct (normalizeSuffixes values) as [|s l]]; try done; exfalso; apply (not_elem_of_nil s), Hs; left.
Qed.

Lemma under_normalizeSuffixes name values : under_suffix name (normalizeSuffixes values) <-> under_suffix name (suffixes_of values).
Proof. unfold under_suffix. by setoid_rewrite elem_of_normalizeSuffixes. Qed.

Lemma compile_cidrs_spec name raws ps : compile_cidrs name raws = Ok ps ->
  (forall raw, raw ∈ raws -> is_Some (ParseMasked (TrimSpace raw))) /\ (ps = [] <-> raws = []) /\
  (forall p, p ∈ ps -> exists raw, raw ∈ raws /\ ParseMasked (TrimSpace raw) = Some p).
Proof.
  revert ps. induction raws as [|raw raws IH]; intros ps E; cbn in E; [injection E as <-; set_solver|].
  destruct (ParseMasked (TrimSpace raw)) as [q|] eqn:Ep; [|done]. destruct (compile_cidrs name raws) as [qs|]; [|done].
  injection E as <-. destruct (IH qs eq_refl) as (H1 & _ & H3). split_and!; [|done|].
  - intros x [->|Hx]%elem_of_cons; eauto.
  - intros x [->|Hx]%elem_of_cons; [exists raw; split; [left|done]|].
    destruct (H3 x Hx) as (r & Hr & E). exists r. split; [by right|done].
Qed.

Lemma compile_inv PrefixString name spec con : compile PrefixString name spec = Ok con ->
  exists sel cidrs, compile_cidrs name (AllowedTargetCIDRs spec) = Ok cidrs /\
    match Spec_Selector spec with Some s => LabelSelectorAsSelector s = Some sel | None => sel = Everything end /\
    (forall t, Spec_TTL spec = Some t -> 0 < Minimum t -> 0 < Maximum t -> Minimum t <= Maximum t) /\
    con = mkConstraint name sel (stringSet (SourceKinds spec)) (normalizeSuffixes (AllowedHostnameSuffixes spec))
            (Spec_TTL spec) (sort_by_key PrefixString cidrs) (normalizeSuffixes (AllowedTargetSuffixes spec))
            (RequireOptIn spec) (MaxRecordsPerNamespace spec) (MaxRecordsPerTarget spec) (Deny spec).
Proof.
  unfold compile. intros E. destruct (match Spec_Selector spec with Some _ => _ | None => _ end) as [sel|] eqn:Es; [|done].
  cbn in E. destruct (match Spec_TTL spec with Some _ => _ | None => _ end) eqn:Et; [done|].
  destruct (compile_cidrs name (AllowedTargetCIDRs spec)) as [ps|]; [|done]. injection E as <-. exists sel, ps. split_and!; try done.
  - destruct (Spec_Selector spec) as [s|]; [destruct (LabelSelectorAsSelector s); congruence|by injection Es as <-].
  - intros t Ht H1 H2. rewrite Ht in Et. apply Z.ltb_lt in H1, H2. rewrite H1, H2 in Et. cbn in Et. by apply Z.ltb_ge in Et.
Qed.

Lemma compile_valid PrefixString name spec con : compile PrefixString name spec = Ok con -> policy_valid spec.
Proof.
  intros (sel & ps & Ec & Es & Et & _)%compile_inv. split_and!; [|done|by apply (compile_cidrs_spec name _ ps)].
  intros s Hs. rewrite Hs in Es. eauto.
Qed.

Lemma compile_targets PrefixString name spec con t : compile PrefixString name spec = Ok con -> target_allowed con t ->
  raw_target_allowed (AllowedTargetCIDRs spec) (AllowedTargetSuffixes spec) t.
Proof.
  intros (sel & ps & Ec & _ & _ & ->)%compile_inv. unfold target_allowed, raw_target_allowed. cbn.
  destruct (compile_cidrs_spec _ _ _ Ec) as (_ & Hnil & Hps). pose proof (sort_by_key_perm PrefixString ps) as Hp.
  assert (Hs : sort_by_key PrefixString ps = [] <-> AllowedTargetCIDRs spec = []).
  { rewrite <- Hnil. split; intros E; [|by rewrite E]. rewrite E in Hp. symmetry in Hp. by apply Permutation_nil_r in Hp. }
  destruct (ParseAddr t) as [a|]; [|by rewrite Hs, under_normalizeSuffixes, normalizeSuffixes_nil]. rewrite Hs, normalizeSuffixes_nil.
  intros [H1 H2]. split; [|done]. intros Hne. destruct (H1 Hne) as (p & Hin & Hc). rewrite Hp in Hin.
  destruct (Hps p Hin) as (raw & Hr & Er). eauto.
Qed.

Lemma compile_meets PrefixString name spec con c : compile PrefixString name spec = Ok con -> satisfies con c -> meets spec c.
Proof.
  intros E [S1 S2 S3 S4 S5]. split; [..|intros t Ht; by apply (compile_targets _ _ _ _ _ E), S5];
    apply compile_inv in E as (sel & ps & _ & _ & _ & ->); try done.
  cbn in S2. by rewrite under_normalizeSuffixes, normalizeSuffixes_nil in S2.
Qed.

Lemma compile_matches PrefixString name spec con c : (forall labels, Matches Everything labels = true) ->
  compile PrefixString name spec = Ok con -> policy_applies spec c -> matches con c = true.
Proof.
  intros Hall (sel & ps & _ & Es & _ & ->)%compile_inv [A1 A2]. unfold matches. cbn.
  assert (Hm : Matches sel (Labels c) = true).
  { destruct (Spec_Selector spec) as [s|]; [|subst; apply Hall]. destruct (A1 s eq_refl) as (x & Ex & Hx). congruence. }
  rewrite Hm. cbn. destruct A2 as [A2|A2]; [rewrite bool_decide_eq_true_2; [done|by apply stringSet_empty]|].
  apply orb_true_iff. right. by apply containsFold_stringSet.
Qed.

(** What an allowed candidate went through. *)
Lemma allowed_evaluated ev candidates c : c ∈ Pol_Allowed (Evaluate (Some ev) candidates) ->
  (sourceKinds (outer ev) = ∅ \/ containsSourceKind (sourceKinds (outer ev)) (Kind (Source (Cand_Endpoint c))) = true) /\
  (candidate_namespace c ∉ invalidNamespaces ev) /\ (forall con, con ∈ constraints_for ev c -> satisfies con c).
Proof.
  unfold Evaluate. pose proof (evaluate_all_perm ev (sort_by_key candidateKey candidates)) as [_ Hok].
  destruct (evaluate_all ev _) as [acc rej]. cbn [fst snd] in Hok. cbn. intros Hc.
  destruct (quota_partition rej acc) as [_ Hin]. destruct (Hin c Hc) as (a & Ha & <-).
  rewrite Forall_forall in Hok. specialize (Hok a Ha). unfold evaluate_candidate in Hok.
  destruct (_ && _) eqn:Ek; [done|]. case_bool_decide as Ei; [done|].
  destruct (evaluateConstraints _ _ =s "") eqn:Er; cbn [negb] in Hok; [|done]. bools.
  apply evaluateConstraints_spec in Er. rewrite Forall_forall in Er. split; [|auto].
  apply andb_false_iff in Ek as [Ek|Ek]; apply negb_false_iff in Ek; [left; by apply bool_decide_eq_true in Ek|by right].
Qed.

Lemma bounds_kinds kinds kind : stringSet kinds = ∅ \/ containsSourceKind (stringSet kinds) kind = true ->
  names_no_kind kinds \/ kind_listed kinds kind \/ (EqualFold kind "Gateway" = true \/ EqualFold kind "HTTPRoute" = true) /\ kind_listed kinds "gateway".
Proof.
  rewrite stringSet_empty. unfold containsSourceKind. intros [?|E]; [by left|right].
  destruct (containsFold (stringSet kinds) kind) eqn:Ef; [left; by apply containsFold_stringSet|right].
  destruct (EqualFold kind "Gateway") eqn:E1, (EqualFold kind "HTTPRoute") eqn:E2; cbn in E; try done; (split; [auto|by apply containsFold_stringSet]).
Qed.

(** The evaluator has the bounds, and each policy of a namespace, or the namespace
    counts as invalid. *)
Lemma NewEvaluator_spec PrefixString b named ev : NewEvaluator PrefixString b named = Ok ev ->
  compile PrefixString "global bounds" (mkPolicySpec None (B_SourceKinds b) (B_HostnameSuffixes b) (B_TTL b) (B_TargetCIDRs b)
    (B_TargetHostnameSuffixes b) None 0 0 false) = Ok (outer ev) /\
  (forall p, p ∈ named -> NP_Namespace p ∈ invalidNamespaces ev \/
     exists con, compile PrefixString (NP_Namespace p +:+ "/" +:+ NP_Name p) (Spec p) = Ok con /\
       con ∈ default [] (policies ev !! NP_Namespace p)).
Proof.
  unfold NewEvaluator. destruct (compile PrefixString "global bounds" _) as [o|] eqn:Eo; [|done]. cbn. intros [= <-]. cbn.
  assert (Hinv : let e := foldl (add_policy PrefixString) (mkEvaluator o ∅ [] ∅) named in outer e = o /\
    (forall p, p ∈ named -> NP_Namespace p ∈ invalidNamespaces e \/
      exists con, compile PrefixString (NP_Namespace p +:+ "/" +:+ NP_Name p) (Spec p) = Ok con /\ con ∈ default [] (policies e !! NP_Namespace p))).
  { apply (foldl_ind_done (fun dn e => outer e = o /\ (forall p, p ∈ dn -> NP_Namespace p ∈ invalidNamespaces e \/
      exists con, compile PrefixString (NP_Namespace p +:+ "/" +:+ NP_Name p) (Spec p) = Ok con /\ con ∈ default [] (policies e !! NP_Namespace p)))).
    { split; [done|]. by intros p ?%elem_of_nil. }
    intros dn e p _ [Ho IH]. unfold add_policy. destruct (compile PrefixString (_ +:+ "/" +:+ _) (Spec p)) as [con|] eqn:Ec; cbn; (split; [done|]).
    - intros q [Hq| ->%list_elem_of_singleton]%elem_of_app.
      + destruct (IH q Hq) as [?|(con' & E' & Hin)]; [by left|]. right. exists con'. split; [done|]. by apply append_at_mono.
      + right. exists con. split; [done|]. apply append_at_new.
    - intros q [Hq| ->%list_elem_of_singleton]%elem_of_app; [|set_solver]. destruct (IH q Hq) as [?|?]; [set_solver|by right]. }
  destruct Hinv as [Ho Hp]. split; [by rewrite Ho|]. intros p Hin. destruct (Hp p Hin) as [?|(con & Ec & Hc)]; [by left|]. right.
  exists con. split; [done|]. rewrite lookup_fmap. destruct (policies _ !! NP_Namespace p); [|set_solver]. cbn. by rewrite sort_by_key_perm.
Qed.
End raw_policies.

(** C38. Nothing passes against a policy.  An allowed candidate is within the global
    bounds: its source kind is among theirs, and it keeps to their suffixes, TTL range
    and targets.  Every policy of its namespace is valid -- a selector that parses, a
    TTL range that is not inverted, networks that parse -- and each one that is about
    the candidate (its selector matches the labels, and its source kinds, if it names
    any, include the candidate's) does not deny it and is met: host name suffixes,
    TTL range, opt-in annotation, and every target inside the allowed networks or
    domains.  The empty selector is taken to match all labels. *)
Theorem Evaluate_allowed_satisfies `{Selectors} PrefixString bounds named ev candidates c :
  (forall labels, Matches Everything labels = true) ->
  NewEvaluator PrefixString bounds named = Ok ev -> c ∈ Pol_Allowed (Evaluate (Some ev) candidates) ->
  within_bounds bounds c /\
  forall p, p ∈ named -> NP_Namespace p = Namespace (Source (Cand_Endpoint c)) ->
    policy_valid (Spec p) /\ (policy_applies (Spec p) c -> meets (Spec p) c).
Proof.
  intros Hall Hnew Hc. destruct (NewEvaluator_spec _ _ _ _ Hnew) as [Ho Hp].
  destruct (allowed_evaluated ev candidates c Hc) as (Hk & Hi & Hs). split.
  - split; [apply compile_inv in Ho as (? & ? & _ & _ & _ & Eo); rewrite Eo in Hk; by apply bounds_kinds|]. destruct (compile_meets _ _ _ _ _ Ho (Hs _ ltac:(left))) as [M1 M2 M3 M4 M5]. by split.
  - intros p Hin Hns. destruct (Hp p Hin) as [Hx|(con & Ec & Hcon)]; [by rewrite Hns in Hx|]. split; [by eapply compile_valid|].
    intros Happ. apply (compile_meets _ _ _ _ _ Ec), Hs. right. apply list_elem_of_filter. split; [by eapply compile_matches|].
    unfold candidate_namespace. by rewrite <- Hns.
Qed.

(** Namespace quotas hold: of the candidates of a namespace that a policy
    matches, at most the policy's limit are allowed. *)
Theorem Evaluate_namespace_quota `{Selectors} ev candidates ns ps con :
  policies ev !! ns = Some ps -> con ∈ ps -> 0 < maxRecordsPerNamespace con ->
  Z.of_nat (length (filter (fun c => matches con c = true)
    (in_namespace ns (Pol_Allowed (Evaluate (Some ev) candidates))))) <= maxRecordsPerNamespace con.
Proof.
  intros Hps Hcon Hpos. unfold Evaluate.
  pose proof (evaluate_all_perm ev (sort_by_key candidateKey candidates)) as [_ Hok].
  destruct (evaluate_all ev _) as [acc rej]. cbn [fst snd] in Hok. cbn [Pol_Allowed].
  apply (quota_count ns (matches con) (maxRecordsPerNamespace con) Hpos). intros a Ha Hns Hm.
  rewrite Forall_forall in Hok. specialize (Hok a Ha). unfold evaluate_candidate in Hok.
  destruct (_ && _); [done|]. case_bool_decide; [done|]. destruct (negb _); [done|].
  injection Hok as <-. cbn [namespaceLimit EC_Candidate] in *. apply minimumPositive_le; [|done].
  right. apply list_elem_of_filter. split; [done|]. by rewrite Hns, Hps.
Qed.
