(* ===== verification/QueueExamples.v ===== *)
(** * A concrete work queue

    The basic queue of client-go (dirty set, processing set, first-in first-out
    order, failure counts) as an instance of [ClientQueue] that satisfies
    [ClientQueueLaws], and the queue theorems applied to short schedules of it. *)
From Stdlib Require Import String Ascii ZArith Lia QArith.
From S2P Require Import Prelude GoStrings Queue QueueLaws.
Open Scope string_scope.
Open Scope list_scope.
Open Scope Z_scope.

Record FifoQueue := mkFifo {
  fq_order : list TargetKey; fq_dirty : gset TargetKey; fq_processing : gset TargetKey;
  fq_failures : gmap TargetKey Z; fq_shutdown : bool }.

Definition fq_failures_of (k : TargetKey) (q : FifoQueue) : Z := default 0 (fq_failures q !! k).

Definition fq_Add (k : TargetKey) (q : FifoQueue) : FifoQueue :=
  if fq_shutdown q then q
  else mkFifo (if bool_decide (k ∈ fq_dirty q ∪ fq_processing q) then fq_order q else fq_order q ++ [k])
         ({[k]} ∪ fq_dirty q) (fq_processing q) (fq_failures q) (fq_shutdown q).

(** The first queued key that waits and is not being processed. *)
Definition fq_Get (q : FifoQueue) : option (FifoQueue * GetResult) :=
  match filter (fun k => k ∈ fq_dirty q ∖ fq_processing q) (fq_order q) with
  | k :: rest => Some (mkFifo rest (fq_dirty q ∖ {[k]}) ({[k]} ∪ fq_processing q) (fq_failures q) (fq_shutdown q),
                       GetItem k)
  | [] => if fq_shutdown q then Some (q, GetShutdown) else None
  end.

Definition fq_Done (k : TargetKey) (q : FifoQueue) : FifoQueue :=
  mkFifo (if bool_decide (k ∈ fq_dirty q) then fq_order q ++ [k] else fq_order q)
    (fq_dirty q) (fq_processing q ∖ {[k]}) (fq_failures q) (fq_shutdown q).

Definition fq_Forget (k : TargetKey) (q : FifoQueue) : FifoQueue :=
  mkFifo (fq_order q) (fq_dirty q) (fq_processing q) (delete k (fq_failures q)) (fq_shutdown q).

Definition fq_When (k : TargetKey) (q : FifoQueue) : FifoQueue * Z :=
  (mkFifo (fq_order q) (fq_dirty q) (fq_processing q) (<[k := fq_failures_of k q + 1]> (fq_failures q)) (fq_shutdown q),
   Z.min (Second * 2 ^ fq_failures_of k q) Minute).

#[export] Instance fifo_queue : ClientQueue FifoQueue := {
  cq_Add := fq_Add; cq_Get := fq_Get; cq_Done := fq_Done; cq_Forget := fq_Forget;
  cq_NumRequeues := fq_failures_of; cq_Len q := Z.of_nat (length (fq_order q));
  cq_ShutDown q := mkFifo (fq_order q) (fq_dirty q) (fq_processing q) (fq_failures q) true;
  cq_ShuttingDown := fq_shutdown; cq_When := fq_When }.

#[export] Instance fifo_queue_laws : ClientQueueLaws FifoQueue.
Proof.
  refine {| dirty := fq_dirty; processing := fq_processing |}; cbn; try done.
  - intros k q Hs. unfold fq_Add. by rewrite Hs.
  - intros k q. unfold fq_Add. by destruct (fq_shutdown q) eqn:E.
  - intros q q' k. unfold fq_Get. destruct (filter _ _) as [|k' rest] eqn:Ef; [by destruct (fq_shutdown q)|].
    intros [= <- <-]. cbn. assert (Hk : k' ∈ k' :: rest) by left. rewrite <- Ef in Hk.
    apply list_elem_of_filter in Hk as [Hk _]. set_solver.
  - intros q q'. unfold fq_Get. destruct (filter _ _); [|done]. by destruct (fq_shutdown q).
Defined.

#[local] Instance lenient_keys : KeyValidation := { IsDNS1123Label _ := []; IsDNS1123Subdomain _ := [] }.

Definition ex_key : TargetKey := mkTargetKey "dns" "edge".
Definition ex_config : Config := mkConfig 0 None false 0 0 2 0.
Definition empty_fifo : FifoQueue := mkFifo [] ∅ ∅ ∅ false.

(** The queue of the default configuration, limited to two retries. *)
Definition ex_queue : TargetQueue FifoQueue :=
  match New ex_config empty_fifo 0 with Ok s => s | Err _ => mkQueue empty_fifo 0 None 0 0 0 ∅ ∅ ∅ ∅ ∅ 0 true end.

(** An event, its debounce timer half a second later, and the worker. *)
Definition ex_enqueued := (Enqueue ex_key ex_queue).1.
Definition ex_waited := with_now DefaultDebounce ex_enqueued.
Definition ex_fired := waitForDebounce ex_key 1 ex_waited.
Definition ex_taken := match get_step ex_fired with Some (s, _) => s | None => ex_fired end.

Example ex_delivered : get_step ex_fired = Some (ex_taken, Deliver ex_key).
Proof. vm_compute. reflexivity. Qed.

Lemma event_not_lost_witness : Enqueue ex_key ex_queue = (ex_enqueued, true) /\ scheduled ex_fired ex_key.
Proof.
  split; [vm_compute; reflexivity|].
  apply (event_not_lost fq_When ex_key ex_queue ex_enqueued [LTick; LDebounceTimer ex_key 1]); try reflexivity.
  - eapply run_step; [apply (st_tick _ _ DefaultDebounce); vm_compute; discriminate|].
    eapply run_step; [apply st_debounce_timer|apply run_refl].
  - rewrite !elem_of_cons, elem_of_nil. intros [E|[E|[]]]; discriminate E.
  - rewrite !elem_of_cons, elem_of_nil. intros [E|[E|[]]]; discriminate E.
  - rewrite !elem_of_cons, elem_of_nil. intros [E|[E|[]]]; discriminate E.
Defined.

(** The attempt fails, an event arrives at once, and the retry is delivered a second later. *)
Definition ex_failed := (Complete fq_When ex_key true ex_taken).1.
Definition ex_churn := (enqueue_locked ex_key DefaultDebounce ex_failed).1.
Definition ex_backed_off := with_now (DefaultDebounce + Second) ex_churn.
Definition ex_retry := waitForRetry ex_key 2 ex_backed_off.

Lemma backoff_respected_witness : now ex_taken + Second <= now ex_retry.
Proof.
  apply (backoff_respected fq_When ex_key ex_taken ex_failed CompletionRetried
    [LEnqueueWrite ex_key DefaultDebounce; LTick; LRetryTimer ex_key 2] ex_retry
    (match get_step ex_retry with Some (s, _) => s | None => ex_retry end)).
  - vm_compute. reflexivity.
  - by left.
  - apply (bool_decide_unpack (_ ∉ _)). vm_compute. exact I.
  - unfold ex_retry, ex_backed_off, ex_churn. eapply run_step; [apply st_enqueue_write; vm_compute; discriminate|].
    eapply run_step; [apply (st_tick _ _ (DefaultDebounce + Second)); vm_compute; discriminate|].
    eapply run_step; [apply st_retry_timer|apply run_refl].
  - rewrite !elem_of_cons, elem_of_nil. intros [E|[E|[E|[]]]]; discriminate E.
  - rewrite !elem_of_cons, elem_of_nil. intros [E|[E|[E|[]]]]; discriminate E.
  - intros e. rewrite !elem_of_cons, elem_of_nil. intros [E|[E|[E|[]]]]; discriminate E.
  - vm_compute. reflexivity.
Defined.

(** Forgetting a queued key: the worker drops it. *)
Definition ex_dropped := match get_step (ForgetTarget ex_key ex_fired) with Some (s, _) => s | None => ex_fired end.

Lemma forgotten_target_silent_witness :
  get_step (ForgetTarget ex_key ex_fired) = Some (ex_dropped, Again) /\ (Enqueue ex_key ex_dropped).2 = false.
Proof.
  split; [vm_compute; reflexivity|].
  apply (forgotten_target_silent fq_When ex_key ex_fired [LGet Again] ex_dropped).
  - eapply run_step; [apply st_get; vm_compute; reflexivity|apply run_refl].
  - rewrite elem_of_cons, elem_of_nil. intros [E|[]]; discriminate E.
Defined.

Lemma queue_invariant_witness : queue_wf ex_enqueued.
Proof.
  apply (queue_invariant fq_When ex_config empty_fifo 0 ex_queue [LEnqueueRead ex_key; LEnqueueWrite ex_key DefaultDebounce]).
  - vm_compute. reflexivity.
  - eapply run_step; [apply st_enqueue_read|].
    eapply run_step; [apply st_enqueue_write; vm_compute; discriminate|].
    replace (enqueue_locked _ _ _).1 with ex_enqueued by (vm_compute; reflexivity). apply run_refl.
Defined.
