(* ===== verification/DocumentExamples.v ===== *)
(** * A concrete reviewed document

    Two operations of one name, the deletion requiring the creation, executed
    against a provider that is a list of accepted operations. *)
From Stdlib Require Import String Ascii ZArith Lia Relations.
From S2P Require Import Prelude GoStrings NetIP GoEncoding Endpoint Plan Document DocumentGraph Executor DocumentCanonical.
Open Scope string_scope.
Open Scope list_scope.
Open Scope go_scope.

#[local] Existing Instance canonical_range.

Definition ex_target : TargetIdentity := mkTargetIdentity "dns" "edge" "u-1" 3 "root" "example.com".
Definition ex_preconditions : Preconditions :=
  mkPreconditions (mkProviderPrecondition "r1" true true)
    (mkDiscovery 7 true [mkDiscoverySource "Service" "web" "front" "11" true])
    (mkPolicyPrecondition 2 true []) [].

Definition so_create : SanitizedOperation :=
  mkSanitizedOperation "op-b" OperationCreate
    (Some (mkSanitizedRecord "example.com" "www.example.com" "A" ["10.0.0.1"] 300 "" false)) None OperationReasonRecordMissing.
Definition so_delete : SanitizedOperation :=
  mkSanitizedOperation "op-a" OperationDelete None
    (Some (mkSanitizedRecord "example.com" "www.example.com" "A" ["10.0.0.9"] 300 "4" false)) OperationReasonRecordStale.
Definition so_other : SanitizedOperation :=
  mkSanitizedOperation "op-c" OperationCreate
    (Some (mkSanitizedRecord "example.com" "api.example.com" "A" ["10.0.0.2"] 300 "" false)) None OperationReasonRecordMissing.

Definition ex_doc : Document :=
  mkDocument DocumentAPIVersion DocumentKind ex_target ex_preconditions [so_delete; so_create; so_other]
    [mkEdge "op-a" "op-b"] [mkSafetyDecision "cleanup-limit" true ["op-a"]].

(** The same document with its operations collected in another order. *)
Definition ex_doc' : Document :=
  mkDocument DocumentAPIVersion DocumentKind ex_target ex_preconditions [so_create; so_other; so_delete]
    [mkEdge "op-a" "op-b"] [mkSafetyDecision "cleanup-limit" true ["op-a"]].

Lemma ex_doc_valid : Validate (canonicalCopy ex_doc) = Ok tt.
Proof. vm_compute. reflexivity. Qed.

(** A provider that accepts every operation, and one that refuses the creation of the first name. *)
Definition accepting : ExecEnv (list string) :=
  mkExecEnv (fun w _ _ => (w, None)) (fun w op => (w ++ [SO_ID op], None)) (fun _ => None).
Definition refusing : ExecEnv (list string) :=
  mkExecEnv (fun w _ _ => (w, None))
    (fun w op => if SO_ID op =s "op-b" then (w, Some "refused") else (w ++ [SO_ID op], None)) (fun _ => None).

(** The deletion is blocked by the refused creation, the other name is not. *)
Example ex_refused :
  Execute (Some refusing) [] ex_doc
  = ([mkOutcome "op-a" ApplyBlocked "prerequisite-failed"; mkOutcome "op-b" ApplyFailed "provider-request-failed";
      mkOutcome "op-c" ApplySucceeded ""], None, ["op-c"]).
Proof. vm_compute. reflexivity. Qed.

Lemma Execute_complete_witness :
  exists outs w', Execute (Some refusing) [] ex_doc = (outs, None, w') /\
    (OO_OperationID <$> outs) ≡ₚ ids (Operations (canonicalCopy ex_doc)).
Proof.
  destruct (Execute_complete refusing [] [] ex_doc) as (outs & w' & He & Hp & _);
    [exact ex_doc_valid|reflexivity|reflexivity|].
  exists outs, w'. split; [exact He|exact Hp].
Defined.

(** A run that is cancelled once two operations are through. *)
Definition cancelling : ExecEnv (list string) :=
  mkExecEnv (fun w _ _ => (w, None)) (fun w op => (w ++ [SO_ID op], None)) (fun w => if (2 <=? length w)%nat then Some "context canceled" else None).

Lemma Execute_respects_prerequisites_witness :
  (NoDup ["op-b"; "op-c"; "op-a"] /\ "op-b" ∈ ["op-b"; "op-c"]) /\
  exists outs e, Execute (Some (logged cancelling)) ([], []) ex_doc = (outs, Some e, (["op-b"; "op-c"], ["op-b"; "op-c"])) /\
    ["op-b"; "op-c"] ≡ₚ succeeded_ids outs.
Proof.
  split.
  - destruct (Execute_respects_prerequisites accepting [] ex_doc
      [mkOutcome "op-a" ApplySucceeded ""; mkOutcome "op-b" ApplySucceeded ""; mkOutcome "op-c" ApplySucceeded ""] None
      ["op-b"; "op-c"; "op-a"] ["op-b"; "op-c"; "op-a"]) as (Hnd & _ & Hreq); [vm_compute; reflexivity|].
    split; [exact Hnd|]. apply (Hreq ["op-b"; "op-c"] "op-a" [] (mkEdge "op-a" "op-b")); [reflexivity| |reflexivity].
    vm_compute. left.
  - destruct (Execute (Some (logged cancelling)) ([], []) ex_doc) as [[outs [e|]] w] eqn:E; [|vm_compute in E; discriminate].
    assert (Hw : w = (["op-b"; "op-c"], ["op-b"; "op-c"])) by (vm_compute in E; by injection E as _ _ <-). subst w.
    exists outs, e. split; [reflexivity|].
    destruct (Execute_respects_prerequisites cancelling [] ex_doc outs (Some e) ["op-b"; "op-c"] ["op-b"; "op-c"] E) as (_ & Hp & _). exact Hp.
Defined.

(** Requirements with a cycle through two of three operations. *)
Definition ex_cyclic : gmap string (list string) := <["a" := ["b"]]> (<["b" := ["c"; "a"]]> (<["c" := []]> ∅)).

Lemma dependencyCycle_exact_witness :
  exists c, dependencyCycle ex_cyclic = Some c /\ (c <> "" -> clos_trans _ (requires ex_cyclic) c c).
Proof.
  destruct (dependencyCycle_exact ex_cyclic) as (c & Hc & _ & Hcyc).
  - intros k ds Hk. unfold ex_cyclic in Hk.
    repeat (apply lookup_insert_Some in Hk as [[<- <-]|[_ Hk]]; [split; [done|by repeat constructor]|]).
    by rewrite lookup_empty in Hk.
  - exists c. split; [exact Hc|exact Hcyc].
Defined.

(** Distinct keys of the elements of a concrete list, one pair at a time. *)
Ltac distinct_keys :=
  intros x y Hx Hy; cbn [fmap list_fmap ex_doc ex_preconditions DP_Sources Discovery PO_Resources Policy Ownership
    Doc_Preconditions Operations Prerequisites SafetyDecisions] in Hx, Hy;
  repeat rewrite elem_of_cons in Hx; repeat rewrite elem_of_cons in Hy; rewrite elem_of_nil in Hx, Hy;
  repeat match goal with H : _ \/ _ |- _ => destruct H as [H|H] end; try contradiction; subst;
  intros E; first [reflexivity | vm_compute in E; discriminate E].

Lemma ID_order_independent_witness : ID ex_doc = ID ex_doc'.
Proof.
  apply ID_order_independent.
  - split; try reflexivity; try (split; reflexivity). cbn.
    apply (Permutation_cons_append [so_create; so_other] so_delete).
  - split; distinct_keys.
Defined.
