(* ===== verification/ClientExamples.v ===== *)
(** * Concrete devices, schedules and policies

    The theorems about the client, the schedule and the policies applied to
    small inputs. *)
From Stdlib Require Import String Ascii ZArith Lia QArith.
From S2P Require Import Prelude GoStrings NetIP GoEncoding Endpoint Plan Document Executor Queue Scheduling.
From S2P Require Import Client ClientLaws Policy PolicyLaws.
Open Scope string_scope.
Open Scope list_scope.
Open Scope Z_scope.
Open Scope go_scope.

#[local] Existing Instance canonical_range.

(** ** The client *)

Definition ex_record : Endpoint :=
  mkEndpoint "WWW.example.com." "a" ["10.0.0.1"] 300 "example.com" "" zeroSourceRef "" false.
Definition ex_row : fortiRecord :=
  mkFortiRecord ScalarNil ScalarNil "www" "A" "10.0.0.1" "" "" 300 "enable".

Lemma record_roundtrip_witness :
  EqualRecord (toEndpoint (with_record_id "7" ex_row) "example.com") ex_record = true.
Proof.
  apply (record_roundtrip ex_record "example.com" "10.0.0.1" ex_row "7").
  - split; [reflexivity|]. split; [reflexivity|]. by repeat constructor.
  - reflexivity.
  - reflexivity.
  - discriminate.
  - reflexivity.
  - discriminate.
Defined.

(** A device that answers by a fixed list of results; the world is that list. *)
Definition scripted (list_of : string -> result string fortiResponse) : Device (list HttpResult) :=
  mkDevice (fun w _ => match w with [] => ([], TransportFailure false) | r :: w => (w, r) end)
    (fun w _ => (w, None)) (fun w c => (w, c / 2)) (fun _ _ => None) (fun w => (w, None)) (fun w => (w, None))
    (fun raw => if raw =s "{retry}" then Some (mkEnvelope "" 503 None "") else Some (mkEnvelope "success" 200 None ""))
    list_of.

Definition no_list (_ : string) : result string fortiResponse := Err "no list".
Definition ex_client : ClientConfig := mkClientConfig "example.com" "root" 2.
Definition ep (name target id : string) : Endpoint :=
  mkEndpoint name "A" [target] 300 "example.com" "" zeroSourceRef id false.
Definition co_create : Operation := mkOperation OperationCreate (ep "www.example.com" "10.0.0.1" "") zeroEndpoint "".
Definition co_update : Operation :=
  mkOperation OperationUpdate (ep "www.example.com" "10.0.0.1" "") (ep "www.example.com" "10.0.0.9" "4") "".
Definition co_delete : Operation := mkOperation OperationDelete zeroEndpoint (ep "www.example.com" "10.0.0.9" "4") "".

(** The update is retried after a 503, the create is not. *)
Example ex_retries :
  (applyOne (metered (scripted no_list)) ex_client
     ([HttpResponse 503 "" "1"; HttpResponse 200 "{}" ""], []) co_update).1.2 = [MethodPut; MethodPut] /\
  (applyOne (metered (scripted no_list)) ex_client
     ([HttpResponse 503 "" "1"; HttpResponse 200 "{}" ""], []) co_create).1.2 = [MethodPost].
Proof. vm_compute. done. Qed.

Lemma applyOne_requests_witness :
  exists k, [MethodPost] = repeat (method_for (OpType co_create)) k /\ (OpType co_create = OperationCreate -> (k <= 1)%nat).
Proof.
  destruct (applyOne_requests (scripted no_list) ex_client [HttpResponse 503 "" "1"] co_create
    [] [MethodPost] (Some (errHTTPStatus 503))) as (k & E & _ & Hc); [vm_compute; reflexivity|].
  exists k. split; [exact E|exact Hc].
Defined.

Definition ex_failing : list HttpResult := [TransportFailure false; HttpResponse 200 "{}" ""].

Definition ex_create_outcome : OperationOutcome :=
  Eval vm_compute in mkOutcome (SO_ID (SanitizeOperation co_create)) ApplyFailed "provider-request-failed".
Definition ex_delete_outcome : OperationOutcome :=
  Eval vm_compute in mkOutcome (SO_ID (SanitizeOperation co_delete)) ApplyBlocked "prerequisite-failed".

Lemma failed_prerequisite_blocks_cleanup_witness : Result ex_delete_outcome = ApplyBlocked.
Proof.
  apply (failed_prerequisite_blocks_cleanup (scripted no_list) ex_client ex_failing [co_create; co_delete] false
    0 1 co_create co_delete ex_create_outcome ex_delete_outcome).
  - lia.
  - reflexivity.
  - reflexivity.
  - vm_compute. reflexivity.
  - vm_compute. reflexivity.
  - reflexivity.
  - reflexivity.
  - reflexivity.
  - vm_compute. reflexivity.
Defined.

(** A listing of two pages with one revision. *)
Definition row (id host ip : string) : fortiRecord := mkFortiRecord ScalarNil (ScalarString id) host "A" ip "" "" 60 "enable".
Definition two_pages (raw : string) : result string fortiResponse :=
  Ok (if raw =s "first" then mkFortiResponse [row "1" "a" "10.0.0.1"] (Some 2) None (Some "r9")
      else mkFortiResponse [row "2" "b" "10.0.0.2"] (Some 2) (Some 1) (Some "r9")).

Lemma ListRecords_consistent_witness :
  exists pgs rev, visible_endpoints ex_client [row "1" "a" "10.0.0.1"; row "2" "b" "10.0.0.2"]
    = visible_endpoints ex_client (pgs ≫= Results) /\ NoDup (record_key <$> (pgs ≫= Results)) /\
    Forall (fun p => page_revision p = rev) pgs.
Proof.
  destruct (ListRecords_consistent (scripted two_pages) ex_client
    [HttpResponse 200 "first" ""; HttpResponse 200 "second" ""] []
    (visible_endpoints ex_client [row "1" "a" "10.0.0.1"; row "2" "b" "10.0.0.2"]))
    as (pgs & tot & rev & _ & E & _ & _ & Hnd & _ & Hrev & _); [vm_compute; reflexivity|].
  exists pgs, rev. split; [exact E|]. split; [exact Hnd|exact Hrev].
Defined.

Lemma retryDelay_bounds_witness : 7000 * ms <= 7000 * ms <= retryAfterMaxDelay.
Proof.
  apply (retryDelay_bounds (scripted no_list) [] 2 "7" []).
  - intros w c Hc. cbn [jitterDelay scripted snd]. split; [apply Z.div_pos; lia|apply Z.div_le_upper_bound; lia].
  - vm_compute. reflexivity.
Defined.

(** ** Scheduling *)

#[local] Instance any_key : KeyValidation := { IsDNS1123Label _ := []; IsDNS1123Subdomain _ := [] }.

(** The same fields, inserted in two orders. *)
Definition fields_ab : gmap string string := <["a" := "1"]> (<["b" := "2"]> ∅).
Definition fields_ba : gmap string string := <["b" := "2"]> (<["a" := "1"]> ∅).

Lemma fingerprint_payload_injective_witness : EventService = EventService /\ fields_ab = fields_ba.
Proof.
  apply (fingerprint_payload_injective EventService EventService fields_ab fields_ba); vm_compute; reflexivity.
Defined.

Definition k_new : TargetKey := mkTargetKey "dns" "new".
Definition k_due : TargetKey := mkTargetKey "dns" "due".
Definition ex_deadlines : gmap TargetKey auditDeadline := {[ k_due := mkDeadline "1" 60 90 ]}.
Definition ex_schedules : list TargetSchedule := [mkSchedule k_new "1" 30; mkSchedule k_due "1" 60].
Definition ex_next : gmap TargetKey auditDeadline :=
  <[k_due := mkDeadline "1" 60 160]> (<[k_new := mkDeadline "1" 30 130]> ∅).

Lemma Due_schedule_witness : k_due ∈ [k_due] /\ 0 < Delay ex_next 100 600 <= 600.
Proof.
  destruct (Due_schedule ex_deadlines 100 ex_schedules 600 false ex_next [k_due]) as (_ & Hdue & Hdelay);
    [vm_cast_no_check (eq_refl (Due ex_deadlines 100 ex_schedules 600 false))|].
  split; [|exact Hdelay]. apply Hdue. exists (mkSchedule k_due "1" 60). split; [reflexivity|vm_compute; discriminate].
Defined.

(** ** Policies *)

(** Selectors that require labels. *)
#[local] Instance required_labels : Selectors := {
  LabelSelector := list (string * string); Selector := list (string * string); Everything := [];
  LabelSelectorAsSelector s := Some s;
  Matches sel labels := forallb (fun kv => bool_decide (labels !! kv.1 = Some kv.2)) sel }.

Definition cand (name target : string) : Candidate :=
  mkCandidate (mkEndpoint name "A" [target] 300 "example.com" "" (mkSourceRef "v1" "Service" "web" name "") "" false)
    "edge" (<["team" := "a"]> ∅) ∅.

Definition web_policy : NamedPolicy :=
  mkNamedPolicy "web" "limits"
    (mkPolicySpec (Some [("team", "a")]) [] ["web.example.com"] (Some (mkTTLRange 60 0)) ["10.0.0.0/24"] [] None 1 0 false).
Definition no_bounds : Bounds := mkBounds [] ["example.com"] None [] [].

Definition prefix_key (p : Prefix) : string := FormatInt (network p) +:+ "/" +:+ FormatInt (bits p).

Definition web_constraint : compiledConstraint :=
  match compile prefix_key "web/limits" (Spec web_policy) with
  | Ok c => c
  | Err _ => mkConstraint "" [] ∅ [] None [] [] None 0 0 true
  end.
Definition ex_evaluator : Evaluator :=
  match NewEvaluator prefix_key no_bounds [web_policy] with
  | Ok e => e
  | Err _ => mkEvaluator web_constraint ∅ [] ∅
  end.

Definition ex_candidates : list Candidate :=
  [cand "b.web.example.com" "10.0.0.2"; cand "a.web.example.com" "10.0.0.1"; cand "c.web.example.com" "192.0.2.1";
   cand "other.example.com" "10.0.0.3"].

(** The second address is over the quota of one, the other two violate the policy. *)
Example ex_decisions :
  Pol_Allowed (Evaluate (Some ex_evaluator) ex_candidates) = [cand "a.web.example.com" "10.0.0.1"] /\
  Rej_Reason <$> Pol_Rejected (Evaluate (Some ex_evaluator) ex_candidates)
  = [ReasonTargetNotAllowed; ReasonHostnameNotAllowed; ReasonNamespaceQuotaExceeded].
Proof. vm_compute. done. Qed.

Lemma Evaluate_allowed_satisfies_witness :
  within_bounds no_bounds (cand "a.web.example.com" "10.0.0.1") /\ meets (Spec web_policy) (cand "a.web.example.com" "10.0.0.1").
Proof.
  destruct (Evaluate_allowed_satisfies prefix_key no_bounds [web_policy] ex_evaluator ex_candidates (cand "a.web.example.com" "10.0.0.1"))
    as [Hb Hp]; [done|vm_compute; reflexivity|vm_compute; left|].
  split; [exact Hb|]. apply (Hp web_policy); [left|reflexivity|]. split; [|left; intros k Hk; by apply elem_of_nil in Hk].
  intros s [= <-]. exists [("team", "a")]. split; [reflexivity|vm_compute; reflexivity].
Defined.

Lemma Evaluate_namespace_quota_witness :
  Z.of_nat (length (filter (fun c => matches web_constraint c = true)
    (in_namespace "web" (Pol_Allowed (Evaluate (Some ex_evaluator) ex_candidates))))) <= 1.
Proof.
  apply (Evaluate_namespace_quota ex_evaluator ex_candidates "web" [web_constraint] web_constraint).
  - vm_compute. reflexivity.
  - left.
  - reflexivity.
Defined.
