(* ===== verification/Sources.v ===== *)
(** * internal/source: discovering desired records in the cluster

    options.go, service.go and ingress.go: which hostnames and targets a
    resource publishes, under which filters and within which budget.  The
    Kubernetes objects carry the fields the code reads.  IDNA conversion
    (golang.org/x/net/idna) and the DNS-1123 check of apimachinery are
    interfaces; the context is asked for cancellation at numbered points. *)
From Stdlib Require Import String Ascii ZArith Lia.
From S2P Require Import Prelude GoStrings NetIP GoEncoding Endpoint Queue Client.
Open Scope string_scope.
Open Scope list_scope.
Open Scope Z_scope.
Open Scope go_scope.

(** ** time.ParseDuration

    Nanoseconds; a fraction is taken exactly and rounded down, where the
    library multiplies in float64. *)

Definition is_digit (c : ascii) : bool := match digit_val c with Some _ => true | None => false end.

Fixpoint span_digits (s : string) : string * string :=
  match s with
  | String c s' => if is_digit c then let '(a, b) := span_digits s' in (String c a, b) else ("", s)
  | "" => ("", "")
  end.

Fixpoint span_unit (s : string) : string * string :=
  match s with
  | String c s' =>
      if is_digit c || Ascii.eqb c "." then ("", s) else let '(a, b) := span_unit s' in (String c a, b)
  | "" => ("", "")
  end.

(** The units, with both spellings of the micro sign in UTF-8. *)
Definition unit_of (u : string) : option Z :=
  if u =s "ns" then Some 1
  else if (u =s "us") || (u =s String "194" (String "181" "s")) || (u =s String "206" (String "188" "s")) then Some 1000
  else if u =s "ms" then Some 1000000
  else if u =s "s" then Some Second
  else if u =s "m" then Some (60 * Second)
  else if u =s "h" then Some (3600 * Second)
  else None.

Fixpoint parse_duration_loop (fuel : nat) (s : string) (d : Z) : option Z :=
  match fuel, s with
  | _, "" => Some d
  | O, _ => None
  | S fuel, _ =>
      let '(whole, s1) := span_digits s in
      let '(fraction, s2) :=
        match s1 with
        | String "." s2 => span_digits s2
        | _ => ("", s1)
        end in
      if (whole =s "") && (fraction =s "") then None
      else
        let v := decode_from 0 whole in
        let '(u, rest) := span_unit s2 in
        match unit_of u with
        | None => None
        | Some unit =>
            if (2 ^ 63 <? v) || (2 ^ 63 / unit <? v) then None
            else
              let v := v * unit + decode_from 0 fraction * unit / 10 ^ Z.of_nat (String.length fraction) in
              if (2 ^ 63 <? v) || (2 ^ 63 <? d + v) then None else parse_duration_loop fuel rest (d + v)
        end
  end.

(** Every iteration consumes a character, so the length is enough fuel. *)
Definition ParseDuration (s : string) : option Z :=
  let '(neg, s) := strip_sign s in
  if s =s "0" then Some 0
  else if s =s "" then None
  else match parse_duration_loop (String.length s) s 0 with
       | Some d => if neg : bool then Some (- d) else if 2 ^ 63 - 1 <? d then None else Some d
       | None => None
       end.

(** ** Constants and data *)

Definition SourceService : string := "service".
Definition SourceIngress : string := "ingress".
Definition SourceGateway : string := "gateway".
Definition AnnotationHostname : string := "external-dns.kubernetes.io/hostname".
Definition AnnotationHostnameAlpha : string := "external-dns.alpha.kubernetes.io/hostname".
Definition AnnotationTTL : string := "external-dns.kubernetes.io/ttl".
Definition AnnotationTTLAlpha : string := "external-dns.alpha.kubernetes.io/ttl".
Definition AnnotationPublishHeadless : string := "external-dns.kubernetes.io/publish-headless".
Definition MaxTTL : Z := 604800.
Definition DefaultMaxEndpointsPerResource : Z := 1024.
Definition DefaultMaxEndpointsPerDiscovery : Z := 10000.
Definition maxDiscoveryEvents : Z := 1024.

Inductive ServicePublicationMode := ServicePublicationExternalName | ServicePublicationHeadless.
Inductive PublicationDecision := PublicationUnspecified | PublicationAllow | PublicationDeny.

#[export] Instance PublicationDecision_eq_dec : EqDecision PublicationDecision.
Proof. solve_decision. Defined.

Record ServicePublicationContext := mkPublicationContext {
  Ctx_Mode : ServicePublicationMode; Ctx_Namespace : string; Ctx_Name : string;
  Ctx_Labels : gmap string string; Ctx_Annotations : gmap string string }.

Record Options := mkOptions {
  Sources : list string; Namespaces : list string; GatewayTargetNamespaces : list string; DomainFilters : list string;
  DefaultTTL : Z; Opt_Zone : string; Opt_OwnerID : string;
  PublishExternalNameServices : bool; PublishHeadlessServices : bool;
  ServicePublicationPolicy : option (ServicePublicationContext -> PublicationDecision);
  MaxEndpointsPerResource : Z; MaxEndpointsPerDiscovery : Z }.

Record ResourceMetadata := mkMetadata { Meta_Labels : gmap string string; Meta_Annotations : gmap string string }.

(** A message is a literal or a format with its arguments. *)
Inductive Message := Text (s : string) | Sprintf (format : string) (args : list string).
Inductive EventLevel := EventWarning | EventInfo.

Record SourceEvent := mkSourceEvent {
  Level : EventLevel; Resource : SourceRef; Event_Message : Message; Hostname : string }.

Record Discovered := mkDiscovered {
  D_Endpoints : list Endpoint; D_Events : list SourceEvent; IncompleteSources : gset string;
  Metadata : gmap string ResourceMetadata }.

Definition empty_result : Discovered := mkDiscovered [] [] ∅ ∅.

(** ** The result of a discovery *)

Definition addEvent (level : EventLevel) (ref : SourceRef) (hostname : string) (message : Message) (r : Discovered)
    : Discovered :=
  if maxDiscoveryEvents <=? Z.of_nat (length (D_Events r)) then r
  else mkDiscovered (D_Endpoints r) (D_Events r ++ [mkSourceEvent level ref message (NormalizeDNSName hostname)])
         (IncompleteSources r) (Metadata r).

Definition AddEvent (ref : SourceRef) (hostname : string) (message : Message) (r : Discovered) : Discovered :=
  addEvent EventWarning ref hostname message r.
Definition AddInfoEvent (ref : SourceRef) (hostname : string) (message : Message) (r : Discovered) : Discovered :=
  addEvent EventInfo ref hostname message r.

Definition MarkIncomplete (source : string) (r : Discovered) : Discovered :=
  let source := ToLower (TrimSpace source) in
  if source =s "" then r
  else mkDiscovered (D_Endpoints r) (D_Events r) ({[source]} ∪ IncompleteSources r) (Metadata r).

(** The sources of [other] are marked again, which normalizes their names. *)
Definition Merge (r other : Discovered) : Discovered :=
  let remainingEvents := Z.min (maxDiscoveryEvents - Z.of_nat (length (D_Events r))) (Z.of_nat (length (D_Events other))) in
  let r := mkDiscovered (D_Endpoints r ++ D_Endpoints other)
             (D_Events r ++ (if 0 <? remainingEvents then take (Z.to_nat remainingEvents) (D_Events other) else []))
             (IncompleteSources r) (Metadata r) in
  let r := set_fold MarkIncomplete r (IncompleteSources other) in
  mkDiscovered (D_Endpoints r) (D_Events r) (IncompleteSources r) (Metadata other ∪ Metadata r).

Definition SetMetadata (ref : SourceRef) (labels annotations : gmap string string) (r : Discovered) : Discovered :=
  mkDiscovered (D_Endpoints r) (D_Events r) (IncompleteSources r)
    (<[SourceRef_String ref := mkMetadata labels annotations]> (Metadata r)).

Definition MetadataFor (r : Discovered) (ref : SourceRef) : ResourceMetadata :=
  default (mkMetadata ∅ ∅) (Metadata r !! SourceRef_String ref).

Definition SourceComplete (r : Discovered) (source : string) : bool :=
  negb (bool_decide (ToLower (TrimSpace source) ∈ IncompleteSources r)).
Definition HasIncompleteSources (r : Discovered) : bool := negb (bool_decide (IncompleteSources r = ∅)).

(** ** Options *)

Definition SourceEnabled (o : Options) (name : string) : bool :=
  match Sources o with [] => true | l => existsb (fun s => EqualFold s name) l end.

Definition NamespaceAllowed (o : Options) (namespace : string) : bool :=
  match Namespaces o with [] => true | l => existsb (fun s => s =s namespace) l end.

Definition GatewayTargetNamespaceAllowed (o : Options) (namespace : string) : bool :=
  existsb (fun s => s =s namespace) (GatewayTargetNamespaces o).

(** [name] is [zone] or below it; both normalized. *)
Definition same_or_under (name zone : string) : bool := (name =s zone) || HasSuffix name ("." +:+ zone).

Definition DomainAllowed (o : Options) (hostname : string) : bool :=
  match DomainFilters o with
  | [] => true
  | l => existsb (fun f => same_or_under (NormalizeDNSName hostname) (NormalizeDNSName f)) l
  end.

Definition HostInZone (o : Options) (hostname : string) : bool :=
  let zone := NormalizeDNSName (Opt_Zone o) in
  if zone =s "" then false else same_or_under (NormalizeDNSName hostname) zone.

Definition unique_step (st : gset string * list string) (value : string) : gset string * list string :=
  let '(seen, out) := st in
  let value := NormalizeDNSName value in
  if value =s "" then st
  else if bool_decide (value ∈ seen) then st
  else ({[value]} ∪ seen, out ++ [value]).

Definition uniqueSorted (values : list string) : list string := sort_strings (foldl unique_step (∅, []) values).2.

Definition parseTTLValue (value : string) : option Z :=
  match ParseInt value with
  | Some ttl => Some ttl
  | None =>
      match ParseDuration value with
      | Some d => if negb (Z.rem d Second =? 0) then None else Some (Z.quot d Second)
      | None => None
      end
  end.

Fixpoint ttl_from (annotations : gmap string string) (keys : list string) (defaultTTL : Z) : result Message Z :=
  match keys with
  | [] => Ok defaultTTL
  | key :: rest =>
      let value := TrimSpace (default "" (annotations !! key)) in
      if value =s "" then ttl_from annotations rest defaultTTL
      else match parseTTLValue value with
           | Some ttl => if (ttl <=? 0) || (MaxTTL <? ttl) then Err (Sprintf "invalid TTL annotation" [key; value]) else Ok ttl
           | None => Err (Sprintf "invalid TTL annotation" [key; value])
           end
  end.

Definition TTLFromAnnotations (annotations : gmap string string) (defaultTTL : Z) : result Message Z :=
  ttl_from annotations [AnnotationTTL; AnnotationTTLAlpha] defaultTTL.

(** ** Hostnames *)

Class IDNA := { Lookup_ToASCII : string -> option string }.

Section hostnames.
Context `{IDNA} `{KeyValidation}.

Definition normalizeHostname (value : string) : string :=
  let name := NormalizeDNSName value in
  if name =s "" then ""
  else
    let '(prefix, rest) := match CutPrefix name "*." with Some rest => ("*.", rest) | None => ("", name) end in
    match Lookup_ToASCII rest with
    | None => name
    | Some ascii => if ascii =s "" then name else prefix +:+ ToLower ascii
    end.

Definition validHostname (name : string) : bool :=
  let n := String.length name in
  if (n =? 0)%nat || (253 <? n)%nat then false
  else
    let name := TrimPrefix name "*." in
    if (name =s "") || negb (bool_decide (IsDNS1123Subdomain name = [])) then false
    else forallb (fun label => (String.length label <=? 63)%nat) (SplitChar name ".").

Definition validTargetHostname (value : string) : option string :=
  let name := normalizeHostname value in
  if (name =s "") || HasPrefix name "*" || bool_decide (is_Some (ParseIP name)) || negb (validHostname name)
  then None else Some name.

Definition HostnamesFromAnnotations (annotations : gmap string string) : list string :=
  uniqueSorted ([AnnotationHostname; AnnotationHostnameAlpha] ≫= fun key =>
    filter (fun item => item <> "")
      (normalizeHostname <$> SplitChar (default "" (annotations !! key)) ",")).

Definition is_wildcard (host : string) : bool := (host =s "*") || HasPrefix host "*.".

Definition appendEndpointForHost (opts : Options) (ref : SourceRef) (host : string) (targets : list string) (ttl : Z)
    (r : Discovered) : Discovered :=
  let host := NormalizeDNSName host in
  if host =s "" then r
  else if negb (DomainAllowed opts host) then r
  else if is_wildcard host then
    AddEvent ref host (Text "wildcard hostnames are not supported by the FortiGate dns-database; skipping") r
  else if negb (HostInZone opts host) then
    AddEvent ref host (Text "hostname is outside the configured FortiGate zone; skipping") r
  else match targets with
       | [] => AddEvent ref host (Text "resource has a hostname but no publishable target") r
       | _ =>
           mkDiscovered (D_Endpoints r ++ BuildEndpoints host targets ttl (Opt_Zone opts) (Opt_OwnerID opts) ref)
             (D_Events r) (IncompleteSources r) (Metadata r)
       end.

Definition publishable_step (opts : Options) (ref : SourceRef) (st : Discovered * list string) (host : string)
    : Discovered * list string :=
  let '(r, filtered) := st in
  let host := normalizeHostname host in
  if (host =s "") || negb (DomainAllowed opts host) then st
  else if negb (validHostname host) then (AddEvent ref host (Text "hostname is not a valid DNS name; skipping") r, filtered)
  else if is_wildcard host then
    (AddEvent ref host (Text "wildcard hostnames are not supported by the FortiGate dns-database; skipping") r, filtered)
  else if negb (HostInZone opts host) then
    (AddEvent ref host (Text "hostname is outside the configured FortiGate zone; skipping") r, filtered)
  else if host =s NormalizeDNSName (Opt_Zone opts) then
    (AddEvent ref host (Text "hostname equals the zone apex, which cannot be published; skipping") r, filtered)
  else (r, filtered ++ [host]).

Definition publishableHosts (r : Discovered) (opts : Options) (ref : SourceRef) (hosts : list string)
    : Discovered * list string :=
  let '(r, filtered) := foldl (publishable_step opts ref) (r, []) hosts in (r, uniqueSorted filtered).

(** ** The endpoint budget *)

(** [checks] counts the questions put to the context, which is not a field of the code. *)
Record endpointBudget := mkBudget { remaining : Z; perResource : Z; checks : nat }.

Definition newEndpointBudget (opts : Options) : endpointBudget :=
  let perResource := if MaxEndpointsPerResource opts <=? 0 then DefaultMaxEndpointsPerResource
                     else MaxEndpointsPerResource opts in
  let total := if MaxEndpointsPerDiscovery opts <=? 0 then DefaultMaxEndpointsPerDiscovery
               else MaxEndpointsPerDiscovery opts in
  mkBudget total perResource 0.

(** The answer of [ctx.Err()] to its n-th call. *)
Context (ctxErrAt : nat -> option string).

Definition tick (b : endpointBudget) : endpointBudget := mkBudget (remaining b) (perResource b) (S (checks b)).

Fixpoint append_hosts (opts : Options) (source : string) (ref : SourceRef) (hosts targets : list string) (ttl : Z)
    (b : endpointBudget) (r : Discovered) : endpointBudget * Discovered * option string :=
  match hosts with
  | [] => (b, r, None)
  | host :: rest =>
      match ctxErrAt (checks b) with
      | Some err => (tick b, MarkIncomplete source r, Some err)
      | None => append_hosts opts source ref rest targets ttl (tick b) (appendEndpointForHost opts ref host targets ttl r)
      end
  end.

Definition appendSource (b : endpointBudget) (r : Discovered) (opts : Options) (source : string) (ref : SourceRef)
    (hosts targets : list string) (ttl : Z) : endpointBudget * Discovered * option string :=
  match ctxErrAt (checks b) with
  | Some err => (tick b, MarkIncomplete source r, Some err)
  | None =>
      let b := tick b in
      let uniqueTargets := uniqueSorted targets in
      let '(r, hosts) := publishableHosts r opts ref hosts in
      let nh := Z.of_nat (length hosts) in
      let nt := Z.of_nat (length uniqueTargets) in
      let tooLarge := (0 <? nt) && ((Z.quot (perResource b) nt <? nh) || (Z.quot (remaining b) nt <? nh)) in
      if tooLarge then
        (b, AddEvent ref "" (Sprintf "source endpoint expansion exceeds discovery budget; rejecting the entire resource"
                               [FormatInt nh; FormatInt nt]) (MarkIncomplete source r), None)
      else append_hosts opts source ref hosts uniqueTargets ttl
             (mkBudget (remaining b - nh * nt) (perResource b) (checks b)) r
  end.
End hostnames.

(** ** service.go *)

Record LoadBalancerIngress := mkLBIngress { LB_Hostname : string; LB_IP : string }.

Definition ServiceTypeExternalName : string := "ExternalName".
Definition ServiceTypeLoadBalancer : string := "LoadBalancer".
Definition ClusterIPNone : string := "None".

Record Service := mkService {
  Svc_Namespace : string; Svc_Name : string; Svc_UID : string; Svc_Labels : gmap string string;
  Svc_Annotations : gmap string string; Svc_Type : string; ExternalName : string; ClusterIP : string;
  ClusterIPs : list string; ExternalIPs : list string; PublishNotReadyAddresses : bool;
  Svc_LoadBalancer : list LoadBalancerIngress }.

Record EndpointConditions := mkConditions { Ready : option bool; Serving : option bool; Terminating : option bool }.
Record SliceEndpoint := mkSliceEndpoint { Addresses : list string; Conditions : EndpointConditions }.

Definition AddressTypeIPv4 : string := "IPv4".
Definition AddressTypeIPv6 : string := "IPv6".
Definition LabelServiceName : string := "kubernetes.io/service-name".

Record EndpointSlice := mkSlice {
  Slice_Namespace : string; Slice_Name : string; Slice_Labels : gmap string string; AddressType : string;
  Slice_Endpoints : list SliceEndpoint }.

Definition preferHostnames (hostnames ips : list string) : list string :=
  match hostnames with [] => ips | _ => hostnames end.

Definition isHeadlessService (s : Service) : bool :=
  EqualFold (ClusterIP s) ClusterIPNone || existsb (fun ip => EqualFold ip ClusterIPNone) (ClusterIPs s).

Definition endpointEligible (conditions : EndpointConditions) (publishNotReady : bool) : bool :=
  if publishNotReady then true
  else match Terminating conditions with
       | Some true => false
       | _ =>
           match Serving conditions with
           | Some false => false
           | _ => match Ready conditions with None => true | Some b => b end
           end
       end.

Definition servicePublicationDecision (s : Service) (opts : Options) (mode : ServicePublicationMode)
    : PublicationDecision :=
  match ServicePublicationPolicy opts with
  | None => PublicationUnspecified
  | Some f => f (mkPublicationContext mode (Svc_Namespace s) (Svc_Name s) (Svc_Labels s) (Svc_Annotations s))
  end.

(** The scan over the slices: addresses found and which diagnostics were reported. *)
Record HeadlessScan := mkScan {
  scan_result : Discovered; scan_seen : gset string; scan_targets : list string;
  unsupportedTypeReported : bool; invalidFamilyReported : bool }.

Definition family_matches (addressType : string) (ip : IP) : bool :=
  match To4 ip with
  | None => negb (addressType =s AddressTypeIPv4)
  | Some _ => negb (addressType =s AddressTypeIPv6)
  end.

Definition address_step (ref : SourceRef) (addressType : string) (st : HeadlessScan) (address : string) : HeadlessScan :=
  match (match ParseIP (TrimSpace address) with
         | Some ip => if family_matches addressType ip then Some ip else None
         | None => None
         end) with
  | None =>
      if invalidFamilyReported st then st
      else mkScan (AddEvent ref "" (Text "EndpointSlice address does not match its declared IP address family; skipping")
                     (scan_result st)) (scan_seen st) (scan_targets st) (unsupportedTypeReported st) true
  | Some ip =>
      let address := IPString ip in
      if bool_decide (address ∈ scan_seen st) then st
      else mkScan (scan_result st) ({[address]} ∪ scan_seen st) (scan_targets st ++ [address])
             (unsupportedTypeReported st) (invalidFamilyReported st)
  end.

Definition slice_step (service : Service) (ref : SourceRef) (st : HeadlessScan) (slice : EndpointSlice) : HeadlessScan :=
  if negb (Slice_Namespace slice =s Svc_Namespace service)
     || negb (default "" (Slice_Labels slice !! LabelServiceName) =s Svc_Name service) then st
  else if negb (AddressType slice =s AddressTypeIPv4) && negb (AddressType slice =s AddressTypeIPv6) then
    if unsupportedTypeReported st then st
    else mkScan (AddEvent ref "" (Text "EndpointSlice address type is unsupported; only IPv4 and IPv6 are published")
                   (scan_result st)) (scan_seen st) (scan_targets st) true (invalidFamilyReported st)
  else
    foldl (address_step ref (AddressType slice)) st
      (filter (fun e => endpointEligible (Conditions e) (PublishNotReadyAddresses service) = true)
         (Slice_Endpoints slice) ≫= Addresses).

Definition slice_less (a b : EndpointSlice) : bool :=
  if negb (Slice_Namespace a =s Slice_Namespace b) then Slice_Namespace a <s Slice_Namespace b
  else Slice_Name a <s Slice_Name b.

Definition headlessTargets (service : Service) (slices : list EndpointSlice) (ref : SourceRef) : list string * Discovered :=
  let st := foldl (slice_step service ref) (mkScan empty_result ∅ [] false false) (sort_slice slice_less slices) in
  (sort_strings (scan_targets st), scan_result st).

Section services.
Context `{IDNA} `{KeyValidation}.
Context (ctxErrAt : nat -> option string).

(** The hostnames and addresses of a load balancer, with a warning per invalid hostname. *)
Definition lb_step (format : string) (ref : SourceRef) (st : Discovered * list string * list string)
    (item : LoadBalancerIngress) : Discovered * list string * list string :=
  let '(r, hostnames, ips) := st in
  if negb (LB_Hostname item =s "") then
    match validTargetHostname (LB_Hostname item) with
    | Some name => (r, hostnames ++ [name], ips)
    | None => (AddEvent ref "" (Sprintf format [LB_Hostname item]) r, hostnames, ips)
    end
  else if negb (LB_IP item =s "") then (r, hostnames, ips ++ [LB_IP item])
  else st.

Definition serviceTargets (service : Service) (r : Discovered) (ref : SourceRef) : Discovered * list string :=
  let '(r, hostnames, ips) :=
    if Svc_Type service =s ServiceTypeLoadBalancer then
      foldl (lb_step "LoadBalancer hostname is not a valid DNS hostname; skipping" ref)
        (r, [], ExternalIPs service) (Svc_LoadBalancer service)
    else (r, [], ExternalIPs service) in
  (r, preferHostnames hostnames ips).

(** [TTLFromAnnotations] with the fallback every caller applies. *)
Definition ttl_or_default (annotations : gmap string string) (opts : Options) (ref : SourceRef) (r : Discovered)
    : Discovered * Z :=
  match TTLFromAnnotations annotations (DefaultTTL opts) with
  | Ok ttl => (r, ttl)
  | Err m => (AddEvent ref "" m r, DefaultTTL opts)
  end.

Definition endpointsFromExternalNameService (service : Service) (hostnames : list string) (opts : Options)
    (ref : SourceRef) (b : endpointBudget) : endpointBudget * Discovered * option string :=
  let event m := AddEvent ref "" (Text m) empty_result in
  if negb (PublishExternalNameServices opts) then (b, event "ExternalName publication is disabled; skipping", None)
  else if bool_decide (servicePublicationDecision service opts ServicePublicationExternalName = PublicationDeny) then
    (b, event "policy denied ExternalName publication", None)
  else
    let target := NormalizeDNSName (ExternalName service) in
    if bool_decide (is_Some (ParseIP target)) then
      (b, event "ExternalName target must be a DNS hostname, not an IP address; skipping", None)
    else if (target =s "") || is_wildcard target || negb (bool_decide (IsDNS1123Subdomain target = [])) then
      (b, event "ExternalName target is not a valid DNS hostname; skipping", None)
    else
      let '(r, ttl) := ttl_or_default (Svc_Annotations service) opts ref empty_result in
      appendSource ctxErrAt b r opts SourceService ref hostnames [target] ttl.

Definition endpointsFromHeadlessService (service : Service) (slices : list EndpointSlice) (hostnames : list string)
    (opts : Options) (ref : SourceRef) (b : endpointBudget) : endpointBudget * Discovered * option string :=
  let event m := AddEvent ref "" (Text m) empty_result in
  let value := TrimSpace (default "" (Svc_Annotations service !! AnnotationPublishHeadless)) in
  let annotated := EqualFold value "true" in
  let decision := servicePublicationDecision service opts ServicePublicationHeadless in
  if negb (PublishHeadlessServices opts) then
    (b, if annotated || bool_decide (decision = PublicationAllow)
        then event "headless Service publication is disabled; skipping" else empty_result, None)
  else if bool_decide (decision = PublicationDeny) then (b, event "policy denied headless Service publication", None)
  else if negb (value =s "") && negb annotated && negb (EqualFold value "false") then
    (b, event "headless publication annotation must be true or false; skipping", None)
  else if negb annotated && negb (bool_decide (decision = PublicationAllow)) then (b, empty_result, None)
  else
    let '(r, ttl) := ttl_or_default (Svc_Annotations service) opts ref empty_result in
    let '(targets, targetResult) := headlessTargets service slices ref in
    let r := Merge r targetResult in
    match targets with
    | [] => (b, AddEvent ref "" (Text "headless Service has no publishable EndpointSlice address") r, None)
    | _ => appendSource ctxErrAt b r opts SourceService ref hostnames targets ttl
    end.

(** The deferred function of the code: metadata is kept for a resource that publishes. *)
Definition with_metadata (ref : SourceRef) (labels annotations : gmap string string)
    (r : endpointBudget * Discovered * option string) : endpointBudget * Discovered * option string :=
  let '(b, d, e) := r in
  (b, match D_Endpoints d with [] => d | _ => SetMetadata ref labels annotations d end, e).

Definition service_ref (s : Service) : SourceRef := mkSourceRef "v1" "Service" (Svc_Namespace s) (Svc_Name s) (Svc_UID s).

Definition endpointsFromService (service : Service) (slices : list EndpointSlice) (opts : Options) (b : endpointBudget)
    : endpointBudget * Discovered * option string :=
  if negb (SourceEnabled opts SourceService) || negb (NamespaceAllowed opts (Svc_Namespace service)) then
    (b, empty_result, None)
  else
    let ref := service_ref service in
    with_metadata ref (Svc_Labels service) (Svc_Annotations service)
      match HostnamesFromAnnotations (Svc_Annotations service) with
      | [] => (b, empty_result, None)
      | hostnames =>
          if Svc_Type service =s ServiceTypeExternalName then
            let '(b, d, e) := endpointsFromExternalNameService service hostnames opts ref b in (b, Merge empty_result d, e)
          else if isHeadlessService service then
            let '(b, d, e) := endpointsFromHeadlessService service slices hostnames opts ref b in (b, Merge empty_result d, e)
          else
            let '(r, ttl) := ttl_or_default (Svc_Annotations service) opts ref empty_result in
            let '(r, targets) := serviceTargets service r ref in
            match targets with
            | [] =>
                (b, if Svc_Type service =s ServiceTypeLoadBalancer
                    then AddEvent ref "" (Text "LoadBalancer service has no published status address yet") r
                    else AddEvent ref "" (Sprintf "service type is not published; only LoadBalancer status addresses and ExternalIPs are supported"
                                            [Svc_Type service]) r, None)
            | _ => appendSource ctxErrAt b r opts SourceService ref hostnames targets ttl
            end
      end.

(** ** ingress.go *)

Record Ingress := mkIngress {
  Ing_Namespace : string; Ing_Name : string; Ing_UID : string; Ing_Labels : gmap string string;
  Ing_Annotations : gmap string string; RuleHosts : list string; Ing_LoadBalancer : list LoadBalancerIngress }.

Definition ingressTargets (ingress : Ingress) (r : Discovered) (ref : SourceRef) : Discovered * list string :=
  let '(r, hostnames, ips) :=
    foldl (lb_step "Ingress load balancer hostname is not a valid DNS hostname; skipping" ref)
      (r, [], []) (Ing_LoadBalancer ingress) in
  (r, preferHostnames hostnames ips).

Definition ingress_ref (i : Ingress) : SourceRef :=
  mkSourceRef "networking.k8s.io/v1" "Ingress" (Ing_Namespace i) (Ing_Name i) (Ing_UID i).

Definition endpointsFromIngress (ingress : Ingress) (opts : Options) (b : endpointBudget)
    : endpointBudget * Discovered * option string :=
  if negb (SourceEnabled opts SourceIngress) || negb (NamespaceAllowed opts (Ing_Namespace ingress)) then
    (b, empty_result, None)
  else
    let ref := ingress_ref ingress in
    with_metadata ref (Ing_Labels ingress) (Ing_Annotations ingress)
      match uniqueSorted (HostnamesFromAnnotations (Ing_Annotations ingress)
                          ++ filter (fun h => h <> "") (RuleHosts ingress)) with
      | [] => (b, empty_result, None)
      | hostnames =>
          let '(r, ttl) := ttl_or_default (Ing_Annotations ingress) opts ref empty_result in
          let '(r, targets) := ingressTargets ingress r ref in
          appendSource ctxErrAt b r opts SourceIngress ref hostnames targets ttl
      end.
End services.
