(* ===== verification/Gateways.v ===== *)
(** * internal/source/gateway.go and kubernetes.go: Gateways, HTTPRoutes and a discovery pass

    Which hostnames of a Gateway listener or an HTTPRoute are published with
    which addresses, and the pass over all namespaces.  Label selectors are the
    interface of the policy component. *)
From Stdlib Require Import String Ascii ZArith Lia.
From S2P Require Import Prelude GoStrings NetIP GoEncoding Endpoint Queue Client Policy Sources.
Open Scope string_scope.
Open Scope list_scope.
Open Scope Z_scope.
Open Scope go_scope.

(** ** Data *)

Definition GatewayGroup : string := "gateway.networking.k8s.io".
Definition IPAddressType : string := "IPAddress".
Definition HostnameAddressType : string := "Hostname".
Definition NamespacesFromAll : string := "All".
Definition NamespacesFromSame : string := "Same".
Definition NamespacesFromSelector : string := "Selector".

Record GatewayAddress := mkGatewayAddress { GA_Type : option string; GA_Value : string }.
Record RouteGroupKind := mkGroupKind { RGK_Group : option string; RGK_Kind : string }.

Record ParentReference := mkParentRef {
  PRef_Group : option string; PRef_Kind : option string; PRef_Namespace : option string; PRef_Name : string;
  SectionName : option string; PRef_Port : option Z }.

Record Condition := mkCondition { Cond_Type : string; Cond_Status : string; ObservedGeneration : Z }.
Record RouteParentStatus := mkParentStatus { RPS_ParentRef : ParentReference; RPS_Conditions : list Condition }.

Record HTTPRoute := mkHTTPRoute {
  Rt_Namespace : string; Rt_Name : string; Rt_UID : string; Rt_Generation : Z; Rt_Labels : gmap string string;
  Rt_Annotations : gmap string string; Rt_Hostnames : list string; ParentRefs : list ParentReference;
  Status_Parents : list RouteParentStatus }.

Definition ConditionTrue : string := "True".
Definition ConditionFalse : string := "False".

Definition GatewayMapKey (namespace name : string) : string := namespace +:+ "/" +:+ name.

Definition parentRefIsGateway (ref : ParentReference) : bool :=
  (default GatewayGroup (PRef_Group ref) =s GatewayGroup) && (default "Gateway" (PRef_Kind ref) =s "Gateway").

Definition parentRefKey (defaultNamespace : string) (ref : ParentReference) : string :=
  Join [default GatewayGroup (PRef_Group ref); default "Gateway" (PRef_Kind ref); default defaultNamespace (PRef_Namespace ref);
        PRef_Name ref; default "" (SectionName ref); default "" (FormatInt <$> PRef_Port ref)] "/".

Definition hasCurrentCondition (conditions : list Condition) (conditionType status : string) (generation : Z) : bool :=
  existsb (fun c => (Cond_Type c =s conditionType) && (Cond_Status c =s status) && (ObservedGeneration c =? generation))
    conditions.

Definition acceptedParentRefs (route : HTTPRoute) : gset string :=
  list_to_set ((fun p => parentRefKey (Rt_Namespace route) (RPS_ParentRef p)) <$>
    filter (fun p => (hasCurrentCondition (RPS_Conditions p) "Accepted" ConditionTrue (Rt_Generation route)
                      && hasCurrentCondition (RPS_Conditions p) "ResolvedRefs" ConditionTrue (Rt_Generation route)) = true)
      (Status_Parents route)).

(** A condition counts as reported when it is definite and of the current generation. *)
Definition condition_reported (generation : Z) (conditionType : string) (c : Condition) : bool :=
  (ObservedGeneration c =? generation) && ((Cond_Status c =s ConditionTrue) || (Cond_Status c =s ConditionFalse))
  && (Cond_Type c =s conditionType).

Definition parent_current (route : HTTPRoute) (ref : ParentReference) : bool :=
  existsb (fun p =>
    (parentRefKey (Rt_Namespace route) (RPS_ParentRef p) =s parentRefKey (Rt_Namespace route) ref)
    && existsb (condition_reported (Rt_Generation route) "Accepted") (RPS_Conditions p)
    && existsb (condition_reported (Rt_Generation route) "ResolvedRefs") (RPS_Conditions p)) (Status_Parents route).

Definition routeStatusCurrent (route : HTTPRoute) : bool :=
  forallb (fun ref => negb (parentRefIsGateway ref) || parent_current route ref) (ParentRefs route).

(** ** Hostnames *)

(** The hostname without its leading ["*"]. *)
Definition tail_of (s : string) : string := match s with String _ s' => s' | "" => "" end.

Definition intersectHostname (routeHost listenerHost : string) : option string :=
  if (listenerHost =s "") || (listenerHost =s routeHost) then Some routeHost
  else
    let routeWild := HasPrefix routeHost "*." in
    let listenerWild := HasPrefix listenerHost "*." in
    if listenerWild && negb routeWild then
      if HasSuffix routeHost (tail_of listenerHost) then Some routeHost else None
    else if negb listenerWild && routeWild then
      if HasSuffix listenerHost (tail_of routeHost) then Some listenerHost else None
    else if listenerWild && routeWild then
      if HasSuffix routeHost (tail_of listenerHost) then Some routeHost
      else if HasSuffix listenerHost (tail_of routeHost) then Some listenerHost
      else None
    else None.

Definition asciiLetterOrDigit (c : ascii) : bool :=
  let n := nat_of_ascii c in
  ((97 <=? n) && (n <=? 122) || (65 <=? n) && (n <=? 90) || (48 <=? n) && (n <=? 57))%nat.

Fixpoint valid_label_rest (s : string) : bool :=
  match s with
  | "" => true
  | String c "" => asciiLetterOrDigit c
  | String c s' => (asciiLetterOrDigit c || Ascii.eqb c "-") && valid_label_rest s'
  end.

(** First and last byte are alphanumeric, the bytes between may be hyphens. *)
Definition valid_label (label : string) : bool :=
  match label with
  | "" => false
  | String c s' => (String.length label <=? 63)%nat && asciiLetterOrDigit c && valid_label_rest s'
  end.

Definition validGatewayHostname (value : string) : bool :=
  let value := NormalizeDNSName value in
  if (value =s "") || (253 <? String.length value)%nat || is_wildcard value then false
  else forallb valid_label (SplitChar value ".").

(** ** Gateways *)

Record gatewayAddressTargets := mkAddressTargets { AT_hostnames : list string; AT_ips : list string }.

Definition values (t : gatewayAddressTargets) : list string := preferHostnames (AT_hostnames t) (AT_ips t).

Section gateway.
Context `{Selectors} `{IDNA} `{KeyValidation} `{MapRange}.

Record RouteNamespaces := mkRouteNamespaces { From : option string; NS_Selector : option LabelSelector }.
Record AllowedRoutes := mkAllowedRoutes { RouteNS : option RouteNamespaces; Kinds : list RouteGroupKind }.
Record Listener := mkListener {
  L_Name : string; L_Hostname : option string; L_Port : Z; Protocol : string; L_AllowedRoutes : option AllowedRoutes }.
Record Gateway := mkGateway {
  GW_Namespace : string; GW_Name : string; GW_UID : string; GW_Labels : gmap string string;
  GW_Annotations : gmap string string; Listeners : list Listener; GW_Addresses : list GatewayAddress }.

Definition gatewaySourceRef (g : Gateway) : SourceRef :=
  mkSourceRef (GatewayGroup +:+ "/v1") "Gateway" (GW_Namespace g) (GW_Name g) (GW_UID g).

Definition collect_step (ref : SourceRef) (st : Discovered * gatewayAddressTargets) (address : GatewayAddress)
    : Discovered * gatewayAddressTargets :=
  let '(r, t) := st in
  let value := TrimSpace (GA_Value address) in
  let addressType := default IPAddressType (GA_Type address) in
  if addressType =s IPAddressType then
    match ParseIP value with
    | Some ip => (r, mkAddressTargets (AT_hostnames t) (AT_ips t ++ [IPString ip]))
    | None => (AddEvent ref "" (Sprintf "Gateway IPAddress value is not a valid IP address; skipping" [value]) r, t)
    end
  else if addressType =s HostnameAddressType then
    if validGatewayHostname value && negb (bool_decide (is_Some (ParseIP value))) then
      (r, mkAddressTargets (AT_hostnames t ++ [value]) (AT_ips t))
    else (AddEvent ref "" (Sprintf "Gateway Hostname value is not a valid DNS hostname; skipping" [value]) r, t)
  else (AddEvent ref "" (Sprintf "Gateway address type is not supported for DNS publication; skipping" [addressType]) r, t).

Definition collectGatewayTargets (g : Gateway) (r : Discovered) : Discovered * gatewayAddressTargets :=
  foldl (collect_step (gatewaySourceRef g)) (r, mkAddressTargets [] []) (GW_Addresses g).

Context (ctxErrAt : nat -> option string).

Definition endpointsFromGateway (g : Gateway) (opts : Options) (b : endpointBudget)
    : endpointBudget * Discovered * option string :=
  if negb (SourceEnabled opts SourceGateway) || negb (NamespaceAllowed opts (GW_Namespace g)) then (b, empty_result, None)
  else
    let ref := gatewaySourceRef g in
    with_metadata ref (GW_Labels g) (GW_Annotations g)
      match uniqueSorted (omap L_Hostname (Listeners g)) with
      | [] => (b, empty_result, None)
      | hostnames =>
          let '(r, targets) := collectGatewayTargets g empty_result in
          appendSource ctxErrAt b r opts SourceGateway ref hostnames (values targets) (DefaultTTL opts)
      end.

(** ** HTTPRoutes *)

Definition attachedListeners (g : Gateway) (parent : ParentReference) : list Listener :=
  filter (fun l => (match SectionName parent with Some n => L_Name l =s n | None => true end
                    && match PRef_Port parent with Some p => L_Port l =? p | None => true end) = true) (Listeners g).

(** The labels of a namespace; [None] when no reader is configured. *)
Context (NamespaceLabels : option (string -> result string (gmap string string))).

Definition kinds_allow (kinds : list RouteGroupKind) : bool :=
  match kinds with
  | [] => true
  | _ => existsb (fun k => (RGK_Kind k =s "HTTPRoute") && (default GatewayGroup (RGK_Group k) =s GatewayGroup)) kinds
  end.

Definition selector_allows (ns : RouteNamespaces) (routeNamespace : string) : result string bool :=
  match NS_Selector ns, NamespaceLabels with
  | Some s, Some read =>
      match LabelSelectorAsSelector s with
      | None => Err "invalid selector"
      | Some sel => let? labels := read routeNamespace in Ok (Matches sel labels)
      end
  | _, _ => Err "gateway listener namespace selector cannot be evaluated"
  end.

Definition listenerAllowsHTTPRoute (l : Listener) (gatewayNamespace routeNamespace : string) : result string bool :=
  if negb (Protocol l =s "HTTP") && negb (Protocol l =s "HTTPS") then Ok false
  else if negb (match L_AllowedRoutes l with Some a => kinds_allow (Kinds a) | None => true end) then Ok false
  else
    let same := Ok (gatewayNamespace =s routeNamespace) in
    match (match L_AllowedRoutes l with Some a => RouteNS a | None => None end) with
    | None => same
    | Some ns =>
        match From ns with
        | None => same
        | Some from =>
            if from =s NamespacesFromSame then same
            else if from =s NamespacesFromAll then Ok true
            else if from =s NamespacesFromSelector then selector_allows ns routeNamespace
            else Err "unknown Gateway listener namespace policy"
        end
    end.

Definition listener_step (g : Gateway) (route : HTTPRoute) (ref : SourceRef) (hostnames : list string)
    (st : Discovered * gset string * gset string) (l : Listener) : Discovered * gset string * gset string :=
  let '(r, parentHosts, matchedHosts) := st in
  match listenerAllowsHTTPRoute l (GW_Namespace g) (Rt_Namespace route) with
  | Err _ => (AddEvent ref "" (Text "cannot verify Gateway listener namespace selector; suppressing cleanup")
                (MarkIncomplete SourceGateway r), parentHosts, matchedHosts)
  | Ok false => st
  | Ok true =>
      let listenerHost := match L_Hostname l with Some h => NormalizeDNSName h | None => "" end in
      foldl (fun '(r, ph, mh) host =>
        match intersectHostname host listenerHost with
        | Some merged => (r, {[merged]} ∪ ph, {[host]} ∪ mh)
        | None => (r, ph, mh)
        end) st hostnames
  end.

Definition add_targets (t : gatewayAddressTargets) (m : gmap string gatewayAddressTargets) (host : string)
    : gmap string gatewayAddressTargets :=
  let old := default (mkAddressTargets [] []) (m !! host) in
  <[host := mkAddressTargets (AT_hostnames old ++ AT_hostnames t) (AT_ips old ++ AT_ips t)]> m.

Definition parent_step (route : HTTPRoute) (gateways : gmap string Gateway) (acceptedParents : gset string)
    (hostnames : list string) (ref : SourceRef)
    (st : Discovered * gmap string gatewayAddressTargets * gset string) (parent : ParentReference)
    : Discovered * gmap string gatewayAddressTargets * gset string :=
  let '(r, targetsByHost, matchedHosts) := st in
  if negb (parentRefIsGateway parent) then st
  else if negb (bool_decide (parentRefKey (Rt_Namespace route) parent ∈ acceptedParents)) then st
  else
    match gateways !! GatewayMapKey (default (Rt_Namespace route) (PRef_Namespace parent)) (PRef_Name parent) with
    | None => st
    | Some g =>
        let '(r, targets) := collectGatewayTargets g r in
        let '(r, parentHosts, matchedHosts) :=
          foldl (listener_step g route ref hostnames) (r, ∅, matchedHosts) (attachedListeners g parent) in
        (r, set_fold (fun host m => add_targets targets m host) targetsByHost parentHosts, matchedHosts)
    end.

Definition targetsForHTTPRoute (route : HTTPRoute) (gateways : gmap string Gateway) (acceptedParents : gset string)
    (hostnames : list string) (r : Discovered) (ref : SourceRef) : Discovered * gmap string gatewayAddressTargets :=
  let '(r, targetsByHost, matchedHosts) :=
    foldl (parent_step route gateways acceptedParents hostnames ref) (r, ∅, ∅) (ParentRefs route) in
  (foldl (fun r host =>
     if bool_decide (host ∈ matchedHosts) then r
     else AddEvent ref host (Text "HTTPRoute hostname does not intersect any attached Gateway listener hostname; skipping") r)
     r hostnames, targetsByHost).

Definition may_publish (opts : Options) (raw : string) : bool :=
  let host := normalizeHostname raw in
  if negb (validHostname host) || (host =s "*") then true
  else if HasPrefix host "*." then
    let suffix := TrimPrefix host "*." in
    let zone := NormalizeDNSName (Opt_Zone opts) in
    same_or_under suffix zone || HasSuffix zone ("." +:+ suffix)
  else DomainAllowed opts host && HostInZone opts host && negb (host =s NormalizeDNSName (Opt_Zone opts)).

Definition routeHostnamesMayPublish (hostnames : list string) (opts : Options) : bool :=
  existsb (may_publish opts) hostnames.

Definition host_values (targetsByHost : gmap string gatewayAddressTargets) (host : string) : list string :=
  values (default (mkAddressTargets [] []) (targetsByHost !! host)).

(** The number of endpoints the whole route expands to. *)
Definition route_total (opts : Options) (ref : SourceRef) (targetsByHost : gmap string gatewayAddressTargets)
    (hostnames : list string) : Z :=
  foldl (fun total host =>
    total + Z.of_nat (length (publishableHosts empty_result opts ref [host]).2)
            * Z.of_nat (length (uniqueSorted (host_values targetsByHost host)))) 0 hostnames.

(** Publishing host by host into the staged budget; [Err] drops the endpoints of the route. *)
Fixpoint route_append (opts : Options) (ref : SourceRef) (targetsByHost : gmap string gatewayAddressTargets)
    (hostnames : list string) (staged : endpointBudget) (r : Discovered)
    : endpointBudget * result (Discovered * option string) Discovered :=
  match hostnames with
  | [] => (staged, Ok r)
  | host :: rest =>
      let '(staged, r, err) :=
        appendSource ctxErrAt staged r opts SourceGateway ref [host] (host_values targetsByHost host) (DefaultTTL opts) in
      if bool_decide (is_Some err) || negb (SourceComplete r SourceGateway) then
        (staged, Err (mkDiscovered [] (D_Events r) (IncompleteSources r) (Metadata r), err))
      else route_append opts ref targetsByHost rest staged r
  end.

Definition route_ref (route : HTTPRoute) : SourceRef :=
  mkSourceRef (GatewayGroup +:+ "/v1") "HTTPRoute" (Rt_Namespace route) (Rt_Name route) (Rt_UID route).

Definition endpointsFromHTTPRoute (route : HTTPRoute) (gateways : gmap string Gateway) (opts : Options) (b : endpointBudget)
    : endpointBudget * Discovered * option string :=
  if negb (SourceEnabled opts SourceGateway) || negb (NamespaceAllowed opts (Rt_Namespace route)) then (b, empty_result, None)
  else
    let ref := route_ref route in
    with_metadata ref (Rt_Labels route) (Rt_Annotations route)
      match uniqueSorted (Rt_Hostnames route) with
      | [] => (b, AddInfoEvent ref "" (Text "HTTPRoute declares no hostnames; parent Gateway listener hostnames are the source of truth")
                    empty_result, None)
      | hostnames =>
          if negb (routeHostnamesMayPublish hostnames opts) then (b, empty_result, None)
          else if negb (routeStatusCurrent route) then
            (b, AddEvent ref "" (Text "HTTPRoute status is missing or stale for the current generation; suppressing cleanup until the Gateway controller reports status")
                  (MarkIncomplete SourceGateway empty_result), None)
          else if bool_decide (acceptedParentRefs route = ∅) then
            (b, AddEvent ref "" (Text "HTTPRoute has no accepted parent with resolved references") empty_result, None)
          else
            let '(r, targetsByHost) :=
              targetsForHTTPRoute route gateways (acceptedParentRefs route) hostnames empty_result ref in
            let limit := Z.min (perResource b) (remaining b) in
            let hosts := sort_strings (map_range 0 targetsByHost).*1 in
            let total := route_total opts ref targetsByHost hosts in
            if limit <? total then
              (b, AddEvent ref "" (Sprintf "HTTPRoute endpoint expansion exceeds discovery budget; rejecting the entire resource"
                                     [FormatInt total; FormatInt (Z.of_nat (length hosts))])
                    (MarkIncomplete SourceGateway r), None)
            else
              match route_append opts ref targetsByHost hosts (mkBudget limit limit (checks b)) r with
              | (staged, Err (r, err)) => (mkBudget (remaining b) (perResource b) (checks staged), r, err)
              | (staged, Ok r) =>
                  (mkBudget (remaining b - (limit - remaining staged)) (perResource b) (checks staged), r, None)
              end
      end.
End gateway.

(** ** kubernetes.go: one discovery pass *)

Inductive ListError := ErrNotSynced | ErrUnavailable | ErrList (e : string).

Definition NamespaceAll : string := "".

Definition namespacesForList (namespaces : list string) : list string :=
  match namespaces with [] => [NamespaceAll] | l => l end.

(** Slices by their service, each list sorted. *)
Definition indexEndpointSlices (slices : list EndpointSlice) : gmap string (list EndpointSlice) :=
  let service s := TrimSpace (default "" (Slice_Labels s !! LabelServiceName)) in
  sort_slice slice_less <$> group_by service (filter (fun s => service s <> "") slices).

Section discover.
Context `{Selectors} `{IDNA} `{KeyValidation} `{MapRange}.
Context (ctxErrAt : nat -> option string).

(** The API server and caches behind [KubernetesClients], per namespace. *)
Record Cluster := mkCluster {
  ListServices : string -> result string (list Service);
  listEndpointSlices : string -> result ListError (list EndpointSlice);
  ListIngresses : string -> result string (list Ingress);
  ListHTTPRoutes : string -> result ListError (list HTTPRoute);
  ListGateways : string -> result ListError (list Gateway);
  namespace_labels : string -> result string (gmap string string)
}.

Definition endpointSlicesNeeded (services : list Service) (opts : Options) : bool :=
  PublishHeadlessServices opts &&
  existsb (fun s =>
    if negb (isHeadlessService s) || bool_decide (HostnamesFromAnnotations (Svc_Annotations s) = []) then false
    else
      let decision := servicePublicationDecision s opts ServicePublicationHeadless in
      if bool_decide (decision = PublicationDeny) then false
      else EqualFold (TrimSpace (default "" (Svc_Annotations s !! AnnotationPublishHeadless))) "true"
           || bool_decide (decision = PublicationAllow)) services.

(** The slices of the namespace, or an incomplete source. *)
Definition discover_slices (cluster : Cluster) (opts : Options) (namespace : string) (services : list Service)
    (r : Discovered) : Discovered * gmap string (list EndpointSlice) :=
  if negb (endpointSlicesNeeded services opts) then (r, ∅)
  else
    let ref := mkSourceRef "" "EndpointSlice" namespace "" "" in
    match listEndpointSlices cluster namespace with
    | Ok slices => (r, indexEndpointSlices slices)
    | Err e =>
        let r := MarkIncomplete SourceService r in
        (match e with
         | ErrNotSynced => AddInfoEvent ref "" (Text "EndpointSlice informer cache is not synchronized; headless Service discovery is incomplete") r
         | ErrUnavailable => AddInfoEvent ref "" (Text "EndpointSlice resource is unavailable; headless Service discovery is incomplete") r
         | ErrList _ => AddEvent ref "" (Text "EndpointSlice list failed; headless Service discovery is incomplete") r
         end, ∅)
    end.

(** A pass is a budget, what was found so far, and an error that ends it. *)
Definition Pass : Type := endpointBudget * Discovered * option string.

(** Run [f] on the items in order, merging results, until one fails. *)
Fixpoint merge_each {A} (f : endpointBudget -> A -> Pass) (items : list A) (b : endpointBudget) (r : Discovered) : Pass :=
  match items with
  | [] => (b, r, None)
  | x :: rest =>
      let '(b, d, err) := f b x in
      match err with
      | Some e => (b, Merge r d, Some e)
      | None => merge_each f rest b (Merge r d)
      end
  end.

(** The check between services belongs to the loop of the code; its failure
    marks the source in the result of the pass. *)
Definition checked_service (opts : Options) (slicesByService : gmap string (list EndpointSlice))
    (b : endpointBudget) (s : Service) : Pass :=
  match ctxErrAt (checks b) with
  | Some err => (tick b, MarkIncomplete SourceService empty_result, Some err)
  | None => endpointsFromService ctxErrAt s (default [] (slicesByService !! Svc_Name s)) opts (tick b)
  end.

Definition discover_services (cluster : Cluster) (opts : Options) (namespace : string) (b : endpointBudget) (r : Discovered)
    : Pass :=
  if negb (SourceEnabled opts SourceService) then (b, r, None)
  else match ListServices cluster namespace with
       | Err e => (b, r, Some e)
       | Ok services =>
           let '(r, slicesByService) := discover_slices cluster opts namespace services r in
           merge_each (checked_service opts slicesByService) services b r
       end.

Definition discover_ingresses (cluster : Cluster) (opts : Options) (namespace : string) (b : endpointBudget) (r : Discovered)
    : Pass :=
  if negb (SourceEnabled opts SourceIngress) then (b, r, None)
  else match ListIngresses cluster namespace with
       | Err e => (b, r, Some e)
       | Ok ingresses => merge_each (fun b i => endpointsFromIngress ctxErrAt i opts b) ingresses b r
       end.

Fixpoint discover_namespaces (cluster : Cluster) (opts : Options) (namespaces : list string) (b : endpointBudget)
    (r : Discovered) : Pass :=
  match namespaces with
  | [] => (b, r, None)
  | namespace :: rest =>
      match ctxErrAt (checks b) with
      | Some err => (tick b, r, Some err)
      | None =>
          match discover_services cluster opts namespace (tick b) r with
          | (b, r, Some e) => (b, r, Some e)
          | (b, r, None) =>
              match discover_ingresses cluster opts namespace b r with
              | (b, r, Some e) => (b, r, Some e)
              | (b, r, None) => discover_namespaces cluster opts rest b r
              end
          end
      end
  end.

(** The routes, whether the resource is available, and the error. *)
Fixpoint discoverHTTPRoutes (cluster : Cluster) (namespaces : list string) (routes : list HTTPRoute)
    : list HTTPRoute * bool * Discovered * option string :=
  match namespaces with
  | [] => (routes, true, empty_result, None)
  | namespace :: rest =>
      match ListHTTPRoutes cluster namespace with
      | Err ErrUnavailable =>
          ([], false, AddInfoEvent (mkSourceRef "" "HTTPRoute" "" "" "") ""
                        (Text "Gateway API HTTPRoute resource is unavailable; skipping gateway source")
                        (MarkIncomplete SourceGateway empty_result), None)
      | Err ErrNotSynced => ([], false, empty_result, Some "not synchronized")
      | Err (ErrList e) => ([], false, empty_result, Some e)
      | Ok items => discoverHTTPRoutes cluster rest (routes ++ items)
      end
  end.

Definition gatewayNamespacesForList (opts : Options) (routes : list HTTPRoute) : list string :=
  match Namespaces opts with
  | [] => [NamespaceAll]
  | configured =>
      let parents := routes ≫= fun route => (fun p => default (Rt_Namespace route) (PRef_Namespace p)) <$> ParentRefs route in
      sort_strings (foldl (fun acc ns => if (ns =s "") || bool_decide (ns ∈ acc) then acc else acc ++ [ns]) []
        (configured ++ GatewayTargetNamespaces opts
         ++ filter (fun ns => (NamespaceAllowed opts ns || GatewayTargetNamespaceAllowed opts ns) = true) parents))
  end.

(** The Gateways of one namespace: index them and publish their listeners. *)
Fixpoint gateway_items (opts : Options) (items : list Gateway) (b : endpointBudget) (m : gmap string Gateway) (r : Discovered)
    : endpointBudget * option (gmap string Gateway) * Discovered * option string :=
  match items with
  | [] => (b, Some m, r, None)
  | g :: rest =>
      match ctxErrAt (checks b) with
      | Some err => (tick b, None, MarkIncomplete SourceGateway r, Some err)
      | None =>
          let '(b, d, err) := endpointsFromGateway ctxErrAt g opts (tick b) in
          match err with
          | Some e => (b, None, Merge r d, Some e)
          | None => gateway_items opts rest b (<[GatewayMapKey (GW_Namespace g) (GW_Name g) := g]> m) (Merge r d)
          end
      end
  end.

Fixpoint discoverGateways (cluster : Cluster) (opts : Options) (namespaces : list string) (b : endpointBudget)
    (m : gmap string Gateway) (r : Discovered)
    : endpointBudget * option (gmap string Gateway) * Discovered * option string :=
  match namespaces with
  | [] => (b, Some m, r, None)
  | namespace :: rest =>
      match ListGateways cluster namespace with
      | Err ErrUnavailable =>
          (b, None, AddInfoEvent (mkSourceRef "" "Gateway" "" "" "") ""
                      (Text "Gateway API Gateway resource is unavailable; skipping gateway source")
                      (MarkIncomplete SourceGateway r), None)
      | Err ErrNotSynced => (b, None, r, Some "not synchronized")
      | Err (ErrList e) => (b, None, r, Some e)
      | Ok items =>
          match gateway_items opts items b m r with
          | (b, Some m, r, None) => discoverGateways cluster opts rest b m r
          | stop => stop
          end
      end
  end.

Definition discover_gateway_source (cluster : Cluster) (opts : Options) (b : endpointBudget) (r : Discovered) : Pass :=
  let '(routes, available, routeResult, err) := discoverHTTPRoutes cluster (namespacesForList (Namespaces opts)) [] in
  let r := Merge r routeResult in
  match err with
  | Some e => (b, r, Some e)
  | None =>
      if negb available then (b, r, None)
      else
        let '(b, gatewayMap, gatewayResult, err) :=
          discoverGateways cluster opts (gatewayNamespacesForList opts routes) b ∅ empty_result in
        let r := Merge r gatewayResult in
        match err, gatewayMap with
        | Some e, _ => (b, r, Some e)
        | None, None => (b, r, None)
        | None, Some m =>
            merge_each (fun b route => endpointsFromHTTPRoute ctxErrAt (Some (namespace_labels cluster)) route m opts b)
              routes b r
        end
  end.

Definition Discover (cluster : Cluster) (opts : Options) : Pass :=
  match discover_namespaces cluster opts (namespacesForList (Namespaces opts)) (newEndpointBudget opts) empty_result with
  | (b, r, Some e) => (b, r, Some e)
  | (b, r, None) =>
      if SourceEnabled opts SourceGateway then discover_gateway_source cluster opts b r else (b, r, None)
  end.
End discover.
