(* ===== verification/SourcesLaws.v ===== *)
(** * What a discovery pass publishes

    Every endpoint of a pass lies inside the zone and the domain filters, and
    the pass stays within its budget, whatever the cluster returns and whenever
    the context ends. *)
From Stdlib Require Import String Ascii ZArith Lia.
From S2P Require Import Prelude GoStrings NetIP GoEncoding Endpoint Queue Client Policy Sources Gateways.
Open Scope string_scope.
Open Scope list_scope.
Open Scope Z_scope.
Open Scope go_scope.

(** ** Lists of names *)

Lemma uniqueSorted_spec l :
  (forall v, v ∈ uniqueSorted l <-> v <> "" /\ exists u, u ∈ l /\ v = NormalizeDNSName u) /\ NoDup (uniqueSorted l).
Proof.
  unfold uniqueSorted, sort_strings. setoid_rewrite sort_by_key_perm.
  assert (G : let st := foldl unique_step (∅, []) l in
    (forall v, v ∈ st.1 <-> v ∈ st.2) /\ NoDup st.2 /\
    forall v, v ∈ st.2 <-> v <> "" /\ exists u, u ∈ l /\ v = NormalizeDNSName u).
  { apply (foldl_ind_done (fun dn (st : gset string * list string) =>
      (forall v, v ∈ st.1 <-> v ∈ st.2) /\ NoDup st.2 /\
      forall v, v ∈ st.2 <-> v <> "" /\ exists u, u ∈ dn /\ v = NormalizeDNSName u)).
    { split; [set_solver|]. split; [constructor|]. set_solver. }
    intros dn [seen out] x _ (I1 & I2 & I3). cbn [fst snd] in *. unfold unique_step.
    assert (Hsnoc : forall v, (exists u, u ∈ dn ++ [x] /\ v = NormalizeDNSName u) <->
                     (exists u, u ∈ dn /\ v = NormalizeDNSName u) \/ v = NormalizeDNSName x).
    { intros v. setoid_rewrite elem_of_app. setoid_rewrite list_elem_of_singleton. naive_solver. }
    destruct (NormalizeDNSName x =s "") eqn:E; bools; cbn [fst snd].
    { split; [done|]. split; [done|]. intros v. rewrite I3, Hsnoc. split; [naive_solver|]. intros [Hv [Hu|Hu]]; [done|congruence]. }
    case_bool_decide as Ein; cbn [fst snd].
    - split; [done|]. split; [done|]. intros v. rewrite I3, Hsnoc. split; [naive_solver|].
      intros [Hv [Hu|Hu]]; [done|]. subst v. by apply I3, I1.
    - split; [intros v; rewrite elem_of_union, elem_of_app, elem_of_singleton, list_elem_of_singleton, I1; tauto|].
      split.
      + apply NoDup_app. split; [done|]. split; [|apply NoDup_singleton]. intros v Hv ->%list_elem_of_singleton.
        by apply Ein, I1.
      + intros v. rewrite elem_of_app, list_elem_of_singleton, I3, Hsnoc. naive_solver. }
  destruct G as (_ & Hnd & Hin). by split.
Qed.

Lemma BuildEndpoints_length h ts ttl z o s : (length (BuildEndpoints h ts ttl z o s) <= length ts)%nat.
Proof.
  unfold BuildEndpoints, sort_by_key. rewrite length_sort_slice.
  apply (foldl_ind_done (fun dn (st : gset string * list Endpoint) => (length st.2 <= length dn)%nat)); [done|].
  intros dn [seen es] t _ Hl. unfold build_step. rewrite length_app. cbn [fst snd length] in *.
  destruct (_ =s _); cbn [snd]; [lia|]. case_bool_decide; cbn [snd]; [lia|]. rewrite length_app. cbn. lia.
Qed.

(** ** Endpoints are only added by [appendEndpointForHost] *)

Lemma AddEvent_endpoints ref h m r : D_Endpoints (AddEvent ref h m r) = D_Endpoints r.
Proof. unfold AddEvent, addEvent. by destruct (_ <=? _). Qed.

Lemma AddInfoEvent_endpoints ref h m r : D_Endpoints (AddInfoEvent ref h m r) = D_Endpoints r.
Proof. unfold AddInfoEvent, addEvent. by destruct (_ <=? _). Qed.

Lemma MarkIncomplete_endpoints s r : D_Endpoints (MarkIncomplete s r) = D_Endpoints r.
Proof. unfold MarkIncomplete. by destruct (_ =s _). Qed.

Lemma Merge_endpoints r d : D_Endpoints (Merge r d) = D_Endpoints r ++ D_Endpoints d.
Proof.
  unfold Merge. cbn [D_Endpoints]. set (r1 := mkDiscovered _ _ _ _).
  change (D_Endpoints r ++ D_Endpoints d) with (D_Endpoints r1).
  unfold set_fold. cbn. induction (elements (IncompleteSources d)) as [|x l IH]; [done|].
  cbn [foldr]. by rewrite MarkIncomplete_endpoints.
Qed.

Lemma SetMetadata_endpoints ref l a r : D_Endpoints (SetMetadata ref l a r) = D_Endpoints r.
Proof. done. Qed.

Create Rewrite HintDb endpoints.
#[export] Hint Rewrite AddEvent_endpoints AddInfoEvent_endpoints MarkIncomplete_endpoints Merge_endpoints
  SetMetadata_endpoints : endpoints.

(** The names the DNS-1123 check accepts are lower case, start and end with a
    letter or digit, and have no surrounding space. *)
Class KeyValidationLaws `{KeyValidation} := {
  IsDNS1123Subdomain_canonical n : IsDNS1123Subdomain n = [] -> canonical_name n;
  IsDNS1123Subdomain_start n : IsDNS1123Subdomain n = [] -> HasPrefix n "." = false
}.

Section laws.
Context `{Selectors} `{IDNA} `{KeyValidationLaws} `{MapRange}.
Context (ctxErrAt : nat -> option string) (opts : Options).

(** What is true of every published endpoint. *)
Record published (e : Endpoint) : Prop := {
  pub_zone : Zone e = NormalizeDNSName (Opt_Zone opts);
  pub_owner : OwnerID e = Opt_OwnerID opts;
  pub_in_zone : exists p, p <> "" /\ DNSName e = p +:+ "." +:+ NormalizeDNSName (Opt_Zone opts);
  pub_domain : DomainAllowed opts (DNSName e) = true;
  pub_wildcard : is_wildcard (DNSName e) = false;
  pub_valid : validHostname (DNSName e) = true;
  pub_enabled : Disabled e = false /\ ProviderID e = "";
  pub_type : RecordType e = RecordA \/ RecordType e = RecordAAAA \/ RecordType e = RecordCNAME;
  pub_target : exists t, t <> "" /\ Targets e = [NormalizeTarget t]
}.

Definition publishable_host (h : string) : Prop :=
  canonical_name h /\ h <> "" /\ DomainAllowed opts h = true /\ validHostname h = true /\ is_wildcard h = false /\
  HostInZone opts h = true /\ h <> NormalizeDNSName (Opt_Zone opts).

Lemma validHostname_subdomain h : validHostname h = true -> is_wildcard h = false -> IsDNS1123Subdomain h = [].
Proof.
  unfold validHostname, is_wildcard. destruct (_ || _); [done|]. destruct (HasPrefix h "*.") eqn:Ep.
  { rewrite orb_true_r. done. }
  assert (Ht : TrimPrefix h "*." = h).
  { unfold TrimPrefix, HasPrefix in *. by destruct (CutPrefix h "*."). }
  rewrite Ht. destruct (_ || negb _) eqn:E; [done|]. apply orb_false_iff in E as [_ E]. apply negb_false_iff in E.
  by case_bool_decide.
Qed.

Lemma publishable_step_ok ref st h : Forall publishable_host st.2 ->
  Forall publishable_host (publishable_step opts ref st h).2 /\
  D_Endpoints (publishable_step opts ref st h).1 = D_Endpoints st.1.
Proof.
  destruct st as [r fs]. cbn [fst snd]. intros Hfs. unfold publishable_step.
  set (n := normalizeHostname h). destruct (n =s "") eqn:E1; [done|]. cbn [orb].
  destruct (DomainAllowed opts n) eqn:E2; cbn [negb]; [|done].
  destruct (validHostname n) eqn:E3; cbn [negb fst snd]; [|by autorewrite with endpoints].
  destruct (is_wildcard n) eqn:E4; cbn [fst snd]; [by autorewrite with endpoints|].
  destruct (HostInZone opts n) eqn:E5; cbn [negb fst snd]; [|by autorewrite with endpoints].
  destruct (n =s NormalizeDNSName (Opt_Zone opts)) eqn:E6; cbn [fst snd]; [by autorewrite with endpoints|].
  split; [|done]. apply Forall_app. split; [done|]. constructor; [|done]. bools.
  repeat split; try done. by apply IsDNS1123Subdomain_canonical, validHostname_subdomain.
Qed.

Lemma publishableHosts_ok r ref hs :
  Forall publishable_host (publishableHosts r opts ref hs).2 /\
  D_Endpoints (publishableHosts r opts ref hs).1 = D_Endpoints r.
Proof.
  unfold publishableHosts.
  assert (G : let st := foldl (publishable_step opts ref) (r, []) hs in
              Forall publishable_host st.2 /\ D_Endpoints st.1 = D_Endpoints r).
  { apply (foldl_ind (fun st => Forall publishable_host st.2 /\ D_Endpoints st.1 = D_Endpoints r)); [done|].
    intros st h _ [Hf He]. destruct (publishable_step_ok ref st h Hf) as [G1 G2]. split; [done|]. by rewrite G2. }
  destruct (foldl _ _ _) as [r' fs]. cbn [fst snd] in *. destruct G as [Hf He]. split; [|done].
  apply Forall_forall. intros v Hv. apply (proj1 (uniqueSorted_spec fs)) in Hv as [_ (u & Hu & ->)].
  rewrite Forall_forall in Hf. specialize (Hf u Hu). by rewrite (proj1 Hf).
Qed.

Lemma publishable_below_zone h : publishable_host h ->
  exists p, p <> "" /\ h = p +:+ "." +:+ NormalizeDNSName (Opt_Zone opts).
Proof.
  intros (Hc & _ & _ & Hv & Hw & Hz & Hne). unfold HostInZone in Hz. destruct (_ =s ""); [done|].
  rewrite Hc in Hz. unfold same_or_under in Hz. apply orb_true_iff in Hz as [E|E]; [by bools|].
  apply HasSuffix_spec in E as [p E]. exists p. split; [|done]. intros ->.
  pose proof (IsDNS1123Subdomain_start h (validHostname_subdomain h Hv Hw)) as Hd. by rewrite E in Hd.
Qed.

Lemma endpoint_for_published h ttl ref t : publishable_host h -> NormalizeTarget t <> "" ->
  published (endpoint_for h ttl (Opt_Zone opts) (Opt_OwnerID opts) ref (NormalizeTarget t)).
Proof.
  intros Hh Hne. pose proof (publishable_below_zone h Hh) as Hz. destruct Hh as (Hc & Hn & Hd & Hv & Hw & _).
  assert (Hname : DNSName (endpoint_for h ttl (Opt_Zone opts) (Opt_OwnerID opts) ref (NormalizeTarget t)) = h).
  { change (NormalizeDNSName (NormalizeDNSName h) = h). unfold canonical_name in Hc. by rewrite !Hc. }
  split; rewrite ?Hname; try done.
  - change (ToUpper (TrimSpace (RecordTypeForTarget (NormalizeTarget t))) = RecordA \/
            ToUpper (TrimSpace (RecordTypeForTarget (NormalizeTarget t))) = RecordAAAA \/
            ToUpper (TrimSpace (RecordTypeForTarget (NormalizeTarget t))) = RecordCNAME).
    rewrite (proj1 (RecordTypeForTarget_upper _)). apply RecordTypeForTarget_cases.
  - exists (NormalizeTarget t). done.
Qed.

Lemma appendEndpointForHost_ok ref h ts ttl r : publishable_host h ->
  exists es, D_Endpoints (appendEndpointForHost opts ref h ts ttl r) = D_Endpoints r ++ es /\
    Forall published es /\ (length es <= length ts)%nat.
Proof.
  intros Hh. unfold appendEndpointForHost.
  assert (Hnil : forall r', D_Endpoints r' = D_Endpoints r ->
    exists es, D_Endpoints r' = D_Endpoints r ++ es /\ Forall published es /\ (length es <= length ts)%nat).
  { intros r' E. exists []. rewrite app_nil_r. split; [done|]. split; [constructor|cbn; lia]. }
  rewrite (proj1 Hh). destruct (_ =s _); [by apply Hnil|]. destruct (DomainAllowed opts h); cbn [negb]; [|by apply Hnil].
  destruct (is_wildcard h); [apply Hnil; by autorewrite with endpoints|].
  destruct (HostInZone opts h); cbn [negb]; [|apply Hnil; by autorewrite with endpoints].
  destruct ts as [|t0 ts]; [apply Hnil; by autorewrite with endpoints|]. eexists. split; [reflexivity|].
  split; [|apply BuildEndpoints_length]. apply Forall_forall. intros e He.
  apply BuildEndpoints_elem in He as (t & _ & Hne & ->). by apply endpoint_for_published.
Qed.

(** ** The budget *)

Definition budget_ok (b : endpointBudget) : Prop := 0 <= remaining b /\ 0 <= perResource b.

(** [es] was published while the budget went from [b] to [b']. *)
Record spent (b b' : endpointBudget) (es : list Endpoint) : Prop := {
  sp_published : Forall published es;
  sp_count : Z.of_nat (length es) <= remaining b - remaining b';
  sp_remaining : 0 <= remaining b';
  sp_per : perResource b' = perResource b
}.

Definition pass_ok (b : endpointBudget) (r : Discovered) (out : Pass) : Prop :=
  exists es, D_Endpoints out.1.2 = D_Endpoints r ++ es /\ spent b out.1.1 es.

Lemma spent_nil b b' : budget_ok b -> remaining b' = remaining b -> perResource b' = perResource b -> spent b b' [].
Proof. intros [? ?] E1 E2. split; [constructor|cbn; lia|lia|done]. Qed.

Lemma spent_app b b1 b2 es1 es2 : spent b b1 es1 -> spent b1 b2 es2 -> spent b b2 (es1 ++ es2).
Proof.
  intros [A1 A2 A3 A4] [B1 B2 B3 B4]. split; [by apply Forall_app|rewrite length_app; lia|done|congruence].
Qed.

Lemma spent_budget b b' es : budget_ok b -> spent b b' es -> budget_ok b'.
Proof. intros [? ?] [_ _ ? E]. split; [done|lia]. Qed.

Lemma pass_same b b' r r' e : budget_ok b -> remaining b' = remaining b -> perResource b' = perResource b ->
  D_Endpoints r' = D_Endpoints r -> pass_ok b r (b', r', e).
Proof. intros Hb E1 E2 E. exists []. rewrite app_nil_r. split; [done|]. by apply spent_nil. Qed.

Lemma append_hosts_ok source ref hosts ts ttl : forall b r, Forall publishable_host hosts ->
  exists es, D_Endpoints (append_hosts ctxErrAt opts source ref hosts ts ttl b r).1.2 = D_Endpoints r ++ es /\
    Forall published es /\ (length es <= length hosts * length ts)%nat /\
    remaining (append_hosts ctxErrAt opts source ref hosts ts ttl b r).1.1 = remaining b /\
    perResource (append_hosts ctxErrAt opts source ref hosts ts ttl b r).1.1 = perResource b.
Proof.
  induction hosts as [|h hosts IH]; intros b r Hh; cbn [append_hosts].
  { exists []. rewrite app_nil_r. split; [done|]. split; [constructor|]. done. }
  apply Forall_cons in Hh as [Hh Hhs]. destruct (ctxErrAt (checks b)) as [err|].
  { exists []. cbn [fst snd]. autorewrite with endpoints. rewrite app_nil_r. split; [done|]. split; [constructor|]. cbn. split; [lia|done]. }
  destruct (appendEndpointForHost_ok ref h ts ttl r Hh) as (es1 & E1 & P1 & L1).
  destruct (IH (tick b) (appendEndpointForHost opts ref h ts ttl r) Hhs) as (es2 & E2 & P2 & L2 & R2).
  exists (es1 ++ es2). rewrite E2, E1, app_assoc. split; [done|]. split; [by apply Forall_app|].
  split; [|done]. rewrite length_app. cbn. lia.
Qed.

(** The expansion fits into both limits when the resource is not rejected. *)
Lemma quot_fits a n m : 0 <= a -> 0 < n -> (Z.quot a n <? m) = false -> m * n <= a.
Proof.
  intros Ha Hn Hq. apply Z.ltb_ge in Hq. pose proof (Z.mul_quot_le a n Ha ltac:(lia)). nia.
Qed.

Lemma appendSource_ok source ref hs ts ttl b r : budget_ok b ->
  let out := appendSource ctxErrAt b r opts source ref hs ts ttl in
  exists es, D_Endpoints out.1.2 = D_Endpoints r ++ es /\ spent b out.1.1 es /\ Z.of_nat (length es) <= perResource b.
Proof.
  intros Hb. unfold appendSource. destruct (ctxErrAt (checks b)) as [err|]; cbv zeta.
  { exists []. cbn [fst snd]. autorewrite with endpoints. rewrite app_nil_r. split; [done|].
    split; [by apply spent_nil|]. cbn. apply Hb. }
  destruct (publishableHosts_ok r ref hs) as [Hh He]. destruct (publishableHosts r opts ref hs) as [r1 hosts].
  cbn [fst snd] in *. set (ut := uniqueSorted ts).
  destruct (_ && _) eqn:Et.
  { exists []. cbn [fst snd]. autorewrite with endpoints. rewrite app_nil_r. split; [done|].
    split; [by apply spent_nil|]. cbn. apply Hb. }
  assert (Hfit : Z.of_nat (length hosts * length ut) <= remaining b /\ Z.of_nat (length hosts * length ut) <= perResource b).
  { destruct Hb as [Hb1 Hb2]. rewrite Nat2Z.inj_mul. destruct (Z.ltb_spec 0 (Z.of_nat (length ut))) as [Hp|Hp]; cbn [andb] in Et.
    - apply orb_false_iff in Et as [E1 E2]. cbn [remaining perResource tick] in *.
      split; by apply quot_fits.
    - assert (length ut = O) as -> by lia. rewrite Z.mul_0_r. done. }
  cbn [remaining perResource tick checks].
  destruct (append_hosts_ok source ref hosts ut ttl (mkBudget (remaining b - Z.of_nat (length hosts) * Z.of_nat (length ut)) (perResource b) (S (checks b))) r1 Hh)
    as (es & E & P & L & R & Q).
  exists es. rewrite E, He. split; [done|]. rewrite Nat2Z.inj_mul in Hfit. destruct Hb as [Hb1 Hb2].
  split; [|lia]. split; [done|rewrite R; cbn; lia|rewrite R; cbn; lia|by rewrite Q].
Qed.

(** ** Resources *)

Definition resource_ok (b : endpointBudget) (out : Pass) : Prop :=
  spent b out.1.1 (D_Endpoints out.1.2) /\ Z.of_nat (length (D_Endpoints out.1.2)) <= perResource b.

Lemma resource_empty b r e : budget_ok b -> D_Endpoints r = [] -> resource_ok b (b, r, e).
Proof. intros Hb E. split; cbn [fst snd]; rewrite E; [by apply spent_nil|cbn; apply Hb]. Qed.

Lemma resource_append source ref hs ts ttl b r : budget_ok b -> D_Endpoints r = [] ->
  resource_ok b (appendSource ctxErrAt b r opts source ref hs ts ttl).
Proof.
  intros Hb E. destruct (appendSource_ok source ref hs ts ttl b r Hb) as (es & He & Hs & Hl).
  rewrite E in He. cbn in He. split; by rewrite He.
Qed.

Lemma resource_metadata b ref l a out : resource_ok b out -> resource_ok b (with_metadata ref l a out).
Proof.
  destruct out as [[b' d] e]. unfold with_metadata, resource_ok. cbn [fst snd].
  assert (E : D_Endpoints (match D_Endpoints d with [] => d | _ => SetMetadata ref l a d end) = D_Endpoints d)
    by (by destruct (D_Endpoints d) eqn:E). by rewrite E.
Qed.

Lemma resource_merge b out : resource_ok b out ->
  resource_ok b (let '(b', d, e) := out in (b', Merge empty_result d, e)).
Proof. destruct out as [[b' d] e]. unfold resource_ok. cbn [fst snd]. autorewrite with endpoints. done. Qed.

Lemma ttl_or_default_endpoints a ref r : D_Endpoints (ttl_or_default a opts ref r).1 = D_Endpoints r.
Proof. unfold ttl_or_default. destruct (TTLFromAnnotations _ _); cbn [fst]; [done|apply AddEvent_endpoints]. Qed.

Lemma lb_fold_endpoints f ref items : forall st, D_Endpoints (foldl (lb_step f ref) st items).1.1 = D_Endpoints st.1.1.
Proof.
  induction items as [|i items IH]; intros st; [done|]. cbn [foldl]. rewrite IH. destruct st as [[r hs] ips].
  unfold lb_step. destruct (negb _); [destruct (validTargetHostname _)|destruct (negb _)]; cbn [fst]; try done.
  apply AddEvent_endpoints.
Qed.

Lemma serviceTargets_endpoints s r ref : D_Endpoints (serviceTargets s r ref).1 = D_Endpoints r.
Proof.
  unfold serviceTargets. destruct (_ =s _); [|done].
  pose proof (lb_fold_endpoints "LoadBalancer hostname is not a valid DNS hostname; skipping" ref (Svc_LoadBalancer s) (r, [], ExternalIPs s)) as E.
  by destruct (foldl _ _ _) as [[? ?] ?].
Qed.

Lemma ingressTargets_endpoints i r ref : D_Endpoints (ingressTargets i r ref).1 = D_Endpoints r.
Proof.
  unfold ingressTargets.
  pose proof (lb_fold_endpoints "Ingress load balancer hostname is not a valid DNS hostname; skipping" ref (Ing_LoadBalancer i) (r, [], [])) as E.
  by destruct (foldl _ _ _) as [[? ?] ?].
Qed.

Lemma headlessTargets_endpoints s slices ref : D_Endpoints (headlessTargets s slices ref).2 = [].
Proof.
  unfold headlessTargets. cbn [snd]. apply (foldl_ind (fun st => D_Endpoints (scan_result st) = [])); [done|].
  intros st sl _ Hst. unfold slice_step. destruct (_ || _); [done|]. destruct (_ && _).
  { destruct (unsupportedTypeReported st); [done|]. cbn. by rewrite AddEvent_endpoints. }
  apply (foldl_ind (fun st => D_Endpoints (scan_result st) = [])); [done|]. intros st' a _ Hst'.
  unfold address_step. destruct (match ParseIP _ with Some _ => _ | None => _ end).
  - by case_bool_decide.
  - destruct (invalidFamilyReported st'); [done|]. cbn. by rewrite AddEvent_endpoints.
Qed.

Lemma endpointsFromExternalNameService_ok s hs ref b : budget_ok b ->
  resource_ok b (endpointsFromExternalNameService ctxErrAt s hs opts ref b).
Proof.
  intros Hb. unfold endpointsFromExternalNameService.
  repeat match goal with |- resource_ok _ (if ?c then _ else _) =>
    destruct c; [apply resource_empty; [done|]; by autorewrite with endpoints|] end.
  pose proof (ttl_or_default_endpoints (Svc_Annotations s) ref empty_result) as E.
  destruct (ttl_or_default _ _ _ _) as [r ttl]. by apply resource_append.
Qed.

Lemma endpointsFromHeadlessService_ok s slices hs ref b : budget_ok b ->
  resource_ok b (endpointsFromHeadlessService ctxErrAt s slices hs opts ref b).
Proof.
  intros Hb. unfold endpointsFromHeadlessService.
  destruct (negb (PublishHeadlessServices opts)).
  { apply resource_empty; [done|]. destruct (_ || _); by autorewrite with endpoints. }
  repeat match goal with |- resource_ok _ (if ?c then _ else _) =>
    destruct c; [apply resource_empty; [done|]; by autorewrite with endpoints|] end.
  pose proof (ttl_or_default_endpoints (Svc_Annotations s) ref empty_result) as E.
  destruct (ttl_or_default _ _ _ _) as [r ttl]. cbn [fst] in E.
  pose proof (headlessTargets_endpoints s slices ref) as Eh. destruct (headlessTargets _ _ _) as [ts d]. cbn [snd] in Eh.
  assert (Em : D_Endpoints (Merge r d) = []) by (autorewrite with endpoints; by rewrite E, Eh).
  destruct ts; [apply resource_empty; [done|]; by rewrite AddEvent_endpoints|]. by apply resource_append.
Qed.

Lemma endpointsFromService_ok s slices b : budget_ok b -> resource_ok b (endpointsFromService ctxErrAt s slices opts b).
Proof.
  intros Hb. unfold endpointsFromService. destruct (_ || _); [by apply resource_empty|]. apply resource_metadata.
  destruct (HostnamesFromAnnotations _) as [|h hs]; [by apply resource_empty|].
  destruct (_ =s _); [by apply resource_merge, endpointsFromExternalNameService_ok|].
  destruct (isHeadlessService s); [by apply resource_merge, endpointsFromHeadlessService_ok|].
  pose proof (ttl_or_default_endpoints (Svc_Annotations s) (service_ref s) empty_result) as E.
  destruct (ttl_or_default _ _ _ _) as [r ttl]. cbn [fst] in E.
  pose proof (serviceTargets_endpoints s r (service_ref s)) as Es. destruct (serviceTargets _ _ _) as [r' ts]. cbn [fst] in Es.
  rewrite E in Es. destruct ts; [|by apply resource_append].
  apply resource_empty; [done|]. by destruct (_ =s _); autorewrite with endpoints.
Qed.

Lemma endpointsFromIngress_ok i b : budget_ok b -> resource_ok b (endpointsFromIngress ctxErrAt i opts b).
Proof.
  intros Hb. unfold endpointsFromIngress. destruct (_ || _); [by apply resource_empty|]. apply resource_metadata.
  destruct (uniqueSorted _) as [|h hs]; [by apply resource_empty|].
  pose proof (ttl_or_default_endpoints (Ing_Annotations i) (ingress_ref i) empty_result) as E.
  destruct (ttl_or_default _ _ _ _) as [r ttl]. cbn [fst] in E.
  pose proof (ingressTargets_endpoints i r (ingress_ref i)) as Es. destruct (ingressTargets _ _ _) as [r' ts]. cbn [fst] in Es.
  rewrite E in Es. by apply resource_append.
Qed.

(** ** Gateways and routes *)

Lemma collectGatewayTargets_endpoints g r : D_Endpoints (collectGatewayTargets g r).1 = D_Endpoints r.
Proof.
  unfold collectGatewayTargets.
  apply (foldl_ind (fun st => D_Endpoints st.1 = D_Endpoints r)); [done|]. intros [r' t] a _ E. cbn [fst] in E.
  unfold collect_step. destruct (_ =s _); [destruct (ParseIP _)|destruct (_ =s _); [destruct (_ && _)|]]; cbn [fst];
    autorewrite with endpoints; done.
Qed.

Lemma endpointsFromGateway_ok g b : budget_ok b -> resource_ok b (endpointsFromGateway ctxErrAt g opts b).
Proof.
  intros Hb. unfold endpointsFromGateway. destruct (_ || _); [by apply resource_empty|]. apply resource_metadata.
  destruct (uniqueSorted _) as [|h hs]; [by apply resource_empty|].
  pose proof (collectGatewayTargets_endpoints g empty_result) as E. destruct (collectGatewayTargets _ _) as [r t].
  by apply resource_append.
Qed.

Lemma targetsForHTTPRoute_endpoints nl route gws acc hs r ref :
  D_Endpoints (targetsForHTTPRoute nl route gws acc hs r ref).1 = D_Endpoints r.
Proof.
  unfold targetsForHTTPRoute.
  assert (G : D_Endpoints (foldl (parent_step nl route gws acc hs ref) (r, ∅, ∅) (ParentRefs route)).1.1 = D_Endpoints r).
  { apply (foldl_ind (fun st : Discovered * gmap string gatewayAddressTargets * gset string => D_Endpoints st.1.1 = D_Endpoints r)); [done|].
    intros [[r1 tb] mh] p _ E. cbn [fst] in E. unfold parent_step. destruct (negb _); [done|]. destruct (negb _); [done|].
    destruct (gws !! _) as [g|]; [|done].
    pose proof (collectGatewayTargets_endpoints g r1) as Ec. destruct (collectGatewayTargets g r1) as [r2 ts]. cbn [fst] in Ec.
    assert (G : D_Endpoints (foldl (listener_step nl g route ref hs) (r2, ∅, mh) (attachedListeners g p)).1.1 = D_Endpoints r2).
    { apply (foldl_ind (fun st : Discovered * gset string * gset string => D_Endpoints st.1.1 = D_Endpoints r2)); [done|].
      intros [[r3 ph] mh'] l _ E3. cbn [fst] in E3. unfold listener_step.
      destruct (listenerAllowsHTTPRoute _ _ _ _) as [[]|]; cbn [fst]; autorewrite with endpoints; try done.
      apply (foldl_ind (fun st : Discovered * gset string * gset string => D_Endpoints st.1.1 = D_Endpoints r2)); [done|].
      intros [[r4 ph4] mh4] h _ E4. by destruct (intersectHostname _ _). }
    destruct (foldl _ _ _) as [[r3 ph] mh']. cbn [fst] in *. congruence. }
  destruct (foldl _ _ _) as [[r1 tb] mh]. cbn [fst] in *.
  apply (foldl_ind (fun st => D_Endpoints st = D_Endpoints r)); [done|]. intros st h _ E.
  case_bool_decide; [done|]. by autorewrite with endpoints.
Qed.

Lemma route_append_ok ref tb hosts : forall staged r, budget_ok staged ->
  let out := route_append ctxErrAt opts ref tb hosts staged r in
  match out.2 with
  | Ok r' => exists es, D_Endpoints r' = D_Endpoints r ++ es /\ spent staged out.1 es
  | Err (r', _) => D_Endpoints r' = []
  end.
Proof.
  induction hosts as [|h hosts IH]; intros staged r Hb; cbn [route_append].
  { exists []. rewrite app_nil_r. split; [done|]. by apply spent_nil. }
  destruct (appendSource_ok SourceGateway ref [h] (host_values tb h) (DefaultTTL opts) staged r Hb) as (es & E & Hs & _).
  destruct (appendSource _ _ _ _ _ _ _ _ _) as [[b1 r1] err]. cbn [fst snd] in *. destruct (_ || _); [done|].
  pose proof (IH b1 r1 (spent_budget _ _ _ Hb Hs)) as IH1. destruct (route_append _ _ _ _ _ _ _) as [b2 [r2|[r2 e2]]]; [|done].
  cbn [fst snd] in *. destruct IH1 as (es2 & E2 & Hs2). exists (es ++ es2). rewrite E2, E, app_assoc.
  split; [done|]. by eapply spent_app.
Qed.

Lemma endpointsFromHTTPRoute_ok nl route gws b : budget_ok b ->
  resource_ok b (endpointsFromHTTPRoute ctxErrAt nl route gws opts b).
Proof.
  intros Hb. unfold endpointsFromHTTPRoute. destruct (_ || _); [by apply resource_empty|]. apply resource_metadata.
  destruct (uniqueSorted _) as [|h hs]; [apply resource_empty; [done|]; by autorewrite with endpoints|].
  destruct (negb _); [by apply resource_empty|].
  destruct (negb _); [apply resource_empty; [done|]; by autorewrite with endpoints|].
  destruct (bool_decide _); [apply resource_empty; [done|]; by autorewrite with endpoints|].
  pose proof (targetsForHTTPRoute_endpoints nl route gws (acceptedParentRefs route) (h :: hs) empty_result (route_ref route)) as E.
  destruct (targetsForHTTPRoute _ _ _ _ _ _ _) as [r tb]. cbn [fst] in E. cbv zeta.
  set (limit := Z.min (perResource b) (remaining b)). set (hosts := sort_strings _).
  destruct (limit <? _); [apply resource_empty; [done|]; by autorewrite with endpoints|].
  destruct Hb as [Hb1 Hb2]. assert (Hs : budget_ok (mkBudget limit limit (checks b))) by (unfold limit; split; cbn; lia).
  pose proof (route_append_ok (route_ref route) tb hosts _ r Hs) as Hr.
  destruct (route_append _ _ _ _ _ _ _) as [staged [r2|[r2 err]]]; cbn [fst snd] in Hr.
  - destruct Hr as (es & E2 & [P C R Q]). rewrite E in E2. cbn in E2. cbn [remaining perResource] in *.
    unfold resource_ok. cbn [fst snd]. rewrite E2. split; [|cbn; unfold limit in *; lia].
    split; cbn; [done|unfold limit in *; lia|unfold limit in *; lia|done].
  - unfold resource_ok. cbn [fst snd]. rewrite Hr. split; [by apply spent_nil|]. cbn. done.
Qed.

(** ** The pass *)

Lemma resource_pass b r b' d e : resource_ok b (b', d, e) -> pass_ok b r (b', Merge r d, e).
Proof. intros [Hs _]. exists (D_Endpoints d). cbn [fst snd]. split; [by autorewrite with endpoints|exact Hs]. Qed.

Lemma pass_tick b r out : pass_ok (tick b) r out -> pass_ok b r out.
Proof. intros (es & E & [P C R Q]). exists es. by split. Qed.

Lemma pass_then b r b1 r1 e1 out : budget_ok b -> pass_ok b r (b1, r1, e1) -> (budget_ok b1 -> pass_ok b1 r1 out) -> pass_ok b r out.
Proof.
  intros Hb (es1 & E1 & S1) Hout. destruct (Hout (spent_budget _ _ _ Hb S1)) as (es2 & E2 & S2). cbn [fst snd] in *.
  exists (es1 ++ es2). rewrite E2, E1, app_assoc. split; [done|]. by eapply spent_app.
Qed.

Lemma merge_each_ok {A} (f : endpointBudget -> A -> Pass) items : forall b r, budget_ok b ->
  (forall b x, budget_ok b -> exists b0, remaining b0 = remaining b /\ perResource b0 = perResource b /\ resource_ok b0 (f b x)) ->
  pass_ok b r (merge_each f items b r).
Proof.
  induction items as [|x items IH]; intros b r Hb Hf; cbn [merge_each]; [by apply pass_same|].
  destruct (Hf b x Hb) as (b0 & Er & Ep & Hx). destruct (f b x) as [[b1 d] err].
  assert (Hp : pass_ok b r (b1, Merge r d, err)).
  { destruct (resource_pass b0 r b1 d err Hx) as (es & E & [P C R Q]). exists es. split; [done|].
    cbn [fst snd] in *. split; [done|lia|done|congruence]. }
  destruct err as [e|]; [done|]. eapply pass_then; [done|exact Hp|]. intros Hb1. by apply IH.
Qed.

Lemma checked_service_ok sl b s : budget_ok b ->
  exists b0, remaining b0 = remaining b /\ perResource b0 = perResource b /\ resource_ok b0 (checked_service ctxErrAt opts sl b s).
Proof.
  intros Hb. exists (tick b). split; [done|]. split; [done|]. unfold checked_service. destruct (ctxErrAt _).
  - apply resource_empty; [done|]. by autorewrite with endpoints.
  - by apply endpointsFromService_ok.
Qed.

Lemma discover_services_ok c ns b r : budget_ok b -> pass_ok b r (discover_services ctxErrAt c opts ns b r).
Proof.
  intros Hb. unfold discover_services. destruct (negb _); [by apply pass_same|].
  destruct (ListServices c ns) as [services|e]; [|by apply pass_same].
  assert (E : D_Endpoints (discover_slices c opts ns services r).1 = D_Endpoints r).
  { unfold discover_slices. destruct (negb _); [done|]. destruct (listEndpointSlices c ns) as [|[]]; cbn [fst];
      by autorewrite with endpoints. }
  destruct (discover_slices _ _ _ _ _) as [r1 sl]. cbn [fst] in E.
  destruct (merge_each_ok (checked_service ctxErrAt opts sl) services b r1 Hb) as (es & E2 & S2);
    [intros; by apply checked_service_ok|]. exists es. by rewrite E2, E.
Qed.

Lemma discover_ingresses_ok c ns b r : budget_ok b -> pass_ok b r (discover_ingresses ctxErrAt c opts ns b r).
Proof.
  intros Hb. unfold discover_ingresses. destruct (negb _); [by apply pass_same|].
  destruct (ListIngresses c ns); [|by apply pass_same]. apply merge_each_ok; [done|].
  intros b0 x Hb0. exists b0. split; [done|]. split; [done|]. by apply endpointsFromIngress_ok.
Qed.

Lemma discover_namespaces_ok c nss : forall b r, budget_ok b -> pass_ok b r (discover_namespaces ctxErrAt c opts nss b r).
Proof.
  induction nss as [|ns nss IH]; intros b r Hb; cbn [discover_namespaces]; [by apply pass_same|].
  destruct (ctxErrAt _); [by apply pass_same|].
  pose proof (discover_services_ok c ns (tick b) r Hb) as Hsv%pass_tick. destruct (discover_services _ _ _ _ _ _) as [[b1 r1] [e1|]]; [exact Hsv|].
  eapply (pass_then b r); [done|exact Hsv|]. intros Hb1.
  pose proof (discover_ingresses_ok c ns b1 r1 Hb1) as H2'. destruct (discover_ingresses _ _ _ _ _ _) as [[b2 r2] [e2|]]; [exact H2'|].
  eapply pass_then; [done|exact H2'|]. intros Hb2. by apply IH.
Qed.

Lemma discoverHTTPRoutes_endpoints c nss : forall rs, D_Endpoints (discoverHTTPRoutes c nss rs).1.2 = [].
Proof.
  induction nss as [|ns nss IH]; intros rs; cbn [discoverHTTPRoutes]; [done|].
  destruct (ListHTTPRoutes c ns) as [|[]]; cbn [fst snd]; autorewrite with endpoints; done.
Qed.

Lemma gateway_items_ok items : forall b m r, budget_ok b ->
  let out := gateway_items ctxErrAt opts items b m r in pass_ok b r (out.1.1.1, out.1.2, out.2).
Proof.
  induction items as [|g items IH]; intros b m r Hb; cbn [gateway_items]; [by apply pass_same|].
  destruct (ctxErrAt _); [apply pass_same; try done; by autorewrite with endpoints|].
  pose proof (endpointsFromGateway_ok g (tick b) Hb) as Hg. destruct (endpointsFromGateway _ _ _ _) as [[b1 d] err].
  assert (Hp : pass_ok b r (b1, Merge r d, err)) by exact (pass_tick _ _ _ (resource_pass (tick b) r b1 d err Hg)).
  destruct err; [exact Hp|]. eapply pass_then; [done|exact Hp|]. intros Hb1. by apply IH.
Qed.

Lemma discoverGateways_ok c nss : forall b m r, budget_ok b ->
  let out := discoverGateways ctxErrAt c opts nss b m r in pass_ok b r (out.1.1.1, out.1.2, out.2).
Proof.
  induction nss as [|ns nss IH]; intros b m r Hb; cbn [discoverGateways]; [by apply pass_same|].
  destruct (ListGateways c ns) as [items|[]]; cbn [fst snd];
    try (apply pass_same; try done; by autorewrite with endpoints).
  pose proof (gateway_items_ok items b m r Hb) as Hg. destruct (gateway_items _ _ _ _ _ _) as [[[b1 m1] r1] e1].
  destruct m1 as [m1|]; [|exact Hg]. destruct e1; [exact Hg|]. eapply pass_then; [done|exact Hg|]. intros Hb1. by apply IH.
Qed.

Lemma discover_gateway_source_ok c b r : budget_ok b -> pass_ok b r (discover_gateway_source ctxErrAt c opts b r).
Proof.
  intros Hb. unfold discover_gateway_source.
  pose proof (discoverHTTPRoutes_endpoints c (namespacesForList (Namespaces opts)) []) as Er.
  destruct (discoverHTTPRoutes _ _ _) as [[[routes av] rr] err]. cbn [fst snd] in Er.
  assert (Em : D_Endpoints (Merge r rr) = D_Endpoints r) by (autorewrite with endpoints; by rewrite Er, app_nil_r).
  destruct err; [by apply pass_same|]. destruct (negb av); [by apply pass_same|].
  pose proof (discoverGateways_ok c (gatewayNamespacesForList opts routes) b ∅ empty_result Hb) as (es & E & Hs).
  destruct (discoverGateways _ _ _ _ _ _ _) as [[[b1 gm] gr] err]. cbn [fst snd] in *. cbn in E.
  assert (Hp : forall e, pass_ok b r (b1, Merge (Merge r rr) gr, e)).
  { intros e. exists es. cbn [fst snd]. rewrite Merge_endpoints, Em, E. done. }
  destruct err; [apply Hp|]. destruct gm as [m|]; [|apply Hp].
  eapply (pass_then b r); [done|apply (Hp None)|]. intros Hb1. apply merge_each_ok; [done|].
  intros b0 x Hb0. exists b0. split; [done|]. split; [done|]. by apply endpointsFromHTTPRoute_ok.
Qed.

Lemma newEndpointBudget_ok : budget_ok (newEndpointBudget opts).
Proof.
  unfold newEndpointBudget, budget_ok, DefaultMaxEndpointsPerDiscovery, DefaultMaxEndpointsPerResource. cbn.
  split; destruct (Z.leb_spec (MaxEndpointsPerDiscovery opts) 0), (Z.leb_spec (MaxEndpointsPerResource opts) 0); lia.
Qed.

Lemma Discover_ok c : pass_ok (newEndpointBudget opts) empty_result (Discover ctxErrAt c opts).
Proof.
  unfold Discover. pose proof newEndpointBudget_ok as Hb.
  pose proof (discover_namespaces_ok c (namespacesForList (Namespaces opts)) (newEndpointBudget opts) empty_result Hb) as Hd.
  destruct (discover_namespaces _ _ _ _ _ _) as [[b r] [e|]]; [exact Hd|].
  destruct (SourceEnabled opts SourceGateway); [|exact Hd].
  eapply pass_then; [done|exact Hd|]. intros Hb1. by apply discover_gateway_source_ok.
Qed.
End laws.

(** C30. Discovery publishes nothing outside its authority: every endpoint of a
    pass is a valid, non-wildcard name strictly below the configured zone and
    inside the domain filters, owned by this controller, enabled, of type A,
    AAAA or CNAME with one target -- whatever the cluster returns, and also in
    a pass that the context or an error ends early. *)
Theorem Discover_in_scope `{Selectors} `{IDNA} `{KeyValidationLaws} `{MapRange} ctxErrAt cluster opts e :
  e ∈ D_Endpoints (Discover ctxErrAt cluster opts).1.2 -> published opts e.
Proof.
  destruct (Discover_ok ctxErrAt opts cluster) as (es & E & [P _ _ _]). rewrite E. cbn.
  rewrite Forall_forall in P. apply P.
Qed.

(** Discovery is bounded: a pass publishes at most the configured number of
    endpoints (ten thousand by default). *)
Theorem Discover_bounded `{Selectors} `{IDNA} `{KeyValidationLaws} `{MapRange} ctxErrAt cluster opts :
  Z.of_nat (length (D_Endpoints (Discover ctxErrAt cluster opts).1.2)) <=
  (if MaxEndpointsPerDiscovery opts <=? 0 then DefaultMaxEndpointsPerDiscovery else MaxEndpointsPerDiscovery opts).
Proof.
  destruct (Discover_ok ctxErrAt opts cluster) as (es & E & [_ C R _]). rewrite E. cbn [app D_Endpoints empty_result].
  unfold newEndpointBudget in C. cbn [remaining] in C. lia.
Qed.

(** One resource cannot exhaust a pass: an HTTPRoute publishes at most the
    per-resource limit, across all its hostnames and parents. *)
Theorem route_bounded `{Selectors} `{IDNA} `{KeyValidationLaws} `{MapRange} ctxErrAt nl route gws opts b :
  0 <= remaining b -> 0 <= perResource b ->
  Z.of_nat (length (D_Endpoints (endpointsFromHTTPRoute ctxErrAt nl route gws opts b).1.2)) <= perResource b.
Proof. intros Hr Hp. by apply endpointsFromHTTPRoute_ok. Qed.
