(* ===== verification/ChangePlans.v ===== *)
(** * internal/plan/store.go, crd.go, file.go: stored plans and their approval

    A [FortiGateDNSChangePlan] object holds the canonical bytes of a document,
    its hash, summaries, and a status whose phase is the state machine of a
    plan.  The API server behind the dynamic client is the interface [PlanAPI]
    on a world state; decoding the stored JSON is its field [UnmarshalDocument].
    Times are nanoseconds. *)
From Stdlib Require Import String Ascii ZArith Lia.
From S2P Require Import Prelude Effects GoStrings NetIP GoEncoding Endpoint Plan Document DocumentGraph Executor.
Open Scope string_scope.
Open Scope list_scope.
Open Scope Z_scope.
Open Scope go_scope.

(** ** Data *)

(** The seven phases; [NoPhase] is the empty string of a new object. *)
Inductive ChangePlanPhase :=
| NoPhase | ChangePlanPendingApproval | ChangePlanApproved | ChangePlanApplying | ChangePlanSucceeded | ChangePlanFailed
| ChangePlanStale | ChangePlanInterrupted.

#[export] Instance ChangePlanPhase_eq_dec : EqDecision ChangePlanPhase.
Proof. solve_decision. Defined.

Definition ApprovalHashAnnotation : string := "fortigate-external-dns.kgskr.io/approved-plan-hash".

Record PlanOperation := mkPlanOperation {
  POp_ID : string; POp_Type : string; POp_Name : string; POp_RecordType : string; POp_Target : string; POp_TTL : Z;
  POp_Status : string; POp_ProviderID : string; POp_Prerequisites : list string }.

#[export] Instance PlanOperation_eq_dec : EqDecision PlanOperation.
Proof. solve_decision. Defined.

Record ChangePlanSpec := mkPlanSpec {
  SchemaVersion : string; TargetRefName : string; PlanHash : string; CanonicalDocument : string;
  ProviderRevision : string; DiscoveryGeneration : Z; PolicyGeneration : Z;
  OwnershipResourceVersions : gmap string string; Spec_Operations : list PlanOperation; ExpiresAt : option Z }.

Record OutcomeSummary := mkOutcomeSummary { Sum_OperationID : string; Sum_Result : string; Sum_Reason : string }.

Record ChangePlanStatus := mkPlanStatus {
  Phase : ChangePlanPhase; Status_ObservedGeneration : Z; Outcomes : list OutcomeSummary; CompletedAt : option Z }.

Record ChangePlan := mkChangePlan {
  CP_Namespace : string; CP_Name : string; CP_UID : string; CP_Generation : Z; CP_Created : Z; CP_Deleting : bool;
  CP_Annotations : gmap string string; CP_Labels : gmap string string; CP_Spec : ChangePlanSpec;
  CP_Status : ChangePlanStatus }.

(** ** crd.go *)

Definition summarize_operation (prerequisites : gmap string (list string)) (op : SanitizedOperation)
    : result string PlanOperation :=
  match (match SO_Desired op with Some r => Some r | None => SO_Current op end) with
  | None => Err ("plan operation has no record summary: " +:+ SO_ID op)
  | Some record =>
      match SR_Targets record with
      | _ :: _ :: _ => Err ("plan operation has more than one provider record target: " +:+ SO_ID op)
      | targets =>
          Ok (mkPlanOperation (SO_ID op) (ToLower (TrimSpace (SO_Type op))) (SR_DNSName record) (SR_RecordType record)
                (default "" (head targets)) (SR_TTL record) (if SR_Disabled record then "disable" else "enable")
                (SR_ProviderID record) (sort_strings (default [] (prerequisites !! SO_ID op))))
      end
  end.

(** The first error stops the loop. *)
Fixpoint map_result {E A B} (f : A -> result E B) (l : list A) : result E (list B) :=
  match l with
  | [] => Ok []
  | x :: rest => let? y := f x in let? ys := map_result f rest in Ok (y :: ys)
  end.

Definition summarizeOperations (document : Document) : result string (list PlanOperation) :=
  let? ops := map_result (summarize_operation (edge_dependencies (Prerequisites document))) (Operations document) in
  Ok (sort_by_key POp_ID ops).

Definition claim_key (o : OwnershipPrecondition) : string :=
  if OW_Namespace o =s "" then OW_Name o else OW_Namespace o +:+ "/" +:+ OW_Name o.

Fixpoint resource_versions (claims : list OwnershipPrecondition) (acc : gmap string string)
    : result string (gmap string string) :=
  match claims with
  | [] => Ok acc
  | c :: rest =>
      match acc !! claim_key c with
      | Some _ => Err ("duplicate ownership precondition " +:+ claim_key c)
      | None => resource_versions rest (<[claim_key c := OW_ResourceVersion c]> acc)
      end
  end.

(** Errors of the document layer enter as a tag. *)
Definition doc_error {A} (r : result DocumentError A) : result string A :=
  match r with Ok a => Ok a | Err _ => Err "invalid plan document" end.

Section crd.
Context `{MapRange}.

Definition NewChangePlanObject (namespace name : string) (document : Document) (expiresAt : option Z)
    : result string ChangePlan :=
  let? canonical := doc_error (CanonicalJSON document) in
  let? planHash := doc_error (ID document) in
  let? operations := summarizeOperations document in
  let? versions := resource_versions (Ownership (Doc_Preconditions document)) ∅ in
  Ok (mkChangePlan namespace name "" 0 0 false ∅ ∅
        (mkPlanSpec DocumentSchemaVersion (TI_Name (Target document)) planHash canonical
           (PP_Revision (Provider (Doc_Preconditions document))) (DP_Generation (Discovery (Doc_Preconditions document)))
           (PO_Generation (Policy (Doc_Preconditions document))) versions operations expiresAt)
        (mkPlanStatus NoPhase 0 [] None)).

Context (UnmarshalDocument : string -> result string Document).

Definition DocumentFromChangePlan (object : ChangePlan) : result string Document :=
  let spec := CP_Spec object in
  if negb (SchemaVersion spec =s DocumentSchemaVersion) then Err "unsupported persisted plan schema"
  else
    let? document := UnmarshalDocument (CanonicalDocument spec) in
    let? canonical := doc_error (CanonicalJSON document) in
    if negb (canonical =s CanonicalDocument spec) then Err "persisted plan document is not canonical"
    else
      let? planHash := doc_error (ID document) in
      if negb (planHash =s PlanHash spec) then Err "persisted plan hash does not match canonical document"
      else if negb (TargetRefName spec =s TI_Name (Target document))
              || negb (ProviderRevision spec =s PP_Revision (Provider (Doc_Preconditions document)))
              || negb (DiscoveryGeneration spec =? DP_Generation (Discovery (Doc_Preconditions document)))
              || negb (PolicyGeneration spec =? PO_Generation (Policy (Doc_Preconditions document)))
      then Err "persisted plan summary does not match canonical preconditions"
      else
        let? expected := NewChangePlanObject (CP_Namespace object) (CP_Name object) document (ExpiresAt spec) in
        if negb (bool_decide (OwnershipResourceVersions (CP_Spec expected) = OwnershipResourceVersions spec))
           || negb (bool_decide (Spec_Operations (CP_Spec expected) = Spec_Operations spec))
        then Err "persisted plan operation or ownership summary does not match canonical document"
        else Ok document.

(** ** file.go *)

Definition VerifyApprovedHash (document : Document) (approved : string) : option string :=
  let approved := TrimSpace approved in
  if approved =s "" then Some "plan approval hash is required"
  else match ID document with
       | Err _ => Some "identify plan for approval"
       | Ok planID => if negb (approved =s planID) then Some "approved plan hash does not match the current plan" else None
       end.
End crd.

(** ** store.go: names *)

Definition label_char (c : ascii) : ascii :=
  let n := nat_of_ascii c in
  if ((97 <=? n) && (n <=? 122) || (48 <=? n) && (n <=? 57))%nat || Ascii.eqb c "-" || Ascii.eqb c "." then c else "-"%char.

(** [strings.Trim] with a set of characters. *)
Fixpoint trim_left_set (cut : ascii -> bool) (s : string) : string :=
  match s with String c s' => if cut c then trim_left_set cut s' else s | "" => "" end.

Fixpoint trim_right_set (cut : ascii -> bool) (s : string) : string :=
  match s with
  | "" => ""
  | String c s' =>
      match trim_right_set cut s' with
      | "" => if cut c then "" else String c ""
      | t => String c t
      end
  end.

Definition Trim (s : string) (cut : ascii -> bool) : string := trim_right_set cut (trim_left_set cut s).

(** On the ASCII range, where a rune is a byte. *)
Definition labelValue (value : string) : string :=
  let r := Trim (str_map label_char (ToLower (TrimSpace value))) (fun c => Ascii.eqb c "-" || Ascii.eqb c ".") in
  if r =s "" then "target" else r.

Definition str_take (n : nat) (s : string) : string := String.substring 0 n s.

Definition planObjectName (document_hash targetName : string) : string :=
  let prefix := labelValue targetName in
  let prefix := if (45 <? String.length prefix)%nat then Trim (str_take 45 prefix) (Ascii.eqb "-") else prefix in
  prefix +:+ "-" +:+ str_take 12 document_hash.

(** [strconv.FormatInt(n, 36)] for the positive times of the clock. *)
Definition digit36 (d : Z) : ascii := ascii_of_nat (Z.to_nat (if d <? 10 then 48 + d else 87 + d)).
Fixpoint format36 (fuel : nat) (n : Z) (acc : string) : string :=
  match fuel with
  | O => acc
  | S fuel => let acc := String (digit36 (n mod 36)) acc in if n <? 36 then acc else format36 fuel (n / 36) acc
  end.

Definition recurringPlanObjectName (document_hash targetName : string) (now : Z) : string :=
  let base := planObjectName document_hash targetName in
  let suffix := format36 (S (Z.to_nat (Z.log2 now))) now "" in
  let base := if (63 <? String.length base + 1 + String.length suffix)%nat
              then Trim (str_take (63 - 1 - String.length suffix) base) (Ascii.eqb "-") else base in
  base +:+ "-" +:+ suffix.

(** ** store.go: the store *)

Definition terminalPlanPhase (phase : ChangePlanPhase) : bool :=
  match phase with
  | ChangePlanSucceeded | ChangePlanFailed | ChangePlanStale | ChangePlanInterrupted => true
  | _ => false
  end.

Definition summarize_outcome (o : OperationOutcome) : OutcomeSummary :=
  mkOutcomeSummary (OO_OperationID o)
    (match Result o with ApplySucceeded => "applied" | ApplyBlocked => "skipped" | ApplyFailed => "failed" end)
    (if (64 <? String.length (OO_Reason o))%nat then str_take 64 (OO_Reason o) else OO_Reason o).

Definition summarizeOutcomes (outcomes : list OperationOutcome) : list OutcomeSummary :=
  sort_by_key Sum_OperationID (summarize_outcome <$> outcomes).


Inductive StoreError := ErrApprovalRequired (reason : string) | ErrStore (reason : string) | ErrAPI (e : APIError).

Section store.
Context {W : Type} `{MapRange}.

Record PlanAPI := mkPlanAPI {
  api_Get : W -> string -> string -> W * result APIError ChangePlan;            (* namespace, name *)
  api_List : W -> string -> W * result APIError (list ChangePlan);
  api_Create : W -> ChangePlan -> W * result APIError ChangePlan;
  api_UpdateStatus : W -> ChangePlan -> W * result APIError ChangePlan;
  api_Delete : W -> string -> string -> W * option APIError;
  api_now : W -> Z;
  UnmarshalDocument : string -> result string Document
}.

Context (api : PlanAPI).

Definition RequireExactApproval (now : Z) (object : ChangePlan) : option StoreError :=
  let phase := Phase (CP_Status object) in
  if bool_decide (phase = ChangePlanStale) || terminalPlanPhase phase then
    Some (ErrApprovalRequired "change plan phase cannot be approved")
  else if match ExpiresAt (CP_Spec object) with Some t => t <=? now | None => false end then
    Some (ErrApprovalRequired "change plan expired")
  else
    let approved := default "" (CP_Annotations object !! ApprovalHashAnnotation) in
    if approved =s "" then Some (ErrApprovalRequired "exact plan approval is missing")
    else if negb (approved =s PlanHash (CP_Spec object)) then
      Some (ErrApprovalRequired "approved plan hash does not match current plan")
    else None.

Definition listTarget (w : W) (namespace targetName : string) : W * result StoreError (list ChangePlan) :=
  match api_List api w namespace with
  | (w, Err e) => (w, Err (ErrAPI e))
  | (w, Ok items) => (w, Ok (filter (fun o => TargetRefName (CP_Spec o) = targetName) items))
  end.

Definition set_status (o : ChangePlan) (s : ChangePlanStatus) : ChangePlan :=
  mkChangePlan (CP_Namespace o) (CP_Name o) (CP_UID o) (CP_Generation o) (CP_Created o) (CP_Deleting o)
    (CP_Annotations o) (CP_Labels o) (CP_Spec o) s.

(** One round of the closure that [retry.RetryOnConflict] repeats. *)
Definition update_once (w : W) (namespace name : string) (phase : ChangePlanPhase) (outcomes : list OperationOutcome)
    (validate : W -> ChangePlan -> option StoreError) : W * result StoreError ChangePlan :=
  match api_Get api w namespace name with
  | (w, Err e) => (w, Err (ErrAPI e))
  | (w, Ok current) =>
      match validate w current with
      | Some e => (w, Err e)
      | None =>
          let status := mkPlanStatus phase (CP_Generation current) (summarizeOutcomes outcomes)
                          (if terminalPlanPhase phase then Some (api_now api w) else None) in
          match api_UpdateStatus api w (set_status current status) with
          | (w, Err e) => (w, Err (ErrAPI e))
          | (w, Ok updated) => (w, Ok updated)
          end
      end
  end.

(** [retry.DefaultRetry] makes five attempts; other errors end it. *)
Definition retry_steps : nat := 5.

Fixpoint retry_conflict (steps : nat) (w : W) (namespace name : string) (phase : ChangePlanPhase)
    (outcomes : list OperationOutcome) (validate : W -> ChangePlan -> option StoreError)
    : W * result StoreError ChangePlan :=
  match steps with
  | O => (w, Err (ErrAPI Conflict))
  | S steps =>
      match update_once w namespace name phase outcomes validate with
      | (w, Err (ErrAPI Conflict)) =>
          match steps with O => (w, Err (ErrAPI Conflict)) | _ => retry_conflict steps w namespace name phase outcomes validate end
      | r => r
      end
  end.

Definition updatePhase (w : W) (namespace name : string) (phase : ChangePlanPhase) (outcomes : list OperationOutcome)
    (validate : W -> ChangePlan -> option StoreError) : W * result StoreError ChangePlan :=
  retry_conflict retry_steps w namespace name phase outcomes validate.

Definition UpdatePhase (w : W) (namespace name : string) (phase : ChangePlanPhase) (outcomes : list OperationOutcome)
    : W * result StoreError ChangePlan :=
  updatePhase w namespace name phase outcomes (fun _ _ => None).

(** The check shared by [MarkApproved] and [BeginApprovedApply]. *)
Definition approved_identity (expected : ChangePlan) (w : W) (current : ChangePlan) : option StoreError :=
  if negb (CP_UID current =s CP_UID expected) || negb (PlanHash (CP_Spec current) =s PlanHash (CP_Spec expected))
     || CP_Deleting current
  then Some (ErrApprovalRequired "approved change plan identity changed")
  else RequireExactApproval (api_now api w) current.

Definition updateApprovedPhase (w : W) (expected : ChangePlan) (phase : ChangePlanPhase) : W * result StoreError ChangePlan :=
  updatePhase w (CP_Namespace expected) (CP_Name expected) phase [] (approved_identity expected).

Definition BeginApprovedApply (w : W) (expected : ChangePlan) : W * result StoreError ChangePlan :=
  updateApprovedPhase w expected ChangePlanApplying.
Definition MarkApproved (w : W) (expected : ChangePlan) : W * result StoreError ChangePlan :=
  updateApprovedPhase w expected ChangePlanApproved.

(** *** Superseding and pruning *)

Definition superseded (keepHash : string) (o : ChangePlan) : bool :=
  negb ((PlanHash (CP_Spec o) =s keepHash) || terminalPlanPhase (Phase (CP_Status o))
        || bool_decide (Phase (CP_Status o) = ChangePlanStale)).

Fixpoint stale_each (w : W) (namespace : string) (items : list ChangePlan) : W * option StoreError :=
  match items with
  | [] => (w, None)
  | o :: rest =>
      match UpdatePhase w namespace (CP_Name o) ChangePlanStale [] with
      | (w, Err e) => (w, Some e)
      | (w, Ok _) => stale_each w namespace rest
      end
  end.

Definition StaleSuperseded (w : W) (namespace targetName keepHash : string) : W * option StoreError :=
  match listTarget w namespace targetName with
  | (w, Err e) => (w, Some e)
  | (w, Ok items) => stale_each w namespace (filter (fun o => superseded keepHash o = true) items)
  end.

(** Newest first, by name when the times agree. *)
Definition newer (a b : ChangePlan) : bool :=
  if CP_Created a =? CP_Created b then CP_Name b <s CP_Name a else CP_Created b <? CP_Created a.

Definition prune_candidates (items : list ChangePlan) (retention : nat) : list ChangePlan :=
  drop retention (sort_slice newer (filter (fun o => terminalPlanPhase (Phase (CP_Status o)) = true) items)).

Fixpoint delete_each (w : W) (namespace : string) (items : list ChangePlan) : W * option StoreError :=
  match items with
  | [] => (w, None)
  | o :: rest =>
      match api_Delete api w namespace (CP_Name o) with
      | (w, None) | (w, Some NotFound) => delete_each w namespace rest
      | (w, Some e) => (w, Some (ErrAPI e))
      end
  end.

Definition Prune (w : W) (namespace targetName : string) (retention : Z) : W * option StoreError :=
  if retention <? 0 then (w, Some (ErrStore "plan retention cannot be negative"))
  else match listTarget w namespace targetName with
       | (w, Err e) => (w, Some e)
       | (w, Ok items) => delete_each w namespace (prune_candidates items (Z.to_nat retention))
       end.

(** *** [PersistCurrent] *)

Definition reusable (wantedHash : string) (o : ChangePlan) : bool :=
  (PlanHash (CP_Spec o) =s wantedHash) && negb (terminalPlanPhase (Phase (CP_Status o)))
  && negb (bool_decide (Phase (CP_Status o) = ChangePlanStale)).

Definition verified (o : ChangePlan) : result StoreError ChangePlan :=
  match DocumentFromChangePlan (UnmarshalDocument api) o with
  | Ok _ => Ok o
  | Err e => Err (ErrStore e)
  end.

Definition create_plan (w : W) (namespace : string) (document : Document) (object : ChangePlan) (retention : Z)
    : W * result StoreError ChangePlan :=
  match StaleSuperseded w namespace (TI_Name (Target document)) (PlanHash (CP_Spec object)) with
  | (w, Some e) => (w, Err e)
  | (w, None) =>
      match api_Create api w object with
      | (w, Err e) => (w, Err (ErrAPI e))
      | (w, Ok created) =>
          match UpdatePhase w namespace (CP_Name created) ChangePlanPendingApproval [] with
          | (w, Err e) => (w, Err e)
          | (w, Ok r) =>
              if 0 <=? retention then
                match Prune w namespace (TI_Name (Target document)) retention with
                | (w, Some e) => (w, Err e)
                | (w, None) => (w, Ok r)
                end
              else (w, Ok r)
          end
      end
  end.

(** The object of a new plan: labelled with its target, waiting for approval. *)
Definition pending_object (object : ChangePlan) (targetName : string) : ChangePlan :=
  mkChangePlan (CP_Namespace object) (CP_Name object) (CP_UID object) (CP_Generation object) (CP_Created object)
    (CP_Deleting object) (CP_Annotations object)
    {["fortigate-external-dns.kgskr.io/target" := labelValue targetName]} (CP_Spec object)
    (mkPlanStatus ChangePlanPendingApproval (CP_Generation object) [] None).

Definition PersistCurrent (w : W) (namespace : string) (document : Document) (expiresAt : option Z) (retention : Z)
    : W * result StoreError ChangePlan :=
  let targetName := TI_Name (Target document) in
  match listTarget w namespace targetName with
  | (w, Err e) => (w, Err e)
  | (w, Ok items) =>
      match ID document with
      | Err _ => (w, Err (ErrStore "invalid plan document"))
      | Ok wantedHash =>
          match List.find (reusable wantedHash) items with
          | Some candidate => (w, verified candidate)
          | None =>
              let base := planObjectName wantedHash targetName in
              let name := if existsb (fun o => CP_Name o =s base) items
                          then recurringPlanObjectName wantedHash targetName (api_now api w) else base in
              match NewChangePlanObject namespace name document expiresAt with
              | Err e => (w, Err (ErrStore e))
              | Ok object =>
                  let object := pending_object object targetName in
                  match api_Get api w namespace (CP_Name object) with
                  | (w, Ok existing) =>
                      (w, let? o := verified existing in
                          if negb (terminalPlanPhase (Phase (CP_Status o)))
                             && negb (bool_decide (Phase (CP_Status o) = ChangePlanStale)) then Ok o
                          else Err (ErrStore "change plan name collision with terminal plan"))
                  | (w, Err NotFound) => create_plan w namespace document object retention
                  | (w, Err e) => (w, Err (ErrAPI e))
                  end
              end
          end
      end
  end.
End store.
Arguments PlanAPI W : clear implicits.
