(* ===== verification/ChangePlansLaws.v ===== *)
(** * Properties of stored plans

    A stored plan that is accepted is exactly the object its document gives; the
    approval gate is the conjunction of its four conditions; a status written on
    behalf of an approved plan goes to that very plan; and pruning removes the
    oldest finished plans only. *)
From Stdlib Require Import String Ascii ZArith Lia.
From S2P Require Import Prelude Effects GoStrings NetIP GoEncoding Endpoint Plan Document DocumentGraph Executor ChangePlans.
Open Scope string_scope.
Open Scope list_scope.
Open Scope Z_scope.
Open Scope go_scope.

(** ** Approval *)

(** An open plan, not expired, whose annotation is its own non-empty hash. *)
Definition exact_approval (now : Z) (o : ChangePlan) : Prop :=
  terminalPlanPhase (Phase (CP_Status o)) = false /\
  (forall t, ExpiresAt (CP_Spec o) = Some t -> now < t) /\
  CP_Annotations o !! ApprovalHashAnnotation = Some (PlanHash (CP_Spec o)) /\ PlanHash (CP_Spec o) <> "".

Lemma RequireExactApproval_spec now o : RequireExactApproval now o = None <-> exact_approval now o.
Proof.
  unfold RequireExactApproval, exact_approval.
  assert (Hstale : bool_decide (Phase (CP_Status o) = ChangePlanStale) || terminalPlanPhase (Phase (CP_Status o))
                   = terminalPlanPhase (Phase (CP_Status o))) by (by destruct (Phase (CP_Status o))).
  rewrite Hstale. destruct (terminalPlanPhase _); [by split; [|intros [? _]]|].
  assert (Hexp : (match ExpiresAt (CP_Spec o) with Some t => t <=? now | None => false end) = false <->
                 forall t, ExpiresAt (CP_Spec o) = Some t -> now < t).
  { destruct (ExpiresAt _); [|by split]. rewrite Z.leb_gt. split; [by intros ? ? [= <-]|auto]. }
  destruct (match ExpiresAt _ with Some _ => _ | None => _ end); [split; [done|intros (_ & He & _); by apply Hexp in He]|].
  destruct (CP_Annotations o !! ApprovalHashAnnotation) as [a|] eqn:Ea; cbn [default from_option id]; [|by split; [|intros (_ & _ & ? & _)]].
  destruct (a =s "") eqn:E0; [apply eqb_eq_iff in E0 as ->; split; [done|intros (_ & _ & [= ->] & ?); done]|].
  apply eqb_neq_iff in E0. destruct (a =s PlanHash (CP_Spec o)) eqn:E1; cbn [negb].
  - apply eqb_eq_iff in E1. split; [|done]. intros _. split; [done|]. split; [by apply Hexp|]. split; [by rewrite E1|congruence].
  - apply eqb_neq_iff in E1. split; [done|]. intros (_ & _ & [= ->] & _). done.
Qed.

(** ** Stored documents *)

Lemma negb_eqb_false a b : negb (a =s b) = false <-> a = b.
Proof. by rewrite negb_false_iff, eqb_eq_iff. Qed.

Lemma NewChangePlanObject_spec `{MapRange} ns name d exp o : NewChangePlanObject ns name d exp = Ok o ->
  exists canonical hash ops versions, CanonicalJSON d = Ok canonical /\ ID d = Ok hash /\
    summarizeOperations d = Ok ops /\ resource_versions (Ownership (Doc_Preconditions d)) ∅ = Ok versions /\
    CP_Spec o = mkPlanSpec DocumentSchemaVersion (TI_Name (Target d)) hash canonical
      (PP_Revision (Provider (Doc_Preconditions d))) (DP_Generation (Discovery (Doc_Preconditions d)))
      (PO_Generation (Policy (Doc_Preconditions d))) versions ops exp.
Proof.
  unfold NewChangePlanObject. destruct (CanonicalJSON d); [|done]. destruct (ID d); [|done]. cbn [doc_error rbind].
  destruct (summarizeOperations d); [|done]. destruct (resource_versions _ _); [|done]. cbn. intros [= <-]. eauto 10.
Qed.

(** The specification under another expiry. *)
Definition with_expiry (expiry : option Z) (spec : ChangePlanSpec) : ChangePlanSpec :=
  mkPlanSpec (SchemaVersion spec) (TargetRefName spec) (PlanHash spec) (CanonicalDocument spec) (ProviderRevision spec)
    (DiscoveryGeneration spec) (PolicyGeneration spec) (OwnershipResourceVersions spec) (Spec_Operations spec) expiry.

Lemma stored_plan_iff `{MapRange} unmarshal o d :
  DocumentFromChangePlan unmarshal o = Ok d <->
  unmarshal (CanonicalDocument (CP_Spec o)) = Ok d /\
  exists o', NewChangePlanObject (CP_Namespace o) (CP_Name o) d (ExpiresAt (CP_Spec o)) = Ok o' /\ CP_Spec o' = CP_Spec o.
Proof.
  unfold DocumentFromChangePlan. split.
  - destruct (negb (SchemaVersion _ =s _)) eqn:Es; [done|]. apply negb_eqb_false in Es.
    destruct (unmarshal _) as [d'|]; [|done]. cbn [rbind]. destruct (CanonicalJSON d') as [c|] eqn:Ec; [|done]. cbn [doc_error rbind].
    destruct (negb (c =s CanonicalDocument _)) eqn:E1; [done|]. apply negb_eqb_false in E1. destruct (ID d') as [h|] eqn:Eh; [|done]. cbn [doc_error rbind].
    destruct (negb (h =s PlanHash _)) eqn:E2; [done|]. apply negb_eqb_false in E2.
    destruct (_ || _) eqn:E3; [done|]. rewrite !orb_false_iff, !negb_false_iff, !eqb_eq_iff, !Z.eqb_eq in E3.
    destruct (NewChangePlanObject _ _ _ _) as [o'|] eqn:En; [|done]. cbn [rbind]. destruct (_ || _) eqn:E4; [done|].
    rewrite orb_false_iff, !negb_false_iff, !bool_decide_eq_true in E4. intros [= <-]. split; [done|]. exists o'. split; [done|].
    apply NewChangePlanObject_spec in En as (c' & h' & ops & vs & Ec' & Eh' & _ & _ & Espec). rewrite Espec in *. cbn in E4.
    destruct E3 as [[[? ?] ?] ?], E4 as [? ?]. destruct (CP_Spec o). cbn in *. congruence.
  - intros (Eu & o' & En & Eo). rewrite Eu. pose proof (NewChangePlanObject_spec _ _ _ _ _ En) as (c & h & ops & vs & Ec & Eh & _ & _ & Espec).
    cbv zeta. rewrite <- Eo. rewrite <- Eo in En. cbn [rbind]. rewrite En. cbn [rbind]. rewrite Espec. cbn [SchemaVersion CanonicalDocument PlanHash TargetRefName ProviderRevision
      DiscoveryGeneration PolicyGeneration OwnershipResourceVersions Spec_Operations].
    rewrite Ec, Eh. cbn [doc_error rbind]. rewrite !String.eqb_refl, !Z.eqb_refl. cbn [negb orb].
    by rewrite !bool_decide_eq_true_2.
Qed.

(** C36. Reading a stored plan accepts exactly the objects whose specification is
    what building a plan from the decoded document, with the expiry of the object,
    gives: schema, target, hash, canonical bytes, revision, generations, ownership
    versions and operation summaries.  So beside an accepted object, of all objects with
    the same canonical document those are accepted that differ at most in the expiry:
    an edit of the hash or of a summary alone is refused. *)
Theorem stored_plan_exact `{MapRange} unmarshal o d :
  (DocumentFromChangePlan unmarshal o = Ok d <->
   unmarshal (CanonicalDocument (CP_Spec o)) = Ok d /\
   exists o', NewChangePlanObject (CP_Namespace o) (CP_Name o) d (ExpiresAt (CP_Spec o)) = Ok o' /\ CP_Spec o' = CP_Spec o) /\
  (DocumentFromChangePlan unmarshal o = Ok d -> forall edited, CanonicalDocument (CP_Spec edited) = CanonicalDocument (CP_Spec o) ->
     DocumentFromChangePlan unmarshal edited = Ok d <-> CP_Spec edited = with_expiry (ExpiresAt (CP_Spec edited)) (CP_Spec o)).
Proof.
  split; [apply stored_plan_iff|]. intros (Eu & x & Ex & Es)%stored_plan_iff edited Ec. rewrite stored_plan_iff, Ec.
  pose proof (NewChangePlanObject_spec _ _ _ _ _ Ex) as (c & h & ops & vs & E1 & E2 & E3 & E4 & E5). rewrite Es in E5.
  assert (Hn : exists y, NewChangePlanObject (CP_Namespace edited) (CP_Name edited) d (ExpiresAt (CP_Spec edited)) = Ok y /\
    CP_Spec y = with_expiry (ExpiresAt (CP_Spec edited)) (CP_Spec o)).
  { unfold NewChangePlanObject. rewrite E1, E2. cbn [doc_error rbind]. rewrite E3. cbn [rbind]. rewrite E4. cbn. eexists. split; [done|]. by rewrite E5. }
  destruct Hn as (y & Ey & Hy). split.
  - intros (_ & z & Ez & Hz). rewrite Ey in Ez. injection Ez as <-. congruence.
  - intros E. split; [done|]. exists y. split; [done|]. congruence.
Qed.

(** ** Status updates *)

(** The store with a log of the objects whose status it writes. *)
Definition logged {W} (api : PlanAPI W) : PlanAPI (W * list ChangePlan) :=
  mkPlanAPI
    (fun '(w, log) ns name => let '(w, r) := api_Get api w ns name in ((w, log), r))
    (fun '(w, log) ns => let '(w, r) := api_List api w ns in ((w, log), r))
    (fun '(w, log) o => let '(w, r) := api_Create api w o in ((w, log), r))
    (fun '(w, log) o => let '(w, r) := api_UpdateStatus api w o in ((w, log ++ [o]), r))
    (fun '(w, log) ns name => let '(w, r) := api_Delete api w ns name in ((w, log), r))
    (fun '(w, _) => api_now api w)
    (UnmarshalDocument api).

Section updates.
Context {W : Type} (api : PlanAPI W).
Context (validate : W * list ChangePlan -> ChangePlan -> option StoreError).

(** What is written: the object just read, validated, under the new status. *)
Definition validated (phase : ChangePlanPhase) (o : ChangePlan) : Prop :=
  Phase (CP_Status o) = phase /\ exists wv current, validate wv current = None /\ o = set_status current (CP_Status o).

Lemma update_once_logged w log ns name phase outs w' log' r :
  update_once (logged api) (w, log) ns name phase outs validate = ((w', log'), r) ->
  exists l, log' = log ++ l /\ (length l <= 1)%nat /\ Forall (validated phase) l /\ (is_ok r = true -> l <> []).
Proof.
  unfold update_once. cbn [api_Get api_UpdateStatus logged]. destruct (api_Get api w ns name) as [w1 [o|e]].
  2:{ intros [= <- <- <-]. exists []. rewrite app_nil_r. repeat split; [cbn; lia|constructor|done]. }
  destruct (validate (w1, log) o) as [e|] eqn:Ev.
  { intros [= <- <- <-]. exists []. rewrite app_nil_r. repeat split; [cbn; lia|constructor|done]. }
  set (o' := set_status o _). assert (Ho : validated phase o') by (split; [done|]; by exists (w1, log), o).
  destruct (api_UpdateStatus api w1 o') as [w2 [u|e]]; intros [= <- <- <-]; exists [o'];
    (repeat split; [cbn; lia|by constructor|done]).
Qed.

Lemma retry_conflict_logged steps : forall w log ns name phase outs w' log' r,
  retry_conflict (logged api) steps (w, log) ns name phase outs validate = ((w', log'), r) ->
  exists l, log' = log ++ l /\ (length l <= steps)%nat /\ Forall (validated phase) l /\ (is_ok r = true -> l <> []).
Proof.
  induction steps as [|steps IH]; intros w log ns name phase outs w' log' r; cbn [retry_conflict].
  { intros [= <- <- <-]. exists []. rewrite app_nil_r. repeat split; [cbn; lia|constructor|done]. }
  destruct (update_once _ _ _ _ _ _ _) as [[w1 log1] r1] eqn:E1. apply update_once_logged in E1 as (l1 & -> & Hlen & Hall & Hok).
  assert (Hend : forall r', ((w1, log ++ l1), r') = ((w', log'), r) -> (is_ok r' = true -> is_ok r1 = true) ->
    exists l, log' = log ++ l /\ (length l <= S steps)%nat /\ Forall (validated phase) l /\ (is_ok r = true -> l <> [])).
  { intros r' [= <- <- <-] Hr. exists l1. repeat split; [lia|done|auto]. }
  destruct r1 as [o|[reason|reason|[]]]; try (intros H; by apply (Hend _ H)).
  destruct steps as [|steps]; [intros H; by apply (Hend _ H)|]. intros H.
  apply IH in H as (l2 & -> & Hlen2 & Hall2 & Hok2). exists (l1 ++ l2). rewrite app_assoc, length_app. repeat split.
  - lia.
  - by apply Forall_app.
  - intros Hr Hnil. apply app_nil in Hnil as [_ ?]. by apply Hok2.
Qed.
End updates.

(** A status written for an approved plan goes to that very plan: every
    object handed to the API server has the expected UID and hash, is not being
    deleted and carries the exact approval; at most five writes are tried, and a
    success means one was made. *)
Theorem approved_update_exact {W} (api : PlanAPI W) w expected phase :
  let '((_, log), r) := updateApprovedPhase (logged api) (w, []) expected phase in
  (length log <= 5)%nat /\ (is_ok r = true -> log <> []) /\
  Forall (fun o => Phase (CP_Status o) = phase /\ CP_UID o = CP_UID expected /\ CP_Deleting o = false /\
                   PlanHash (CP_Spec o) = PlanHash (CP_Spec expected) /\
                   CP_Annotations o !! ApprovalHashAnnotation = Some (PlanHash (CP_Spec expected))) log.
Proof.
  destruct (updateApprovedPhase _ _ _ _) as [[w' log] r] eqn:E. unfold updateApprovedPhase, updatePhase in E.
  apply retry_conflict_logged in E as (l & -> & Hlen & Hall & Hok). split; [done|]. split; [done|].
  eapply Forall_impl; [exact Hall|]. intros o (Hp & wv & current & Hv & Eo). split; [done|].
  unfold approved_identity in Hv. destruct (_ || _ || _) eqn:Ei; [done|]. bools.
  apply RequireExactApproval_spec in Hv as (_ & _ & Ha & _). rewrite Eo. cbn. repeat split; try done. congruence.
Qed.

(** ** Checked transitions, step by step *)

Section transitions.
Context {W : Type} (api : PlanAPI W).

(** The live object [live], just read, is still the approved plan [p]. *)
Definition still_approved (p : ChangePlan) (w : W) (live : ChangePlan) : Prop :=
  CP_UID live = CP_UID p /\ PlanHash (CP_Spec live) = PlanHash (CP_Spec p) /\ CP_Deleting live = false /\
  exact_approval (api_now api w) live.

Definition moved (phase : ChangePlanPhase) (live : ChangePlan) : ChangePlan :=
  set_status live (mkPlanStatus phase (CP_Generation live) [] None).

(** Attempts that only met conflicts. *)
Inductive conflicts (p : ChangePlan) (phase : ChangePlanPhase) : W -> W -> Prop :=
| no_conflict w : conflicts p phase w w
| read_conflict w w1 w2 : api_Get api w (CP_Namespace p) (CP_Name p) = (w1, Err Conflict) -> conflicts p phase w1 w2 -> conflicts p phase w w2
| write_conflict w w1 w2 w3 live : api_Get api w (CP_Namespace p) (CP_Name p) = (w1, Ok live) -> still_approved p w1 live ->
    api_UpdateStatus api w1 (moved phase live) = (w2, Err Conflict) -> conflicts p phase w2 w3 -> conflicts p phase w w3.

(** From [w] to [w'] the plan [p] went into the phase: after conflicts at most, the
    object was read, is still the approved plan, and that object was written. *)
Definition approved_transition (p : ChangePlan) (phase : ChangePlanPhase) (w w' : W) : Prop :=
  exists w1 w2 live updated, conflicts p phase w w1 /\ api_Get api w1 (CP_Namespace p) (CP_Name p) = (w2, Ok live) /\
    still_approved p w2 live /\ api_UpdateStatus api w2 (moved phase live) = (w', Ok updated).

Lemma approved_identity_ok p w live : approved_identity api p w live = None -> still_approved p w live.
Proof.
  unfold approved_identity, still_approved. destruct (_ || _ || _) eqn:Ei; [done|]. bools. intros Hr%RequireExactApproval_spec. done.
Qed.

Lemma approved_identity_refusal p w live e : approved_identity api p w live = Some e -> e <> ErrAPI Conflict.
Proof.
  unfold approved_identity, RequireExactApproval. intros E. repeat case_match; simplify_eq; done.
Qed.

Lemma retry_approved steps p phase : terminalPlanPhase phase = false -> forall w w' updated,
  retry_conflict api steps w (CP_Namespace p) (CP_Name p) phase [] (approved_identity api p) = (w', Ok updated) ->
  approved_transition p phase w w'.
Proof.
  intros Hph. induction steps as [|steps IH]; intros w w' updated; cbn [retry_conflict]; [done|].
  assert (Hagain : forall v, conflicts p phase w v -> match steps with O => (v, Err (ErrAPI Conflict)) | S _ => retry_conflict api steps v (CP_Namespace p) (CP_Name p) phase [] (approved_identity api p) end = (w', Ok updated) ->
    approved_transition p phase v w').
  { intros v _. destruct steps; [done|]. apply IH. }
  unfold update_once. rewrite Hph. destruct (api_Get api w _ _) as [w1 [live|e]] eqn:Eg.
  - destruct (approved_identity api p w1 live) as [e|] eqn:Ev.
    { pose proof (approved_identity_refusal _ _ _ _ Ev). by destruct e as [| |[]]. }
    apply approved_identity_ok in Ev. change (summarizeOutcomes []) with (@nil OutcomeSummary). fold (moved phase live).
    destruct (api_UpdateStatus api w1 (moved phase live)) as [w2 [u|e]] eqn:Eu.
    + intros [= <- <-]. exists w, w1, live, u. split; [constructor|done].
    + destruct e; try done. intros Hr.
      assert (Hc : forall v, conflicts p phase w2 v -> conflicts p phase w v) by (intros v; by eapply write_conflict).
      destruct (Hagain w2) as (v1 & v2 & l & u & Hv & H); [apply Hc; constructor|done|]. exists v1, v2, l, u. split; [by apply Hc|done].
  - destruct e; try done. intros Hr. assert (Hc : forall v, conflicts p phase w1 v -> conflicts p phase w v) by (intros v; by eapply read_conflict).
    destruct (Hagain w1) as (v1 & v2 & l & u & Hv & H); [apply Hc; constructor|done|]. exists v1, v2, l, u. split; [by apply Hc|done].
Qed.

Lemma updateApprovedPhase_ok w p phase w' updated : terminalPlanPhase phase = false ->
  updateApprovedPhase api w p phase = (w', Ok updated) -> approved_transition p phase w w'.
Proof. intros Hph. by apply retry_approved. Qed.

(** The names derived from a plan's hash. *)
Definition derived_name (planID targetName name : string) : Prop :=
  name = planObjectName planID targetName \/ exists now, name = recurringPlanObjectName planID targetName now.

(** [I] is a state of the API server in which these names hold that plan alone; it stays
    so as long as nobody creates another plan under them.  The server keeps the name of
    an object it creates and the spec of one whose status it writes. *)
Record honest_names (I : W -> Prop) (namespace planID targetName : string) : Prop := {
  hn_Get w ns name : I w -> I (api_Get api w ns name).1;
  hn_List w ns : I w -> I (api_List api w ns).1;
  hn_read w w' name o : I w -> derived_name planID targetName name -> api_Get api w namespace name = (w', Ok o) -> PlanHash (CP_Spec o) = planID;
  hn_Create w w' o r : I w -> (derived_name planID targetName (CP_Name o) -> PlanHash (CP_Spec o) = planID) ->
    api_Create api w o = (w', r) -> I w' /\ forall o', r = Ok o' -> CP_Name o' = CP_Name o;
  hn_Update w w1 w2 ns name live status r : I w -> api_Get api w ns name = (w1, Ok live) ->
    api_UpdateStatus api w1 (set_status live status) = (w2, r) -> I w2 /\ forall o', r = Ok o' -> CP_Spec o' = CP_Spec live }.

Section named.
Context `{MapRange} (I : W -> Prop) (namespace planID targetName : string) (Hn : honest_names I namespace planID targetName).

(** An unchecked update keeps this, and answers with the object of the name. *)
Lemma retry_named steps : forall w ns name phase outs w' r, I w ->
  retry_conflict api steps w ns name phase outs (fun _ _ => None) = (w', r) ->
  I w' /\ forall o, r = Ok o -> ns = namespace -> derived_name planID targetName name -> PlanHash (CP_Spec o) = planID.
Proof using Hn.
  induction steps as [|steps IH]; intros w ns name phase outs w' r Hw; cbn [retry_conflict]; [by intros [= <- <-]|].
  unfold update_once. pose proof (hn_Get _ _ _ _ Hn w ns name Hw) as Hg. destruct (api_Get api w ns name) as [w1 [live|e]] eqn:Eg; cbn in Hg.
  - set (st := mkPlanStatus _ _ _ _). destruct (api_UpdateStatus api w1 (set_status live st)) as [w2 [u|e]] eqn:Eu;
      destruct (hn_Update _ _ _ _ Hn w w1 w2 ns name live st _ Hw Eg Eu) as [H2 Hs].
    + intros [= <- <-]. split; [done|]. intros o [= <-] -> Hd. rewrite (Hs u eq_refl). by eapply (hn_read _ _ _ _ Hn w).
    + destruct e; try by intros [= <- <-]. destruct steps; [by intros [= <- <-]|]. by apply IH.
  - destruct e; try by intros [= <- <-]. destruct steps; [by intros [= <- <-]|]. by apply IH.
Qed.

Lemma StaleSuperseded_named w ns name keep : I w -> I (StaleSuperseded api w ns name keep).1.
Proof using Hn.
  intros Hw. unfold StaleSuperseded, listTarget. pose proof (hn_List _ _ _ _ Hn w ns Hw) as H1. destruct (api_List api w ns) as [w1 [items|]]; [|done].
  cbn in H1. generalize (filter (fun o => superseded keep o = true) (filter (fun o => TargetRefName (CP_Spec o) = name) items)). intros l.
  revert w1 H1. induction l as [|o l IH]; intros w1 H1; cbn [stale_each]; [done|].
  destruct (UpdatePhase api w1 ns (CP_Name o) ChangePlanStale []) as [w2 r] eqn:Eu. apply retry_named in Eu as [H2 _]; [|done].
  destruct r; [by apply IH|done].
Qed.

Lemma PersistCurrent_hash w document expiresAt retention w' p : I w -> targetName = TI_Name (Target document) ->
  ID document = Ok planID -> PersistCurrent api w namespace document expiresAt retention = (w', Ok p) -> PlanHash (CP_Spec p) = planID.
Proof using Hn.
  intros Hw Ht Hid. unfold PersistCurrent. rewrite <- Ht. unfold listTarget. pose proof (hn_List _ _ _ _ Hn w namespace Hw) as H1.
  destruct (api_List api w namespace) as [w1 [items|]]; [|done]. cbn in H1. set (mine := filter _ items). rewrite Hid.
  destruct (List.find (reusable planID) mine) as [o|] eqn:Ef.
  { unfold verified. destruct (DocumentFromChangePlan _ _); [|done]. intros [= <- <-]. apply find_some in Ef as [_ Ef]. unfold reusable in Ef. by bools. }
  set (name := if existsb _ mine then _ else _). destruct (NewChangePlanObject namespace name document expiresAt) as [object|] eqn:En; [|done].
  assert (Ho : CP_Name object = name /\ PlanHash (CP_Spec object) = planID).
  { unfold NewChangePlanObject in En. rewrite Hid in En. destruct (CanonicalJSON document); [|done]. cbn [doc_error rbind] in En.
    destruct (summarizeOperations document); [|done]. cbn [rbind] in En. destruct (resource_versions _ _); [|done]. by injection En as <-. }
  destruct Ho as [Hname Hhash]. assert (Hder : derived_name planID targetName name) by (unfold name, derived_name; destruct (existsb _ _); eauto).
  cbn [CP_Name pending_object]. rewrite Hname. pose proof (hn_Get _ _ _ _ Hn w1 namespace name H1) as H2.
  destruct (api_Get api w1 namespace name) as [w2 [o|e]] eqn:Eg; cbn in H2.
  { unfold verified. destruct (DocumentFromChangePlan _ _); [|done]. cbn. destruct (_ && _); [|done]. intros [= <- <-]. by eapply (hn_read _ _ _ _ Hn w1). }
  destruct e; try done. unfold create_plan. rewrite <- Ht. pose proof (StaleSuperseded_named w2 namespace targetName (PlanHash (CP_Spec (pending_object object targetName))) H2) as H3.
  destruct (StaleSuperseded _ _ _ _ _) as [w3 [e|]]; [done|]. cbn in H3.
  destruct (api_Create api w3 _) as [w4 [created|]] eqn:Ec; [|done]. apply (hn_Create _ _ _ _ Hn) in Ec as [H4 Hc]; [|done|by intros _].
  specialize (Hc _ eq_refl). cbn [CP_Name pending_object] in Hc. rewrite Hc, Hname.
  destruct (UpdatePhase api w4 namespace name _ _) as [w5 [r|]] eqn:Eu; [|done].
  apply retry_named in Eu as [_ Hr]; [|done]. specialize (Hr r eq_refl eq_refl Hder).
  destruct (0 <=? retention); [|by intros [= <- <-]]. destruct (Prune _ _ _ _ _) as [w6 [e|]]; [done|by intros [= <- <-]].
Qed.
End named.
End transitions.

(** ** Pruning *)

Lemma newer_asym a b : newer a b = true -> newer b a = false.
Proof.
  unfold newer. rewrite (Z.eqb_sym (CP_Created b)). destruct (_ =? _) eqn:E; [eauto with fgdns|].
  rewrite Z.ltb_lt, Z.ltb_ge. lia.
Qed.

Lemma newer_false a b : newer b a = false <->
  CP_Created b < CP_Created a \/ (CP_Created a = CP_Created b /\ (CP_Name a <s CP_Name b) = false).
Proof.
  unfold newer. destruct (_ =? _) eqn:E; [apply Z.eqb_eq in E|apply Z.eqb_neq in E; rewrite Z.ltb_ge]; intuition lia.
Qed.

Lemma newer_trans a b c : newer b a = false -> newer c b = false -> newer c a = false.
Proof. rewrite !newer_false. intros [?|[? ?]] [?|[? ?]]; [left; lia..|]. right. split; [lia|eauto with fgdns]. Qed.

(** Pruning keeps the newest finished plans: the finished plans split into
    the [retention] (or all, if fewer) that stay and those removed, none of
    which is newer than one that stays; open plans are never removed. *)
Theorem prune_keeps_newest items retention :
  exists kept, filter (fun o => terminalPlanPhase (Phase (CP_Status o)) = true) items ≡ₚ kept ++ prune_candidates items retention /\
    length kept = Nat.min retention (length (filter (fun o => terminalPlanPhase (Phase (CP_Status o)) = true) items)) /\
    forall a b, a ∈ kept -> b ∈ prune_candidates items retention -> newer b a = false.
Proof.
  unfold prune_candidates. set (t := filter _ items). exists (take retention (sort_slice newer t)).
  pose proof (sort_slice_sorted newer newer_asym newer_trans t) as Hs. split; [by rewrite take_drop, sort_slice_perm|].
  split; [rewrite length_take, length_sort_slice; lia|]. intros a b Ha Hb.
  rewrite <- (take_drop retention (sort_slice newer t)) in Hs. apply StronglySorted_app in Hs as (Hcross & _ & _).
  by apply (Hcross a b).
Qed.
