(* ===== verification/Runner.v ===== *)
(** * internal/controller/runner.go: one reconciliation cycle

    [Prepare] discovers, applies the policies, lists the provider, plans and
    guards; [applyPrepared] persists and approves the plan, prepares again and
    hands the operations to the provider.  Logging and metrics are left out. *)
From Stdlib Require Import String Ascii ZArith Lia.
From S2P Require Import Prelude GoStrings NetIP GoEncoding Endpoint Plan Document DocumentGraph Executor Queue Client.
From S2P Require Import Policy Sources Gateways ChangePlans.
Open Scope string_scope.
Open Scope list_scope.
Open Scope Z_scope.
Open Scope go_scope.

Record RunnerConfig := mkRunnerConfig {
  R_Sources : list string; R_Namespaces : list string; R_GatewayTargetNamespaces : list string;
  R_DomainFilters : list string; R_DefaultTTL : Z; R_OwnerID : string; R_CleanupPolicy : string;
  R_PublishExternalName : bool; R_PublishHeadless : bool; R_DryRun : bool;
  AllowEmptyDesiredCleanup : bool; MaxCleanupPerCycle : Z;
  ExclusiveZoneOwnership : bool; R_VDOM : string; R_Zone : string;
  PlanOutput : string; ApprovedPlanHash : string }.

(** The options [Prepare] passes to the discovery. *)
Definition source_options (c : RunnerConfig) : Options :=
  mkOptions (R_Sources c) (R_Namespaces c) (R_GatewayTargetNamespaces c) (R_DomainFilters c) (R_DefaultTTL c) (R_Zone c)
    (R_OwnerID c) (R_PublishExternalName c) (R_PublishHeadless c) None 0 0.

(** ** Exclusive zone ownership *)

Definition adoptableRecordType (recordType : string) : bool :=
  let t := ToUpper (TrimSpace recordType) in
  (t =s RecordA) || (t =s RecordAAAA) || (t =s RecordCNAME).

Record restrictedOwnershipConflict := mkRestricted { rc_desired : Endpoint; rc_current : Endpoint }.

Definition sourcesAreRestrictive (sources : list string) : bool :=
  match sources with
  | [] => false
  | _ =>
      let enabled := ToLower <$> sources in
      negb (bool_decide (SourceService ∈ enabled) && bool_decide (SourceIngress ∈ enabled)
            && bool_decide (SourceGateway ∈ enabled))
  end.

Definition conflict_less (a b : Endpoint) : bool :=
  if negb (Key a =s Key b) then Key a <s Key b else ProviderID a <s ProviderID b.

Definition sortEndpointsForConflict (endpoints : list Endpoint) : list Endpoint := sort_slice conflict_less endpoints.

Fixpoint record_sets_match (desiredByKey : gmap string Endpoint) (seen : gset string) (current : list Endpoint) : bool :=
  match current with
  | [] => true
  | c :: rest =>
      match desiredByKey !! Key c with
      | None => false
      | Some d =>
          if negb (EqualRecord c d) then false
          else if bool_decide (Key c ∈ seen) then false
          else record_sets_match desiredByKey ({[Key c]} ∪ seen) rest
      end
  end.

Definition restrictedRecordSetsEqual (current desired : list Endpoint) (desiredByKey : gmap string Endpoint) : bool :=
  if negb (length current =? length desired)%nat then false else record_sets_match desiredByKey ∅ current.

(** The owner a row gets in restricted mode: this controller for an exact match, nobody otherwise. *)
Definition restricted_owner (desiredByKey : gmap string Endpoint) (ownerID : string) (row : Endpoint) : string :=
  if negb (adoptableRecordType (RecordType row)) then ""
  else
    let normalized := Normalize (set_OwnerID "" row) in
    match desiredByKey !! Key normalized with
    | Some d => if EqualRecord normalized d then ownerID else ""
    | None => ""
    end.

Section ownership.
Context `{MapRange}.

Definition conflict_of (currentByGroup : gmap string (list Endpoint)) (desiredByKey : gmap string Endpoint)
    (entry : string * list Endpoint) : option restrictedOwnershipConflict :=
  let currentEndpoints := slice_at currentByGroup entry.1 in
  if (length currentEndpoints =? 0)%nat || restrictedRecordSetsEqual currentEndpoints entry.2 desiredByKey then None
  else Some (mkRestricted (first_of (sortEndpointsForConflict entry.2))
               (first_of (sortEndpointsForConflict currentEndpoints))).

(** The rows with their owners, and the conflicts ([∅] where the code returns nil). *)
Definition prepareExclusiveOwnership (current desired : list Endpoint) (ownerID : string) (restricted : bool)
    : list Endpoint * gmap string restrictedOwnershipConflict :=
  if negb restricted then
    ((fun row => set_OwnerID (if adoptableRecordType (RecordType row) then ownerID else "") row) <$> current, ∅)
  else
    let desiredByKey := index_desired desired in
    let desiredByGroup := group_by MutationGroupKey (map_range 10 desiredByKey).*2 in
    let adoptable := (fun row => Normalize (set_OwnerID "" row)) <$>
                       filter (fun row => adoptableRecordType (RecordType row) = true) current in
    let currentByGroup := group_by MutationGroupKey adoptable in
    ((fun row => set_OwnerID (restricted_owner desiredByKey ownerID row) row) <$> current,
     foldl (fun m entry => match conflict_of currentByGroup desiredByKey entry with
                           | Some c => <[entry.1 := c]> m
                           | None => m
                           end) ∅ (map_range 11 desiredByGroup)).
End ownership.

Definition restrictedReason : string :=
  "restricted exclusive-zone discovery cannot prove ownership of mismatched existing records".

Definition operation_endpoint (op : Operation) : Endpoint :=
  if DNSName (Desired op) =s "" then Current op else Desired op.

Definition enforceRestrictedOwnershipConflicts (operations : list Operation)
    (conflicts : gmap string restrictedOwnershipConflict) : list Operation :=
  if bool_decide (conflicts = ∅) then operations
  else
    let kept := filter (fun op => conflicts !! MutationGroupKey (operation_endpoint op) = None) operations in
    let groups := sort_strings (map_to_list conflicts).*1 in
    let conflictOperations := omap (fun group =>
      (fun c => mkOperation OperationConflict (rc_desired c) (rc_current c) restrictedReason) <$> conflicts !! group) groups in
    conflictOperations ++ kept.

(** ** The mass-cleanup guard *)

Inductive RefusalReason := refusalEmptyDesired | refusalCapExceeded.
Definition cleanupRefusal : Type := option (RefusalReason * Z).

Definition is_cleanup (op : Operation) : bool := (OpType op =s OperationDelete) || (OpType op =s OperationDeactivate).

Definition guardCleanup (operations : list Operation) (desiredCount : Z) (cfg : RunnerConfig) : list Operation * cleanupRefusal :=
  let cleanupCount := Z.of_nat (length (filter (fun op => is_cleanup op = true) operations)) in
  if cleanupCount =? 0 then (operations, None)
  else
    let strip reason := (filter (fun op => is_cleanup op = false) operations, Some (reason, cleanupCount)) in
    if (desiredCount =? 0) && negb (AllowEmptyDesiredCleanup cfg) then strip refusalEmptyDesired
    else if (0 <? MaxCleanupPerCycle cfg) && (MaxCleanupPerCycle cfg <? cleanupCount) then strip refusalCapExceeded
    else (operations, None).

Definition cleanupSourceName (kind : string) : string :=
  let k := ToLower kind in
  if k =s "service" then SourceService
  else if k =s "ingress" then SourceIngress
  else if (k =s "gateway") || (k =s "httproute") then SourceGateway
  else "".

Definition cleanupAllowed (endpoint : Endpoint) (opts : Options) (exclusiveZoneOwnership : bool) : bool :=
  if negb (DomainAllowed opts (DNSName endpoint)) then false
  else if exclusiveZoneOwnership then true
  else if negb (length (Namespaces opts) =? 0)%nat
          && ((Namespace (Source endpoint) =s "") || negb (NamespaceAllowed opts (Namespace (Source endpoint)))) then false
  else if sourcesAreRestrictive (Sources opts)
          && ((cleanupSourceName (Kind (Source endpoint)) =s "")
              || negb (SourceEnabled opts (cleanupSourceName (Kind (Source endpoint))))) then false
  else true.

(** ** The plan of a cycle *)

(** What remains of a discovery after the policies: endpoints, invalid
    namespaces and the names a quota rejected. *)
Record Governed := mkGoverned {
  G_Endpoints : list Endpoint; invalidPolicyNamespaces : list string; quotaRejectedNames : gset string }.

Definition ungoverned (d : Discovered) : Governed := mkGoverned (D_Endpoints d) [] ∅.

Section govern.
Context `{Selectors}.

Definition candidate_of (d : Discovered) (targetName : string) (e : Endpoint) : Candidate :=
  let m := MetadataFor d (Source e) in mkCandidate e targetName (Meta_Labels m) (Meta_Annotations m).

Definition quota_rejected (r : Rejection) : bool :=
  (Rej_Reason r =s ReasonNamespaceQuotaExceeded) || (Rej_Reason r =s ReasonTargetQuotaExceeded).

Definition govern (ev : Evaluator) (d : Discovered) (targetName : string) : Governed :=
  let r := Evaluate (Some ev) (candidate_of d targetName <$> D_Endpoints d) in
  mkGoverned (Cand_Endpoint <$> Pol_Allowed r) (InvalidPolicyNamespaces r)
    (list_to_set ((fun j => NormalizeDNSName (DNSName (Cand_Endpoint (Rejected_Candidate j))))
      <$> filter (fun j => quota_rejected j = true) (Pol_Rejected r))).
End govern.

Section plan.
Context `{MapRange}.
Context (cfg : RunnerConfig).

Definition cleanup_scope (d : Discovered) (g : Governed) (endpoint : Endpoint) : bool :=
  let cleanupSuppressed := HasIncompleteSources d || (0 <? length (invalidPolicyNamespaces g))%nat in
  if cleanupSuppressed then false
  else if bool_decide (NormalizeDNSName (DNSName endpoint) ∈ quotaRejectedNames g) then false
  else cleanupAllowed endpoint (source_options cfg) (ExclusiveZoneOwnership cfg).

Definition ownership_view (g : Governed) (current : list Endpoint)
    : list Endpoint * gmap string restrictedOwnershipConflict :=
  if ExclusiveZoneOwnership cfg then
    let restricted := negb (length (R_Namespaces cfg) =? 0)%nat || sourcesAreRestrictive (R_Sources cfg) in
    prepareExclusiveOwnership current (G_Endpoints g) (R_OwnerID cfg) restricted
  else (current, ∅).

(** The operations of a cycle from what was discovered and listed. *)
Definition plan_cycle (d : Discovered) (g : Governed) (current : list Endpoint) : list Operation * cleanupRefusal :=
  let '(current, conflicts) := ownership_view g current in
  let operations := BuildWithCleanupScope (R_OwnerID cfg) (R_CleanupPolicy cfg) (cleanup_scope d g)
                      (G_Endpoints g) current in
  let operations := enforceRestrictedOwnershipConflicts operations conflicts in
  guardCleanup operations (Z.of_nat (length (G_Endpoints g))) cfg.
End plan.
