(* ===== verification/RunnerLaws.v ===== *)
(** * Properties of a cycle's plan

    The guards around the planner: cleanup needs complete discovery and valid
    policies, a restricted controller only fills absent names, and the number
    of removals is capped. *)
From Stdlib Require Import String Ascii ZArith Lia.
From S2P Require Import Prelude GoStrings NetIP GoEncoding Endpoint Plan PlanSafety PlanLaws Document Executor Client.
From S2P Require Import Policy Sources Gateways Runner.
Open Scope string_scope.
Open Scope list_scope.
Open Scope Z_scope.
Open Scope go_scope.

(** ** Owners do not enter the identity of a row *)

Lemma Key_set_OwnerID o e : Key (Normalize (set_OwnerID o e)) = Key (Normalize e).
Proof. done. Qed.
Lemma MutationGroupKey_set_OwnerID o e : MutationGroupKey (Normalize (set_OwnerID o e)) = MutationGroupKey (Normalize e).
Proof. done. Qed.
Lemma EqualRecord_set_OwnerID o e d : EqualRecord (Normalize (set_OwnerID o e)) d = EqualRecord (Normalize e) d.
Proof. done. Qed.

(** ** The steps after the planner only drop operations or add conflicts *)

Lemma guardCleanup_subset ops n cfg op : op ∈ (guardCleanup ops n cfg).1 -> op ∈ ops.
Proof.
  unfold guardCleanup. cbv zeta. repeat case_match; cbn [fst]; try done; intros Hop; by apply list_elem_of_filter in Hop as [_ ?].
Qed.

Lemma enforce_cases ops conflicts op : op ∈ enforceRestrictedOwnershipConflicts ops conflicts ->
  OpType op = OperationConflict \/ (op ∈ ops /\ conflicts !! MutationGroupKey (operation_endpoint op) = None).
Proof.
  unfold enforceRestrictedOwnershipConflicts. case_bool_decide as E.
  { intros Hop. right. split; [done|]. by rewrite E, lookup_empty. }
  rewrite elem_of_app. intros [Hop|Hop].
  - left. apply list_elem_of_omap in Hop as (g & _ & Hg). apply fmap_Some in Hg as (c & _ & ->). done.
  - right. apply list_elem_of_filter in Hop. tauto.
Qed.

Section cycle.
Context `{MapRange} (cfg : RunnerConfig) (d : Discovered) (g : Governed) (current : list Endpoint).

Let rows := (ownership_view cfg g current).1.
Let conflicts := (ownership_view cfg g current).2.
Let planned := BuildWithCleanupScope (R_OwnerID cfg) (R_CleanupPolicy cfg) (cleanup_scope cfg d g) (G_Endpoints g) rows.

Lemma plan_cycle_cases op : op ∈ (plan_cycle cfg d g current).1 ->
  OpType op = OperationConflict \/ (op ∈ planned /\ conflicts !! MutationGroupKey (operation_endpoint op) = None).
Proof.
  unfold plan_cycle, planned, conflicts, rows. destruct (ownership_view cfg g current) as [r c]. cbn [fst snd].
  intros Hop. apply guardCleanup_subset in Hop. by apply enforce_cases in Hop.
Qed.

Lemma ownership_view_rows row : row ∈ rows -> exists row0 o, row0 ∈ current /\ row = set_OwnerID o row0.
Proof.
  unfold rows, ownership_view, prepareExclusiveOwnership. destruct (ExclusiveZoneOwnership cfg).
  - destruct (negb _); cbn [fst]; intros Hr; apply list_elem_of_fmap in Hr as (r0 & -> & Hr0); eauto.
  - intros Hr. exists row, (OwnerID row). split; [done|]. by destruct row.
Qed.
End cycle.

(** C6. A cycle removes or replaces a record only with full authority: discovery
    was complete, every policy compiled, no quota rejected the name, the name is
    inside the cleanup scope, and the row is one the provider listed and this
    controller owns. *)
Theorem removal_authorized `{MapRange} cfg d g current op :
  op ∈ (plan_cycle cfg d g current).1 ->
  OpType op = OperationDelete \/ OpType op = OperationDeactivate \/ OpType op = OperationReplace ->
  HasIncompleteSources d = false /\ invalidPolicyNamespaces g = [] /\
  (NormalizeDNSName (DNSName (Current op)) ∉ quotaRejectedNames g) /\
  cleanupAllowed (Current op) (source_options cfg) (ExclusiveZoneOwnership cfg) = true /\
  ownedBy (Current op) (R_OwnerID cfg) = true /\
  exists row o, row ∈ current /\ Current op = Normalize (set_OwnerID o row).
Proof.
  intros Hop Ht. apply plan_cycle_cases in Hop as [Hc|[Hop _]]; [by rewrite Hc in Ht; destruct Ht as [?|[?|?]]|].
  apply plan_op_complete, plan_op_justified in Hop.
  assert (Hrem : removable_row (R_OwnerID cfg) (cleanup_scope cfg d g) (ownership_view cfg g current).1 (Current op))
    by (destruct Hop; cbn in Ht |- *; destruct Ht as [Ht|[Ht|Ht]]; done).
  destruct Hrem as [[Hrow Hown] Hscope]. unfold cleanup_scope in Hscope.
  destruct (HasIncompleteSources d); [done|]. cbn [orb] in Hscope.
  destruct (0 <? length (invalidPolicyNamespaces g))%nat eqn:Ei; [done|].
  case_bool_decide as Eq; [done|]. split; [done|]. split; [by destruct (invalidPolicyNamespaces g)|].
  split; [done|]. split; [done|]. split; [done|].
  apply list_elem_of_fmap in Hrow as (r & Hr & Hr0). apply ownership_view_rows in Hr0 as (r0 & o & Hr0 & ->). eauto.
Qed.

(** The mass-cleanup guard bounds a cycle: without any desired record nothing
    is removed unless that is allowed, with a cap at most that many records are
    removed, and every operation that is not a removal passes unchanged. *)
Theorem cleanup_guarded ops n cfg :
  let ops' := (guardCleanup ops n cfg).1 in
  let removals := Z.of_nat (length (filter (fun op => is_cleanup op = true) ops')) in
  (n = 0 -> AllowEmptyDesiredCleanup cfg = false -> removals = 0) /\
  (0 < MaxCleanupPerCycle cfg -> removals <= MaxCleanupPerCycle cfg) /\
  filter (fun op => is_cleanup op = false) ops' = filter (fun op => is_cleanup op = false) ops.
Proof.
  cbv zeta. unfold guardCleanup. set (count := Z.of_nat (length (filter (fun op => is_cleanup op = true) ops))).
  assert (Hstrip : filter (fun op => is_cleanup op = true) (filter (fun op => is_cleanup op = false) ops) = []).
  { apply elem_of_nil_inv. intros op Hop. apply list_elem_of_filter in Hop as [H1 Hop]. apply list_elem_of_filter in Hop as [H2 _]. congruence. }
  assert (Hidem : filter (fun op => is_cleanup op = false) (filter (fun op => is_cleanup op = false) ops)
                  = filter (fun op => is_cleanup op = false) ops).
  { rewrite list_filter_filter. apply list_filter_iff. tauto. }
  destruct (Z.eqb_spec count 0) as [E0|E0]; cbn [fst]; [fold count; split; [done|]; split; [lia|done]|].
  destruct ((n =? 0) && _) eqn:E1; cbn [fst]; [rewrite Hstrip; cbn; split; [done|]; split; [lia|done]|].
  destruct ((0 <? _) && _) eqn:E2; cbn [fst]; [rewrite Hstrip; cbn; split; [done|]; split; [lia|done]|].
  fold count. split; [|split; [|done]].
  - intros -> Ha. rewrite Ha in E1. done.
  - intros Hm. apply andb_false_iff in E2 as [E2|E2]; [apply Z.ltb_ge in E2; lia|by apply Z.ltb_ge in E2].
Qed.

(** ** Restricted exclusive ownership *)

Lemma record_sets_match_spec dbk l : forall seen, record_sets_match dbk seen l = true ->
  NoDup (Key <$> l) /\ (forall c, c ∈ l -> (Key c ∉ seen) /\ exists x, dbk !! Key c = Some x /\ EqualRecord c x = true).
Proof.
  induction l as [|c l IH]; intros seen; cbn [record_sets_match]; [intros _; split; [constructor|by intros ? ?%not_elem_of_nil]|].
  destruct (dbk !! Key c) as [x|] eqn:Ex; [|done]. destruct (EqualRecord c x) eqn:Ee; cbn [negb]; [|done].
  case_bool_decide as Es; [done|]. intros Hr. apply IH in Hr as [Hnd Hall]. split.
  - rewrite fmap_cons. constructor; [|done]. intros Hin. apply list_elem_of_fmap in Hin as (c' & Hk & Hc').
    destruct (Hall c' Hc') as [Hns _]. apply Hns. rewrite <- Hk. set_solver.
  - intros c' Hc'. apply elem_of_cons in Hc' as [->|Hc']; [eauto|]. destruct (Hall c' Hc') as [Hns Hx]. split; [set_solver|done].
Qed.

Lemma filter_imp_length {A} (P Q : A -> Prop) `{!forall x, Decision (P x)} `{!forall x, Decision (Q x)} (l : list A) :
  (forall x, x ∈ l -> P x -> Q x) -> (length (filter P l) <= length (filter Q l))%nat.
Proof.
  induction l as [|x l IH]; intros Hpq; [done|]. rewrite !filter_cons.
  assert (IH' : (length (filter P l) <= length (filter Q l))%nat) by (apply IH; intros y Hy; apply Hpq; by right).
  destruct (decide (P x)) as [Hp|Hp]; destruct (decide (Q x)) as [Hq|Hq]; simpl; try lia.
  destruct Hq. apply Hpq; [left|done].
Qed.

Lemma NoDup_one_key l k : NoDup (Key <$> l) -> (forall x, x ∈ l -> Key x = k) -> (length l <= 1)%nat.
Proof.
  destruct l as [|a [|b l]]; intros Hnd Hk; simpl; try lia. rewrite !fmap_cons in Hnd. inversion_clear Hnd as [|? ? Hn _].
  destruct Hn. rewrite (Hk a), (Hk b) by set_solver. left.
Qed.

Lemma filter_fmap_eq {A B} (f : A -> B) (P : B -> Prop) `{!forall x, Decision (P x)} (l : list A) :
  filter P (f <$> l) = f <$> filter (fun x => P (f x)) l.
Proof.
  induction l as [|x l IH]; [done|]. rewrite fmap_cons, !filter_cons. destruct (decide (P (f x))); [|done].
  by rewrite fmap_cons, IH.
Qed.

Lemma NoDup_fmap_filter {A B} (f : A -> B) (P : A -> Prop) `{!forall x, Decision (P x)} (l : list A) :
  NoDup (f <$> l) -> NoDup (f <$> filter P l).
Proof.
  induction l as [|x l IH]; [done|]. rewrite fmap_cons, filter_cons. intros Hnd. inversion_clear Hnd as [|? ? Hx Hl].
  destruct (decide (P x)); [|auto]. rewrite fmap_cons. constructor; [|auto]. intros Hin. apply Hx.
  apply list_elem_of_fmap in Hin as (y & -> & Hy). apply list_elem_of_filter in Hy as [_ Hy]. by apply list_elem_of_fmap_2.
Qed.

(** A loop that stores what [f] returns stores something for every entry where it does. *)
Lemma foldl_insert_Some {A B} (f : string * A -> option B) (l : list (string * A)) y es :
  (y, es) ∈ l -> is_Some (f (y, es)) ->
  is_Some (foldl (fun (m : gmap string B) entry => match f entry with Some c => <[entry.1 := c]> m | None => m end) ∅ l !! y).
Proof.
  revert y es. apply (foldl_ind_done (fun dn (m : gmap string B) => forall y es, (y, es) ∈ dn -> is_Some (f (y, es)) -> is_Some (m !! y))).
  { by intros ? ? ?%not_elem_of_nil. }
  intros dn m [y0 es0] _ IH y es Hy Hs. apply elem_of_app in Hy as [Hy|Hy%list_elem_of_singleton].
  - specialize (IH y es Hy Hs). destruct (f (y0, es0)); [|done]. cbn [fst]. destruct (decide (y0 = y)) as [->|].
    + rewrite lookup_insert_eq. eauto.
    + by rewrite lookup_insert_ne.
  - simplify_eq. destruct Hs as [c Ec]. rewrite Ec. cbn [fst]. rewrite lookup_insert_eq. eauto.
Qed.

Section restricted.
Context `{MapRange} (ownerID : string) (desired current : list Endpoint).
Hypothesis Howner : TrimSpace ownerID <> "".
Hypothesis Hpipe : Forall no_pipe (desired ++ current).

Let view := prepareExclusiveOwnership current desired ownerID true.
Let rows := view.1.
Let conflicts := view.2.
Let dbk := index_desired desired.
Let adoptable := (fun row => Normalize (set_OwnerID "" row)) <$>
                   filter (fun row => adoptableRecordType (RecordType row) = true) current.
Definition group_rows_of (k : string) : list Endpoint := filter (fun e => MutationGroupKey e = k) adoptable.
Definition group_desired_of (k : string) : list Endpoint :=
  filter (fun e => MutationGroupKey e = k) (map_range 10 dbk).*2.

Lemma restricted_rows_pipe : Forall no_pipe (desired ++ rows).
Proof using Hpipe.
  apply Forall_app in Hpipe as [Hd Hc]. apply Forall_app. split; [done|]. unfold rows, view, prepareExclusiveOwnership. cbn.
  apply Forall_fmap. eapply Forall_impl; [exact Hc|]. done.
Qed.

(** An owned row matches the desired record of its key, and is adoptable. *)
Lemma restricted_owned row : row ∈ current ->
  ownedBy (Normalize (set_OwnerID (restricted_owner dbk ownerID row) row)) ownerID = true ->
  adoptableRecordType (RecordType row) = true /\
  exists x, dbk !! Key (Normalize row) = Some x /\ EqualRecord (Normalize row) x = true.
Proof using Howner.
  intros _ Ho. unfold ownedBy in Ho. apply eqb_eq_iff in Ho.
  change (OwnerID (Normalize (set_OwnerID (restricted_owner dbk ownerID row) row)))
    with (restricted_owner dbk ownerID row) in Ho.
  unfold restricted_owner in Ho. destruct (adoptableRecordType (RecordType row)); cbn [negb] in Ho; [|by destruct Howner].
  rewrite Key_set_OwnerID in Ho. destruct (dbk !! Key (Normalize row)) as [x|]; [|by destruct Howner].
  rewrite EqualRecord_set_OwnerID in Ho. destruct (EqualRecord (Normalize row) x) eqn:E; [eauto|by destruct Howner].
Qed.

Lemma restricted_row_origin e : is_row rows e ->
  exists row, row ∈ current /\ e = Normalize (set_OwnerID (restricted_owner dbk ownerID row) row).
Proof.
  intros He. apply list_elem_of_fmap in He as (r & -> & Hr). unfold rows, view, prepareExclusiveOwnership in Hr. cbn in Hr.
  apply list_elem_of_fmap in Hr as (row & -> & Hrow). eauto.
Qed.

Lemma restricted_owned_row e : owned_row ownerID rows e ->
  exists x, is_desired desired x /\ Key x = Key e /\ EqualRecord e x = true.
Proof using Howner.
  intros [He Ho]. apply restricted_row_origin in He as (row & Hrow & ->).
  apply restricted_owned in Ho as (_ & x & Hx & Ex); [|done]. exists x.
  assert (Hk : Key x = Key (Normalize row)) by (by rewrite (index_desired_key _ _ _ Hx)).
  rewrite Key_set_OwnerID, EqualRecord_set_OwnerID. unfold is_desired. by rewrite Hk.
Qed.

(** The entry of a name in the map of conflicts. *)
Lemma no_conflict_cases k x : conflicts !! k = None -> is_desired desired x -> MutationGroupKey x = k ->
  group_rows_of k = [] \/ restrictedRecordSetsEqual (group_rows_of k) (group_desired_of k) dbk = true.
Proof.
  intros Hc Hx Hk.
  assert (Hin : x ∈ group_desired_of k).
  { apply list_elem_of_filter. split; [done|]. apply list_elem_of_fmap. exists (Key x, x). split; [done|]. by apply elem_of_map_range. }
  assert (Hg : group_by MutationGroupKey (map_range 10 dbk).*2 !! k = Some (group_desired_of k)).
  { apply group_by_lookup. split; [done|]. intros E. rewrite E in Hin. by apply not_elem_of_nil in Hin. }
  assert (Hnone : conflict_of (group_by MutationGroupKey adoptable) dbk (k, group_desired_of k) = None).
  { revert Hc. unfold conflicts, view, prepareExclusiveOwnership. cbn [negb snd]. cbv zeta. fold dbk adoptable.
    set (f := conflict_of _ _).
    intros Hm. destruct (f (k, group_desired_of k)) eqn:Ef; [|done].
    destruct (foldl_insert_Some f (map_range 11 (group_by MutationGroupKey (map_range 10 dbk).*2)) k (group_desired_of k)) as [? E];
      [by apply elem_of_map_range|by rewrite Ef|]. by rewrite E in Hm. }
  unfold conflict_of in Hnone. cbn [fst snd] in Hnone. rewrite slice_at_group_by in Hnone. fold (group_rows_of k) in Hnone.
  destruct (_ || _) eqn:E; [|done]. apply orb_true_iff in E as [E|E]; [|by right]. left. by destruct (group_rows_of k).
Qed.

(** A name without conflict has at most one owned row per key. *)
Lemma owned_for_single k x : conflicts !! k = None -> is_desired desired x -> MutationGroupKey x = k ->
  (length (owned_for ownerID desired rows (Key x)) <= 1)%nat.
Proof using Howner Hpipe.
  intros Hc Hx Hk. unfold owned_for, partitionOwned. cbn [fst]. rewrite length_sort_slice.
  cbn [currentByKey build_index]. rewrite slice_at_group_by, list_filter_filter.
  assert (Hmap : Normalize <$> rows = (fun row => Normalize (set_OwnerID (restricted_owner dbk ownerID row) row)) <$> current).
  { unfold rows, view, prepareExclusiveOwnership. cbn [negb fst]. by rewrite <- list_fmap_compose. }
  rewrite Hmap, filter_fmap_eq, length_fmap.
  assert (Hlen : (length (filter (fun e => Key e = Key x) (group_rows_of k)) <= 1)%nat).
  { destruct (no_conflict_cases k x Hc Hx Hk) as [Hn|He]; [rewrite Hn; cbn; lia|].
    unfold restrictedRecordSetsEqual in He. destruct (negb _); [done|]. apply record_sets_match_spec in He as [Hnd _].
    apply (NoDup_one_key _ (Key x)); [by apply NoDup_fmap_filter|]. intros e He'. by apply list_elem_of_filter in He' as [? _]. }
  etrans; [|exact Hlen]. unfold group_rows_of, adoptable.
  rewrite list_filter_filter, filter_fmap_eq, length_fmap, list_filter_filter. apply filter_imp_length.
  intros row Hrow [Ho Hkey]. rewrite Key_set_OwnerID in Hkey.
  destruct (restricted_owned row Hrow Ho) as [Ha _].
  rewrite Key_set_OwnerID, MutationGroupKey_set_OwnerID. split; [|done]. split; [exact Hkey|]. rewrite <- Hk.
  refine (proj2 (Key_coarser (Normalize row) x _ _ Hkey)).
  - apply no_pipe_pipe_free, Normalize_no_pipe. rewrite Forall_forall in Hpipe. apply Hpipe, elem_of_app. by right.
  - by apply (desired_pipe_free desired current Hpipe).
Qed.

(** In a name without conflict that has rows, every desired record has one. *)
Lemma group_covered k x : conflicts !! k = None -> is_desired desired x -> MutationGroupKey x = k ->
  group_rows_of k <> [] -> exists e, owned_row ownerID rows e /\ Key e = Key x.
Proof using Hpipe.
  intros Hc Hx Hk Hne. destruct (no_conflict_cases k x Hc Hx Hk) as [Hn|He]; [done|].
  unfold restrictedRecordSetsEqual in He. destruct (length _ =? length _)%nat eqn:El; cbn [negb] in He; [|done].
  apply Nat.eqb_eq in El. apply record_sets_match_spec in He as [Hnd Hall].
  assert (Hrow : forall c, c ∈ group_rows_of k -> exists row, row ∈ current /\ adoptableRecordType (RecordType row) = true /\
                   c = Normalize (set_OwnerID "" row) /\ MutationGroupKey c = k).
  { intros c Hcin. apply list_elem_of_filter in Hcin as [Hg Hcin]. apply list_elem_of_fmap in Hcin as (row & -> & Hr).
    apply list_elem_of_filter in Hr as [Ha Hr]. eauto. }
  assert (Hxin : Key x ∈ Key <$> group_rows_of k).
  { assert (Hperm : (Key <$> group_rows_of k) ≡ₚ (Key <$> group_desired_of k)).
    { apply submseteq_length_Permutation; [|rewrite !length_fmap; lia]. apply NoDup_submseteq; [done|].
      intros y Hy. apply list_elem_of_fmap in Hy as (c & -> & Hcin). destruct (Hall c Hcin) as [_ (x' & Hx' & _)].
      pose proof (index_desired_key _ _ _ Hx') as Ekey. rewrite Ekey. apply list_elem_of_fmap_2.
      apply list_elem_of_filter. split.
      - destruct (Hrow c Hcin) as (row & Hr & _ & -> & <-). symmetry.
        refine (proj2 (Key_coarser _ x' _ _ Ekey)).
        + rewrite Forall_forall in Hpipe. apply no_pipe_pipe_free, (Normalize_no_pipe (set_OwnerID "" row)).
          apply (Hpipe row), elem_of_app. by right.
        + apply (desired_pipe_free desired current Hpipe). unfold is_desired. by rewrite <- Ekey.
      - apply list_elem_of_fmap. exists (Key c, x'). split; [done|]. by apply elem_of_map_range. }
    rewrite Hperm. apply list_elem_of_fmap_2, list_elem_of_filter. split; [done|].
    apply list_elem_of_fmap. exists (Key x, x). split; [done|]. by apply elem_of_map_range. }
  apply list_elem_of_fmap in Hxin as (c & Hkc & Hcin). destruct (Hall c Hcin) as [_ (x' & Hx' & Heq)].
  destruct (Hrow c Hcin) as (row & Hr & Ha & -> & _). rewrite Key_set_OwnerID in *.
  exists (Normalize (set_OwnerID (restricted_owner dbk ownerID row) row)). split; [|by rewrite Key_set_OwnerID].
  split.
  - apply list_elem_of_fmap. eexists. split; [reflexivity|]. unfold rows, view, prepareExclusiveOwnership. cbn [negb fst].
    apply list_elem_of_fmap. eauto.
  - unfold ownedBy, restricted_owner. rewrite Ha. cbn [negb]. rewrite Key_set_OwnerID. fold dbk in Hx'. rewrite Hx', Heq.
    apply eqb_eq_iff. done.
Qed.

(** A replacement of a CNAME would need an owned row that differs from its desired record. *)
Lemma restricted_no_replacement cleanup scope k op :
  cnameReplacements (plan_state ownerID cleanup scope desired rows) !! k = Some op -> False.
Proof using Howner Hpipe.
  intros Hop. pose proof (replacement_unique ownerID cleanup scope desired rows k op Hop) as [Hd Ho].
  pose proof restricted_rows_pipe as Hrp.
  assert (Hc : Current op ∈ group_owned ownerID desired rows k) by (rewrite Ho; left).
  apply elem_of_group_owned in Hc as [Hc Hg]. destruct (restricted_owned_row _ Hc) as (x & Hx & Hk & He).
  assert (Hgx : MutationGroupKey x = k).
  { rewrite <- Hg. apply (Key_coarser x (Current op)); [by apply (desired_pipe_free desired rows Hrp)| |done].
    apply (row_pipe_free desired rows Hrp). apply Hc. }
  assert (Hxd : x = Desired op).
  { assert (Hin : x ∈ group_desired desired rows k) by (by apply elem_of_group_desired). rewrite Hd in Hin.
    by apply list_elem_of_singleton in Hin. }
  assert (Ht : transition ownerID desired rows k).
  { destruct (transition_maps ownerID cleanup scope desired rows k) as (H1 & _ & _).
    rewrite (proj2 (plan_state_maps ownerID cleanup scope desired rows)) in Hop.
    destruct H1 as (_ & Ht & _); [by rewrite Hop|done]. }
  unfold transition in Ht. rewrite Hd, Ho, <- Hxd in Ht. destruct Ht as [Ht|Ht].
  - unfold needsCNAMETargetReplacement in Ht. destruct (negb _); [done|]. cbn [existsb] in Ht.
    rewrite Hk, String.eqb_refl in Ht. done.
  - unfold hasCNAMETypeTransition in Ht. cbn [existsb] in Ht. rewrite !orb_false_r in Ht.
    apply EqualRecord_spec in He as (_ & Hty & _). destruct Hc as [Hc _].
    apply list_elem_of_fmap in Hc as (c0 & Hc0 & _). apply index_desired_Some in Hx as (d0 & _ & Hd0 & _).
    rewrite Hc0, Hd0, !RecordType_Normalize in Hty. rewrite Hc0, Hd0, Hty in Ht. unfold cnameTypesConflict in Ht.
    by rewrite String.eqb_refl in Ht.
Qed.

Lemma restricted_stale cleanup scope c :
  stale_ok ownerID scope desired rows (mutationConflicts (plan_state ownerID cleanup scope desired rows))
    (cnameReplacements (plan_state ownerID cleanup scope desired rows)) c ->
  conflicts !! MutationGroupKey c = None -> False.
Proof using Howner Hpipe.
  intros [[Hrow _] Hs] Hn. destruct Hs as [(x & (Hx & _) & Hc)|[_ Hnone]].
  - pose proof restricted_rows_pipe as Hrp.
    assert (Hcin : c ∈ owned_for ownerID desired rows (Key x)).
    { destruct (owned_for _ _ _ _) as [|a l]; [by apply not_elem_of_nil in Hc|by right]. }
    apply (owned_for_coarser ownerID desired rows Hrp) in Hcin as [_ Hg]; [|done].
    rewrite Hg in Hn. pose proof (owned_for_single _ x Hn Hx eq_refl) as Hl.
    destruct (owned_for _ _ _ _) as [|a [|b l]]; cbn in Hl; [by apply not_elem_of_nil in Hc..|lia].
  - destruct (restricted_owned_row c Hrow) as (x & Hx & Hk & _). unfold is_desired in Hx. rewrite Hk in Hx. congruence.
Qed.

Lemma restricted_plan cleanup scope op :
  (forall x, is_desired desired x -> DNSName x <> "") ->
  op ∈ BuildWithCleanupScope ownerID cleanup scope desired rows ->
  conflicts !! MutationGroupKey (operation_endpoint op) = None ->
  OpType op = OperationConflict \/
  (exists x, op = create_operation x /\ is_desired desired x /\ group_rows_of (MutationGroupKey x) = []).
Proof using Howner Hpipe.
  intros Hnames Hop Hn. pose proof restricted_rows_pipe as Hrp.
  pose proof (plan_state_facts ownerID cleanup scope desired rows) as F.
  apply plan_op_complete in Hop. destruct Hop as [op Hm|k op Hr|op _ (x & c & -> & Hx & Hc & Hlk & _)|x Hx|c op Hc Hop].
  - left. destruct Hm as [k op Hm|? ? ? _ _ _ _ _|x c r (Hx & _) Hh He]; [|done|].
    + destruct (pf_conflicts _ _ _ _ _ _ F k op Hm) as (? & ? & ? & -> & _). done.
    + exfalso. assert (Hc : c ∈ owned_for ownerID desired rows (Key x)) by (destruct (owned_for _ _ _ _); [done|injection Hh as <-; left]).
      apply owned_for_elem in Hc as [Hc Hk]. destruct (restricted_owned_row c Hc) as (x' & Hx' & Hk' & He').
      unfold is_desired in Hx, Hx'. rewrite Hk', Hk, Hx in Hx'. injection Hx' as <-. congruence.
  - exfalso. by eapply restricted_no_replacement.
  - exfalso. apply pf_all_stale in Hc. eapply restricted_stale; [exact Hc|].
    apply pf_candidates in Hx as [(Hd & _) _]. unfold operation_endpoint in Hn. cbn [Desired Current] in Hn.
    rewrite (proj2 (eqb_neq_iff _ _) (Hnames x Hd)) in Hn. rewrite <- Hn. f_equal.
    destruct Hc as [[[Hrow _] _] _]. apply LogicalKey_coarser; [by apply (row_pipe_free desired rows Hrp)| |done].
    by apply (desired_pipe_free desired rows Hrp).
  - right. exists x. split; [done|]. apply pf_creates in Hx as [(Hd & _) Hnil]. split; [done|].
    unfold operation_endpoint in Hn. cbn [Desired Current create_operation] in Hn.
    rewrite (proj2 (eqb_neq_iff _ _) (Hnames x Hd)) in Hn.
    destruct (decide (group_rows_of (MutationGroupKey x) = [])) as [|Hne]; [done|].
    destruct (group_covered _ x Hn Hd eq_refl Hne) as (e & He & Hk).
    exfalso. eapply owned_for_nil; [exact Hnil|exact He|exact Hk].
  - exfalso. apply pf_stales in Hc. eapply restricted_stale; [exact Hc|]. rewrite <- Hn. f_equal.
    destruct (cleanup_operation_cases cleanup _ c op Hop) as [_ [[_ ->]|(_ & _ & ->)]]; [done|].
    unfold operation_endpoint. cbn [Desired Current]. by destruct (_ =s _).
Qed.
End restricted.

(** A restricted controller only fills gaps: in exclusive-zone mode with
    restricted namespaces or sources, a cycle contains no update, replacement or
    removal at all, and it creates records only for names for which the provider
    lists no A, AAAA or CNAME row. *)
Theorem restricted_fills_absent_names `{MapRange} cfg d g current op :
  ExclusiveZoneOwnership cfg = true ->
  negb (length (R_Namespaces cfg) =? 0)%nat || sourcesAreRestrictive (R_Sources cfg) = true ->
  TrimSpace (R_OwnerID cfg) <> "" -> Forall no_pipe (G_Endpoints g ++ current) ->
  (forall e, e ∈ G_Endpoints g -> NormalizeDNSName (DNSName e) <> "") ->
  op ∈ (plan_cycle cfg d g current).1 ->
  OpType op = OperationConflict \/
  (OpType op = OperationCreate /\
   forall row, row ∈ current -> adoptableRecordType (RecordType row) = true ->
     MutationGroupKey (Normalize row) <> MutationGroupKey (Desired op)).
Proof.
  intros Hex Hres How Hpipe Hnames Hop.
  apply plan_cycle_cases in Hop as [Hc|[Hop Hn]]; [by left|].
  unfold ownership_view in Hop, Hn. rewrite Hex, Hres in Hop, Hn.
  destruct (restricted_plan (R_OwnerID cfg) (G_Endpoints g) current How Hpipe (R_CleanupPolicy cfg) (cleanup_scope cfg d g) op)
    as [Hc|(x & -> & Hx & Hnil)]; [|exact Hop|exact Hn|by left|].
  - intros x Hx. apply index_desired_Some in Hx as (x0 & Hx0 & -> & _). by apply Hnames.
  - right. split; [done|]. intros row Hrow Ha Hg. apply (not_elem_of_nil (Normalize (set_OwnerID "" row))). rewrite <- Hnil.
    apply list_elem_of_filter. split; [exact Hg|]. apply list_elem_of_fmap. exists row. split; [done|].
    by apply list_elem_of_filter.
Qed.
