(* ===== verification/Apply.v ===== *)
(** * internal/controller/runner.go: preparing and applying a cycle

    The audit that [Prepare] hands over, the validation of the provider's
    results, and [applyPrepared] with persistence, approval and revalidation.
    The device, the stored plans and the cluster share one world state [W]. *)
From Stdlib Require Import String Ascii ZArith Lia.
From S2P Require Import Prelude GoStrings NetIP GoEncoding Endpoint Plan Document DocumentGraph Executor Queue Client.
From S2P Require Import Policy Sources Gateways ChangePlans Runner.
Open Scope string_scope.
Open Scope list_scope.
Open Scope Z_scope.
Open Scope go_scope.

(** ** Results of the provider *)

Definition operation_id (op : Operation) : string := SO_ID (SanitizeOperation op).

Definition expected_operations (operations : list Operation) : gmap string Operation :=
  foldl (fun m op => <[operation_id op := op]> m) ∅ operations.

Definition outcome_step (expected : gmap string Operation) (dryRun : bool) (st : gset string * bool) (o : OperationOutcome)
    : gset string * bool :=
  let '(seen, valid) := st in
  match expected !! OO_OperationID o with
  | None => (seen, false)
  | Some op =>
      if bool_decide (OO_OperationID o ∈ seen) then (seen, false)
      else
        let valid := valid && negb (dryRun && bool_decide (Result o = ApplySucceeded)) in
        let valid := valid && negb ((OpType op =s OperationConflict)
                       && (negb (bool_decide (Result o = ApplyBlocked)) || negb (OO_Reason o =s "planning-conflict"))) in
        ({[OO_OperationID o]} ∪ seen, valid)
  end.

(** The outcomes are returned unchanged. *)
Definition validateOperationOutcomes (operations : list Operation) (outcomes : list OperationOutcome) (dryRun : bool) : bool :=
  let expected := expected_operations operations in
  let '(seen, valid) := foldl (outcome_step expected dryRun) (∅, (size expected =? length operations)%nat) outcomes in
  valid && forallb (fun id => bool_decide (id ∈ seen)) (map_to_list expected).*1.

(** A missing outcome is the zero value, which did not succeed. *)
Definition operationExecutionSucceeded (operations : list Operation) (outcomes : list OperationOutcome) (dryRun : bool) : bool :=
  let byID := foldl (fun (m : gmap string OperationOutcome) o => <[OO_OperationID o := o]> m) ∅ outcomes in
  forallb (fun op =>
    match byID !! operation_id op with
    | None => false
    | Some o => (dryRun && bool_decide (Result o = ApplyBlocked) && (OO_Reason o =s "dry-run"))
                || bool_decide (Result o = ApplySucceeded)
    end) operations.

Definition hasActionableOperation (operations : list Operation) : bool :=
  existsb (fun op => negb (OpType op =s OperationConflict)) operations.

Definition hasPlanningConflict (operations : list Operation) : bool :=
  existsb (fun op => OpType op =s OperationConflict) operations.

(** ** The document of a cycle *)

Definition json_generation (e : Endpoint) : json :=
  JObject [("Key", JString (Key e)); ("OwnerID", JString (OwnerID e)); ("APIVersion", JString (APIVersion (Source e)));
           ("Kind", JString (Kind (Source e))); ("Namespace", JString (Namespace (Source e)));
           ("Name", JString (Name (Source e))); ("UID", JString (UID (Source e)));
           ("TTL", JInt (TTL e)); ("Disabled", JBool (Disabled e))].

Definition be_uint64 (bytes : list Z) : Z := foldl (fun acc b => acc * 256 + b) 0 (take 8 bytes).

Definition endpointSetGeneration (endpoints : list Endpoint) : Z :=
  let values := sort_strings ((fun e => Marshal (json_generation (Normalize e))) <$> endpoints) in
  Z.land (be_uint64 (Sum256 (bytes_of (Join values (String "010" ""))))) (2 ^ 63 - 1).

Definition oneShotDocument (cfg : RunnerConfig) (d : Discovered) (endpoints : list Endpoint) (policyComplete : bool)
    (providerRevision : string) (operations : list Operation) : Document :=
  let sources := (fun name => mkDiscoverySource name "" "" "" (SourceComplete d name)) <$> sort_strings (R_Sources cfg) in
  let doc := NewDocument (mkTargetIdentity "" "default" "" 0 (R_VDOM cfg) (R_Zone cfg))
    (mkPreconditions (mkProviderPrecondition providerRevision true true)
       (mkDiscovery (endpointSetGeneration endpoints) (negb (HasIncompleteSources d)) sources)
       (mkPolicyPrecondition 0 policyComplete []) []) operations in
  mkDocument (Doc_APIVersion doc) (Doc_Kind doc) (Target doc) (Doc_Preconditions doc) (Operations doc) (Prerequisites doc)
    [mkSafetyDecision "provider-snapshot-stable" true [];
     mkSafetyDecision "discovery-complete" (negb (HasIncompleteSources d)) []].

Definition with_target (doc : Document) (t : TargetIdentity) : Document :=
  mkDocument (Doc_APIVersion doc) (Doc_Kind doc) t (Doc_Preconditions doc) (Operations doc) (Prerequisites doc)
    (SafetyDecisions doc).

Definition with_ownership (doc : Document) (claims : list OwnershipPrecondition) : Document :=
  let p := Doc_Preconditions doc in
  mkDocument (Doc_APIVersion doc) (Doc_Kind doc) (Target doc)
    (mkPreconditions (Provider p) (Discovery p) (Policy p) claims) (Operations doc) (Prerequisites doc) (SafetyDecisions doc).

Record ReconcileAudit := mkAudit {
  Audit_Operations : list Operation; Audit_Document : Document; Audit_PlanHash : string; Audit_ProviderRevision : string;
  DesiredCount : Z; CurrentCount : Z; ConflictCount : Z; PlanRequested : bool; DiscoveryComplete : bool;
  ProviderSnapshotStable : bool; PolicyComplete : bool }.

Inductive RunError :=
| RunDiscovery (e : string) | RunPolicy (e : string) | RunProvider (e : ClientError) | RunRevision | RunOwnership (e : string)
| RunDocument | RunCancelled (e : string) | RunFile (e : string) | RunApproval (e : string) | RunStore (e : StoreError)
| RunRevalidate (e : RunError) | RunDrift | RunAuthority (e : string) | RunApply (es : list ClientError)
| RunResults (es : list ClientError).

Section runner.
Context {W : Type} `{Selectors} `{IDNA} `{KeyValidation} `{MapRange}.
Context (PrefixString : Prefix -> string).

(** The collaborators of a [Runner]; [None] stands for a nil field. *)
Record RunnerEnv := mkRunnerEnv {
  cluster_of : W -> Cluster;
  context_of : W -> nat -> option string;             (* the checks of a discovery *)
  policies_of : option (W -> string -> result string (list NamedPolicy));
  device : Device W;
  client_config : ClientConfig;
  ownership_of : option (W -> list Operation -> string -> W * result string (list OwnershipPrecondition));
  plan_store : option (PlanAPI W);
  plan_namespace : string;
  approval_required : bool;
  plan_retention : Z;
  require_stable_revision : bool;
  target_identity : TargetIdentity;
  target_name : string;
  before_mutation : option (W -> W * option string);
  write_file : W -> string -> string -> W * option string;    (* path, canonical bytes *)
  ctx_err : W -> option string;
  parent_err : W -> option string;
  wraps_context : string -> bool                     (* errors.Is with a context error, of an authority error *)
}.

Context (cfg : RunnerConfig) (env : RunnerEnv).

Definition targetName : string := if TrimSpace (target_name env) =s "" then "default" else TrimSpace (target_name env).

Definition plan_requested : bool :=
  negb (PlanOutput cfg =s "") || negb (ApprovedPlanHash cfg =s "") || bool_decide (is_Some (plan_store env))
  || require_stable_revision env.

Definition policy_bounds : Bounds :=
  mkBounds (R_Sources cfg) (R_DomainFilters cfg) (Some (mkTTLRange 1 MaxTTL)) [] [].

Definition governed (w : W) (d : Discovered) : result RunError Governed :=
  match policies_of env with
  | None => Ok (ungoverned d)
  | Some list_policies =>
      match list_all (list_policies w) (R_Namespaces cfg) with
      | Err e => Err (RunPolicy e)
      | Ok named =>
          match NewEvaluator PrefixString policy_bounds named with
          | Err e => Err (RunPolicy e)
          | Ok ev => Ok (govern ev d targetName)
          end
      end
  end.

(** The provider's rows, with a revision when a plan is requested. *)
Definition list_current (w : W) : W * result RunError (list Endpoint * string) :=
  if plan_requested then
    match ListRecordsWithRevision (device env) (client_config env) w with
    | (w, Err e) => (w, Err (RunProvider e))
    | (w, Ok (records, revision)) =>
        if TrimSpace revision =s "" then (w, Err RunRevision) else (w, Ok (records, revision))
    end
  else match ListRecords (device env) (client_config env) w with
       | (w, Err e) => (w, Err (RunProvider e))
       | (w, Ok records) => (w, Ok (records, ""))
       end.

Definition cycle_document (d : Discovered) (g : Governed) (revision : string) (operations : list Operation) : Document :=
  let doc := oneShotDocument cfg d (G_Endpoints g) (bool_decide (invalidPolicyNamespaces g = [])) revision operations in
  if negb (TI_Name (target_identity env) =s "") then with_target doc (target_identity env)
  else with_target doc (mkTargetIdentity (TI_Namespace (Target doc)) targetName (TI_UID (Target doc))
                          (TI_Generation (Target doc)) (TI_VDOM (Target doc)) (TI_Zone (Target doc))).

(** The document with the ownership preconditions and its hash; both empty when no plan is requested. *)
Definition identify (w : W) (d : Discovered) (g : Governed) (revision : string) (operations : list Operation)
    : W * result RunError (Document * string) :=
  let zero := mkDocument "" "" (mkTargetIdentity "" "" "" 0 "" "")
    (mkPreconditions (mkProviderPrecondition "" false false) (mkDiscovery 0 false []) (mkPolicyPrecondition 0 false []) [])
    [] [] [] in
  if negb plan_requested then (w, Ok (zero, ""))
  else
    let doc := cycle_document d g revision operations in
    let finish w doc := match ID doc with Ok hash => (w, Ok (doc, hash)) | Err _ => (w, Err RunDocument) end in
    match ownership_of env with
    | None => finish w doc
    | Some claims =>
        match claims w operations revision with
        | (w, Err e) => (w, Err (RunOwnership e))
        | (w, Ok l) => finish w (with_ownership doc l)
        end
    end.

Definition Prepare (w : W) : W * result RunError ReconcileAudit :=
  match Discover (context_of env w) (cluster_of env w) (source_options cfg) with
  | (_, _, Some e) => (w, Err (RunDiscovery e))
  | (_, d, None) =>
      match governed w d with
      | Err e => (w, Err e)
      | Ok g =>
          match list_current w with
          | (w, Err e) => (w, Err e)
          | (w, Ok (current, revision)) =>
              let operations := (plan_cycle cfg d g current).1 in
              match identify w d g revision operations with
              | (w, Err e) => (w, Err e)
              | (w, Ok (doc, hash)) =>
                  (w, Ok (mkAudit operations doc hash revision (Z.of_nat (length (G_Endpoints g)))
                            (Z.of_nat (length current))
                            (Z.of_nat (length (filter (fun op => OpType op = OperationConflict) operations)))
                            plan_requested (negb (HasIncompleteSources d))
                            (negb plan_requested || negb (revision =s ""))
                            (bool_decide (invalidPolicyNamespaces g = []))))
              end
          end
      end
  end.

(** ** Applying *)

(** What [applyPrepared] reports: whether the plan counts as approved, what
    was handed to the provider ([None]: nothing), and the error. *)
Record ApplyReport := mkReport {
  PlanApproved : bool; Sent : option (list OperationOutcome); Apply_error : option RunError }.

Definition writeTerminalPhase (w : W) (name : string) (phase : ChangePlanPhase) (outcomes : list OperationOutcome)
    : W * option RunError :=
  match parent_err env w, plan_store env with
  | Some e, _ => (w, Some (RunCancelled e))
  | None, None => (w, None)
  | None, Some api =>
      match UpdatePhase api w (plan_namespace env) name phase outcomes with
      | (w, Ok _) => (w, None)
      | (w, Err e) => (w, Some (RunStore e))
      end
  end.

(** The state the plan gate passes on: the name of the stored plan ([""]
    without one), or the report of a cycle that ended. *)
Definition Gate : Type := W * (ApplyReport + bool * string).

Definition stop (w : W) (approved : bool) (e : RunError) : Gate := (w, inl (mkReport approved None (Some e))).

(** A failed revalidation marks the stored plan stale; a failure to do so is only logged. *)
Definition stop_stale (w : W) (name : string) (e : RunError) : Gate :=
  let w := if bool_decide (is_Some (plan_store env)) && negb (name =s "")
           then (writeTerminalPhase w name ChangePlanStale []).1 else w in
  stop w false e.

(** Persisting and approving; the stored plan, its name, and whether it is approved. *)
Definition persist (w : W) (doc : Document) (approved : bool)
    : W * (ApplyReport + bool * option ChangePlan) :=
  match plan_store env with
  | None => (w, inr (approved, None))
  | Some api =>
      let retention := if plan_retention env =? 0 then 20 else plan_retention env in
      match PersistCurrent api w (plan_namespace env) doc None retention with
      | (w, Err e) => (w, inl (mkReport approved None (Some (RunStore e))))
      | (w, Ok persisted) =>
          if negb (approval_required env) then (w, inr (approved, Some persisted))
          else match RequireExactApproval (api_now api w) persisted with
               | Some e => (w, inl (mkReport approved None (Some (RunStore e))))
               | None =>
                   match MarkApproved api w persisted with
                   | (w, Err e) => (w, inl (mkReport false None (Some (RunStore e))))
                   | (w, Ok _) => (w, inr (true, Some persisted))
                   end
               end
      end
  end.

Definition plan_name (stored : option ChangePlan) : string :=
  match stored with Some p => CP_Name p | None => "" end.

Definition begin_apply (w : W) (approved : bool) (stored : option ChangePlan) : Gate :=
  match plan_store env, stored with
  | Some api, Some p =>
      match (if approval_required env then BeginApprovedApply api w p
             else UpdatePhase api w (plan_namespace env) (CP_Name p) ChangePlanApplying []) with
      | (w, Err e) => stop w false (RunStore e)
      | (w, Ok _) => (w, inr (approved, CP_Name p))
      end
  | _, _ => (w, inr (approved, plan_name stored))
  end.

(** The gate in front of an actionable plan. *)
Definition actionable_gate (w : W) (doc : Document) (planID : string) (approved : bool) : Gate :=
  match persist w doc approved with
  | (w, inl report) => (w, inl report)
  | (w, inr (approved, stored)) =>
      match Prepare w with
      | (w, Err e) => stop_stale w (plan_name stored) (RunRevalidate e)
      | (w, Ok fresh) =>
          if (Audit_PlanHash fresh =s "") || negb (Audit_PlanHash fresh =s planID) then
            stop_stale w (plan_name stored) RunDrift
          else begin_apply w approved stored
      end
  end.

Definition plan_gate (w : W) (audit : ReconcileAudit) (approved : bool) : Gate :=
  let doc := Audit_Document audit in
  match ID doc, CanonicalJSON doc with
  | Ok planID, Ok canonical =>
      let written := if PlanOutput cfg =s "" then (w, None) else write_file env w (PlanOutput cfg) canonical in
      match written with
      | (w, Some e) => stop w approved (RunFile e)
      | (w, None) =>
          match (if ApprovedPlanHash cfg =s "" then None else VerifyApprovedHash doc (ApprovedPlanHash cfg)) with
          | Some e => stop w approved (RunApproval e)
          | None =>
              if hasActionableOperation (Audit_Operations audit) then actionable_gate w doc planID approved
              else match plan_store env with
                   | None => (w, inr (approved, ""))
                   | Some api =>
                       match StaleSuperseded api w (plan_namespace env) (TI_Name (Target doc)) "" with
                       | (w, Some e) => stop w approved (RunStore e)
                       | (w, None) => (w, inr (approved, ""))
                       end
                   end
          end
      end
  | _, _ => stop w approved RunDocument
  end.

(** [errors.Is(err, context.Canceled) || errors.Is(err, context.DeadlineExceeded)]. *)
Definition is_cancelled (e : ClientError) : bool := wraps_context_error (wraps_context env) e.

(** Handing the operations to the provider and recording the terminal phase. *)
Definition execute_plan (w : W) (operations : list Operation) (approved : bool) (name : string) : W * ApplyReport :=
  let '(w, (outcomes, errs)) := ApplyWithResults (device env) (client_config env) w operations (R_DryRun cfg) in
  let valid := validateOperationOutcomes operations outcomes (R_DryRun cfg) in
  let applyErr := if negb valid then Some (RunResults errs) else match errs with [] => None | _ => Some (RunApply errs) end in
  let succeeded := valid && operationExecutionSucceeded operations outcomes (R_DryRun cfg) in
  if bool_decide (is_Some (plan_store env)) && negb (name =s "") then
    let phase := if bool_decide (is_Some applyErr) || negb succeeded then ChangePlanFailed else ChangePlanSucceeded in
    let phase := if existsb is_cancelled errs then ChangePlanInterrupted else phase in
    match writeTerminalPhase w name phase outcomes with
    | (w, Some e) => (w, mkReport approved (Some outcomes) (match applyErr with None => Some e | _ => applyErr end))
    | (w, None) => (w, mkReport approved (Some outcomes) applyErr)
    end
  else (w, mkReport approved (Some outcomes) applyErr).

Definition applyPrepared (w : W) (audit : ReconcileAudit) : W * ApplyReport :=
  let operations := Audit_Operations audit in
  let approved := negb (approval_required env) || negb (hasActionableOperation operations) in
  match ctx_err env w with
  | Some e => (w, mkReport approved None (Some (RunCancelled e)))
  | None =>
      match (if PlanRequested audit then plan_gate w audit approved else (w, inr (approved, ""))) with
      | (w, inl report) => (w, report)
      | (w, inr (approved, name)) =>
          match (match before_mutation env with None => (w, None) | Some f => f w end) with
          | (w, Some e) =>
              match stop_stale w name (RunAuthority e) with
              | (w, inl report) => (w, report)
              | (w, inr _) => (w, mkReport false None None)
              end
          | (w, None) => execute_plan w operations approved name
          end
      end
  end.

(** [RunOnce]: prepare, then apply. *)
Definition RunOnce (w : W) : W * result RunError ApplyReport :=
  match Prepare w with
  | (w, Err e) => (w, Err e)
  | (w, Ok audit) => let '(w, report) := applyPrepared w audit in (w, Ok report)
  end.
End runner.
