(* ===== verification/ApplyLaws.v ===== *)
(** * Properties of applying a cycle

    What a valid set of results is, that the client always returns one, and
    that nothing reaches the provider without exact approval and a fresh,
    identical plan. *)
From Stdlib Require Import String Ascii ZArith Lia.
From S2P Require Import Prelude GoStrings NetIP GoEncoding Endpoint Plan Document DocumentGraph Executor Queue Client.
From S2P Require Import ClientLaws Policy Sources Gateways ChangePlans ChangePlansLaws Runner Apply.
Open Scope string_scope.
Open Scope list_scope.
Open Scope Z_scope.
Open Scope go_scope.

(** ** Results *)

Lemma expected_foldl (ops : list Operation) : forall m : gmap string Operation,
  (forall id, is_Some (foldl (fun m op => <[operation_id op := op]> m) m ops !! id) <->
              is_Some (m !! id) \/ id ∈ operation_id <$> ops) /\
  (size (foldl (fun m op => <[operation_id op := op]> m) m ops) <= size m + length ops)%nat.
Proof.
  induction ops as [|op ops IH]; intros m; cbn [foldl].
  { split; [|cbn; lia]. intros id. rewrite fmap_nil, elem_of_nil. tauto. }
  destruct (IH (<[operation_id op := op]> m)) as [I1 I2]. split.
  - intros id. rewrite I1, fmap_cons, elem_of_cons. destruct (decide (operation_id op = id)) as [->|Hne].
    + rewrite lookup_insert_eq. split; [intros _; right; by left|intros _; left; eauto].
    + rewrite lookup_insert_ne by done. split; [tauto|]. intros [?|[E|?]]; [by left|congruence|by right].
  - cbn [length]. etrans; [exact I2|]. rewrite map_size_insert. destruct (m !! _); cbn; lia.
Qed.

Lemma expected_lookup ops op : NoDup (operation_id <$> ops) -> op ∈ ops ->
  expected_operations ops !! operation_id op = Some op.
Proof.
  unfold expected_operations. generalize (∅ : gmap string Operation) as m.
  induction ops as [|o ops IH]; intros m Hnd Hin; [by apply not_elem_of_nil in Hin|].
  rewrite fmap_cons in Hnd. inversion_clear Hnd as [|? ? Hn Hnd']. cbn [foldl].
  apply elem_of_cons in Hin as [->|Hin]; [|by apply IH].
  clear IH. assert (G : forall m : gmap string Operation, (operation_id o ∉ operation_id <$> ops) ->
    m !! operation_id o = Some o -> foldl (fun m op => <[operation_id op := op]> m) m ops !! operation_id o = Some o).
  { clear. induction ops as [|o' ops IH]; intros m Hn Hm; [done|]. cbn [foldl]. rewrite fmap_cons, not_elem_of_cons in Hn.
    apply IH; [tauto|]. rewrite lookup_insert_ne; [done|]. intros E. by destruct Hn. }
  apply G; [done|apply lookup_insert_eq].
Qed.

(** Distinct identifiers are those the map keeps apart. *)
Lemma expected_size ops : size (expected_operations ops) = length ops <-> NoDup (operation_id <$> ops).
Proof.
  unfold expected_operations. split.
  - assert (G : forall m : gmap string Operation,
      size (foldl (fun m op => <[operation_id op := op]> m) m ops) = (size m + length ops)%nat ->
      NoDup (operation_id <$> ops) /\ forall op, op ∈ ops -> m !! operation_id op = None).
    { induction ops as [|op ops IH]; intros m Hs; [split; [constructor|by intros ? ?%not_elem_of_nil]|]. cbn [foldl length] in Hs.
      pose proof (proj2 (expected_foldl ops (<[operation_id op := op]> m))) as Hle.
      rewrite Hs, map_size_insert in Hle. destruct (m !! operation_id op) eqn:Em; unfold id in Hle; [lia|].
      destruct (IH (<[operation_id op := op]> m)) as [Hnd Hnone]; [rewrite (map_size_insert_None _ _ m Em); lia|].
      split.
      - rewrite fmap_cons. constructor; [|done]. intros Hin. apply list_elem_of_fmap in Hin as (o & Ho & Hin).
        specialize (Hnone o Hin). rewrite <- Ho, lookup_insert_eq in Hnone. done.
      - intros o Ho. apply elem_of_cons in Ho as [->|Ho]; [done|]. specialize (Hnone o Ho).
        apply lookup_insert_None in Hnone. tauto. }
    intros Hs. apply (G ∅). by rewrite map_size_empty.
  - assert (G : forall m : gmap string Operation, NoDup (operation_id <$> ops) ->
      (forall op, op ∈ ops -> m !! operation_id op = None) ->
      size (foldl (fun m op => <[operation_id op := op]> m) m ops) = (size m + length ops)%nat).
    { induction ops as [|op ops IH]; intros m Hnd Hn; cbn [foldl length]; [lia|].
      rewrite fmap_cons in Hnd. inversion_clear Hnd as [|? ? Hx Hnd'].
      rewrite IH; [rewrite map_size_insert, (Hn op) by left; cbn; lia|done|].
      intros o Ho. apply lookup_insert_None. split; [apply Hn; by right|]. intros E. apply Hx. rewrite E. by apply list_elem_of_fmap_2. }
    intros Hnd. rewrite G; [by rewrite map_size_empty|done|]. intros. apply lookup_empty.
Qed.

(** What is demanded of one outcome. *)
Definition outcome_fits (dryRun : bool) (op : Operation) (o : OperationOutcome) : Prop :=
  (dryRun = true -> Result o <> ApplySucceeded) /\
  (OpType op = OperationConflict -> Result o = ApplyBlocked /\ OO_Reason o = "planning-conflict").

Lemma outcome_fits_dec dryRun op o :
  negb (dryRun && bool_decide (Result o = ApplySucceeded)) &&
  negb ((OpType op =s OperationConflict) && (negb (bool_decide (Result o = ApplyBlocked)) || negb (OO_Reason o =s "planning-conflict")))
  = true <-> outcome_fits dryRun op o.
Proof.
  unfold outcome_fits. rewrite andb_true_iff, !negb_true_iff, !andb_false_iff, orb_false_iff, !negb_false_iff, eqb_neq_iff, eqb_eq_iff.
  destruct dryRun; repeat case_bool_decide; destruct (decide (OpType op = OperationConflict)); intuition congruence.
Qed.

Section outcomes.
Context (expected : gmap string Operation) (dryRun : bool).

Definition fits (o : OperationOutcome) : Prop :=
  exists op, expected !! OO_OperationID o = Some op /\ outcome_fits dryRun op o.

(** The state of the loop: the identifiers seen, and validity so far. *)
Lemma outcome_fold v0 outs :
  let st := foldl (outcome_step expected dryRun) (∅, v0) outs in
  (st.2 = true <-> v0 = true /\ NoDup (OO_OperationID <$> outs) /\ Forall fits outs) /\
  (st.2 = true -> forall id, id ∈ st.1 <-> id ∈ OO_OperationID <$> outs).
Proof.
  apply (foldl_ind_done (fun dn (st : gset string * bool) =>
    (st.2 = true <-> v0 = true /\ NoDup (OO_OperationID <$> dn) /\ Forall fits dn) /\
    (st.2 = true -> forall id, id ∈ st.1 <-> id ∈ OO_OperationID <$> dn))).
  { split; [|set_solver]. cbn. split; [intros ->; repeat split; constructor|tauto]. }
  intros dn [seen valid] o _ [I1 I2]. cbn [fst snd] in *. rewrite fmap_app, Forall_app. cbn [fmap list_fmap].
  assert (Hsplit : NoDup ((OO_OperationID <$> dn) ++ [OO_OperationID o]) <->
                   NoDup (OO_OperationID <$> dn) /\ (OO_OperationID o ∉ OO_OperationID <$> dn)).
  { rewrite NoDup_app. split; [intros (? & Hd & _); split; [done|]; intros Hin; apply (Hd _ Hin); left|].
    intros [? Hn]. split; [done|]. split; [|apply NoDup_singleton]. intros x Hx ->%list_elem_of_singleton. done. }
  unfold outcome_step. destruct (expected !! OO_OperationID o) as [op|] eqn:Eo; cbn [fst snd].
  - case_bool_decide as Es; cbn [fst snd].
    + split; [|done]. split; [done|]. intros (Hv & Hnd & Hf & _). apply Hsplit in Hnd as [Hnd Hn].
      exfalso. apply Hn, I2; [|done]. by apply I1.
    + split.
      * rewrite <- andb_assoc, andb_true_iff, outcome_fits_dec, I1. rewrite Hsplit. split.
        -- intros ((Hv & Hnd & Hf) & Ho). split; [done|]. split; [split; [done|]|].
           ++ intros Hin. apply Es, I2; [|done]. by apply I1.
           ++ split; [done|]. constructor; [|done]. by exists op.
        -- intros (Hv & [Hnd Hn] & Hf & Ho). split; [done|]. inversion_clear Ho as [|? ? (op' & E & Ho') _]. congruence.
      * intros Hv id. rewrite <- andb_assoc in Hv. apply andb_true_iff in Hv as [Hv _].
        rewrite elem_of_union, elem_of_app, elem_of_singleton, list_elem_of_singleton, (I2 Hv). tauto.
  - split; [|done]. split; [done|]. intros (_ & _ & _ & Ho). inversion_clear Ho as [|? ? (op' & E & _) _]. congruence.
Qed.
End outcomes.

Lemma validateOperationOutcomes_spec ops outs dryRun :
  validateOperationOutcomes ops outs dryRun = true <->
  NoDup (operation_id <$> ops) /\ (OO_OperationID <$> outs) ≡ₚ (operation_id <$> ops) /\
  (forall o op, o ∈ outs -> op ∈ ops -> operation_id op = OO_OperationID o -> outcome_fits dryRun op o).
Proof.
  unfold validateOperationOutcomes. pose proof (outcome_fold (expected_operations ops) dryRun (size (expected_operations ops) =? length ops)%nat outs) as Hf.
  destruct (foldl _ _ _) as [seen valid]. cbn [fst snd] in Hf. destruct Hf as [F1 F2].
  assert (Hids : forall id, id ∈ (map_to_list (expected_operations ops)).*1 <-> id ∈ operation_id <$> ops).
  { intros id. pose proof (proj1 (expected_foldl ops ∅) id) as He. fold (expected_operations ops) in He.
    rewrite lookup_empty in He. split.
    - intros Hin. apply list_elem_of_fmap in Hin as ([k v] & -> & Hin). apply elem_of_map_to_list in Hin.
      cbn [fst]. destruct (proj1 He (mk_is_Some _ _ Hin)) as [[? ?]|?]; done.
    - intros Hin. destruct (proj2 He (or_intror Hin)) as [v Hv]. apply list_elem_of_fmap. exists (id, v). split; [done|].
      by apply elem_of_map_to_list. }
  rewrite andb_true_iff, forallb_forall, F1, Nat.eqb_eq, expected_size. split.
  - intros ((Hnd & Hndo & Hall) & Hseen). split; [done|].
    assert (Hin : forall id, id ∈ OO_OperationID <$> outs <-> id ∈ operation_id <$> ops).
    { intros id. split.
      - intros Ho. apply list_elem_of_fmap in Ho as (o & -> & Ho). rewrite Forall_forall in Hall.
        destruct (Hall o Ho) as (op & E & _). apply Hids. apply list_elem_of_fmap. exists (OO_OperationID o, op). split; [done|].
        by apply elem_of_map_to_list.
      - intros Ho. apply F2; [by apply F1; rewrite Nat.eqb_eq, expected_size|]. apply Hids, list_elem_of_In, Hseen in Ho.
        by apply bool_decide_eq_true in Ho. }
    split; [by apply NoDup_Permutation|]. intros o op Ho Hop E. rewrite Forall_forall in Hall.
    destruct (Hall o Ho) as (op' & E' & Hfit). rewrite <- E, expected_lookup in E' by done. by injection E' as <-.
  - intros (Hnd & Hp & Hfit).
    assert (Hall : Forall (fits (expected_operations ops) dryRun) outs).
    { apply Forall_forall. intros o Ho. assert (Hid : OO_OperationID o ∈ operation_id <$> ops).
      { rewrite <- Hp. by apply list_elem_of_fmap_2. }
      apply list_elem_of_fmap in Hid as (op & E & Hop). exists op. split; [rewrite E; by apply expected_lookup|]. by apply Hfit. }
    assert (Hndo : NoDup (OO_OperationID <$> outs)) by (by rewrite Hp).
    split; [done|]. intros id Hid. apply bool_decide_eq_true. apply F2; [by apply F1; rewrite Nat.eqb_eq, expected_size|].
    rewrite Hp. by apply Hids, list_elem_of_In.
Qed.

(** The results of a provider are accepted exactly when they are complete
    and consistent: one outcome per operation and no other, identifiers
    distinct, no success in a dry run, and every conflict reported as blocked by
    planning. *)
Theorem results_accepted_exactly ops outs dryRun :
  validateOperationOutcomes ops outs dryRun = true <->
  NoDup (operation_id <$> ops) /\ (OO_OperationID <$> outs) ≡ₚ (operation_id <$> ops) /\
  (forall o op, o ∈ outs -> op ∈ ops -> operation_id op = OO_OperationID o -> outcome_fits dryRun op o).
Proof. apply validateOperationOutcomes_spec. Qed.

(** ** The client's results *)

Definition phase_le (a b : Operation) : Prop := (operationPhaseRank (OpType a) <= operationPhaseRank (OpType b))%nat.

Lemma no_conflict_after op ops : StronglySorted phase_le (op :: ops) -> OpType op <> OperationConflict ->
  forall x, x ∈ op :: ops -> OpType x <> OperationConflict.
Proof.
  intros Hs Hop x Hx Hc. apply elem_of_cons in Hx as [->|Hx]; [done|]. inversion_clear Hs as [|? ? _ Hall].
  rewrite Forall_forall in Hall. specialize (Hall x Hx). unfold phase_le in Hall. rewrite Hc in Hall.
  change (operationPhaseRank OperationConflict) with 0%nat in Hall. apply eqb_neq_iff in Hop.
  unfold operationPhaseRank in Hall. rewrite Hop in Hall. repeat case_match; lia.
Qed.

(** Outside conflicts only a success in a dry run does not fit. *)
Lemma plain_fits (dryRun : bool) op o : OpType op <> OperationConflict -> (dryRun = true -> Result o <> ApplySucceeded) ->
  outcome_fits dryRun op o.
Proof. by split. Qed.

Section apply.
Context {W : Type} (dev : Device W) (cfg : ClientConfig).

Lemma stop_apply_reason st op ops e reason :
  exists l, A_outcomes (stop_apply st (op :: ops) e reason) = A_outcomes st ++ mkOutcome (operation_id op) ApplyBlocked reason :: l.
Proof.
  unfold stop_apply. set (st0 := match errs st with [] => _ | _ => st end). assert (E0 : A_outcomes st0 = A_outcomes st) by (unfold st0; by destruct (errs st)).
  rewrite <- E0. cbn [foldl]. enough (forall ops st1, exists l, A_outcomes (foldl (fun st op => recordOutcome st op ApplyBlocked reason) st1 ops) = A_outcomes st1 ++ l) as Hx.
  { destruct (Hx ops (recordOutcome st0 op ApplyBlocked reason)) as (l & ->). exists l. cbn. by rewrite <- app_assoc. }
  clear. induction ops as [|op ops IH]; intros st1; cbn [foldl]; [exists []; by rewrite app_nil_r|].
  destruct (IH (recordOutcome st1 op ApplyBlocked reason)) as (l & ->). cbn. rewrite <- app_assoc. eauto.
Qed.

Lemma stop_apply_fits (dryRun : bool) st ops e reason l : (forall op, op ∈ ops -> OpType op <> OperationConflict) ->
  A_outcomes (stop_apply st ops e reason) = A_outcomes st ++ l -> Forall2 (outcome_fits dryRun) ops l.
Proof.
  intros Hn El. destruct (stop_apply_outcomes st ops e reason) as (l' & El' & Hid & Hall).
  rewrite El in El'. apply app_inv_head in El' as <-.
  apply Forall2_same_length_lookup_2.
  { apply (f_equal length) in Hid. unfold outcome_ids in Hid. by rewrite !length_fmap in Hid. }
  intros i op o Hi Ho. apply plain_fits; [apply Hn; by eapply list_elem_of_lookup_2|].
  rewrite Forall_lookup in Hall. by rewrite (Hall i o Ho).
Qed.

(** The context is alive the next [n] times it is read. *)
Fixpoint alive_reads (n : nat) (w : W) : Prop :=
  match n with
  | O => True
  | S n => (ctxError dev w).2 = None /\ alive_reads n (ctxError dev w).1
  end.
Definition conflicts_in (ops : list Operation) : nat := length (filter (fun op => OpType op = OperationConflict) ops).

Lemma conflicts_in_none ops : (forall op, op ∈ ops -> OpType op <> OperationConflict) -> conflicts_in ops = O.
Proof.
  unfold conflicts_in. induction ops as [|op ops IH]; intros Hn; [done|]. rewrite filter_cons, decide_False by (apply Hn; left).
  apply IH. intros x Hx. apply Hn. by right.
Qed.

(** Conflicts lead the batch, and the context is read once for each of them. *)
Lemma apply_loop_fits (dryRun : bool) ops : StronglySorted phase_le ops -> forall st w w' st' l,
  apply_loop dev cfg dryRun ops st w = (w', st') -> A_outcomes st' = A_outcomes st ++ l ->
  Forall2 (outcome_fits dryRun) ops l <-> alive_reads (conflicts_in ops) w.
Proof.
  induction ops as [|op ops IH]; intros Hs st w w' st' l El Eo; cbn [apply_loop] in El.
  { injection El as <- <-. rewrite <- app_nil_r in Eo at 1. apply app_inv_head in Eo as <-. split; [done|constructor]. }
  assert (Hs' : StronglySorted phase_le ops) by by inversion Hs.
  assert (Hgo : forall w0 st0 o0, A_outcomes st0 = A_outcomes st ++ [o0] -> outcome_fits dryRun op o0 ->
            apply_loop dev cfg dryRun ops st0 w0 = (w', st') -> Forall2 (outcome_fits dryRun) (op :: ops) l <-> alive_reads (conflicts_in ops) w0).
  { intros w0 st0 o0 E0 Hfit El0. destruct (apply_loop_outcomes dev cfg dryRun ops _ _ _ _ El0) as (l' & El' & _).
    assert (l = o0 :: l') as -> by (rewrite Eo, E0, <- app_assoc in El'; by apply app_inv_head in El').
    rewrite <- (IH Hs' st0 w0 w' st' l' El0 El'). split; [by inversion 1|by constructor]. }
  destruct (decide (OpType op = OperationConflict)) as [Hop|Hop].
  - unfold conflicts_in. rewrite filter_cons, decide_True by done. cbn [length alive_reads]. fold (conflicts_in ops).
    destruct (ctxError dev w) as [w0 [err|]]; cbn [fst snd].
    + injection El as <- <-. split; [|by intros [? _]]. intros Hf. exfalso. destruct (stop_apply_reason st op ops (errCancelled err) "context-canceled") as (l' & El').
      rewrite Eo in El'. apply app_inv_head in El' as ->. inversion_clear Hf as [|? ? ? ? Hf1 _]. destruct Hf1 as [_ Hf1]. by destruct (Hf1 Hop) as [_ ?].
    + rewrite Hop in El. change (OperationConflict =s OperationConflict) with true in El.
      rewrite (Hgo w0 (recordOutcome st op ApplyBlocked "planning-conflict") (mkOutcome (SO_ID (SanitizeOperation op)) ApplyBlocked "planning-conflict"));
        [tauto|done|by split|exact El].
  - pose proof (no_conflict_after op ops Hs Hop) as Hn. rewrite conflicts_in_none by done.
    assert (Hlate : forall w0, alive_reads (conflicts_in ops) w0) by (intros w0; rewrite conflicts_in_none; [done|]; intros x Hx; apply Hn; by right).
    enough (Forall2 (outcome_fits dryRun) (op :: ops) l) by done.
    destruct (ctxError dev w) as [w0 [err|]]; [simplify_eq; by eapply stop_apply_fits|].
    rewrite (proj2 (eqb_neq_iff _ _) Hop) in El.
    destruct dryRun; [eapply Hgo; try exact El; [done|by apply plain_fits|by apply Hlate]|].
    destruct (beforeOperation dev w0) as [w1 [err|]]; [simplify_eq; by eapply stop_apply_fits|].
    destruct (_ && _); [eapply Hgo; try exact El; [done|by apply plain_fits|by apply Hlate]|].
    destruct (applyOne dev cfg w1 op) as [w2 [e|]]; (eapply Hgo; try exact El; [done|by apply plain_fits|by apply Hlate]).
Qed.
End apply.

(** C37. What the runner makes of its client's results, for a plan in phase order with
    distinct identifiers: it accepts them in dry runs, after failures, when authority is
    revoked half-way, and when the context is cancelled -- unless that happens before
    the conflicts of the plan, which come first, are all through.  The results are
    accepted exactly when the context, which is read once before each operation and may
    be cancelled at any time, is alive at the reads before the conflicts. *)
Theorem client_results_accepted {W} (dev : Device W) cfg w ops dryRun :
  StronglySorted phase_le ops -> NoDup (operation_id <$> ops) ->
  validateOperationOutcomes ops (ApplyWithResults dev cfg w ops dryRun).2.1 dryRun = true <-> alive_reads dev (conflicts_in ops) w.
Proof.
  intros Hs Hnd. unfold ApplyWithResults.
  destruct (apply_loop dev cfg dryRun ops (mkApplyState [] [] ∅) w) as [w' st'] eqn:E. cbn [fst snd].
  destruct (apply_loop_outcomes _ _ _ _ _ _ _ _ E) as (l & El & Hid). cbn [A_outcomes app] in El. subst l.
  rewrite <- (apply_loop_fits dev cfg dryRun ops Hs _ _ _ _ (A_outcomes st') E eq_refl).
  rewrite validateOperationOutcomes_spec. unfold operation_id, outcome_ids in *. split.
  - intros (_ & _ & Hfit). apply Forall2_same_length_lookup_2.
    { apply (f_equal length) in Hid. by rewrite !length_fmap in Hid. }
    intros i op o Hop Ho. apply Hfit; [by eapply list_elem_of_lookup_2..|].
    apply (f_equal (fun l => l !! i)) in Hid. rewrite !list_lookup_fmap, Hop, Ho in Hid. injection Hid as Hid. by symmetry.
  - intros Hfit. split; [done|]. split; [by rewrite Hid|].
    intros o op Ho Hop Eid. apply list_elem_of_lookup in Ho as [i Ho].
    destruct (Forall2_lookup_r _ _ _ _ _ Hfit Ho) as (op' & Hop' & Hf).
    apply list_elem_of_lookup in Hop as [j Hop]. assert (i = j) as <-; [|congruence].
    eapply (NoDup_lookup _ i j (OO_OperationID o) Hnd).
    + rewrite <- Hid, list_lookup_fmap, Ho. done.
    + rewrite list_lookup_fmap, Hop. exact (f_equal Some Eid).
Qed.

(** ** The gate *)

Section gate.
Context {W : Type} `{Selectors} `{IDNA} `{KeyValidation} `{MapRange}.
Context (PrefixString : Prefix -> string) (cfg : RunnerConfig) (env : RunnerEnv (W := W)).

(** A fresh cycle from [w] on that ends in [w'] with the plan of hash [planID]. *)
Definition revalidated (w w' : W) (planID : string) : Prop :=
  planID <> "" /\ exists fresh, Prepare PrefixString cfg env w = (w', Ok fresh) /\ Audit_PlanHash fresh = planID.

(** How long finished plans are kept. *)
Definition retention_of : Z := if plan_retention env =? 0 then 20 else plan_retention env.

Lemma persist_approved api w doc approved w' approved' stored :
  plan_store env = Some api -> approval_required env = true ->
  persist env w doc approved = (w', inr (approved', stored)) ->
  exists p w1, stored = Some p /\ approved' = true /\ PersistCurrent api w (plan_namespace env) doc None retention_of = (w1, Ok p) /\
    exact_approval (api_now api w1) p /\ approved_transition api p ChangePlanApproved w1 w'.
Proof.
  intros Hs Hr. unfold persist. rewrite Hs, Hr. destruct (PersistCurrent _ _ _ _ _ _) as [w1 [p|e]] eqn:Ep; [|done]. cbn [negb].
  destruct (RequireExactApproval _ p) eqn:Er; [done|]. apply RequireExactApproval_spec in Er.
  destruct (MarkApproved api w1 p) as [w2 [m|e]] eqn:Em; [|done]. intros [= <- <- <-]. exists p, w1. split_and!; try done.
  by apply (updateApprovedPhase_ok api _ _ _ _ m).
Qed.

(** The plan file, when one is asked for, was written from [w] to [w']. *)
Definition plan_written (doc : Document) (w w' : W) : Prop :=
  if PlanOutput cfg =s "" then w' = w
  else exists canonical, CanonicalJSON doc = Ok canonical /\ write_file env w (PlanOutput cfg) canonical = (w', None).

Lemma actionable_gate_passed w doc planID approved w' approved' name :
  actionable_gate PrefixString cfg env w doc planID approved = (w', inr (approved', name)) ->
  exists stored w1 w2, persist env w doc approved = (w1, inr (approved', stored)) /\ revalidated w1 w2 planID /\
    begin_apply env w2 approved' stored = (w', inr (approved', name)).
Proof.
  unfold actionable_gate. destruct (persist env w doc approved) as [w1 [r|[a stored]]] eqn:Ep; [done|].
  unfold stop_stale, stop. destruct (Prepare PrefixString cfg env w1) as [w2 [fresh|e]] eqn:Ef; [|by intros [=]].
  destruct (_ || _) eqn:Eh; [by intros [=]|]. bools. intros Hb. exists stored, w1, w2.
  assert (a = approved') as ->.
  { unfold begin_apply in Hb. repeat case_match; unfold stop in *; simplify_eq; done. }
  split; [done|]. split; [|done]. split; [congruence|eauto].
Qed.

Lemma plan_gate_passed w audit approved w' approved' name :
  hasActionableOperation (Audit_Operations audit) = true ->
  plan_gate PrefixString cfg env w audit approved = (w', inr (approved', name)) ->
  exists planID w1, ID (Audit_Document audit) = Ok planID /\
    (ApprovedPlanHash cfg = "" \/ TrimSpace (ApprovedPlanHash cfg) = planID) /\ plan_written (Audit_Document audit) w w1 /\
    actionable_gate PrefixString cfg env w1 (Audit_Document audit) planID approved = (w', inr (approved', name)).
Proof.
  intros Ha. unfold plan_gate. rewrite Ha. destruct (ID (Audit_Document audit)) as [planID|] eqn:Eid; [|done].
  destruct (CanonicalJSON _) as [c|] eqn:Ec; [|done]. destruct (if PlanOutput cfg =s "" then _ else _) as [w1 [e|]] eqn:Ew; [done|].
  destruct (if ApprovedPlanHash cfg =s "" then _ else _) eqn:Ev; [done|]. intros Hg. exists planID, w1. split; [done|]. split; [|split; [|done]].
  2:{ unfold plan_written. destruct (PlanOutput cfg =s ""); [by injection Ew as <-|eauto]. }
  destruct (ApprovedPlanHash cfg =s "") eqn:E0; bools; [by left|right].
  unfold VerifyApprovedHash in Ev. rewrite Eid in Ev. destruct (TrimSpace _ =s ""); [done|].
  destruct (negb _) eqn:En; [done|]. by bools.
Qed.

Lemma applyPrepared_sent w audit w' report :
  applyPrepared PrefixString cfg env w audit = (w', report) -> Sent report <> None -> PlanRequested audit = true ->
  exists approved w1 w2 name, plan_gate PrefixString cfg env w audit (negb (approval_required env) || negb (hasActionableOperation (Audit_Operations audit)))
      = (w1, inr (approved, name)) /\
    match before_mutation env with Some f => f w1 = (w2, None) | None => w2 = w1 end /\
    execute_plan cfg env w2 (Audit_Operations audit) approved name = (w', report).
Proof.
  unfold applyPrepared. destruct (ctx_err env w); [intros [= <- <-]; done|]. intros Ha Hsent Hreq. rewrite Hreq in Ha.
  destruct (plan_gate _ _ _ _ _ _) as [w1 [r|[approved name]]] eqn:Eg.
  { exfalso. simplify_eq. revert Eg Hsent. unfold plan_gate, actionable_gate, persist, begin_apply, stop_stale, stop.
    intros Eg. repeat case_match; simplify_eq; done. }
  destruct (before_mutation env) as [f|].
  - destruct (f w1) as [w2 [e|]] eqn:Ef.
    + unfold stop_stale, stop in Ha. simplify_eq.
    + by exists approved, w1, w2, name.
  - by exists approved, w1, w1, name.
Qed.

Lemma execute_plan_approved w operations approved name w' report :
  execute_plan cfg env w operations approved name = (w', report) -> PlanApproved report = approved.
Proof. unfold execute_plan. intros He. repeat case_match; by simplify_eq. Qed.
End gate.

(** Every audit of a runner with a plan store requests a plan. *)
Lemma prepared_requests {W} `{Selectors} `{IDNA} `{KeyValidation} `{MapRange} PrefixString cfg (env : RunnerEnv (W := W)) api w w' audit :
  plan_store env = Some api -> Prepare PrefixString cfg env w = (w', Ok audit) -> PlanRequested audit = true.
Proof.
  intros Hs. unfold Prepare. assert (Hp : plan_requested cfg env = true) by (unfold plan_requested; rewrite Hs; by destruct (negb _), (negb _)).
  rewrite Hp. intros E. repeat case_match; simplify_eq; done.
Qed.

(** C2. In a runner with a plan store that requires approval, nothing of an actionable
    plan reaches the provider before these steps, in this order, each on the state the
    one before it left: the plan file, if one is asked for, is written, and the hash
    approved on the command line, if any, is this plan's; the plan is stored, and the
    stored object is open, unexpired and annotated with its own hash; that object, read
    back with its UID and hash, not being deleted and still so annotated, is written as
    Approved; a fresh cycle gives the identical plan hash; the object, read and checked
    once more in the same way, is written as Applying; and the authority to mutate is
    confirmed.  (Between a check and its write there is nothing but the write, which is
    tried again, check included, after a conflict.)  The stored object has the hash of
    this very plan, so that it is the plan that was approved, if the names derived from
    the hash are used for that plan alone when it is stored: of an object it finds under
    such a name the store does not compare the hash. *)
Theorem mutation_requires_approval {W} `{Selectors} `{IDNA} `{KeyValidation} `{MapRange} PrefixString cfg
    (env : RunnerEnv (W := W)) api w audit w' report :
  plan_store env = Some api -> approval_required env = true -> PlanRequested audit = true ->
  hasActionableOperation (Audit_Operations audit) = true ->
  applyPrepared PrefixString cfg env w audit = (w', report) -> Sent report <> None ->
  PlanApproved report = true /\
  exists planID w1 w2 p w3 w4 w5 w6, ID (Audit_Document audit) = Ok planID /\
    (ApprovedPlanHash cfg = "" \/ TrimSpace (ApprovedPlanHash cfg) = planID) /\
    plan_written cfg env (Audit_Document audit) w w1 /\
    PersistCurrent api w1 (plan_namespace env) (Audit_Document audit) None (retention_of env) = (w2, Ok p) /\
    exact_approval (api_now api w2) p /\
    approved_transition api p ChangePlanApproved w2 w3 /\
    revalidated PrefixString cfg env w3 w4 planID /\
    approved_transition api p ChangePlanApplying w4 w5 /\
    match before_mutation env with Some f => f w5 = (w6, None) | None => w6 = w5 end /\
    execute_plan cfg env w6 (Audit_Operations audit) true (CP_Name p) = (w', report) /\
    (forall I, honest_names api I (plan_namespace env) planID (TI_Name (Target (Audit_Document audit))) -> I w1 ->
     PlanHash (CP_Spec p) = planID /\ CP_Annotations p !! ApprovalHashAnnotation = Some planID).
Proof.
  intros Hs Hr Hreq Hact Ha Hsent. destruct (applyPrepared_sent _ _ _ _ _ _ _ Ha Hsent Hreq) as (a & w5 & w6 & name & Hg & Hb & He).
  apply plan_gate_passed in Hg as (planID & w1 & Hid & Hcli & Hw & Hg); [|done].
  apply actionable_gate_passed in Hg as (stored & w3 & w4 & Hp & Hrev & Hbegin).
  destruct (persist_approved env api _ _ _ _ _ _ Hs Hr Hp) as (p & w2 & -> & -> & Hper & Hex & Happ).
  unfold begin_apply in Hbegin. rewrite Hs, Hr in Hbegin. destruct (BeginApprovedApply api w4 p) as [w5' [begun|e]] eqn:Eb; [|done].
  injection Hbegin as -> <-. split; [by apply execute_plan_approved in He|]. exists planID, w1, w2, p, w3, w4, w5, w6. split_and!; try done.
  { by apply (updateApprovedPhase_ok api _ _ _ _ begun). }
  intros I Hn Hw1. pose proof (PersistCurrent_hash api I _ _ _ Hn _ _ _ _ _ _ Hw1 eq_refl Hid Hper) as <-. by destruct Hex as (_ & _ & Hann & _).
Qed.
