(* ===== verification/RunnerExamples.v ===== *)
(** * A concrete cluster, cycle and approval

    The theorems about discovery, the cycle and the application of a plan,
    evaluated on a cluster with one load-balanced Service. *)
From Stdlib Require Import String Ascii ZArith Lia.
From S2P Require Import Prelude Effects GoStrings NetIP GoEncoding Endpoint Plan Document DocumentGraph Executor Queue Client.
From S2P Require Import Policy Sources Gateways SourcesLaws ChangePlans ChangePlansLaws Runner RunnerLaws Apply ApplyLaws.
Open Scope string_scope.
Open Scope list_scope.
Open Scope Z_scope.
Open Scope go_scope.

(** ** The libraries *)

#[local] Existing Instance canonical_range.

(** Lower-case names of letters, digits, hyphens and dots that neither start nor end with a dot. *)
Definition dns1123 (n : string) : bool :=
  negb (n =s "") && (NormalizeDNSName n =s n) && negb (HasPrefix n ".") && forallb valid_label (SplitChar n ".").

#[local] Instance dns1123_keys : KeyValidation := {
  IsDNS1123Label n := if dns1123 n then [] else ["must be a DNS-1123 label"];
  IsDNS1123Subdomain n := if dns1123 n then [] else ["must be a DNS-1123 subdomain"] }.

#[local] Instance dns1123_laws : KeyValidationLaws.
Proof. split; intros n; cbn [IsDNS1123Subdomain dns1123_keys]; unfold dns1123; destruct (_ && _) eqn:E; try done; bools; done. Qed.

#[local] Instance ascii_idna : IDNA := { Lookup_ToASCII n := Some n }.

#[local] Instance label_selectors : Selectors := {
  LabelSelector := list (string * string); Selector := list (string * string); Everything := [];
  LabelSelectorAsSelector s := Some s;
  Matches sel labels := forallb (fun kv => bool_decide (labels !! kv.1 = Some kv.2)) sel }.

(** ** Discovery *)

Definition app_service : Service :=
  mkService "web" "app" "uid-1" ∅ {[ AnnotationHostname := "app.example.com,outside.example.net" ]} "LoadBalancer" "" "10.96.0.1" [] []
    false [mkLBIngress "" "192.0.2.5"].

Definition one_service : Cluster :=
  mkCluster (fun ns => Ok (if (ns =s "") || (ns =s "web") then [app_service] else [])) (fun _ => Ok []) (fun _ => Ok []) (fun _ => Ok [])
    (fun _ => Ok []) (fun _ => Ok ∅).

Definition ex_config (exclusive : bool) (namespaces : list string) : RunnerConfig :=
  mkRunnerConfig ["service"; "ingress"; "gateway"] namespaces [] ["example.com"] 300 "me" CleanupDelete false false false
    false 10 exclusive "root" "example.com" "" "".

Definition app_endpoint : Endpoint :=
  mkEndpoint "app.example.com" "A" ["192.0.2.5"] 300 "example.com" "me" (mkSourceRef "v1" "Service" "web" "app" "uid-1") "" false.

Definition alive (_ : nat) : option string := None.

Example ex_discovered :
  D_Endpoints (Discover alive one_service (source_options (ex_config false []))).1.2 = [app_endpoint].
Proof. vm_compute. reflexivity. Qed.

Lemma Discover_in_scope_witness : published (source_options (ex_config false [])) app_endpoint.
Proof.
  apply (Discover_in_scope alive one_service (source_options (ex_config false []))).
  vm_compute. apply elem_of_cons. left. reflexivity.
Defined.

Lemma Discover_bounded_witness :
  Z.of_nat (length (D_Endpoints (Discover alive one_service (source_options (ex_config false []))).1.2)) <= 10000.
Proof. exact (Discover_bounded alive one_service (source_options (ex_config false []))). Defined.

(** ** The cycle *)

Definition ex_found : Discovered := (Discover alive one_service (source_options (ex_config false []))).1.2.

(** A row of this controller for a name no resource asks for, and a foreign row. *)
Definition stale_row : Endpoint := mkEndpoint "old.example.com" "A" ["192.0.2.9"] 300 "example.com" "me" zeroSourceRef "7" false.
Definition foreign_row : Endpoint := mkEndpoint "other.example.com" "A" ["192.0.2.8"] 300 "example.com" "" zeroSourceRef "8" false.

Definition stale_delete : Operation := mkOperation OperationDelete zeroEndpoint stale_row "managed record is stale".

Example ex_cycle :
  OpType <$> (plan_cycle (ex_config false []) ex_found (ungoverned ex_found) [stale_row; foreign_row]).1
  = [OperationCreate; OperationDelete].
Proof. vm_compute. reflexivity. Qed.

Lemma removal_authorized_witness :
  HasIncompleteSources ex_found = false /\
  cleanupAllowed stale_row (source_options (ex_config false [])) false = true /\ ownedBy stale_row "me" = true.
Proof.
  destruct (removal_authorized (ex_config false []) ex_found (ungoverned ex_found) [stale_row; foreign_row] stale_delete)
    as (H1 & _ & _ & H4 & H5 & _).
  - vm_compute. apply elem_of_cons. right. apply elem_of_cons. left. reflexivity.
  - left. reflexivity.
  - split; [exact H1|]. split; [exact H4|exact H5].
Defined.

(** A controller limited to one namespace in exclusive-zone mode: the row of
    [app.example.com] is not its to change. *)
Definition taken_row : Endpoint := mkEndpoint "app.example.com" "A" ["192.0.2.1"] 300 "example.com" "" zeroSourceRef "9" false.

Example ex_restricted :
  OpType <$> (plan_cycle (ex_config true ["web"]) ex_found (ungoverned ex_found) [taken_row; stale_row]).1 = [OperationConflict] /\
  OpType <$> (plan_cycle (ex_config true ["web"]) ex_found (ungoverned ex_found) [stale_row]).1 = [OperationCreate].
Proof. vm_compute. done. Qed.

Definition app_create : Operation := mkOperation OperationCreate app_endpoint zeroEndpoint "record is missing".

Lemma restricted_fills_absent_names_witness :
  OpType app_create = OperationConflict \/
  (OpType app_create = OperationCreate /\
   forall row, row ∈ [stale_row] -> adoptableRecordType (RecordType row) = true ->
     MutationGroupKey (Normalize row) <> MutationGroupKey (Desired app_create)).
Proof.
  apply (restricted_fills_absent_names (ex_config true ["web"]) ex_found (ungoverned ex_found) [stale_row] app_create).
  - reflexivity.
  - reflexivity.
  - discriminate.
  - vm_compute. repeat (apply Forall_cons; split; [repeat split|]). apply Forall_nil. exact I.
  - intros e He. vm_compute in He. apply list_elem_of_singleton in He as ->. vm_compute. discriminate.
  - vm_compute. apply elem_of_cons. left. reflexivity.
Defined.

(** ** Applying *)

(** A device with no rows that accepts every write; the world is the list of stored plans. *)
Definition empty_device : Device (list ChangePlan) :=
  mkDevice (fun w _ => (w, HttpResponse 200 "{}" "")) (fun w _ => (w, None)) (fun w c => (w, c)) (fun _ _ => None) (fun w => (w, None))
    (fun w => (w, None)) (fun _ => Some (mkEnvelope "success" 200 None "")) (fun _ => Ok (mkFortiResponse [] (Some 0) (Some 0) (Some "r1"))).

Definition app_delete : Operation := mkOperation OperationDelete zeroEndpoint stale_row "managed record is stale".
Definition app_conflict : Operation := mkOperation OperationConflict app_endpoint taken_row "logical record exists and is not owned".

(** A device whose context is cancelled after so many reads. *)
Definition cancelled_after (n : nat) : Device nat :=
  mkDevice (fun w _ => (w, HttpResponse 200 "{}" "")) (fun w _ => (w, None)) (fun w c => (w, c)) (fun _ _ => None)
    (fun w => (S w, if (w <? n)%nat then None else Some "context canceled")) (fun w => (w, None))
    (fun _ => Some (mkEnvelope "success" 200 None "")) (fun _ => Err "unused").
Definition conflict_batch : list Operation := [app_conflict; app_create; app_delete].

(** Cancelled after the conflict, the results are accepted; before it, they are not. *)
Lemma client_results_accepted_witness :
  validateOperationOutcomes conflict_batch (ApplyWithResults (cancelled_after 1) (mkClientConfig "example.com" "root" 2) 0%nat conflict_batch false).2.1 false = true /\
  validateOperationOutcomes conflict_batch (ApplyWithResults (cancelled_after 0) (mkClientConfig "example.com" "root" 2) 0%nat conflict_batch false).2.1 false <> true.
Proof.
  assert (Hs : StronglySorted phase_le conflict_batch) by (repeat constructor; unfold phase_le; vm_compute; lia).
  assert (Hnd : NoDup (operation_id <$> conflict_batch)) by (vm_compute; repeat constructor; set_solver).
  split.
  - apply (client_results_accepted (cancelled_after 1) (mkClientConfig "example.com" "root" 2) 0%nat conflict_batch false Hs Hnd). split; [reflexivity|exact I].
  - intros [Ha _]%(client_results_accepted (cancelled_after 0) (mkClientConfig "example.com" "root" 2) 0%nat conflict_batch false Hs Hnd). discriminate Ha.
Defined.

(** A stored-plan server without concurrency: one namespace, status writes replace the object. *)
Definition replace_plan (o : ChangePlan) (w : list ChangePlan) : list ChangePlan :=
  (fun p => if CP_Name p =s CP_Name o then o else p) <$> w.

Definition plan_server (unmarshal : string -> result string Document) : PlanAPI (list ChangePlan) :=
  mkPlanAPI
    (fun w _ name => (w, match List.find (fun p => CP_Name p =s name) w with Some p => Ok p | None => Err NotFound end))
    (fun w _ => (w, Ok w)) (fun w o => (w ++ [o], Ok o)) (fun w o => (replace_plan o w, Ok o))
    (fun w _ name => (filter (fun p => CP_Name p <> name) w, None)) (fun _ => 1000) unmarshal.

Definition ex_env (unmarshal : string -> result string Document) : RunnerEnv (W := list ChangePlan) :=
  mkRunnerEnv (fun _ => one_service) (fun _ => alive) None empty_device (mkClientConfig "example.com" "root" 2) None
    (Some (plan_server unmarshal)) "dns" true 20 true (mkTargetIdentity "dns" "edge" "uid-t" 1 "root" "example.com") "edge"
    (Some (fun w => (w, None))) (fun w _ _ => (w, None)) (fun _ => None) (fun _ => None) (fun _ => false).

Definition no_prefix (_ : Prefix) : string := "".
Definition ex_prepared : option (ReconcileAudit * ChangePlan) :=
  match (Prepare no_prefix (ex_config false []) (ex_env (fun _ => Err "")) []).2 with
  | Err _ => None
  | Ok a => match NewChangePlanObject "dns" "edge-plan" (Audit_Document a) None with
            | Err _ => None
            | Ok o => Some (a, mkChangePlan "dns" "edge-plan" "uid-p" 1 500 false
                                 {[ApprovalHashAnnotation := PlanHash (CP_Spec o)]} ∅ (CP_Spec o)
                                 (mkPlanStatus ChangePlanPendingApproval 1 [] None))
            end
  end.

(** The audit of the first cycle and the plan stored for it, annotated by an operator. *)
Definition ex_audit_plan : option (ReconcileAudit * ChangePlan) := Eval vm_compute in ex_prepared.

Definition the {A} (o : option A) : match o with Some _ => A | None => unit end :=
  match o with Some a => a | None => tt end.
Definition ex_audit : ReconcileAudit := fst (the ex_audit_plan).
Definition ex_plan : ChangePlan := snd (the ex_audit_plan).
Definition approved_env : RunnerEnv (W := list ChangePlan) :=
  ex_env (fun s => if s =s CanonicalDocument (CP_Spec ex_plan) then Ok (Audit_Document ex_audit) else Err "invalid").
Definition ex_applied : list ChangePlan * ApplyReport := applyPrepared no_prefix (ex_config false []) approved_env [ex_plan] ex_audit.

(** The plan ends as succeeded, with its one operation applied. *)
Example ex_applied_plan :
  (Phase ∘ CP_Status) <$> ex_applied.1 = [ChangePlanSucceeded] /\
  (map Sum_Result ∘ Outcomes ∘ CP_Status) <$> ex_applied.1 = [["applied"]].
Proof. vm_compute. done. Qed.

(** Without the annotation nothing is sent. *)
Example ex_unapproved :
  Sent (applyPrepared no_prefix (ex_config false []) approved_env
    [mkChangePlan "dns" "edge-plan" "uid-p" 1 500 false ∅ ∅ (CP_Spec ex_plan) (CP_Status ex_plan)] ex_audit).2 = None.
Proof. vm_compute. done. Qed.

(** Nobody uses the names of the plan for another. *)
Definition unsquatted (planID targetName : string) (w : list ChangePlan) : Prop :=
  forall p, p ∈ w -> derived_name planID targetName (CP_Name p) -> PlanHash (CP_Spec p) = planID.

Lemma find_named name (w : list ChangePlan) p : List.find (fun p => CP_Name p =s name) w = Some p -> p ∈ w /\ CP_Name p = name.
Proof. intros [Hin E]%find_some. split; [by apply list_elem_of_In|by bools]. Qed.

Lemma plan_server_honest unmarshal namespace planID targetName :
  honest_names (plan_server unmarshal) (unsquatted planID targetName) namespace planID targetName.
Proof.
  split; cbn; try done.
  - intros w w' name o Hw Hd [= <- E]. destruct (List.find _ w) as [p|] eqn:Ef; [|done]. injection E as <-.
    apply find_named in Ef as [Hin Hname]. apply Hw; [done|by rewrite Hname].
  - intros w w' o r Hw Ho [= <- <-]. split; [|by intros o' [= <-]]. intros p [Hp| ->%list_elem_of_singleton]%elem_of_app; [by apply Hw|done].
  - intros w w1 w2 ns name live st r Hw [= <- E] [= <- <-]. destruct (List.find _ w) as [p|] eqn:Ef; [|done]. injection E as <-.
    apply find_named in Ef as [Hin Hname]. split; [|by intros o' [= <-]]. intros x (y & -> & Hy)%list_elem_of_fmap Hd.
    destruct (CP_Name y =s _); [|by apply Hw]. cbn in *. by apply Hw.
Qed.

Lemma mutation_requires_approval_witness : Sent ex_applied.2 <> None /\ PlanApproved ex_applied.2 = true /\
  exists planID p, ID (Audit_Document ex_audit) = Ok planID /\ PlanHash (CP_Spec p) = planID /\ CP_Annotations p !! ApprovalHashAnnotation = Some planID.
Proof.
  assert (Hsent : Sent ex_applied.2 <> None) by (vm_compute; discriminate). split; [exact Hsent|].
  destruct (mutation_requires_approval no_prefix (ex_config false []) approved_env
    (plan_server (fun s => if s =s CanonicalDocument (CP_Spec ex_plan) then Ok (Audit_Document ex_audit) else Err "invalid"))
    [ex_plan] ex_audit ex_applied.1 ex_applied.2) as (H & planID & w1 & w2 & p & w3 & w4 & w5 & w6 & Hid & _ & Hw & _ & _ & _ & _ & _ & _ & _ & Hhash).
  - reflexivity.
  - reflexivity.
  - reflexivity.
  - vm_compute. reflexivity.
  - apply surjective_pairing.
  - exact Hsent.
  - split; [exact H|]. exists planID, p. split; [exact Hid|]. apply (Hhash _ (plan_server_honest _ _ _ _)). cbn in Hw. rewrite Hw.
    intros x Hx _. apply list_elem_of_singleton in Hx as ->. assert (E : ID (Audit_Document ex_audit) = Ok (PlanHash (CP_Spec ex_plan))) by (vm_compute; reflexivity).
    rewrite E in Hid. by injection Hid.
Defined.

(** ** Corner cases *)

(** A batch cancelled before its conflicts are reached reports them as
    cancelled, which the runner then refuses as invalid results. *)
Definition cancelled_device : Device (list ChangePlan) :=
  mkDevice (Do empty_device) (sleep empty_device) (jitterDelay empty_device) (parseTime empty_device)
    (fun w => (w, Some "context canceled")) (beforeOperation empty_device) (unmarshalEnvelope empty_device) (unmarshalList empty_device).

Example cancelled_conflict_refused :
  validateOperationOutcomes [app_conflict]
    (ApplyWithResults cancelled_device (mkClientConfig "example.com" "root" 2) [] [app_conflict] false).2.1 false = false.
Proof. vm_compute. reflexivity. Qed.

(** An interrupted plan counts as finished, so pruning removes it. *)
Example interrupted_plan_pruned :
  let p := set_status ex_plan (mkPlanStatus ChangePlanInterrupted 1 [] (Some 600)) in prune_candidates [p] 0 = [p].
Proof. vm_compute. reflexivity. Qed.

(** An object that has the name of the wanted plan but holds the plan of another
    target is returned as the current plan. *)
Definition foreign_document : Document := with_target (Audit_Document ex_audit) (mkTargetIdentity "dns" "other" "uid-o" 1 "root" "example.com").
Definition squatting_plan : option ChangePlan :=
  match NewChangePlanObject "dns" (planObjectName (Audit_PlanHash ex_audit) "edge") foreign_document None with
  | Ok o => Some (pending_object o "other")
  | Err _ => None
  end.

Example foreign_plan_returned :
  match squatting_plan with
  | None => False
  | Some p =>
      (PersistCurrent (plan_server (fun _ => Ok foreign_document)) [p] "dns" (Audit_Document ex_audit) None 20).2 = Ok p /\
      PlanHash (CP_Spec p) <> Audit_PlanHash ex_audit
  end.
Proof. vm_compute. split; [reflexivity|discriminate]. Qed.
