(* ===== verification/Settings.v ===== *)
(** * internal/config/config.go and internal/fortigate/transport_policy.go: settings

    The settings of the process: environment variables, overridden by flags, then
    validated as a whole.  The [flag] package's syntax is not modelled: a command
    line is the list of the flags it sets, in order.  [url.Parse], PEM parsing and
    reading a file are parameters. *)
From Stdlib Require Import String Ascii ZArith Lia.
From S2P Require Import Prelude Effects GoStrings NetIP GoEncoding Endpoint Queue Client Sources.
Open Scope string_scope.
Open Scope list_scope.
Open Scope Z_scope.
Open Scope go_scope.

Definition second : Z := 1000 * ms.
Definition minute : Z := 60 * second.

Definition DefaultProvider : string := "fortigate".
Definition DefaultInterval : Z := minute.
Definition DefaultTimeout : Z := 15 * second.
Definition DefaultOwnerID : string := "fortigate-external-dns".
Definition DefaultCleanupPolicy : string := "delete".
Definition DefaultReconcileTimeout : Z := 2 * minute.
Definition DefaultMetricsAddr : string := ":8080".
Definition DefaultLeaderElectionID : string := "fortigate-external-dns".
Definition DefaultLogFormat : string := "text".
Definition DefaultLogLevel : string := "info".
Definition MinHealthzStaleness : Z := 5 * minute.
Definition MaxDefaultTTL : Z := 604800.
Definition MaxRetries : Z := 10.

Record FortiGateConfig := mkFortiGateConfig {
  FG_BaseURL : string; FG_APIToken : string; FG_VDOM : string; FG_Zone : string; FG_InsecureSkipVerify : bool;
  FG_ExclusiveZoneOwnership : bool; FG_CAFile : string; FG_CAData : string; FG_Timeout : Z; FG_Retries : Z }.

Record Settings := mkSettings {
  Cfg_Provider : string; Cfg_Kubeconfig : string; Cfg_Once : bool; Cfg_DryRun : bool; Cfg_PlanOutput : string;
  Cfg_PlanOutputOverwrite : bool; Cfg_ApprovedPlanHash : string; Cfg_TargetMode : bool; Cfg_PlatformNamespace : string;
  Cfg_PolicyEnforcement : bool; Cfg_EventDriven : bool; Cfg_Debounce : Z; Cfg_Resync : Z; Cfg_StatusRetention : Z;
  Cfg_PlanRetention : Z; Cfg_PublishExternalName : bool; Cfg_PublishHeadless : bool; Cfg_Interval : Z;
  Cfg_ReconcileTimeout : Z; Cfg_Sources : list string; Cfg_Namespaces : list string;
  Cfg_GatewayTargetNamespaces : list string; Cfg_DomainFilters : list string; Cfg_DefaultTTL : Z; Cfg_OwnerID : string;
  Cfg_CleanupPolicy : string; Cfg_MetricsAddr : string; Cfg_LeaderElection : bool; Cfg_LeaderElectionID : string;
  Cfg_LeaderElectionNamespace : string; Cfg_LogFormat : string; Cfg_LogLevel : string; Cfg_HealthzMaxStaleness : Z;
  Cfg_AllowEmptyDesiredCleanup : bool; Cfg_MaxCleanupPerCycle : Z; Cfg_FortiGate : FortiGateConfig;
  Cfg_APITokenFromFlag : bool }.

(** A parsed URL, as far as it is looked at. *)
Record URL := mkURL { Scheme : string; Host : string; User : option string; RawQuery : string; Fragment : string }.

(** What the environment of the process provides. *)
Class Platform := {
  url_Parse : string -> option URL;
  ReadFile : string -> option string;
  AppendCertsFromPEM : string -> bool           (* whether a certificate was found *)
}.

(** ** Lists of values *)

Definition splitCSV (value : string) : list string :=
  filter (fun item => item <> "") (TrimSpace <$> SplitChar value ",").

Definition normalize_item (out : list string) (item : string) : list string :=
  let item := ToLower (TrimSpace item) in
  if (item =s "") || bool_decide (item ∈ out) then out else out ++ [item].

Definition normalizeList (values : list string) : list string := foldl normalize_item [] (values ≫= splitCSV).

Definition isLowerSHA256 (value : string) : bool :=
  (String.length value =? 64)%nat
  && forallb (fun c => ((48 <=? nat_of_ascii c)%nat && (nat_of_ascii c <=? 57)%nat)
                           || ((97 <=? nat_of_ascii c)%nat && (nat_of_ascii c <=? 102)%nat)) (list_ascii_of_string value).

Definition requiredSources : list string := ["service"; "ingress"; "gateway"].
Definition config_sourcesAreRestrictive (sources : list string) : bool :=
  negb (forallb (fun required => bool_decide (required ∈ (fun s => ToLower (TrimSpace s)) <$> sources)) requiredSources).

(** ** Addresses *)

Fixpoint last_index (c : ascii) (s : string) : option nat :=
  match s with
  | "" => None
  | String d s' => match last_index c s' with
                   | Some i => Some (S i)
                   | None => if Ascii.eqb c d then Some O else None
                   end
  end.
Definition first_index (c : ascii) (s : string) : option nat := String.index 0 (String c "") s.
Definition str_drop (n : nat) (s : string) : string := String.substring n (String.length s - n) s.

(** [net.SplitHostPort]. *)
Definition SplitHostPort (hostport : string) : result string (string * string) :=
  match last_index ":" hostport with
  | None => Err "missing port in address"
  | Some i =>
      let check j k host :=
        if contains_char "[" (str_drop j hostport) then Err "unexpected '[' in address"
        else if contains_char "]" (str_drop k hostport) then Err "unexpected ']' in address"
        else Ok (host, str_drop (S i) hostport) in
      if HasPrefix hostport "[" then
        match first_index "]" hostport with
        | None => Err "missing ']' in address"
        | Some e =>
            if (S e =? String.length hostport)%nat then Err "missing port in address"
            else if (S e =? i)%nat then check 1%nat (S e) (String.substring 1 (e - 1) hostport)
            else if HasPrefix (str_drop (S e) hostport) ":" then Err "too many colons in address"
            else Err "missing port in address"
        end
      else
        let host := String.substring 0 i hostport in
        if contains_char ":" host then Err "too many colons in address" else check 0%nat 0%nat host
  end.

Definition validateMetricsAddr (addr : string) : result string unit :=
  let addr := TrimSpace addr in
  if addr =s "" then Ok tt
  else match SplitHostPort addr with
       | Err e => Err ("metrics address is not a valid host:port: " +:+ e)
       | Ok (_, port) =>
           if port =s "" then Err "metrics address must include a port"
           else match ParseInt port with
                | Some n => if (n <? 0) || (65535 <? n) then Err "metrics address has an invalid port" else Ok tt
                | None => Err "metrics address has an invalid port"
                end
       end.

(** ** Validation *)

Definition check (ok : bool) (e : string) : result string unit := if ok then Ok tt else Err e.

Section validation.
Context `{KeyValidation} `{Platform}.

Definition ValidateDomainFilter (domain_filter : string) : result string unit :=
  let name := TrimSuffix (ToLower (TrimSpace domain_filter)) "." in
  check (negb (name =s "") && bool_decide (IsDNS1123Subdomain name = [])
         && forallb (fun label => (String.length label <=? 63)%nat) (SplitChar name "."))
    "invalid domain filter".

Fixpoint check_all {A} (f : A -> result string unit) (l : list A) : result string unit :=
  match l with [] => Ok tt | x :: l => let? _ := f x in check_all f l end.

Definition trusts_ca (c : FortiGateConfig) : bool := negb (TrimSpace (FG_CAFile c) =s "") || negb (FG_CAData c =s "").

(** The CA bundle of the settings: the data, or the content of the file. *)
Definition ca_bundle (c : FortiGateConfig) : result string string :=
  if FG_CAData c =s "" then
    match ReadFile (FG_CAFile c) with Some data => Ok data | None => Err "FortiGate CA file is unreadable" end
  else Ok (FG_CAData c).

Definition FortiGateConfig_Validate (c : FortiGateConfig) : result string unit :=
  let? _ := check (negb (TrimSpace (FG_BaseURL c) =s "")) "FortiGate URL is required" in
  match url_Parse (FG_BaseURL c) with
  | None => Err "FortiGate URL is invalid"
  | Some parsed =>
      let? _ := check (bool_decide (User parsed = None)) "FortiGate URL must not include user information" in
      let? _ := check (negb ((Scheme parsed =s "") || (Host parsed =s ""))) "FortiGate URL must be an absolute URL with scheme and host" in
      let? _ := check (Scheme parsed =s "https") "FortiGate URL scheme must be https" in
      let? _ := check (negb (negb (RawQuery parsed =s "") || negb (Fragment parsed =s ""))) "FortiGate URL must not include a query or fragment" in
      let? _ := check (negb (TrimSpace (FG_APIToken c) =s "")) "FortiGate API token is required" in
      let? _ := check (negb (TrimSpace (FG_Zone c) =s "")) "FortiGate DNS zone is required" in
      let? _ := check (0 <? FG_Timeout c) "FortiGate timeout must be greater than zero" in
      let? _ := check (0 <=? FG_Retries c) "FortiGate retries must be zero or greater" in
      let? _ := check (FG_Retries c <=? MaxRetries) "FortiGate retries must not exceed 10" in
      let? _ := check (negb (negb (TrimSpace (FG_CAFile c) =s "") && negb (FG_CAData c =s "")))
                  "FortiGate CA file and in-memory CA data are mutually exclusive" in
      if trusts_ca c then
        let? _ := check (negb (FG_InsecureSkipVerify c)) "FortiGate CA file and insecure-skip-verify are mutually exclusive" in
        let? data := ca_bundle c in
        check (AppendCertsFromPEM data) "FortiGate CA bundle contains no PEM certificates"
      else Ok tt
  end.

Definition hasDirectFortiGateConfiguration (c : FortiGateConfig) : bool :=
  negb (TrimSpace (FG_BaseURL c) =s "") || negb (TrimSpace (FG_APIToken c) =s "") || negb (TrimSpace (FG_Zone c) =s "")
  || negb (TrimSpace (FG_CAFile c) =s "") || FG_InsecureSkipVerify c || FG_ExclusiveZoneOwnership c.

Definition file_plan_settings (c : Settings) : bool :=
  negb (Cfg_PlanOutput c =s "") || negb (Cfg_ApprovedPlanHash c =s "") || Cfg_PlanOutputOverwrite c.

(** The checks after those common to both modes, when targets come from flags. *)
Definition Validate_direct (c : Settings) : result string unit :=
  let? _ := check (negb (bool_decide (Cfg_Sources c = []))) "at least one source must be enabled" in
  let? _ := check_all (fun s => check (bool_decide (s ∈ requiredSources)) "unsupported source") (Cfg_Sources c) in
  let? _ := check (Cfg_DryRun c || FG_ExclusiveZoneOwnership (Cfg_FortiGate c))
              "FortiGate exclusive zone ownership must be explicitly enabled for write mode" in
  let? _ := check (negb (FG_ExclusiveZoneOwnership (Cfg_FortiGate c) && negb (Cfg_CleanupPolicy c =s "keep")
                         && (negb (bool_decide (Cfg_Namespaces c = [])) || config_sourcesAreRestrictive (Cfg_Sources c))))
              "cleanup policy must be keep when namespaces or a restricted source set are configured with exclusive zone ownership" in
  FortiGateConfig_Validate (Cfg_FortiGate c).

Definition Settings_Validate (c : Settings) : result string unit :=
  let? _ := check (EqualFold (TrimSpace (Cfg_Provider c)) DefaultProvider) "unsupported provider" in
  let? _ := check (0 <? Cfg_Interval c) "interval must be greater than zero" in
  let? _ := check (0 <? Cfg_ReconcileTimeout c) "reconcile timeout must be greater than zero" in
  let? _ := check (0 <=? Cfg_Debounce c) "debounce must not be negative" in
  let? _ := check (0 <? Cfg_Resync c) "resync must be greater than zero" in
  let? _ := check ((1 <=? Cfg_StatusRetention c) && (Cfg_StatusRetention c <=? 100)) "status retention must be between 1 and 100" in
  let? _ := check ((1 <=? Cfg_PlanRetention c) && (Cfg_PlanRetention c <=? 100)) "plan retention must be between 1 and 100" in
  let? _ := (if Cfg_TargetMode c then
               let? _ := check (negb (Cfg_PlatformNamespace c =s "")) "platform namespace is required in target mode" in
               check (negb (hasDirectFortiGateConfiguration (Cfg_FortiGate c)))
                 "direct FortiGate connection settings are mutually exclusive with target mode"
             else Ok tt) in
  let? _ := check_all ValidateDomainFilter (Cfg_DomainFilters c) in
  let? _ := check (0 <? Cfg_DefaultTTL c) "default TTL must be greater than zero" in
  let? _ := check (Cfg_DefaultTTL c <=? MaxDefaultTTL) "default TTL must not exceed 604800 seconds" in
  let? _ := check (negb (TrimSpace (Cfg_OwnerID c) =s "")) "owner ID is required" in
  let? _ := validateMetricsAddr (Cfg_MetricsAddr c) in
  let? _ := check (negb (Cfg_LeaderElection c && negb (Cfg_Once c) && (TrimSpace (Cfg_LeaderElectionID c) =s "")))
              "leader election ID is required when leader election is enabled" in
  let? _ := check (bool_decide (Cfg_CleanupPolicy c ∈ ["delete"; "deactivate"; "keep"])) "unsupported cleanup policy" in
  let? _ := check (bool_decide (Cfg_LogFormat c ∈ ["text"; "json"])) "unsupported log format" in
  let? _ := check (bool_decide (Cfg_LogLevel c ∈ ["debug"; "info"; "warn"; "error"])) "unsupported log level" in
  let? _ := check (0 <=? Cfg_HealthzMaxStaleness c) "healthz max staleness must be zero (auto) or greater" in
  let? _ := check (0 <=? Cfg_MaxCleanupPerCycle c) "max cleanup per cycle must be zero (unlimited) or greater" in
  let? _ := check (negb (file_plan_settings c && negb (Cfg_Once c))) "plan output and hash approval settings require one-shot mode" in
  let? _ := check (negb (Cfg_PlanOutputOverwrite c && (Cfg_PlanOutput c =s ""))) "plan output overwrite requires a plan output path" in
  let? _ := check ((Cfg_ApprovedPlanHash c =s "") || isLowerSHA256 (Cfg_ApprovedPlanHash c))
              "approved plan hash must be exactly 64 lowercase hexadecimal characters" in
  let? _ := check (negb (Cfg_EventDriven c) || Cfg_TargetMode c) "event-driven reconciliation requires target mode" in
  if Cfg_TargetMode c then check (negb (file_plan_settings c)) "one-shot file plan settings are unavailable in target mode"
  else Validate_direct c.

(** ** The transport of the credential-bearing client *)

Record TransportPolicy := mkTransportPolicy {
  TP_InsecureSkipVerify : bool;
  TP_RootCAs : option string;                (* the bundle that replaces the system roots *)
  TP_FollowsRedirects : bool }.

Definition newTransportPolicy (cfg : FortiGateConfig) : result string TransportPolicy :=
  let? _ := FortiGateConfig_Validate cfg in
  match url_Parse (FG_BaseURL cfg) with
  | None => Err "FortiGate URL scheme must be https"
  | Some parsed =>
      if negb (EqualFold (Scheme parsed) "https") then Err "FortiGate URL scheme must be https"
      else if trusts_ca cfg then
        let? data := ca_bundle cfg in
        let? _ := check (AppendCertsFromPEM data) "FortiGate CA bundle contains no PEM certificates" in
        Ok (mkTransportPolicy (FG_InsecureSkipVerify cfg) (Some data) false)
      else Ok (mkTransportPolicy (FG_InsecureSkipVerify cfg) None false)
  end.
End validation.

(** ** The liveness window *)

Definition wrap_int64 (z : Z) : Z := (z + 2 ^ 63) mod 2 ^ 64 - 2 ^ 63.

Definition ResolvedHealthzMaxStaleness (c : Settings) : Z :=
  if 0 <? Cfg_HealthzMaxStaleness c then Cfg_HealthzMaxStaleness c
  else
    let period := if Cfg_TargetMode c && (Cfg_Interval c <? Cfg_Resync c) then Cfg_Resync c else Cfg_Interval c in
    let window := wrap_int64 (5 * period) in
    if window <? MinHealthzStaleness then MinHealthzStaleness else window.

(** ** Loading: environment, then flags *)

(** [strconv.ParseInt(s, 0, 64)]: a base prefix, and underscores as separators
    after a prefix or between digits. *)
Definition digit_value (c : ascii) : option Z :=
  let n := Z.of_nat (nat_of_ascii c) in
  if (48 <=? n) && (n <=? 57) then Some (n - 48)
  else if (97 <=? n) && (n <=? 122) then Some (n - 87)
  else if (65 <=? n) && (n <=? 90) then Some (n - 55)
  else None.

Fixpoint digits_in_base (base : Z) (s : string) (acc : Z) : option Z :=
  match s with
  | "" => Some acc
  | String c s' =>
      if Ascii.eqb c "_" then digits_in_base base s' acc
      else match digit_value c with
           | Some d => if d <? base then digits_in_base base s' (acc * base + d) else None
           | None => None
           end
  end.

(** [underscoreOK] on the digits: [after] says whether an underscore may come next. *)
Fixpoint underscores_ok (after : bool) (s : string) : bool :=
  match s with
  | "" => true
  | String c s' => if Ascii.eqb c "_" then after && negb (s' =s "") && underscores_ok false s' else underscores_ok true s'
  end.

Definition base_of (s : string) : Z * string * bool :=
  match s with
  | String "0" (String c rest) =>
      let c := lower_char c in
      if Ascii.eqb c "x" && negb (rest =s "") then (16, rest, true)
      else if Ascii.eqb c "b" && negb (rest =s "") then (2, rest, true)
      else if Ascii.eqb c "o" && negb (rest =s "") then (8, rest, true)
      else (8, str_drop 1 s, true)
  | _ => (10, s, false)
  end.

Definition ParseIntPrefixed (s : string) : option Z :=
  let '(neg, body) := strip_sign s in
  let '(base, digits, prefixed) := base_of body in
  if (body =s "") || negb (underscores_ok prefixed digits) then None
  else match digits_in_base base digits 0 with
       | Some n => let n := if neg : bool then - n else n in if (int64_min <=? n) && (n <=? int64_max) then Some n else None
       | None => None
       end.

Section load.
Context (getenv : string -> string).

(** Reading the environment collects the parse errors. *)
Definition EnvM (A : Type) : Type := M (list string) string A.

Definition envString (name fallback : string) : string :=
  let value := TrimSpace (getenv name) in if value =s "" then fallback else value.

Definition ParseBool (s : string) : option bool :=
  if bool_decide (s ∈ ["1"; "t"; "T"; "TRUE"; "true"; "True"]) then Some true
  else if bool_decide (s ∈ ["0"; "f"; "F"; "FALSE"; "false"; "False"]) then Some false
  else None.

(** [envBool], [envDuration], [envInt64]: the fallback, and an error, for an unparsable value. *)
Definition env_value {A} (parse : string -> option A) (kind name : string) (fallback : A) : EnvM A :=
  let value := TrimSpace (getenv name) in
  if value =s "" then ret fallback
  else match parse value with
       | Some v => ret v
       | None => fun errs => (errs ++ [name +:+ " is not a valid " +:+ kind], Ok fallback)
       end.
Definition boolEnv : string -> bool -> EnvM bool := env_value ParseBool "boolean".
Definition durationEnv : string -> Z -> EnvM Z := env_value ParseDuration "duration".
Definition int64Env : string -> Z -> EnvM Z := env_value ParseInt "integer".

Definition env_fortigate : EnvM FortiGateConfig :=
  let! insecure := boolEnv "FORTIGATE_INSECURE_SKIP_VERIFY" false in
  let! exclusive := boolEnv "FORTIGATE_EXCLUSIVE_ZONE_OWNERSHIP" false in
  let! timeout := durationEnv "FORTIGATE_TIMEOUT" DefaultTimeout in
  let! retries := int64Env "FORTIGATE_RETRIES" 2 in
  ret (mkFortiGateConfig (envString "FORTIGATE_URL" "") (envString "FORTIGATE_API_TOKEN" "") (envString "FORTIGATE_VDOM" "root")
         (envString "FORTIGATE_ZONE" "") insecure exclusive (envString "FORTIGATE_CA_FILE" "") "" timeout retries).

Definition env_settings : EnvM Settings :=
  let! once := boolEnv "ONCE" false in
  let! dryRun := boolEnv "DRY_RUN" false in
  let! overwrite := boolEnv "PLAN_OUTPUT_OVERWRITE" false in
  let! targetMode := boolEnv "TARGET_MODE" false in
  let! policy := boolEnv "POLICY_ENFORCEMENT" false in
  let! events := boolEnv "EVENT_DRIVEN" false in
  let! debounce := durationEnv "DEBOUNCE" (2 * second) in
  let! resync := durationEnv "RESYNC" minute in
  let! statusRetention := int64Env "STATUS_RETENTION" 20 in
  let! planRetention := int64Env "PLAN_RETENTION" 20 in
  let! externalName := boolEnv "PUBLISH_EXTERNAL_NAME_SERVICES" false in
  let! headless := boolEnv "PUBLISH_HEADLESS_SERVICES" false in
  let! interval := durationEnv "INTERVAL" DefaultInterval in
  let! reconcileTimeout := durationEnv "RECONCILE_TIMEOUT" DefaultReconcileTimeout in
  let! ttl := int64Env "DEFAULT_TTL" 300 in
  let! leaderElection := boolEnv "LEADER_ELECTION" true in
  let! staleness := durationEnv "HEALTHZ_MAX_STALENESS" 0 in
  let! allowEmpty := boolEnv "ALLOW_EMPTY_DESIRED_CLEANUP" false in
  let! maxCleanup := int64Env "MAX_CLEANUP_PER_CYCLE" 0 in
  let! fortigate := env_fortigate in
  ret (mkSettings (envString "PROVIDER" DefaultProvider) (envString "KUBECONFIG" "") once dryRun (envString "PLAN_OUTPUT" "")
         overwrite (envString "APPROVED_PLAN_HASH" "") targetMode (envString "PLATFORM_NAMESPACE" (envString "POD_NAMESPACE" ""))
         policy events debounce resync statusRetention planRetention externalName headless interval reconcileTimeout
         (splitCSV (envString "SOURCES" "service,ingress,gateway")) (splitCSV (envString "NAMESPACES" ""))
         (splitCSV (envString "GATEWAY_TARGET_NAMESPACES" "")) (splitCSV (envString "DOMAIN_FILTERS" "")) ttl
         (envString "OWNER_ID" DefaultOwnerID) (envString "CLEANUP_POLICY" DefaultCleanupPolicy)
         (envString "METRICS_ADDR" DefaultMetricsAddr) leaderElection (envString "LEADER_ELECTION_ID" DefaultLeaderElectionID)
         (envString "LEADER_ELECTION_NAMESPACE" "") (envString "LOG_FORMAT" DefaultLogFormat) (envString "LOG_LEVEL" DefaultLogLevel)
         staleness allowEmpty maxCleanup fortigate false).

(** *** Flags *)

(** The flags of a command line, with their values, in order. *)
Context (flags : list (string * string)).

Definition visited (name : string) : bool := bool_decide (name ∈ fst <$> flags).
Definition occurrences (name : string) : list string := snd <$> filter (fun f => f.1 = name) flags.

(** The last value of a flag, or [current]; every value must parse. *)
Definition flag_value {A} (parse : string -> option A) (name : string) (current : A) : result string A :=
  foldl (fun acc v => let? _ := acc in
           match parse v with Some x => Ok x | None => Err ("invalid value for flag -" +:+ name) end)
        (Ok current) (occurrences name).
Definition stringFlag : string -> string -> result string string := flag_value Some.
Definition boolFlag : string -> bool -> result string bool := flag_value ParseBool.
Definition durationFlag : string -> Z -> result string Z := flag_value ParseDuration.
Definition intFlag : string -> Z -> result string Z := flag_value ParseIntPrefixed.
(** [stringSlice.Set] appends the items of each value. *)
Definition sliceFlag (name : string) : list string := occurrences name ≫= splitCSV.

Definition knownFlags : list string :=
  ["provider"; "kubeconfig"; "once"; "dry-run"; "plan-output"; "plan-output-overwrite"; "approved-plan-hash"; "target-mode";
   "platform-namespace"; "policy-enforcement"; "event-driven"; "debounce"; "resync"; "status-retention"; "plan-retention";
   "publish-external-name-services"; "publish-headless-services"; "interval"; "reconcile-timeout"; "source"; "namespace";
   "gateway-target-namespace"; "domain-filter"; "default-ttl"; "owner-id"; "cleanup-policy"; "metrics-addr"; "leader-election";
   "leader-election-id"; "leader-election-namespace"; "log-format"; "log-level"; "healthz-max-staleness";
   "allow-empty-desired-cleanup"; "max-cleanup-per-cycle"; "fortigate-url"; "fortigate-api-token"; "fortigate-vdom";
   "fortigate-zone"; "fortigate-insecure-skip-verify"; "fortigate-exclusive-zone-ownership"; "fortigate-ca-file";
   "fortigate-timeout"; "fortigate-retries"].

Definition list_setting (name : string) (from_env : list string) : list string :=
  normalizeList (if visited name then sliceFlag name else from_env).

Definition flag_fortigate (c : FortiGateConfig) : result string FortiGateConfig :=
  let? url := stringFlag "fortigate-url" "" in
  let? token := stringFlag "fortigate-api-token" "" in
  let? vdom := stringFlag "fortigate-vdom" (FG_VDOM c) in
  let? zone := stringFlag "fortigate-zone" (FG_Zone c) in
  let? insecure := boolFlag "fortigate-insecure-skip-verify" (FG_InsecureSkipVerify c) in
  let? exclusive := boolFlag "fortigate-exclusive-zone-ownership" (FG_ExclusiveZoneOwnership c) in
  let? caFile := stringFlag "fortigate-ca-file" (FG_CAFile c) in
  let? timeout := durationFlag "fortigate-timeout" (FG_Timeout c) in
  let? retries := intFlag "fortigate-retries" (FG_Retries c) in
  Ok (mkFortiGateConfig (if visited "fortigate-url" then url else FG_BaseURL c)
        (if visited "fortigate-api-token" then token else FG_APIToken c) vdom zone insecure exclusive caFile (FG_CAData c)
        timeout retries).

(** [fs.Parse(args)] and the values taken over and normalized after it. *)
Definition flag_settings (c : Settings) : result string Settings :=
  let? _ := check (forallb (fun f => bool_decide (f.1 ∈ knownFlags)) flags) "flag provided but not defined" in
  let? provider := stringFlag "provider" (Cfg_Provider c) in
  let? kubeconfig := stringFlag "kubeconfig" (Cfg_Kubeconfig c) in
  let? once := boolFlag "once" (Cfg_Once c) in
  let? dryRun := boolFlag "dry-run" (Cfg_DryRun c) in
  let? planOutput := stringFlag "plan-output" (Cfg_PlanOutput c) in
  let? overwrite := boolFlag "plan-output-overwrite" (Cfg_PlanOutputOverwrite c) in
  let? approved := stringFlag "approved-plan-hash" (Cfg_ApprovedPlanHash c) in
  let? targetMode := boolFlag "target-mode" (Cfg_TargetMode c) in
  let? namespace := stringFlag "platform-namespace" (Cfg_PlatformNamespace c) in
  let? policy := boolFlag "policy-enforcement" (Cfg_PolicyEnforcement c) in
  let? events := boolFlag "event-driven" (Cfg_EventDriven c) in
  let? debounce := durationFlag "debounce" (Cfg_Debounce c) in
  let? resync := durationFlag "resync" (Cfg_Resync c) in
  let? statusRetention := intFlag "status-retention" (Cfg_StatusRetention c) in
  let? planRetention := intFlag "plan-retention" (Cfg_PlanRetention c) in
  let? externalName := boolFlag "publish-external-name-services" (Cfg_PublishExternalName c) in
  let? headless := boolFlag "publish-headless-services" (Cfg_PublishHeadless c) in
  let? interval := durationFlag "interval" (Cfg_Interval c) in
  let? reconcileTimeout := durationFlag "reconcile-timeout" (Cfg_ReconcileTimeout c) in
  let? ttl := intFlag "default-ttl" (Cfg_DefaultTTL c) in
  let? owner := stringFlag "owner-id" (Cfg_OwnerID c) in
  let? cleanup := stringFlag "cleanup-policy" (Cfg_CleanupPolicy c) in
  let? metricsAddr := stringFlag "metrics-addr" (Cfg_MetricsAddr c) in
  let? leaderElection := boolFlag "leader-election" (Cfg_LeaderElection c) in
  let? electionID := stringFlag "leader-election-id" (Cfg_LeaderElectionID c) in
  let? electionNamespace := stringFlag "leader-election-namespace" (Cfg_LeaderElectionNamespace c) in
  let? logFormat := stringFlag "log-format" (Cfg_LogFormat c) in
  let? logLevel := stringFlag "log-level" (Cfg_LogLevel c) in
  let? staleness := durationFlag "healthz-max-staleness" (Cfg_HealthzMaxStaleness c) in
  let? allowEmpty := boolFlag "allow-empty-desired-cleanup" (Cfg_AllowEmptyDesiredCleanup c) in
  let? maxCleanup := intFlag "max-cleanup-per-cycle" (Cfg_MaxCleanupPerCycle c) in
  let? fortigate := flag_fortigate (Cfg_FortiGate c) in
  Ok (mkSettings provider kubeconfig once dryRun (TrimSpace planOutput) overwrite (TrimSpace approved) targetMode
        (TrimSpace namespace) policy events debounce resync statusRetention planRetention externalName headless interval
        reconcileTimeout (list_setting "source" (Cfg_Sources c)) (list_setting "namespace" (Cfg_Namespaces c))
        (list_setting "gateway-target-namespace" (Cfg_GatewayTargetNamespaces c)) (list_setting "domain-filter" (Cfg_DomainFilters c))
        ttl owner (ToLower (TrimSpace cleanup)) metricsAddr leaderElection electionID electionNamespace
        (ToLower (TrimSpace logFormat)) (ToLower (TrimSpace logLevel)) staleness allowEmpty maxCleanup fortigate
        (visited "fortigate-api-token")).

Definition load : result string Settings :=
  match env_settings [] with
  | (parseErrs, Ok c) =>
      let? cfg := flag_settings c in
      if bool_decide (parseErrs = []) then Ok cfg else Err "invalid environment configuration"
  | (_, Err e) => Err e                       (* never: reading the environment does not fail *)
  end.
End load.
