(* ===== verification/SettingsLaws.v ===== *)
(** * Properties of the settings *)
From Stdlib Require Import String Ascii ZArith Lia.
From S2P Require Import Prelude Effects GoStrings NetIP GoEncoding Endpoint Queue Client Sources Plan Policy Gateways Runner Settings.
Open Scope string_scope.
Open Scope list_scope.
Open Scope Z_scope.
Open Scope go_scope.

Lemma check_ok b e u : check b e = Ok u -> b = true.
Proof. by destruct b. Qed.

Lemma rbind_ok {E A B} (m : result E A) (k : A -> result E B) b : rbind m k = Ok b -> exists a, m = Ok a /\ k a = Ok b.
Proof. destruct m as [a|e]; [by exists a|done]. Qed.

(** [checks H]: the conditions that hold when a sequence of checks succeeds. *)
Ltac checks H :=
  repeat match type of H with
  | rbind (check _ _) _ = Ok _ =>
      let Hc := fresh "Hc" in apply rbind_ok in H as (? & Hc & H); apply check_ok in Hc
  end.

(** What a list of tests says. *)
Ltac facts :=
  bools;
  repeat match goal with
  | H : bool_decide _ = true |- _ => apply bool_decide_eq_true in H
  | H : bool_decide _ = false |- _ => apply bool_decide_eq_false in H
  | H : (_ <? _) = true |- _ => apply Z.ltb_lt in H
  | H : (_ <=? _) = true |- _ => apply Z.leb_le in H
  end.

Section validation.
Context `{KeyValidation} `{Platform}.

Lemma check_all_ok {A} (f : A -> result string unit) l : check_all f l = Ok tt -> forall x, x ∈ l -> f x = Ok tt.
Proof.
  induction l as [|y l IH]; intros E x Hx; [by apply not_elem_of_nil in Hx|]. cbn in E. apply rbind_ok in E as ([] & Ey & E).
  apply elem_of_cons in Hx as [-> | Hx]; [done|]. by apply IH.
Qed.

(** What a validated connection is. *)
Lemma FortiGateConfig_Validate_ok c : FortiGateConfig_Validate c = Ok tt -> exists u, url_Parse (FG_BaseURL c) = Some u /\
  Scheme u = "https" /\ Host u <> "" /\ User u = None /\ RawQuery u = "" /\ Fragment u = "" /\
  TrimSpace (FG_APIToken c) <> "" /\ TrimSpace (FG_Zone c) <> "" /\ 0 < FG_Timeout c /\ 0 <= FG_Retries c <= MaxRetries /\
  (trusts_ca c = true -> FG_InsecureSkipVerify c = false /\ exists data, ca_bundle c = Ok data /\ AppendCertsFromPEM data = true).
Proof.
  unfold FortiGateConfig_Validate. intros E. checks E. destruct (url_Parse (FG_BaseURL c)) as [u|]; [|done]. checks E. facts.
  exists u. split_and!; try done. intros Ht. rewrite Ht in E. checks E. facts. split; [done|].
  apply rbind_ok in E as (data & Ed & E). apply check_ok in E. eauto.
Qed.

(** The runner and the validation agree on which validated sources are restrictive. *)
Lemma restrictive_agree sources : (forall s, s ∈ sources -> s ∈ requiredSources) -> sourcesAreRestrictive sources = true ->
  config_sourcesAreRestrictive sources = true.
Proof.
  intros Hs Hr. unfold config_sourcesAreRestrictive. assert (Heq : (fun s => ToLower (TrimSpace s)) <$> sources = ToLower <$> sources).
  { apply list_fmap_ext. intros i s Hi. apply list_elem_of_lookup_2, Hs in Hi. unfold requiredSources in Hi.
    repeat (apply elem_of_cons in Hi as [-> | Hi]; [done|]). by apply not_elem_of_nil in Hi. }
  rewrite Heq. unfold sourcesAreRestrictive in Hr. destruct sources; [done|]. cbn [requiredSources forallb]. by rewrite andb_true_r, andb_assoc.
Qed.

Lemma Settings_Validate_ok c : Settings_Validate c = Ok tt ->
  0 < Cfg_Interval c /\ 0 < Cfg_Resync c /\ 0 < Cfg_DefaultTTL c <= MaxDefaultTTL /\ TrimSpace (Cfg_OwnerID c) <> "" /\
  Cfg_CleanupPolicy c ∈ ["delete"; "deactivate"; "keep"] /\ 0 <= Cfg_HealthzMaxStaleness c /\ 0 <= Cfg_MaxCleanupPerCycle c /\
  1 <= Cfg_PlanRetention c <= 100 /\
  (Cfg_TargetMode c = true -> hasDirectFortiGateConfiguration (Cfg_FortiGate c) = false /\ file_plan_settings c = false) /\
  (Cfg_TargetMode c = false -> Validate_direct c = Ok tt).
Proof.
  unfold Settings_Validate. intros E. checks E.
  apply rbind_ok in E as ([] & Et & E). apply rbind_ok in E as ([] & _ & E). checks E. apply rbind_ok in E as ([] & _ & E). checks E. facts.
  split_and!; try done.
  - intros Htm. rewrite Htm in E, Et. apply check_ok in E. checks Et. apply check_ok in Et. facts. done.
  - intros Htm. by rewrite Htm in E.
Qed.

(** C29. Settings that pass validation cannot destroy records by accident.  When they
    allow writes to a FortiGate given by flags, zone ownership was confirmed; when
    the sources or namespaces the runner watches are only a part of the cluster,
    the cleanup policy keeps records; the URL is https without credentials in it;
    and the token, the zone, the owner, the TTL and the retries are in range.  In
    target mode no FortiGate may be given by flags at all. *)
Theorem validated_settings_safe c : Settings_Validate c = Ok tt ->
  (Cfg_TargetMode c = true -> TrimSpace (FG_BaseURL (Cfg_FortiGate c)) = "" /\ TrimSpace (FG_APIToken (Cfg_FortiGate c)) = "") /\
  (Cfg_TargetMode c = false ->
    (Cfg_DryRun c = false -> FG_ExclusiveZoneOwnership (Cfg_FortiGate c) = true) /\
    (FG_ExclusiveZoneOwnership (Cfg_FortiGate c) = true ->
       Cfg_Namespaces c <> [] \/ sourcesAreRestrictive (Cfg_Sources c) = true -> Cfg_CleanupPolicy c = CleanupKeep) /\
    (forall s, s ∈ Cfg_Sources c -> s ∈ [SourceService; SourceIngress; SourceGateway]) /\
    (exists u, url_Parse (FG_BaseURL (Cfg_FortiGate c)) = Some u /\ Scheme u = "https" /\ User u = None) /\
    TrimSpace (FG_APIToken (Cfg_FortiGate c)) <> "" /\ TrimSpace (FG_Zone (Cfg_FortiGate c)) <> "" /\
    0 <= FG_Retries (Cfg_FortiGate c) <= MaxRetries) /\
  TrimSpace (Cfg_OwnerID c) <> "" /\ 0 < Cfg_DefaultTTL c <= MaxDefaultTTL /\ 0 <= Cfg_MaxCleanupPerCycle c.
Proof.
  intros E. apply Settings_Validate_ok in E as (_ & _ & Httl & Hown & _ & _ & Hmax & _ & Htm & Hdir). split_and!; try lia; [| |done].
  - intros Ht. destruct (Htm Ht) as [Hno _]. unfold hasDirectFortiGateConfiguration in Hno. facts. done.
  - intros Ht. specialize (Hdir Ht). unfold Validate_direct in Hdir. checks Hdir.
    apply rbind_ok in Hdir as ([] & Ea & Hdir). pose proof (check_all_ok _ _ Ea) as Hsrc. checks Hdir.
    assert (Hs : forall s, s ∈ Cfg_Sources c -> s ∈ requiredSources).
    { intros s Hs. specialize (Hsrc s Hs). apply check_ok in Hsrc. by facts. }
    apply FortiGateConfig_Validate_ok in Hdir as (u & Hu & Hsch & _ & Huser & _ & _ & Htok & Hzone & _ & Hret & _).
    split_and!; try done; try lia; [|intros Hex Hrestr|eauto].
    + intros Hdry. rewrite Hdry in *. by facts.
    + apply negb_true_iff in Hc1. rewrite Hex in Hc1. cbn [andb] in Hc1. apply andb_false_iff in Hc1 as [Hk|Hr].
      * by facts.
      * facts. destruct Hrestr as [?|Hrestr]; [done|]. by rewrite (restrictive_agree _ Hs Hrestr) in *.
Qed.

(** The client that carries the token: it is made only for an https URL, it
    never follows a redirect, its roots are the configured CA bundle when there is
    one (which holds a certificate), and a configured bundle is never combined with
    skipping verification. *)
Theorem newTransportPolicy_safe cfg p : newTransportPolicy cfg = Ok p ->
  TP_FollowsRedirects p = false /\ (exists u, url_Parse (FG_BaseURL cfg) = Some u /\ Scheme u = "https") /\
  (trusts_ca cfg = true <-> is_Some (TP_RootCAs p)) /\
  (forall data, TP_RootCAs p = Some data -> AppendCertsFromPEM data = true /\ TP_InsecureSkipVerify p = false /\ ca_bundle cfg = Ok data).
Proof.
  unfold newTransportPolicy. intros E. apply rbind_ok in E as ([] & Ev & E).
  apply FortiGateConfig_Validate_ok in Ev as (u & Hu & Hs & _ & _ & _ & _ & _ & _ & _ & _ & Hca). rewrite Hu in E.
  destruct (negb _); [done|]. destruct (trusts_ca cfg).
  - destruct (Hca eq_refl) as [Hskip _]. apply rbind_ok in E as (data & Ed & E). checks E. injection E as <-. cbn.
    split_and!; [done|eauto|by split; eauto|]. by intros ? [= <-].
  - injection E as <-. cbn. split_and!; [done|eauto|split; [done|by intros [? ?]]|done].
Qed.
End validation.

(** ** Reading the environment *)

Section load.
Context (getenv : string -> string).

Definition boolVars : list string :=
  ["ONCE"; "DRY_RUN"; "PLAN_OUTPUT_OVERWRITE"; "TARGET_MODE"; "POLICY_ENFORCEMENT"; "EVENT_DRIVEN"; "PUBLISH_EXTERNAL_NAME_SERVICES";
   "PUBLISH_HEADLESS_SERVICES"; "LEADER_ELECTION"; "ALLOW_EMPTY_DESIRED_CLEANUP"; "FORTIGATE_INSECURE_SKIP_VERIFY";
   "FORTIGATE_EXCLUSIVE_ZONE_OWNERSHIP"].
Definition durationVars : list string := ["DEBOUNCE"; "RESYNC"; "INTERVAL"; "RECONCILE_TIMEOUT"; "HEALTHZ_MAX_STALENESS"; "FORTIGATE_TIMEOUT"].
Definition intVars : list string := ["STATUS_RETENTION"; "PLAN_RETENTION"; "DEFAULT_TTL"; "MAX_CLEANUP_PER_CYCLE"; "FORTIGATE_RETRIES"].

(** A variable that is set to something that is not of its type. *)
Definition unparsable {A} (parse : string -> option A) (name : string) : Prop :=
  TrimSpace (getenv name) <> "" /\ parse (TrimSpace (getenv name)) = None.

(** [grows]: errors are only added.  [complains]: one is. *)
Definition grows {A} (m : EnvM A) : Prop := forall errs, errs <> [] -> (m errs).1 <> [].
Definition complains {A} (m : EnvM A) : Prop := forall errs, exists a, (m errs).2 = Ok a /\ (m errs).1 <> [].
Definition reads {A} (m : EnvM A) : Prop := grows m /\ forall errs, exists a, (m errs).2 = Ok a.

Lemma reads_ret {A} (a : A) : reads (ret a).
Proof. split; [intros errs He; exact He|]. intros errs. by exists a. Qed.

Lemma reads_env {A} parse kind name (fallback : A) : reads (env_value getenv parse kind name fallback).
Proof.
  unfold env_value. destruct (_ =s _); [apply reads_ret|]. destruct (parse _); [apply reads_ret|].
  split; [|by eexists]. intros errs _. cbn. by destruct errs.
Qed.

Lemma reads_bind {A B} (m : EnvM A) (k : A -> EnvM B) : reads m -> (forall a, reads (k a)) -> reads (bind m k).
Proof.
  intros [Hg Hm] Hk. split; intros errs.
  - intros Hne. unfold bind. specialize (Hg errs Hne). destruct (m errs) as [errs1 [a|e]]; [|done]. by apply (Hk a).
  - unfold bind. destruct (Hm errs) as [a Ha]. destruct (m errs) as [errs1 r]. cbn in Ha. rewrite Ha. apply (Hk a).
Qed.

Lemma complains_env {A} parse kind name (fallback : A) : unparsable parse name -> complains (env_value getenv parse kind name fallback).
Proof.
  intros [H1 H2] errs. unfold env_value. rewrite (proj2 (eqb_neq_iff _ _) H1), H2. eexists. split; [done|]. cbn. by destruct errs.
Qed.

Lemma complains_here {A B} (m : EnvM A) (k : A -> EnvM B) : complains m -> (forall a, reads (k a)) -> complains (bind m k).
Proof.
  intros Hm Hk errs. unfold bind. destruct (Hm errs) as (a & Ha & Hne). destruct (m errs) as [errs1 r]. cbn in Ha, Hne. rewrite Ha.
  destruct (Hk a) as [Hg Hr]. destruct (Hr errs1) as [b Hb]. exists b. split; [done|]. by apply Hg.
Qed.

Lemma complains_later {A B} (m : EnvM A) (k : A -> EnvM B) : reads m -> (forall a, complains (k a)) -> complains (bind m k).
Proof.
  intros [_ Hm] Hk errs. unfold bind. destruct (Hm errs) as [a Ha]. destruct (m errs) as [errs1 r]. cbn in Ha. rewrite Ha. apply (Hk a).
Qed.

(** [reading]: a program that only reads; [complaining H]: one that reads the variable of [H]. *)
Ltac reading := repeat first [apply reads_ret | apply reads_env | apply reads_bind; [|intros ?] | unfold env_fortigate].
Ltac complaining H :=
  repeat first [ apply complains_here; [solve [apply complains_env; exact H]|intros ?; reading]
               | apply complains_later; [solve [reading]|intros ?] ].
Ltac complaining_all H :=
  first [ solve [complaining H]
        | repeat (apply complains_later; [apply reads_env|intros ?]); apply complains_here; [|intros ?; reading];
          unfold env_fortigate; solve [complaining H] ].

Lemma env_settings_complains name :
  (name ∈ boolVars /\ unparsable ParseBool name) \/ (name ∈ durationVars /\ unparsable ParseDuration name) \/
  (name ∈ intVars /\ unparsable ParseInt name) -> complains (env_settings getenv).
Proof.
  unfold env_settings, boolEnv, durationEnv, int64Env, boolVars, durationVars, intVars.
  intros [[Hn H]|[[Hn H]|[Hn H]]];
    repeat (apply elem_of_cons in Hn as [-> | Hn]; [complaining_all H|]); by apply not_elem_of_nil in Hn.
Qed.

(** A setting the environment spells wrong never falls back to its default:
    whatever flags are given, loading fails when a boolean, duration or integer
    variable is set to a value that is not one ([DRY_RUN=ture] does not start a
    writer). *)
Theorem load_rejects_unparsable flags name :
  (name ∈ boolVars /\ unparsable ParseBool name) \/ (name ∈ durationVars /\ unparsable ParseDuration name) \/
  (name ∈ intVars /\ unparsable ParseInt name) -> exists e, load getenv flags = Err e.
Proof.
  intros Hn. apply env_settings_complains in Hn. unfold load. destruct (Hn []) as (c & Hc & Hne).
  destruct (env_settings getenv []) as [errs r]. cbn in Hc, Hne. rewrite Hc. destruct (flag_settings flags c) as [cfg|e]; [|by exists e].
  cbn. rewrite bool_decide_eq_false_2 by done. eauto.
Qed.
End load.

(** ** The liveness window *)

Lemma wrap_int64_small z : int64_min <= z <= int64_max -> wrap_int64 z = z.
Proof. unfold wrap_int64, int64_min, int64_max. intros Hz. rewrite Z.mod_small; lia. Qed.

(** The staleness after which the liveness probe fails is never below five
    minutes unless it was configured, and while five periods fit a duration it is
    at least five periods of what the process does (the resync of targets when that
    is longer than the interval), so that a healthy loop is not restarted. *)
Theorem healthz_window_wide c : 0 <= Cfg_HealthzMaxStaleness c ->
  let period := if Cfg_TargetMode c then Z.max (Cfg_Interval c) (Cfg_Resync c) else Cfg_Interval c in
  if 0 <? Cfg_HealthzMaxStaleness c then ResolvedHealthzMaxStaleness c = Cfg_HealthzMaxStaleness c
  else MinHealthzStaleness <= ResolvedHealthzMaxStaleness c /\
       (0 < period -> 5 * period <= int64_max -> ResolvedHealthzMaxStaleness c = Z.max MinHealthzStaleness (5 * period)).
Proof.
  intros Hs. cbv zeta. unfold ResolvedHealthzMaxStaleness. destruct (0 <? _); [done|]. cbv zeta.
  set (p := if Cfg_TargetMode c && _ then _ else _).
  assert (Hp : p = if Cfg_TargetMode c then Z.max (Cfg_Interval c) (Cfg_Resync c) else Cfg_Interval c).
  { unfold p. destruct (Cfg_TargetMode c); [|done]. cbn [andb]. destruct (Z.ltb_spec (Cfg_Interval c) (Cfg_Resync c)); lia. }
  rewrite <- Hp. split.
  - destruct (Z.ltb_spec (wrap_int64 (5 * p)) MinHealthzStaleness); [lia|done].
  - intros H0 H5. rewrite wrap_int64_small by (unfold int64_min; lia). destruct (Z.ltb_spec (5 * p) MinHealthzStaleness); lia.
Qed.
