(* ===== verification/Targets.v ===== *)
(** * internal/target/target.go and router.go: targets

    A target names a FortiGate, a zone and the domains it may write.  Definitions
    come from the settings or from API objects; they are normalized and validated,
    alone and against each other, and endpoints are routed to them. *)
From Stdlib Require Import String Ascii ZArith Lia.
From S2P Require Import Prelude GoStrings NetIP GoEncoding Endpoint Queue Client Claims Settings.
Open Scope string_scope.
Open Scope list_scope.
Open Scope Z_scope.
Open Scope go_scope.

Definition DefaultName : string := "default".
Definition CleanupPolicyDelete : string := "delete".
Definition CleanupPolicyDeactivate : string := "deactivate".
Definition CleanupPolicyKeep : string := "keep".
Definition ApprovalModeDisabled : string := "disabled".
Definition ApprovalModeRequired : string := "required".

Record SecretKeySelector := mkSecretRef { SR_Name : string; SR_Key : string; SR_Optional : option bool }.
Record LocalKeyReference := mkLocalRef { LR_Kind : string; LR_Name : string; LR_Key : string }.

Record Definition_ := mkDefinition {
  D_Namespace : string; D_Name : string; D_UID : string; D_ResourceVersion : string; D_Generation : Z; D_Legacy : bool;
  D_URL : string; D_VDOM : string; D_Zone : string; D_APIToken : string; D_APITokenSecretRef : option SecretKeySelector;
  D_CAFile : string; D_CARef : option LocalKeyReference; D_InsecureSkipVerify : bool;
  D_OwnershipMode : string; D_ControllerID : string; D_Sources : list string; D_Namespaces : list string;
  D_GatewayTargetNamespaces : list string; D_DomainFilters : list string; D_CleanupPolicy : string; D_DryRun : bool;
  D_ApprovalMode : string; D_AllowNonDestructiveOverlap : bool; D_ExternalNameEnabled : bool; D_HeadlessEnabled : bool;
  D_Interval : Z; D_Debounce : Z; D_Timeout : Z; D_Retries : Z; D_DefaultTTL : Z }.

#[export] Instance SecretKeySelector_eq_dec : EqDecision SecretKeySelector.
Proof. solve_decision. Defined.
#[export] Instance LocalKeyReference_eq_dec : EqDecision LocalKeyReference.
Proof. solve_decision. Defined.
#[export] Instance Definition_eq_dec : EqDecision Definition_.
Proof. solve_decision. Defined.

(** [FortiGateDNSTarget]: metadata and spec. *)
Record TargetSpec := mkTargetSpec {
  T_URL : string; T_VDOM : string; T_Zone : string; T_APITokenSecretRef : SecretKeySelector; T_CARef : option LocalKeyReference;
  T_InsecureSkipVerify : bool; T_OwnershipMode : string; T_ControllerID : string; T_Sources : list string;
  T_Namespaces : list string; T_GatewayTargetNamespaces : list string; T_DomainFilters : list string;
  T_CleanupPolicy : string; T_DryRun : bool; T_ApprovalMode : string; T_AllowNonDestructiveOverlap : bool;
  T_Interval : Z; T_Debounce : Z; T_Timeout : Z; T_Retries : Z; T_DefaultTTL : Z;
  T_ExternalNameEnabled : bool; T_HeadlessEnabled : bool }.
Record TargetObject := mkTargetObject {
  TO_Namespace : string; TO_Name : string; TO_UID : string; TO_ResourceVersion : string; TO_Generation : Z; TO_Spec : TargetSpec }.

(** ** Sources of definitions *)

Definition FromLegacy (cfg : Settings) : Definition_ :=
  let fg := Cfg_FortiGate cfg in
  mkDefinition "" DefaultName "" "" 0 true (FG_BaseURL fg) (FG_VDOM fg) (FG_Zone fg) (FG_APIToken fg) None (FG_CAFile fg) None
    (FG_InsecureSkipVerify fg) OwnershipModeExclusive (Cfg_OwnerID cfg) (Cfg_Sources cfg) (Cfg_Namespaces cfg)
    (Cfg_GatewayTargetNamespaces cfg) (Cfg_DomainFilters cfg) (Cfg_CleanupPolicy cfg) (Cfg_DryRun cfg) ApprovalModeDisabled
    false false false (Cfg_Interval cfg) 0 (FG_Timeout fg) (FG_Retries fg) (Cfg_DefaultTTL cfg).

Definition FromAPI (o : TargetObject) : Definition_ :=
  let t := TO_Spec o in
  mkDefinition (TO_Namespace o) (TO_Name o) (TO_UID o) (TO_ResourceVersion o) (TO_Generation o) false (T_URL t) (T_VDOM t)
    (T_Zone t) "" (Some (T_APITokenSecretRef t)) "" (T_CARef t) (T_InsecureSkipVerify t) (T_OwnershipMode t) (T_ControllerID t)
    (T_Sources t) (T_Namespaces t) (T_GatewayTargetNamespaces t) (T_DomainFilters t) (T_CleanupPolicy t) (T_DryRun t)
    (T_ApprovalMode t) (T_AllowNonDestructiveOverlap t) (T_ExternalNameEnabled t) (T_HeadlessEnabled t) (T_Interval t)
    (T_Debounce t) (T_Timeout t) (T_Retries t) (T_DefaultTTL t).

Definition D_Key (d : Definition_) : string :=
  if TrimSpace (D_Namespace d) =s "" then TrimSpace (D_Name d) else TrimSpace (D_Namespace d) +:+ "/" +:+ TrimSpace (D_Name d).

(** ** Normalization *)

Definition unique_sorted (values : list string) : list string :=
  foldl (fun result value => match last result with
                             | Some v => if v =s value then result else result ++ [value]
                             | None => [value]
                             end) [] (sort_strings values).

Definition normalizeSuffixes (values : list string) : list string :=
  unique_sorted (filter (fun v => v <> "") (NormalizeDNSName <$> values)).
Definition normalizeValues (values : list string) : list string :=
  unique_sorted (filter (fun v => v <> "") ((fun v => ToLower (TrimSpace v)) <$> values)).

Definition normalize_definition (d : Definition_) : Definition_ :=
  mkDefinition (ToLower (TrimSpace (D_Namespace d))) (ToLower (TrimSpace (D_Name d))) (D_UID d) (D_ResourceVersion d)
    (D_Generation d) (D_Legacy d) (D_URL d) (D_VDOM d) (NormalizeDNSName (D_Zone d)) (D_APIToken d) (D_APITokenSecretRef d)
    (D_CAFile d) (D_CARef d) (D_InsecureSkipVerify d) (D_OwnershipMode d) (D_ControllerID d) (normalizeValues (D_Sources d))
    (normalizeValues (D_Namespaces d)) (normalizeValues (D_GatewayTargetNamespaces d)) (normalizeSuffixes (D_DomainFilters d))
    (D_CleanupPolicy d) (D_DryRun d) (D_ApprovalMode d) (D_AllowNonDestructiveOverlap d) (D_ExternalNameEnabled d)
    (D_HeadlessEnabled d) (D_Interval d) (D_Debounce d) (D_Timeout d) (D_Retries d) (D_DefaultTTL d).

Definition set_modes (cleanup approval : string) (d : Definition_) : Definition_ :=
  mkDefinition (D_Namespace d) (D_Name d) (D_UID d) (D_ResourceVersion d)
    (D_Generation d) (D_Legacy d) (D_URL d) (D_VDOM d) (D_Zone d) (D_APIToken d) (D_APITokenSecretRef d)
    (D_CAFile d) (D_CARef d) (D_InsecureSkipVerify d) (D_OwnershipMode d) (D_ControllerID d) (D_Sources d)
    (D_Namespaces d) (D_GatewayTargetNamespaces d) (D_DomainFilters d)
    cleanup (D_DryRun d) approval (D_AllowNonDestructiveOverlap d) (D_ExternalNameEnabled d)
    (D_HeadlessEnabled d) (D_Interval d) (D_Debounce d) (D_Timeout d) (D_Retries d) (D_DefaultTTL d).

(** ** Scopes *)

Definition suffixContains (parent child : string) : bool :=
  let parent := NormalizeDNSName parent in
  let child := NormalizeDNSName child in
  (parent =s child) || HasSuffix child ("." +:+ parent).

Definition domainScopes (d : Definition_) : list string :=
  match D_DomainFilters d with [] => [D_Zone d] | l => l end.

Definition writeScopesOverlap (left right : Definition_) : bool :=
  if D_DryRun left || D_DryRun right then false
  else existsb (fun l => existsb (fun r => suffixContains l r || suffixContains r l) (domainScopes right)) (domainScopes left).

Definition nonDestructiveOverlapAllowed (left right : Definition_) : bool :=
  (D_CleanupPolicy left =s CleanupPolicyKeep) && (D_CleanupPolicy right =s CleanupPolicyKeep)
  && D_AllowNonDestructiveOverlap left && D_AllowNonDestructiveOverlap right.

(** Two writers that may not run beside each other. *)
Definition scopes_conflict (left right : Definition_) : bool :=
  writeScopesOverlap left right && negb (nonDestructiveOverlapAllowed left right).

(** ** Validation of one definition *)

Section validation.
Context `{KeyValidation} `{Platform}.

Definition validateURL (raw : string) : result string unit :=
  match url_Parse (TrimSpace raw) with
  | None => Err "FortiGate URL is invalid"
  | Some parsed =>
      if (Scheme parsed =s "") || (Host parsed =s "") then Err "FortiGate URL is invalid"
      else if negb (Scheme parsed =s "https") then Err "FortiGate URL scheme must be https"
      else check (negb (negb (bool_decide (User parsed = None)) || negb (RawQuery parsed =s "") || negb (Fragment parsed =s "")))
             "FortiGate URL must not contain user information, query, or fragment"
  end.

Definition validate_credentials (d : Definition_) : result string unit :=
  if D_Legacy d then
    let? _ := check (negb (TrimSpace (D_APIToken d) =s "")) "legacy API token is required" in
    check (bool_decide (D_APITokenSecretRef d = None)) "legacy target cannot use a Secret reference"
  else
    let? _ := check (D_APIToken d =s "") "CRD target cannot contain an inline API token" in
    match D_APITokenSecretRef d with
    | Some r => check (negb ((SR_Name r =s "") || (SR_Key r =s ""))) "API token Secret name and key are required"
    | None => Err "API token Secret name and key are required"
    end.

(** The checks on a normalized definition, up to the defaulted modes. *)
Definition validate_identity (d : Definition_) : result string unit :=
  let? _ := check (negb (D_Name d =s "")) "name is required" in
  let? _ := validateURL (D_URL d) in
  let? _ := check (negb (D_Zone d =s "")) "zone is required" in
  let? _ := check (negb (TrimSpace (D_ControllerID d) =s "")) "controller ID is required" in
  let? _ := check (D_Legacy d || forallb (suffixContains (D_Zone d)) (D_DomainFilters d)) "domain filter is outside zone" in
  let? _ := validate_credentials d in
  let? _ := check (negb (negb (D_CAFile d =s "") && negb (bool_decide (D_CARef d = None)))) "CA file and CA reference are mutually exclusive" in
  let? _ := check (negb (D_InsecureSkipVerify d && (negb (D_CAFile d =s "") || negb (bool_decide (D_CARef d = None)))))
              "CA trust and insecure skip verification are mutually exclusive" in
  check (bool_decide (D_OwnershipMode d ∈ [OwnershipModeExclusive; OwnershipModeShared])) "unsupported ownership mode".

Definition validate_limits (d : Definition_) : result string unit :=
  let? _ := check (negb ((D_OwnershipMode d =s OwnershipModeShared) && negb (bool_decide (D_Namespaces d = []))
                         && negb (D_CleanupPolicy d =s CleanupPolicyKeep)))
              "namespace-restricted shared target requires cleanup policy keep" in
  let? _ := check ((0 <=? D_Interval d) && (0 <=? D_Debounce d) && (0 <=? D_Timeout d)) "reconcile durations cannot be negative" in
  let? _ := check ((0 <=? D_Retries d) && (D_Retries d <=? MaxRetries)) "retries must be between 0 and 10" in
  check ((0 <=? D_DefaultTTL d) && (D_DefaultTTL d <=? MaxDefaultTTL)) "default TTL must be between 0 and 604800".

(** The definition is normalized in place; what was changed before an error stays. *)
Definition validateDefinition (d : Definition_) : Definition_ * result string unit :=
  match check_all ValidateDomainFilter (D_DomainFilters d) with
  | Err e => (d, Err e)
  | Ok _ =>
      let d := normalize_definition d in
      match validate_identity d with
      | Err e => (d, Err e)
      | Ok _ =>
          let cleanup := if D_CleanupPolicy d =s "" then CleanupPolicyDelete else D_CleanupPolicy d in
          let d := set_modes cleanup (D_ApprovalMode d) d in
          if negb (bool_decide (cleanup ∈ [CleanupPolicyDelete; CleanupPolicyDeactivate; CleanupPolicyKeep]))
          then (d, Err "unsupported cleanup policy")
          else
            let approval := if D_ApprovalMode d =s "" then ApprovalModeDisabled else D_ApprovalMode d in
            let d := set_modes cleanup approval d in
            if negb (bool_decide (approval ∈ [ApprovalModeDisabled; ApprovalModeRequired]))
            then (d, Err "unsupported approval mode")
            else (d, validate_limits d)
      end
  end.

(** ** Validation of a set: every definition, then every pair *)

Fixpoint validate_each (seen : gset string) (definitions : list Definition_) : list Definition_ * result string unit :=
  match definitions with
  | [] => ([], Ok tt)
  | d :: rest =>
      match validateDefinition d with
      | (d, Err e) => (d :: rest, Err ("target: " +:+ e))
      | (d, Ok _) =>
          let key := D_Namespace d +:+ "/" +:+ D_Name d in
          if bool_decide (key ∈ seen) then (d :: rest, Err "duplicate target")
          else let '(rest, r) := validate_each ({[key]} ∪ seen) rest in (d :: rest, r)
      end
  end.

Fixpoint pairwise_compatible (definitions : list Definition_) : bool :=
  match definitions with
  | [] => true
  | d :: rest => forallb (fun e => negb (scopes_conflict d e)) rest && pairwise_compatible rest
  end.

(** The definitions as they are left in the slice, and the error. *)
Definition ValidateAll (definitions : list Definition_) : list Definition_ * result string unit :=
  match validate_each ∅ definitions with
  | (ds, Err e) => (ds, Err e)
  | (ds, Ok _) => (ds, check (pairwise_compatible ds) "write-enabled targets have overlapping domain scopes")
  end.

Definition BuildDefinitions (cfg : Settings) (targetMode : bool) (objects : list TargetObject) : result string (list Definition_) :=
  let validated (ds : list Definition_) := let '(ds, r) := ValidateAll ds in let? _ := r in Ok ds in
  if negb targetMode then
    let? _ := check (bool_decide (objects = [])) "CRD targets cannot be supplied while target mode is disabled" in
    validated [FromLegacy cfg]
  else
    let? _ := check (negb (hasDirectFortiGateConfiguration (Cfg_FortiGate cfg)))
                "direct FortiGate credentials and connection settings are mutually exclusive with CRD target mode" in
    validated (FromAPI <$> objects).

(** ** Isolation: the targets that can run *)

Inductive ExclusionError :=
| ErrDuplicateTarget (key : string) | ErrOverlapsActive (target active : string) | ErrOverlappingScopes (left right : string).
Inductive FailureCause := InvalidConfiguration (e : string) | Excluded (e : ExclusionError).

Definition FailureInvalid : string := "target-invalid".
Definition FailureConflict : string := "scope-conflict".

Record InvalidTarget := mkInvalidTarget {
  Inv_Namespace : string; Inv_Name : string; Inv_Generation : Z; Inv_Reason : string; Inv_Err : FailureCause }.
Definition invalid_of (d : Definition_) (reason : string) (cause : FailureCause) : InvalidTarget :=
  mkInvalidTarget (D_Namespace d) (D_Name d) (D_Generation d) reason cause.
Definition Inv_Key (i : InvalidTarget) : string :=
  if TrimSpace (Inv_Namespace i) =s "" then TrimSpace (Inv_Name i) else TrimSpace (Inv_Namespace i) +:+ "/" +:+ TrimSpace (Inv_Name i).

Record DefinitionSet := mkDefinitionSet { Valid : list Definition_; Invalid : gmap string InvalidTarget }.

(** The definitions that are valid on their own. *)
Definition candidates (definitions : list Definition_) : list Definition_ :=
  omap (fun d => match validateDefinition d with (d, Ok _) => Some d | _ => None end) definitions.

Definition invalid_step (m : gmap string InvalidTarget) (d : Definition_) : gmap string InvalidTarget :=
  match validateDefinition d with
  | (d, Err e) => let i := invalid_of d FailureInvalid (InvalidConfiguration e) in <[Inv_Key i := i]> m
  | (_, Ok _) => m
  end.
Definition invalid_alone (definitions : list Definition_) : gmap string InvalidTarget := foldl invalid_step ∅ definitions.

(** Two candidates with one key exclude each other. *)
Definition duplicate_step (st : list (option ExclusionError) * gmap string nat) (x : nat * Definition_)
    : list (option ExclusionError) * gmap string nat :=
  let '(excluded, seen) := st in
  let '(i, d) := x in
  match seen !! D_Key d with
  | Some first => let e := Some (ErrDuplicateTarget (D_Key d)) in (<[first := e]> (<[i := e]> excluded), seen)
  | None => (excluded, <[D_Key d := i]> seen)
  end.

Definition indexed {A} (l : list A) : list (nat * A) := imap (fun i x => (i, x)) l.

Definition duplicates (cs : list Definition_) : list (option ExclusionError) :=
  (foldl duplicate_step (replicate (length cs) None, ∅) (indexed cs)).1.

Definition sameActiveTarget (active : gmap string Definition_) (candidate : Definition_) : bool :=
  match active !! D_Key candidate with
  | Some incumbent => negb (D_UID candidate =s "") && (D_UID candidate =s D_UID incumbent) && (D_Generation candidate =? D_Generation incumbent)
  | None => false
  end.

Definition is_none {A} (o : option A) : bool := match o with None => true | Some _ => false end.

Definition incumbents (active : gmap string Definition_) (cs : list Definition_) (excluded : list (option ExclusionError)) : list bool :=
  zip_with (fun c e => is_none e && sameActiveTarget active c) cs excluded.

(** A newcomer that conflicts with an unchanged writer is excluded. *)
Definition exclude_newcomer (cs : list Definition_) (inc : list bool) (candidate : Definition_) (excluded : option ExclusionError)
    (incumbent : bool) : option ExclusionError :=
  match excluded with
  | Some e => Some e
  | None =>
      if incumbent then None
      else match filter (fun x => x.2 = true /\ scopes_conflict candidate x.1 = true) (zip cs inc) with
           | (other, _) :: _ => Some (ErrOverlapsActive (D_Name candidate) (D_Name other))
           | [] => None
           end
  end.

Definition exclude_newcomers (cs : list Definition_) (inc : list bool) (excluded : list (option ExclusionError))
    : list (option ExclusionError) :=
  zip_with (fun ce b => exclude_newcomer cs inc ce.1 ce.2 b) (zip cs excluded) inc.

(** The pairs [i < j], in the order of the two loops. *)
Definition index_pairs (n : nat) : list (nat * nat) := i ← seq 0 n; j ← seq (S i) (n - S i); [(i, j)].

Definition exclude_first (i : nat) (e : ExclusionError) (excluded : list (option ExclusionError)) : list (option ExclusionError) :=
  match excluded !! i with Some None => <[i := Some e]> excluded | _ => excluded end.

Definition overlap_step (cs : list Definition_) (eligible : list bool) (excluded : list (option ExclusionError)) (p : nat * nat)
    : list (option ExclusionError) :=
  let '(i, j) := p in
  match cs !! i, cs !! j with
  | Some ci, Some cj =>
      if default false (eligible !! i) && default false (eligible !! j) && scopes_conflict ci cj then
        exclude_first j (ErrOverlappingScopes (D_Name cj) (D_Name ci))
          (exclude_first i (ErrOverlappingScopes (D_Name ci) (D_Name cj)) excluded)
      else excluded
  | _, _ => excluded
  end.

(** The reason for which each candidate is excluded, if any. *)
Definition exclusions (active : gmap string Definition_) (cs : list Definition_) : list (option ExclusionError) :=
  let dup := duplicates cs in
  let excluded := exclude_newcomers cs (incumbents active cs dup) dup in
  foldl (overlap_step cs (is_none <$> excluded)) excluded (index_pairs (length cs)).

Definition sort_out (set : DefinitionSet) (x : Definition_ * option ExclusionError) : DefinitionSet :=
  match x with
  | (d, Some e) => let i := invalid_of d FailureConflict (Excluded e) in mkDefinitionSet (Valid set) (<[Inv_Key i := i]> (Invalid set))
  | (d, None) => mkDefinitionSet (Valid set ++ [d]) (Invalid set)
  end.

Definition IsolateDefinitionsWithActive (definitions : list Definition_) (active : gmap string Definition_) : DefinitionSet :=
  let cs := candidates definitions in
  foldl sort_out (mkDefinitionSet [] (invalid_alone definitions)) (zip cs (exclusions active cs)).

Definition BuildIsolatedDefinitionsWithActive (cfg : Settings) (objects : list TargetObject) (active : gmap string Definition_)
    : result string DefinitionSet :=
  let? _ := check (negb (hasDirectFortiGateConfiguration (Cfg_FortiGate cfg)))
              "direct FortiGate credentials and connection settings are mutually exclusive with CRD target mode" in
  Ok (IsolateDefinitionsWithActive (FromAPI <$> objects) active).

(** ** Routing *)

Definition containsNormalized (values : list string) (value : string) : bool :=
  existsb (fun c => ToLower (TrimSpace c) =s ToLower (TrimSpace value)) values.

Definition sourceSelected (configured : list string) (sourceKind : string) : bool :=
  let kind := ToLower (TrimSpace sourceKind) in
  existsb (fun s => let s := ToLower (TrimSpace s) in
     (s =s kind) || ((s =s "gateway") && ((kind =s "gateway") || (kind =s "httproute")))) configured.

Definition targetAcceptsEndpoint (d : Definition_) (endpoint : Endpoint) : bool :=
  if DNSName endpoint =s "" then false
  else if negb (existsb (fun suffix => suffixContains suffix (DNSName endpoint)) (domainScopes d)) then false
  else if negb (bool_decide (D_Namespaces d = [])) && negb (containsNormalized (D_Namespaces d) (Namespace (Source endpoint))) then false
  else if negb (bool_decide (D_Sources d = [])) && negb (sourceSelected (D_Sources d) (Kind (Source endpoint))) then false
  else true.

Record RoutingResult := mkRouting {
  TargetOrder : list string; ByTarget : gmap string (list Endpoint); Unrouted : list Endpoint }.

Inductive RoutingError := ErrInvalidTargets (e : string) | ErrAmbiguousRoute.

Fixpoint route_unambiguous (eligible : list Definition_) : bool :=
  match eligible with
  | [] => true
  | d :: rest => forallb (fun e => D_DryRun d || D_DryRun e || nonDestructiveOverlapAllowed d e) rest && route_unambiguous rest
  end.

Record RouteState := mkRouteState { by_target : gmap string (list Endpoint); unrouted : list Endpoint; route_seen : gset (string * string) }.

Definition route_one (endpoint : Endpoint) (st : RouteState) (d : Definition_) : RouteState :=
  let key := D_Key d in
  let routed := Normalize (set_Zone (D_Zone d) endpoint) in
  if bool_decide ((key, Key routed) ∈ route_seen st) then st
  else mkRouteState (<[key := default [] (by_target st !! key) ++ [routed]]> (by_target st)) (unrouted st)
         ({[(key, Key routed)]} ∪ route_seen st).

Fixpoint route_all (definitions : list Definition_) (endpoints : list Endpoint) (st : RouteState) : result RoutingError RouteState :=
  match endpoints with
  | [] => Ok st
  | e :: rest =>
      let e := Normalize e in
      match filter (fun d => targetAcceptsEndpoint d e = true) definitions with
      | [] => route_all definitions rest (mkRouteState (by_target st) (unrouted st ++ [e]) (route_seen st))
      | eligible =>
          if route_unambiguous eligible then route_all definitions rest (foldl (route_one e) st eligible)
          else Err ErrAmbiguousRoute
      end
  end.

Definition RouteEndpoints (definitions : list Definition_) (endpoints : list Endpoint) : result RoutingError RoutingResult :=
  match ValidateAll definitions with
  | (_, Err e) => Err (ErrInvalidTargets e)
  | (ds, Ok _) =>
      let? st := route_all (sort_by_key D_Key ds) endpoints (mkRouteState ∅ [] ∅) in
      Ok (mkRouting (sort_strings ((map_to_list (by_target st)).*1)) (sort_by_key Key <$> by_target st)
            (sort_by_key Key (unrouted st)))
  end.
End validation.
