(* ===== verification/TargetsLaws.v ===== *)
(** * Properties of targets and routing *)
From Stdlib Require Import String Ascii ZArith Lia List.
From S2P Require Import Prelude GoStrings NetIP GoEncoding Endpoint Queue Client Claims Settings Targets.
Open Scope string_scope.
Open Scope list_scope.
Open Scope Z_scope.
Open Scope go_scope.

(** ** Domain suffixes *)

Lemma app_suffix a1 : forall s1 a2 s2, a1 +:+ s1 = a2 +:+ s2 -> (String.length s1 <= String.length s2)%nat -> exists c, s2 = c +:+ s1.
Proof.
  induction a1 as [|x a1 IH]; intros s1 a2 s2 E Hlen; simpl in E.
  - destruct a2 as [|y a2]; simpl in E; [exists ""; by subst|]. subst s1. simpl in Hlen. rewrite length_app_s in Hlen. lia.
  - destruct a2 as [|y a2]; simpl in E; [exists (String x a1); by subst|]. injection E as -> E. by eapply IH.
Qed.

Lemma suffixContains_spec parent child : suffixContains parent child = true <->
  NormalizeDNSName parent = NormalizeDNSName child \/ exists a, NormalizeDNSName child = a +:+ ("." +:+ NormalizeDNSName parent).
Proof. unfold suffixContains. cbv zeta. by rewrite orb_true_iff, eqb_eq_iff, HasSuffix_spec. Qed.

(** A shorter suffix of a name is one of a longer suffix. *)
Lemma longer_suffix p q a b : a +:+ ("." +:+ p) = b +:+ ("." +:+ q) -> (String.length p < String.length q)%nat ->
  exists c, q = c +:+ ("." +:+ p).
Proof.
  intros E Hlen. apply (app_suffix a ("." +:+ p) (b +:+ ".") q).
  - rewrite E. change ("." +:+ q) with ("." +:+ q). by rewrite app_assoc_s.
  - simpl. lia.
Qed.

(** Two suffixes of one name contain each other. *)
Lemma suffixes_comparable p q n : suffixContains p n = true -> suffixContains q n = true ->
  suffixContains p q || suffixContains q p = true.
Proof.
  rewrite orb_true_iff, !suffixContains_spec. intros [Hp|[a Hp]] [Hq|[b Hq]].
  - left. left. congruence.
  - right. right. exists b. congruence.
  - left. right. exists a. congruence.
  - rewrite Hp in Hq.
    destruct (Nat.lt_trichotomy (String.length (NormalizeDNSName p)) (String.length (NormalizeDNSName q))) as [H|[H|H]].
    + left. right. by eapply longer_suffix.
    + left. left. destruct (app_suffix (a +:+ ".") (NormalizeDNSName p) (b +:+ ".") (NormalizeDNSName q)) as [c Hc]; [|lia|].
      * by rewrite <- !app_assoc_s.
      * rewrite Hc in H. rewrite length_app_s in H. destruct c; [done|simpl in H; lia].
    + right. right. by eapply longer_suffix.
Qed.

(** ** Conflicts between writers *)

Lemma writeScopesOverlap_sym a b : writeScopesOverlap a b = writeScopesOverlap b a.
Proof.
  unfold writeScopesOverlap. rewrite orb_comm. destruct (_ || _); [done|]. apply Bool.eq_iff_eq_true.
  rewrite !existsb_exists. split; intros (x & Hx & H); apply existsb_exists in H as (y & Hy & H); exists y; (split; [done|]);
    apply existsb_exists; exists x; (split; [done|]); by rewrite orb_comm.
Qed.

Lemma nonDestructiveOverlapAllowed_sym a b : nonDestructiveOverlapAllowed a b = nonDestructiveOverlapAllowed b a.
Proof. unfold nonDestructiveOverlapAllowed. destruct (_ =s _), (_ =s _), (D_AllowNonDestructiveOverlap a), (D_AllowNonDestructiveOverlap b); done. Qed.

Lemma scopes_conflict_sym a b : scopes_conflict a b = scopes_conflict b a.
Proof. unfold scopes_conflict. by rewrite writeScopesOverlap_sym, nonDestructiveOverlapAllowed_sym. Qed.

Definition compatible (a b : Definition_) : Prop := scopes_conflict a b = false.

#[export] Instance compatible_sym : Symmetric compatible.
Proof. intros a b. unfold compatible. by rewrite scopes_conflict_sym. Qed.

(** A name two writers both accept makes their scopes overlap. *)
Lemma accepted_by_both a b e : targetAcceptsEndpoint a e = true -> targetAcceptsEndpoint b e = true ->
  compatible a b -> D_DryRun a || D_DryRun b || nonDestructiveOverlapAllowed a b = true.
Proof.
  assert (Hacc : forall d, targetAcceptsEndpoint d e = true -> exists s, s ∈ domainScopes d /\ suffixContains s (DNSName e) = true).
  { intros d. unfold targetAcceptsEndpoint. destruct (_ =s _); [done|]. destruct (existsb _ _) eqn:E; [|done]. intros _.
    apply existsb_exists in E as (s & Hs & E). exists s. split; [by apply list_elem_of_In|done]. }
  intros (x & Hx & Ex)%Hacc (y & Hy & Ey)%Hacc. unfold compatible, scopes_conflict, writeScopesOverlap.
  destruct (D_DryRun a || D_DryRun b); [done|]. cbn [orb].
  assert (Eo : existsb (fun l => existsb (fun r => suffixContains l r || suffixContains r l) (domainScopes b)) (domainScopes a) = true).
  { apply existsb_exists. exists x. split; [by apply list_elem_of_In|]. apply existsb_exists. exists y.
    split; [by apply list_elem_of_In|]. by apply (suffixes_comparable x y (DNSName e)). }
  rewrite Eo. by destruct (nonDestructiveOverlapAllowed a b).
Qed.

(** ** Pairs of a list *)

Section pairs.
Context {A : Type} (R : A -> A -> Prop) `{!Symmetric R}.

Lemma ForallOrdPairs_perm l1 l2 : l1 ≡ₚ l2 -> ForallOrdPairs R l1 -> ForallOrdPairs R l2.
Proof.
  induction 1 as [|x l1 l2 Hp IH|x y l|l1 l2 l3 _ IH1 _ IH2]; intros H; [done| | |auto].
  - inversion H; subst. constructor; [|auto]. by rewrite <- Hp.
  - inversion H as [|? ? H1 H2]; subst. inversion H2 as [|? ? H3 H4]; subst. inversion H1; subst.
    repeat constructor; [by symmetry|done|done|done].
Qed.

Lemma ForallOrdPairs_filter (P : A -> Prop) `{!forall x, Decision (P x)} l : ForallOrdPairs R l -> ForallOrdPairs R (filter P l).
Proof.
  induction 1 as [|x l Hx Hl IH]; [constructor|]. rewrite filter_cons. case_decide; [|done]. constructor; [|done].
  rewrite List.Forall_forall in *. intros y Hy. apply Hx. apply list_elem_of_In in Hy. apply list_elem_of_filter in Hy as [_ Hy].
  by apply list_elem_of_In.
Qed.

Lemma ForallOrdPairs_lookup_2 l : (forall i j x y, (i < j)%nat -> l !! i = Some x -> l !! j = Some y -> R x y) -> ForallOrdPairs R l.
Proof.
  induction l as [|x l IH]; intros H; constructor.
  - apply Forall_lookup. intros j y Hy. apply (H O (S j)); [lia|done|done].
  - apply IH. intros i j a b Hij Ha Hb. apply (H (S i) (S j)); [lia|done|done].
Qed.

(** Pairs that both satisfy [P] are related in the filtered list. *)
Lemma ForallOrdPairs_filter_strong (P : A -> Prop) `{!forall x, Decision (P x)} l :
  (forall i j x y, (i < j)%nat -> l !! i = Some x -> l !! j = Some y -> P x -> P y -> R x y) -> ForallOrdPairs R (filter P l).
Proof.
  induction l as [|x l IH]; intros Hp; [constructor|]. rewrite filter_cons.
  assert (Hl : ForallOrdPairs R (filter P l)) by (apply IH; intros i j a b Hij; apply (Hp (S i) (S j)); lia).
  case_decide as Hx; [|done]. constructor; [|done]. apply List.Forall_forall. intros y Hy%list_elem_of_In.
  apply list_elem_of_filter in Hy as [Hy Hin]. apply list_elem_of_lookup in Hin as [j Hj]. apply (Hp O (S j)); [lia|done..].
Qed.
End pairs.

Lemma ForallOrdPairs_fmap {A B} (f : A -> B) (R : B -> B -> Prop) l : ForallOrdPairs (fun x y => R (f x) (f y)) l -> ForallOrdPairs R (f <$> l).
Proof.
  induction 1 as [|x l Hx Hl IH]; cbn; constructor; [|done]. apply List.Forall_forall. intros y Hy%list_elem_of_In.
  apply list_elem_of_fmap in Hy as (z & -> & Hz). rewrite List.Forall_forall in Hx. by apply Hx, list_elem_of_In.
Qed.

(** ** Routing *)

Section routing.
Context `{KeyValidation} `{Platform}.

Lemma pairwise_compatible_spec ds : pairwise_compatible ds = true <-> ForallOrdPairs compatible ds.
Proof.
  induction ds as [|d ds IH]; cbn [pairwise_compatible]; [split; [constructor|done]|].
  rewrite andb_true_iff, IH, forallb_forall. split.
  - intros [Hd Hds]. constructor; [|done]. apply List.Forall_forall. intros e He. specialize (Hd e He). by apply negb_true_iff in Hd.
  - intros H2. inversion H2 as [|? ? Hd Hds]; subst. split; [|done]. intros e He. apply negb_true_iff.
    rewrite List.Forall_forall in Hd. by apply Hd.
Qed.

Lemma ValidateAll_ok ds ds' : ValidateAll ds = (ds', Ok tt) -> ForallOrdPairs compatible ds'.
Proof.
  unfold ValidateAll. destruct (validate_each ∅ ds) as [x [[]|e]]; [|done]. unfold check.
  destruct (pairwise_compatible x) eqn:E; [|done]. intros [= <-]. by apply pairwise_compatible_spec.
Qed.

Lemma eligible_unambiguous eligible e : ForallOrdPairs compatible eligible ->
  Forall (fun d => targetAcceptsEndpoint d e = true) eligible -> route_unambiguous eligible = true.
Proof.
  induction 1 as [|d ds Hd Hds IH]; intros Hall; [done|]. inversion Hall as [|? ? Hx Hr]; subst. cbn [route_unambiguous].
  rewrite IH, andb_true_r by done. apply forallb_forall. intros x Hin. rewrite List.Forall_forall in Hd, Hr.
  apply (accepted_by_both d x e); auto.
Qed.

Lemma route_all_total ds es : ForallOrdPairs compatible ds -> forall st, exists st', route_all ds es st = Ok st'.
Proof.
  intros Hds. induction es as [|e es IH]; intros st; cbn [route_all]; [eauto|].
  assert (Hu : route_unambiguous (filter (fun d => targetAcceptsEndpoint d (Normalize e) = true) ds) = true).
  { apply (eligible_unambiguous _ (Normalize e)); [by apply ForallOrdPairs_filter|].
    apply Forall_forall. intros d Hd. by apply list_elem_of_filter in Hd as [? _]. }
  destruct (filter _ ds) as [|d l]; [apply IH|]. rewrite Hu. apply IH.
Qed.

(** Routing is never ambiguous: for a set of targets that passes validation
    every endpoint can be routed; the error for an ambiguous write route is
    unreachable, because two writing targets that accept one name overlap. *)
Theorem routing_total ds es :
  (exists r, RouteEndpoints ds es = Ok r) \/ exists e ds', ValidateAll ds = (ds', Err e) /\ RouteEndpoints ds es = Err (ErrInvalidTargets e).
Proof.
  unfold RouteEndpoints. destruct (ValidateAll ds) as [ds' [[]|e]] eqn:E; [left|right; eauto].
  destruct (route_all_total (sort_by_key D_Key ds') es) with (st := mkRouteState ∅ [] ∅) as [st ->]; [|eauto].
  eapply ForallOrdPairs_perm; [apply compatible_sym| |by eapply ValidateAll_ok]. by rewrite sort_by_key_perm.
Qed.

(** The record an endpoint becomes in a target's zone. *)
Definition routed (d : Definition_) (e : Endpoint) : Endpoint := Normalize (set_Zone (D_Zone d) (Normalize e)).

Section state.
Context (ds : list Definition_) (es : list Endpoint).

Record route_inv (st : RouteState) : Prop := {
  ri_sound k l x : by_target st !! k = Some l -> x ∈ l ->
    exists d e, d ∈ ds /\ e ∈ es /\ D_Key d = k /\ targetAcceptsEndpoint d (Normalize e) = true /\ x = routed d e;
  ri_seen k y : (k, y) ∈ route_seen st <-> exists l x, by_target st !! k = Some l /\ x ∈ l /\ Key x = y;
  ri_nodup k l : by_target st !! k = Some l -> NoDup (Key <$> l)
}.

Lemma route_one_inv st d e : route_inv st -> d ∈ ds -> e ∈ es -> targetAcceptsEndpoint d (Normalize e) = true ->
  route_inv (route_one (Normalize e) st d) /\ route_seen (route_one (Normalize e) st d) = {[(D_Key d, Key (routed d e))]} ∪ route_seen st /\
  unrouted (route_one (Normalize e) st d) = unrouted st.
Proof.
  intros [Hs Hk Hn] Hd He Ha. unfold route_one. cbv zeta. change (Normalize (set_Zone (D_Zone d) (Normalize e))) with (routed d e).
  case_bool_decide as Hin; [split; [done|]; split; [set_solver|done]|]. cbn [route_seen unrouted]. split; [|done].
  set (old := default [] (by_target st !! D_Key d)).
  assert (Hold : forall x, x ∈ old -> exists l, by_target st !! D_Key d = Some l /\ x ∈ l).
  { intros x. unfold old. destruct (by_target st !! D_Key d) as [l|]; cbn; [eauto|by intros ?%not_elem_of_nil]. }
  assert (Hold' : forall l, by_target st !! D_Key d = Some l -> old = l) by (intros l Hl; unfold old; by rewrite Hl).
  split; cbn [by_target route_seen].
  - intros k l x. destruct (decide (k = D_Key d)) as [->|Hne].
    + rewrite lookup_insert_eq. intros [= <-]. rewrite elem_of_app, list_elem_of_singleton. intros [Hx| ->]; [|by exists d, e].
      apply Hold in Hx as (l & Hl & Hx). by eapply Hs.
    + rewrite lookup_insert_ne by done. apply Hs.
  - intros k y. rewrite elem_of_union, elem_of_singleton, Hk. split.
    + intros [[= -> ->]|(l & x & Hl & Hx & <-)].
      * exists (old ++ [routed d e]), (routed d e). rewrite lookup_insert_eq, elem_of_app, list_elem_of_singleton. auto.
      * destruct (decide (k = D_Key d)) as [->|Hne].
        { exists (old ++ [routed d e]), x. rewrite lookup_insert_eq, elem_of_app, (Hold' _ Hl). auto. }
        exists l, x. by rewrite lookup_insert_ne.
    + intros (l & x & Hl & Hx & <-). destruct (decide (k = D_Key d)) as [->|Hne].
      * rewrite lookup_insert_eq in Hl. injection Hl as <-. apply elem_of_app in Hx as [Hx|Hx%list_elem_of_singleton]; [|left; by subst].
        right. apply Hold in Hx as (l & Hl & Hx). eauto.
      * rewrite lookup_insert_ne in Hl by done. right. eauto.
  - intros k l. destruct (decide (k = D_Key d)) as [->|Hne]; [|rewrite lookup_insert_ne by done; apply Hn].
    rewrite lookup_insert_eq. intros [= <-]. rewrite fmap_app. apply NoDup_app. split; [|split; [|by repeat constructor; intros ?%not_elem_of_nil]].
    + unfold old. destruct (by_target st !! D_Key d) as [l|] eqn:E; cbn; [by eapply Hn|constructor].
    + intros y Hy%list_elem_of_fmap Hz%list_elem_of_singleton. destruct Hy as (x & -> & Hx). apply Hin, Hk.
      apply Hold in Hx as (l & Hl & Hx). exists l, x. split; [done|]. split; [done|exact Hz].
Qed.

Lemma route_fold_inv e eligible : e ∈ es -> (forall d, d ∈ eligible -> d ∈ ds /\ targetAcceptsEndpoint d (Normalize e) = true) ->
  forall st, route_inv st ->
    let st' := foldl (route_one (Normalize e)) st eligible in
    route_inv st' /\ route_seen st ⊆ route_seen st' /\ (forall d, d ∈ eligible -> (D_Key d, Key (routed d e)) ∈ route_seen st') /\
    unrouted st' = unrouted st.
Proof.
  intros He. induction eligible as [|d l IH]; intros Hel st Hst; cbn [foldl].
  { split; [done|]. split; [done|]. split; [by intros ? ?%not_elem_of_nil|done]. }
  destruct (Hel d) as [Hd Ha]; [by left|]. destruct (route_one_inv st d e Hst Hd He Ha) as (H1 & H2 & H3).
  destruct (IH) with (st := route_one (Normalize e) st d) as (I1 & I2 & I3 & I4); [intros x Hx; apply Hel; by right|done|].
  split; [exact I1|]. split; [set_solver|]. split; [|congruence].
  intros x [->|Hx]%elem_of_cons; [|by apply I3]. apply I2. rewrite H2. set_solver.
Qed.

(** Whether some target accepts an endpoint. *)
Definition accepted (e : Endpoint) : Prop := exists d, d ∈ ds /\ targetAcceptsEndpoint d (Normalize e) = true.

Lemma route_all_inv l : forall st st', (forall e, e ∈ l -> e ∈ es) -> route_inv st -> route_all ds l st = Ok st' ->
  route_inv st' /\ route_seen st ⊆ route_seen st' /\
  (forall d e, d ∈ ds -> e ∈ l -> targetAcceptsEndpoint d (Normalize e) = true -> (D_Key d, Key (routed d e)) ∈ route_seen st') /\
  (forall x, x ∈ unrouted st' <-> x ∈ unrouted st \/ exists e, e ∈ l /\ x = Normalize e /\ ~ accepted e).
Proof.
  induction l as [|e l IH]; intros st st' Hl Hst; cbn [route_all].
  { intros [= <-]. split; [done|]. split; [done|]. split; [by intros ? ? _ ?%not_elem_of_nil|]. intros x. split; [auto|].
    intros [?|(e & He%not_elem_of_nil & _)]; done. }
  pose proof (fun d => list_elem_of_filter (fun d => targetAcceptsEndpoint d (Normalize e) = true) ds d) as Hf.
  destruct (filter (fun d => targetAcceptsEndpoint d (Normalize e) = true) ds) as [|d0 eligible].
  - assert (Hno : ~ accepted e). { intros (d & Hd & Ha). by eapply not_elem_of_nil, Hf. }
    intros E. apply IH in E as (I1 & I2 & I3 & I4); [|intros x Hx; apply Hl; by right|destruct Hst as [A1 A2 A3]; split; [exact A1|exact A2|exact A3]].
    split; [exact I1|]. split; [exact I2|]. split.
    + intros d x Hd [->|Hx]%elem_of_cons Ha; [|by apply I3]. exfalso. apply Hno. by exists d.
    + intros x. rewrite I4. cbn [unrouted]. rewrite elem_of_app, list_elem_of_singleton. setoid_rewrite elem_of_cons. naive_solver.
  - destruct (route_unambiguous _); [|done]. intros E.
    assert (Hel : forall d, d ∈ d0 :: eligible -> d ∈ ds /\ targetAcceptsEndpoint d (Normalize e) = true) by (intros d Hd; apply Hf in Hd as [? ?]; done).
    destruct (route_fold_inv e (d0 :: eligible)) with (st := st) as (F1 & F2 & F3 & F4); [apply Hl; by left|done|done|].
    apply IH in E as (I1 & I2 & I3 & I4); [|intros x Hx; apply Hl; by right|exact F1].
    split; [exact I1|]. split; [set_solver|]. split.
    + intros d x Hd [->|Hx]%elem_of_cons Ha; [|by apply I3]. apply I2, F3, Hf. done.
    + intros x. rewrite I4, F4. setoid_rewrite elem_of_cons.
      assert (Hacc : accepted e) by (exists d0; apply and_comm, Hf; by left). naive_solver.
Qed.
End state.

(** Routing is sound and complete: each record routed to a target is an
    endpoint the target accepts, moved into the target's zone, at most once per
    record key; every endpoint reaches every target that accepts it; and the
    unrouted endpoints are exactly those no target accepts. *)
Theorem routing_exact ds es ds' r : ValidateAll ds = (ds', Ok tt) -> RouteEndpoints ds es = Ok r ->
  (forall k l, ByTarget r !! k = Some l -> NoDup (Key <$> l) /\
     forall x, x ∈ l -> exists d e, d ∈ ds' /\ e ∈ es /\ D_Key d = k /\ targetAcceptsEndpoint d (Normalize e) = true /\ x = routed d e) /\
  (forall d e, d ∈ ds' -> e ∈ es -> targetAcceptsEndpoint d (Normalize e) = true ->
     exists l x, ByTarget r !! D_Key d = Some l /\ x ∈ l /\ Key x = Key (routed d e)) /\
  (forall x, x ∈ Unrouted r <-> exists e, e ∈ es /\ x = Normalize e /\ ~ accepted ds' e).
Proof.
  intros Hv. unfold RouteEndpoints. rewrite Hv. destruct (route_all _ _ _) as [st|e] eqn:E; [|done]. cbn [rbind]. intros [= <-].
  assert (Hperm : forall d, d ∈ sort_by_key D_Key ds' <-> d ∈ ds') by (intros d; by rewrite sort_by_key_perm).
  destruct (route_all_inv (sort_by_key D_Key ds') es es (mkRouteState ∅ [] ∅) st) as ([Hs Hk Hn] & _ & Hc & Hu); [done| |done|].
  { split; cbn; [by intros k l x Hl|intros k y; split; [set_solver|by intros (l & x & Hl & _)]|by intros k l Hl]. }
  cbn [ByTarget Unrouted unrouted] in *. split; [|split].
  - intros k l. rewrite lookup_fmap. destruct (by_target st !! k) as [l0|] eqn:El; [|done]. cbn. intros [= <-]. split.
    + rewrite sort_by_key_perm. by eapply Hn.
    + intros x. rewrite sort_by_key_perm. intros Hx. destruct (Hs _ _ _ El Hx) as (d & e & Hd & H2). exists d, e.
      split; [by apply Hperm|done].
  - intros d e Hd He Ha. apply Hperm in Hd. specialize (Hc d e Hd He Ha). apply Hk in Hc as (l & x & Hl & Hx & Hkey).
    exists (sort_by_key Key l), x. rewrite lookup_fmap, Hl. split; [done|]. by rewrite sort_by_key_perm.
  - intros x. rewrite sort_by_key_perm, Hu. unfold accepted. setoid_rewrite Hperm. set_solver.
Qed.
End routing.

(** ** Isolation *)

(** Whether the candidate at an index is excluded. *)
Definition excluded_at (ex : list (option ExclusionError)) (i : nat) : Prop := exists e, ex !! i = Some (Some e).

Lemma excluded_insert ex i j e : (j < length ex)%nat -> excluded_at (<[j := Some e]> ex) i <-> i = j \/ excluded_at ex i.
Proof.
  intros Hj. unfold excluded_at. destruct (decide (i = j)) as [->|Hne].
  - rewrite list_lookup_insert_eq by done. split; [auto|]. intros _. eauto.
  - rewrite list_lookup_insert_ne by done. naive_solver.
Qed.

Section duplicates.
Context (cs : list Definition_).

Definition same_key (i j : nat) : Prop := exists d e, cs !! i = Some d /\ cs !! j = Some e /\ D_Key d = D_Key e.

Record dup_inv (n : nat) (st : list (option ExclusionError) * gmap string nat) : Prop := {
  di_length : length st.1 = length cs;
  di_seen k f : st.2 !! k = Some f -> (f < n)%nat /\ exists d, cs !! f = Some d /\ D_Key d = k;
  di_first i d : (i < n)%nat -> cs !! i = Some d ->
    exists f, st.2 !! D_Key d = Some f /\ (f = i \/ (excluded_at st.1 i /\ excluded_at st.1 f));
  di_shared i : excluded_at st.1 i -> exists j, i <> j /\ same_key i j
}.

Lemma dup_step_inv n st d : dup_inv n st -> cs !! n = Some d -> dup_inv (S n) (duplicate_step st (n, d)).
Proof.
  destruct st as [ex seen]. intros [Hl Hs Hf Hsh] Hd. pose proof (lookup_lt_Some _ _ _ Hd) as Hn. cbn [fst snd] in *.
  unfold duplicate_step. destruct (seen !! D_Key d) as [f|] eqn:Ef.
  - destruct (Hs _ _ Ef) as (Hfn & d' & Hd' & Hk). set (er := ErrDuplicateTarget (D_Key d)).
    assert (Hex : forall i, excluded_at (<[f := Some er]> (<[n := Some er]> ex)) i <-> i = f \/ i = n \/ excluded_at ex i).
    { intros i. rewrite excluded_insert by (rewrite length_insert; lia). by rewrite excluded_insert by lia. }
    split; cbn [fst snd].
    + by rewrite !length_insert.
    + intros k g Hg. destruct (Hs _ _ Hg) as [? ?]. split; [lia|done].
    + intros i x Hi Hx. destruct (decide (i = n)) as [->|Hne].
      * assert (x = d) as -> by congruence. exists f. split; [done|]. right. rewrite !Hex. auto.
      * destruct (Hf i x) as (g & Hg & Hc); [lia|done|]. exists g. split; [done|]. rewrite !Hex. naive_solver.
    + intros i. rewrite Hex. intros [->|[->|Hi]]; [| |by apply Hsh].
      * exists n. split; [lia|]. by exists d', d.
      * exists f. split; [lia|]. by exists d, d'.
  - split; cbn [fst snd]; [done| | |done].
    + intros k g. destruct (decide (k = D_Key d)) as [->|Hne].
      * rewrite lookup_insert_eq. intros [= <-]. split; [lia|eauto].
      * rewrite lookup_insert_ne by done. intros Hg. destruct (Hs _ _ Hg) as [? ?]. split; [lia|done].
    + intros i x Hi Hx. destruct (decide (i = n)) as [->|Hne].
      * assert (x = d) as -> by congruence. exists n. rewrite lookup_insert_eq. auto.
      * destruct (Hf i x) as (g & Hg & Hc); [lia|done|]. exists g. rewrite lookup_insert_ne; [done|]. congruence.
Qed.

Lemma dup_fold_inv l : forall n st, dup_inv n st -> (forall i x, l !! i = Some x -> cs !! (n + i)%nat = Some x) ->
  dup_inv (n + length l) (foldl duplicate_step st (imap (fun i x => ((n + i)%nat, x)) l)).
Proof.
  induction l as [|d l IH]; intros n st Hst Hl; cbn [imap foldl length]; [by rewrite Nat.add_0_r|].
  replace (n + S (length l))%nat with (S n + length l)%nat by lia. rewrite Nat.add_0_r.
  rewrite (imap_ext _ (fun i x => ((S n + i)%nat, x))) by (intros i x _; unfold compose; by replace (n + S i)%nat with (S n + i)%nat by lia).
  apply IH.
  - apply dup_step_inv; [done|]. specialize (Hl O d eq_refl). by rewrite Nat.add_0_r in Hl.
  - intros i x Hx. specialize (Hl (S i) x Hx). by replace (S n + i)%nat with (n + S i)%nat by lia.
Qed.

Lemma duplicates_inv : exists seen, dup_inv (length cs) (duplicates cs, seen).
Proof.
  pose proof (dup_fold_inv cs 0 (replicate (length cs) None, ∅)) as H. destruct H as [H1 H2 H3 H4].
  - split; cbn [fst snd]; [by rewrite length_replicate|done|lia|]. intros i [e He]. apply lookup_replicate in He as [He _]. done.
  - done.
  - unfold duplicates, indexed in *. destruct (foldl _ _ _) as [ex seen] eqn:E. exists seen. by split.
Qed.

Lemma duplicates_length : length (duplicates cs) = length cs.
Proof. by destruct duplicates_inv as [seen [H _ _ _]]. Qed.

Lemma duplicates_excluded i j : i <> j -> same_key i j -> excluded_at (duplicates cs) i.
Proof.
  intros Hij (d & e & Hi & Hj & Hk). destruct duplicates_inv as [seen [_ _ Hf _]]. cbn [fst snd] in Hf.
  destruct (Hf i d) as (f & Hf1 & Hc1); [by eapply lookup_lt_Some|done|].
  destruct (Hf j e) as (g & Hg1 & Hc2); [by eapply lookup_lt_Some|done|]. rewrite Hk in Hf1. assert (f = g) as -> by congruence.
  destruct Hc1 as [->|[? _]]; [|done]. destruct Hc2 as [->|[_ ?]]; done.
Qed.

Lemma duplicates_shared i : excluded_at (duplicates cs) i -> exists j, i <> j /\ same_key i j.
Proof. destruct duplicates_inv as [seen [_ _ _ H]]. apply H. Qed.
End duplicates.

Section exclusion.
Context (active : gmap string Definition_) (cs : list Definition_).

Abbreviation dup := (duplicates cs).
Abbreviation inc := (incumbents active cs dup).
Abbreviation early := (exclude_newcomers cs inc dup).

Lemma inc_length : length inc = length cs.
Proof. unfold incumbents. rewrite length_zip_with, duplicates_length. lia. Qed.

Lemma early_length : length early = length cs.
Proof. unfold exclude_newcomers. rewrite length_zip_with, length_zip_with, inc_length. rewrite duplicates_length. lia. Qed.

Lemma inc_lookup i c o : cs !! i = Some c -> dup !! i = Some o -> inc !! i = Some (is_none o && sameActiveTarget active c).
Proof. intros Hc Ho. unfold incumbents. by rewrite lookup_zip_with, Hc, Ho. Qed.

Lemma early_lookup i c o b : cs !! i = Some c -> dup !! i = Some o -> inc !! i = Some b ->
  early !! i = Some (exclude_newcomer cs inc c o b).
Proof. intros Hc Ho Hb. unfold exclude_newcomers. by rewrite lookup_zip_with, lookup_zip_with, Hc, Ho, Hb. Qed.

(** Being excluded early: a shared key, or an incumbent in the way of a newcomer. *)
Lemma early_kept i c : cs !! i = Some c -> early !! i = Some None -> dup !! i = Some None.
Proof.
  intros Hc He. destruct (dup !! i) as [o|] eqn:Eo.
  2:{ apply lookup_ge_None in Eo.  rewrite duplicates_length in Eo. apply lookup_lt_Some in Hc. lia. }
  rewrite (early_lookup i c o _ Hc Eo (inc_lookup i c o Hc Eo)) in He. by destruct o.
Qed.

Lemma early_incumbent i c : cs !! i = Some c -> dup !! i = Some None -> sameActiveTarget active c = true -> early !! i = Some None.
Proof.
  intros Hc Ho Ha. rewrite (early_lookup i c None true Hc Ho); [done|]. rewrite (inc_lookup i c None Hc Ho), Ha. done.
Qed.

(** ** The pairwise pass *)

Abbreviation eligible := (is_none <$> early).

Definition clash (i j : nat) : Prop := exists ci cj, cs !! i = Some ci /\ cs !! j = Some cj /\ scopes_conflict ci cj = true /\
  early !! i = Some None /\ early !! j = Some None.

Lemma eligible_lookup i : default false (eligible !! i) = true <-> early !! i = Some None.
Proof.
  rewrite list_lookup_fmap. destruct (early !! i) as [[e|]|]; cbn; split; congruence.
Qed.

Lemma exclude_first_spec i e ex : length ex = length cs -> (i < length cs)%nat ->
  length (exclude_first i e ex) = length cs /\ forall k, excluded_at (exclude_first i e ex) k <-> k = i \/ excluded_at ex k.
Proof.
  intros Hl Hi. unfold exclude_first. destruct (ex !! i) as [[e'|]|] eqn:E.
  - split; [done|]. intros k. split; [auto|]. intros [->|?]; [by exists e'|done].
  - split; [by rewrite length_insert|]. intros k. apply excluded_insert. lia.
  - apply lookup_ge_None in E. lia.
Qed.

Lemma overlap_step_spec ex i j : length ex = length cs ->
  length (overlap_step cs eligible ex (i, j)) = length cs /\
  forall k, excluded_at (overlap_step cs eligible ex (i, j)) k <-> excluded_at ex k \/ (clash i j /\ (k = i \/ k = j)).
Proof.
  intros Hl. unfold overlap_step.
  assert (Hno : ~ clash i j -> length ex = length cs /\ forall k, excluded_at ex k <-> excluded_at ex k \/ (clash i j /\ (k = i \/ k = j))).
  { intros Hc. split; [done|]. tauto. }
  destruct (cs !! i) as [ci|] eqn:Ei; [|apply Hno; intros (? & ? & ? & _); congruence].
  destruct (cs !! j) as [cj|] eqn:Ej; [|apply Hno; intros (? & ? & _ & ? & _); congruence].
  destruct (_ && _) eqn:E.
  - apply andb_true_iff in E as [E Hc]. apply andb_true_iff in E as [E1 E2]. apply eligible_lookup in E1, E2.
    assert (Hcl : clash i j) by (exists ci, cj; auto).
    destruct (exclude_first_spec i (ErrOverlappingScopes (D_Name ci) (D_Name cj)) ex Hl) as [H1 H2]; [by eapply lookup_lt_Some|].
    destruct (exclude_first_spec j (ErrOverlappingScopes (D_Name cj) (D_Name ci)) _ H1) as [H3 H4]; [by eapply lookup_lt_Some|].
    split; [done|]. intros k. rewrite H4, H2. tauto.
  - apply Hno. intros (x & y & Hx & Hy & Hc & H1 & H2). simplify_eq. apply eligible_lookup in H1, H2. by rewrite H1, H2, Hc in E.
Qed.

Lemma overlap_fold_spec ps : forall ex, length ex = length cs ->
  length (foldl (overlap_step cs eligible) ex ps) = length cs /\
  forall k, excluded_at (foldl (overlap_step cs eligible) ex ps) k <->
    excluded_at ex k \/ exists i j, (i, j) ∈ ps /\ clash i j /\ (k = i \/ k = j).
Proof.
  induction ps as [|[i j] ps IH]; intros ex Hl; cbn [foldl].
  { split; [done|]. intros k. split; [auto|]. intros [?|(i & j & Hij%not_elem_of_nil & _)]; done. }
  destruct (overlap_step_spec ex i j Hl) as [H1 H2]. destruct (IH _ H1) as [H3 H4]. split; [done|].
  intros k. rewrite H4, H2. setoid_rewrite elem_of_cons. naive_solver.
Qed.

Lemma index_pairs_spec n i j : (i, j) ∈ index_pairs n <-> (i < j < n)%nat.
Proof.
  unfold index_pairs. rewrite list_elem_of_bind. split.
  - intros (a & Hj & Ha). apply list_elem_of_bind in Hj as (b & Hb & Hb'). apply list_elem_of_singleton in Hb. injection Hb as -> ->.
    apply elem_of_seq in Ha, Hb'. lia.
  - intros Hij. exists i. split; [|apply elem_of_seq; lia]. apply list_elem_of_bind. exists j. split; [by left|apply elem_of_seq; lia].
Qed.

Lemma exclusions_length : length (exclusions active cs) = length cs.
Proof. apply (overlap_fold_spec (index_pairs (length cs)) early). apply early_length. Qed.

(** A candidate is excluded early, or by a conflict with another that was not. *)
Lemma exclusions_spec k : (k < length cs)%nat ->
  excluded_at (exclusions active cs) k <-> excluded_at early k \/ exists j, k <> j /\ clash k j.
Proof.
  intros Hk. destruct (overlap_fold_spec (index_pairs (length cs)) early early_length) as [_ H].
  change (exclusions active cs) with (foldl (overlap_step cs eligible) early (index_pairs (length cs))). rewrite H.
  assert (Hsym : forall i j, clash i j -> clash j i).
  { intros i j (ci & cj & H1 & H2 & H3 & H4 & H5). exists cj, ci. by rewrite scopes_conflict_sym. }
  assert (Hlt : forall i j, clash i j -> (i < length cs)%nat /\ (j < length cs)%nat).
  { intros i j (ci & cj & H1 & H2 & _). split; by eapply lookup_lt_Some. }
  split; (intros [?|Hc]; [by left|right]).
  - destruct Hc as (i & j & Hij & Hcl & [-> | ->]); apply index_pairs_spec in Hij; [exists j|exists i]; (split; [lia|auto]).
  - destruct Hc as (j & Hne & Hcl). destruct (Hlt _ _ Hcl) as [? ?]. destruct (Nat.lt_trichotomy k j) as [Hlt'|[?|Hgt]]; [|lia|].
    + exists k, j. rewrite index_pairs_spec. split; [lia|]. auto.
    + exists j, k. rewrite index_pairs_spec. split; [lia|]. auto.
Qed.

Definition kept_at (i : nat) : Prop := exclusions active cs !! i = Some None.

Lemma kept_spec i : (i < length cs)%nat -> kept_at i <-> ~ excluded_at (exclusions active cs) i.
Proof.
  intros Hi. unfold kept_at, excluded_at. destruct (exclusions active cs !! i) as [[e|]|] eqn:E.
  - split; [done|]. intros Hn. exfalso. eauto.
  - split; [by intros _ [? ?]|done].
  - apply lookup_ge_None in E. rewrite exclusions_length in E. lia.
Qed.

Lemma early_total i : (i < length cs)%nat -> ~ excluded_at early i -> early !! i = Some None.
Proof.
  intros Hi Hn. destruct (early !! i) as [[e|]|] eqn:E; [exfalso; apply Hn; by exists e|done|].
  apply lookup_ge_None in E. rewrite early_length in E. lia.
Qed.

(** Two candidates that are kept have different keys and may write beside each other. *)
Lemma kept_compatible i j a b : i <> j -> cs !! i = Some a -> cs !! j = Some b -> kept_at i -> kept_at j ->
  D_Key a <> D_Key b /\ compatible a b.
Proof.
  intros Hij Ha Hb Hi Hj. pose proof (lookup_lt_Some _ _ _ Ha) as La. pose proof (lookup_lt_Some _ _ _ Hb) as Lb.
  apply kept_spec in Hi, Hj; [|done..]. rewrite exclusions_spec in Hi, Hj by done.
  assert (Ei : early !! i = Some None) by (apply early_total; tauto). assert (Ej : early !! j = Some None) by (apply early_total; tauto).
  split.
  - intros Hk. apply (early_kept i a Ha) in Ei.
    destruct (duplicates_excluded cs i j Hij) as [e He]; [by exists a, b|].  congruence.
  - unfold compatible. destruct (scopes_conflict a b) eqn:E; [|done]. exfalso. apply Hi. right. exists j. split; [done|].
    by exists a, b.
Qed.

(** An unchanged writer with a key of its own is kept, unless it conflicts with another one. *)
Lemma incumbent_kept i c : cs !! i = Some c -> (forall j, i <> j -> ~ same_key cs i j) -> sameActiveTarget active c = true ->
  (forall j d, i <> j -> cs !! j = Some d -> sameActiveTarget active d = true -> compatible c d) -> kept_at i.
Proof.
  intros Hc Hu Ha Hcompat. pose proof (lookup_lt_Some _ _ _ Hc) as Hi. apply kept_spec; [done|]. rewrite exclusions_spec by done.
  assert (Hdup : dup !! i = Some None).
  { destruct (dup !! i) as [[e|]|] eqn:E; [|done|].
    - destruct (duplicates_shared cs i) as (j & Hne & Hs); [by exists e|]. by destruct (Hu j Hne).
    - apply lookup_ge_None in E.  rewrite duplicates_length in E. lia. }
  assert (He : early !! i = Some None) by by eapply early_incumbent.
  intros [[e Hex]|(j & Hne & ci & cj & H1 & H2 & H3 & _ & H5)]; [congruence|]. simplify_eq.
  destruct (sameActiveTarget active cj) eqn:Eaj.
  - specialize (Hcompat j cj Hne H2 Eaj). unfold compatible in Hcompat. congruence.
  - (* a newcomer in conflict with the incumbent was excluded early *)
    pose proof (early_kept j cj H2 H5) as Hdj.
    assert (Hib : inc !! j = Some false) by (rewrite (inc_lookup j cj None H2 Hdj), Eaj; done).
    rewrite (early_lookup j cj None false H2 Hdj Hib) in H5. cbn [exclude_newcomer] in H5.
    destruct (filter _ (zip cs inc)) as [|[o b] l] eqn:Ef; [|done].
    assert (Hin : (c, true) ∈ filter (fun x => x.2 = true /\ scopes_conflict cj x.1 = true) (zip cs inc)).
    { apply list_elem_of_filter. split; [by rewrite scopes_conflict_sym|]. apply list_elem_of_lookup. exists i.
      rewrite lookup_zip_with, Hc. cbn. by rewrite (inc_lookup i c None Hc Hdup), Ha. }
    rewrite Ef in Hin. by apply not_elem_of_nil in Hin.
Qed.
End exclusion.

Section isolation.
Context `{KeyValidation} `{Platform}.

Definition passed (zs : list (Definition_ * option ExclusionError)) : list Definition_ :=
  fst <$> filter (fun x => x.2 = None) zs.

Lemma sort_out_fold zs : forall set,
  Valid (foldl sort_out set zs) = Valid set ++ passed zs /\
  (forall k, is_Some (Invalid set !! k) -> is_Some (Invalid (foldl sort_out set zs) !! k)) /\
  (forall d e, (d, Some e) ∈ zs -> is_Some (Invalid (foldl sort_out set zs) !! D_Key d)).
Proof.
  induction zs as [|[d [e|]] zs IH]; intros set; cbn [foldl sort_out].
  - rewrite app_nil_r. split; [done|]. split; [done|]. by intros ? ? ?%not_elem_of_nil.
  - destruct (IH (mkDefinitionSet (Valid set) (<[Inv_Key (invalid_of d FailureConflict (Excluded e)) := invalid_of d FailureConflict (Excluded e)]> (Invalid set)))) as (H1 & H2 & H3).
    split; [exact H1|]. cbn [Invalid] in H2. split.
    + intros k Hk. apply H2. apply lookup_insert_is_Some. destruct (decide (Inv_Key (invalid_of d FailureConflict (Excluded e)) = k)); auto.
    + intros x f [[= -> ->]|Hx]%elem_of_cons; [|by eapply H3]. apply H2. apply lookup_insert_is_Some. by left.
  - destruct (IH (mkDefinitionSet (Valid set ++ [d]) (Invalid set))) as (H1 & H2 & H3).
    split; [rewrite H1; cbn [Valid]; by rewrite <- app_assoc|]. split; [exact H2|].
    intros x f [[=]|Hx]%elem_of_cons. by eapply H3.
Qed.

Lemma invalid_step_mono l : forall m k, is_Some (m !! k) -> is_Some (foldl invalid_step m l !! k).
Proof.
  induction l as [|x l IHl]; intros m k Hk; cbn [foldl]; [done|]. apply IHl. unfold invalid_step.
  destruct (validateDefinition x) as [x' [|e]]; [done|]. apply lookup_insert_is_Some.
  destruct (decide (Inv_Key (invalid_of x' FailureInvalid (InvalidConfiguration e)) = k)); auto.
Qed.

Lemma invalid_alone_spec ds : forall m d d' e, d ∈ ds -> validateDefinition d = (d', Err e) ->
  is_Some (foldl invalid_step m ds !! D_Key d').
Proof.
  induction ds as [|x ds IH]; intros m d d' e Hd Hv; [by apply not_elem_of_nil in Hd|]. cbn [foldl].
  apply elem_of_cons in Hd as [->|Hd]; [|by eapply IH]. apply invalid_step_mono. unfold invalid_step. rewrite Hv.
  apply lookup_insert_is_Some. by left.
Qed.

Lemma candidates_spec ds c : c ∈ candidates ds <-> exists d, d ∈ ds /\ validateDefinition d = (c, Ok tt).
Proof.
  unfold candidates. rewrite list_elem_of_omap. split; intros (d & Hd & E); exists d; (split; [done|]).
  - by destruct (validateDefinition d) as [x [[]|]]; simplify_eq.
  - by rewrite E.
Qed.

Lemma passed_lookup cs ex a : length cs = length ex -> a ∈ passed (zip cs ex) <-> exists i, cs !! i = Some a /\ ex !! i = Some None.
Proof.
  intros Hl. unfold passed. rewrite list_elem_of_fmap. split.
  - intros ([x o] & -> & Hx). apply list_elem_of_filter in Hx as [Ho Hx]. cbn in Ho. subst o.
    apply list_elem_of_lookup in Hx as [i Hi]. apply lookup_zip_with_Some in Hi as (p & q & [= -> <-] & Hp & Hq). eauto.
  - intros (i & Ha & He). exists (a, None). split; [done|]. apply list_elem_of_filter. split; [done|].
    apply list_elem_of_lookup. exists i. by rewrite lookup_zip_with, Ha, He.
Qed.

Lemma isolation_facts ds active : let set := IsolateDefinitionsWithActive ds active in
  ForallOrdPairs (fun a b => D_Key a <> D_Key b /\ compatible a b) (Valid set) /\
  (forall a, a ∈ Valid set -> exists d, d ∈ ds /\ validateDefinition d = (a, Ok tt)) /\
  (forall d, d ∈ ds -> (validateDefinition d).1 ∈ Valid set \/ is_Some (Invalid set !! D_Key (validateDefinition d).1)).
Proof.
  cbv zeta. unfold IsolateDefinitionsWithActive. set (cs := candidates ds). set (ex := exclusions active cs).
  assert (Hl : length cs = length ex) by (unfold ex; by rewrite exclusions_length).
  destruct (sort_out_fold (zip cs ex) (mkDefinitionSet [] (invalid_alone ds))) as (-> & H2 & H3). cbn [Valid Invalid] in *.
  rewrite app_nil_l. split; [|split].
  - unfold passed. apply ForallOrdPairs_fmap.
    apply ForallOrdPairs_filter_strong. intros i j [a o] [b p] Hij Ha Hb Ho Hp. cbn in *. subst.
    apply lookup_zip_with_Some in Ha as (? & ? & [= -> <-] & Ha1 & Ha2). apply lookup_zip_with_Some in Hb as (? & ? & [= -> <-] & Hb1 & Hb2).
    apply (kept_compatible active cs i j); [lia|done..].
  - intros a Ha. apply (passed_lookup cs ex) in Ha as (i & Hi & _); [|done]. apply candidates_spec. by eapply list_elem_of_lookup_2.
  - intros d Hd. destruct (validateDefinition d) as [c [[]|e]] eqn:Ev; cbn [fst].
    + assert (Hc : c ∈ cs) by (apply candidates_spec; eauto). apply list_elem_of_lookup in Hc as [i Hi].
      destruct (ex !! i) as [[e|]|] eqn:Ee.
      * right. apply (H3 c e). apply list_elem_of_lookup. exists i. by rewrite lookup_zip_with, Hi, Ee.
      * left. apply (passed_lookup cs ex); [done|]. eauto.
      * apply lookup_ge_None in Ee. apply lookup_lt_Some in Hi. lia.
    + right. apply H2. by eapply invalid_alone_spec.
Qed.

(** C12. Isolation: the targets that may run are valid on their own, have
    different keys, and no two of them may overwrite each other (their writable
    scopes are disjoint, or both keep records and allow the overlap).  Nothing
    is lost: every definition is runnable or reported as invalid under its key. *)
Theorem isolation_sound ds active : let set := IsolateDefinitionsWithActive ds active in
  ForallOrdPairs (fun a b => D_Key a <> D_Key b /\ compatible a b) (Valid set) /\
  (forall a, a ∈ Valid set -> exists d, d ∈ ds /\ validateDefinition d = (a, Ok tt)) /\
  (forall d, d ∈ ds -> (validateDefinition d).1 ∈ Valid set \/ is_Some (Invalid set !! D_Key (validateDefinition d).1)).
Proof. apply isolation_facts. Qed.

(** C28. A running target is never revoked by a newcomer: a definition that is
    valid, has a key of its own and is unchanged (same UID and generation) since
    it became active stays runnable, whatever scopes new or changed targets
    claim; only another unchanged active target can conflict with it. *)
Theorem incumbent_never_revoked ds active d c : d ∈ ds -> validateDefinition d = (c, Ok tt) ->
  sameActiveTarget active c = true ->
  (forall i j a b, candidates ds !! i = Some a -> candidates ds !! j = Some b -> D_Key a = D_Key c -> D_Key b = D_Key c -> i = j) ->
  (forall b, b ∈ candidates ds -> sameActiveTarget active b = true -> D_Key b <> D_Key c -> compatible c b) ->
  c ∈ Valid (IsolateDefinitionsWithActive ds active).
Proof.
  intros Hd Hv Ha Hu Hc. unfold IsolateDefinitionsWithActive. set (cs := candidates ds) in *. set (ex := exclusions active cs).
  assert (Hl : length cs = length ex) by (unfold ex; by rewrite exclusions_length).
  destruct (sort_out_fold (zip cs ex) (mkDefinitionSet [] (invalid_alone ds))) as (-> & _ & _). cbn [Valid]. rewrite app_nil_l.
  apply (passed_lookup cs ex); [done|].
  assert (Hin : c ∈ cs) by (apply candidates_spec; eauto). apply list_elem_of_lookup in Hin as [i Hi]. exists i. split; [done|].
  apply (incumbent_kept active cs i c); [done| |done|].
  - intros j Hne (a & b & H1 & H2 & H3). assert (a = c) as -> by congruence. apply Hne. eapply Hu; [exact H1|exact H2|done|done].
  - intros j b Hne Hb Hab. apply Hc; [by eapply list_elem_of_lookup_2|done|]. intros Hk. apply Hne. eapply Hu; [exact Hi|exact Hb|done|done].
Qed.
End isolation.
