(* ===== verification/Runtimes.v ===== *)
(** * internal/target/credentials.go and runtime.go: credentials and runtimes

    A target's token comes from a Secret whose owner has authorized it for that
    target.  The manager keeps one runtime per runnable target: [Sync] builds,
    keeps, replaces and stops them, [RunSelected] runs a worker on each.  Runtimes
    have a number in place of their address, so that keeping one and building an
    equal one differ.  The API server, the client factory and the store factory
    are operations on a world. *)
From Stdlib Require Import String Ascii ZArith Lia.
From S2P Require Import Prelude Effects GoStrings NetIP GoEncoding Endpoint Queue Client Claims Settings Targets.
Open Scope string_scope.
Open Scope list_scope.
Open Scope Z_scope.
Open Scope go_scope.

(** ** Credentials *)

Inductive CredentialReason :=
| CredentialSecretUnavailable | CredentialTokenKeyMissing | CredentialTokenEmpty | CredentialCAUnavailable | CredentialCAKeyMissing
| CredentialCAEmpty | CredentialCAKindUnsupported | CredentialBindingMismatch | CredentialTLSInsecure.

Definition TokenTargetAnnotation : string := GroupName +:+ "/token-target".
Definition TokenURLAnnotation : string := GroupName +:+ "/token-url".
Definition TokenKeyAnnotation : string := GroupName +:+ "/token-key".
Definition TokenCARefAnnotation : string := GroupName +:+ "/token-ca-ref".

Record Secret := mkSecret {
  Sec_UID : string; Sec_ResourceVersion : string; Sec_Annotations : gmap string string; Sec_Data : gmap string string }.
Record ConfigMap := mkConfigMap {
  CM_UID : string; CM_ResourceVersion : string; CM_BinaryData : gmap string string; CM_Data : gmap string string }.

Record CredentialMaterial := mkMaterial { apiToken : string; caBundle : string; M_fingerprint : string }.

(** The bytes of [hashPart]: eight bytes of length, then the value. *)
Definition hash_part (value : string) : list Z := be_bytes 8 (Z.of_nat (String.length value)) ++ bytes_of value.
Definition credential_payload (token ca : string) (versions : list string) : list Z := (token :: ca :: versions) ≫= hash_part.

Definition newCredentialMaterial (token ca : string) (versions : list string) : CredentialMaterial :=
  mkMaterial token ca (EncodeToString (Sum256 (credential_payload token ca versions))).

Definition authorizedCARef (reference : option LocalKeyReference) : string :=
  match reference with
  | None => ""
  | Some r => ToLower (LR_Kind r) +:+ "/" +:+ LR_Name r +:+ "/" +:+ LR_Key r
  end.

(** [m[k]] of a map of strings. *)
Definition value_at (m : gmap string string) (k : string) : string := default "" (m !! k).

(** The owner of the Secret allows this token for this target. *)
Definition token_authorized (secret : Secret) (d : Definition_) (ref : SecretKeySelector) : bool :=
  (value_at (Sec_Annotations secret) TokenTargetAnnotation =s D_Key d)
  && (value_at (Sec_Annotations secret) TokenURLAnnotation =s D_URL d)
  && (value_at (Sec_Annotations secret) TokenKeyAnnotation =s SR_Key ref)
  && (value_at (Sec_Annotations secret) TokenCARefAnnotation =s authorizedCARef (D_CARef d)).

Definition credentialReferenceKey (kind namespace name : string) : string :=
  ToLower (TrimSpace kind) +:+ "|" +:+ ToLower (TrimSpace namespace) +:+ "|" +:+ ToLower (TrimSpace name).

Definition credentialReferences (d : Definition_) : list string :=
  if D_Legacy d then []
  else
    let token := match D_APITokenSecretRef d with Some r => SR_Name r | None => "" end in
    unique_sorted (credentialReferenceKey "secret" (D_Namespace d) token
                   :: match D_CARef d with
                      | Some r => [credentialReferenceKey (LR_Kind r) (D_Namespace d) (LR_Name r)]
                      | None => []
                      end).

Section credentials.
Context {W : Type}.

Record CoreReader := mkCoreReader {
  get_Secret : string -> string -> M W APIError Secret;            (* namespace, name *)
  get_ConfigMap : string -> string -> M W APIError ConfigMap }.

(** [None]: the manager has no reader. *)
Context (core : option CoreReader).

Definition resolveCA (r : CoreReader) (namespace : string) (ref : LocalKeyReference) : M W CredentialReason (string * string) :=
  let kind := ToLower (TrimSpace (LR_Kind ref)) in
  if kind =s "secret" then
    let! secret := wrap (fun _ => CredentialCAUnavailable) (get_Secret r namespace (LR_Name ref)) in
    match Sec_Data secret !! LR_Key ref with
    | None => fail CredentialCAKeyMissing
    | Some value => if value =s "" then fail CredentialCAEmpty else ret (value, Sec_UID secret +:+ "/" +:+ Sec_ResourceVersion secret)
    end
  else if kind =s "configmap" then
    let! cm := wrap (fun _ => CredentialCAUnavailable) (get_ConfigMap r namespace (LR_Name ref)) in
    let found value := if value =s "" then fail CredentialCAEmpty else ret (value, CM_UID cm +:+ "/" +:+ CM_ResourceVersion cm) in
    match CM_BinaryData cm !! LR_Key ref with
    | Some value => found value
    | None => match CM_Data cm !! LR_Key ref with Some value => found value | None => fail CredentialCAKeyMissing end
    end
  else fail CredentialCAKindUnsupported.

Definition Resolve (d : Definition_) : M W CredentialReason CredentialMaterial :=
  if D_Legacy d then
    if D_APIToken d =s "" then fail CredentialTokenEmpty
    else ret (newCredentialMaterial (D_APIToken d) "" ["legacy"; ""; D_CAFile d])
  else
    match core, D_APITokenSecretRef d with
    | Some r, Some ref =>
        let! secret := wrap (fun _ => CredentialSecretUnavailable) (get_Secret r (D_Namespace d) (SR_Name ref)) in
        match Sec_Data secret !! SR_Key ref with
        | None => fail CredentialTokenKeyMissing
        | Some token =>
            let token := TrimSpace token in
            do! require (negb (token =s "")) CredentialTokenEmpty in
            do! require (token_authorized secret d ref) CredentialBindingMismatch in
            do! require (negb (D_InsecureSkipVerify d)) CredentialTLSInsecure in
            let! (ca, caVersion) := (match D_CARef d with
                                     | None => ret ("", "")
                                     | Some ca => resolveCA r (D_Namespace d) ca
                                     end) in
            ret (newCredentialMaterial token ca [Sec_UID secret; Sec_ResourceVersion secret; caVersion])
        end
    | _, _ => fail CredentialSecretUnavailable
    end.
End credentials.
Arguments CoreReader W : clear implicits.

(** ** Failures *)

Definition FailureCredentials : string := "credentials-unavailable".
Definition FailureClient : string := "client-unavailable".
Definition FailureResources : string := "resources-unavailable".
Definition FailureProvider : string := "provider-failed".
Definition FailurePolicy : string := "policy-failed".
Definition FailureOwnership : string := "ownership-failed".
Definition FailureApproval : string := "approval-failed".
Definition FailureRetry : string := "retry-exhausted".
Definition FailureCancelled : string := "cancelled".
Definition failureReasons : list string :=
  [FailureCredentials; FailureClient; FailureResources; FailureProvider; FailurePolicy; FailureOwnership; FailureApproval;
   FailureRetry; FailureCancelled; FailureInvalid; FailureConflict].

Definition boundedFailureReason (reason : string) : string :=
  if bool_decide (reason ∈ failureReasons) then reason else FailureProvider.

(** An error of a worker: of the context, a [RuntimeError], or another. *)
Inductive WorkerError := ContextError | RuntimeError (reason : string) | OtherWorkerError.

Definition failureReason (e : WorkerError) : string :=
  match e with ContextError => FailureCancelled | RuntimeError reason => boundedFailureReason reason | OtherWorkerError => FailureProvider end.

(** ** Runtimes *)

Record QueueState := mkQueueState { Q_depth : Z; Q_inFlight : bool }.
Record RetryState := mkRetryState { attempts : Z; circuitOpen : bool; lastReason : string }.

Definition SetDepth (depth : Z) (q : QueueState) : QueueState := mkQueueState (if depth <? 0 then 0 else depth) (Q_inFlight q).

Definition recordFailure (reason : string) (maximum : Z) (r : RetryState) : RetryState :=
  let n := attempts r + 1 in
  mkRetryState n (if (0 <=? maximum) && (maximum <? n) then true else circuitOpen r) (boundedFailureReason reason).
Definition reset_retry (r : RetryState) : RetryState := mkRetryState 0 false "".

Record Runtime := mkRuntime {
  R_id : nat;                     (* its address *)
  R_Definition : Definition_; R_Stores : nat; R_client : nat; R_Queue : QueueState; R_Retry : RetryState;
  credentialFingerprint : string; definitionFingerprint : string; R_cancelled : bool }.

Definition sanitizedDefinition (d : Definition_) : Definition_ :=
  mkDefinition (D_Namespace d) (D_Name d) (D_UID d) (D_ResourceVersion d) (D_Generation d) (D_Legacy d) (D_URL d) (D_VDOM d)
    (D_Zone d) "" (D_APITokenSecretRef d) (D_CAFile d) (D_CARef d) (D_InsecureSkipVerify d) (D_OwnershipMode d) (D_ControllerID d)
    (D_Sources d) (D_Namespaces d) (D_GatewayTargetNamespaces d) (D_DomainFilters d) (D_CleanupPolicy d) (D_DryRun d)
    (D_ApprovalMode d) (D_AllowNonDestructiveOverlap d) (D_ExternalNameEnabled d) (D_HeadlessEnabled d) (D_Interval d)
    (D_Debounce d) (D_Timeout d) (D_Retries d) (D_DefaultTTL d).

Definition json_strings (l : list string) : json := match l with [] => JNull | l => JArray (JString <$> l) end.
Definition json_secret_ref (r : SecretKeySelector) : json :=
  JObject ((if SR_Name r =s "" then [] else [("name", JString (SR_Name r))]) ++ [("key", JString (SR_Key r))]
           ++ match SR_Optional r with Some b => [("optional", JBool b)] | None => [] end).
Definition json_local_ref (r : LocalKeyReference) : json :=
  JObject [("kind", JString (LR_Kind r)); ("name", JString (LR_Name r)); ("key", JString (LR_Key r))].

(** [json.Marshal] of the definition without its token and resource version. *)
Definition json_definition (d : Definition_) : json :=
  JObject [("Namespace", JString (D_Namespace d)); ("Name", JString (D_Name d)); ("UID", JString (D_UID d));
    ("ResourceVersion", JString ""); ("Generation", JInt (D_Generation d)); ("Legacy", JBool (D_Legacy d));
    ("URL", JString (D_URL d)); ("VDOM", JString (D_VDOM d)); ("Zone", JString (D_Zone d)); ("APIToken", JString "");
    ("APITokenSecretRef", match D_APITokenSecretRef d with Some r => json_secret_ref r | None => JNull end);
    ("CAFile", JString (D_CAFile d)); ("CARef", match D_CARef d with Some r => json_local_ref r | None => JNull end);
    ("InsecureSkipVerify", JBool (D_InsecureSkipVerify d)); ("OwnershipMode", JString (D_OwnershipMode d));
    ("ControllerID", JString (D_ControllerID d)); ("Sources", json_strings (D_Sources d));
    ("Namespaces", json_strings (D_Namespaces d)); ("GatewayTargetNamespaces", json_strings (D_GatewayTargetNamespaces d));
    ("DomainFilters", json_strings (D_DomainFilters d)); ("CleanupPolicy", JString (D_CleanupPolicy d));
    ("DryRun", JBool (D_DryRun d)); ("ApprovalMode", JString (D_ApprovalMode d));
    ("AllowNonDestructiveOverlap", JBool (D_AllowNonDestructiveOverlap d)); ("ExternalNameEnabled", JBool (D_ExternalNameEnabled d));
    ("HeadlessEnabled", JBool (D_HeadlessEnabled d)); ("Interval", JInt (D_Interval d)); ("Debounce", JInt (D_Debounce d));
    ("Timeout", JInt (D_Timeout d)); ("Retries", JInt (D_Retries d)); ("DefaultTTL", JInt (D_DefaultTTL d))].

Definition fingerprintDefinition (d : Definition_) : string := hex_sha256 (Marshal (json_definition d)).

(** ** The manager *)

Section manager.
Context {W : Type} `{KeyValidation} `{Platform}.

(** What the manager calls. *)
Record ManagerEnv := mkManagerEnv {
  core_reader : option (CoreReader W);
  NewClient : Definition_ -> CredentialMaterial -> M W string (option nat);   (* a client may be nil *)
  NewResources : Definition_ -> M W string nat;
  close_client : nat -> W -> W;
  close_stores : nat -> W -> W;
  SetTargetReadiness : string -> bool -> W -> W;
  RemoveTarget : string -> W -> W;
  enqueue : string -> W -> W;
  warn : string -> W -> W }.

Context (env : ManagerEnv).

Record RuntimeManager := mkManager {
  runtimes : gmap string Runtime; definitions : gmap string Definition_; references : gmap string (list string);
  next_id : nat }.

Definition NewRuntimeManager : RuntimeManager := mkManager ∅ ∅ ∅ 0.

Definition resolveCredentials (d : Definition_) : M W CredentialReason CredentialMaterial :=
  Resolve (if D_Legacy d then None else core_reader env) d.

Record SyncState := mkSyncState {
  nextRuntimes : gmap string Runtime; nextDefinitions : gmap string Definition_; nextReferences : gmap string (list string);
  Ready : list string; Failures : gmap string string; CredentialReasons : gmap string CredentialReason;
  sync_changed : list string; resourcesTransferred : gset string; sync_id : nat }.

Definition add_reference (key : string) (m : gmap string (list string)) (reference : string) : gmap string (list string) :=
  <[reference := default [] (m !! reference) ++ [key]]> m.

Definition configure (st : SyncState) (d : Definition_) : SyncState :=
  mkSyncState (nextRuntimes st) (<[D_Key d := sanitizedDefinition d]> (nextDefinitions st))
    (foldl (add_reference (D_Key d)) (nextReferences st) (credentialReferences d)) (Ready st) (Failures st)
    (CredentialReasons st) (sync_changed st) (resourcesTransferred st) (sync_id st).

Definition sync_failed (st : SyncState) (key reason : string) : SyncState :=
  mkSyncState (nextRuntimes st) (nextDefinitions st) (nextReferences st) (Ready st) (<[key := reason]> (Failures st))
    (CredentialReasons st) (sync_changed st) (resourcesTransferred st) (sync_id st).
Definition credential_failed (st : SyncState) (key : string) (reason : CredentialReason) : SyncState :=
  let st := sync_failed st key FailureCredentials in
  mkSyncState (nextRuntimes st) (nextDefinitions st) (nextReferences st) (Ready st) (Failures st)
    (<[key := reason]> (CredentialReasons st)) (sync_changed st) (resourcesTransferred st) (sync_id st).

(** The runtime stays as it is. *)
Definition keep_runtime (st : SyncState) (key : string) (existing : Runtime) : SyncState :=
  mkSyncState (<[key := existing]> (nextRuntimes st)) (nextDefinitions st) (nextReferences st) (Ready st ++ [key]) (Failures st)
    (CredentialReasons st) (sync_changed st) ({[key]} ∪ resourcesTransferred st) (sync_id st).

Definition add_runtime (st : SyncState) (key : string) (d : Definition_) (client stores : nat) (credFP defFP : string)
    (transferred : bool) : SyncState :=
  let r := mkRuntime (sync_id st) (sanitizedDefinition d) stores client (mkQueueState 0 false) (mkRetryState 0 false "") credFP defFP false in
  mkSyncState (<[key := r]> (nextRuntimes st)) (nextDefinitions st) (nextReferences st) (Ready st ++ [key]) (Failures st)
    (CredentialReasons st) (sync_changed st ++ [key])
    (if transferred then {[key]} ∪ resourcesTransferred st else resourcesTransferred st) (S (sync_id st)).

(** A client that works: the stores of the old runtime, or new ones, then the runtime. *)
Definition sync_stores (old : gmap string Runtime) (d : Definition_) (client : nat) (credFP defFP : string) (st : SyncState) (w : W)
    : W * SyncState :=
  let key := D_Key d in
  match old !! key with
  | Some existing => (SetTargetReadiness env key false w, add_runtime st key d client (R_Stores existing) credFP defFP true)
  | None =>
      match NewResources env (sanitizedDefinition d) w with
      | (w, Ok stores) => (SetTargetReadiness env key false w, add_runtime st key d client stores credFP defFP false)
      | (w, Err _) => (SetTargetReadiness env key false (close_client env client w), sync_failed st key FailureResources)
      end
  end.

(** One target; its failure touches no other. *)
Definition sync_one (old : gmap string Runtime) (d : Definition_) (st : SyncState) (w : W) : W * SyncState :=
  let key := D_Key d in
  let st := configure st d in
  match resolveCredentials d w with
  | (w, Err reason) => (SetTargetReadiness env key false w, credential_failed st key reason)
  | (w, Ok material) =>
      let credFP := M_fingerprint material in
      let defFP := fingerprintDefinition d in
      let rebuild :=
        match NewClient env (sanitizedDefinition d) material w with
        | (w, Ok (Some client)) => sync_stores old d client credFP defFP st w
        | (w, _) => (SetTargetReadiness env key false (warn env key w), sync_failed st key FailureClient)
        end in
      match old !! key with
      | Some existing =>
          if (credentialFingerprint existing =s credFP) && (definitionFingerprint existing =s defFP)
          then (w, keep_runtime st key existing) else rebuild
      | None => rebuild
      end
  end.

Fixpoint sync_all (old : gmap string Runtime) (ds : list Definition_) (st : SyncState) (w : W) : W * SyncState :=
  match ds with
  | [] => (w, st)
  | d :: ds => let '(w, st) := sync_one old d st w in sync_all old ds st w
  end.

Definition stop_runtime (r : Runtime) (closeStores : bool) (w : W) : W :=
  let w := close_client env (R_client r) w in
  if closeStores then close_stores env (R_Stores r) w else w.

(** Whether an old runtime is the one that is kept. *)
Definition same_runtime (st : SyncState) (key : string) (r : Runtime) : bool :=
  match nextRuntimes st !! key with Some next => (R_id next =? R_id r)%nat | None => false end.

Definition stop_one (st : SyncState) (w : W) (x : string * Runtime) : W :=
  let '(key, r) := x in
  if same_runtime st key r then w
  else
    let w := stop_runtime r (negb (bool_decide (key ∈ resourcesTransferred st))) w in
    if bool_decide (key ∈ dom (nextDefinitions st)) then w else RemoveTarget env key w.

Record SyncResult := mkSyncResult {
  SR_Ready : list string; SR_Removed : list string; SR_Failures : gmap string string; SR_Changed : list string;
  SR_Stopped : list string; SR_CredentialReasons : gmap string CredentialReason }.

(** The old runtimes that are not kept, in the order the map is visited. *)
Definition replaced (old : gmap string Runtime) (st : SyncState) : list (string * Runtime) :=
  filter (fun x => same_runtime st x.1 x.2 = false) (map_to_list old).

Definition Sync (m : RuntimeManager) (ds : list Definition_) (w : W) : W * (RuntimeManager * result string SyncResult) :=
  match ValidateAll ds with
  | (_, Err e) => (w, (m, Err e))
  | (ds, Ok _) =>
      let old := runtimes m in
      let '(w, st) := sync_all old (sort_by_key D_Key ds) (mkSyncState ∅ ∅ ∅ [] ∅ ∅ [] ∅ (next_id m)) w in
      let w := foldl (stop_one st) w (map_to_list old) in
      let gone := replaced old st in
      let stopped := sort_strings (fst <$> filter (fun x => nextRuntimes st !! x.1 = None) gone) in
      let removed := sort_strings (fst <$> filter (fun x => x.1 ∉ dom (nextDefinitions st)) gone) in
      let changed := sort_strings (sync_changed st) in
      let m := mkManager (nextRuntimes st) (nextDefinitions st) (unique_sorted <$> nextReferences st) (sync_id st) in
      (foldl (fun w key => enqueue env key w) w changed,
       (m, Ok (mkSyncResult (sort_strings (Ready st)) removed (Failures st) changed stopped (CredentialReasons st))))
  end.

(** *** Questions *)

Definition RuntimeCurrent (m : RuntimeManager) (key : string) (r : Runtime) : bool :=
  match runtimes m !! key with Some current => (R_id current =? R_id r)%nat && negb (R_cancelled current) | None => false end.

Definition CredentialsCurrent (r : Runtime) : M W string bool :=
  let! material := attempt (resolveCredentials (R_Definition r)) in
  ret (match material with Ok c => M_fingerprint c =s credentialFingerprint r | Err _ => false end).

Definition CheckCredentials (d : Definition_) : M W CredentialReason unit := do! resolveCredentials d in ret tt.

Definition ActiveDefinitions (m : RuntimeManager) : gmap string Definition_ := R_Definition <$> runtimes m.

Definition Definitions (m : RuntimeManager) : list Definition_ := sort_by_key D_Key (snd <$> map_to_list (definitions m)).

Definition Route (m : RuntimeManager) (endpoints : list Endpoint) : result RoutingError RoutingResult :=
  RouteEndpoints (Definitions m) endpoints.

Definition CredentialEvent (m : RuntimeManager) (kind namespace name : string) (w : W) : W * list string :=
  let targets := default [] (references m !! credentialReferenceKey kind namespace name) in
  (foldl (fun w key => enqueue env key w) w targets, targets).

(** *** Running workers *)

Record RunResult := mkRunResult { Succeeded : bool; RR_Reason : string }.

Context (cancelled : W -> bool).                         (* the parent context, when the run starts *)
Context (SetQueueState : string -> Z -> Z -> W -> W).
Definition Worker : Type := Runtime -> M W WorkerError unit.

Definition with_retry (r : Runtime) (retry : RetryState) : Runtime :=
  mkRuntime (R_id r) (R_Definition r) (R_Stores r) (R_client r) (R_Queue r) retry (credentialFingerprint r)
    (definitionFingerprint r) (R_cancelled r).
Definition in_flight (b : bool) (r : Runtime) : Runtime :=
  mkRuntime (R_id r) (R_Definition r) (R_Stores r) (R_client r) (mkQueueState (Q_depth (R_Queue r)) b) (R_Retry r)
    (credentialFingerprint r) (definitionFingerprint r) (R_cancelled r).

Definition run (key : string) (worker : Worker) (r : Runtime) (w : W) : W * (Runtime * RunResult) :=
  let r := in_flight true r in
  if R_cancelled r || cancelled w then
    (w, (in_flight false (with_retry r (recordFailure FailureCancelled (D_Retries (R_Definition r)) (R_Retry r))),
         mkRunResult false FailureCancelled))
  else
    match worker r w with
    | (w, Ok _) =>
        (SetQueueState key (Q_depth (R_Queue r)) 0 w, (in_flight false (with_retry r (reset_retry (R_Retry r))), mkRunResult true ""))
    | (w, Err e) =>
        let retry := recordFailure (failureReason e) (D_Retries (R_Definition r)) (R_Retry r) in
        (SetQueueState key (Q_depth (R_Queue r)) (attempts retry) w, (in_flight false (with_retry r retry), mkRunResult false (failureReason e)))
    end.

(** The goroutines of [RunSelected] share nothing but the world; they run here one after the other. *)
Fixpoint run_keys (worker : Worker) (keys : list string) (rs : gmap string Runtime) (results : gmap string RunResult) (w : W)
    : W * (gmap string Runtime * gmap string RunResult) :=
  match keys with
  | [] => (w, (rs, results))
  | key :: keys =>
      match rs !! key with
      | Some r => let '(w, (r, result)) := run key worker r w in run_keys worker keys (<[key := r]> rs) (<[key := result]> results) w
      | None => run_keys worker keys rs results w
      end
  end.

(** [None]: every target. *)
Definition is_selected (selected : option (gset string)) (key : string) : bool :=
  match selected with Some s => bool_decide (key ∈ s) | None => true end.

Definition RunSelected (m : RuntimeManager) (selected : option (gset string)) (worker : Worker) (w : W)
    : W * (RuntimeManager * gmap string RunResult) :=
  let keys := filter (fun k => is_selected selected k = true) ((map_to_list (runtimes m)).*1) in
  let '(w, (rs, results)) := run_keys worker (sort_strings keys) (runtimes m) ∅ w in
  (w, (mkManager rs (definitions m) (references m) (next_id m), results)).
End manager.
Arguments ManagerEnv W : clear implicits.
