(* ===== verification/RuntimesLaws.v ===== *)
(** * Properties of credentials and runtimes *)
From Stdlib Require Import String Ascii ZArith Lia.
From S2P Require Import Prelude Effects GoStrings NetIP GoEncoding Endpoint Queue Client Claims Settings Targets TargetsLaws Runtimes.
Open Scope string_scope.
Open Scope list_scope.
Open Scope Z_scope.
Open Scope go_scope.

(** ** Tokens *)

(** The object and the key a CA reference names, read in some state of the cluster,
    have this value, and it is not empty; binary data come first in a ConfigMap. *)
Definition referenced_ca {W} (r : CoreReader W) (namespace : string) (ref : LocalKeyReference) (w w' : W) (ca : string) : Prop :=
  ca <> "" /\
  (ToLower (TrimSpace (LR_Kind ref)) = "secret" /\
   (exists secret, get_Secret r namespace (LR_Name ref) w = (w', Ok secret) /\ Sec_Data secret !! LR_Key ref = Some ca) \/
   ToLower (TrimSpace (LR_Kind ref)) = "configmap" /\
   exists cm, get_ConfigMap r namespace (LR_Name ref) w = (w', Ok cm) /\
     (CM_BinaryData cm !! LR_Key ref = Some ca \/ CM_BinaryData cm !! LR_Key ref = None /\ CM_Data cm !! LR_Key ref = Some ca)).

Lemma resolveCA_exact {W} (r : CoreReader W) namespace ref w w' ca version :
  resolveCA r namespace ref w = (w', Ok (ca, version)) -> referenced_ca r namespace ref w w' ca.
Proof.
  unfold resolveCA, referenced_ca. intros E. cbv zeta in E. destruct (ToLower (TrimSpace (LR_Kind ref)) =s "secret") eqn:Ek; bools.
  - apply bind_ok in E as (secret & w1 & E1%wrap_ok & E). destruct (Sec_Data secret !! LR_Key ref) as [v|] eqn:Ev; [|done].
    destruct (v =s "") eqn:Ee; [done|]. bools. injection E as <- <- _. split; [done|left; eauto].
  - destruct (ToLower (TrimSpace (LR_Kind ref)) =s "configmap") eqn:Em; bools; [|done].
    apply bind_ok in E as (cm & w1 & E1%wrap_ok & E). split; [|right; split; [done|]; exists cm];
      (destruct (CM_BinaryData cm !! LR_Key ref) as [v|] eqn:Eb; [|destruct (CM_Data cm !! LR_Key ref) as [v|] eqn:Ed; [|done]]);
      (destruct (v =s "") eqn:Ee; [done|]; bools; injection E as <- <- _); auto.
Qed.

(** A token goes only where its owner allows: the credentials of a target
    resolve only if the Secret it names carries annotations binding its token to
    exactly this target, URL, key and CA reference, and the target verifies TLS.
    The token released is that Secret's, and not empty; the certificates are those of the
    CA reference, and there are none without one. *)
Theorem token_bound_to_target {W} (core : option (CoreReader W)) d w w' m :
  D_Legacy d = false -> Resolve core d w = (w', Ok m) ->
  exists r ref secret token w1, core = Some r /\ D_APITokenSecretRef d = Some ref /\
    get_Secret r (D_Namespace d) (SR_Name ref) w = (w1, Ok secret) /\ Sec_Data secret !! SR_Key ref = Some token /\
    apiToken m = TrimSpace token /\ TrimSpace token <> "" /\ D_InsecureSkipVerify d = false /\
    value_at (Sec_Annotations secret) TokenTargetAnnotation = D_Key d /\
    value_at (Sec_Annotations secret) TokenURLAnnotation = D_URL d /\
    value_at (Sec_Annotations secret) TokenKeyAnnotation = SR_Key ref /\
    value_at (Sec_Annotations secret) TokenCARefAnnotation = authorizedCARef (D_CARef d) /\
    match D_CARef d with
    | None => caBundle m = ""
    | Some ca => referenced_ca r (D_Namespace d) ca w1 w' (caBundle m)
    end.
Proof.
  intros Hl E. unfold Resolve in E. rewrite Hl in E. destruct core as [r|]; [|done].
  destruct (D_APITokenSecretRef d) as [ref|]; [|done].
  apply bind_ok in E as (secret & w1 & E1 & E). apply wrap_ok in E1. destruct (Sec_Data secret !! SR_Key ref) as [token|] eqn:Et; [|done].
  cbv zeta in E. run_ok E. apply bind_ok in E as ([ca version] & w2 & Eca & [= <- <-]).
  unfold token_authorized in Hr0. bools. exists r, ref, secret, token, w1. split_and!; try done.
  destruct (D_CARef d); [by eapply resolveCA_exact|by injection Eca as _ <- _].
Qed.

(** *** The fingerprint of credentials *)

Lemma be_bytes_length n x : length (be_bytes n x) = n.
Proof. unfold be_bytes. by rewrite length_map, length_seq. Qed.

Lemma be_bytes_bit n x y i : be_bytes n x = be_bytes n y -> (i < 8 * Z.of_nat n) -> 0 <= i -> Z.testbit x i = Z.testbit y i.
Proof.
  intros E Hi H0. set (j := (n - 1 - Z.to_nat (i / 8))%nat).
  assert (Hq : 0 <= i / 8 < Z.of_nat n) by (split; [apply Z.div_pos; lia|apply Z.div_lt_upper_bound; lia]).
  apply (f_equal (fun l => l !! j)) in E. unfold be_bytes in E. rewrite !list_lookup_fmap in E.
  assert (Hj : seq 0 n !! j = Some j) by (apply lookup_seq; split; [done|unfold j; lia]). rewrite Hj in E. cbn in E. injection E as E.
  replace (n - 1 - j)%nat with (Z.to_nat (i / 8)) in E by (unfold j; lia). rewrite Z2Nat.id in E by lia.
  apply (f_equal (fun z => Z.testbit z (i mod 8))) in E.
  assert (Hm : 0 <= i mod 8 < 8) by (apply Z.mod_pos_bound; lia).
  rewrite !Z.land_spec, !Z.shiftr_spec in E by lia. change 255 with (Z.ones 8) in E. rewrite Z.ones_spec_low, !andb_true_r in E by lia.
  replace (i mod 8 + 8 * (i / 8)) with i in E; [done|]. pose proof (Z.div_mod i 8). lia.
Qed.

Lemma be_bytes_inj n x y : 0 <= x < 2 ^ (8 * Z.of_nat n) -> 0 <= y < 2 ^ (8 * Z.of_nat n) -> be_bytes n x = be_bytes n y -> x = y.
Proof.
  intros Hx Hy E. apply Z.bits_inj'. intros i Hi. destruct (Z.lt_ge_cases i (8 * Z.of_nat n)) as [Hlt|Hge]; [by eapply be_bytes_bit|].
  rewrite <- (Z.mod_small x (2 ^ (8 * Z.of_nat n))), <- (Z.mod_small y (2 ^ (8 * Z.of_nat n))) by done.
  by rewrite !Z.mod_pow2_bits_high by lia.
Qed.

Lemma bytes_of_length s : length (bytes_of s) = String.length s.
Proof. induction s as [|c s IH]; cbn; [done|]. by rewrite IH. Qed.

Lemma bytes_of_inj s : forall t, bytes_of s = bytes_of t -> s = t.
Proof.
  induction s as [|c s IH]; intros [|d t] E; try done. cbn in E. injection E as Ec Et. apply Nat2Z.inj in Ec.
  f_equal; [|by apply IH]. by rewrite <- (ascii_nat_embedding c), Ec, ascii_nat_embedding.
Qed.

(** A length Go can hold. *)
Definition fits (s : string) : Prop := Z.of_nat (String.length s) < 2 ^ 63.

Lemma hash_part_prefix s t r r' : fits s -> fits t -> hash_part s ++ r = hash_part t ++ r' -> s = t /\ r = r'.
Proof.
  intros Hs Ht E. unfold hash_part in E. rewrite <- !app_assoc in E. apply app_inj_1 in E as [Hlen E]; [|by rewrite !be_bytes_length].
  apply be_bytes_inj in Hlen; [|unfold fits in *; change (8 * Z.of_nat 8) with 64; lia..].
  apply app_inj_1 in E as [Hb ->]; [|rewrite !bytes_of_length; lia]. split; [by apply bytes_of_inj|done].
Qed.

Lemma hash_parts_inj l : forall l', Forall fits l -> Forall fits l' -> l ≫= hash_part = l' ≫= hash_part -> l = l'.
Proof.
  assert (Hne : forall s r, hash_part s ++ r <> []).
  { intros s r E. apply (f_equal length) in E. rewrite length_app in E. unfold hash_part in E.
    rewrite length_app, be_bytes_length in E. cbn in E. lia. }
  induction l as [|s l IH]; intros [|t l'] Hl Hl' E; cbn in E; [done|by destruct (Hne t (l' ≫= hash_part))|by destruct (Hne s (l ≫= hash_part))|].
  inversion_clear Hl. inversion_clear Hl'. apply hash_part_prefix in E as [-> E]; [|done..]. f_equal. by apply IH.
Qed.

(** The bytes hashed into the fingerprint of credentials determine them: two
    materials with one payload have the same token, the same CA bundle and the same
    versions of the objects they came from, so that every rotation changes what is
    hashed, and no content can be moved between the parts. *)
Theorem credential_payload_injective token ca versions token' ca' versions' :
  Forall fits (token :: ca :: versions) -> Forall fits (token' :: ca' :: versions') ->
  credential_payload token ca versions = credential_payload token' ca' versions' ->
  token = token' /\ ca = ca' /\ versions = versions'.
Proof. intros H1 H2 E. by apply hash_parts_inj in E as [= -> -> ->]. Qed.

(** ** Handles

    A handle (a client, or the stores) belongs to one runtime.  While targets are
    synchronized, the handles that are open are those of the old runtimes and the
    new ones; a key in [inh] has passed its handle on to its new runtime. *)
Section handles.
Context (held : Runtime -> nat).

Definition holds (rs : gmap string Runtime) (h : nat) : Prop := exists k r, rs !! k = Some r /\ held r = h.
Definition exclusive (rs : gmap string Runtime) : Prop :=
  forall k k' r r', rs !! k = Some r -> rs !! k' = Some r' -> held r = held r' -> k = k'.

(** The handles of a set of runtimes, one each, are what is open. *)
Definition ledger (rs : gmap string Runtime) (o : gset nat) : Prop := exclusive rs /\ forall h, h ∈ o <-> holds rs h.

Context (old : gmap string Runtime).

Record ledgering (next : gmap string Runtime) (inh : gset string) (o : gset nat) : Prop := mkLedgering {
  lg_open : forall h, h ∈ o <-> holds old h \/ exists k r, next !! k = Some r /\ k ∉ inh /\ held r = h;
  lg_fresh : forall k r, next !! k = Some r -> k ∉ inh -> ~ holds old (held r);
  lg_distinct : forall k k' r r', next !! k = Some r -> next !! k' = Some r' -> k ∉ inh -> k' ∉ inh -> held r = held r' -> k = k';
  lg_passed : forall k r, next !! k = Some r -> k ∈ inh -> exists r0, old !! k = Some r0 /\ held r = held r0;
  lg_runs : forall k, k ∈ inh -> is_Some (next !! k) }.

Lemma ledgering_start o : (forall h, h ∈ o <-> holds old h) -> ledgering ∅ ∅ o.
Proof.
  intros H. split.
  - intros h. rewrite H. split; [by left|]. intros [?|(k & r & E & _)]; [done|by rewrite lookup_empty in E].
  - intros k r E. by rewrite lookup_empty in E.
  - intros k k' r r' E. by rewrite lookup_empty in E.
  - intros k r E. by rewrite lookup_empty in E.
  - set_solver.
Qed.

Lemma ledgering_inherit next inh o k r r0 : ledgering next inh o -> next !! k = None -> old !! k = Some r0 -> held r = held r0 ->
  ledgering (<[k := r]> next) ({[k]} ∪ inh) o.
Proof.
  intros [H1 H2 H3 H4 H5] Hn Ho Hh. split.
  - intros h. rewrite H1. apply or_iff_compat_l. split; intros (k' & r' & E & Hk' & Hr').
    + exists k', r'. assert (k' <> k) by congruence. rewrite lookup_insert_ne by done. set_solver.
    + exists k', r'. rewrite lookup_insert_ne in E by set_solver. set_solver.
  - intros k' r' E Hk'. rewrite lookup_insert_ne in E by set_solver. eapply H2; [done|set_solver].
  - intros k1 k2 r1 r2 E1 E2 Hk1 Hk2. rewrite lookup_insert_ne in E1, E2 by set_solver. eapply H3; [done..|set_solver|set_solver].
  - intros k' r' E Hk'. destruct (decide (k = k')) as [<- | Hne].
    + rewrite lookup_insert_eq in E. simplify_eq. eauto.
    + rewrite lookup_insert_ne in E by done. eapply H4; [done|set_solver].
  - intros k' Hk'. apply lookup_insert_is_Some. destruct (decide (k = k')); [by left|right; split; [done|]]. apply H5. set_solver.
Qed.

Lemma ledgering_fresh next inh o k r : ledgering next inh o -> next !! k = None -> held r ∉ o ->
  ledgering (<[k := r]> next) inh ({[held r]} ∪ o).
Proof.
  intros [H1 H2 H3 H4 H5] Hn Ho.
  assert (Hk : k ∉ inh) by (intros Hk; destruct (H5 k Hk) as [? ?]; congruence).
  assert (Hnew : forall k' r', next !! k' = Some r' -> k' ∉ inh -> held r' <> held r).
  { intros k' r' E Hk' Hr. apply Ho. apply H1. right. eauto. }
  split.
  - intros h. rewrite elem_of_union, elem_of_singleton, H1. split.
    + intros [-> | [?|(k' & r' & E & Hk' & Hr')]]; [|by left|]; right.
      * exists k, r. by rewrite lookup_insert_eq.
      * exists k', r'. rewrite lookup_insert_ne by congruence. done.
    + intros [?|(k' & r' & E & Hk' & Hr')]; [by right; left|]. apply lookup_insert_Some in E as [[-> ->]|[? E]]; [by left|].
      right. right. eauto.
  - intros k' r' E Hk'. apply lookup_insert_Some in E as [[-> ->]|[? E]]; [|by eapply H2]. intros Hh. apply Ho. apply H1. by left.
  - intros k1 k2 r1 r2 E1 E2 Hk1 Hk2 Hh.
    apply lookup_insert_Some in E1 as [[<- <-]|[? E1]]; apply lookup_insert_Some in E2 as [[<- <-]|[? E2]]; [done| | |by eapply H3].
    + by destruct (Hnew k2 r2).
    + by destruct (Hnew k1 r1).
  - intros k' r' E Hk'. rewrite lookup_insert_ne in E by set_solver. by eapply H4.
  - intros k' Hk'. rewrite lookup_insert_ne by set_solver. by apply H5.
Qed.

(** Once the handles that were not passed on are closed, the open ones are the new runtimes'. *)
Lemma ledgering_finish next inh o o' : exclusive old -> ledgering next inh o ->
  (forall h, h ∈ o' <-> h ∈ o /\ ~ exists k r, old !! k = Some r /\ k ∉ inh /\ held r = h) -> ledger next o'.
Proof.
  intros Hex [H1 H2 H3 H4 H5] Hc. split.
  - intros k k' r r' E E' Hh. destruct (decide (k ∈ inh)) as [Hk|Hk]; destruct (decide (k' ∈ inh)) as [Hk'|Hk'].
    + destruct (H4 _ _ E Hk) as (r0 & Hr0 & Hh0). destruct (H4 _ _ E' Hk') as (r1 & Hr1 & Hh1). eapply Hex; [done..|congruence].
    + destruct (H4 _ _ E Hk) as (r0 & Hr0 & Hh0). destruct (H2 _ _ E' Hk'). exists k, r0. split; [done|congruence].
    + destruct (H4 _ _ E' Hk') as (r0 & Hr0 & Hh0). destruct (H2 _ _ E Hk). exists k', r0. split; [done|congruence].
    + by eapply H3.
  - intros h. rewrite Hc, H1. split.
    + intros [[(k & r & E & Hh)|(k & r & E & _ & Hh)] Hn]; [|by exists k, r].
      destruct (decide (k ∈ inh)) as [Hk|Hk]; [|destruct Hn; eauto]. destruct (H5 _ Hk) as [r' E'].
      destruct (H4 _ _ E' Hk) as (r0 & Hr0 & Hh0). exists k, r'. split; [done|congruence].
    + intros (k & r & E & Hh). destruct (decide (k ∈ inh)) as [Hk|Hk].
      * destruct (H4 _ _ E Hk) as (r0 & Hr0 & Hh0). split; [left; exists k, r0; split; [done|congruence]|].
        intros (k' & r' & E' & Hk' & Hh'). assert (k' = k) by (eapply Hex; [done..|congruence]). congruence.
      * split; [right; eauto|]. intros (k' & r' & E' & _ & Hh'). destruct (H2 _ _ E Hk). exists k', r'. split; [done|congruence].
Qed.
End handles.

(** ** Synchronization *)

Section sync.
Context {W : Type} `{KeyValidation} `{Platform} (env : ManagerEnv W).

Definition untouched (clients stores : W -> gset nat) (C S : gset nat) (w : W) : Prop := clients w = C /\ stores w = S.

(** What the manager relies on: the factories open one handle that was not open,
    closing closes it, and nothing else touches handles. *)
Class Handles (clients stores : W -> gset nat) : Prop := {
  hs_Secret : forall r C S ns name, core_reader env = Some r -> keeps (untouched clients stores C S) (get_Secret r ns name);
  hs_ConfigMap : forall r C S ns name, core_reader env = Some r -> keeps (untouched clients stores C S) (get_ConfigMap r ns name);
  hs_NewClient : forall d m w w' r, NewClient env d m w = (w', r) -> stores w' = stores w /\
    match r with Ok (Some c) => c ∉ clients w /\ clients w' = {[c]} ∪ clients w | _ => clients w' = clients w end;
  hs_NewResources : forall d w w' r, NewResources env d w = (w', r) -> clients w' = clients w /\
    match r with Ok s => s ∉ stores w /\ stores w' = {[s]} ∪ stores w | _ => stores w' = stores w end;
  hs_close_client : forall c w, clients (close_client env c w) = clients w ∖ {[c]} /\ stores (close_client env c w) = stores w;
  hs_close_stores : forall s w, clients (close_stores env s w) = clients w /\ stores (close_stores env s w) = stores w ∖ {[s]};
  hs_readiness : forall k b w, clients (SetTargetReadiness env k b w) = clients w /\ stores (SetTargetReadiness env k b w) = stores w;
  hs_remove : forall k w, clients (RemoveTarget env k w) = clients w /\ stores (RemoveTarget env k w) = stores w;
  hs_enqueue : forall k w, clients (enqueue env k w) = clients w /\ stores (enqueue env k w) = stores w;
  hs_warn : forall k w, clients (warn env k w) = clients w /\ stores (warn env k w) = stores w }.

Context (clients stores : W -> gset nat) `{!Handles clients stores}.

Abbreviation still w w' := (clients w' = clients w /\ stores w' = stores w).

Lemma Resolve_keeps r C S d : core_reader env = Some r -> keeps (untouched clients stores C S) (Resolve (Some r) d).
Proof.
  intros Hr. unfold Resolve, resolveCA. destruct (D_Legacy d); [walk|]. destruct (D_APITokenSecretRef d); [|walk].
  apply keeps_bind; [apply keeps_wrap; by apply hs_Secret|intros secret]. destruct (_ !! _); [|walk]. cbv zeta.
  do 3 (apply keeps_bind; [walk|intros _]). apply keeps_bind; [|intros [? ?]; walk]. destruct (D_CARef d); [|walk].
  walk; first [by apply hs_Secret|by apply hs_ConfigMap].
Qed.

Lemma resolve_still d w w' r : resolveCredentials env d w = (w', r) -> still w w'.
Proof.
  intros E. unfold resolveCredentials in E.
  assert (Hnone : forall w w' r, Resolve (W := W) None d w = (w', r) -> w' = w).
  { intros ???. unfold Resolve. destruct (D_Legacy d); [destruct (_ =s _)|]; by intros [= <- <-]. }
  destruct (D_Legacy d); [apply Hnone in E as ->; done|]. destruct (core_reader env) as [cr|] eqn:Ec; [|apply Hnone in E as ->; done].
  specialize (Resolve_keeps cr (clients w) (stores w) d Ec w w' r (conj eq_refl eq_refl) E). by destruct r.
Qed.

(** What [sync_one] does to a target. *)
Inductive sync_step (old : gmap string Runtime) (d : Definition_) (st : SyncState) (w w' : W) : SyncState -> Prop :=
| step_failed reason st' : still w w' ->
    st' = sync_failed (configure st d) (D_Key d) reason \/ (exists c, st' = credential_failed (configure st d) (D_Key d) c) ->
    sync_step old d st w w' st'
| step_kept r : old !! D_Key d = Some r -> still w w' -> sync_step old d st w w' (keep_runtime (configure st d) (D_Key d) r)
| step_moved r c fp fp' : old !! D_Key d = Some r -> c ∉ clients w -> clients w' = {[c]} ∪ clients w -> stores w' = stores w ->
    sync_step old d st w w' (add_runtime (configure st d) (D_Key d) d c (R_Stores r) fp fp' true)
| step_new c s fp fp' : old !! D_Key d = None -> c ∉ clients w -> s ∉ stores w -> clients w' = {[c]} ∪ clients w ->
    stores w' = {[s]} ∪ stores w -> sync_step old d st w w' (add_runtime (configure st d) (D_Key d) d c s fp fp' false).

Lemma sync_stores_step old d st c fp fp' w0 w w' st' : c ∉ clients w0 -> clients w = {[c]} ∪ clients w0 -> stores w = stores w0 ->
  sync_stores env old d c fp fp' (configure st d) w = (w', st') -> sync_step old d st w0 w' st'.
Proof.
  intros Hc Hcl Hst. unfold sync_stores. destruct (old !! D_Key d) as [r|] eqn:Eo.
  - intros [= <- <-]. destruct (hs_readiness (D_Key d) false w) as [E1 E2]. apply step_moved; congruence.
  - destruct (NewResources env _ w) as [w1 [s|e]] eqn:Er; apply hs_NewResources in Er as [Er1 Er2]; intros [= <- <-].
    + destruct Er2 as [Hs Er2]. destruct (hs_readiness (D_Key d) false w1) as [E1 E2]. apply step_new; congruence.
    + eapply step_failed; [|by left]. destruct (hs_readiness (D_Key d) false (close_client env c w1)) as [-> ->].
      destruct (hs_close_client c w1) as [-> ->]. split; [|congruence]. rewrite Er1, Hcl. set_solver.
Qed.

Lemma sync_one_step old d st w w' st' : sync_one env old d st w = (w', st') -> sync_step old d st w w' st'.
Proof.
  unfold sync_one. destruct (resolveCredentials env d w) as [w1 [mat|e]] eqn:Er; apply resolve_still in Er as [Er1 Er2].
  2:{ intros [= <- <-]. eapply (step_failed _ _ _ _ _ FailureCredentials); [|eauto]. destruct (hs_readiness (D_Key d) false w1). split; congruence. }
  assert (Hrebuild : match NewClient env (sanitizedDefinition d) mat w1 with
    | (w, Ok (Some client)) => sync_stores env old d client (M_fingerprint mat) (fingerprintDefinition d) (configure st d) w
    | (w, _) => (SetTargetReadiness env (D_Key d) false (warn env (D_Key d) w), sync_failed (configure st d) (D_Key d) FailureClient)
    end = (w', st') -> sync_step old d st w w' st').
  { destruct (NewClient env _ mat w1) as [w2 [[c|]|e]] eqn:Ec; apply hs_NewClient in Ec as [E1 E2].
    1:{ destruct E2 as [Hc E2]. intros E. eapply (sync_stores_step _ _ _ _ _ _ _ w2); [| | |exact E]; congruence. }
    all: intros [= <- <-]; eapply step_failed; [|by left]; destruct (hs_readiness (D_Key d) false (warn env (D_Key d) w2)) as [-> ->];
      destruct (hs_warn (D_Key d) w2) as [-> ->]; split; congruence. }
  cbv zeta. destruct (old !! D_Key d) as [r|] eqn:Eo; [|done]. destruct (_ && _); [|done].
  intros [= <- <-]. by apply step_kept.
Qed.

(** The circuit of a target is open when its retries are spent. *)
Definition retry_ok (r : Runtime) : Prop :=
  0 <= D_Retries (R_Definition r) ->
  0 <= attempts (R_Retry r) /\ circuitOpen (R_Retry r) = (D_Retries (R_Definition r) <? attempts (R_Retry r)).

Section loop.
Context (old : gmap string Runtime) (base : nat) (Hbase : forall k r, old !! k = Some r -> (R_id r < base)%nat).

Record syncing (st : SyncState) (w : W) : Prop := mkSyncing {
  sy_stores : ledgering R_Stores old (nextRuntimes st) (resourcesTransferred st) (stores w);
  sy_clients : exists inh, ledgering R_client old (nextRuntimes st) inh (clients w) /\
    forall k, k ∈ inh <-> exists r, nextRuntimes st !! k = Some r /\ old !! k = Some r;
  sy_new : forall k r, nextRuntimes st !! k = Some r -> old !! k = Some r \/ ((base <= R_id r < sync_id st)%nat /\ retry_ok r);
  sy_transferred : forall k r r0, nextRuntimes st !! k = Some r -> old !! k = Some r0 -> k ∈ resourcesTransferred st;
  sy_id : (base <= sync_id st)%nat }.

Lemma syncing_start w ds rs : (forall h, h ∈ stores w <-> holds R_Stores old h) -> (forall h, h ∈ clients w <-> holds R_client old h) ->
  syncing (mkSyncState ∅ ds rs [] ∅ ∅ [] ∅ base) w.
Proof.
  intros Hs Hc. split; cbn; [by apply ledgering_start| |..].
  - exists ∅. split; [by apply ledgering_start|]. intros k. setoid_rewrite lookup_empty. set_solver.
  - intros k r E. by rewrite lookup_empty in E.
  - intros k r r0 E. by rewrite lookup_empty in E.
  - lia.
Qed.

(** A runtime with a new number. *)
Lemma syncing_add st w w' d c s fp fp' (b : bool) : syncing st w -> nextRuntimes st !! D_Key d = None -> c ∉ clients w -> clients w' = {[c]} ∪ clients w ->
  (old !! D_Key d = None \/ b = true) ->
  (forall r, R_Stores r = s -> ledgering R_Stores old (<[D_Key d := r]> (nextRuntimes st))
     (if b then {[D_Key d]} ∪ resourcesTransferred st else resourcesTransferred st) (stores w')) ->
  syncing (add_runtime (configure st d) (D_Key d) d c s fp fp' b) w'.
Proof.
  intros [H1 (inh & H2 & Hinh) H3 H4 H5] Hn Hc Hcl Hb Hs. set (r := mkRuntime (sync_id st) (sanitizedDefinition d) s c
    (mkQueueState 0 false) (mkRetryState 0 false "") fp fp' false).
  split; cbn [add_runtime configure nextRuntimes resourcesTransferred sync_id]; fold r.
  - apply Hs. done.
  - exists inh. split; [rewrite Hcl; by apply (ledgering_fresh R_client old _ _ _ (D_Key d) r)|]. intros k. rewrite Hinh.
    destruct (decide (D_Key d = k)) as [<- | Hne]; [|by rewrite lookup_insert_ne]. rewrite lookup_insert_eq, Hn. split; [by intros (? & ? & _)|].
    intros (r' & [= <-] & Ho). apply Hbase in Ho. cbn in Ho. lia.
  - intros k r' E. apply lookup_insert_Some in E as [[<- <-]|[? E]].
    + right. split; [cbn; lia|]. intros Hr. cbn in *. split; [lia|]. symmetry. apply Z.ltb_ge. done.
    + destruct (H3 _ _ E) as [?|[??]]; [by left|right; split; [lia|done]].
  - intros k r' r0 E Eo. apply lookup_insert_Some in E as [[<- <-]|[? E]].
    + destruct Hb as [Hb| ->]; [congruence|set_solver].
    + specialize (H4 _ _ _ E Eo). destruct b; set_solver.
  - lia.
Qed.

Lemma syncing_step d st w w' st' : syncing st w -> nextRuntimes st !! D_Key d = None -> sync_step old d st w w' st' -> syncing st' w'.
Proof.
  intros Hsy Hn Hstep. pose proof Hsy as [H1 (inh & H2 & Hinh) H3 H4 H5].
  destruct Hstep as [reason st' [Hc Hs] Hst|r Ho [Hc Hs]|r c fp fp' Ho Hc Hcl Hs|c s fp fp' Ho Hc Hs Hcl Hst].
  - destruct Hst as [-> | [? ->]]; (split; cbn; [by rewrite Hs|rewrite Hc; eauto|done|done|done]).
  - split; cbn.
    + rewrite Hs. by apply (ledgering_inherit R_Stores old _ _ _ _ r r).
    + exists ({[D_Key d]} ∪ inh). rewrite Hc. split; [by apply (ledgering_inherit R_client old _ _ _ _ r r)|]. intros k.
      rewrite elem_of_union, elem_of_singleton, Hinh. destruct (decide (D_Key d = k)) as [<- | Hne].
      * rewrite lookup_insert_eq. naive_solver.
      * rewrite lookup_insert_ne by done. naive_solver.
    + intros k r' E. apply lookup_insert_Some in E as [[<- <-]|[? E]]; [by left|by apply H3].
    + intros k r' r0 E Eo. apply lookup_insert_Some in E as [[<- <-]|[? E]]; [set_solver|]. specialize (H4 _ _ _ E Eo). set_solver.
    + done.
  - eapply syncing_add; [done..|by right|]. intros r' Hr'. rewrite Hs. by apply (ledgering_inherit R_Stores old _ _ _ _ r' r).
  - eapply syncing_add; [done..|by left|]. intros r' <-. rewrite Hst. by apply ledgering_fresh.
Qed.

Lemma sync_one_dom d st w w' st' : sync_step old d st w w' st' ->
  dom (nextRuntimes st') ⊆ {[D_Key d]} ∪ dom (nextRuntimes st).
Proof. intros [? ? _ [-> | [? ->]]| | |]; cbn; set_solver. Qed.

Lemma sync_all_syncing ds : forall st w w' st', NoDup (D_Key <$> ds) -> (forall d, d ∈ ds -> nextRuntimes st !! D_Key d = None) ->
  syncing st w -> sync_all env old ds st w = (w', st') -> syncing st' w'.
Proof.
  induction ds as [|d ds IH]; intros st w w' st' Hnd Hn Hsy E; cbn [sync_all] in E; [by simplify_eq|].
  destruct (sync_one env old d st w) as [w1 st1] eqn:E1. apply sync_one_step in E1. cbn in Hnd. apply NoDup_cons in Hnd as [Hd Hnd].
  eapply (IH st1); [done| |eapply syncing_step; [done|apply Hn; by left|done]|done].
  intros d' Hd'. apply sync_one_dom in E1. apply not_elem_of_dom. intros Hin. apply E1 in Hin.
  apply elem_of_union in Hin as [Hin|Hin].
  - apply elem_of_singleton in Hin. apply Hd. rewrite <- Hin. apply list_elem_of_fmap. eauto.
  - apply elem_of_dom in Hin as [? Hin]. rewrite Hn in Hin; [done|by right].
Qed.
End loop.

(** *** Stopping *)

Section stopping.
Context (st : SyncState).

Lemma stop_one_stores w k r h : h ∈ stores (stop_one env st w (k, r)) <->
  h ∈ stores w /\ ~ (same_runtime st k r = false /\ k ∉ resourcesTransferred st /\ R_Stores r = h).
Proof.
  unfold stop_one, stop_runtime. destruct (same_runtime st k r); [naive_solver|]. pose proof (hs_close_client (R_client r) w) as [_ Ec].
  assert (Hr : forall w, stores (if bool_decide (k ∈ dom (nextDefinitions st)) then w else RemoveTarget env k w) = stores w).
  { intros w1. destruct (bool_decide _); [done|]. apply hs_remove. }
  rewrite Hr. destruct (bool_decide_reflect (k ∈ resourcesTransferred st)) as [Hk|Hk]; cbn [negb].
  - rewrite Ec. naive_solver.
  - destruct (hs_close_stores (R_Stores r) (close_client env (R_client r) w)) as [_ ->]. rewrite Ec. set_solver.
Qed.

Lemma stop_one_clients w k r h : h ∈ clients (stop_one env st w (k, r)) <->
  h ∈ clients w /\ ~ (same_runtime st k r = false /\ R_client r = h).
Proof.
  unfold stop_one, stop_runtime. destruct (same_runtime st k r); [naive_solver|]. pose proof (hs_close_client (R_client r) w) as [Ec _].
  assert (Hr : forall w, clients (if bool_decide (k ∈ dom (nextDefinitions st)) then w else RemoveTarget env k w) = clients w).
  { intros w1. destruct (bool_decide _); [done|]. apply hs_remove. }
  rewrite Hr. destruct (negb _).
  - destruct (hs_close_stores (R_Stores r) (close_client env (R_client r) w)) as [-> _]. rewrite Ec. set_solver.
  - rewrite Ec. set_solver.
Qed.

Lemma stop_all_stores l : forall w h, h ∈ stores (foldl (stop_one env st) w l) <->
  h ∈ stores w /\ ~ exists k r, (k, r) ∈ l /\ same_runtime st k r = false /\ k ∉ resourcesTransferred st /\ R_Stores r = h.
Proof.
  induction l as [|[k r] l IH]; intros w h; cbn [foldl].
  - split; [|by intros [? _]]. intros Hh. split; [done|]. by intros (? & ? & ?%not_elem_of_nil & _).
  - rewrite IH, stop_one_stores. setoid_rewrite elem_of_cons. naive_solver.
Qed.

Lemma stop_all_clients l : forall w h, h ∈ clients (foldl (stop_one env st) w l) <->
  h ∈ clients w /\ ~ exists k r, (k, r) ∈ l /\ same_runtime st k r = false /\ R_client r = h.
Proof.
  induction l as [|[k r] l IH]; intros w h; cbn [foldl].
  - split; [|by intros [? _]]. intros Hh. split; [done|]. by intros (? & ? & ?%not_elem_of_nil & _).
  - rewrite IH, stop_one_clients. setoid_rewrite elem_of_cons. naive_solver.
Qed.
End stopping.

Lemma enqueue_still l : forall w, still w (foldl (fun w key => enqueue env key w) w l).
Proof.
  induction l as [|k l IH]; intros w; cbn [foldl]; [done|]. destruct (IH (enqueue env k w)) as [-> ->]. apply hs_enqueue.
Qed.

(** *** The manager *)

Record manager_ok (m : RuntimeManager) (w : W) : Prop := mkManagerOk {
  mo_stores : ledger R_Stores (runtimes m) (stores w);
  mo_clients : ledger R_client (runtimes m) (clients w);
  mo_ids : forall k r, runtimes m !! k = Some r -> (R_id r < next_id m)%nat;
  mo_retry : forall k r, runtimes m !! k = Some r -> retry_ok r }.

Lemma Sync_ok m ds w w' m' r : manager_ok m w -> NoDup (D_Key <$> (ValidateAll ds).1) -> Sync env m ds w = (w', (m', r)) -> manager_ok m' w'.
Proof.
  intros [[Xs Hs] [Xc Hc] Hid Hre] Hnd. unfold Sync. destruct (ValidateAll ds) as [ds' [[]|e]]; [|by intros [= <- <- <-]].
  destruct (sync_all env (runtimes m) (sort_by_key D_Key ds') _ w) as [w1 st] eqn:E. intros [= <- <- <-].
  apply (sync_all_syncing (runtimes m) (next_id m) Hid) in E as [S1 (inh & S2 & Hinh) S3 S4 S5]; [| |by intros|by apply syncing_start].
  2:{ cbn [fst] in Hnd. by rewrite sort_by_key_perm. }
  assert (Hsame : forall k r0, runtimes m !! k = Some r0 -> same_runtime st k r0 = false <-> nextRuntimes st !! k <> Some r0).
  { intros k r0 Hr0. unfold same_runtime. destruct (nextRuntimes st !! k) as [r|] eqn:Er; [|done]. rewrite Nat.eqb_neq. specialize (Hid _ _ Hr0).
    destruct (S3 _ _ Er) as [?|[? _]]; [split; congruence|]. split; [intros Hne [= ->]; lia|]. intros _ Heq. lia. }
  set (w2 := foldl (stop_one env st) w1 (map_to_list (runtimes m))).
  destruct (enqueue_still (sort_strings (sync_changed st)) w2) as [Ec Es].
  split; cbn [runtimes next_id]; [rewrite Es|rewrite Ec|..].
  - eapply (ledgering_finish R_Stores); [exact Xs|exact S1|]. intros h. unfold w2. rewrite stop_all_stores. setoid_rewrite elem_of_map_to_list.
    apply and_iff_compat_l, not_iff_compat. split; [naive_solver|]. intros (k & r0 & Hr0 & Hk & Hh). exists k, r0. split_and!; [done| |done..].
    apply Hsame; [done|]. intros Hn. destruct Hk. by eapply S4.
  - eapply (ledgering_finish R_client); [exact Xc|exact S2|]. intros h. unfold w2. rewrite stop_all_clients. setoid_rewrite elem_of_map_to_list.
    apply and_iff_compat_l, not_iff_compat. setoid_rewrite Hinh. split; intros (k & r0 & Hr0 & Hk & Hh); exists k, r0.
    + split_and!; [done| |done]. apply Hsame in Hk; [|done]. intros (r' & ? & ?). congruence.
    + split_and!; [done| |done]. apply Hsame; [done|]. intros Hn. apply Hk. eauto.
  - intros k r0 Hr0. destruct (S3 _ _ Hr0) as [Ho|[? _]]; [|lia]. specialize (Hid _ _ Ho). lia.
  - intros k r0 Hr0. destruct (S3 _ _ Hr0) as [Ho|[_ ?]]; [by eapply Hre|done].
Qed.

(** *** Running *)

Section running.
Context (cancelled : W -> bool) (SetQueueState : string -> Z -> Z -> W -> W)
  (Hqueue : forall k a b w, still w (SetQueueState k a b w)).

(** The same runtime, with other counters. *)
Definition recounted (r r' : Runtime) : Prop :=
  R_id r' = R_id r /\ R_Stores r' = R_Stores r /\ R_client r' = R_client r /\ (retry_ok r -> retry_ok r').

Lemma recordFailure_ok r reason q : retry_ok r ->
  retry_ok (mkRuntime (R_id r) (R_Definition r) (R_Stores r) (R_client r) q
    (recordFailure reason (D_Retries (R_Definition r)) (R_Retry r)) (credentialFingerprint r) (definitionFingerprint r) (R_cancelled r)).
Proof.
  intros Hr Hp. cbn in *. destruct (Hr Hp) as [Ha Hc]. split; [lia|]. rewrite (proj2 (Z.leb_le 0 _) Hp). cbn [andb].
  destruct (Z.ltb_spec (D_Retries (R_Definition r)) (attempts (R_Retry r) + 1)); [done|]. rewrite Hc. apply Z.ltb_ge. lia.
Qed.

Lemma run_recounted k worker r w w' r' res : (forall r w w' x, worker r w = (w', x) -> still w w') ->
  run cancelled SetQueueState k worker r w = (w', (r', res)) -> recounted r r' /\ still w w'.
Proof.
  intros Hw. unfold run. destruct (_ || _).
  { intros [= <- <- <-]. split; [|done]. split_and!; [done..|]. intros Hr. exact (recordFailure_ok r _ _ Hr). }
  destruct (worker _ w) as [w1 [[]|e]] eqn:Ew; apply Hw in Ew as [E1 E2]; intros [= <- <- <-]; (split;
    [|match goal with |- context [SetQueueState ?a ?b ?c ?d] => destruct (Hqueue a b c d) as [-> ->] end; split; congruence]);
    split_and!; try done.
  - intros _ Hp. cbn in *. split; [lia|]. symmetry. by apply Z.ltb_ge.
  - intros Hr. exact (recordFailure_ok r _ _ Hr).
Qed.

Lemma run_keys_recounted worker ks : (forall r w w' x, worker r w = (w', x) -> still w w') -> forall rs res w w' rs' res',
  run_keys cancelled SetQueueState worker ks rs res w = (w', (rs', res')) ->
  still w w' /\ forall k, (rs !! k = None /\ rs' !! k = None) \/ exists r r', rs !! k = Some r /\ rs' !! k = Some r' /\ recounted r r'.
Proof.
  intros Hw. induction ks as [|k ks IH]; intros rs res w w' rs' res' E; cbn [run_keys] in E.
  - simplify_eq. split; [done|]. intros k. destruct (rs' !! k) as [r|] eqn:Er; [|by left]. right. exists r, r. done.
  - destruct (rs !! k) as [r|] eqn:Er; [|by eapply IH]. destruct (run _ _ k worker r w) as [w1 [r1 x]] eqn:E1.
    apply run_recounted in E1 as [R1 [C1 S1]]; [|done]. apply IH in E as [[C2 S2] Hrs]. split; [split; congruence|]. intros k'.
    destruct (decide (k = k')) as [<- | Hne]; [|specialize (Hrs k'); by rewrite lookup_insert_ne in Hrs].
    right. destruct (Hrs k) as [[Hn _]|(r2 & r3 & H2 & H3 & R3)]; rewrite lookup_insert_eq in *; [done|]. simplify_eq.
    exists r, r3. split_and!; [done..|]. destruct R1 as (? & ? & ? & ?), R3 as (? & ? & ? & ?). split_and!; [congruence..|auto].
Qed.

Lemma ledger_recounted held rs rs' o : (forall r r', recounted r r' -> held r' = held r) ->
  (forall k, (rs !! k = None /\ rs' !! k = None) \/ exists r r', rs !! k = Some r /\ rs' !! k = Some r' /\ recounted r r') ->
  ledger held rs o -> ledger held rs' o.
Proof.
  intros Hh Hrs [Hx Ho].
  assert (Hback : forall k r', rs' !! k = Some r' -> exists r, rs !! k = Some r /\ held r' = held r).
  { intros k r' E. destruct (Hrs k) as [[_ ?]|(r & r2 & H1 & H2 & R)]; [congruence|]. exists r. split; [done|].
    assert (r2 = r') as -> by congruence. by apply Hh. }
  split.
  - intros k k' r r' E E' Heq. destruct (Hback _ _ E) as (a & Ha & Ea). destruct (Hback _ _ E') as (b & Hb & Eb).
    eapply Hx; [done..|congruence].
  - intros h. rewrite Ho. split; intros (k & r & E & <-).
    + destruct (Hrs k) as [[? _]|(r1 & r2 & H1 & H2 & R)]; [congruence|]. assert (r1 = r) as -> by congruence. exists k, r2. auto.
    + destruct (Hback _ _ E) as (a & Ha & Ea). exists k, a. auto.
Qed.

Lemma RunSelected_ok m sel worker w w' m' res : (forall r w w' x, worker r w = (w', x) -> still w w') -> manager_ok m w ->
  RunSelected cancelled SetQueueState m sel worker w = (w', (m', res)) -> manager_ok m' w'.
Proof.
  intros Hw [H1 H2 H3 H4]. unfold RunSelected. destruct (run_keys _ _ _ _ _ _ _) as [w1 [rs res1]] eqn:E. intros [= <- <- <-].
  apply run_keys_recounted in E as [[Hc Hs] Hrs]; [|done].
  split; cbn [runtimes next_id]; [rewrite Hs|rewrite Hc|..].
  - eapply ledger_recounted; [|exact Hrs|done]. by intros ?? (_ & ? & _).
  - eapply ledger_recounted; [|exact Hrs|done]. by intros ?? (_ & _ & ? & _).
  - intros k r Hr. destruct (Hrs k) as [[_ ?]|(r1 & r2 & E1 & E2 & R1 & _)]; [congruence|]. simplify_eq. rewrite R1. eauto.
  - intros k r Hr. destruct (Hrs k) as [[_ ?]|(r1 & r2 & E1 & E2 & _ & _ & _ & R)]; [congruence|]. simplify_eq. eauto.
Qed.

(** The life of a manager: synchronizations, events, runs, and the rest of the program. *)
Inductive manager_step : RuntimeManager * W -> RuntimeManager * W -> Prop :=
| ms_sync m ds w w' m' r : NoDup (D_Key <$> (ValidateAll ds).1) -> Sync env m ds w = (w', (m', r)) -> manager_step (m, w) (m', w')
| ms_event m kind ns name w w' keys : CredentialEvent env m kind ns name w = (w', keys) -> manager_step (m, w) (m, w')
| ms_run m sel worker w w' m' res : (forall r w w' x, worker r w = (w', x) -> still w w') ->
    RunSelected cancelled SetQueueState m sel worker w = (w', (m', res)) -> manager_step (m, w) (m', w')
| ms_other m w w' : still w w' -> manager_step (m, w) (m, w').

Lemma manager_step_ok x y : manager_step x y -> manager_ok x.1 x.2 -> manager_ok y.1 y.2.
Proof.
  intros [m ds w w' m' r Hnd E|m kind ns name w w' keys E|m sel worker w w' m' res Hw E|m w w' [Hc Hs]] Hok; cbn [fst snd] in *.
  - by eapply Sync_ok.
  - unfold CredentialEvent in E. injection E as <- _. destruct (enqueue_still (default [] (references m !! credentialReferenceKey kind ns name)) w) as [Hc Hs].
    destruct Hok as [H1 H2 H3 H4]. split; [by rewrite Hs|by rewrite Hc|done..].
  - by eapply RunSelected_ok.
  - destruct Hok as [H1 H2 H3 H4]. split; [by rewrite Hs|by rewrite Hc|done..].
Qed.

(** C11. The life of the runtime manager, whatever targets come, change, fail and
    go: the open stores are exactly the stores of the runtimes, and the open
    clients exactly their clients, each held by one runtime (nothing in use is
    closed, nothing replaced is leaked); and the circuit of a runtime is open
    exactly when its failures exceed its retries. *)
Theorem runtime_handles_exact w0 m w : clients w0 = ∅ -> stores w0 = ∅ -> rtc manager_step (NewRuntimeManager, w0) (m, w) ->
  (forall h, h ∈ stores w <-> exists k r, runtimes m !! k = Some r /\ R_Stores r = h) /\
  (forall h, h ∈ clients w <-> exists k r, runtimes m !! k = Some r /\ R_client r = h) /\
  (forall k k' r r', runtimes m !! k = Some r -> runtimes m !! k' = Some r' -> R_Stores r = R_Stores r' \/ R_client r = R_client r' -> k = k') /\
  (forall k r, runtimes m !! k = Some r -> 0 <= D_Retries (R_Definition r) ->
     0 <= attempts (R_Retry r) /\ circuitOpen (R_Retry r) = (D_Retries (R_Definition r) <? attempts (R_Retry r))).
Proof.
  intros Hc Hs Hr. assert (Hstart : manager_ok NewRuntimeManager w0).
  { assert (Hno : forall held h, ~ holds held ∅ h) by (intros held h (k & r & E & _); by rewrite lookup_empty in E).
    split; cbn; [| |by intros ?? E; rewrite lookup_empty in E..]; (split; [intros ???? E; by rewrite lookup_empty in E|intros h]);
      rewrite ?Hs, ?Hc; (split; [by intros ?%elem_of_empty|intros ?; exfalso; by eapply Hno]). }
  assert (Hok : manager_ok m w).
  { change (manager_ok (m, w).1 (m, w).2). eapply (rtc_ind_r (fun y => manager_ok y.1 y.2) (NewRuntimeManager, w0)); [exact Hstart| |exact Hr].
    intros y z _ Hyz Hy. by eapply manager_step_ok. }
  destruct Hok as [[X1 O1] [X2 O2] _ H4]. split_and!; [exact O1|exact O2| |exact H4].
  intros k k' r r' E E' [Hh|Hh]; [by eapply X1|by eapply X2].
Qed.
End running.

End sync.

(** ** The outcome of a synchronization *)

Section outcome.
Context {W : Type} `{KeyValidation} `{Platform} (env : ManagerEnv W).

(** Every key configured so far is running or has failed, not both. *)
Record accounted (st : SyncState) : Prop := mkAccounted {
  ac_either : dom (nextDefinitions st) = dom (nextRuntimes st) ∪ dom (Failures st);
  ac_not_both : dom (nextRuntimes st) ## dom (Failures st);
  ac_ready : Ready st ≡ₚ (map_to_list (nextRuntimes st)).*1;
  ac_reasons : forall k, k ∈ dom (CredentialReasons st) <-> Failures st !! k = Some FailureCredentials }.

Lemma sync_one_shape old d st w w' st' : sync_one env old d st w = (w', st') -> let st1 := configure st d in
  (exists reason, reason <> FailureCredentials /\ st' = sync_failed st1 (D_Key d) reason) \/
  (exists c, st' = credential_failed st1 (D_Key d) c) \/
  (exists r, st' = keep_runtime st1 (D_Key d) r) \/
  (exists c s fp fp' b, st' = add_runtime st1 (D_Key d) d c s fp fp' b).
Proof.
  unfold sync_one, sync_stores. cbv zeta. destruct (resolveCredentials env d w) as [w1 [mat|c]]; [|intros [= <- <-]; eauto].
  assert (FailureClient <> FailureCredentials) by done. assert (FailureResources <> FailureCredentials) by done.
  destruct (old !! D_Key d) as [r|]; [destruct (_ && _); [intros [= <- <-]; eauto|]|];
    destruct (NewClient _ _ _ _) as [w2 [[c|]|e]]; try (intros [= <- <-]; by eauto 9).
  destruct (NewResources _ _ _) as [w3 [s|e]]; intros [= <- <-]; eauto 9.
Qed.

Lemma ready_insert (rs : gmap string Runtime) k r l : rs !! k = None -> l ≡ₚ (map_to_list rs).*1 -> l ++ [k] ≡ₚ (map_to_list (<[k := r]> rs)).*1.
Proof. intros Hk ->. rewrite map_to_list_insert by done. cbn. by rewrite Permutation_app_comm. Qed.

Lemma accounted_runs st d r n l i j : accounted st -> D_Key d ∉ dom (nextDefinitions st) ->
  accounted (mkSyncState (<[D_Key d := r]> (nextRuntimes st)) (<[D_Key d := sanitizedDefinition d]> (nextDefinitions st)) n
    (Ready st ++ [D_Key d]) (Failures st) (CredentialReasons st) l i j).
Proof.
  intros [H1 H2 H3 H4] Hd. assert (Hn : nextRuntimes st !! D_Key d = None) by (apply not_elem_of_dom; set_solver).
  split; cbn; [rewrite !dom_insert_L, H1; set_solver|rewrite dom_insert_L; set_solver|by apply ready_insert|done].
Qed.

Lemma accounted_step old d st w w' st' : accounted st -> D_Key d ∉ dom (nextDefinitions st) -> sync_one env old d st w = (w', st') ->
  accounted st' /\ dom (nextDefinitions st') = {[D_Key d]} ∪ dom (nextDefinitions st).
Proof.
  intros Ha Hd E. apply sync_one_shape in E.
  assert (Hfail : forall reason, reason <> FailureCredentials -> accounted (sync_failed (configure st d) (D_Key d) reason)).
  { intros reason Hne. destruct Ha as [H1 H2 H3 H4]. split; cbn; [rewrite !dom_insert_L, H1; set_solver|rewrite dom_insert_L; set_solver|done|].
    intros k. rewrite H4. destruct (decide (D_Key d = k)) as [<- | ?]; [|by rewrite lookup_insert_ne]. rewrite lookup_insert_eq.
    split; [|congruence]. intros Hk. apply elem_of_dom_2 in Hk. set_solver. }
  destruct E as [(reason & Hne & ->)|[(c & ->)|[(r & ->)|(c & s & fp & fp' & b & ->)]]]; (split; [|cbn; by rewrite dom_insert_L]).
  - by apply Hfail.
  - destruct (Hfail "" ltac:(done)) as [H1 H2 H3 H4]. destruct Ha as [G1 G2 G3 G4]. split; cbn in *; [by rewrite !dom_insert_L in *|by rewrite dom_insert_L in *|done|].
    intros k. rewrite dom_insert_L, elem_of_union, elem_of_singleton, G4.
    destruct (decide (D_Key d = k)) as [<- | ?]; [rewrite lookup_insert_eq; naive_solver|rewrite lookup_insert_ne by done; naive_solver].
  - by apply (accounted_runs st).
  - by apply (accounted_runs st).
Qed.

Lemma sync_all_accounted old ds : forall st w w' st', NoDup (D_Key <$> ds) -> (forall d, d ∈ ds -> D_Key d ∉ dom (nextDefinitions st)) ->
  accounted st -> sync_all env old ds st w = (w', st') ->
  accounted st' /\ dom (nextDefinitions st') = list_to_set (D_Key <$> ds) ∪ dom (nextDefinitions st).
Proof.
  induction ds as [|d ds IH]; intros st w w' st' Hnd Hn Ha E; cbn [sync_all] in E; [simplify_eq; split; [done|set_solver]|].
  destruct (sync_one env old d st w) as [w1 st1] eqn:E1. cbn in Hnd. apply NoDup_cons in Hnd as [Hd Hnd].
  apply accounted_step in E1 as [Ha1 Hdom]; [|done|apply Hn; by left].
  destruct (IH st1 w1 w' st') as [Ha' Hd']; [done| |done|done|].
  - intros d' Hd'. rewrite Hdom. apply not_elem_of_union. split; [|apply Hn; by right]. intros Heq%elem_of_singleton.
    apply Hd. rewrite <- Heq. apply list_elem_of_fmap. eauto.
  - split; [done|]. rewrite Hd', Hdom. cbn. set_solver.
Qed.

(** Targets do not touch each other. *)
Lemma sync_one_other old d st w w' st' k : k <> D_Key d -> sync_one env old d st w = (w', st') ->
  nextRuntimes st' !! k = nextRuntimes st !! k /\ Failures st' !! k = Failures st !! k.
Proof.
  intros Hk E. apply sync_one_shape in E as [(reason & _ & ->)|[(c & ->)|[(r & ->)|(c & s & fp & fp' & b & ->)]]]; cbn;
    by rewrite ?lookup_insert_ne by done.
Qed.

Lemma sync_all_other old ds k : k ∉ D_Key <$> ds -> forall st w w' st', sync_all env old ds st w = (w', st') ->
  nextRuntimes st' !! k = nextRuntimes st !! k /\ Failures st' !! k = Failures st !! k.
Proof.
  induction ds as [|d ds IH]; intros Hk st w w' st' E; cbn [sync_all] in E; [by simplify_eq|].
  destruct (sync_one env old d st w) as [w1 st1] eqn:E1. cbn in Hk. apply not_elem_of_cons in Hk as [Hd Hk].
  apply (sync_one_other _ _ _ _ _ _ k) in E1 as [F1 F2]; [|done]. apply IH in E as [-> ->]; done.
Qed.

(** A target's runtime and failure are those of its own step. *)
Lemma sync_all_at old ds d : NoDup (D_Key <$> ds) -> d ∈ ds -> forall st w w' st', sync_all env old ds st w = (w', st') ->
  exists st0 w0 w1 st1, sync_one env old d st0 w0 = (w1, st1) /\ nextRuntimes st0 !! D_Key d = nextRuntimes st !! D_Key d /\
    nextRuntimes st' !! D_Key d = nextRuntimes st1 !! D_Key d /\ Failures st' !! D_Key d = Failures st1 !! D_Key d.
Proof.
  induction ds as [|x ds IH]; intros Hnd Hd st w w' st' E; [by apply not_elem_of_nil in Hd|]. cbn [sync_all] in E.
  destruct (sync_one env old x st w) as [w1 st1] eqn:E1. cbn in Hnd. apply NoDup_cons in Hnd as [Hx Hnd].
  apply elem_of_cons in Hd as [-> | Hd].
  - exists st, w, w1, st1. apply (sync_all_other _ _ (D_Key x)) in E; [|done]. tauto.
  - destruct (IH Hnd Hd _ _ _ _ E) as (st0 & w0 & w2 & st2 & F1 & F2 & F3). exists st0, w0, w2, st2. split; [done|]. split; [|done].
    rewrite F2. apply (sync_one_other _ _ _ _ _ _ (D_Key d)) in E1 as [-> _]; [done|]. intros Heq. apply Hx. rewrite <- Heq.
    apply list_elem_of_fmap. eauto.
Qed.

(** What a synchronization leaves behind: exactly the configured targets are
    known, each of them is either running or reported with a failure, and the
    ready list is the running ones.  A target whose definition and credentials
    are unchanged keeps the very runtime it had (its queue, retries and clients
    with it), and one whose credentials no longer resolve is not run, whatever
    happens to the other targets. *)
Theorem Sync_outcome m ds w w' m' r : let ds' := (ValidateAll ds).1 in
  NoDup (D_Key <$> ds') -> Sync env m ds w = (w', (m', Ok r)) ->
  dom (definitions m') = list_to_set (D_Key <$> ds') /\
  dom (definitions m') = dom (runtimes m') ∪ dom (SR_Failures r) /\ dom (runtimes m') ## dom (SR_Failures r) /\
  SR_Ready r ≡ₚ (map_to_list (runtimes m')).*1 /\
  (forall d r0, d ∈ ds' -> runtimes m !! D_Key d = Some r0 -> definitionFingerprint r0 = fingerprintDefinition d ->
     (forall w, exists w1 mat, resolveCredentials env d w = (w1, Ok mat) /\ M_fingerprint mat = credentialFingerprint r0) ->
     runtimes m' !! D_Key d = Some r0) /\
  (forall d, d ∈ ds' -> (forall w, exists w1 e, resolveCredentials env d w = (w1, Err e)) ->
     runtimes m' !! D_Key d = None /\ SR_Failures r !! D_Key d = Some FailureCredentials).
Proof.
  cbv zeta. unfold Sync. destruct (ValidateAll ds) as [ds' [[]|e]]; cbn [fst]; [|done]. intros Hnd.
  destruct (sync_all env (runtimes m) (sort_by_key D_Key ds') _ w) as [w1 st] eqn:E. intros [= <- <- <-].
  cbn [definitions runtimes SR_Failures SR_Ready].
  assert (Hp : sort_by_key D_Key ds' ≡ₚ ds') by apply sort_by_key_perm.
  assert (Hnd' : NoDup (D_Key <$> sort_by_key D_Key ds')) by by rewrite Hp.
  pose proof E as E'. apply sync_all_accounted in E' as [[A1 A2 A3 A4] Hdom]; [|done| |].
  2:{ intros d _. cbn. set_solver. }
  2:{ split; cbn; [set_solver|set_solver|by rewrite map_to_list_empty|]. intros k. rewrite lookup_empty. set_solver. }
  split_and!; [|done|done|unfold sort_strings; by rewrite sort_by_key_perm| |].
  - rewrite Hdom. cbn. rewrite dom_empty_L, union_empty_r_L. by rewrite Hp.
  - intros d r0 Hd Hr0 Hf Hres. assert (Hd' : d ∈ sort_by_key D_Key ds') by by rewrite Hp.
    destruct (sync_all_at _ _ _ Hnd' Hd' _ _ _ _ E) as (st0 & wa & wb & st1 & F1 & _ & -> & _).
    unfold sync_one in F1. destruct (Hres wa) as (wc & mat & Er & Em). rewrite Er, Hr0, Em, Hf, !String.eqb_refl in F1.
    injection F1 as _ <-. cbn. by rewrite lookup_insert_eq.
  - intros d Hd Hres. assert (Hd' : d ∈ sort_by_key D_Key ds') by by rewrite Hp.
    destruct (sync_all_at _ _ _ Hnd' Hd' _ _ _ _ E) as (st0 & wa & wb & st1 & F1 & F2 & -> & ->).
    unfold sync_one in F1. destruct (Hres wa) as (wc & c & Er). rewrite Er in F1. injection F1 as _ <-. cbn in *.
    rewrite F2, lookup_insert_eq. done.
Qed.
End outcome.
