(* ===== verification/TargetExamples.v ===== *)
(** * Concrete settings, targets and runtimes

    Two targets on an API server with one Secret each, a factory whose handles
    are numbers, and a command line: the theorems about settings, targets,
    credentials and runtimes applied to them. *)
From Stdlib Require Import String Ascii ZArith Lia.
From S2P Require Import Prelude Effects GoStrings NetIP GoEncoding Endpoint Queue Client Sources Plan Policy Gateways Runner Claims.
From S2P Require Import Settings SettingsLaws Targets TargetsLaws Runtimes RuntimesLaws.
Open Scope string_scope.
Open Scope list_scope.
Open Scope Z_scope.
Open Scope go_scope.

(** Names of lower-case letters, digits, dashes and dots. *)
Definition plain_name (n : string) : bool :=
  negb (n =s "") && forallb (fun c => let c := nat_of_ascii c in
    ((97 <=? c)%nat && (c <=? 122)%nat) || ((48 <=? c)%nat && (c <=? 57)%nat) || (c =? 45)%nat || (c =? 46)%nat) (list_ascii_of_string n).

#[local] Instance plain_keys : KeyValidation := {
  IsDNS1123Label n := if plain_name n then [] else ["must be a DNS-1123 label"];
  IsDNS1123Subdomain n := if plain_name n then [] else ["must be a DNS-1123 subdomain"] }.

(** URLs of a scheme and a host. *)
#[local] Instance small_platform : Platform := {
  url_Parse raw := match CutPrefix raw "https://" with
                   | Some host => Some (mkURL "https" host None "" "")
                   | None => None
                   end;
  ReadFile path := if path =s "/etc/ca.pem" then Some "CERTIFICATE" else None;
  AppendCertsFromPEM data := HasPrefix data "CERTIFICATE" }.

(** ** Settings *)

Definition device_settings : FortiGateConfig :=
  mkFortiGateConfig "https://fw.example.com" "t0ken" "root" "example.com" false true "/etc/ca.pem" "" DefaultTimeout 2.

(** [--once --source service --fortigate-...] with everything else at its default. *)
Definition device_flags : list (string * string) :=
  [("source", "Service"); ("cleanup-policy", " Keep "); ("fortigate-url", "https://fw.example.com"); ("fortigate-api-token", "t0ken");
   ("fortigate-zone", "example.com"); ("fortigate-exclusive-zone-ownership", "true"); ("fortigate-ca-file", "/etc/ca.pem")].

Definition loaded : Settings :=
  Eval vm_compute in match load (fun _ => "") device_flags with
                     | Ok c => c
                     | Err _ => mkSettings "" "" false false "" false "" false "" false false 0 0 0 0 false false 0 0 [] [] [] [] 0 "" ""
                                  "" false "" "" "" "" 0 false 0 device_settings false
                     end.

Lemma validated_settings_safe_witness : load (fun _ => "") device_flags = Ok loaded /\ Settings_Validate loaded = Ok tt /\
  Cfg_CleanupPolicy loaded = CleanupKeep.
Proof.
  assert (Hv : Settings_Validate loaded = Ok tt) by (vm_compute; reflexivity).
  split; [vm_compute; reflexivity|]. split; [exact Hv|].
  destruct (validated_settings_safe loaded Hv) as (_ & Hdirect & _). destruct (Hdirect eq_refl) as (_ & Hkeep & _).
  apply Hkeep; [reflexivity|]. right. vm_compute. reflexivity.
Defined.

(** With the default policy the same command line is refused. *)
Example restricted_delete_refused :
  match load (fun _ => "") (("cleanup-policy", "delete") :: filter (fun f => f.1 <> "cleanup-policy") device_flags) with
  | Ok c => exists e, Settings_Validate c = Err e
  | Err _ => False
  end.
Proof. vm_compute. by eexists. Qed.

Lemma newTransportPolicy_safe_witness : exists p, newTransportPolicy device_settings = Ok p /\ TP_FollowsRedirects p = false /\
  TP_RootCAs p = Some "CERTIFICATE".
Proof.
  assert (E : newTransportPolicy device_settings = Ok (mkTransportPolicy false (Some "CERTIFICATE") false)) by (vm_compute; reflexivity).
  eexists. split; [exact E|]. destruct (newTransportPolicy_safe _ _ E) as (Hf & _ & _ & _). split; [exact Hf|reflexivity].
Defined.

Definition misspelt (name : string) : string := if name =s "DRY_RUN" then "ture" else "".

Lemma load_rejects_unparsable_witness : exists e, load misspelt device_flags = Err e.
Proof.
  apply (load_rejects_unparsable misspelt device_flags "DRY_RUN"). left. split; [by do 1 right; left|]. by split.
Defined.

Lemma healthz_window_wide_witness : ResolvedHealthzMaxStaleness loaded = 5 * minute.
Proof.
  assert (H : 0 <= Cfg_HealthzMaxStaleness loaded) by (vm_compute; discriminate).
  destruct (healthz_window_wide loaded H) as [_ E]. etransitivity; [apply E; vm_compute; congruence|vm_compute; reflexivity].
Defined.

(** ** Targets *)

Definition target (ns name zone : string) (generation : Z) : Definition_ :=
  FromAPI (mkTargetObject ns name (name +:+ "-uid") "7" generation
    (mkTargetSpec "https://fw.example.com" "root" zone (mkSecretRef "token" "value" None) None false OwnershipModeShared "ctl"
       ["service"] [] [] [] "" false "" false 0 0 0 2 300 false false)).

Definition com : Definition_ := target "edge" "com" "example.com" 1.
Definition org : Definition_ := target "edge" "org" "example.org" 1.
(** A newcomer that claims a part of [com]'s zone. *)
Definition intruder : Definition_ := target "other" "sub" "app.example.com" 1.

Definition valid (d : Definition_) : Definition_ := (validateDefinition d).1.

Definition address (name : string) : Endpoint :=
  mkEndpoint name "A" ["203.0.113.9"] 300 "" "" (mkSourceRef "v1" "Service" "web" "www" "u1") "" false.
Definition www : Endpoint := address "WWW.example.com.".
Definition elsewhere : Endpoint := address "www.example.net".

Lemma routing_exact_witness : exists r l, RouteEndpoints [com; org] [www; elsewhere] = Ok r /\
  ByTarget r !! "edge/com" = Some l /\ NoDup (Key <$> l) /\ Normalize elsewhere ∈ Unrouted r.
Proof.
  assert (Hv : ValidateAll [com; org] = ([valid com; valid org], Ok tt)) by (vm_compute; reflexivity).
  destruct (RouteEndpoints [com; org] [www; elsewhere]) as [r|] eqn:E; [|vm_compute in E; discriminate].
  destruct (routing_exact _ _ _ _ Hv E) as (H1 & H2 & H3).
  destruct (H2 (valid com) www) as (l & x & Hl & _); [by left|by left|vm_compute; reflexivity|].
  exists r, l. split; [reflexivity|]. assert (Hk : D_Key (valid com) = "edge/com") by (vm_compute; reflexivity). rewrite Hk in Hl.
  split; [exact Hl|]. split; [apply (H1 _ _ Hl)|]. apply H3. exists elsewhere. split; [by right; left|]. split; [reflexivity|].
  intros (d & Hd & Ha). apply elem_of_cons in Hd as [-> | Hd]; [vm_compute in Ha; discriminate|].
  apply elem_of_cons in Hd as [-> | Hd]; [vm_compute in Ha; discriminate|]. by apply not_elem_of_nil in Hd.
Defined.

Lemma incumbent_never_revoked_witness :
  valid com ∈ Valid (IsolateDefinitionsWithActive [intruder; com; org] {["edge/com" := valid com]}).
Proof.
  assert (Hcs : candidates [intruder; com; org] = [valid intruder; valid com; valid org]) by (vm_compute; reflexivity).
  apply (incumbent_never_revoked [intruder; com; org] {["edge/com" := valid com]} com).
  - by right; left.
  - vm_compute. reflexivity.
  - vm_compute. reflexivity.
  - intros i j a b Ha Hb Hka Hkb. rewrite Hcs in Ha, Hb.
    destruct i as [|[|[|i]]]; cbn in Ha; simplify_eq; try (vm_compute in Hka; discriminate);
      destruct j as [|[|[|j]]]; cbn in Hb; simplify_eq; try (vm_compute in Hkb; discriminate); reflexivity.
  - intros b Hb Ha Hk. rewrite Hcs in Hb. apply elem_of_cons in Hb as [-> | Hb]; [vm_compute in Ha; discriminate|].
    apply elem_of_cons in Hb as [-> | Hb]; [by destruct Hk|]. apply elem_of_cons in Hb as [-> | Hb]; [vm_compute in Ha; discriminate|].
    by apply not_elem_of_nil in Hb.
Defined.

(** Without a running incumbent, both are excluded. *)
Example newcomers_exclude_each_other :
  (D_Name <$> Valid (IsolateDefinitionsWithActive [intruder; com; org] ∅)) = ["org"].
Proof. vm_compute. reflexivity. Qed.

(** ** Credentials and runtimes *)

(** The clients and stores that are open. *)
Record Fleet := mkFleet { open_clients : gset nat; open_stores : gset nat }.
Definition unused (s : gset nat) : nat := S (max_list (elements s)).

Lemma unused_spec s : unused s ∉ s.
Proof. unfold unused. intros Hs%elem_of_elements%max_list_elem_of_le. lia. Qed.

(** The owner of the Secret allows it for one target. *)
Definition secret_for (key : string) : Secret :=
  mkSecret "s1" "12" {[TokenTargetAnnotation := key; TokenURLAnnotation := "https://fw.example.com"; TokenKeyAnnotation := "value"]}
    {["value" := " t0ken "]}.

Definition secrets : CoreReader Fleet := mkCoreReader
  (fun ns name w => (w, if (ns =s "edge") && (name =s "token") then Ok (secret_for "edge/com") else Err NotFound))
  (fun _ _ w => (w, Err NotFound)).

Definition fleet : ManagerEnv Fleet := mkManagerEnv (Some secrets)
  (fun _ _ w => (mkFleet ({[unused (open_clients w)]} ∪ open_clients w) (open_stores w), Ok (Some (unused (open_clients w)))))
  (fun _ w => (mkFleet (open_clients w) ({[unused (open_stores w)]} ∪ open_stores w), Ok (unused (open_stores w))))
  (fun c w => mkFleet (open_clients w ∖ {[c]}) (open_stores w)) (fun s w => mkFleet (open_clients w) (open_stores w ∖ {[s]}))
  (fun _ _ w => w) (fun _ w => w) (fun _ w => w) (fun _ w => w).

#[local] Instance fleet_handles : Handles fleet open_clients open_stores.
Proof.
  split; cbn; try done.
  - intros r C S ns name [= <-] w w' r' HP [= <- <-]. by destruct (_ && _).
  - intros r C S ns name [= <-] w w' r' HP [= <- <-]. done.
  - intros d m w w' r [= <- <-]. split; [done|]. split; [apply unused_spec|done].
  - intros d w w' r [= <- <-]. split; [done|]. split; [apply unused_spec|done].
Qed.

Definition no_fleet : Fleet := mkFleet ∅ ∅.

Lemma token_bound_to_target_witness : exists w m, Resolve (Some secrets) (valid com) no_fleet = (w, Ok m) /\ apiToken m = "t0ken".
Proof.
  destruct (Resolve (Some secrets) (valid com) no_fleet) as [w [m|e]] eqn:E; [|vm_compute in E; discriminate].
  exists w, m. split; [reflexivity|]. destruct (token_bound_to_target (Some secrets) (valid com) no_fleet w m) as (r & ref & s & t & w1 & Hr & Hf & Hs & Ht & Htok & _);
    [vm_compute; reflexivity|exact E|]. rewrite Htok. injection Hr as <-. vm_compute in Hf. injection Hf as <-.
  cbn in Hs. injection Hs as _ <-. vm_compute in Ht. injection Ht as <-. vm_compute. reflexivity.
Defined.

(** The Secret of [com] is refused to [org], whose key the annotations do not name. *)
Example token_refused_elsewhere : (Resolve (Some secrets) (valid org) no_fleet).2 = Err CredentialBindingMismatch.
Proof. vm_compute. reflexivity. Qed.

Lemma credential_payload_injective_witness : credential_payload "ab" "c" ["1"] <> credential_payload "a" "bc" ["1"].
Proof.
  intros E. destruct (credential_payload_injective "ab" "c" ["1"] "a" "bc" ["1"]) as (Hne & _); [| |exact E|discriminate];
    repeat (constructor; [unfold fits; cbn; lia|]); constructor.
Defined.

(** The first synchronization builds [com] and fails [org]; the second has a new generation of [com]. *)
Definition first_sync := Sync fleet NewRuntimeManager [com; org] no_fleet.
Definition second_sync := Sync fleet first_sync.2.1 [target "edge" "com" "example.com" 2; org] first_sync.1.

Example fleet_after : let m := second_sync.2.1 in
  (elements (open_stores second_sync.1), elements (open_clients second_sync.1), R_Stores <$> runtimes m !! "edge/com",
   R_client <$> runtimes m !! "edge/com", runtimes m !! "edge/org") = ([1%nat], [2%nat], Some 1%nat, Some 2%nat, None).
Proof. vm_compute. reflexivity. Qed.

Lemma runtime_handles_exact_witness : exists h, h ∈ open_stores second_sync.1 /\
  exists k r, runtimes second_sync.2.1 !! k = Some r /\ R_Stores r = h.
Proof.
  assert (Hr : rtc (manager_step fleet open_clients open_stores (fun _ => false) (fun _ _ _ w => w)) (NewRuntimeManager, no_fleet)
                 (second_sync.2.1, second_sync.1)).
  { apply (rtc_l _ _ (first_sync.2.1, first_sync.1)); [|apply rtc_once].
    - apply (ms_sync fleet open_clients open_stores _ _ NewRuntimeManager [com; org] no_fleet _ _ first_sync.2.2);
        [apply (bool_decide_unpack _); vm_compute; exact I|].
      unfold first_sync. by destruct (Sync _ _ _ _) as [? [? ?]].
    - apply (ms_sync fleet open_clients open_stores _ _ first_sync.2.1 [target "edge" "com" "example.com" 2; org] first_sync.1 _ _ second_sync.2.2);
        [apply (bool_decide_unpack _); vm_compute; exact I|].
      unfold second_sync. by destruct (Sync _ first_sync.2.1 _ _) as [? [? ?]]. }
  destruct (runtime_handles_exact fleet open_clients open_stores (fun _ => false) (fun _ _ _ w => w)
    ltac:(done) no_fleet _ _ eq_refl eq_refl Hr) as (Hs & _).
  assert (Hin : 1%nat ∈ open_stores second_sync.1) by (apply (bool_decide_unpack _); vm_compute; exact I).
  exists 1%nat. split; [exact Hin|]. by apply Hs.
Defined.

Lemma Sync_outcome_witness : exists r, first_sync.2.2 = Ok r /\ dom (runtimes first_sync.2.1) ## dom (SR_Failures r) /\
  SR_Failures r !! "edge/org" = Some FailureCredentials.
Proof.
  destruct first_sync as [w [m [r|e]]] eqn:E; [|vm_compute in E; discriminate]. exists r. split; [reflexivity|].
  assert (Hnd : NoDup (D_Key <$> (ValidateAll [com; org]).1)) by (apply (bool_decide_unpack _); vm_compute; exact I).
  destruct (Sync_outcome fleet NewRuntimeManager [com; org] no_fleet w m r Hnd E) as (_ & _ & Hd & _ & _ & Hf). split; [exact Hd|].
  destruct (Hf (valid org)) as [_ Ho]; [right; left| |exact Ho].
  intros w1. exists w1, CredentialBindingMismatch. vm_compute. reflexivity.
Defined.
