(* ===== verification/StatusWriter.v ===== *)
(** * internal/status/writer.go: the status of a target

    A status object per target: fixed conditions with fixed reasons and messages,
    counts, and a bounded history of audits.  The API server is a record of
    operations on a world; a time is [None] for Go's zero time. *)
From Stdlib Require Import String Ascii ZArith Lia.
From S2P Require Import Prelude Effects GoStrings NetIP GoEncoding Endpoint Queue Sources.
Open Scope string_scope.
Open Scope list_scope.
Open Scope Z_scope.
Open Scope go_scope.

Definition Time : Type := option Z.

Definition MaxRetention : Z := 100.

(** ** Conditions and reasons *)

Definition ConditionReady : string := "Ready".
Definition ConditionDiscoveryComplete : string := "DiscoveryComplete".
Definition ConditionProviderReachable : string := "ProviderReachable".
Definition ConditionOwnershipHealthy : string := "OwnershipHealthy".
Definition ConditionPolicyAccepted : string := "PolicyAccepted".
Definition ConditionPlanApproved : string := "PlanApproved".
Definition ConditionDriftFree : string := "DriftFree".

Definition conditionOrder : list string :=
  [ConditionReady; ConditionDiscoveryComplete; ConditionProviderReachable; ConditionOwnershipHealthy; ConditionPolicyAccepted;
   ConditionPlanApproved; ConditionDriftFree].

Definition ReasonReady : string := "Ready".
Definition ReasonReconciling : string := "Reconciling".
Definition ReasonDiscoveryComplete : string := "DiscoveryComplete".
Definition ReasonDiscoveryIncomplete : string := "DiscoveryIncomplete".
Definition ReasonProviderReachable : string := "ProviderReachable".
Definition ReasonProviderUnavailable : string := "ProviderUnavailable".
Definition ReasonCredentialsUnavailable : string := "CredentialsUnavailable".
Definition ReasonOwnershipHealthy : string := "OwnershipHealthy".
Definition ReasonOwnershipConflict : string := "OwnershipConflict".
Definition ReasonPolicyAccepted : string := "PolicyAccepted".
Definition ReasonPolicyRejected : string := "PolicyRejected".
Definition ReasonPlanApproved : string := "PlanApproved".
Definition ReasonPendingApproval : string := "PendingApproval".
Definition ReasonDriftFree : string := "DriftFree".
Definition ReasonDriftDetected : string := "DriftDetected".
Definition ReasonApplySucceeded : string := "ApplySucceeded".
Definition ReasonApplyFailed : string := "ApplyFailed".
Definition ReasonInterrupted : string := "Interrupted".
Definition ReasonInvalidConfiguration : string := "InvalidConfiguration".
Definition ReasonUnknown : string := "Unknown".

Definition reasonMessages : gmap string string := list_to_map
  [(ReasonReady, "The target is ready."); (ReasonReconciling, "The target reconciliation is in progress.");
   (ReasonDiscoveryComplete, "Configured source discovery is complete.");
   (ReasonDiscoveryIncomplete, "Configured source discovery is incomplete.");
   (ReasonProviderReachable, "The provider snapshot is reachable and complete.");
   (ReasonProviderUnavailable, "The provider snapshot is unavailable.");
   (ReasonCredentialsUnavailable, "Target credentials are unavailable.");
   (ReasonOwnershipHealthy, "Ownership state is healthy."); (ReasonOwnershipConflict, "Ownership state contains a conflict.");
   (ReasonPolicyAccepted, "Publication policy accepted the desired state.");
   (ReasonPolicyRejected, "Publication policy rejected part of the desired state.");
   (ReasonPlanApproved, "The current plan is approved."); (ReasonPendingApproval, "The current plan is pending approval.");
   (ReasonDriftFree, "No provider drift is present."); (ReasonDriftDetected, "Provider drift is present.");
   (ReasonApplySucceeded, "The current plan was applied successfully."); (ReasonApplyFailed, "The current plan apply failed.");
   (ReasonInterrupted, "The current reconciliation was interrupted.");
   (ReasonInvalidConfiguration, "The target configuration is invalid."); (ReasonUnknown, "State is not yet available.")].

Definition ConditionTrue : string := "True".
Definition ConditionFalse : string := "False".
Definition ConditionUnknown : string := "Unknown".

Record ConditionState := mkConditionState {
  CS_Status : string; CS_Reason : string; CS_ObservedGeneration : Z; CS_Detail : string }.

(** [metav1.Condition]. *)
Record Condition := mkCondition {
  C_Type : string; C_Status : string; C_ObservedGeneration : Z; C_LastTransitionTime : Time; C_Reason : string; C_Message : string }.

Record ReconcileCounts := mkCounts { N_Desired : Z; N_Current : Z; N_Drift : Z; N_Conflicts : Z }.
#[export] Instance ReconcileCounts_eq_dec : EqDecision ReconcileCounts.
Proof. solve_decision. Defined.

Record AuditSummary := mkAuditSummary { AS_PlanHash : string; AS_Phase : string; AS_Timestamp : Time; AS_Counts : ReconcileCounts }.

Record StatusAudit := mkStatusAudit { Aud_PlanHash : string; Aud_Phase : string; Aud_Timestamp : Time; Aud_Counts : ReconcileCounts }.

Record StatusSnapshot := mkStatusSnapshot {
  SS_TargetGeneration : Z; SS_ProviderRevision : string; SS_Counts : ReconcileCounts; SS_PlanHash : string; SS_AuditTime : Time;
  SS_ApplyTime : option Time; SS_Conditions : gmap string ConditionState; SS_Audit : option StatusAudit }.

(** [FortiGateDNSStatusStatus], and the object around it. *)
Record TargetStatus := mkTargetStatus {
  ObservedTargetGeneration : Z; TS_ProviderRevision : string; TS_Counts : ReconcileCounts; LastPlanHash : string;
  LastAuditTime : option Time; LastApplyTime : option Time; Conditions : list Condition; History : list AuditSummary }.
Record StatusObject := mkStatusObject {
  SO_Namespace : string; SO_Name : string; SO_ResourceVersion : string; SO_TargetRef : string; SO_Retention : Z; SO_Status : TargetStatus }.

(** ** Sanitizing *)

Definition normalizeRetention (retention : Z) : Z :=
  if retention <? 0 then 0 else if MaxRetention <? retention then MaxRetention else retention.

Definition sanitizeReason (reason : string) : string :=
  match reasonMessages !! reason with Some _ => reason | None => ReasonUnknown end.

Definition sanitizeConditionStatus (status : string) : string :=
  if bool_decide (status ∈ [ConditionTrue; ConditionFalse; ConditionUnknown]) then status else ConditionUnknown.

Definition sanitizeCounts (counts : ReconcileCounts) : ReconcileCounts :=
  mkCounts (Z.max (N_Desired counts) 0) (Z.max (N_Current counts) 0) (Z.max (N_Drift counts) 0) (Z.max (N_Conflicts counts) 0).

Definition sanitizePlanHash (hash : string) : string :=
  let hash := TrimSpace hash in
  if negb (String.length hash =? 64)%nat || negb (ToLower hash =s hash) then ""
  else if forallb (fun c => bool_decide (is_Some (hex_val c))) (list_ascii_of_string hash) then hash else "".

Definition revisionFingerprint (revision : string) : string :=
  let revision := TrimSpace revision in
  if revision =s "" then "" else "sha256:" +:+ hex_sha256 revision.

Definition planPhases : list string := ["PendingApproval"; "Approved"; "Applying"; "Succeeded"; "Failed"; "Stale"; "Interrupted"].

Definition sanitizePhase (phase : string) : option string := if bool_decide (phase ∈ planPhases) then Some phase else None.

Definition normalizedTime (value fallback : Time) : Time := match value with None => fallback | Some t => Some t end.

(** ** Building a status *)

Definition unknown_state : ConditionState := mkConditionState ConditionUnknown ReasonUnknown 0 "".

Definition same_state (a b : Condition) : bool :=
  (C_Status a =s C_Status b) && (C_Reason a =s C_Reason b) && (C_Message a =s C_Message b).

Definition build_condition (old : gmap string Condition) (incoming : gmap string ConditionState) (now : Time) (type : string) : Condition :=
  let state := default unknown_state (incoming !! type) in
  let status := sanitizeConditionStatus (CS_Status state) in
  let reason := sanitizeReason (CS_Reason state) in
  let condition t := mkCondition type status (Z.max (CS_ObservedGeneration state) 0) t reason (default "" (reasonMessages !! reason)) in
  match old !! type with
  | Some prior => if same_state prior (condition now) then condition (C_LastTransitionTime prior) else condition now
  | None => condition now
  end.

Definition old_conditions (previous : list Condition) : gmap string Condition := foldl (fun m c => <[C_Type c := c]> m) ∅ previous.

Definition buildConditions (previous : list Condition) (incoming : gmap string ConditionState) (now : Time) : list Condition :=
  build_condition (old_conditions previous) incoming now <$> conditionOrder.

Definition sameAuditResult (a b : AuditSummary) : bool :=
  (AS_PlanHash a =s AS_PlanHash b) && (AS_Phase a =s AS_Phase b) && bool_decide (AS_Counts a = AS_Counts b).

(** [history[len(history)-limit:]] when it is longer. *)
Definition keep_last (limit : nat) (history : list AuditSummary) : list AuditSummary := drop (length history - limit) history.

(** The entry of an audit, when its hash and phase can be published. *)
Definition audit_entry (audit : StatusAudit) (now : Time) : option AuditSummary :=
  let hash := sanitizePlanHash (Aud_PlanHash audit) in
  match sanitizePhase (Aud_Phase audit) with
  | Some phase => if hash =s "" then None
                  else Some (mkAuditSummary hash phase (normalizedTime (Aud_Timestamp audit) now) (sanitizeCounts (Aud_Counts audit)))
  | None => None
  end.

Definition add_entry (history : list AuditSummary) (entry : AuditSummary) : list AuditSummary :=
  match last history with
  | Some e => if sameAuditResult e entry then history else history ++ [entry]
  | None => history ++ [entry]
  end.

Definition appendHistory (previous : list AuditSummary) (audit : option StatusAudit) (retention : Z) (now : Time) : list AuditSummary :=
  let limit := Z.to_nat (normalizeRetention retention) in
  if (limit =? 0)%nat then []
  else
    let history := keep_last limit previous in
    let history := match audit with
                   | Some a => match audit_entry a now with Some entry => add_entry history entry | None => history end
                   | None => history
                   end in
    keep_last limit history.

(** [Writer.buildStatus]. *)
Definition buildStatus (retention : Z) (now : Time) (previous : TargetStatus) (snapshot : StatusSnapshot) : TargetStatus :=
  mkTargetStatus (Z.max (SS_TargetGeneration snapshot) 0) (revisionFingerprint (SS_ProviderRevision snapshot))
    (sanitizeCounts (SS_Counts snapshot)) (sanitizePlanHash (SS_PlanHash snapshot))
    (Some (normalizedTime (SS_AuditTime snapshot) now))
    (match SS_ApplyTime snapshot with Some t => Some (normalizedTime t now) | None => LastApplyTime previous end)
    (buildConditions (Conditions previous) (SS_Conditions snapshot) now)
    (appendHistory (History previous) (SS_Audit snapshot) retention now).

(** ** Writing *)

Section writer.
Context {W Raw : Type} `{KeyValidation}.

(** The status objects of a namespace.  Objects on the wire are decoded and
    encoded by apimachinery. *)
Record StatusAPI := mkStatusAPI {
  status_Get : string -> M W APIError Raw;
  status_Create : Raw -> M W APIError Raw;
  status_UpdateStatus : Raw -> M W APIError Raw;
  FromUnstructured : Raw -> result string StatusObject;
  ToUnstructured : StatusObject -> result string Raw;
  status_now : W -> Z }.

Context (api : StatusAPI).

Inductive WriteError := WriteAPI (e : APIError) | WriteCodec (e : string).

(** [retry.DefaultRetry]: five attempts, as long as the error is a conflict. *)
Fixpoint RetryOnConflict (steps : nat) (fn : M W WriteError unit) : M W WriteError unit :=
  fun w => match fn w with
           | (w, Err (WriteAPI Conflict)) =>
               match steps with O | 1%nat => (w, Err (WriteAPI Conflict)) | S steps => RetryOnConflict steps fn w end
           | r => r
           end.

Record Writer := mkWriter { Wr_namespace : string; Wr_target : string; Wr_retention : Z }.

Definition NewWriter (namespace target : string) (retention : Z) : result string Writer :=
  if namespace =s "" then Err "status namespace is required"
  else if negb (bool_decide (IsDNS1123Subdomain target = [])) then Err "invalid target name"
  else Ok (mkWriter namespace target (normalizeRetention retention)).

Definition no_status : TargetStatus := mkTargetStatus 0 "" (mkCounts 0 0 0 0) "" None None [] [].

Definition create (wr : Writer) : M W WriteError Raw :=
  let! raw := wrap WriteCodec (lift (ToUnstructured api (mkStatusObject (Wr_namespace wr) (Wr_target wr) "" (Wr_target wr) (Wr_retention wr) no_status))) in
  wrap WriteAPI (status_Create api raw).

Definition with_target_status (s : TargetStatus) (o : StatusObject) : StatusObject :=
  mkStatusObject (SO_Namespace o) (SO_Name o) (SO_ResourceVersion o) (SO_TargetRef o) (SO_Retention o) s.

(** The object that is there, or a new one; a lost race counts as a conflict. *)
Definition current_status (wr : Writer) : M W WriteError Raw :=
  fun w => match status_Get api (Wr_target wr) w with
           | (w, Ok raw) => (w, Ok raw)
           | (w, Err NotFound) =>
               match create wr w with
               | (w, Err (WriteAPI AlreadyExists)) => (w, Err (WriteAPI Conflict))
               | r => r
               end
           | (w, Err e) => (w, Err (WriteAPI e))
           end.

Definition write_once (wr : Writer) (snapshot : StatusSnapshot) : M W WriteError unit :=
  let! raw := current_status wr in
  let! typed := wrap WriteCodec (lift (FromUnstructured api raw)) in
  let! now := read (fun w => Some (status_now api w)) in
  let status := buildStatus (Wr_retention wr) now (SO_Status typed) snapshot in
  let! updated := wrap WriteCodec (lift (ToUnstructured api (with_target_status status typed))) in
  do! wrap WriteAPI (status_UpdateStatus api updated) in ret tt.

Definition retry_attempts : nat := 5.

Definition Write (wr : Writer) (snapshot : StatusSnapshot) : M W WriteError unit := RetryOnConflict retry_attempts (write_once wr snapshot).
End writer.
Arguments StatusAPI W Raw : clear implicits.
