(* ===== verification/StatusLaws.v ===== *)
(** * Properties of the status of a target *)
From Stdlib Require Import String Ascii ZArith Lia.
From S2P Require Import Prelude Effects GoStrings NetIP GoEncoding Endpoint Queue Sources StatusWriter.
Open Scope string_scope.
Open Scope list_scope.
Open Scope Z_scope.
Open Scope go_scope.

(** ** Conditions *)

Lemma sanitizeReason_known r : is_Some (reasonMessages !! sanitizeReason r).
Proof. unfold sanitizeReason. destruct (reasonMessages !! r) eqn:E; [by rewrite E|by eexists]. Qed.

Lemma sanitizeConditionStatus_known s : sanitizeConditionStatus s ∈ [ConditionTrue; ConditionFalse; ConditionUnknown].
Proof. unfold sanitizeConditionStatus. case_bool_decide as E; [done|]. do 2 right. by left. Qed.

Lemma build_condition_type old incoming now t : C_Type (build_condition old incoming now t) = t.
Proof. unfold build_condition. destruct (old !! t) as [p|]; [destruct (same_state _ _)|]; done. Qed.

(** What a condition says does not depend on the previous status. *)
Lemma build_condition_content old incoming now t : let s := default unknown_state (incoming !! t) in
  let c := build_condition old incoming now t in
  C_Status c = sanitizeConditionStatus (CS_Status s) /\ C_Reason c = sanitizeReason (CS_Reason s) /\
  reasonMessages !! C_Reason c = Some (C_Message c) /\ C_ObservedGeneration c = Z.max (CS_ObservedGeneration s) 0.
Proof.
  cbv zeta. destruct (sanitizeReason_known (CS_Reason (default unknown_state (incoming !! t)))) as [m Hm].
  unfold build_condition. destruct (old !! t) as [p|]; [destruct (same_state _ _)|]; cbn [C_Status C_Reason C_Message C_ObservedGeneration];
    rewrite Hm; done.
Qed.

(** The conditions of a status are closed: whatever the caller passes, they are
    the seven fixed types in their order, each with one of three states, a reason of
    the fixed table and that reason's message; details and unknown reasons are never
    published.  The transition time moves exactly when status or reason change. *)
Theorem conditions_closed previous incoming now : let cs := buildConditions previous incoming now in
  C_Type <$> cs = conditionOrder /\
  (forall c, c ∈ cs -> C_Status c ∈ [ConditionTrue; ConditionFalse; ConditionUnknown] /\
     reasonMessages !! C_Reason c = Some (C_Message c) /\ 0 <= C_ObservedGeneration c) /\
  (forall now', let cs' := buildConditions cs incoming now' in
     forall i c c', cs !! i = Some c -> cs' !! i = Some c' -> C_LastTransitionTime c' = C_LastTransitionTime c) /\
  (forall incoming' now', let cs' := buildConditions cs incoming' now' in
     forall i c c', cs !! i = Some c -> cs' !! i = Some c' -> C_Status c' <> C_Status c \/ C_Reason c' <> C_Reason c ->
       C_LastTransitionTime c' = now').
Proof.
  cbv zeta. unfold buildConditions at 1 2.
  assert (Hold : forall i c, buildConditions previous incoming now !! i = Some c ->
     old_conditions (buildConditions previous incoming now) !! C_Type c = Some c).
  { intros i c Hi. unfold buildConditions, old_conditions in *. cbn [conditionOrder fmap list_fmap foldl] in *. rewrite !build_condition_type.
    do 7 (destruct i as [|i]; [cbn in Hi; injection Hi as <-; rewrite build_condition_type; by simplify_map_eq|]). by destruct i. }
  assert (Htype : forall inc n old i c, (build_condition old inc n <$> conditionOrder) !! i = Some c -> conditionOrder !! i = Some (C_Type c)).
  { intros inc n old i c Hi. rewrite list_lookup_fmap in Hi. destruct (conditionOrder !! i) as [t|]; [|done]. cbn in Hi. injection Hi as <-.
    by rewrite build_condition_type. }
  split_and!.
  - rewrite <- list_fmap_compose. rewrite <- (list_fmap_id conditionOrder) at 2. apply list_fmap_ext. intros i t _. apply build_condition_type.
  - intros c Hc. apply list_elem_of_fmap in Hc as (t & -> & _). destruct (build_condition_content (old_conditions previous) incoming now t) as (-> & _ & -> & ->).
    split_and!; [apply sanitizeConditionStatus_known|done|lia].
  - intros now' i c c' Hc Hc'. pose proof (Hold i c Hc) as Ho. unfold buildConditions at 1 in Hc'. pose proof (Htype _ _ _ _ _ Hc) as T1.
    pose proof (Htype _ _ _ _ _ Hc') as T2. rewrite T1 in T2. injection T2 as T2. rewrite list_lookup_fmap, T1 in Hc'. cbn [fmap option_fmap option_map] in Hc'. injection Hc' as <-.
    unfold buildConditions in Hc. rewrite list_lookup_fmap, T1 in Hc. cbn [fmap option_fmap option_map] in Hc.
    destruct (build_condition_content (old_conditions previous) incoming now (C_Type c)) as (E1 & E2 & E3 & _).
    injection Hc as Hc. rewrite Hc in E1, E2, E3. unfold build_condition. rewrite Ho. unfold same_state. cbn [C_Status C_Reason C_Message].
    rewrite <- E1, <- E2, E3, !String.eqb_refl. done.
  - intros inc' now' i c c' Hc Hc' Hne. pose proof (Hold i c Hc) as Ho. unfold buildConditions at 1 in Hc'. pose proof (Htype _ _ _ _ _ Hc) as T1.
    rewrite list_lookup_fmap, T1 in Hc'. cbn [fmap option_fmap option_map] in Hc'. injection Hc' as <-.
    unfold build_condition in Hne |- *. rewrite Ho in Hne |- *. destruct (same_state _ _) eqn:E; [|done]. unfold same_state in E. bools. cbn [C_Status C_Reason] in *.
    destruct Hne; congruence.
Qed.

(** ** History *)

Lemma keep_last_length n l : (length (keep_last n l) <= n)%nat.
Proof. unfold keep_last. rewrite length_drop. lia. Qed.

Lemma keep_last_short n l : (length l <= n)%nat -> keep_last n l = l.
Proof. intros Hl. unfold keep_last. by replace (length l - n)%nat with 0%nat by lia. Qed.

Lemma keep_last_last n l : (0 < n)%nat -> last (keep_last n l) = last l.
Proof.
  intros Hn. unfold keep_last. destruct l as [|x l]; [done|]. rewrite last_lookup, last_lookup, lookup_drop, length_drop. f_equal. cbn [length]. lia.
Qed.

Lemma sameAuditResult_refl e : sameAuditResult e e = true.
Proof. unfold sameAuditResult. rewrite !String.eqb_refl. by rewrite bool_decide_eq_true_2. Qed.

(** An entry that can be published. *)
Definition published (e : AuditSummary) : Prop :=
  sanitizePlanHash (AS_PlanHash e) = AS_PlanHash e /\ AS_PlanHash e <> "" /\ AS_Phase e ∈ planPhases.

(** Neighbours differ. *)
Fixpoint varied (l : list AuditSummary) : Prop :=
  match l with x :: ((y :: _) as rest) => sameAuditResult x y = false /\ varied rest | _ => True end.

Lemma varied_drop l : forall n, varied l -> varied (drop n l).
Proof.
  induction l as [|x l IH]; intros [|n] Hv; try done. cbn [drop]. apply IH. destruct l; [done|]. apply Hv.
Qed.

Lemma varied_snoc l e : varied l -> match last l with Some x => sameAuditResult x e = false | None => True end -> varied (l ++ [e]).
Proof.
  induction l as [|x l IH]; intros Hv Hl; [done|]. destruct l as [|y l]; [done|]. destruct Hv as [H1 H2]. split; [done|]. by apply IH.
Qed.

Lemma sanitizePlanHash_idem h : sanitizePlanHash (sanitizePlanHash h) = sanitizePlanHash h.
Proof.
  unfold sanitizePlanHash at 2 3. cbv zeta. destruct (_ || _) eqn:E1; [done|]. destruct (forallb _ _) eqn:E2; [|done].
  unfold sanitizePlanHash. cbv zeta. by rewrite TrimSpace_idem, E1, E2.
Qed.

Lemma audit_entry_published a now e : audit_entry a now = Some e -> published e.
Proof.
  unfold audit_entry. destruct (sanitizePhase (Aud_Phase a)) as [p|] eqn:Ep; [|done]. destruct (_ =s _) eqn:Eh; [done|]. intros [= <-].
  unfold sanitizePhase in Ep. case_bool_decide; [|done]. injection Ep as <-. bools. split_and!; [apply sanitizePlanHash_idem|done|done].
Qed.

Lemma add_entry_cases h e : add_entry h e = h \/ (add_entry h e = h ++ [e] /\ match last h with Some x => sameAuditResult x e = false | None => True end).
Proof. unfold add_entry. destruct (last h) as [x|]; [destruct (sameAuditResult x e)|]; auto. Qed.

(** The new history is the tail of the old one with at most one new, different entry. *)
Lemma appendHistory_cases prev audit retention now : appendHistory prev audit retention now = [] \/
  let limit := Z.to_nat (normalizeRetention retention) in (0 < limit)%nat /\
  (appendHistory prev audit retention now = keep_last limit prev \/
   exists e, published e /\ appendHistory prev audit retention now = keep_last limit (keep_last limit prev ++ [e]) /\
     match last (keep_last limit prev) with Some x => sameAuditResult x e = false | None => True end).
Proof.
  unfold appendHistory. cbv zeta. destruct (Nat.eqb_spec (Z.to_nat (normalizeRetention retention)) 0) as [|Hn]; [by left|right]. split; [lia|].
  pose proof (keep_last_length (Z.to_nat (normalizeRetention retention)) prev) as Hl.
  destruct audit as [a|]; [|left; by apply keep_last_short]. destruct (audit_entry a now) as [e|] eqn:Ee; [|left; by apply keep_last_short].
  destruct (add_entry_cases (keep_last (Z.to_nat (normalizeRetention retention)) prev) e) as [-> | [-> Hd]]; [left; by apply keep_last_short|right].
  exists e. split; [by eapply audit_entry_published|done].
Qed.

(** A sequence of writes. *)
Definition writes_of (retention : Z) (prev : TargetStatus) (l : list (Time * StatusSnapshot)) : TargetStatus :=
  foldl (fun s x => buildStatus retention x.1 s x.2) prev l.

Definition history_ok (retention : Z) (h : list AuditSummary) : Prop :=
  Z.of_nat (length h) <= normalizeRetention retention /\ Forall published h /\ varied h.

Lemma normalizeRetention_nonneg r : 0 <= normalizeRetention r <= MaxRetention.
Proof. unfold normalizeRetention, MaxRetention. destruct (Z.ltb_spec r 0), (Z.ltb_spec 100 r); lia. Qed.

Lemma appendHistory_ok retention prev audit now : Forall published prev -> varied prev -> history_ok retention (appendHistory prev audit retention now).
Proof.
  intros Hp Hv. pose proof (normalizeRetention_nonneg retention) as Hr. set (limit := Z.to_nat (normalizeRetention retention)).
  assert (Hk : forall l, Forall published l -> varied l -> history_ok retention (keep_last limit l)).
  { intros l H1 H2. split_and!; [pose proof (keep_last_length limit l); lia|by apply Forall_drop|by apply varied_drop]. }
  destruct (appendHistory_cases prev audit retention now) as [-> | (_ & [-> | (e & He & -> & Hd)])].
  - split_and!; [cbn; lia|done|done].
  - by apply Hk.
  - apply Hk; [apply Forall_app; split; [by apply Forall_drop|by constructor]|]. apply varied_snoc; [by apply varied_drop|done].
Qed.

(** The history of a target stays bounded and useful through any sequence of
    writes: it never exceeds the retention (at most 100), holds only entries with a
    well-formed hash and phase, and no entry repeats the one before it; writing the
    same audit again changes nothing, so a quiet target never evicts its history. *)
Theorem history_bounded retention prev l : History prev = [] ->
  let s := writes_of retention prev l in
  (Z.of_nat (length (History s)) <= normalizeRetention retention <= MaxRetention /\ Forall published (History s) /\ varied (History s)) /\
  forall audit now now', let h := appendHistory (History s) audit retention now in appendHistory h audit retention now' = h.
Proof.
  intros He. cbv zeta. pose proof (normalizeRetention_nonneg retention) as Hr.
  assert (Hok : history_ok retention (History (writes_of retention prev l))).
  { induction l as [|[now s] l IH] using rev_ind; unfold writes_of in *; [cbn; rewrite He; split_and!; [cbn; lia|done|done]|].
    rewrite foldl_app. cbn [foldl fst snd]. destruct IH as (_ & H2 & H3). by apply appendHistory_ok. }
  destruct Hok as (H1 & H2 & H3). split; [split_and!; (done || lia)|].
  intros audit now now'. set (h0 := History (writes_of retention prev l)) in *. set (limit := Z.to_nat (normalizeRetention retention)).
  unfold appendHistory. cbv zeta. fold limit. destruct (Nat.eqb_spec limit 0) as [|Hn]; [done|]. rewrite (keep_last_short limit h0) by lia.
  destruct audit as [a|]; [|by rewrite !(keep_last_short limit h0) by lia].
  unfold audit_entry. destruct (sanitizePhase (Aud_Phase a)) as [p|]; [|by rewrite !(keep_last_short limit h0) by lia].
  destruct (sanitizePlanHash (Aud_PlanHash a) =s ""); [by rewrite !(keep_last_short limit h0) by lia|].
  set (e := mkAuditSummary _ _ (normalizedTime _ now) _). set (e' := mkAuditSummary _ _ (normalizedTime _ now') _).
  set (h := keep_last limit (add_entry h0 e)). assert (Hlh : (length h <= limit)%nat) by apply keep_last_length.
  rewrite (keep_last_short limit h) by done.
  assert (Hlast : exists x, last h = Some x /\ sameAuditResult x e' = true).
  { unfold h. rewrite keep_last_last by lia. unfold add_entry. destruct (last h0) as [x|] eqn:Ex.
    - destruct (sameAuditResult x e) eqn:Es; [by exists x|]. exists e. rewrite last_snoc. split; [done|]. exact (sameAuditResult_refl e).
    - exists e. rewrite last_snoc. split; [done|]. exact (sameAuditResult_refl e). }
  destruct Hlast as (x & Hx & Hs). unfold add_entry at 1. rewrite Hx, Hs. by apply keep_last_short.
Qed.

(** ** Writing *)

Section writer.
Context {W Raw : Type} (api : StatusAPI W Raw).

Lemma RetryOnConflict_ok n (fn : M W WriteError unit) w w' : RetryOnConflict n fn w = (w', Ok tt) -> exists w1, fn w1 = (w', Ok tt).
Proof.
  revert w. induction n as [|n IH]; intros w E; cbn in E; destruct (fn w) as [w1 [[]|[[]|]]] eqn:Ef; try done; try (injection E as <-; by eauto).
  destruct n; [done|by eapply IH].
Qed.

(** A write that succeeds published exactly the status the snapshot gives on
    top of the status that was read last, on the object that was read last (a
    conflicting write in between makes it start over from a new read), and touches
    nothing of the object but its status. *)
Theorem Write_publishes wr snapshot w w' : Write api wr snapshot w = (w', Ok tt) ->
  exists w0 raw w1 typed updated answer, current_status api wr w0 = (w1, Ok raw) /\ FromUnstructured api raw = Ok typed /\
    ToUnstructured api (with_target_status (buildStatus (Wr_retention wr) (Some (status_now api w1)) (SO_Status typed) snapshot) typed) = Ok updated /\
    status_UpdateStatus api updated w1 = (w', Ok answer).
Proof.
  intros E. apply RetryOnConflict_ok in E as (w0 & E). unfold write_once in E.
  apply bind_ok in E as (raw & w1 & Er & E). apply bind_ok in E as (typed & w2 & Et & E). apply wrap_ok, lift_ok in Et as [Et ->].
  apply bind_ok in E as (now & w3 & [= <- <-] & E). apply bind_ok in E as (updated & w4 & Eu & E). apply wrap_ok, lift_ok in Eu as [Eu ->].
  apply bind_ok in E as (answer & w5 & Ea & [= ->]). apply wrap_ok in Ea. exists w0, raw, w1, typed, updated, answer. by split_and!.
Qed.
End writer.
