(* ===== verification/Workers.v ===== *)
(** * internal/controller/heartbeat.go, platform_mapper.go, platform_semantic.go and platform_runtime.go: workers

    The liveness heartbeat, the mapping from events to targets, the fingerprints
    that decide whether an object has changed, and the worker that takes keys from
    the queue.  The informer cache of targets is its list of objects; the parts of
    a Kubernetes object that are marshalled whole are given by their JSON text. *)
From Stdlib Require Import String Ascii ZArith Lia.
From S2P Require Import Prelude Effects GoStrings NetIP GoEncoding Endpoint Queue Scheduling Client Sources Claims Settings Targets.
Open Scope string_scope.
Open Scope list_scope.
Open Scope Z_scope.
Open Scope go_scope.

(** ** heartbeat.go *)

(** Times on one clock; [None] is the zero time. *)
Record Heartbeat := mkHeartbeat { hb_active : bool; activeSince : option Z; lastAttempt : option Z }.

Definition NewHeartbeat : Heartbeat := mkHeartbeat false None None.

Definition SetActive (now : Z) (active : bool) (h : Heartbeat) : Heartbeat :=
  mkHeartbeat active (if active && negb (hb_active h) then Some now else activeSince h) (lastAttempt h).

Definition MarkAttempt (now : Z) (h : Heartbeat) : Heartbeat := mkHeartbeat (hb_active h) (activeSince h) (Some now).

(** [a.After(b)]. *)
Definition After (a b : option Z) : bool :=
  match a, b with Some x, Some y => y <? x | Some _, None => true | None, _ => false end.

(** [now.Sub(reference) <= window]; the zero time is further back than any window. *)
Definition Healthy (now window : Z) (h : Heartbeat) : bool :=
  if negb (hb_active h) then true
  else
    let reference := if After (activeSince h) (lastAttempt h) then activeSince h else lastAttempt h in
    match reference with Some t => now - t <=? window | None => false end.

(** ** platform_mapper.go *)

(** An object of the target informer: its identity, what it decodes to, and the
    text of [spec.debounce]. *)
Record CachedTarget := mkCachedTarget {
  CT_Namespace : string; CT_Name : string; CT_UID : string; CT_Generation : Z; CT_Decoded : option TargetSpec;
  CT_Debounce : option string }.

(** The informer's store: [None] without an informer; an item of another type is [None]. *)
Definition TargetCache : Type := option (list (option CachedTarget)).

Definition zeroSpec : TargetSpec :=
  mkTargetSpec "" "" "" (mkSecretRef "" "" None) None false "" "" [] [] [] [] "" false "" false 0 0 0 0 0 false false.

Definition target_less (a b : TargetObject) : bool :=
  if negb (TO_Namespace a =s TO_Namespace b) then TO_Namespace a <s TO_Namespace b else TO_Name a <s TO_Name b.

Fixpoint decode_targets (includeInvalid : bool) (items : list (option CachedTarget)) : result string (list TargetObject) :=
  match items with
  | [] => Ok []
  | None :: _ => Err "target informer returned another type"
  | Some c :: rest =>
      let? rest := decode_targets includeInvalid rest in
      match CT_Decoded c with
      | Some spec => Ok (mkTargetObject (CT_Namespace c) (CT_Name c) (CT_UID c) "" (CT_Generation c) spec :: rest)
      | None => Ok (if includeInvalid
                    then mkTargetObject (CT_Namespace c) (CT_Name c) (CT_UID c) "" (CT_Generation c) zeroSpec :: rest else rest)
      end
  end.

Definition listTargets (targets : TargetCache) (includeInvalid : bool) : result string (list TargetObject) :=
  match targets with
  | None => Err "target informer is unavailable"
  | Some items => let? result := decode_targets includeInvalid items in Ok (sort_slice target_less result)
  end.

Definition containsFold (values : list string) (value : string) : bool :=
  existsb (fun c => EqualFold (TrimSpace c) (TrimSpace value)) values.

Definition mapper_sourceSelected (sources : list string) (source : string) : bool :=
  match sources with
  | [] => (source =s "service") || (source =s "ingress") || (source =s "gateway")
  | _ => containsFold sources source
  end.

Definition namespaceSelected (namespaces : list string) (namespace : string) : bool :=
  bool_decide (namespaces = []) || containsFold namespaces namespace.

Definition targetAffectedByEvent (target : TargetObject) (event : Event) : bool :=
  let spec := TO_Spec target in
  let ns := Ev_Namespace event in
  match Ev_Kind event with
  | EventSecret =>
      if negb (TO_Namespace target =s ns) then false
      else (SR_Name (T_APITokenSecretRef spec) =s Ev_Name event)
           || match T_CARef spec with Some r => EqualFold (LR_Kind r) "Secret" && (LR_Name r =s Ev_Name event) | None => false end
  | EventPolicy => namespaceSelected (T_Namespaces spec) ns
  | EventService => mapper_sourceSelected (T_Sources spec) "service" && namespaceSelected (T_Namespaces spec) ns
  | EventEndpointSlice =>
      T_HeadlessEnabled spec && mapper_sourceSelected (T_Sources spec) "service" && namespaceSelected (T_Namespaces spec) ns
  | EventIngress => mapper_sourceSelected (T_Sources spec) "ingress" && namespaceSelected (T_Namespaces spec) ns
  | EventGateway =>
      mapper_sourceSelected (T_Sources spec) "gateway"
      && (namespaceSelected (T_Namespaces spec) ns || containsFold (T_GatewayTargetNamespaces spec) ns)
  | EventHTTPRoute => mapper_sourceSelected (T_Sources spec) "gateway" && namespaceSelected (T_Namespaces spec) ns
  | _ => false
  end.

Section mapper.
Context `{KeyValidation} (targets : TargetCache).

(** The keys of a list of targets, the first invalid one being an error. *)
Fixpoint target_keys (l : list TargetObject) : result string (list TargetKey) :=
  match l with
  | [] => Ok []
  | t :: rest => let? key := NewTargetKey (TO_Namespace t) (TO_Name t) in let? keys := target_keys rest in Ok (key :: keys)
  end.

Definition TargetsForEvent (event : Event) : result string (list TargetKey) :=
  match Ev_Kind event with
  | EventTarget => let? key := NewTargetKey (Ev_Namespace event) (Ev_Name event) in Ok [key]
  | EventOwnership | EventChangePlan =>
      if RelatedTarget event =s "" then Ok []
      else let? key := NewTargetKey (Ev_Namespace event) (RelatedTarget event) in Ok [key]
  | _ =>
      let? l := listTargets targets false in
      let? keys := target_keys (filter (fun t => targetAffectedByEvent t event = true) l) in
      Ok (sort_by_key TargetKey_String keys)
  end.

Definition ListTargetKeys : result string (list TargetKey) :=
  let? l := listTargets targets true in let? keys := target_keys l in Ok (sort_by_key TargetKey_String keys).

Fixpoint target_schedules (l : list TargetObject) : result string (list TargetSchedule) :=
  match l with
  | [] => Ok []
  | t :: rest =>
      let? key := NewTargetKey (TO_Namespace t) (TO_Name t) in
      let? schedules := target_schedules rest in
      Ok (mkSchedule key (TO_UID t +:+ "/" +:+ FormatInt (TO_Generation t)) (Z.max (T_Interval (TO_Spec t)) 0) :: schedules)
  end.

Definition ListTargetSchedules : result string (list TargetSchedule) := let? l := listTargets targets true in target_schedules l.

Definition has_key (key : TargetKey) (c : option CachedTarget) : bool :=
  match c with Some c => bool_decide (mkTargetKey (CT_Namespace c) (CT_Name c) = key) | None => false end.

(** [GetByKey]. *)
Definition cached_by_key (key : TargetKey) : option (option CachedTarget) :=
  match targets with
  | None => None
  | Some items => head (filter (fun c => has_key key c = true) items)
  end.

Definition HasTarget (key : TargetKey) : bool := bool_decide (is_Some (cached_by_key key)).

Definition TargetDebounce (key : TargetKey) : Z :=
  match cached_by_key key with
  | Some (Some c) =>
      match CT_Debounce c with
      | Some raw => match ParseDuration raw with Some d => if d <=? 0 then 0 else d | None => 0 end
      | None => 0
      end
  | _ => 0
  end.
End mapper.

(** ** platform_semantic.go *)

Definition Labels : Type := option (gmap string string).   (* [None] is a nil map *)

Definition canonicalJSON (j : json) : string := Marshal j.
Definition json_string_map (m : Labels) : json :=
  match m with
  | None => JNull
  | Some m => JObject ((fun k => (k, JString (default "" (m !! k)))) <$> sort_strings ((map_to_list m).*1))
  end.

Definition canonicalSlice {A} (to_json : A -> json) (values : list A) : string :=
  canonicalJSON (JArray (JString <$> sort_strings ((fun v => canonicalJSON (to_json v)) <$> values))).

(** What counts of a condition of a route's parent. *)
Record semanticCondition := mkSemanticCondition { SC_Type : string; SC_Status : string; SC_ObservedGeneration : Z }.
Definition semanticCondition_json (c : semanticCondition) : json :=
  JObject [("type", JString (SC_Type c)); ("status", JString (SC_Status c)); ("observedGeneration", JInt (SC_ObservedGeneration c))].

(** A parent of a route, with the JSON of its reference; an endpoint of a slice, with the JSON of its conditions. *)
Record RouteParent := mkRouteParent { RP_ParentRef : json; RP_Conditions : list semanticCondition }.
Record SliceEndpoint := mkSliceEndpoint { SE_Addresses : list string; SE_Conditions : json }.

Definition relevant_condition (c : semanticCondition) : bool := (SC_Type c =s "Accepted") || (SC_Type c =s "ResolvedRefs").
Definition relevantRouteParent (p : RouteParent) : RouteParent :=
  mkRouteParent (RP_ParentRef p)
    (sort_by_key (fun c => canonicalJSON (semanticCondition_json c)) (filter (fun c => relevant_condition c = true) (RP_Conditions p))).
Definition relevantRouteParents (parents : list RouteParent) : list RouteParent := relevantRouteParent <$> parents.
Definition routeParent_json (p : RouteParent) : json :=
  JObject (("parentRef", RP_ParentRef p)
    :: (if bool_decide (RP_Conditions p = []) then [] else [("conditions", JArray (semanticCondition_json <$> RP_Conditions p))])).

Definition relevantSliceEndpoint (e : SliceEndpoint) : SliceEndpoint := mkSliceEndpoint (sort_strings (SE_Addresses e)) (SE_Conditions e).
Definition relevantSliceEndpoints (endpoints : list SliceEndpoint) : list SliceEndpoint := relevantSliceEndpoint <$> endpoints.
Definition sliceEndpoint_json (e : SliceEndpoint) : json :=
  JObject [("addresses", if bool_decide (SE_Addresses e = []) then JNull else JArray (JString <$> SE_Addresses e)); ("conditions", SE_Conditions e)].

(** What is looked at of an object, by kind; parts that are marshalled whole are given as JSON. *)
Inductive SemanticObject :=
| SemService (labels annotations : Labels) (spec : json) (ingress : list json)
| SemIngress (labels annotations : Labels) (spec : json) (ingress : list json)
| SemGateway (labels annotations : Labels) (spec : json) (addresses : list json)
| SemHTTPRoute (labels annotations : Labels) (spec : json) (parents : list RouteParent)
| SemEndpointSlice (serviceName addressType : string) (endpoints : list SliceEndpoint)
| SemSecret (uid resourceVersion : string)
| SemTarget (spec : json)
| SemPolicy (spec : json)
| SemOwnership (spec : json) (phase providerRevision targetRef : string)
| SemChangePlan (spec : json) (approval targetRef : string).

Record SemanticMeta := mkSemanticMeta { SM_Namespace : string; SM_Name : string; SM_Generation : Z; SM_Deleting : bool; SM_Object : SemanticObject }.

Definition semantic_kind (o : SemanticObject) : EventKind :=
  match o with
  | SemService _ _ _ _ => EventService | SemIngress _ _ _ _ => EventIngress | SemGateway _ _ _ _ => EventGateway
  | SemHTTPRoute _ _ _ _ => EventHTTPRoute | SemEndpointSlice _ _ _ => EventEndpointSlice | SemSecret _ _ => EventSecret
  | SemTarget _ => EventTarget | SemPolicy _ => EventPolicy | SemOwnership _ _ _ _ => EventOwnership | SemChangePlan _ _ _ => EventChangePlan
  end.

Definition addSourceMetadata (labels annotations : Labels) (fields : gmap string string) : gmap string string :=
  <["annotations" := canonicalJSON (json_string_map annotations)]> (<["labels" := canonicalJSON (json_string_map labels)]> fields).

Definition object_fields (o : SemanticObject) (fields : gmap string string) : gmap string string :=
  match o with
  | SemService labels annotations spec ingress | SemIngress labels annotations spec ingress =>
      <["loadBalancer" := canonicalSlice (fun j => j) ingress]> (<["spec" := canonicalJSON spec]> (addSourceMetadata labels annotations fields))
  | SemGateway labels annotations spec addresses =>
      <["addresses" := canonicalSlice (fun j => j) addresses]> (<["spec" := canonicalJSON spec]> (addSourceMetadata labels annotations fields))
  | SemHTTPRoute labels annotations spec parents =>
      <["parents" := canonicalSlice routeParent_json (relevantRouteParents parents)]>
        (<["spec" := canonicalJSON spec]> (addSourceMetadata labels annotations fields))
  | SemEndpointSlice service addressType endpoints =>
      <["endpoints" := canonicalSlice sliceEndpoint_json (relevantSliceEndpoints endpoints)]>
        (<["addressType" := addressType]> (<["serviceName" := service]> fields))
  | SemSecret uid rv => <["resourceVersion" := rv]> (<["uid" := uid]> fields)
  | SemTarget spec | SemPolicy spec => <["spec" := canonicalJSON spec]> fields
  | SemOwnership spec phase revision _ => <["providerRevision" := revision]> (<["phase" := phase]> (<["spec" := canonicalJSON spec]> fields))
  | SemChangePlan spec approval _ => <["approval" := approval]> (<["spec" := canonicalJSON spec]> fields)
  end.

Definition semantic_fields (m : SemanticMeta) : gmap string string :=
  object_fields (SM_Object m) (<["generation" := FormatInt (SM_Generation m)]> {["deleting" := FormatBool (SM_Deleting m)]}).

Definition relatedTarget (o : SemanticObject) : string :=
  match o with SemOwnership _ _ _ t | SemChangePlan _ _ t => t | _ => "" end.

Section semantic.
Context `{MapRange}.

Definition semanticObjectFingerprint (kind : EventKind) (m : SemanticMeta) : result string string :=
  if negb (bool_decide (semantic_kind (SM_Object m) = kind)) then Err "unexpected event object"
  else NewSemanticFingerprint kind (semantic_fields m).

Definition optional_fingerprint (kind : EventKind) (m : option SemanticMeta) : result string string :=
  match m with Some m => semanticObjectFingerprint kind m | None => Ok "" end.

Definition semanticEvent (kind : EventKind) (action : EventAction) (oldObject newObject : option SemanticMeta) : result string Event :=
  match (match newObject with Some m => Some m | None => oldObject end) with
  | None => Err "read event identity"
  | Some identity =>
      let? old := optional_fingerprint kind oldObject in
      let? new := optional_fingerprint kind newObject in
      Ok (mkEvent kind action (SM_Namespace identity) (SM_Name identity) (relatedTarget (SM_Object identity)) old new)
  end.
End semantic.

(** ** platform_informers.go: the informers of a scope *)

(** The parts of [PlatformRuntimeConfig] that decide which informers there are. *)
Record PlatformRuntimeConfig := mkRuntimeConfig {
  PC_Namespace : string; PC_Sources : list string; PC_SourceNamespaces : list string; PC_GatewayNamespaces : list string;
  PC_Headless : bool; PC_Policy : bool; PC_Ownership : bool; PC_PlanApproval : bool }.

(** An informer watches the objects of a kind in a namespace, or in all of them. *)
Definition NamespaceAll : string := "".
Record informerBinding := mkBinding { B_Kind : EventKind; B_Namespace : string }.

Definition normalizedSet (values : list string) : gset string := list_to_set ((fun v => ToLower (TrimSpace v)) <$> values).

Definition informerNamespaces (values : list string) : list string :=
  let set := list_to_set (filter (fun v => v <> "") (TrimSpace <$> values)) : gset string in
  if bool_decide (set = ∅) then [NamespaceAll] else sort_strings (elements set).

Definition informerNamespaceSelected (sourceNamespaces : list string) (namespace : string) : bool :=
  bool_decide (informerNamespaces sourceNamespaces = [NamespaceAll]) || existsb (fun c => TrimSpace c =s namespace) sourceNamespaces.

(** [has_core], [has_gateway], [has_dynamic]: which clients there are. *)
Definition newInformerFactories (has_core has_gateway has_dynamic : bool) (config : PlatformRuntimeConfig) : result string (list informerBinding) :=
  if negb has_dynamic then Err "dynamic client is required"
  else if PC_Namespace config =s "" then Err "controller namespace is required"
  else
    let enabled s := bool_decide (s ∈ normalizedSet (PC_Sources config)) in
    if (enabled "service" || enabled "ingress") && negb has_core then Err "kubernetes client is required for enabled sources"
    else if enabled "gateway" && negb has_gateway then Err "gateway API client is required for gateway source"
    else
      let sources := informerNamespaces (PC_SourceNamespaces config) in
      let gatewayNamespaces := if bool_decide (sources = [NamespaceAll]) then [] else PC_SourceNamespaces config ++ PC_GatewayNamespaces config in
      Ok ((sources ≫= fun ns =>
             (if enabled "service" then mkBinding EventService ns :: (if PC_Headless config then [mkBinding EventEndpointSlice ns] else []) else [])
             ++ (if enabled "ingress" then [mkBinding EventIngress ns] else []))
          ++ (if enabled "gateway"
              then informerNamespaces gatewayNamespaces ≫= fun ns =>
                     mkBinding EventGateway ns
                     :: (if informerNamespaceSelected (PC_SourceNamespaces config) ns then [mkBinding EventHTTPRoute ns] else [])
              else [])
          ++ [mkBinding EventTarget (PC_Namespace config)]
          ++ (if PC_Ownership config then [mkBinding EventOwnership (PC_Namespace config)] else [])
          ++ (if PC_PlanApproval config then [mkBinding EventChangePlan (PC_Namespace config)] else [])
          ++ (if PC_Policy config then mkBinding EventPolicy <$> sources else [])).

(** The requirement of a kind: every informer of it has synchronized.  The kinds
    are ranged over as a map. *)
Definition kind_synced (synced : informerBinding -> bool) (bindings : list informerBinding) (kind : EventKind) : CacheRequirement :=
  mkCacheRequirement kind (Some (forallb synced (filter (fun b => B_Kind b = kind) bindings))).

Definition SyncGate (range : list EventKind -> list EventKind) (synced : informerBinding -> bool) (bindings : list informerBinding)
    : result string (list CacheRequirement) :=
  NewCacheSyncGate (kind_synced synced bindings <$> range (remove_dups (B_Kind <$> bindings))).

(** ** platform_runtime.go: the worker *)

Inductive ProcessError :=
| ErrGate (e : string) | ErrContext | ErrScopeChanged | ErrExecutor (e : string).

Record TargetAudit (S : Type) := mkTargetAudit {
  CleanupCapable : bool; TA_DiscoveryComplete : bool; TA_ProviderSnapshotStable : bool; TA_State : S }.
Arguments mkTargetAudit {S} _ _ _ _.
Arguments CleanupCapable {S} _.
Arguments TA_DiscoveryComplete {S} _.
Arguments TA_ProviderSnapshotStable {S} _.
Arguments TA_State {S} _.

Section worker.
Context {W S : Type}.

(** The executor, the gate of the caches and the context, on one world. *)
Record WorkerEnv := mkWorkerEnv {
  ex_Audit : TargetKey -> M W ProcessError (TargetAudit S);
  ex_Apply : TargetKey -> TargetAudit S -> M W ProcessError unit;
  cache_gate : W -> option (list CacheRequirement);
  ctx_done : W -> bool }.

Context (env : WorkerEnv).

Definition gate_check (f : option (list CacheRequirement) -> option string) : M W ProcessError unit :=
  fun w => (w, match f (cache_gate env w) with Some e => Err (ErrGate e) | None => Ok tt end).
Definition ctx_check : M W ProcessError unit := fun w => (w, if ctx_done env w then Err ErrContext else Ok tt).

Definition processTarget (key : TargetKey) : M W ProcessError unit :=
  do! gate_check RequireSynchronized in
  do! ctx_check in
  let! audit := ex_Audit env key in
  do! (if CleanupCapable audit
       then gate_check (fun g => RequireCleanupSafety g (TA_DiscoveryComplete audit) (TA_ProviderSnapshotStable audit))
       else ret tt) in
  do! ctx_check in
  ex_Apply env key audit.

Context {Q : Type} `{ClientQueue Q} `{KeyValidation} (when : TargetKey -> Q -> Q * Z) (cache : W -> TargetCache).

Definition is_scope_change (r : result ProcessError unit) : bool := match r with Err ErrScopeChanged => true | _ => false end.

Inductive WorkerOutcome := WorkerContinues | WorkerStops | WorkerBlocked.

(** One turn of the loop of [runWorker]: [Get] has delivered a key. *)
Definition worker_turn (key : TargetKey) (w : W) (q : TargetQueue Q) : W * TargetQueue Q * WorkerOutcome :=
  if negb (HasTarget (cache w) key) then (w, (Complete when key false (ForgetTarget key q)).1, WorkerContinues)
  else
    let '(w, r) := processTarget key w in
    (w, (Complete when key (negb (is_ok r)) q).1, if is_scope_change r then WorkerStops else WorkerContinues).

Definition runWorker_step (w : W) (q : TargetQueue Q) : W * TargetQueue Q * WorkerOutcome :=
  match get_step q with
  | None => (w, q, WorkerBlocked)
  | Some (q, Closed) => (w, q, WorkerStops)
  | Some (q, Again) => (w, q, WorkerContinues)
  | Some (q, Deliver key) => worker_turn key w q
  end.
End worker.
Arguments WorkerEnv W S : clear implicits.
