(* ===== verification/Platform.v ===== *)
(** * cmd/fortigate-external-dns/platform.go: target mode

    Loading the targets of the cluster, keeping their runtimes in step, the
    settings each target runs with, the scope of the informers, the authority
    checked before every mutation, the polling cycle, and what the status of a
    target says.  The API server, the status objects and the clock are operations
    on a world. *)
From Stdlib Require Import String Ascii ZArith Lia.
From S2P Require Import Prelude Effects GoStrings NetIP GoEncoding Endpoint Plan Document Queue Scheduling Client Sources Policy Gateways Runner.
From S2P Require Import ChangePlans Apply Claims Settings Targets Runtimes StatusWriter Workers.
Open Scope string_scope.
Open Scope list_scope.
Open Scope Z_scope.
Open Scope go_scope.

(** ** The settings of a target *)

(** [platformClientFactory.NewClient]: the connection of a target. *)
Definition provider_config (d : Definition_) (m : CredentialMaterial) : FortiGateConfig :=
  mkFortiGateConfig (D_URL d) (apiToken m) (if D_VDOM d =s "" then "root" else D_VDOM d) (D_Zone d) (D_InsecureSkipVerify d)
    (D_OwnershipMode d =s OwnershipModeExclusive) "" (caBundle m) (if D_Timeout d <=? 0 then DefaultTimeout else D_Timeout d) (D_Retries d).

(** [targetConfig] of [buildTargetRunner]. *)
Definition target_settings (root : Settings) (d : Definition_) : Settings :=
  mkSettings (Cfg_Provider root) (Cfg_Kubeconfig root) true (D_DryRun d) "" false "" false (Cfg_PlatformNamespace root)
    (Cfg_PolicyEnforcement root) (Cfg_EventDriven root) (Cfg_Debounce root) (Cfg_Resync root) (Cfg_StatusRetention root)
    (Cfg_PlanRetention root) (Cfg_PublishExternalName root && D_ExternalNameEnabled d) (Cfg_PublishHeadless root && D_HeadlessEnabled d)
    (if 0 <? D_Interval d then D_Interval d else Cfg_Interval root) (Cfg_ReconcileTimeout root) (D_Sources d) (D_Namespaces d)
    (D_GatewayTargetNamespaces d) (D_DomainFilters d) (if 0 <? D_DefaultTTL d then D_DefaultTTL d else Cfg_DefaultTTL root)
    (D_ControllerID d) (D_CleanupPolicy d) (Cfg_MetricsAddr root) (Cfg_LeaderElection root) (Cfg_LeaderElectionID root)
    (Cfg_LeaderElectionNamespace root) (Cfg_LogFormat root) (Cfg_LogLevel root) (Cfg_HealthzMaxStaleness root)
    (Cfg_AllowEmptyDesiredCleanup root) (Cfg_MaxCleanupPerCycle root)
    (mkFortiGateConfig "" "" (D_VDOM d) (D_Zone d) false (D_OwnershipMode d =s OwnershipModeExclusive) "" "" 0 0)
    (Cfg_APITokenFromFlag root).

(** What a runner reads of its settings. *)
Definition runner_config (c : Settings) : RunnerConfig :=
  mkRunnerConfig (Cfg_Sources c) (Cfg_Namespaces c) (Cfg_GatewayTargetNamespaces c) (Cfg_DomainFilters c) (Cfg_DefaultTTL c)
    (Cfg_OwnerID c) (Cfg_CleanupPolicy c) (Cfg_PublishExternalName c) (Cfg_PublishHeadless c) (Cfg_DryRun c)
    (Cfg_AllowEmptyDesiredCleanup c) (Cfg_MaxCleanupPerCycle c) (FG_ExclusiveZoneOwnership (Cfg_FortiGate c))
    (FG_VDOM (Cfg_FortiGate c)) (FG_Zone (Cfg_FortiGate c)) (Cfg_PlanOutput c) (Cfg_ApprovedPlanHash c).

(** What [buildTargetRunner] decides beside the settings. *)
Record TargetRunner := mkTargetRunner {
  TR_Config : Settings; TR_Shared : bool; TR_TargetName : string; TR_Identity : TargetIdentity; TR_Policies : bool;
  TR_ApprovalRequired : bool; TR_PlanNamespace : string; TR_PlanRetention : Z; TR_RequireStableRevision : bool }.

(** [has_claims], [has_plans]: whether the runtime's stores are of the expected
    type.  The error is the reason of [target.Fail]. *)
Definition buildTargetRunner (root : Settings) (d : Definition_) (has_claims has_plans : bool) : result string TargetRunner :=
  let shared := D_OwnershipMode d =s OwnershipModeShared in
  if shared && negb has_claims then Err FailureOwnership
  else
    let approval := D_ApprovalMode d =s ApprovalModeRequired in
    if approval && negb has_plans then Err FailureApproval
    else Ok (mkTargetRunner (target_settings root d) shared (D_Name d)
               (mkTargetIdentity (D_Namespace d) (D_Name d) (D_UID d) (D_Generation d) (D_VDOM d) (D_Zone d))
               (Cfg_PolicyEnforcement root) approval (if approval then D_Namespace d else "")
               (if approval then Cfg_PlanRetention root else 0) true).

(** ** The scope of the informers *)

Record platformScope := mkScope {
  sc_sources : list string; sc_namespaces : list string; sc_gatewayNamespaces : list string;
  sc_headless : bool; sc_ownership : bool; sc_planApproval : bool }.

(** [source.Options{Sources: ...}]. *)
Definition options_of_sources (sources : list string) : Options := mkOptions sources [] [] [] 0 "" "" false false None 0 0.

Definition source_set (ds : list Definition_) : gset string :=
  list_to_set (d ← ds; filter (fun s => SourceEnabled (options_of_sources (D_Sources d)) s = true) [SourceService; SourceIngress; SourceGateway]).
Definition namespace_set (ds : list Definition_) : gset string := list_to_set (ds ≫= D_Namespaces).
Definition gateway_set (ds : list Definition_) : gset string := list_to_set (ds ≫= D_GatewayTargetNamespaces).

Definition platformEventScope (root : Settings) (ds : list Definition_) : platformScope :=
  let allNamespaces := existsb (fun d => bool_decide (D_Namespaces d = [])) ds in
  mkScope (sort_strings (elements (source_set ds)))
    (if allNamespaces then [] else sort_strings (elements (namespace_set ds)))
    (sort_strings (elements (gateway_set ds)))
    (existsb (fun d => Cfg_PublishHeadless root && D_HeadlessEnabled d) ds)
    (existsb (fun d => D_OwnershipMode d =s OwnershipModeShared) ds)
    (existsb (fun d => D_ApprovalMode d =s ApprovalModeRequired) ds).

Definition platformScopesEqual (l r : platformScope) : bool :=
  bool_decide (sc_sources l = sc_sources r) && bool_decide (sc_namespaces l = sc_namespaces r)
  && bool_decide (sc_gatewayNamespaces l = sc_gatewayNamespaces r) && Bool.eqb (sc_headless l) (sc_headless r)
  && Bool.eqb (sc_ownership l) (sc_ownership r) && Bool.eqb (sc_planApproval l) (sc_planApproval r).

(** ** Conditions *)

(** The sentinels an error of an audit may wrap, and the reason it may carry. *)
Inductive Sentinel := SentProviderConflict | SentClaimConflict | SentDuplicateClaim | SentOwnershipApproval | SentPlanApproval
| SentCanceled | SentDeadlineExceeded.
#[export] Instance Sentinel_eq_dec : EqDecision Sentinel.
Proof. solve_decision. Defined.
Record AuditError := mkAuditError { targetErrorReason : option string; wraps_sentinel : list Sentinel }.

Definition has_reason (e : option AuditError) (reason : string) : bool :=
  match e with Some e => bool_decide (targetErrorReason e = Some reason) | None => false end.
Definition errors_Is (e : option AuditError) (s : Sentinel) : bool :=
  match e with Some e => bool_decide (s ∈ wraps_sentinel e) | None => false end.

Definition isOwnershipError (e : option AuditError) : bool :=
  has_reason e FailureOwnership || errors_Is e SentProviderConflict || errors_Is e SentClaimConflict || errors_Is e SentDuplicateClaim.
Definition isApprovalError (e : option AuditError) : bool :=
  has_reason e FailureApproval || errors_Is e SentOwnershipApproval || errors_Is e SentPlanApproval.

(** Where the reconcile stopped, when no fixed reason says it. *)
Definition stopped_at (audit : option ReconcileAudit) : string :=
  match audit with
  | None => ReasonProviderUnavailable
  | Some a => if negb (PolicyComplete a) then ReasonPolicyRejected
              else if negb (DiscoveryComplete a) then ReasonDiscoveryIncomplete else ReasonApplyFailed
  end.

Definition readyFailureReason (audit : option ReconcileAudit) (e : option AuditError) : string :=
  if isOwnershipError e then ReasonOwnershipConflict
  else if isApprovalError e then ReasonPendingApproval
  else if has_reason e FailurePolicy then ReasonPolicyRejected
  else if has_reason e FailureCredentials then ReasonCredentialsUnavailable
  else if has_reason e FailureClient || has_reason e FailureInvalid then ReasonInvalidConfiguration
  else stopped_at audit.

Definition state_of (generation : Z) (ok : bool) (success failure : string) : ConditionState :=
  mkConditionState (if ok then ConditionTrue else ConditionFalse) (if ok then success else failure) generation "".

Definition audit_holds (audit : option ReconcileAudit) (f : ReconcileAudit -> bool) : bool :=
  match audit with Some a => f a | None => false end.

Definition ownership_state (generation : Z) (audit : option ReconcileAudit) (e : option AuditError) : ConditionState :=
  if isOwnershipError e || audit_holds audit (fun a => 0 <? ConflictCount a)
  then state_of generation false ReasonOwnershipHealthy ReasonOwnershipConflict
  else match audit with
       | Some _ => state_of generation true ReasonOwnershipHealthy ReasonOwnershipConflict
       | None => mkConditionState ConditionUnknown ReasonUnknown generation ""
       end.

Definition plan_state (generation : Z) (approvalRequired : bool) (audit : option ReconcileAudit) (planApproved : bool) (e : option AuditError)
    : ConditionState :=
  if negb (bool_decide (is_Some audit)) && negb (isApprovalError e) then mkConditionState ConditionUnknown ReasonUnknown generation ""
  else if negb approvalRequired || audit_holds audit (fun a => (length (Audit_Operations a) =? 0)%nat)
       then state_of generation true StatusWriter.ReasonPlanApproved ReasonPendingApproval
       else state_of generation planApproved StatusWriter.ReasonPlanApproved ReasonPendingApproval.

Definition is_ready (audit : option ReconcileAudit) (e : option AuditError) : bool :=
  bool_decide (e = None) && audit_holds audit PolicyComplete.

Definition targetConditions (generation : Z) (approvalRequired : bool) (audit : option ReconcileAudit) (planApproved : bool)
    (e : option AuditError) : gmap string ConditionState :=
  let ready := is_ready audit e in
  list_to_map
    [(ConditionReady, state_of generation ready ReasonReady (readyFailureReason audit e));
     (ConditionDiscoveryComplete, state_of generation (audit_holds audit DiscoveryComplete) ReasonDiscoveryComplete ReasonDiscoveryIncomplete);
     (ConditionProviderReachable,
      state_of generation (audit_holds audit (fun a => ProviderSnapshotStable a && negb (Audit_ProviderRevision a =s "")))
        ReasonProviderReachable ReasonProviderUnavailable);
     (ConditionOwnershipHealthy, ownership_state generation audit e);
     (ConditionPolicyAccepted, state_of generation (audit_holds audit PolicyComplete) ReasonPolicyAccepted ReasonPolicyRejected);
     (ConditionPlanApproved, plan_state generation approvalRequired audit planApproved e);
     (ConditionDriftFree,
      state_of generation (ready && audit_holds audit (fun a => (length (Audit_Operations a) =? 0)%nat)) ReasonDriftFree ReasonDriftDetected)].

Definition failure_state (generation : Z) (reason : string) : ConditionState := mkConditionState ConditionFalse reason generation "".

Definition setupFailureConditions (generation : Z) (reason : string) : gmap string ConditionState :=
  if reason =s FailureCredentials then {[ConditionReady := failure_state generation ReasonCredentialsUnavailable]}
  else if (reason =s FailureInvalid) || (reason =s FailureClient) then {[ConditionReady := failure_state generation ReasonInvalidConfiguration]}
  else if reason =s FailureConflict then
    {[ConditionReady := failure_state generation ReasonOwnershipConflict;
      ConditionOwnershipHealthy := failure_state generation ReasonOwnershipConflict]}
  else {[ConditionReady := failure_state generation ReasonApplyFailed]}.

(** [int32(n)]. *)
Definition wrap_int32 (n : Z) : Z := (n + 2 ^ 31) mod 2 ^ 32 - 2 ^ 31.

(** The snapshot [writeTargetStatus] writes. *)
Definition target_snapshot (now : Z) (generation : Z) (conditions : gmap string ConditionState) (audit : option ReconcileAudit)
    (e : option AuditError) (applied : bool) : StatusSnapshot :=
  let counts a := mkCounts (wrap_int32 (DesiredCount a)) (wrap_int32 (CurrentCount a)) (wrap_int32 (Z.of_nat (length (Audit_Operations a))))
                    (wrap_int32 (ConflictCount a)) in
  mkStatusSnapshot generation (match audit with Some a => Audit_ProviderRevision a | None => "" end)
    (match audit with Some a => counts a | None => mkCounts 0 0 0 0 end)
    (match audit with Some a => Audit_PlanHash a | None => "" end) (Some now) (if applied then Some (Some now) else None) conditions
    (match audit with
     | Some a => Some (mkStatusAudit (Audit_PlanHash a) (if bool_decide (e = None) then "Succeeded" else "Failed") (Some now) (counts a))
     | None => None
     end).

(** ** Loading, synchronizing, authorizing *)

(** An item of the list of targets: its identity, and what it decodes to. *)
Record ListedTarget := mkListedTarget { LT_Namespace : string; LT_Name : string; LT_Generation : Z; LT_Decoded : option TargetObject }.

Inductive LoadError := ErrListTargets (e : APIError) | ErrDirectSettings (e : string).

(** [load_reasons]: the reason of each invalid target whose error is one of credentials. *)
Record targetLoad := mkLoad {
  load_definitions : list Definition_; load_invalid : gmap string InvalidTarget; load_reasons : gmap string CredentialReason }.

Section platform.
Context {W Raw : Type} `{KeyValidation} `{Platform}.

Record PlatformEnv := mkPlatformEnv {
  list_targets : string -> M W APIError (list ListedTarget);               (* namespace *)
  get_target : string -> string -> M W APIError (string * Z);              (* UID and generation of the live object *)
  status_api : string -> StatusAPI W Raw;
  managed : ManagerEnv W;
  recorder_readiness : string -> bool -> W -> W;
  RecordReconcile : bool -> W -> W;                                        (* whether there was an error *)
  heartbeat_MarkAttempt : W -> W;
  sleepContext : Z -> W -> W * bool;                                       (* false: the context ended *)
  platform_now : W -> Z;
  context_ended : W -> bool }.

Context (cfg : Settings) (env : PlatformEnv).

Definition decode_step (st : list TargetObject * gmap string InvalidTarget) (item : ListedTarget) : list TargetObject * gmap string InvalidTarget :=
  match LT_Decoded item with
  | Some o => (st.1 ++ [o], st.2)
  | None =>
      let i := mkInvalidTarget (LT_Namespace item) (LT_Name item) (LT_Generation item) FailureInvalid (InvalidConfiguration "decode target") in
      (st.1, <[Inv_Key i := i]> st.2)
  end.

(** Targets whose credentials do not resolve leave before scopes are compared. *)
Fixpoint preflight (objects : list TargetObject) (w : W) : W * (list TargetObject * gmap string (InvalidTarget * CredentialReason)) :=
  match objects with
  | [] => (w, ([], ∅))
  | o :: rest =>
      let d := FromAPI o in
      match ValidateAll [d] with
      | (_, Err _) => let '(w, (eligible, bad)) := preflight rest w in (w, (o :: eligible, bad))
      | (_, Ok _) =>
          match CheckCredentials (managed env) d w with
          | (w, Ok _) => let '(w, (eligible, bad)) := preflight rest w in (w, (o :: eligible, bad))
          | (w, Err reason) =>
              let '(w, (eligible, bad)) := preflight rest w in
              let i := invalid_of d FailureCredentials (InvalidConfiguration "target credentials are unavailable") in
              (w, (eligible, bad ∪ {[Inv_Key i := (i, reason)]}))
          end
      end
  end.

Definition loadTargetDefinitions (m : RuntimeManager) : M W LoadError targetLoad :=
  let! items := wrap ErrListTargets (list_targets env (Cfg_PlatformNamespace cfg)) in
  let '(objects, undecodable) := foldl decode_step ([], ∅) items in
  fun w =>
    let '(w, (eligible, bad)) := preflight objects w in
    match BuildIsolatedDefinitionsWithActive cfg eligible (ActiveDefinitions m) with
    | Err e => (w, Err (ErrDirectSettings e))
    | Ok set => (w, Ok (mkLoad (Valid set) (((fst <$> bad) ∪ undecodable) ∪ Invalid set) (snd <$> bad)))
    end.

(** [writeSetupFailureStatus]; a failed write is only logged. *)
Definition writeSetupFailureStatus (namespace name : string) (generation : Z) (reason : string) (w : W) : W :=
  match NewWriter namespace name (wrap_int32 (Cfg_StatusRetention cfg)) with
  | Err _ => w
  | Ok wr => (Write (status_api env namespace) wr
                (mkStatusSnapshot generation "" (mkCounts 0 0 0 0) "" (Some (platform_now env w)) None (setupFailureConditions generation reason) None) w).1
  end.

Definition identity_of (load : targetLoad) (key : string) : string * string * Z :=
  match load_invalid load !! key with
  | Some i => (Inv_Namespace i, Inv_Name i, Inv_Generation i)
  | None => match last (filter (fun d => D_Key d = key) (load_definitions load)) with
            | Some d => (D_Namespace d, D_Name d, D_Generation d)
            | None => ("", "", 0)
            end
  end.

(** [None]: every key's status is written. *)
Definition report_failure (load : targetLoad) (only : option string) (w : W) (x : string * string) : W :=
  let '(key, reason) := x in
  if match only with Some k => negb (k =s key) | None => false end then w
  else let '(namespace, name, generation) := identity_of load key in writeSetupFailureStatus namespace name generation reason w.

Definition syncTargets (m : RuntimeManager) (load : targetLoad) (only : option string) (w : W)
    : W * (RuntimeManager * result string SyncResult) :=
  match Sync (managed env) m (load_definitions load) w with
  | (w, (m, Err e)) => (w, (m, Err e))
  | (w, (m, Ok r)) =>
      let failures := (Inv_Reason <$> load_invalid load) ∪ SR_Failures r in
      let w := foldl (fun w x => recorder_readiness env x.1 false w) w (map_to_list (load_invalid load)) in
      let w := foldl (report_failure load only) w (map_to_list failures) in
      (w, (m, Ok (mkSyncResult (SR_Ready r) (SR_Removed r) failures (SR_Changed r) (SR_Stopped r)
                 (load_reasons load ∪ SR_CredentialReasons r))))
  end.

Inductive AuthorityError := AuthorityCancelled | AuthorityAPI (e : APIError).

(** Before every mutation: the runtime is still the one of its key, the live
    target is the one it was built from, and its credentials are the current ones. *)
Definition authorizeTargetRuntime (m : W -> RuntimeManager) (key : TargetKey) (r : Runtime) : M W AuthorityError unit :=
  let current : M W AuthorityError unit :=
    fun w => (w, if RuntimeCurrent (m w) (TargetKey_String key) r && negb (context_ended env w) then Ok tt else Err AuthorityCancelled) in
  do! current in
  let! live := wrap AuthorityAPI (get_target env (TK_Namespace key) (TK_Name key)) in
  do! require ((live.1 =s D_UID (R_Definition r)) && (live.2 =? D_Generation (R_Definition r))) AuthorityCancelled in
  let! fresh := wrap (fun _ => AuthorityCancelled) (CredentialsCurrent (managed env) r) in
  do! require fresh AuthorityCancelled in
  current.

(** [writeTargetStatus]: readiness, and the status object. *)
Definition writeTargetStatus (r : Runtime) (audit : option ReconcileAudit) (planApproved : bool) (e : option AuditError) (applied : bool) (w : W) : W :=
  let d := R_Definition r in
  let conditions := targetConditions (D_Generation d) (D_ApprovalMode d =s ApprovalModeRequired) audit planApproved e in
  let w := recorder_readiness env (D_Key d) (match conditions !! ConditionReady with Some c => CS_Status c =s ConditionTrue | None => false end) w in
  match NewWriter (D_Namespace d) (D_Name d) (wrap_int32 (Cfg_StatusRetention cfg)) with
  | Err _ => w
  | Ok wr => (Write (status_api env (D_Namespace d)) wr (target_snapshot (platform_now env w) (D_Generation d) conditions audit e applied) w).1
  end.

(** ** Auditing one target *)

(** What target mode uses of the runner of a runtime: whether its stores are of the
    expected types, [Prepare], and [ApplyPreparedWithResult] with the check before
    each mutation.  It is an interface, since there are two clients: for a target
    that owns its zone Wiring implements it with [Prepare] and [applyPrepared]. *)
Record RunnerSteps := mkRunnerSteps {
  has_stores : Runtime -> bool * bool;
  Prepare_step : TargetRunner -> Runtime -> M W AuditError ReconcileAudit;
  ApplyPrepared_step : M W AuthorityError unit -> TargetRunner -> Runtime -> ReconcileAudit -> W -> W * (bool * option AuditError) }.

Context (steps : RunnerSteps).

Definition fail (reason : string) : AuditError := mkAuditError (Some reason) [].
Definition is_canceled (e : option AuditError) : bool := errors_Is e SentCanceled.

(** [buildTargetRunner] and [Prepare]; a failure of either is published at once. *)
Definition prepare_target (r : Runtime) (w : W) : W * result AuditError (TargetRunner * ReconcileAudit) :=
  match buildTargetRunner cfg (R_Definition r) (has_stores steps r).1 (has_stores steps r).2 with
  | Err reason => (writeTargetStatus r None false (Some (fail reason)) false w, Err (fail reason))
  | Ok runner =>
      match Prepare_step steps runner r w with
      | (w, Err e) => (writeTargetStatus r None false (Some e) false w, Err e)
      | (w, Ok a) => (w, Ok (runner, a))
      end
  end.

Definition auditTarget (m : W -> RuntimeManager) (r : Runtime) (w : W) : W * option AuditError :=
  let d := R_Definition r in
  match prepare_target r w with
  | (w, Err e) => (w, Some e)
  | (w, Ok (runner, a)) =>
      let '(w, (approved, e)) := ApplyPrepared_step steps (authorizeTargetRuntime m (mkTargetKey (D_Namespace d) (D_Name d)) r) runner r a w in
      (if negb (is_canceled e) && RuntimeCurrent (m w) (D_Key d) r then writeTargetStatus r (Some a) approved e (bool_decide (e = None)) w else w, e)
  end.

Definition runTargetAudit (m : W -> RuntimeManager) (r : Runtime) (w : W) : W * option AuditError :=
  let '(w, e) := auditTarget m r w in
  (if negb (is_canceled e) then RecordReconcile env (bool_decide (is_Some e)) w else w, e).

(** What [RunSelected] tells errors apart by. *)
Definition worker_error (e : AuditError) : WorkerError :=
  if bool_decide (SentCanceled ∈ wraps_sentinel e) || bool_decide (SentDeadlineExceeded ∈ wraps_sentinel e) then ContextError
  else match targetErrorReason e with Some reason => RuntimeError reason | None => OtherWorkerError end.

Definition target_worker (m : RuntimeManager) (r : Runtime) : M W WorkerError unit :=
  fun w => let '(w, e) := runTargetAudit (fun _ => m) r w in (w, match e with Some e => Err (worker_error e) | None => Ok tt end).

(** ** The polling cycle *)

Inductive CycleError := CycleLoad (e : LoadError) | CycleSync (e : string) | CycleSchedule (e : string) | CycleFailed.

(** The schedules of the targets that have a runtime; its number stands for its address. *)
Fixpoint runtime_schedules (m : RuntimeManager) (ds : list Definition_) : result string (list TargetSchedule) :=
  match ds with
  | [] => Ok []
  | d :: rest =>
      match runtimes m !! D_Key d with
      | None => runtime_schedules m rest
      | Some r =>
          let? key := NewTargetKey (D_Namespace d) (D_Name d) in
          let? l := runtime_schedules m rest in
          Ok (mkSchedule key (FormatInt (Z.of_nat (R_id r))) (D_Interval d) :: l)
      end
  end.

Context (SetQueueState : string -> Z -> Z -> W -> W).

(** The delay until the next cycle, the deadlines, and the error. *)
Definition runScheduledTargetCycle (m : RuntimeManager) (deadlines : gmap TargetKey auditDeadline) (w : W)
    : W * (RuntimeManager * gmap TargetKey auditDeadline * Z * option CycleError) :=
  let stop w m e := (w, (m, deadlines, Cfg_Resync cfg, Some e)) in
  match loadTargetDefinitions m w with
  | (w, Err e) => stop (RecordReconcile env true w) m (CycleLoad e)
  | (w, Ok load) =>
      match syncTargets m load None w with
      | (w, (m, Err e)) => stop (RecordReconcile env true w) m (CycleSync e)
      | (w, (m, Ok r)) =>
          match runtime_schedules m (Definitions m) with
          | Err e => stop w m (CycleSchedule e)
          | Ok schedules =>
              match Due deadlines (platform_now env w) schedules (Cfg_Resync cfg) true with
              | Err e => stop w m (CycleSchedule e)
              | Ok (deadlines, due) =>
                  let selected := list_to_set (TargetKey_String <$> due) : gset string in
                  let '(w, (m, results)) := RunSelected (context_ended env) SetQueueState m (Some selected) (target_worker m) w in
                  let failed := existsb (fun x => negb (x.2 =s "")) (map_to_list (SR_Failures r)) || existsb (fun x => negb (Succeeded x.2)) (map_to_list results) in
                  (w, (m, deadlines, Delay deadlines (platform_now env w) (Cfg_Resync cfg), if failed then Some CycleFailed else None))
              end
          end
      end
  end.

Inductive ModeError := ModeSetup (e : string) | ModeCycle (e : CycleError) | ModeContext | ModeRun (e : string).
(** What a loop has come to within its fuel. *)
Inductive LoopOutcome := StillRunning | Returned (e : option ModeError).

(** The polling loop of [runTargetMode]. *)
Fixpoint polling_loop (fuel : nat) (m : RuntimeManager) (deadlines : gmap TargetKey auditDeadline) (w : W) : W * (RuntimeManager * LoopOutcome) :=
  match fuel with
  | O => (w, (m, StillRunning))
  | S fuel =>
      let '(w, (m, deadlines, delay, e)) := runScheduledTargetCycle m deadlines w in
      let w := heartbeat_MarkAttempt env w in
      if Cfg_Once cfg then (w, (m, Returned (ModeCycle <$> e)))
      else
        match sleepContext env delay w with
        | (w, false) => (w, (m, Returned (Some ModeContext)))
        | (w, true) => polling_loop fuel m deadlines w
        end
  end.

(** ** Event mode *)

(** Other targets whose runtime changed are audited again. *)
Definition runtime_changes (changed : list string) (current : string) : list TargetKey :=
  omap (fun key =>
    if key =s current then None
    else match first_index "/" key with
         | Some i => match NewTargetKey (String.substring 0 i key) (str_drop (S i) key) with Ok k => Some k | Err _ => None end
         | None => None
         end) changed.
Definition enqueueRuntimeChanges (enqueue : TargetKey -> W -> W) (changed : list string) (current : string) (w : W) : W :=
  foldl (fun w k => enqueue k w) w (runtime_changes changed current).

Inductive EventError := EvLoad (e : LoadError) | EvScopeChanged | EvSync (e : string) | EvTarget (reason : string) | EvUnavailable
| EvAudit (e : AuditError) | EvCancelled | EvAuthority (e : AuthorityError).

Definition event_canceled (e : EventError) : bool :=
  match e with EvCancelled | EvAuthority AuthorityCancelled => true | EvAudit e => is_canceled (Some e) | _ => false end.

Record preparedTargetAudit := mkPrepared { pa_runtime : Runtime; pa_runner : TargetRunner; pa_audit : ReconcileAudit }.

Context (enqueue : TargetKey -> W -> W) (scope : platformScope).

Definition is_cleanup (op : Operation) : bool := (OpType op =s OperationDelete) || (OpType op =s OperationDeactivate).

(** [eventTargetExecutor.audit]. *)
Definition event_audit (m : RuntimeManager) (key : TargetKey) (w : W)
    : W * (RuntimeManager * result EventError (TargetAudit preparedTargetAudit)) :=
  match loadTargetDefinitions m w with
  | (w, Err e) => (w, (m, Err (EvLoad e)))
  | (w, Ok load) =>
      if negb (platformScopesEqual scope (platformEventScope cfg (load_definitions load))) then (w, (m, Err EvScopeChanged))
      else
        match syncTargets m load (Some (TargetKey_String key)) w with
        | (w, (m, Err e)) => (w, (m, Err (EvSync e)))
        | (w, (m, Ok r)) =>
            let w := enqueueRuntimeChanges enqueue (SR_Changed r) (TargetKey_String key) w in
            let w := enqueueRuntimeChanges enqueue (SR_Stopped r) (TargetKey_String key) w in
            let reason := default "" (SR_Failures r !! TargetKey_String key) in
            if negb (reason =s "") then (w, (m, Err (EvTarget reason)))
            else
              match runtimes m !! TargetKey_String key with
              | None => (w, (m, Err EvUnavailable))
              | Some rt =>
                  match prepare_target rt w with
                  | (w, Err e) => (w, (m, Err (EvAudit e)))
                  | (w, Ok (runner, a)) =>
                      (w, (m, Ok (mkTargetAudit (existsb is_cleanup (Audit_Operations a)) (DiscoveryComplete a) (ProviderSnapshotStable a)
                                    (mkPrepared rt runner a))))
                  end
              end
        end
  end.

(** [eventTargetExecutor.Audit]. *)
Definition event_Audit (m : RuntimeManager) (key : TargetKey) (w : W)
    : W * (RuntimeManager * result EventError (TargetAudit preparedTargetAudit)) :=
  let '(w, (m, r)) := event_audit m key w in
  let w := match r with
           | Err EvScopeChanged => w
           | Err e => if event_canceled e then w else RecordReconcile env true w
           | Ok _ => w
           end in
  (heartbeat_MarkAttempt env w, (m, r)).

(** [eventTargetExecutor.Apply]. *)
Definition event_apply (m : W -> RuntimeManager) (key : TargetKey) (audit : TargetAudit preparedTargetAudit) (w : W) : W * option EventError :=
  let '(mkPrepared rt runner a) := TA_State audit in
  let '(w, e) :=
    if negb (TargetKey_String key =s D_Key (R_Definition rt)) || negb (TK_Namespace key =s Cfg_PlatformNamespace cfg) then (w, Some EvCancelled)
    else
      match authorizeTargetRuntime m key rt w with
      | (w, Err e) => (w, Some (EvAuthority e))
      | (w, Ok _) =>
          let '(w, (approved, e)) := ApplyPrepared_step steps (authorizeTargetRuntime m key rt) runner rt a w in
          let w := if RuntimeCurrent (m w) (TargetKey_String key) rt && negb (context_ended env w)
                   then writeTargetStatus rt (Some a) approved e (bool_decide (e = None)) w else w in
          (if is_canceled e then w else RecordReconcile env (bool_decide (is_Some e)) w, EvAudit <$> e)
      end in
  (heartbeat_MarkAttempt env w, e).

(** [eventTargetExecutor.TargetDeleted] up to its calls of [enqueue]: the targets to wake. *)
Definition deleted_changes (m : RuntimeManager) (key : TargetKey) (w : W) : W * (RuntimeManager * result EventError (list TargetKey)) :=
  match loadTargetDefinitions m w with
  | (w, Err e) => (w, (m, Err (EvLoad e)))
  | (w, Ok load) =>
      if negb (platformScopesEqual scope (platformEventScope cfg (load_definitions load))) then (w, (m, Err EvScopeChanged))
      else
        match Sync (managed env) m (load_definitions load) w with
        | (w, (m, Err e)) => (w, (m, Err (EvSync e)))
        | (w, (m, Ok r)) =>
            (w, (m, Ok (runtime_changes (SR_Changed r) (TargetKey_String key) ++ runtime_changes (SR_Stopped r) (TargetKey_String key))))
        end
  end.

Definition TargetDeleted (m : RuntimeManager) (key : TargetKey) (w : W) : W * (RuntimeManager * option EventError) :=
  match deleted_changes m key w with
  | (w, (m, Err e)) => (w, (m, Some e))
  | (w, (m, Ok keys)) => (foldl (fun w k => enqueue k w) w keys, (m, None))
  end.

(** As the callback of a dispatcher whose runtime makes the calls of [enqueue]:
    [errors.Is] tells the changed scope from everything else; [text] is [Error]. *)
Definition on_target_deleted (text : EventError -> string) (key : TargetKey) (st : RuntimeManager * W) : (RuntimeManager * W) * result DeletionError (list TargetKey) :=
  let '(w, (m, r)) := deleted_changes st.1 key st.2 in
  ((m, w), match r with
           | Ok keys => Ok keys
           | Err EvScopeChanged => Err DeletionScopeChanged
           | Err e => Err (DeletionFailed (text e))
           end).

(** Every resync: targets without a runtime or with rotated credentials, then
    excluded targets that still run, unless the context ends. *)
Definition enqueue_definition (m : RuntimeManager) (w : W) (d : Definition_) : W :=
  if context_ended env w then w
  else
    let key := mkTargetKey (D_Namespace d) (D_Name d) in
    match runtimes m !! D_Key d with
    | None => enqueue key w
    | Some r => match CredentialsCurrent (managed env) r w with (w, Ok true) => w | (w, _) => enqueue key w end
    end.
Definition enqueue_invalid (m : RuntimeManager) (w : W) (x : string * InvalidTarget) : W :=
  if context_ended env w then w
  else match runtimes m !! x.1 with Some _ => enqueue (mkTargetKey (Inv_Namespace x.2) (Inv_Name x.2)) w | None => w end.
Definition enqueueCredentialAudits (m : RuntimeManager) (load : targetLoad) (w : W) : W :=
  foldl (enqueue_invalid m) (foldl (enqueue_definition m) w (load_definitions load)) (map_to_list (load_invalid load)).

(** The probe of the resync heartbeat: whether no worker would mark an attempt. *)
Definition resync_probe (m : RuntimeManager) (idle : W -> bool) (w : W) : W * bool :=
  match loadTargetDefinitions m w with
  | (w, Err _) => (w, true)
  | (w, Ok load) => let w := enqueueCredentialAudits m load w in (w, bool_decide (load_definitions load = []) || idle w)
  end.
(** A tick of [runResyncHeartbeat]. *)
Definition resync_tick (m : RuntimeManager) (idle : W -> bool) (w : W) : W :=
  let '(w, mark) := resync_probe m idle w in if mark : bool then heartbeat_MarkAttempt env w else w.

Definition eventLoadRetryMax : Z := 30 * second.

(** The settings of the informers for the loaded targets. *)
Definition runtime_config (load : targetLoad) : PlatformRuntimeConfig :=
  let s := platformEventScope cfg (load_definitions load) in
  mkRuntimeConfig (Cfg_PlatformNamespace cfg) (sc_sources s) (sc_namespaces s) (sc_gatewayNamespaces s) (sc_headless s)
    (Cfg_PolicyEnforcement cfg && negb (bool_decide (load_definitions load = []))) (sc_ownership s) (sc_planApproval s).

(** How the informers, the queue and the workers of one scope end. *)
Inductive RuntimeEnd := EndedScopeChanged | EndedContext | EndedError (e : string).

(** [runEventTargetMode]; [run] is [NewPlatformRuntime] and [PlatformRuntime.Run]
    with the resync heartbeat beside it. *)
Fixpoint runEventTargetMode (run : PlatformRuntimeConfig -> RuntimeManager -> W -> W * (RuntimeManager * RuntimeEnd)) (fuel : nat)
    (m : RuntimeManager) (w : W) : W * (RuntimeManager * LoopOutcome) :=
  match fuel with
  | O => (w, (m, StillRunning))
  | S fuel =>
      match loadTargetDefinitions m w with
      | (w, Err _) =>
          match sleepContext env (Z.min (Cfg_Resync cfg) eventLoadRetryMax) (heartbeat_MarkAttempt env (RecordReconcile env true w)) with
          | (w, false) => (w, (m, Returned (Some ModeContext)))
          | (w, true) => runEventTargetMode run fuel m w
          end
      | (w, Ok load) =>
          match run (runtime_config load) m w with
          | (w, (m, EndedScopeChanged)) => if context_ended env w then (w, (m, Returned (Some (ModeRun "platform informer scope changed"))))
                                           else runEventTargetMode run fuel m w
          | (w, (m, EndedContext)) => (w, (m, Returned None))
          | (w, (m, EndedError e)) => (w, (m, Returned (Some (ModeRun e))))
          end
      end
  end.

(** [newTargetRuntimeManager]: the factories it passes are never nil. *)
Definition newTargetRuntimeManager : result string RuntimeManager :=
  match core_reader (managed env) with None => Err "credential core reader is required" | Some _ => Ok NewRuntimeManager end.

(** [runTargetMode]: without a manager it returns at once; otherwise, when it
    returns, every runtime is closed. *)
Definition runTargetMode (run : PlatformRuntimeConfig -> RuntimeManager -> W -> W * (RuntimeManager * RuntimeEnd)) (fuel : nat) (w : W)
    : W * (option RuntimeManager * LoopOutcome) :=
  match newTargetRuntimeManager with
  | Err e => (w, (None, Returned (Some (ModeSetup e))))
  | Ok m =>
      let '(w, (m, r)) := if Cfg_EventDriven cfg && negb (Cfg_Once cfg) then runEventTargetMode run fuel m w
                          else polling_loop fuel m ∅ w in
      match r with
      | StillRunning => (w, (Some m, StillRunning))
      | Returned e => let '(w, (m, _)) := Sync (managed env) m [] w in (w, (Some m, Returned e))
      end
  end.
End platform.
Arguments PlatformEnv W Raw : clear implicits.
Arguments RunnerSteps W : clear implicits.
