(* ===== verification/PlatformLaws.v ===== *)
(** * Properties of target mode *)
From Stdlib Require Import String Ascii ZArith Lia.
From S2P Require Import Prelude Effects GoStrings NetIP GoEncoding Endpoint Plan Document Queue Scheduling Client Sources Policy Gateways SourcesLaws Runner.
From S2P Require Import ChangePlans Apply Claims Settings SettingsLaws Targets TargetsLaws Runtimes RuntimesLaws StatusWriter StatusLaws Workers Platform.
Open Scope string_scope.
Open Scope list_scope.
Open Scope Z_scope.
Open Scope go_scope.

(** ** The heartbeat *)

Inductive HeartbeatEvent := BecomesActive (active : bool) | Attempts.

Definition beat (h : Heartbeat) (x : Z * HeartbeatEvent) : Heartbeat :=
  match x.2 with BecomesActive b => SetActive x.1 b h | Attempts => MarkAttempt x.1 h end.
Definition beats (l : list (Z * HeartbeatEvent)) : Heartbeat := foldl beat NewHeartbeat l.

(** An event that gives the loop its full window: an attempt, or taking over. *)
Definition progress (h : Heartbeat) (e : HeartbeatEvent) : bool :=
  match e with Attempts => true | BecomesActive b => b && negb (hb_active h) end.

Definition reference (h : Heartbeat) : option Z := if After (activeSince h) (lastAttempt h) then activeSince h else lastAttempt h.

Definition bounded_by (t : Z) (h : Heartbeat) : Prop :=
  (forall x, activeSince h = Some x -> x <= t) /\ (forall x, lastAttempt h = Some x -> x <= t).

Lemma beat_reference t e h : bounded_by t h ->
  reference (beat h (t, e)) = (if progress h e then Some t else reference h) /\ bounded_by t (beat h (t, e)).
Proof.
  intros [H1 H2]. unfold beat, reference, progress, bounded_by. destruct e as [b|]; cbn.
  - destruct (b && negb (hb_active h)); [|done]. split; [|split; [by intros ? [= <-]|done]]. destruct (lastAttempt h) as [y|]; [|done].
    cbn. destruct (Z.ltb_spec y t); [done|]. f_equal. specialize (H2 y eq_refl). lia.
  - split; [|split; [done|by intros ? [= <-]]]. destruct (activeSince h) as [x|]; [|done]. cbn. destruct (Z.ltb_spec t x); [|done].
    specialize (H1 x eq_refl). lia.
Qed.

Lemma sorted_snoc r t : StronglySorted Z.le (r ++ [t]) -> StronglySorted Z.le r /\ forall a, a ∈ r -> a <= t.
Proof.
  induction r as [|a r IH]; cbn; intros Hs; [split; [constructor|by intros ? ?%not_elem_of_nil]|].
  inversion_clear Hs as [|? ? Hs' Hall]. destruct (IH Hs') as [H1 H2]. apply Forall_app in Hall as [H3 H4]. inversion_clear H4.
  split; [by constructor|]. intros b [-> | Hb]%elem_of_cons; auto.
Qed.

(** The last progress of a trace. *)
Lemma beats_reference l : forall t, StronglySorted Z.le (l.*1 ++ [t]) -> bounded_by t (beats l) /\
  forall x, (match reference (beats l) with Some r => x <= r | None => False end <->
    exists l1 y e l2, l = l1 ++ (y, e) :: l2 /\ x <= y /\ progress (beats l1) e = true).
Proof.
  induction l as [|[y e] l IH] using rev_ind; intros t Hs.
  { split; [split; cbn; done|]. intros x. cbn. split; [done|]. intros (l1 & y & e & l2 & E & _). by destruct l1. }
  apply sorted_snoc in Hs as [Hs Hle]. rewrite fmap_app in Hs, Hle. cbn in Hs, Hle.
  assert (Hy : y <= t) by (apply Hle; set_solver). destruct (IH y Hs) as [Hb Href]. apply sorted_snoc in Hs as [_ Hly].
  unfold beats in *. rewrite foldl_app. cbn [foldl]. destruct (beat_reference y e _ Hb) as [-> [B1 B2]].
  split; [split; intros x Hx; [apply B1 in Hx|apply B2 in Hx]; lia|]. intros x.
  assert (Hold : (exists l1 z e' l2, l = l1 ++ (z, e') :: l2 /\ x <= z /\ progress (foldl beat NewHeartbeat l1) e' = true) \/
     (x <= y /\ progress (foldl beat NewHeartbeat l) e = true) <->
     exists l1 z e' l2, l ++ [(y, e)] = l1 ++ (z, e') :: l2 /\ x <= z /\ progress (foldl beat NewHeartbeat l1) e' = true).
  { split.
    - intros [(l1 & z & e' & l2 & -> & H1)|H1]; [exists l1, z, e', (l2 ++ [(y, e)]); by rewrite <- app_assoc|by exists l, y, e, []].
    - intros (l1 & z & e' & l2 & E & H1). destruct l2 as [|p l2 _] using rev_ind.
      + apply app_inj_tail in E as [-> [= -> ->]]. by right.
      + rewrite app_comm_cons, app_assoc in E. apply app_inj_tail in E as [-> _]. left. by exists l1, z, e', l2. }
  rewrite <- Hold. destruct (progress (foldl beat NewHeartbeat l) e).
  - split; [auto|]. intros [(l1 & z & e' & l2 & -> & Hz & _)|[? _]]; [|done].
    assert (z <= y); [apply Hly; rewrite fmap_app; cbn; set_solver|lia].
  - rewrite Href. split; [auto|]. by intros [?|[_ ?]].
Qed.

(** The liveness probe fails exactly when this replica is responsible and
    nothing has happened for longer than the window: no attempt finished (whether it
    succeeded or not) and the replica did not take over within it. *)
Theorem heartbeat_exact l now window : StronglySorted Z.le (l.*1 ++ [now]) -> 0 <= window ->
  Healthy now window (beats l) = true <->
  hb_active (beats l) = false \/
  exists l1 t e l2, l = l1 ++ (t, e) :: l2 /\ now - window <= t /\ progress (beats l1) e = true.
Proof.
  intros Hs Hw. destruct (beats_reference l now Hs) as [_ Href]. unfold Healthy. destruct (hb_active (beats l)); cbn [negb]; [|naive_solver].
  rewrite <- Href. fold (reference (beats l)). destruct (reference (beats l)) as [r|]; [|naive_solver].
  rewrite Z.leb_le. split; [intros ?; right; lia|]. intros [?|?]; [done|lia].
Qed.

(** ** The worker *)

(** C22. A target is changed only after an audit that allows it.  Before the audit
    the caches were synchronized and the context alive; after it the context is alive
    again, and if the audit is one that removes records, the caches are again
    synchronized, discovery was complete and the listing of the zone stable.  (The
    caches are not asked again after an audit that only adds.)  Otherwise nothing is
    applied and the error is returned. *)
Theorem processTarget_safe {W S} (env : WorkerEnv W S) key w w' r : processTarget env key w = (w', r) ->
  (exists audit w1, ex_Audit env key w = (w1, Ok audit) /\ ex_Apply env key audit w1 = (w', r) /\
     RequireSynchronized (cache_gate env w) = None /\ ctx_done env w = false /\ ctx_done env w1 = false /\
     (CleanupCapable audit = true -> RequireSynchronized (cache_gate env w1) = None /\
        TA_DiscoveryComplete audit = true /\ TA_ProviderSnapshotStable audit = true)) \/
  (exists e, r = Err e /\ (w' = w \/ exists x, ex_Audit env key w = (w', x))).
Proof.
  unfold processTarget. intros E.
  apply bind_run in E as [(e & [= <- _] & ->)|([] & w1 & Eg & E)]; [right; eauto|]. unfold gate_check in Eg.
  destruct (RequireSynchronized (cache_gate env w)) eqn:G1 in Eg; [done|]. injection Eg as <-.
  apply bind_run in E as [(e & [= <- _] & ->)|([] & w1 & Ec & E)]; [right; eauto|]. unfold ctx_check in Ec. destruct (ctx_done env w) eqn:C1 in Ec; [done|].
  injection Ec as <-. apply bind_run in E as [(e & Ea & ->)|(audit & w1 & Ea & E)]; [right; eauto|].
  apply bind_run in E as [(e & Es & ->)|([] & w2 & Es & E)].
  { right. exists e. split; [done|]. right. exists (Ok audit). rewrite Ea. f_equal. destruct (CleanupCapable audit); [|done]. by injection Es as <-. }
  assert (Hs : w2 = w1 /\ (CleanupCapable audit = true -> RequireSynchronized (cache_gate env w1) = None /\
     TA_DiscoveryComplete audit = true /\ TA_ProviderSnapshotStable audit = true)).
  { destruct (CleanupCapable audit); [|by injection Es as <-]. unfold gate_check, RequireCleanupSafety in Es.
    destruct (RequireSynchronized (cache_gate env w1)); [done|]. destruct (TA_DiscoveryComplete audit); [|done].
    destruct (TA_ProviderSnapshotStable audit); [|done]. by injection Es as <-. }
  destruct Hs as [-> Hs]. apply bind_run in E as [(e & [= <- _] & ->)|([] & w2 & Ec & E)]; [right; exists e; split; [done|]; right; eauto|].
  unfold ctx_check in Ec. destruct (ctx_done env w1) eqn:C2 in Ec; [done|]. injection Ec as <-. left. exists audit, w1. split_and!; (done || apply Hs).
Qed.

(** ** Events reach the targets that watch their objects *)

Lemma unique_step_elem acc l x :
  x ∈ foldl (fun result value => match last result with
                                 | Some v => if v =s value then result else result ++ [value]
                                 | None => [value]
                                 end) acc l <-> x ∈ acc \/ x ∈ l.
Proof.
  revert acc. induction l as [|v l IH]; intros acc; cbn [foldl]; [set_solver|]. rewrite IH.
  destruct (last acc) as [u|] eqn:El.
  - destruct (u =s v) eqn:Eu; [|set_solver]. bools. subst u. apply last_Some in El as [l' ->]. set_solver.
  - apply last_None in El as ->. set_solver.
Qed.

Lemma unique_sorted_elem l x : x ∈ unique_sorted l <-> x ∈ l.
Proof.
  unfold unique_sorted. rewrite unique_step_elem. unfold sort_strings. rewrite sort_by_key_perm. set_solver.
Qed.

Lemma normalizeValues_elem l x : x ∈ normalizeValues l <-> x <> "" /\ exists v, v ∈ l /\ x = ToLower (TrimSpace v).
Proof.
  unfold normalizeValues. rewrite unique_sorted_elem, list_elem_of_filter, list_elem_of_fmap. naive_solver.
Qed.

Definition no_blank (l : list string) : Prop := forall s, s ∈ l -> TrimSpace s <> "".

Lemma normalizeValues_nonempty l : no_blank l -> l <> [] -> normalizeValues l <> [].
Proof.
  intros Hb Hne. destruct l as [|v l]; [done|]. intros E. apply (not_elem_of_nil (ToLower (TrimSpace v))). rewrite <- E.
  apply normalizeValues_elem. split; [|exists v; split; [by left|done]]. intros H0. apply (Hb v); [by left|]. by destruct (TrimSpace v).
Qed.

(** What the discovery of a target reads: the objects of this kind in this namespace. *)
Definition discovers (root : Settings) (d : Definition_) (kind : EventKind) (ns : string) : bool :=
  let opts := source_options (runner_config (target_settings root d)) in
  match kind with
  | EventService => SourceEnabled opts SourceService && NamespaceAllowed opts ns
  | EventEndpointSlice => PublishHeadlessServices opts && SourceEnabled opts SourceService && NamespaceAllowed opts ns
  | EventIngress => SourceEnabled opts SourceIngress && NamespaceAllowed opts ns
  | EventGateway => SourceEnabled opts SourceGateway && (NamespaceAllowed opts ns || GatewayTargetNamespaceAllowed opts ns)
  | EventHTTPRoute => SourceEnabled opts SourceGateway && NamespaceAllowed opts ns
  | _ => false
  end.

Section watching.
Context (root : Settings) (o : TargetObject).

Abbreviation opts := (source_options (runner_config (target_settings root (normalize_definition (FromAPI o))))).
Context (Hsources : no_blank (T_Sources (TO_Spec o))) (Hnamespaces : no_blank (T_Namespaces (TO_Spec o))).

Lemma source_watched s : s ∈ [SourceService; SourceIngress; SourceGateway] -> SourceEnabled opts s = true ->
  mapper_sourceSelected (T_Sources (TO_Spec o)) s = true.
Proof.
  intros Hs. unfold SourceEnabled. cbn -[normalizeValues]. assert (Hlit : TrimSpace s = s /\ mapper_sourceSelected [] s = true).
  { repeat (apply elem_of_cons in Hs as [-> | Hs]; [by vm_compute|]). by apply not_elem_of_nil in Hs. }
  destruct Hlit as [Hlit Hnil]. destruct (normalizeValues (T_Sources (TO_Spec o))) as [|x l] eqn:En.
  - intros _. destruct (T_Sources (TO_Spec o)) eqn:Es; [done|]. exfalso.
    exact (normalizeValues_nonempty _ Hsources ltac:(done) En).
  - intros He. change (existsb (fun y => EqualFold y s) (x :: l) = true) in He. rewrite <- En in He. apply existsb_exists in He as (y & Hy & Hf).
    apply list_elem_of_In, normalizeValues_elem in Hy as (_ & v & Hv & ->).
    unfold mapper_sourceSelected. destruct (T_Sources (TO_Spec o)) as [|a r] eqn:Ea; [done|]. rewrite <- Ea in *. apply existsb_exists. exists v.
    split; [by apply list_elem_of_In|]. rewrite Hlit. unfold EqualFold in *. by rewrite ToLower_idem in Hf.
Qed.

Lemma fold_member l ns : existsb (fun s => s =s ns) (normalizeValues l) = true -> containsFold l ns = true.
Proof.
  intros He. apply existsb_exists in He as (y & Hy & Hf). bools. subst y. apply list_elem_of_In, normalizeValues_elem in Hy as (_ & v & Hv & ->).
  apply existsb_exists. exists v. split; [by apply list_elem_of_In|]. unfold EqualFold.
  by rewrite TrimSpace_ToLower, TrimSpace_idem, ToLower_idem, String.eqb_refl.
Qed.

Lemma namespace_watched ns : NamespaceAllowed opts ns = true -> namespaceSelected (T_Namespaces (TO_Spec o)) ns = true.
Proof.
  unfold NamespaceAllowed, namespaceSelected. cbn -[normalizeValues]. destruct (normalizeValues (T_Namespaces (TO_Spec o))) as [|x l] eqn:En.
  - intros _. destruct (T_Namespaces (TO_Spec o)) eqn:Es; [done|]. exfalso.
    exact (normalizeValues_nonempty _ Hnamespaces ltac:(done) En).
  - intros He. apply orb_true_iff. right. apply fold_member. by rewrite En.
Qed.

Lemma discovered_affects event : discovers root (normalize_definition (FromAPI o)) (Ev_Kind event) (Ev_Namespace event) = true -> targetAffectedByEvent o event = true.
Proof.
  assert (S1 : SourceService ∈ [SourceService; SourceIngress; SourceGateway]) by by left.
  assert (S2 : SourceIngress ∈ [SourceService; SourceIngress; SourceGateway]) by (by right; left).
  assert (S3 : SourceGateway ∈ [SourceService; SourceIngress; SourceGateway]) by (by right; right; left).
  unfold discovers, targetAffectedByEvent. destruct (Ev_Kind event); try done; intros E; repeat (apply andb_true_iff in E as [E ?]).
  all: rewrite ?(source_watched "service" S1), ?(source_watched "ingress" S2), ?(source_watched "gateway" S3) by done; cbn [andb].
  1, 2, 4: by apply namespace_watched.
  - apply orb_true_iff. destruct (NamespaceAllowed opts (Ev_Namespace event)) eqn:En; [left; by apply namespace_watched|].
    right. by apply fold_member.
  - match goal with H : D_HeadlessEnabled _ = true |- _ => change (T_HeadlessEnabled (TO_Spec o) = true) in H; rewrite H end.
    cbn [andb]. by apply namespace_watched.
Qed.
End watching.

Lemma decode_targets_ok b items l : decode_targets b items = Ok l -> forall c spec, Some c ∈ items -> CT_Decoded c = Some spec ->
  mkTargetObject (CT_Namespace c) (CT_Name c) (CT_UID c) "" (CT_Generation c) spec ∈ l.
Proof.
  revert l. induction items as [|[x|] items IH]; intros l E c spec Hc Hd; [by apply not_elem_of_nil in Hc| |done].
  cbn [decode_targets] in E. destruct (decode_targets b items) as [r|]; [|done]. cbn [rbind] in E.
  apply elem_of_cons in Hc as [[= ->]|Hc].
  - rewrite Hd in E. injection E as <-. by left.
  - specialize (IH r eq_refl c spec Hc Hd). destruct (CT_Decoded x); [injection E as <-; by right|]. destruct b; injection E as <-; [by right|done].
Qed.

Section keys.
Context `{KeyValidation}.

Lemma target_keys_ok l keys : target_keys l = Ok keys -> forall t, t ∈ l -> exists k, NewTargetKey (TO_Namespace t) (TO_Name t) = Ok k /\ k ∈ keys.
Proof.
  revert keys. induction l as [|x l IH]; intros keys E t Ht; [by apply not_elem_of_nil in Ht|]. cbn [target_keys] in E.
  apply rbind_ok in E as (k & Ek & E). apply rbind_ok in E as (ks & El & E). injection E as <-.
  apply elem_of_cons in Ht as [-> | Ht]; [exists k; split; [done|by left]|]. destruct (IH ks El t Ht) as (k' & ? & ?). exists k'. split; [done|by right].
Qed.

(** C23. No event is lost on its way to a target: when an object changes that the
    discovery of a target reads (its source is enabled and its namespace allowed
    under the options the target runs with), the event is mapped to that target,
    provided the lists of the target have no blank entries.  Discovery works on the
    normalized definition, the mapping on the raw object. *)
Theorem event_reaches_watching_target root cache items c spec event keys :
  cache = Some items -> Some c ∈ items -> CT_Decoded c = Some spec -> no_blank (T_Sources spec) -> no_blank (T_Namespaces spec) ->
  discovers root (normalize_definition (FromAPI (mkTargetObject (CT_Namespace c) (CT_Name c) (CT_UID c) "" (CT_Generation c) spec)))
    (Ev_Kind event) (Ev_Namespace event) = true ->
  TargetsForEvent cache event = Ok keys ->
  exists k, NewTargetKey (CT_Namespace c) (CT_Name c) = Ok k /\ k ∈ keys.
Proof.
  intros -> Hc Hd H1 H2 Hw E. apply discovered_affects in Hw as Ha; [|done..].
  assert (Hk : rbind (listTargets (Some items) false) (fun l => rbind (target_keys (filter (fun t => targetAffectedByEvent t event = true) l))
    (fun keys => Ok (sort_by_key TargetKey_String keys))) = Ok keys).
  { unfold TargetsForEvent in E. destruct (Ev_Kind event); done. }
  apply rbind_ok in Hk as (l & El & Hk). apply rbind_ok in Hk as (ks & Eks & [= <-]).
  unfold listTargets in El. apply rbind_ok in El as (r & Er & [= <-]). apply (decode_targets_ok _ _ _ Er c spec Hc) in Hd.
  destruct (target_keys_ok _ _ Eks _ (proj2 (list_elem_of_filter _ _ _) (conj Ha (proj2 (elem_of_Permutation_proper _ _ _ (sort_slice_perm target_less r)) Hd)))) as (k & Hk & Hin).
  exists k. split; [done|]. by rewrite sort_by_key_perm.
Qed.
End keys.

(** ** The scope of the informers *)

Lemma platformScopesEqual_spec l r : platformScopesEqual l r = true <-> l = r.
Proof.
  unfold platformScopesEqual. rewrite !andb_true_iff, !bool_decide_eq_true, !Bool.eqb_true_iff. destruct l, r; cbn. split; [naive_solver|intros [=]; naive_solver].
Qed.

Lemma existsb_perm {A} (f : A -> bool) l l' : l ≡ₚ l' -> existsb f l = existsb f l'.
Proof.
  intros Hp. apply Bool.eq_iff_eq_true. rewrite !existsb_exists. by setoid_rewrite <- list_elem_of_In; setoid_rewrite Hp.
Qed.

Lemma scope_sources_elem root ds s : s ∈ sc_sources (platformEventScope root ds) <->
  s ∈ [SourceService; SourceIngress; SourceGateway] /\ exists d, d ∈ ds /\ SourceEnabled (options_of_sources (D_Sources d)) s = true.
Proof.
  cbn [platformEventScope sc_sources]. unfold sort_strings. rewrite sort_by_key_perm, elem_of_elements. unfold source_set.
  rewrite elem_of_list_to_set, list_elem_of_bind. setoid_rewrite list_elem_of_filter. naive_solver.
Qed.

Lemma scope_facts root ds d : d ∈ ds -> let scope := platformEventScope root ds in
  (forall s, s ∈ [SourceService; SourceIngress; SourceGateway] -> SourceEnabled (source_options (runner_config (target_settings root d))) s = true ->
     s ∈ sc_sources scope) /\
  (sc_namespaces scope = [] \/ (D_Namespaces d <> [] /\ forall ns, NamespaceAllowed (source_options (runner_config (target_settings root d))) ns = true ->
     ns ∈ sc_namespaces scope)) /\
  (forall ns, GatewayTargetNamespaceAllowed (source_options (runner_config (target_settings root d))) ns = true -> ns ∈ sc_gatewayNamespaces scope) /\
  (PublishHeadlessServices (source_options (runner_config (target_settings root d))) = true -> sc_headless scope = true) /\
  (D_OwnershipMode d = OwnershipModeShared -> sc_ownership scope = true) /\ (D_ApprovalMode d = ApprovalModeRequired -> sc_planApproval scope = true) /\
  (forall ds', ds ≡ₚ ds' -> platformEventScope root ds' = scope) /\ (forall other, platformScopesEqual scope other = true <-> other = scope).
Proof.
  intros Hd. cbv zeta.
  assert (Hex : forall f : Definition_ -> bool, f d = true -> existsb f ds = true).
  { intros f Hf. apply existsb_exists. exists d. split; [by apply list_elem_of_In|done]. }
  split_and!.
  - intros s Hs He. apply scope_sources_elem. split; [done|]. by exists d.
  - cbn [platformEventScope sc_namespaces]. destruct (existsb _ ds) eqn:Ee; [by left|right].
    assert (Hne : D_Namespaces d <> []). { intros E. rewrite (Hex (fun d => bool_decide (D_Namespaces d = []))) in Ee; [done|]. by apply bool_decide_eq_true. }
    split; [done|]. intros ns. unfold NamespaceAllowed. cbn. destruct (D_Namespaces d) as [|a l] eqn:En; [done|]. intros Ha.
    change (existsb (fun s => s =s ns) (a :: l) = true) in Ha. apply existsb_exists in Ha as (x & Hx & Hf). bools. subst x.
    unfold sort_strings. rewrite sort_by_key_perm, elem_of_elements. apply elem_of_list_to_set, list_elem_of_bind. exists d. rewrite En. split; [by apply list_elem_of_In|done].
  - intros ns Ha. apply existsb_exists in Ha as (x & Hx & Hf). bools. subst x. cbn [platformEventScope sc_gatewayNamespaces].
    unfold sort_strings. rewrite sort_by_key_perm, elem_of_elements. apply elem_of_list_to_set, list_elem_of_bind. exists d. split; [by apply list_elem_of_In|done].
  - intros Hh. apply (Hex _). exact Hh.
  - intros Hm%eqb_eq_iff. exact (Hex (fun d => D_OwnershipMode d =s OwnershipModeShared) Hm).
  - intros Hm%eqb_eq_iff. exact (Hex (fun d => D_ApprovalMode d =s ApprovalModeRequired) Hm).
  - intros ds' Hp. unfold platformEventScope. f_equal; try (symmetry; by apply existsb_perm).
    + apply sort_strings_unique. unfold source_set. by rewrite Hp.
    + rewrite (existsb_perm _ ds ds' Hp). destruct (existsb _ ds'); [done|]. apply sort_strings_unique. unfold namespace_set. by rewrite Hp.
    + apply sort_strings_unique. unfold gateway_set. by rewrite Hp.
  - intros other. rewrite platformScopesEqual_spec. naive_solver.
Qed.

(** The informers watch everything the runnable targets need: every enabled
    source, every namespace (all of them as soon as one target is unrestricted),
    every namespace of gateways, and the claims and plans of the targets that use
    them.  The scope does not depend on the order in which targets are listed, and
    caches are rebuilt exactly when it changes. *)
Theorem event_scope_covers root ds d : d ∈ ds -> let scope := platformEventScope root ds in
  (forall s, s ∈ [SourceService; SourceIngress; SourceGateway] -> SourceEnabled (source_options (runner_config (target_settings root d))) s = true ->
     s ∈ sc_sources scope) /\
  (sc_namespaces scope = [] \/ (D_Namespaces d <> [] /\ forall ns, NamespaceAllowed (source_options (runner_config (target_settings root d))) ns = true ->
     ns ∈ sc_namespaces scope)) /\
  (forall ns, GatewayTargetNamespaceAllowed (source_options (runner_config (target_settings root d))) ns = true -> ns ∈ sc_gatewayNamespaces scope) /\
  (PublishHeadlessServices (source_options (runner_config (target_settings root d))) = true -> sc_headless scope = true) /\
  (D_OwnershipMode d = OwnershipModeShared -> sc_ownership scope = true) /\ (D_ApprovalMode d = ApprovalModeRequired -> sc_planApproval scope = true) /\
  (forall ds', ds ≡ₚ ds' -> platformEventScope root ds' = scope) /\ (forall other, platformScopesEqual scope other = true <-> other = scope).
Proof. apply scope_facts. Qed.

(** ** What the status of a target says *)

Lemma state_of_true g ok s f : CS_Status (state_of g ok s f) = ConditionTrue <-> ok = true.
Proof. unfold state_of. destruct ok; cbn; naive_solver. Qed.

(** The published condition of a type says what the conditions passed in say. *)
Lemma published_state previous incoming now c s : c ∈ buildConditions previous incoming now -> incoming !! C_Type c = Some s ->
  C_Status c = sanitizeConditionStatus (CS_Status s) /\ C_Reason c = sanitizeReason (CS_Reason s).
Proof.
  intros Hc Hs. apply list_elem_of_fmap in Hc as (t & -> & _). rewrite build_condition_type in Hs.
  destruct (build_condition_content (old_conditions previous) incoming now t) as (H1 & H2 & _). rewrite Hs in H1, H2. done.
Qed.

Lemma sanitize_true s : sanitizeConditionStatus s = ConditionTrue -> s = ConditionTrue.
Proof. unfold sanitizeConditionStatus. by case_bool_decide. Qed.

(** The published conditions of an audit are honest: Ready means that the audit
    succeeded with every policy compiled; DriftFree that it also had nothing to do;
    DiscoveryComplete and ProviderReachable that discovery was complete and the
    listing stable with a revision; OwnershipHealthy that no conflict was planned or
    met; PlanApproved, where approval is required and there is something to apply,
    that the plan was approved.  Without an audit nothing else than approval can be
    claimed. *)
Theorem target_conditions_honest g required audit approved e previous now c :
  c ∈ buildConditions previous (targetConditions g required audit approved e) now -> C_Status c = ConditionTrue ->
  (C_Type c = ConditionReady -> e = None /\ exists a, audit = Some a /\ PolicyComplete a = true) /\
  (C_Type c = ConditionDriftFree -> e = None /\ exists a, audit = Some a /\ PolicyComplete a = true /\ Audit_Operations a = []) /\
  (C_Type c = ConditionDiscoveryComplete -> exists a, audit = Some a /\ DiscoveryComplete a = true) /\
  (C_Type c = ConditionProviderReachable -> exists a, audit = Some a /\ ProviderSnapshotStable a = true /\ Audit_ProviderRevision a <> "") /\
  (C_Type c = ConditionOwnershipHealthy -> isOwnershipError e = false /\ exists a, audit = Some a /\ ConflictCount a <= 0) /\
  (C_Type c = ConditionPolicyAccepted -> exists a, audit = Some a /\ PolicyComplete a = true) /\
  (C_Type c = ConditionPlanApproved -> required = true -> approved = true \/ exists a, audit = Some a /\ Audit_Operations a = []).
Proof.
  intros Hc Hs.
  assert (Hstate : forall t s, C_Type c = t -> targetConditions g required audit approved e !! t = Some s -> CS_Status s = ConditionTrue).
  { intros t s Ht Hl. rewrite <- Ht in Hl. destruct (published_state _ _ _ _ _ Hc Hl) as [Hp _]. apply sanitize_true. congruence. }
  assert (Hholds : forall f, audit_holds audit f = true -> exists a, audit = Some a /\ f a = true) by (intros f; destruct audit; cbn; [eauto|discriminate]).
  assert (Hready : is_ready audit e = true -> e = None /\ exists a, audit = Some a /\ PolicyComplete a = true).
  { unfold is_ready. intros [He%bool_decide_eq_true Ha]%andb_true_iff. auto. }
  split_and!; intros Ht.
  - apply Hready. eapply state_of_true, (Hstate _ _ Ht). reflexivity.
  - pose proof (Hstate _ _ Ht eq_refl) as H1. apply state_of_true, andb_true_iff in H1 as [H1 H2]. destruct (Hready H1) as (-> & a & -> & Hp).
    split; [done|]. exists a. cbn in H2. split_and!; [done|done|]. by destruct (Audit_Operations a).
  - apply Hholds. eapply state_of_true, (Hstate _ _ Ht). reflexivity.
  - pose proof (Hstate _ _ Ht eq_refl) as H1. apply state_of_true, Hholds in H1 as (a & -> & H1). bools. eauto.
  - pose proof (Hstate _ _ Ht eq_refl) as H1. unfold ownership_state in H1. destruct (isOwnershipError e) eqn:Eo; [done|]. cbn [orb] in H1. split; [done|].
    destruct audit as [a|]; [|done]. cbn [audit_holds] in H1. destruct (Z.ltb_spec 0 (ConflictCount a)); [done|]. eauto.
  - apply Hholds. eapply state_of_true, (Hstate _ _ Ht). reflexivity.
  - intros Hr. pose proof (Hstate _ _ Ht eq_refl) as H1. unfold plan_state in H1. destruct (_ && _); [done|]. rewrite Hr in H1. cbn [negb orb] in H1.
    destruct (audit_holds audit _) eqn:Eh; [|left; by apply state_of_true in H1]. right. apply Hholds in Eh as (a & -> & Eh). exists a. split; [done|].
    by destruct (Audit_Operations a).
Qed.

(** ** Authority *)

Section authority.
Context {W Raw : Type} `{KeyValidation} `{Platform} (cfg : Settings) (env : PlatformEnv W Raw).

Lemma authorize_ok m key r w w' : authorizeTargetRuntime env m key r w = (w', Ok tt) ->
  exists w1 material, get_target env (TK_Namespace key) (TK_Name key) w = (w1, Ok (D_UID (R_Definition r), D_Generation (R_Definition r))) /\
    resolveCredentials (managed env) (R_Definition r) w1 = (w', Ok material) /\ M_fingerprint material = credentialFingerprint r /\
    RuntimeCurrent (m w) (TargetKey_String key) r = true /\ RuntimeCurrent (m w') (TargetKey_String key) r = true /\ context_ended env w' = false.
Proof.
  unfold authorizeTargetRuntime. intros E. apply bind_ok in E as ([] & w0 & Ec & E).
  assert (Hcur : forall w w', (w, if RuntimeCurrent (m w) (TargetKey_String key) r && negb (context_ended env w) then Ok tt else Err AuthorityCancelled) = (w', Ok tt) ->
    w' = w /\ RuntimeCurrent (m w) (TargetKey_String key) r = true /\ context_ended env w = false).
  { intros u u' [= <- Hu]. destruct (_ && _) eqn:Eu in Hu; [|done]. apply andb_true_iff in Eu as [Eu En]. by bools. }
  apply Hcur in Ec as (-> & Hr & _). apply bind_ok in E as ([uid gen] & w1 & Eg & E). apply wrap_ok in Eg. run_ok E. cbn [fst snd] in *. bools.
  apply Z.eqb_eq in H2. subst uid gen. apply bind_ok in E as (fresh & w2 & Ef & E). apply wrap_ok in Ef. run_ok E. apply Hcur in E as (-> & Hr' & Hn).
  unfold CredentialsCurrent in Ef. apply bind_ok in Ef as (mat & w3 & Em & [= <- <-]). unfold attempt in Em.
  destruct (resolveCredentials (managed env) (R_Definition r) w1) as [w4 r4] eqn:Er. injection Em as <- <-.
  destruct r4 as [material|]; [|done]. bools. exists w1, material. by split_and!.
Qed.

(** C4. A prepared audit is applied only with current authority: its runtime is
    still the one of its key and namespace, the live target object has the UID and
    generation the runtime was built from, and the credentials of the target still
    resolve to the ones it was built with; the same check guards every mutation.
    Otherwise nothing is applied. *)
Theorem event_apply_authorized steps m key audit w w' r :
  event_apply cfg env steps m key audit w = (w', r) ->
  let rt := pa_runtime (TA_State audit) in
  (exists w1 w2 material, authorizeTargetRuntime env m key rt w = (w2, Ok tt) /\
     TargetKey_String key = D_Key (R_Definition rt) /\ TK_Namespace key = Cfg_PlatformNamespace cfg /\
     get_target env (TK_Namespace key) (TK_Name key) w = (w1, Ok (D_UID (R_Definition rt), D_Generation (R_Definition rt))) /\
     resolveCredentials (managed env) (R_Definition rt) w1 = (w2, Ok material) /\ M_fingerprint material = credentialFingerprint rt /\
     RuntimeCurrent (m w2) (TargetKey_String key) rt = true /\ context_ended env w2 = false /\
     exists w3 approved e, ApplyPrepared_step steps (authorizeTargetRuntime env m key rt) (pa_runner (TA_State audit)) rt (pa_audit (TA_State audit)) w2 =
       (w3, (approved, e)) /\ r = EvAudit <$> e) \/
  (r = Some EvCancelled /\ w' = heartbeat_MarkAttempt env w) \/
  exists e w1, r = Some (EvAuthority e) /\ authorizeTargetRuntime env m key rt w = (w1, Err e) /\ w' = heartbeat_MarkAttempt env w1.
Proof.
  unfold event_apply. destruct (TA_State audit) as [rt runner a]. cbn [pa_runtime pa_runner pa_audit].
  destruct (_ || _) eqn:Eg; [intros [= <- <-]; auto|]. bools.
  destruct (authorizeTargetRuntime env m key rt w) as [w2 [[]|e]] eqn:Ea; [|intros [= <- <-]; eauto 10].
  destruct (ApplyPrepared_step steps _ runner rt a w2) as [w3 [approved e]] eqn:Ep. intros [= _ <-]. left.
  pose proof Ea as Ea'. apply authorize_ok in Ea' as (w1 & material & H3 & H4 & H5 & H6 & H7 & H8). exists w1, w2, material. split_and!; eauto.
Qed.
End authority.

(** ** The loops *)

Section loops.
Context {W Raw : Type} `{KeyValidation} `{Platform} (cfg : Settings) (env : PlatformEnv W Raw) (steps : RunnerSteps W)
  (SetQueueState : string -> Z -> Z -> W -> W) (run : PlatformRuntimeConfig -> RuntimeManager -> W -> W * (RuntimeManager * RuntimeEnd)).

Lemma polling_ends fuel : forall m deadlines w w' m' e, polling_loop cfg env steps SetQueueState fuel m deadlines w = (w', (m', Returned e)) ->
  Cfg_Once cfg = true \/ (e = Some ModeContext /\ exists d w0, sleepContext env d w0 = (w', false)).
Proof.
  induction fuel as [|fuel IH]; intros m deadlines w w' m' e E; cbn [polling_loop] in E; [done|].
  destruct (runScheduledTargetCycle _ _ _ _ m deadlines w) as [w1 [[[m1 d1] delay] r]]. destruct (Cfg_Once cfg); [by left|].
  destruct (sleepContext env delay _) as [w2 [|]] eqn:Es; [by eapply IH|]. injection E as <- _ <-. right. eauto.
Qed.

(** How event mode may end. *)
Definition event_end (w : W) (e : option ModeError) : Prop :=
  (e = Some ModeContext /\ exists d w0, sleepContext env d w0 = (w, false)) \/
  exists config m m' w0 how, run config m w0 = (w, (m', how)) /\
    match how with
    | EndedScopeChanged => context_ended env w = true
    | EndedContext => e = None
    | EndedError x => e = Some (ModeRun x)
    end.

Lemma event_ends fuel : forall m w w' m' e, runEventTargetMode cfg env run fuel m w = (w', (m', Returned e)) -> event_end w' e.
Proof.
  induction fuel as [|fuel IH]; intros m w w' m' e E; cbn [runEventTargetMode] in E; [done|].
  destruct (loadTargetDefinitions cfg env m w) as [w1 [load|le]].
  - destruct (run (runtime_config cfg load) m w1) as [w2 [m2 how]] eqn:Er. unfold event_end.
    destruct how; [destruct (context_ended env w2) eqn:Ec; [|by eapply IH]|..]; injection E as <- _ <-; right; do 5 eexists; (split; [exact Er|]); done.
  - destruct (sleepContext env _ _) as [w2 [|]] eqn:Es; [by eapply IH|]. injection E as <- _ <-. left. eauto.
Qed.

(** C25. Failures never end target mode: unless it runs once, it returns only when
    its context has ended or when the informers, queue and workers of a scope have
    ended with an error of their own; a failed listing, a failed synchronization,
    failed audits and a changed scope all lead to another round.  With [--once] it
    returns after one cycle.  Whenever it returns, no runtime is left behind.  Only
    where there is no client to read credentials with does it return before all of
    this, with an error and having done nothing. *)
Theorem target_mode_survives fuel w w' m r : runTargetMode cfg env steps SetQueueState run fuel w = (w', (m, r)) ->
  (core_reader (managed env) = None -> w' = w /\ m = None /\ r = Returned (Some (ModeSetup "credential core reader is required"))) /\
  (is_Some (core_reader (managed env)) ->
   (Cfg_Once cfg = true -> (0 < fuel)%nat -> exists e, r = Returned e) /\
   forall e, r = Returned e -> runtimes <$> m = Some ∅ /\
     (Cfg_Once cfg = true \/ exists w0,
        if Cfg_EventDriven cfg then event_end w0 e else e = Some ModeContext /\ exists d w1, sleepContext env d w1 = (w0, false))).
Proof.
  unfold runTargetMode, newTargetRuntimeManager. destruct (core_reader (managed env)) as [core|]; cycle 1.
  { intros [= <- <- <-]. split; [done|]. by intros [? ?]. }
  intros Hrun. split; [done|]. intros _. revert Hrun. destruct (Cfg_EventDriven cfg && negb (Cfg_Once cfg)) eqn:Em.
  - apply andb_true_iff in Em as [Ee Eo]. rewrite Ee. destruct (runEventTargetMode cfg env run fuel NewRuntimeManager w) as [w1 [m1 r1]] eqn:E.
    destruct r1 as [|e]; intros [= _ <- <-]; (split; [by destruct (Cfg_Once cfg)|]); [done|]. intros x [= <-]. split; [done|]. right. exists w1. by eapply event_ends.
  - destruct (polling_loop cfg env steps SetQueueState fuel NewRuntimeManager ∅ w) as [w1 [m1 r1]] eqn:E.
    assert (Honce : Cfg_Once cfg = true -> (0 < fuel)%nat -> exists e, r1 = Returned e).
    { intros Ho Hf. destruct fuel as [|fuel]; [lia|]. cbn [polling_loop] in E.
      destruct (runScheduledTargetCycle _ _ _ _ _ _ w) as [w2 [[[m2 d2] delay] x]]. rewrite Ho in E. injection E as _ _ <-. eauto. }
    destruct r1 as [|e]; intros [= _ <- <-]; (split; [done|]); [done|]. intros x [= <-]. split; [done|].
    destruct (Cfg_Once cfg) eqn:Eo; [by left|right]. rewrite andb_true_r in Em. rewrite Em. exists w1.
    destruct (polling_ends _ _ _ _ _ _ _ E) as [?|?]; [congruence|done].
Qed.
End loops.
