(* ===== verification/PlatformExamples.v ===== *)
(** * A small platform

    Status objects kept in a world that is the object itself, a worker with two
    caches, two targets, and a runtime with its credentials: the theorems about the
    status writer, the workers and target mode applied to them. *)
From Stdlib Require Import String Ascii ZArith Lia.
From S2P Require Import Prelude Effects GoStrings NetIP GoEncoding Endpoint Plan Document Queue Scheduling Client Sources Policy Gateways Runner.
From S2P Require Import ChangePlans Apply Claims DocumentExamples Settings Targets Runtimes StatusWriter StatusLaws Workers Platform PlatformLaws TargetExamples.
Open Scope string_scope.
Open Scope list_scope.
Open Scope Z_scope.
Open Scope go_scope.

(** ** The status of a target *)

Definition hash_a : string := "aaaaaaaaaaaaaaaaaaaaaaaaaaaaaaaaaaaaaaaaaaaaaaaaaaaaaaaaaaaaaaaa".
Definition hash_b : string := "bbbbbbbbbbbbbbbbbbbbbbbbbbbbbbbbbbbbbbbbbbbbbbbbbbbbbbbbbbbbbbbb".
Definition snapshot (hash : string) : StatusSnapshot :=
  mkStatusSnapshot 2 "rev-1" (mkCounts 3 3 0 0) hash (Some 5) None ∅ (Some (mkStatusAudit hash "Succeeded" (Some 5) (mkCounts 3 3 0 0))).

(** Three writes, the second of which repeats the first; a retention of one keeps the last. *)
Example history_kept : AS_PlanHash <$> History (writes_of 1 no_status [(Some 1, snapshot hash_a); (Some 2, snapshot hash_a); (Some 3, snapshot hash_b)]) = [hash_b].
Proof. vm_compute. reflexivity. Qed.

Lemma history_bounded_witness : Z.of_nat (length (History (writes_of 1 no_status [(Some 1, snapshot hash_a); (Some 3, snapshot hash_b)]))) <= 1.
Proof. exact (proj1 (proj1 (proj1 (history_bounded 1 no_status [(Some 1, snapshot hash_a); (Some 3, snapshot hash_b)] eq_refl)))). Defined.

(** The world is the object; the first write of a version loses a race. *)
Record Store := mkStore { stored : option StatusObject; races : nat }.

Definition local_status : StatusAPI Store StatusObject := mkStatusAPI
  (fun _ w => (w, match stored w with Some o => Ok o | None => Err NotFound end))
  (fun o w => (mkStore (Some o) (races w), Ok o))
  (fun o w => match races w with O => (mkStore (Some o) 0, Ok o) | S n => (mkStore (stored w) n, Err Conflict) end)
  Ok Ok (fun _ => 9).

Definition writer : Writer := mkWriter "edge" "com" 10.

Example written : exists o, (Write local_status writer (snapshot hash_a) (mkStore None 2)).1 = mkStore (Some o) 0 /\
  SO_Status o = buildStatus 10 (Some 9) no_status (snapshot hash_a).
Proof. eexists. split; vm_compute; reflexivity. Qed.

Lemma Write_publishes_witness : exists w o previous, Write local_status writer (snapshot hash_a) (mkStore None 2) = (w, Ok tt) /\ stored w = Some o /\
  SO_Status o = buildStatus 10 (Some 9) previous (snapshot hash_a).
Proof.
  destruct (Write local_status writer (snapshot hash_a) (mkStore None 2)) as [w [[]|e]] eqn:E; [|vm_compute in E; discriminate].
  destruct (Write_publishes local_status writer (snapshot hash_a) (mkStore None 2) w E) as (w0 & raw & w1 & typed & updated & answer & _ & _ & Hu & Ha).
  exists w, updated, (SO_Status typed). split; [reflexivity|]. cbn in Ha. destruct (races w1); [|discriminate]. injection Ha as <- _.
  split; [reflexivity|]. cbn in Hu. injection Hu as <-. reflexivity.
Defined.

(** Too many races are reported. *)
Example write_gives_up : (Write local_status writer (snapshot hash_a) (mkStore None 5)).2 = Err (WriteAPI Conflict).
Proof. vm_compute. reflexivity. Qed.

(** ** The heartbeat and the worker *)

Definition life : list (Z * HeartbeatEvent) := [(0, BecomesActive true); (10, Attempts); (40, BecomesActive true)].

Lemma heartbeat_exact_witness : Healthy 60 50 (beats life) = true /\ Healthy 61 50 (beats life) = false.
Proof.
  assert (Hs : forall now, 40 <= now -> StronglySorted Z.le (life.*1 ++ [now])).
  { intros now H. cbn. repeat (constructor; [|repeat constructor; lia]). constructor. }
  split.
  - apply (heartbeat_exact life 60 50); [apply Hs; lia|lia|]. right. exists [(0, BecomesActive true)], 10, Attempts, [(40, BecomesActive true)].
    split; [reflexivity|]. split; [lia|reflexivity].
  - vm_compute. reflexivity.
Defined.

(** The world of the worker is the number of changes it made. *)
Definition workshop (synced : bool) : WorkerEnv nat string := mkWorkerEnv
  (fun _ w => (w, Ok (mkTargetAudit true true true "audit"))) (fun _ _ w => (S w, Ok tt))
  (fun _ => Some [mkCacheRequirement EventService (Some synced)]) (fun _ => false).

Definition com_key : TargetKey := mkTargetKey "edge" "com".

Lemma processTarget_safe_witness : processTarget (workshop true) com_key 0%nat = (1%nat, Ok tt) /\ exists e, processTarget (workshop false) com_key 0%nat = (0%nat, Err e).
Proof.
  split; [vm_compute; reflexivity|]. destruct (processTarget (workshop false) com_key 0%nat) as [w r] eqn:E.
  destruct (processTarget_safe (workshop false) com_key 0%nat w r E) as [(a & w1 & _ & _ & H & _)|(e & -> & [-> | [x [= <- _]]])];
    [vm_compute in H; discriminate|by exists e..].
Defined.

(** ** Events *)

Definition com_spec : TargetSpec :=
  mkTargetSpec "https://fw.example.com" "root" "example.com" (mkSecretRef "token" "value" None) None false OwnershipModeShared "ctl"
    ["Service "] ["web"] [] [] "" false "" false 0 0 0 2 300 false false.
Definition cached : list (option CachedTarget) := [Some (mkCachedTarget "edge" "com" "uid" 1 (Some com_spec) None)].
Definition service_event : Event := mkEvent EventService EventUpdate "web" "www" "" "1" "2".

#[local] Instance plain_keys : KeyValidation := TargetExamples.plain_keys.

Lemma event_reaches_watching_target_witness : exists k keys, TargetsForEvent (Some cached) service_event = Ok keys /\ k ∈ keys /\ TargetKey_String k = "edge/com".
Proof.
  destruct (TargetsForEvent (Some cached) service_event) as [keys|e] eqn:E; [|vm_compute in E; discriminate].
  destruct (event_reaches_watching_target loaded (Some cached) cached (mkCachedTarget "edge" "com" "uid" 1 (Some com_spec) None) com_spec service_event keys)
    as (k & Hk & Hin); [reflexivity|by left|reflexivity| | |vm_compute; reflexivity|exact E|].
  - intros s Hs. apply list_elem_of_singleton in Hs as ->. vm_compute. discriminate.
  - intros s Hs. apply list_elem_of_singleton in Hs as ->. vm_compute. discriminate.
  - exists k, keys. split; [reflexivity|]. split; [exact Hin|]. vm_compute in Hk. injection Hk as <-. vm_compute. reflexivity.
Defined.

Lemma event_scope_covers_witness : SourceService ∈ sc_sources (platformEventScope loaded [valid com; valid org]).
Proof.
  destruct (event_scope_covers loaded [valid com; valid org] (valid com)) as (H & _); [by left|]. apply H; [by left|vm_compute; reflexivity].
Defined.

(** ** Conditions *)

Definition quiet_audit : ReconcileAudit := mkAudit [] ex_doc hash_a "rev-1" 3 3 0 false true true true.

Lemma target_conditions_honest_witness : exists c, c ∈ buildConditions [] (targetConditions 2 true (Some quiet_audit) false None) (Some 9) /\
  C_Type c = ConditionDriftFree /\ C_Status c = ConditionTrue /\ Audit_Operations quiet_audit = [].
Proof.
  set (c := mkCondition ConditionDriftFree ConditionTrue 2 (Some 9) ReasonDriftFree "No provider drift is present.").
  assert (Hc : c ∈ buildConditions [] (targetConditions 2 true (Some quiet_audit) false None) (Some 9))
    by (vm_compute; do 6 right; left).
  exists c. split; [exact Hc|]. split; [reflexivity|]. split; [reflexivity|].
  destruct (target_conditions_honest 2 true (Some quiet_audit) false None [] (Some 9) c Hc eq_refl) as (_ & Hd & _).
  destruct (Hd eq_refl) as (_ & a & [= <-] & _ & Ha). exact Ha.
Defined.

(** ** Authority *)

(** The live object of every target has the UID and generation of [com]. *)
Definition cluster (generation : Z) : PlatformEnv Fleet unit := mkPlatformEnv
  (fun _ w => (w, Err NotFound)) (fun _ _ w => (w, Ok ("com-uid", generation)))
  (fun _ => mkStatusAPI (fun _ w => (w, Err NotFound)) (fun _ w => (w, Err (OtherError "forbidden"))) (fun _ w => (w, Err (OtherError "forbidden"))) (fun _ => Err "") (fun _ => Err "") (fun _ => 0))
  fleet (fun _ _ w => w) (fun _ w => w) (fun w => w) (fun _ w => (w, true)) (fun _ => 0) (fun _ => false).

(** The command line of target mode. *)
Definition fleet_settings : Settings :=
  Eval vm_compute in match load (fun _ => "") [("target-mode", "true"); ("platform-namespace", "edge")] with Ok c => c | Err _ => loaded end.

(** The runtimes after the first synchronization. *)
Definition running : RuntimeManager := first_sync.2.1.
Definition accepts : RunnerSteps Fleet := mkRunnerSteps (fun _ => (true, true)) (fun _ _ w => (w, Ok quiet_audit)) (fun _ _ _ _ w => (w, (true, None))).
Definition prepared (rt : Runtime) : TargetAudit preparedTargetAudit :=
  mkTargetAudit false true true (mkPrepared rt (mkTargetRunner fleet_settings true "com" (mkTargetIdentity "edge" "com" "com-uid" 1 "root" "example.com")
    false false "" 0 true) quiet_audit).

Lemma event_apply_authorized_witness : exists rt, runtimes running !! "edge/com" = Some rt /\
  (event_apply fleet_settings (cluster 1) accepts (fun _ => running) com_key (prepared rt) first_sync.1).2 = None /\
  (* a new generation of the target *)
  exists e, (event_apply fleet_settings (cluster 2) accepts (fun _ => running) com_key (prepared rt) first_sync.1).2 = Some e.
Proof.
  destruct (runtimes running !! "edge/com") as [rt|] eqn:Er; [|vm_compute in Er; discriminate]. exists rt. split; [reflexivity|].
  assert (Hg : D_Generation (R_Definition rt) = 1) by (vm_compute in Er; injection Er as <-; reflexivity).
  split; [vm_compute in Er; injection Er as <-; vm_compute; reflexivity|].
  destruct (event_apply fleet_settings (cluster 2) accepts (fun _ => running) com_key (prepared rt) first_sync.1) as [w r] eqn:E.
  destruct (event_apply_authorized fleet_settings (cluster 2) accepts (fun _ => running) com_key (prepared rt) first_sync.1 w r E)
    as [(w1 & w2 & m & _ & _ & _ & Hget & _)|[[-> _]|(e & w1 & -> & _)]]; [|by eexists..].
  cbn in Hget. injection Hget as _ _ Hgen. rewrite Hg in Hgen. discriminate.
Defined.
