(* ===== verification/EventsLaws.v ===== *)
(** * From an object of the cluster to the targets that need it

    Which targets are loaded, which informers are built for them, when their caches
    count as synchronized, and which changes of an object count as events. *)
From Stdlib Require Import String Ascii ZArith Lia.
From S2P Require Import Prelude Effects GoStrings NetIP GoEncoding Endpoint Plan Document Queue Scheduling Client Sources Policy Gateways SourcesLaws Runner.
From S2P Require Import ChangePlans Apply Claims Settings SettingsLaws Targets TargetsLaws Runtimes RuntimesLaws StatusWriter StatusLaws Workers Platform PlatformLaws.
Open Scope string_scope.
Open Scope list_scope.
Open Scope Z_scope.
Open Scope go_scope.

(** ** Loading *)

(** The key of a target. *)
Definition key_of (namespace name : string) : string :=
  if TrimSpace namespace =s "" then TrimSpace name else TrimSpace namespace +:+ "/" +:+ TrimSpace name.

Section loading.
Context {W Raw : Type} `{KeyValidation} `{Platform} (cfg : Settings) (env : PlatformEnv W Raw).

Lemma preflight_kept objects : forall w w' eligible bad, preflight env objects w = (w', (eligible, bad)) ->
  (forall o, o ∈ eligible -> o ∈ objects) /\
  (forall o, o ∈ objects -> o ∈ eligible \/ is_Some (bad !! D_Key (FromAPI o))) /\
  (forall o, o ∈ eligible -> (exists ds e, ValidateAll [FromAPI o] = (ds, Err e)) \/
     exists w1 w2, CheckCredentials (managed env) (FromAPI o) w1 = (w2, Ok tt)).
Proof.
  induction objects as [|o rest IH]; cbn [preflight]; intros w w' eligible bad E.
  { injection E as _ <- <-. split_and!; by intros ? ?%not_elem_of_nil. }
  assert (Hkeep : forall w0 eligible0 bad0, preflight env rest w0 = (w', (eligible0, bad0)) -> eligible = o :: eligible0 -> bad = bad0 ->
    ((exists ds e, ValidateAll [FromAPI o] = (ds, Err e)) \/ exists w1 w2, CheckCredentials (managed env) (FromAPI o) w1 = (w2, Ok tt)) ->
    (forall x, x ∈ eligible -> x ∈ o :: rest) /\ (forall x, x ∈ o :: rest -> x ∈ eligible \/ is_Some (bad !! D_Key (FromAPI x))) /\
    (forall x, x ∈ eligible -> (exists ds e, ValidateAll [FromAPI x] = (ds, Err e)) \/ exists w1 w2, CheckCredentials (managed env) (FromAPI x) w1 = (w2, Ok tt))).
  { intros w0 eligible0 bad0 Er -> -> Ho. destruct (IH _ _ _ _ Er) as (H1 & H2 & H3). split_and!.
    - intros x [-> | Hx]%elem_of_cons; [by left|right; auto].
    - intros x [-> | Hx]%elem_of_cons; [left; by left|]. destruct (H2 x Hx); [left; by right|by right].
    - intros x [-> | Hx]%elem_of_cons; auto. }
  destruct (ValidateAll [FromAPI o]) as [ds [u|e]] eqn:Ev.
  - destruct (CheckCredentials (managed env) (FromAPI o) w) as [w1 [[]|reason]] eqn:Ec; destruct (preflight env rest w1) as [w2 [el0 bad0]] eqn:Er.
    + injection E as <- <- <-. eapply Hkeep; eauto.
    + injection E as <- <- <-. destruct (IH _ _ _ _ Er) as (H1 & H2 & H3). split_and!; [intros x Hx; right; auto| |done].
      intros x [-> | Hx]%elem_of_cons; [right; apply lookup_union_is_Some; right; apply lookup_insert_is_Some; by left|].
      destruct (H2 x Hx); [by left|right; apply lookup_union_is_Some; by left].
  - destruct (preflight env rest w) as [w2 [el0 bad0]] eqn:Er. injection E as <- <- <-. eapply Hkeep; eauto.
Qed.

Lemma decode_fold items : forall st, let st' := foldl decode_step st items in
  (forall o, o ∈ st'.1 <-> o ∈ st.1 \/ exists i, i ∈ items /\ LT_Decoded i = Some o) /\
  (forall k, is_Some (st.2 !! k) -> is_Some (st'.2 !! k)) /\
  (forall i, i ∈ items -> LT_Decoded i = None -> is_Some (st'.2 !! key_of (LT_Namespace i) (LT_Name i))).
Proof.
  induction items as [|i items IH]; intros st; cbn [foldl].
  { split_and!; [intros o; split; [auto|intros [?|(i & ?%not_elem_of_nil & _)]; done]|done|by intros ? ?%not_elem_of_nil]. }
  destruct (IH (decode_step st i)) as (H1 & H2 & H3). unfold decode_step in *. destruct (LT_Decoded i) as [o|] eqn:Ei; cbn [fst snd] in *.
  - split_and!.
    + intros x. rewrite H1. setoid_rewrite elem_of_cons. set_solver.
    + done.
    + intros j [-> | Hj]%elem_of_cons Hd; [congruence|auto].
  - split_and!.
    + intros x. rewrite H1. setoid_rewrite elem_of_cons. naive_solver.
    + intros k Hk. apply H2, lookup_insert_is_Some. destruct (decide (Inv_Key (mkInvalidTarget (LT_Namespace i) (LT_Name i) (LT_Generation i) FailureInvalid (InvalidConfiguration "decode target")) = k)); auto.
    + intros j [-> | Hj]%elem_of_cons Hd; [|auto]. apply H2, lookup_insert_is_Some. left. reflexivity.
Qed.

Lemma validate_alone d d' : validateDefinition d = (d', Ok tt) -> ValidateAll [d] = ([d'], Ok tt).
Proof. intros E. unfold ValidateAll. cbn [validate_each]. rewrite E. by case_bool_decide. Qed.

(** Loading accounts for every listed target: each one is runnable, or reported
    as invalid under its key (as written, or normalized).  The runnable ones are
    valid, their credentials resolved, their keys differ and no two of them may
    overwrite each other. *)
Theorem load_accounts_for_all m w w1 w' items load :
  list_targets env (Cfg_PlatformNamespace cfg) w = (w1, Ok items) -> loadTargetDefinitions cfg env m w = (w', Ok load) ->
  ForallOrdPairs (fun a b => D_Key a <> D_Key b /\ compatible a b) (load_definitions load) /\
  (forall d, d ∈ load_definitions load -> exists i o w2 w3, i ∈ items /\ LT_Decoded i = Some o /\ validateDefinition (FromAPI o) = (d, Ok tt) /\
     CheckCredentials (managed env) (FromAPI o) w2 = (w3, Ok tt)) /\
  (forall i, i ∈ items ->
     match LT_Decoded i with
     | None => is_Some (load_invalid load !! key_of (LT_Namespace i) (LT_Name i))
     | Some o => let d := (validateDefinition (FromAPI o)).1 in
         d ∈ load_definitions load \/ is_Some (load_invalid load !! D_Key d) \/ is_Some (load_invalid load !! D_Key (FromAPI o))
     end).
Proof.
  intros El E. unfold loadTargetDefinitions, bind, wrap in E. rewrite El in E.
  destruct (foldl decode_step ([], ∅) items) as [objects undecodable] eqn:Ed. pose proof (decode_fold items ([], ∅)) as (D1 & _ & D3).
  rewrite Ed in D1, D3. cbn [fst snd] in *. destruct (preflight env objects w1) as [w2 [eligible bad]] eqn:Ep.
  destruct (preflight_kept objects _ _ _ _ Ep) as (P1 & P2 & P3). unfold BuildIsolatedDefinitionsWithActive, check in E.
  destruct (negb (hasDirectFortiGateConfiguration _)); cbn [rbind] in E; [|done]. injection E as <- <-. cbn [load_definitions load_invalid].
  destruct (isolation_facts (FromAPI <$> eligible) (ActiveDefinitions m)) as (I1 & I2 & I3). split_and!; [exact I1| |].
  - intros d Hd. destruct (I2 d Hd) as (x & Hx & Hv). apply list_elem_of_fmap in Hx as (o & -> & Ho).
    apply P1 in Ho as Hobj. apply D1 in Hobj as [?%not_elem_of_nil|(i & Hi & Hdec)]; [done|].
    destruct (P3 o Ho) as [(ds & e & Hbad)|(wa & wb & Hc)]; [by rewrite (validate_alone _ _ Hv) in Hbad|]. eauto 10.
  - intros i Hi. destruct (LT_Decoded i) as [o|] eqn:Edec.
    + assert (Ho : o ∈ objects) by (apply D1; eauto). destruct (P2 o Ho) as [He|Hb].
      * destruct (I3 (FromAPI o)) as [Hv|Hv]; [apply list_elem_of_fmap; eauto|by left|].
        right; left. apply lookup_union_is_Some. by right.
      * right; right. apply lookup_union_is_Some. left. apply lookup_union_is_Some. left. rewrite lookup_fmap. by apply fmap_is_Some.
    + apply lookup_union_is_Some. left. apply lookup_union_is_Some. right. by apply D3.
Qed.

Lemma load_valid m w w' load : loadTargetDefinitions cfg env m w = (w', Ok load) ->
  forall d, d ∈ load_definitions load -> exists o, validateDefinition (FromAPI o) = (d, Ok tt).
Proof.
  intros E d Hd. unfold loadTargetDefinitions in E. apply bind_ok in E as (items & w1 & _ & E).
  destruct (foldl decode_step ([], ∅) items) as [objects undecodable]. destruct (preflight env objects w1) as [w2 [eligible bad]].
  destruct (BuildIsolatedDefinitionsWithActive cfg eligible (ActiveDefinitions m)) as [set|] eqn:Eb; [|done]. injection E as <- <-.
  unfold BuildIsolatedDefinitionsWithActive in Eb. apply rbind_ok in Eb as (? & _ & [= <-]). cbn [load_definitions] in Hd.
  destruct (isolation_facts (FromAPI <$> eligible) (ActiveDefinitions m)) as (_ & I2 & _). destruct (I2 d Hd) as (y & Hy & Hv).
  apply list_elem_of_fmap in Hy as (o & -> & _). eauto.
Qed.
End loading.

(** ** Informers *)

(** An informer sees the objects of this kind in this namespace. *)
Definition watched (bindings : list informerBinding) (kind : EventKind) (ns : string) : Prop :=
  exists b, b ∈ bindings /\ B_Kind b = kind /\ (B_Namespace b = NamespaceAll \/ B_Namespace b = ns).

Lemma informerNamespaces_elem values v : v ∈ values -> TrimSpace v <> "" -> TrimSpace v ∈ informerNamespaces values.
Proof.
  intros Hv Hne. unfold informerNamespaces. set (s := list_to_set _). assert (Hs : TrimSpace v ∈ s).
  { apply elem_of_list_to_set, list_elem_of_filter. split; [done|]. apply list_elem_of_fmap. eauto. }
  rewrite bool_decide_eq_false_2 by set_solver. unfold sort_strings. by rewrite sort_by_key_perm, elem_of_elements.
Qed.

(** The namespaces of a definition as validation leaves them. *)
Definition canonical_names (l : list string) : Prop := forall ns, ns ∈ l -> TrimSpace ns = ns /\ ns <> "".

Lemma normalizeValues_canonical l : canonical_names (normalizeValues l).
Proof. intros ns (Hne & v & _ & ->)%normalizeValues_elem. split; [by rewrite TrimSpace_ToLower, TrimSpace_idem|done]. Qed.

Lemma validated_lists `{KeyValidation} `{Platform} d d' : validateDefinition d = (d', Ok tt) ->
  canonical_names (D_Namespaces d') /\ canonical_names (D_GatewayTargetNamespaces d').
Proof.
  unfold validateDefinition. destruct (check_all _ _); [|done]. destruct (validate_identity _); [|done].
  destruct (negb _); [done|]. destruct (negb _); [done|]. intros [= <- _]. split; apply normalizeValues_canonical.
Qed.

Lemma enabled_source s sources : s ∈ [SourceService; SourceIngress; SourceGateway] -> s ∈ sources -> s ∈ normalizedSet sources.
Proof.
  intros Hs Hin. apply elem_of_list_to_set, list_elem_of_fmap. exists s. split; [|done].
  repeat (apply elem_of_cons in Hs as [-> | Hs]; [by vm_compute|]). by apply not_elem_of_nil in Hs.
Qed.

Section informers.
Context (root : Settings) (ds : list Definition_) (d : Definition_) (Hd : d ∈ ds)
  (Hns : canonical_names (D_Namespaces d)) (Hgw : canonical_names (D_GatewayTargetNamespaces d)).

Abbreviation scope := (platformEventScope root ds).
Abbreviation opts := (source_options (runner_config (target_settings root d))).

(** The informers of the sources see the namespaces discovery reads. *)
Lemma source_namespace_watched ns : NamespaceAllowed opts ns = true ->
  informerNamespaces (sc_namespaces scope) = [NamespaceAll] \/ (ns ∈ sc_namespaces scope /\ TrimSpace ns = ns /\ ns <> "").
Proof.
  destruct (scope_facts root ds d Hd) as (_ & [-> | [Hne Hall]] & _); [left; by vm_compute|]. intros Ha. right. split; [by apply Hall|].
  apply Hns. unfold NamespaceAllowed in Ha. cbn in Ha. destruct (D_Namespaces d) as [|a l] eqn:El; [done|].
  change (existsb (fun s => s =s ns) (a :: l) = true) in Ha. rewrite <- El in *.
  apply existsb_exists in Ha as (x & Hx & Hf). bools. subst x. by apply list_elem_of_In.
Qed.

Lemma gateway_namespace_watched ns : GatewayTargetNamespaceAllowed opts ns = true ->
  ns ∈ sc_gatewayNamespaces scope /\ TrimSpace ns = ns /\ ns <> "".
Proof.
  intros Ha. destruct (scope_facts root ds d Hd) as (_ & _ & Hg & _). split; [by apply Hg|]. apply Hgw.
  apply existsb_exists in Ha as (x & Hx & Hf). bools. subst x. by apply list_elem_of_In.
Qed.

Lemma source_watched_in ns : NamespaceAllowed opts ns = true ->
  exists x, x ∈ informerNamespaces (sc_namespaces scope) /\ (x = NamespaceAll \/ x = ns).
Proof.
  intros [-> | (Hin & Ht & Hne)]%source_namespace_watched; [exists NamespaceAll; split; [by left|by left]|].
  exists ns. split; [|by right]. rewrite <- Ht. apply informerNamespaces_elem; [done|]. by rewrite Ht.
Qed.

Lemma source_in_scope s : s ∈ [SourceService; SourceIngress; SourceGateway] -> SourceEnabled opts s = true -> s ∈ normalizedSet (sc_sources scope).
Proof. intros Hs He. apply enabled_source; [done|]. by apply (scope_facts root ds d Hd). Qed.

Lemma watch_source bindings kind ns : (forall x, x ∈ informerNamespaces (sc_namespaces scope) -> mkBinding kind x ∈ bindings) ->
  NamespaceAllowed opts ns = true -> watched bindings kind ns.
Proof. intros Hb (x & Hx & Hc)%source_watched_in. exists (mkBinding kind x). split_and!; [by apply Hb|done|done]. Qed.

(** The namespaces of the gateway informers. *)
Abbreviation gateways := (if bool_decide (informerNamespaces (sc_namespaces scope) = [NamespaceAll]) then [] else sc_namespaces scope ++ sc_gatewayNamespaces scope).

Lemma gateway_watched_in ns : NamespaceAllowed opts ns || GatewayTargetNamespaceAllowed opts ns = true ->
  exists x, x ∈ informerNamespaces gateways /\ (x = NamespaceAll \/ x = ns) /\
    (NamespaceAllowed opts ns = true -> informerNamespaceSelected (sc_namespaces scope) x = true).
Proof.
  intros Ha. unfold informerNamespaceSelected. case_bool_decide as Eall; [exists NamespaceAll; split_and!; [by left|by left|done]|].
  assert (Hin : forall l, ns ∈ l -> TrimSpace ns = ns -> ns <> "" -> l ⊆ sc_namespaces scope ++ sc_gatewayNamespaces scope ->
    ns ∈ informerNamespaces (sc_namespaces scope ++ sc_gatewayNamespaces scope)).
  { intros l Hl Ht Hne Hsub. rewrite <- Ht at 1. apply informerNamespaces_elem; [by apply Hsub|by rewrite Ht]. }
  destruct (NamespaceAllowed opts ns) eqn:En; cbn [orb] in Ha.
  - destruct (source_namespace_watched ns En) as [?|(H1 & H2 & H3)]; [done|]. exists ns. split_and!; [|by right|].
    + apply (Hin (sc_namespaces scope)); [done..|set_solver].
    + intros _. apply existsb_exists. exists ns. split; [by apply list_elem_of_In|]. rewrite H2. by apply eqb_eq_iff.
  - destruct (gateway_namespace_watched ns Ha) as (H1 & H2 & H3). exists ns. split_and!; [|by right|done].
    apply (Hin (sc_gatewayNamespaces scope)); [done..|set_solver].
Qed.
End informers.

(** The informers there are. *)
Lemma factories_bindings hc hg hd config bindings : newInformerFactories hc hg hd config = Ok bindings ->
  let enabled s := s ∈ normalizedSet (PC_Sources config) in
  let sources := informerNamespaces (PC_SourceNamespaces config) in
  let gateways := if bool_decide (sources = [NamespaceAll]) then [] else PC_SourceNamespaces config ++ PC_GatewayNamespaces config in
  (forall x, x ∈ sources -> (enabled "service" -> mkBinding EventService x ∈ bindings) /\
     (enabled "service" -> PC_Headless config = true -> mkBinding EventEndpointSlice x ∈ bindings) /\
     (enabled "ingress" -> mkBinding EventIngress x ∈ bindings) /\ (PC_Policy config = true -> mkBinding EventPolicy x ∈ bindings)) /\
  (forall x, x ∈ informerNamespaces gateways -> enabled "gateway" -> mkBinding EventGateway x ∈ bindings /\
     (informerNamespaceSelected (PC_SourceNamespaces config) x = true -> mkBinding EventHTTPRoute x ∈ bindings)) /\
  mkBinding EventTarget (PC_Namespace config) ∈ bindings /\
  (PC_Ownership config = true -> mkBinding EventOwnership (PC_Namespace config) ∈ bindings) /\
  (PC_PlanApproval config = true -> mkBinding EventChangePlan (PC_Namespace config) ∈ bindings).
Proof.
  unfold newInformerFactories. cbv zeta. destruct (negb hd); [done|]. destruct (_ =s _); [done|]. destruct (_ && negb hc); [done|].
  destruct (_ && negb hg); [done|]. intros [= <-]. split_and!.
  - intros x Hx. split_and!.
    + intros He. apply elem_of_app. left. apply list_elem_of_bind. exists x. split; [|done]. rewrite bool_decide_true by done. by left.
    + intros He Hh. apply elem_of_app. left. apply list_elem_of_bind. exists x. split; [|done]. rewrite bool_decide_true, Hh by done. by right; left.
    + intros He. apply elem_of_app. left. apply list_elem_of_bind. exists x. split; [|done]. apply elem_of_app. right.
      rewrite bool_decide_true by done. by left.
    + intros Hp. do 2 (apply elem_of_app; right). right. do 2 (apply elem_of_app; right). rewrite Hp. apply list_elem_of_fmap. eauto.
  - intros x Hx He. rewrite (bool_decide_true _ He). split; [|intros Hs]; (apply elem_of_app; right); (apply elem_of_app; left);
      apply list_elem_of_bind; exists x; (split; [|done]); [by left|]. rewrite Hs. by right; left.
  - do 2 (apply elem_of_app; right). by left.
  - intros Ho. do 2 (apply elem_of_app; right). right. apply elem_of_app; left. rewrite Ho. by left.
  - intros Ho. do 2 (apply elem_of_app; right). right. apply elem_of_app; right. apply elem_of_app; left. rewrite Ho. by left.
Qed.

Section cover.
Context {W Raw : Type} `{KeyValidation} `{Platform} (cfg : Settings) (env : PlatformEnv W Raw).

(** C15. The caches cover discovery: for the targets that were loaded, every object
    that the discovery of one of them reads (of a kind it is configured for, in a
    namespace it may read) is watched by an informer, as are the targets themselves,
    the claims of shared targets, the plans of targets that need approval, and the
    policies of every namespace read while policies are enforced. *)
Theorem informers_cover_discovery m w w' load hc hg hd bindings d :
  loadTargetDefinitions cfg env m w = (w', Ok load) -> newInformerFactories hc hg hd (runtime_config cfg load) = Ok bindings ->
  d ∈ load_definitions load ->
  (forall kind ns, discovers cfg d kind ns = true -> watched bindings kind ns) /\
  watched bindings EventTarget (Cfg_PlatformNamespace cfg) /\
  (D_OwnershipMode d = OwnershipModeShared -> watched bindings EventOwnership (Cfg_PlatformNamespace cfg)) /\
  (D_ApprovalMode d = ApprovalModeRequired -> watched bindings EventChangePlan (Cfg_PlatformNamespace cfg)) /\
  (Cfg_PolicyEnforcement cfg = true -> forall ns, NamespaceAllowed (source_options (runner_config (target_settings cfg d))) ns = true ->
     watched bindings EventPolicy ns).
Proof.
  intros El Eb Hd.
  assert (Hcan : canonical_names (D_Namespaces d) /\ canonical_names (D_GatewayTargetNamespaces d)).
  { destruct (load_valid _ _ _ _ _ _ El d Hd) as (o & Hv). by eapply validated_lists. }
  destruct Hcan as [Hns Hgw]. set (ds := load_definitions load) in *. set (sc := platformEventScope cfg ds).
  destruct (scope_facts cfg ds d Hd) as (_ & _ & _ & Hhead & Hown & Hplan & _).
  destruct (factories_bindings _ _ _ _ _ Eb) as (Bs & Bg & Bt & Bo & Bp). cbn [runtime_config PC_Sources PC_SourceNamespaces PC_GatewayNamespaces
    PC_Namespace PC_Headless PC_Policy PC_Ownership PC_PlanApproval] in Bs, Bg, Bt, Bo, Bp.
  assert (Hsrc : forall s, s ∈ [SourceService; SourceIngress; SourceGateway] -> SourceEnabled (source_options (runner_config (target_settings cfg d))) s = true ->
    s ∈ normalizedSet (sc_sources sc)) by (intros s; by apply source_in_scope).
  assert (S1 : SourceService ∈ [SourceService; SourceIngress; SourceGateway]) by by left.
  assert (S2 : SourceIngress ∈ [SourceService; SourceIngress; SourceGateway]) by (by right; left).
  assert (S3 : SourceGateway ∈ [SourceService; SourceIngress; SourceGateway]) by (by right; right; left).
  split_and!; [|by eexists; split_and!; [exact Bt|done|right]|..].
  - intros kind ns Hdis. destruct kind; try done; cbn [discovers] in Hdis; repeat (apply andb_true_iff in Hdis as [Hdis ?]).
    + apply (watch_source cfg ds d Hd Hns); [|done]. intros x Hx. by apply Bs, Hsrc.
    + apply (watch_source cfg ds d Hd Hns); [|done]. intros x Hx. by apply Bs, Hsrc.
    + destruct (gateway_watched_in cfg ds d Hd Hns Hgw ns) as (x & Hx & Hc & _); [done|]. exists (mkBinding EventGateway x).
      split_and!; [by apply Bg; [|apply Hsrc]|done|done].
    + destruct (gateway_watched_in cfg ds d Hd Hns Hgw ns) as (x & Hx & Hc & Hsel); [by apply orb_true_iff; left|]. exists (mkBinding EventHTTPRoute x).
      split_and!; [by apply Bg; [|apply Hsrc|apply Hsel]|done|done].
    + apply (watch_source cfg ds d Hd Hns); [|done]. intros x Hx. apply Bs; [done|by apply Hsrc|apply Hhead; by apply andb_true_iff].
  - intros Ho. eexists. split_and!; [apply Bo, Hown, Ho|done|by right].
  - intros Ho. eexists. split_and!; [apply Bp, Hplan, Ho|done|by right].
  - intros Hp ns Ha. apply (watch_source cfg ds d Hd Hns); [|done]. intros x Hx. apply Bs; [done|]. rewrite Hp. cbn [andb].
    apply negb_true_iff, bool_decide_eq_false. intros E0. apply (not_elem_of_nil d). rewrite <- E0. exact Hd.
Qed.
End cover.

(** ** The gate of the caches *)

Lemma gate_loop_ok rs : forall seen acc, NoDup (CR_Kind <$> rs) -> (forall r, r ∈ rs -> validEventKind (CR_Kind r) = true /\ is_Some (HasSynced r) /\ CR_Kind r ∉ seen) ->
  gate_loop seen rs acc = Ok (acc ++ rs).
Proof.
  induction rs as [|r rs IH]; intros seen acc Hnd Hall; cbn [gate_loop]; [by rewrite app_nil_r|].
  destruct (Hall r) as (Hv & [b Hb] & Hs); [by left|]. rewrite Hv, Hb. cbn [negb]. rewrite bool_decide_eq_false_2 by done.
  inversion_clear Hnd as [|? ? Hr Hnd']. rewrite IH; [by rewrite <- app_assoc|done|]. intros x Hx. destruct (Hall x) as (? & ? & ?); [by right|].
  split_and!; [done|done|]. intros [E|?]%elem_of_cons; [|done]. apply Hr. rewrite <- E. by apply list_elem_of_fmap_2.
Qed.

(** The gate over the caches is total and exact: one kind may have an informer
    per namespace, in whatever order the kinds are visited, and the gate opens only
    when every single informer has synchronized. *)
Theorem gate_exact range synced bindings : (forall l, range l ≡ₚ l) -> (forall b, b ∈ bindings -> validEventKind (B_Kind b) = true) ->
  exists gate, SyncGate range synced bindings = Ok gate /\
    (RequireSynchronized (Some gate) = None <-> forall b, b ∈ bindings -> synced b = true).
Proof.
  intros Hr Hv. unfold SyncGate, NewCacheSyncGate. set (kinds := range (remove_dups (B_Kind <$> bindings))).
  assert (Hk : forall k, k ∈ kinds <-> k ∈ B_Kind <$> bindings) by (intros k; unfold kinds; by rewrite Hr, elem_of_remove_dups).
  assert (Hkinds : CR_Kind <$> (kind_synced synced bindings <$> kinds) = kinds) by (rewrite <- list_fmap_compose; apply list_fmap_id).
  rewrite gate_loop_ok.
  - cbn [rbind app]. eexists. split; [done|]. rewrite RequireSynchronized_spec. split.
    + intros (rs & [= <-] & Hall) b Hb. rewrite sort_by_key_perm, Forall_fmap, Forall_forall in Hall.
      specialize (Hall (B_Kind b) ltac:(by apply Hk, list_elem_of_fmap_2)). cbn in Hall. injection Hall as Hall.
      rewrite forallb_forall in Hall. apply Hall, list_elem_of_In, list_elem_of_filter. done.
    + intros Hall. eexists. split; [done|]. rewrite sort_by_key_perm, Forall_fmap. apply Forall_forall. intros k _. cbn. f_equal.
      apply forallb_forall. intros b [_ Hb]%list_elem_of_In%list_elem_of_filter. by apply Hall.
  - rewrite Hkinds. unfold kinds. rewrite Hr. apply NoDup_remove_dups.
  - intros r Hr'. apply list_elem_of_fmap in Hr' as (k & -> & Hkk). cbn. split_and!; [|done|apply not_elem_of_nil].
    apply Hk, list_elem_of_fmap in Hkk as (b & -> & Hb). by apply Hv.
Qed.

(** ** Changes that count *)

Lemma sorted_fmap {A B} (f : A -> B) (R : B -> B -> Prop) l : StronglySorted (fun x y => R (f x) (f y)) l -> StronglySorted R (f <$> l).
Proof. induction 1 as [|x l Hs IH Hall]; cbn; constructor; [done|]. by apply Forall_fmap. Qed.

Lemma sort_texts {A} (f : A -> string) l : f <$> sort_by_key f l = sort_strings (f <$> l).
Proof.
  eapply (StronglySorted_unique (fun x y : string => (y <s x) = false)).
  - apply sorted_fmap, sort_by_key_sorted.
  - apply (sort_by_key_sorted (fun s => s)).
  - unfold sort_strings. by rewrite !sort_by_key_perm.
Qed.

Lemma map_is_fmap {A B} (f : A -> B) l : map f l = f <$> l.
Proof. induction l; cbn; congruence. Qed.

(** Lists with the same texts up to order. *)
Definition same_texts {A} (f : A -> json) (l l' : list A) : Prop :=
  (fun v => canonicalJSON (f v)) <$> l ≡ₚ (fun v => canonicalJSON (f v)) <$> l'.

Lemma canonicalSlice_same {A} (f : A -> json) l l' : same_texts f l l' -> canonicalSlice f l = canonicalSlice f l'.
Proof. intros Hp. unfold canonicalSlice. by rewrite (sort_strings_unique _ _ Hp). Qed.

(** A parent of a route with the same reference and the same relevant conditions;
    an endpoint with the same addresses. *)
Definition same_parent (p q : RouteParent) : Prop :=
  RP_ParentRef p = RP_ParentRef q /\
  filter (fun c => relevant_condition c = true) (RP_Conditions p) ≡ₚ filter (fun c => relevant_condition c = true) (RP_Conditions q).
Definition same_endpoint (e f : SliceEndpoint) : Prop := SE_Addresses e ≡ₚ SE_Addresses f /\ SE_Conditions e = SE_Conditions f.

Lemma same_parent_text p q : same_parent p q ->
  canonicalJSON (routeParent_json (relevantRouteParent p)) = canonicalJSON (routeParent_json (relevantRouteParent q)).
Proof.
  intros [Hr Hc]. unfold routeParent_json, relevantRouteParent. cbn [RP_ParentRef RP_Conditions]. rewrite Hr. clear Hr.
  set (f := fun c => canonicalJSON (semanticCondition_json c)). revert Hc. generalize (filter (fun c => relevant_condition c = true) (RP_Conditions p)).
  generalize (filter (fun c => relevant_condition c = true) (RP_Conditions q)). intros lq lp Hc.
  assert (Hn : sort_by_key f lp = [] <-> sort_by_key f lq = []).
  { split; intros E; apply Permutation_nil_r; [rewrite <- E, !sort_by_key_perm|rewrite <- E, !sort_by_key_perm]; done. }
  rewrite (bool_decide_ext _ _ Hn). case_bool_decide; [done|]. unfold canonicalJSON. cbn [Marshal map fst snd].
  rewrite !map_is_fmap, <- !list_fmap_compose.
  assert (Ht : f <$> sort_by_key f lp = f <$> sort_by_key f lq) by (rewrite !sort_texts; apply sort_strings_unique; by rewrite Hc).
  unfold f at 1 3 in Ht. unfold canonicalJSON in Ht. unfold compose. by rewrite Ht.
Qed.

Lemma same_endpoint_text e f : same_endpoint e f ->
  canonicalJSON (sliceEndpoint_json (relevantSliceEndpoint e)) = canonicalJSON (sliceEndpoint_json (relevantSliceEndpoint f)).
Proof. intros [Ha Hc]. unfold sliceEndpoint_json, relevantSliceEndpoint. cbn [SE_Addresses SE_Conditions]. by rewrite (sort_strings_unique _ _ Ha), Hc. Qed.

(** Two lists that agree up to order and up to [R]. *)
Definition same_list {A} (R : A -> A -> Prop) (l l' : list A) : Prop := exists m, l ≡ₚ m /\ Forall2 R m l'.

Lemma same_list_texts {A} (R : A -> A -> Prop) (f : A -> json) (g : A -> A) l l' :
  (forall x y, R x y -> canonicalJSON (f (g x)) = canonicalJSON (f (g y))) -> same_list R l l' -> same_texts f (g <$> l) (g <$> l').
Proof.
  intros Hr (m & Hp & Hall). unfold same_texts. rewrite Hp. clear Hp. induction Hall as [|x y m l' Hxy _ IH]; [done|].
  rewrite !fmap_cons, (Hr _ _ Hxy), IH. done.
Qed.

(** Objects that mean the same: equal but for the order of lists, conditions that
    are not looked at, and their reasons, messages and times. *)
Definition same_object (o o' : SemanticObject) : Prop :=
  match o, o' with
  | SemService l a s i, SemService l' a' s' i' | SemIngress l a s i, SemIngress l' a' s' i' | SemGateway l a s i, SemGateway l' a' s' i' =>
      l = l' /\ a = a' /\ s = s' /\ i ≡ₚ i'
  | SemHTTPRoute l a s p, SemHTTPRoute l' a' s' p' => l = l' /\ a = a' /\ s = s' /\ same_list same_parent p p'
  | SemEndpointSlice n t e, SemEndpointSlice n' t' e' => n = n' /\ t = t' /\ same_list same_endpoint e e'
  | _, _ => o = o'
  end.

Lemma same_object_fields o o' fields : same_object o o' -> semantic_kind o = semantic_kind o' /\ object_fields o fields = object_fields o' fields.
Proof.
  assert (Hj : forall l l' : list json, l ≡ₚ l' -> canonicalSlice (fun j => j) l = canonicalSlice (fun j => j) l').
  { intros l l' Hp. apply canonicalSlice_same. unfold same_texts. by rewrite Hp. }
  destruct o, o'; cbn [same_object semantic_kind object_fields]; try discriminate; try (by intros [=]; subst).
  1, 2, 3: intros (-> & -> & -> & Hp); by rewrite (Hj _ _ Hp).
  - intros (-> & -> & -> & Hp). split; [done|]. f_equal. apply canonicalSlice_same. eapply same_list_texts; [|done]. apply same_parent_text.
  - intros (-> & -> & Hp). split; [done|]. f_equal. apply canonicalSlice_same. eapply same_list_texts; [|done]. apply same_endpoint_text.
Qed.

(** C24. Noise is not an event: an update that only reorders status entries,
    endpoints or addresses, or changes conditions that are not looked at, has the
    same fingerprints and is ignored.  Conversely, an ignored update left every
    field that is looked at unchanged, unless the two fingerprinted texts are
    themselves a collision of SHA-256. *)
Theorem semantic_updates_exact `{MapRange} kind old new e :
  semanticEvent kind EventUpdate (Some old) (Some new) = Ok e -> validEventKind kind = true ->
  (SM_Generation old = SM_Generation new -> SM_Deleting old = SM_Deleting new -> same_object (SM_Object old) (SM_Object new) -> Meaningful e = false) /\
  (Meaningful e = false -> semantic_fields old = semantic_fields new \/
     let a := fingerprint_payload kind (semantic_fields old) in let b := fingerprint_payload kind (semantic_fields new) in
     a <> b /\ hex_sha256 a = hex_sha256 b).
Proof.
  intros E Hv. unfold semanticEvent, optional_fingerprint, semanticObjectFingerprint, NewSemanticFingerprint in E. rewrite Hv in E. cbn [negb] in E.
  destruct (negb (bool_decide (semantic_kind (SM_Object old) = kind))); [done|]. cbn [rbind] in E.
  destruct (negb (bool_decide (semantic_kind (SM_Object new) = kind))); [done|]. cbn [rbind] in E. injection E as <-.
  unfold Meaningful. cbn [Action OldFingerprint NewFingerprint]. rewrite negb_false_iff, eqb_eq_iff. split.
  - intros Hg Hdel Ho. do 2 f_equal. unfold semantic_fields. rewrite Hg, Hdel. by apply same_object_fields.
  - intros Eh. destruct (decide (fingerprint_payload kind (semantic_fields old) = fingerprint_payload kind (semantic_fields new))) as [Ep|Hne].
    + left. by eapply fingerprint_payload_injective.
    + right. eauto.
Qed.
