(* ===== verification/Metrics.v ===== *)
(** * internal/metrics: the recorder behind /metrics

    Counters, a histogram of durations and a bounded set of per-target gauges.
    Durations and times are nanoseconds, so that a comparison of seconds is exact;
    [float64] sums and the text of numbers are left out.  Counters do not wrap. *)
From Stdlib Require Import String Ascii ZArith Lia.
From S2P Require Import Prelude Effects GoStrings NetIP GoEncoding Endpoint Queue StatusWriter.
Open Scope string_scope.
Open Scope list_scope.
Open Scope Z_scope.
Open Scope go_scope.

(** ** Labels *)

Definition maxMetricTargets : nat := 256.
Definition invalidTarget : string := "invalid".
Definition overflowTarget : string := "overflow".
Definition maxGaugeValue : Z := 1000000000.

Definition knownSources : list string :=
  ["service"; "ingress"; "gateway"; "httproute"; "endpointslice"; "policy"; "ownership"; "target"; "changeplan"; "secret"; "provider"].
Definition SourceUnknown : string := "unknown".
Definition knownOutcomes : list string := ["succeeded"; "failed"; "interrupted"; "stale"; "pending-approval"; "rejected"].
Definition ApplyUnknown : string := "unknown".

Definition boundedSource (source : string) : string := if bool_decide (source ∈ knownSources) then source else SourceUnknown.
Definition boundedApplyOutcome (outcome : string) : string := if bool_decide (outcome ∈ knownOutcomes) then outcome else ApplyUnknown.
Definition knownPlanPhases : list string := planPhases.
Definition boundedPlanPhase (phase : string) : string := if bool_decide (phase ∈ knownPlanPhases) then phase else "unknown".
Definition knownOperationTypes : list string := ["create"; "update"; "replace"; "delete"; "deactivate"; "conflict"].
Definition boundedOperationType (value : string) : string := if bool_decide (value ∈ knownOperationTypes) then value else "unknown".
Definition knownOperationResults : list string := ["planned"; "conflict"; "skipped"; "failed"; "applied"].
Definition boundedOperationResult (value : string) : string := if bool_decide (value ∈ knownOperationResults) then value else "unknown".
Definition knownCleanupReasons : list string := ["empty-desired"; "cap-exceeded"; "source-incomplete"; "prerequisite-failed"].
Definition boundedCleanupReason (value : string) : string := if bool_decide (value ∈ knownCleanupReasons) then value else "unknown".

Definition boundedInt (value : Z) : Z := if value <? 0 then 0 else if maxGaugeValue <? value then maxGaugeValue else value.
Definition boolFloat (value : bool) : Z := if value then 1 else 0.

Definition metricTarget `{KeyValidation} (target : string) : string :=
  match SplitChar target "/" with
  | [a] => if bool_decide (IsDNS1123Subdomain a = []) then target else invalidTarget
  | [a; b] => if bool_decide (IsDNS1123Label a = []) && bool_decide (IsDNS1123Subdomain b = []) then target else invalidTarget
  | _ => invalidTarget
  end.

(** ** State *)

Record TargetCounts := mkTargetCounts { TC_Desired : Z; TC_Current : Z; TC_Drift : Z; TC_Conflicts : Z }.

(** [providerSnapshotAt]: [None] is the zero time. *)
Record targetState := mkTargetState {
  ready : Z; counts : TargetCounts; incompleteSources : gmap string Z; providerSnapshotAt : option Z; queueDepth : Z; queueRetries : Z;
  plans : gmap string Z; applies : gmap string Z }.

Definition newTargetState : targetState := mkTargetState 0 (mkTargetCounts 0 0 0 0) ∅ None 0 0 ∅ ∅.

Definition millisecond : Z := 1000000.
Definition defaultBuckets : list Z := (fun ms => ms * millisecond) <$> [50; 100; 250; 500; 1000; 2500; 5000; 10000; 30000; 60000].

Record Metrics := mkMetrics {
  reconcileTotal : Z; reconcileErrors : Z; lastSuccess : Z; bucketCounts : list Z; durationSum : Z; durationCount : Z;
  operations : gmap (string * string) Z; cleanupRefused : gmap string Z; buildInfo : string * string; platform_targets : gmap string targetState }.

(** [New]. *)
Definition NewMetrics : Metrics := mkMetrics 0 0 0 (replicate (length defaultBuckets) 0) 0 0 ∅ ∅ ("", "") ∅.

Definition with_targets (ts : gmap string targetState) (m : Metrics) : Metrics :=
  mkMetrics (reconcileTotal m) (reconcileErrors m) (lastSuccess m) (bucketCounts m) (durationSum m) (durationCount m) (operations m)
    (cleanupRefused m) (buildInfo m) ts.

(** ** Recording *)

Definition SetBuildInfo (version commit : string) (m : Metrics) : Metrics :=
  mkMetrics (reconcileTotal m) (reconcileErrors m) (lastSuccess m) (bucketCounts m) (durationSum m) (durationCount m) (operations m)
    (cleanupRefused m) (version, commit) (platform_targets m).

Definition bump {K} `{Countable K} (k : K) (m : gmap K Z) : gmap K Z := <[k := default 0 (m !! k) + 1]> m.

Definition RecordCleanupRefused (reason : string) (m : Metrics) : Metrics :=
  mkMetrics (reconcileTotal m) (reconcileErrors m) (lastSuccess m) (bucketCounts m) (durationSum m) (durationCount m) (operations m)
    (bump (boundedCleanupReason reason) (cleanupRefused m)) (buildInfo m) (platform_targets m).

Definition RecordReconcile (now duration : Z) (failed : bool) (m : Metrics) : Metrics :=
  mkMetrics (reconcileTotal m + 1) (if failed then reconcileErrors m + 1 else reconcileErrors m) (if failed then lastSuccess m else now)
    (zip_with (fun upper n => if duration <=? upper then n + 1 else n) defaultBuckets (bucketCounts m)) (durationSum m + duration)
    (durationCount m + 1) (operations m) (cleanupRefused m) (buildInfo m) (platform_targets m).

Definition RecordOperation (opType result : string) (m : Metrics) : Metrics :=
  mkMetrics (reconcileTotal m) (reconcileErrors m) (lastSuccess m) (bucketCounts m) (durationSum m) (durationCount m)
    (bump (boundedOperationType opType, boundedOperationResult result) (operations m)) (cleanupRefused m) (buildInfo m) (platform_targets m).

Section targets.
Context `{KeyValidation}.

(** The label under which a target is recorded. *)
Definition target_label (ts : gmap string targetState) (target : string) : string :=
  let label := metricTarget target in
  match ts !! label with
  | Some _ => label
  | None => if negb (label =s invalidTarget) && negb (label =s overflowTarget) && (maxMetricTargets <=? size ts)%nat then overflowTarget else label
  end.

(** [targetLocked], and a change of the state it returns. *)
Definition on_target (target : string) (f : targetState -> targetState) (m : Metrics) : Metrics :=
  let label := target_label (platform_targets m) target in
  with_targets (<[label := f (default newTargetState (platform_targets m !! label))]> (platform_targets m)) m.

Definition SetTargetReadiness (target : string) (b : bool) : Metrics -> Metrics :=
  on_target target (fun s => mkTargetState (boolFloat b) (counts s) (incompleteSources s) (providerSnapshotAt s) (queueDepth s) (queueRetries s)
                               (plans s) (applies s)).

Definition SetTargetCounts (target : string) (c : TargetCounts) : Metrics -> Metrics :=
  on_target target (fun s =>
    mkTargetState (ready s) (mkTargetCounts (boundedInt (TC_Desired c)) (boundedInt (TC_Current c)) (boundedInt (TC_Drift c)) (boundedInt (TC_Conflicts c)))
      (incompleteSources s) (providerSnapshotAt s) (queueDepth s) (queueRetries s) (plans s) (applies s)).

Definition SetSourceIncomplete (target source : string) (incomplete : bool) : Metrics -> Metrics :=
  on_target target (fun s => mkTargetState (ready s) (counts s) (<[boundedSource source := boolFloat incomplete]> (incompleteSources s))
                               (providerSnapshotAt s) (queueDepth s) (queueRetries s) (plans s) (applies s)).

Definition second_ns : Z := 1000 * millisecond.

(** An age between nothing and the cap. *)
Definition clamp_age (age : Z) : Z :=
  let age := if age <? 0 then 0 else age in if maxGaugeValue * second_ns <? age then maxGaugeValue * second_ns else age.

Definition SetProviderSnapshotAge (now : Z) (target : string) (age : Z) : Metrics -> Metrics :=
  on_target target (fun s => mkTargetState (ready s) (counts s) (incompleteSources s) (Some (now - clamp_age age)) (queueDepth s) (queueRetries s)
                               (plans s) (applies s)).

Definition clear_phases (ps : gmap string Z) : gmap string Z := foldl (fun ps known => <[known := 0]> ps) ps knownPlanPhases.

Definition SetCurrentPlanPhase (target phase : string) : Metrics -> Metrics :=
  on_target target (fun s =>
    let cleared := clear_phases (plans s) in
    let bounded := boundedPlanPhase phase in
    mkTargetState (ready s) (counts s) (incompleteSources s) (providerSnapshotAt s) (queueDepth s) (queueRetries s)
      (if negb (bounded =s "unknown") then <[bounded := 1]> cleared else cleared) (applies s)).

Definition ClearCurrentPlanPhase (target : string) : Metrics -> Metrics := SetCurrentPlanPhase target "".

Definition SetQueueState (target : string) (depth retries : Z) : Metrics -> Metrics :=
  on_target target (fun s => mkTargetState (ready s) (counts s) (incompleteSources s) (providerSnapshotAt s) (boundedInt depth) (boundedInt retries)
                               (plans s) (applies s)).

Definition SetPlansByPhase (target phase : string) (count : Z) : Metrics -> Metrics :=
  on_target target (fun s => mkTargetState (ready s) (counts s) (incompleteSources s) (providerSnapshotAt s) (queueDepth s) (queueRetries s)
                               (<[boundedPlanPhase phase := boundedInt count]> (plans s)) (applies s)).

Definition RecordApply (target outcome : string) : Metrics -> Metrics :=
  on_target target (fun s => mkTargetState (ready s) (counts s) (incompleteSources s) (providerSnapshotAt s) (queueDepth s) (queueRetries s) (plans s)
                               (bump (boundedApplyOutcome outcome) (applies s))).

Definition RemoveTarget (target : string) (m : Metrics) : Metrics := with_targets (delete (metricTarget target) (platform_targets m)) m.
End targets.

(** ** What is exposed *)

(** A sample: the name without its prefix, the labels, and the value (of ages, in nanoseconds). *)
Record Sample := mkSample { S_Name : string; S_Labels : list (string * string); S_Value : Z }.

Definition sorted_keys (m : gmap string Z) : list string := sort_strings ((map_to_list m).*1).

Definition exposed_age (now : Z) (s : targetState) : option Z := (fun at_ => clamp_age (now - at_)) <$> providerSnapshotAt s.

Definition target_samples (now : Z) (target : string) (s : targetState) : list Sample :=
  let gauge name v := mkSample name [("target", target)] v in
  [gauge "target_ready" (ready s); gauge "target_desired_records" (TC_Desired (counts s)); gauge "target_current_records" (TC_Current (counts s));
   gauge "target_drift_records" (TC_Drift (counts s)); gauge "target_conflicts" (TC_Conflicts (counts s))]
  ++ (match exposed_age now s with Some age => [gauge "provider_snapshot_age_seconds" age] | None => [] end)
  ++ [gauge "target_queue_depth" (queueDepth s); gauge "target_queue_retries" (queueRetries s)]
  ++ ((fun k => mkSample "source_incomplete" [("target", target); ("source", k)] (default 0 (incompleteSources s !! k))) <$> sorted_keys (incompleteSources s))
  ++ ((fun k => mkSample "plans" [("target", target); ("phase", k)] (default 0 (plans s !! k))) <$> sorted_keys (plans s))
  ++ ((fun k => mkSample "applies_total" [("target", target); ("outcome", k)] (default 0 (applies s !! k))) <$> sorted_keys (applies s)).

(** [writePlatformLocked]. *)
Definition platform_samples (now : Z) (m : Metrics) : list Sample :=
  sort_strings ((map_to_list (platform_targets m)).*1) ≫= fun t => target_samples now t (default newTargetState (platform_targets m !! t)).

Definition bucketLabels : list string := ["0.05"; "0.1"; "0.25"; "0.5"; "1"; "2.5"; "5"; "10"; "30"; "60"].

Definition op_less (a b : string * string) : bool := if negb (a.1 =s b.1) then a.1 <s b.1 else a.2 <s b.2.
Definition sortedOpKeys (m : gmap (string * string) Z) : list (string * string) := sort_slice op_less ((map_to_list m).*1).

(** [writeLocked]. *)
Definition samples (now : Z) (m : Metrics) : list Sample :=
  [mkSample "reconcile_total" [] (reconcileTotal m); mkSample "reconcile_errors_total" [] (reconcileErrors m);
   mkSample "last_successful_reconcile_timestamp_seconds" [] (lastSuccess m / second_ns)]
  ++ zip_with (fun upper n => mkSample "reconcile_duration_seconds_bucket" [("le", upper)] n) bucketLabels (bucketCounts m)
  ++ [mkSample "reconcile_duration_seconds_bucket" [("le", "+Inf")] (durationCount m); mkSample "reconcile_duration_seconds_sum" [] (durationSum m);
      mkSample "reconcile_duration_seconds_count" [] (durationCount m)]
  ++ ((fun k => mkSample "operations_total" [("type", k.1); ("result", k.2)] (default 0 (operations m !! k))) <$> sortedOpKeys (operations m))
  ++ ((fun k => mkSample "cleanup_refused_total" [("reason", k)] (default 0 (cleanupRefused m !! k))) <$> sorted_keys (cleanupRefused m))
  ++ (if negb ((buildInfo m).1 =s "") then [mkSample "build_info" [("version", (buildInfo m).1); ("commit", (buildInfo m).2)] 1] else [])
  ++ platform_samples now m.
