(* ===== verification/MetricsLaws.v ===== *)
(** * Properties of the recorder *)
From Stdlib Require Import String Ascii ZArith Lia.
From S2P Require Import Prelude Effects GoStrings NetIP GoEncoding Endpoint Queue StatusWriter Metrics.
Open Scope string_scope.
Open Scope list_scope.
Open Scope Z_scope.
Open Scope go_scope.

(** ** Histories *)

Inductive MetricEvent :=
| MReconcile (now duration : Z) (failed : bool) | MOperation (opType result : string) | MCleanupRefused (reason : string)
| MBuildInfo (version commit : string) | MReadiness (target : string) (b : bool) | MCounts (target : string) (c : TargetCounts)
| MIncomplete (target source : string) (b : bool) | MAge (now : Z) (target : string) (age : Z) | MPhase (target phase : string)
| MQueue (target : string) (depth retries : Z) | MPlans (target phase : string) (count : Z) | MApply (target outcome : string)
| MRemove (target : string).

Section history.
Context `{KeyValidation}.

Definition record_event (m : Metrics) (e : MetricEvent) : Metrics :=
  match e with
  | MReconcile now duration failed => RecordReconcile now duration failed m
  | MOperation t r => RecordOperation t r m
  | MCleanupRefused r => RecordCleanupRefused r m
  | MBuildInfo v c => SetBuildInfo v c m
  | MReadiness t b => SetTargetReadiness t b m
  | MCounts t c => SetTargetCounts t c m
  | MIncomplete t s b => SetSourceIncomplete t s b m
  | MAge now t age => SetProviderSnapshotAge now t age m
  | MPhase t p => SetCurrentPlanPhase t p m
  | MQueue t d r => SetQueueState t d r m
  | MPlans t p c => SetPlansByPhase t p c m
  | MApply t o => RecordApply t o m
  | MRemove t => RemoveTarget t m
  end.

Definition recorded (l : list MetricEvent) : Metrics := foldl record_event NewMetrics l.

(** ** The invariant *)

Definition special (label : string) : bool := (label =s invalidTarget) || (label =s overflowTarget).
Definition gauge_ok (v : Z) : Prop := 0 <= v <= 1000000000.

Record state_ok (s : targetState) : Prop := {
  so_ready : gauge_ok (ready s);
  so_counts : gauge_ok (TC_Desired (counts s)) /\ gauge_ok (TC_Current (counts s)) /\ gauge_ok (TC_Drift (counts s)) /\ gauge_ok (TC_Conflicts (counts s));
  so_queue : gauge_ok (queueDepth s) /\ gauge_ok (queueRetries s);
  so_sources : map_Forall (fun k v => k ∈ SourceUnknown :: knownSources /\ gauge_ok v) (incompleteSources s);
  so_plans : map_Forall (fun k v => k ∈ "unknown" :: knownPlanPhases /\ gauge_ok v) (plans s);
  so_applies : map_Forall (fun k v => k ∈ ApplyUnknown :: knownOutcomes /\ 0 <= v) (applies s) }.

Record metrics_ok (m : Metrics) : Prop := {
  mo_size : (size (filter (fun x => special x.1 = false) (platform_targets m)) <= maxMetricTargets)%nat;
  mo_states : map_Forall (fun k s => (metricTarget k = k \/ special k = true) /\ state_ok s) (platform_targets m);
  mo_operations : map_Forall (fun k v => (k.1 ∈ "unknown" :: knownOperationTypes /\ k.2 ∈ "unknown" :: knownOperationResults) /\ 0 <= v) (operations m);
  mo_cleanup : map_Forall (fun k v => k ∈ "unknown" :: knownCleanupReasons /\ 0 <= v) (cleanupRefused m) }.

Lemma bounded_elem (unknown : string) known v : (if bool_decide (v ∈ known) then v else unknown) ∈ unknown :: known.
Proof. case_bool_decide; [by right|by left]. Qed.
Lemma boundedInt_ok v : gauge_ok (boundedInt v).
Proof. unfold gauge_ok, boundedInt, maxGaugeValue. destruct (Z.ltb_spec v 0); [lia|]. destruct (Z.ltb_spec 1000000000 v); lia. Qed.
Lemma boolFloat_ok b : gauge_ok (boolFloat b).
Proof. destruct b; split; done. Qed.

Lemma newTargetState_ok : state_ok newTargetState.
Proof. split; try done; split_and!; done. Qed.

Lemma bump_ok {K} `{Countable K} (P : K -> Prop) k (m : gmap K Z) : map_Forall (fun k v => P k /\ 0 <= v) m -> P k ->
  map_Forall (fun k v => P k /\ 0 <= v) (bump k m).
Proof.
  intros Hm Hk. unfold bump. apply map_Forall_insert_2; [|done]. split; [done|]. destruct (m !! k) as [v|] eqn:E; [|done].
  cbn. destruct (Hm k v E). lia.
Qed.

Lemma metricTarget_cases target : metricTarget target = target \/ metricTarget target = invalidTarget.
Proof. unfold metricTarget. destruct (SplitChar target "/") as [|a [|b [|]]]; auto; [case_bool_decide|destruct (_ && _)]; auto. Qed.

Lemma target_label_ok ts target : let label := target_label ts target in
  (metricTarget label = label \/ special label = true) /\ (is_Some (ts !! label) \/ special label = true \/ (size ts < maxMetricTargets)%nat).
Proof.
  cbv zeta. unfold target_label. assert (Hm : metricTarget (metricTarget target) = metricTarget target \/ special (metricTarget target) = true).
  { destruct (metricTarget_cases target) as [E | E]; [left; congruence|right; rewrite E; by vm_compute]. }
  destruct (ts !! metricTarget target) as [s|] eqn:El; [rewrite El; split; [done|left; by eexists]|].
  destruct (negb _ && negb _ && _) eqn:E; [split; right; [by vm_compute|left; by vm_compute]|]. split; [done|right].
  destruct (special (metricTarget target)) eqn:Es; [by left|right]. unfold special in Es. apply orb_false_iff in Es as [E1 E2].
  rewrite E1, E2 in E. cbn [negb andb] in E. by apply Nat.leb_gt in E.
Qed.

Lemma on_target_ok target f m : metrics_ok m -> (forall s, state_ok s -> state_ok (f s)) -> metrics_ok (on_target target f m).
Proof.
  intros [H1 H2 H3 H4] Hf. unfold on_target. set (label := target_label (platform_targets m) target).
  destruct (target_label_ok (platform_targets m) target) as [Hl Hs]. fold label in Hl, Hs.
  split; cbn [with_targets platform_targets operations cleanupRefused]; [| |done|done].
  - destruct (special label) eqn:Es.
    + rewrite map_filter_insert_False by (cbn; congruence). rewrite map_filter_delete.
      etransitivity; [apply map_subseteq_size, delete_subseteq|done].
    + rewrite map_filter_insert_True by done. destruct Hs as [[s Hs]|[?|Hs]]; [|done|].
      * rewrite map_size_insert_Some; [done|]. exists s. by apply map_lookup_filter_Some.
      * rewrite map_size_insert. assert (Hle : (size (filter (fun x => special x.1 = false) (platform_targets m)) <= size (platform_targets m))%nat)
          by (apply map_subseteq_size, map_filter_subseteq). destruct (_ !! label); unfold id; lia.
  - apply map_Forall_insert_2; [|done]. split; [done|]. apply Hf. destruct (platform_targets m !! label) eqn:E; [by apply (H2 label)|apply newTargetState_ok].
Qed.

Lemma bump_labels (labels : list string) k m : map_Forall (fun k v => k ∈ labels /\ 0 <= v) m -> k ∈ labels ->
  map_Forall (fun k v => k ∈ labels /\ 0 <= v) (bump k m).
Proof. apply (bump_ok (fun k => k ∈ labels)). Qed.

Lemma clear_phases_ok ps : map_Forall (fun k v => k ∈ "unknown" :: knownPlanPhases /\ gauge_ok v) ps ->
  map_Forall (fun k v => k ∈ "unknown" :: knownPlanPhases /\ gauge_ok v) (clear_phases ps).
Proof.
  unfold clear_phases. assert (Hsub : forall k, k ∈ knownPlanPhases -> k ∈ "unknown" :: knownPlanPhases) by (intros; by right). revert Hsub ps.
  generalize (("unknown" :: knownPlanPhases)). induction knownPlanPhases as [|k l IH]; intros labels Hsub ps Hps; [done|]. cbn [foldl].
  apply IH; [intros x Hx; apply Hsub; by right|]. apply map_Forall_insert_2; [|done]. split; [apply Hsub; by left|done].
Qed.

Lemma record_event_ok m e : metrics_ok m -> metrics_ok (record_event m e).
Proof.
  intros Hm. pose proof Hm as [H1 H2 H3 H4]. destruct e; cbn [record_event].
  - split; done.
  - split; cbn; try done. refine (bump_ok (fun k : string * string => _) _ _ H3 _). cbn. split; apply bounded_elem.
  - split; cbn; try done. apply bump_labels; [done|]. apply bounded_elem.
  - split; done.
  - apply on_target_ok; [done|]. intros s [S1 S2 S3 S4 S5 S6]. split; try done. apply boolFloat_ok.
  - apply on_target_ok; [done|]. intros s [S1 S2 S3 S4 S5 S6]. split; try done. split_and!; apply boundedInt_ok.
  - apply on_target_ok; [done|]. intros s [S1 S2 S3 S4 S5 S6]. split; try done. apply map_Forall_insert_2; [|done].
    split; [apply bounded_elem|apply boolFloat_ok].
  - apply on_target_ok; [done|]. intros s [S1 S2 S3 S4 S5 S6]. split; done.
  - apply on_target_ok; [done|]. intros s [S1 S2 S3 S4 S5 S6]. split; try done. cbn [plans]. apply clear_phases_ok in S5.
    destruct (negb _); [|done]. apply map_Forall_insert_2; [|done]. split; [apply bounded_elem|done].
  - apply on_target_ok; [done|]. intros s [S1 S2 S3 S4 S5 S6]. split; try done. split; apply boundedInt_ok.
  - apply on_target_ok; [done|]. intros s [S1 S2 S3 S4 S5 S6]. split; try done. apply map_Forall_insert_2; [|done].
    split; [apply bounded_elem|apply boundedInt_ok].
  - apply on_target_ok; [done|]. intros s [S1 S2 S3 S4 S5 S6]. split; try done. apply bump_labels; [done|]. apply bounded_elem.
  - split; cbn [RemoveTarget with_targets platform_targets operations cleanupRefused]; try done.
    + rewrite map_filter_delete. etransitivity; [apply map_subseteq_size, delete_subseteq|done].
    + by apply map_Forall_delete.
Qed.

Lemma recorded_ok l : metrics_ok (recorded l).
Proof.
  induction l as [|e l IH] using rev_ind; unfold recorded in *; [|rewrite foldl_app; by apply record_event_ok].
  split; try done. cbn [foldl NewMetrics platform_targets]. rewrite map_filter_empty. apply Nat.le_0_l.
Qed.
End history.

(** ** How much can be exposed *)

Lemma keys_within {K A} `{Countable K} (labels : list K) (m : gmap K A) : map_Forall (fun k _ => k ∈ labels) m -> (size m <= length labels)%nat.
Proof.
  intros Hm. rewrite <- length_map_to_list, <- (length_fmap fst). apply submseteq_length, NoDup_submseteq; [apply NoDup_fst_map_to_list|].
  intros k Hk. apply list_elem_of_fmap in Hk as ([k' v] & -> & Hv). apply elem_of_map_to_list in Hv. by apply (Hm k' v).
Qed.

Lemma keys_length {A} `{Countable K} (m : gmap K A) : length ((map_to_list m).*1) = size m.
Proof. by rewrite length_fmap, length_map_to_list. Qed.

Lemma sorted_keys_length m : length (sorted_keys m) = size m.
Proof. unfold sorted_keys, sort_strings. rewrite (Permutation_length (sort_by_key_perm _ _)). apply keys_length. Qed.

Lemma bind_length {A B} (f : A -> list B) c l : (forall x, x ∈ l -> (length (f x) <= c)%nat) -> (length (l ≫= f) <= length l * c)%nat.
Proof.
  induction l as [|x l IH]; intros Hf; [done|]. rewrite bind_cons, length_app. cbn [length Nat.mul].
  pose proof (Hf x ltac:(by left)). assert (length (l ≫= f) <= length l * c)%nat by (apply IH; intros y Hy; apply Hf; by right). lia.
Qed.

(** At most this many samples of a target, and in all. *)
Definition target_budget : nat := 35.
Definition max_targets : nat := 258.
Definition sample_budget : nat := 64 + max_targets * target_budget.

Section exposed.
Context `{KeyValidation}.

Lemma target_samples_bounded now t s : state_ok s -> (length (target_samples now t s) <= target_budget)%nat.
Proof.
  intros [_ _ _ H1 H2 H3]. unfold target_samples, target_budget. rewrite !length_app, !length_fmap, !sorted_keys_length. cbn [length].
  assert (size (incompleteSources s) <= 12)%nat by (apply (keys_within (SourceUnknown :: knownSources)); intros k v E; apply (H1 k v E)).
  assert (size (plans s) <= 8)%nat by (apply (keys_within ("unknown" :: knownPlanPhases)); intros k v E; apply (H2 k v E)).
  assert (size (applies s) <= 7)%nat by (apply (keys_within (ApplyUnknown :: knownOutcomes)); intros k v E; apply (H3 k v E)).
  destruct (exposed_age now s); cbn [length]; lia.
Qed.

Lemma targets_bounded m : metrics_ok m -> (size (platform_targets m) <= max_targets)%nat.
Proof.
  intros [H1 _ _ _]. rewrite <- (map_filter_union_complement (fun x => special x.1 = false) (platform_targets m)).
  rewrite map_size_disj_union by apply map_disjoint_filter_complement.
  assert (Hs : (size (filter (fun x => ~ special x.1 = false) (platform_targets m)) <= 2)%nat).
  { apply (keys_within [invalidTarget; overflowTarget]). intros k v E. apply map_lookup_filter_Some in E as [_ E]. cbn in E.
    apply not_false_iff_true, orb_true_iff in E as [E|E]; apply eqb_eq_iff in E as ->; set_solver. }
  unfold max_targets, maxMetricTargets in *. lia.
Qed.

Lemma samples_bounded now m : metrics_ok m -> (length (samples now m) <= sample_budget)%nat.
Proof.
  intros Hm. pose proof (targets_bounded m Hm) as Ht. destruct Hm as [_ H2 H3 H4]. unfold samples. rewrite !length_app, length_zip_with, !length_fmap, sorted_keys_length.
  unfold sortedOpKeys. rewrite (Permutation_length (sort_slice_perm _ _)), keys_length. cbn [length bucketLabels].
  assert (size (operations m) <= 42)%nat.
  { apply (keys_within (list_prod ("unknown" :: knownOperationTypes) ("unknown" :: knownOperationResults))). intros [a b] v E.
    destruct (H3 _ _ E) as [[Ha Hb] _]. apply list_elem_of_In, in_prod; by apply list_elem_of_In. }
  assert (size (cleanupRefused m) <= 5)%nat by (apply (keys_within ("unknown" :: knownCleanupReasons)); intros k v E; apply (H4 k v E)).
  assert (Hp : (length (platform_samples now m) <= max_targets * target_budget)%nat).
  { unfold platform_samples. etransitivity; [apply (bind_length _ target_budget)|].
    - intros t Ht'. unfold sort_strings in Ht'. rewrite sort_by_key_perm in Ht'. apply list_elem_of_fmap in Ht' as ([k s] & -> & Hs).
      apply elem_of_map_to_list in Hs. cbn [fst]. rewrite Hs. apply target_samples_bounded. by apply (H2 k s).
    - apply Nat.mul_le_mono_r. unfold sort_strings. by rewrite (Permutation_length (sort_by_key_perm _ _)), keys_length. }
  assert ((length (if negb ((buildInfo m).1 =s "") then [mkSample "build_info" [("version", (buildInfo m).1); ("commit", (buildInfo m).2)] 1] else []) <= 1)%nat)
    by (destruct (negb _); cbn; lia).
  unfold sample_budget. lia.
Qed.

(** A sample of a target: a gauge, an age, or a count under a label of a fixed list. *)
Definition target_gauges : list string :=
  ["target_ready"; "target_desired_records"; "target_current_records"; "target_drift_records"; "target_conflicts"; "target_queue_depth";
   "target_queue_retries"].
Definition target_sample_ok (t : string) (x : Sample) : Prop :=
  S_Labels x = [("target", t)] /\ S_Name x ∈ target_gauges /\ gauge_ok (S_Value x) \/
  S_Labels x = [("target", t)] /\ S_Name x = "provider_snapshot_age_seconds" /\ 0 <= S_Value x <= 1000000000 * second_ns \/
  exists k, S_Labels x = [("target", t); ("source", k)] /\ S_Name x = "source_incomplete" /\ k ∈ SourceUnknown :: knownSources /\ gauge_ok (S_Value x) \/
    S_Labels x = [("target", t); ("phase", k)] /\ S_Name x = "plans" /\ k ∈ "unknown" :: knownPlanPhases /\ gauge_ok (S_Value x) \/
    S_Labels x = [("target", t); ("outcome", k)] /\ S_Name x = "applies_total" /\ k ∈ ApplyUnknown :: knownOutcomes /\ 0 <= S_Value x.

(** A sample of the process. *)
Definition process_sample_ok (x : Sample) : Prop :=
  S_Labels x = [] \/ S_Name x = "build_info" \/
  (exists le, S_Name x = "reconcile_duration_seconds_bucket" /\ S_Labels x = [("le", le)] /\ le ∈ "+Inf" :: bucketLabels) \/
  (exists t r, S_Name x = "operations_total" /\ S_Labels x = [("type", t); ("result", r)] /\ 0 <= S_Value x /\
     t ∈ "unknown" :: knownOperationTypes /\ r ∈ "unknown" :: knownOperationResults) \/
  (exists r, S_Name x = "cleanup_refused_total" /\ S_Labels x = [("reason", r)] /\ r ∈ "unknown" :: knownCleanupReasons /\ 0 <= S_Value x).

Lemma clamp_age_ok age : 0 <= clamp_age age <= 1000000000 * second_ns.
Proof.
  unfold clamp_age, maxGaugeValue. assert (0 < 1000000000 * second_ns) by (vm_compute; done). set (cap := _ * second_ns) in *.
  destruct (Z.ltb_spec age 0), (Z.ltb_spec cap 0); destruct (Z.ltb_spec cap age); lia.
Qed.

Lemma elem_of_sorted_keys m k : k ∈ sorted_keys m -> exists v, m !! k = Some v.
Proof.
  unfold sorted_keys, sort_strings. rewrite sort_by_key_perm. intros ([k' v] & -> & Hv)%list_elem_of_fmap.
  apply elem_of_map_to_list in Hv. by exists v.
Qed.

Lemma target_samples_ok now t s x : state_ok s -> x ∈ target_samples now t s -> target_sample_ok t x.
Proof.
  intros [S1 (S2 & S3 & S4 & S5) (S6 & S7) S8 S9 S10] Hx. unfold target_samples in Hx. unfold target_sample_ok.
  repeat (apply elem_of_app in Hx as [Hx|Hx]).
  - left. repeat (apply elem_of_cons in Hx as [->|Hx]; [split; [done|split; [by apply (bool_decide_unpack _)|done]]|]). by apply elem_of_nil in Hx.
  - right. left. unfold exposed_age in Hx. destruct (providerSnapshotAt s); cbn in Hx; [|by apply elem_of_nil in Hx].
    apply list_elem_of_singleton in Hx as ->. split; [done|]. split; [done|]. apply clamp_age_ok.
  - left. repeat (apply elem_of_cons in Hx as [->|Hx]; [split; [done|split; [by apply (bool_decide_unpack _)|done]]|]). by apply elem_of_nil in Hx.
  - apply list_elem_of_fmap in Hx as (k & -> & (v & Hv)%elem_of_sorted_keys). right. right. exists k. cbn [S_Labels S_Name S_Value]. rewrite Hv. left. by destruct (S8 k v Hv).
  - apply list_elem_of_fmap in Hx as (k & -> & (v & Hv)%elem_of_sorted_keys). right. right. exists k. cbn [S_Labels S_Name S_Value]. rewrite Hv. right. left. by destruct (S9 k v Hv).
  - apply list_elem_of_fmap in Hx as (k & -> & (v & Hv)%elem_of_sorted_keys). right. right. exists k. cbn [S_Labels S_Name S_Value]. rewrite Hv. right. right. by destruct (S10 k v Hv).
Qed.

Lemma platform_samples_ok now m x : metrics_ok m -> x ∈ platform_samples now m ->
  exists t, (metricTarget t = t \/ special t = true) /\ target_sample_ok t x.
Proof.
  intros [_ H2 _ _] (t & Hx & Ht)%list_elem_of_bind. unfold sort_strings in Ht. rewrite sort_by_key_perm in Ht.
  apply list_elem_of_fmap in Ht as ([k s] & -> & Hs). apply elem_of_map_to_list in Hs. cbn [fst] in *. rewrite Hs in Hx.
  destruct (H2 k s Hs) as [Hl Hok]. exists k. split; [done|]. by eapply target_samples_ok.
Qed.

Lemma samples_ok now m x : metrics_ok m -> x ∈ samples now m -> x ∈ platform_samples now m \/ process_sample_ok x.
Proof.
  intros [_ _ H3 H4] Hx. unfold samples in Hx. unfold process_sample_ok. repeat (apply elem_of_app in Hx as [Hx|Hx]); [right..|by left].
  - left. repeat (apply elem_of_cons in Hx as [->|Hx]; [done|]). by apply elem_of_nil in Hx.
  - right. right. left. apply elem_of_lookup_zip_with in Hx as (i & le & n & -> & Hle & _). exists le. split_and!; try done. right. by eapply list_elem_of_lookup_2.
  - repeat (apply elem_of_cons in Hx as [->|Hx]; [first [by left|do 2 right; left; exists "+Inf"; split_and!; try done; left]|]). by apply elem_of_nil in Hx.
  - apply list_elem_of_fmap in Hx as ([t r] & -> & Hk). do 3 right. left. unfold sortedOpKeys in Hk. rewrite sort_slice_perm in Hk.
    apply list_elem_of_fmap in Hk as ([k v] & -> & Hv). apply elem_of_map_to_list in Hv. destruct (H3 _ _ Hv) as [[? ?] ?].
    destruct k as [t' r']. exists t', r'. cbn. rewrite Hv. done.
  - apply list_elem_of_fmap in Hx as (k & -> & (v & Hv)%elem_of_sorted_keys). do 4 right. exists k. cbn. rewrite Hv. by destruct (H4 k v Hv).
  - right. left. destruct (negb _); [|by apply elem_of_nil in Hx]. by apply list_elem_of_singleton in Hx as ->.
Qed.

(** C39. The exposition stays bounded, whatever is recorded and under however many
    target names: there are at most 256 targets beside the two collective labels, and
    at most 9,094 samples.  Every sample of a target carries a valid target name or one
    of the two labels; its gauges lie between 0 and 10^9, the age of the provider
    snapshot between 0 and 10^9 seconds whenever it is read, and its sources, phases
    and outcomes come from fixed lists, as do the labels of the samples of the process
    (build_info apart, whose labels are the version and the commit).  Counters, the sum
    of durations and the time of the last success are not bounded. *)
Theorem metrics_bounded l now : let m := recorded l in
  metrics_ok m /\ (size (platform_targets m) <= max_targets)%nat /\ (length (samples now m) <= sample_budget)%nat /\
  (forall x, x ∈ platform_samples now m -> exists t, (metricTarget t = t \/ special t = true) /\ target_sample_ok t x) /\
  (forall x, x ∈ samples now m -> x ∈ platform_samples now m \/ process_sample_ok x).
Proof.
  cbv zeta. assert (Hm : metrics_ok (recorded l)) by apply recorded_ok. split_and!; [done|by apply targets_bounded|by apply samples_bounded| |].
  - intros x. by apply platform_samples_ok.
  - intros x. by apply samples_ok.
Qed.

(** ** The histogram *)

Definition reconciles (l : list MetricEvent) : list (Z * bool) :=
  omap (fun e => match e with MReconcile _ d failed => Some (d, failed) | _ => None end) l.
Definition count_of {A} (f : A -> bool) (l : list A) : Z := Z.of_nat (length (filter (fun x => f x = true) l)).

Lemma count_of_snoc {A} (f : A -> bool) l x : count_of f (l ++ [x]) = if f x then count_of f l + 1 else count_of f l.
Proof.
  unfold count_of. rewrite filter_app, length_app, filter_cons. destruct (f x) eqn:E; [rewrite decide_True by done|rewrite decide_False by done]; rewrite filter_nil; cbn; lia.
Qed.

(** The histogram is the one of the reconciles recorded: every bucket counts
    exactly those not longer than its bound (so buckets are cumulative), the totals
    count all of them, and the errors those that failed, whatever else is recorded
    in between. *)
Theorem histogram_exact l : let m := recorded l in let rs := reconciles l in
  reconcileTotal m = Z.of_nat (length rs) /\ durationCount m = Z.of_nat (length rs) /\ durationSum m = foldr Z.add 0 rs.*1 /\
  reconcileErrors m = count_of snd rs /\ bucketCounts m = (fun upper => count_of (fun r => r.1 <=? upper) rs) <$> defaultBuckets.
Proof.
  cbv zeta. induction l as [|e l IH] using rev_ind; [done|]. unfold recorded in *. rewrite foldl_app. cbn [foldl].
  unfold reconciles in *. rewrite omap_app. destruct IH as (H1 & H2 & H3 & H4 & H5). set (rs := omap _ l) in *.
  destruct e; try (cbn [omap list_omap app]; rewrite app_nil_r; done).
  cbn [record_event RecordReconcile reconcileTotal durationCount durationSum reconcileErrors bucketCounts omap list_omap].
  rewrite length_app, fmap_app, foldr_app, count_of_snoc, H1, H2, H3, H4, H5. cbn [length fmap list_fmap foldr fst snd].
  assert (Hsum : forall z zs, foldr Z.add z zs = foldr Z.add 0 zs + z) by (intros z zs; induction zs as [|y zs IHz]; cbn; lia).
  rewrite (Hsum (_ + 0)). split_and!; [lia|lia|lia|by destruct failed|].
  clear. induction defaultBuckets as [|u us IH]; [done|]. cbn [fmap list_fmap zip_with]. by rewrite IH, count_of_snoc.
Qed.

(** The plan phases of a target are one-hot after its phase was set. *)
Theorem plan_phase_one_hot target phase m p : p ∈ knownPlanPhases ->
  let m' := SetCurrentPlanPhase target phase m in
  exists s, platform_targets m' !! target_label (platform_targets m) target = Some s /\
    plans s !! p = Some (if decide (p = phase) then 1 else 0).
Proof.
  intros Hp. cbv zeta. eexists. split; [apply lookup_insert_eq|]. cbn [plans]. set (ps := plans _).
  assert (Hclear : clear_phases ps !! p = Some 0).
  { unfold clear_phases, knownPlanPhases, planPhases in *. cbn [foldl]. repeat (apply elem_of_cons in Hp as [-> | Hp]; [by simplify_map_eq|]).
    by apply not_elem_of_nil in Hp. }
  unfold boundedPlanPhase. case_bool_decide as Hk; cbn [negb].
  - assert (Hu : (phase =s "unknown") = false).
    { apply Bool.not_true_iff_false. intros ->%eqb_eq_iff. revert Hk. apply (bool_decide_unpack _). by vm_compute. }
    rewrite Hu. cbn [negb]. case_decide as Hd; [subst; by rewrite lookup_insert_eq|]. by rewrite lookup_insert_ne.
  - rewrite decide_False by (by intros ->). done.
Qed.
End exposed.
