(* ===== verification/Command.v ===== *)
(** * cmd/fortigate-external-dns/main.go and internal/serve: the process

    Exit codes, probes, and leader election.  Leader election is a state machine
    over three threads: the elector (which [runWithLeaderElection] waits for), the
    callback that client-go starts when the Lease is acquired, and the function
    that runs when the process is told to stop; every step is what one of them does
    atomically, and client-go's own moves (acquiring, losing, returning) are steps
    it may take at any time. *)
From Stdlib Require Import String Ascii ZArith Lia.
From S2P Require Import Prelude Effects GoStrings NetIP GoEncoding Endpoint Queue Settings Workers.
Open Scope string_scope.
Open Scope list_scope.
Open Scope Z_scope.
Open Scope go_scope.

(** ** main.go *)

Fixpoint versionRequested (args : list string) : bool :=
  match args with
  | [] => false
  | arg :: rest => if arg =s "--" then false else if (arg =s "--version") || (arg =s "-version") then true else versionRequested rest
  end.

Inductive LogLevel := LevelDebug | LevelInfo | LevelWarn | LevelError.
(** [buildLogger]: the handler's format and level. *)
Definition buildLogger (format level : string) : bool * LogLevel :=
  (format =s "json", if level =s "debug" then LevelDebug else if level =s "warn" then LevelWarn else if level =s "error" then LevelError else LevelInfo).

Definition useLeaderElection (cfg : Settings) : bool := negb (Cfg_Once cfg) && Cfg_LeaderElection cfg.

(** An error of the reconcile loop, [None] being nil. *)
Inductive LoopError := Canceled | LeadershipLost | NoIdentity | Failed (e : string).
#[export] Instance LoopError_eq_dec : EqDecision LoopError.
Proof. solve_decision. Defined.

(** How the steps of [run] before the loop went. *)
Record Startup := mkStartup {
  config_loaded : result bool Settings;        (* an error: whether it is [flag.ErrHelp] *)
  config_valid : Settings -> bool;
  kube_clients : bool; probe_server : bool; direct_client : bool; policy_client : bool }.

(** [run]: the exit code, given the arguments, the steps and the loop. *)
Definition run_process (args : list string) (s : Startup) (loop : Settings -> option LoopError) : Z :=
  if versionRequested args then 0
  else match config_loaded s with
       | Err help => if help : bool then 0 else 2
       | Ok cfg =>
           if negb (config_valid s cfg) then 2
           else if negb (kube_clients s) then 1
           else if negb (probe_server s) then 1
           else if negb (Cfg_TargetMode cfg) && (negb (direct_client s) || (Cfg_PolicyEnforcement cfg && negb (policy_client s))) then 1
           else match loop cfg with None | Some Canceled => 0 | Some _ => 1 end
       end.

(** ** internal/serve *)

Record Server := mkServer { srv_ready : bool; srv_live : option bool; srv_metrics : bool }.
Record ProbeRequest := mkProbeRequest { PR_Method : string; PR_Path : string; PR_ContentLength : Z; PR_TransferEncoding : list string }.
Record ProbeResponse := mkProbeResponse { PS_Status : Z; PS_Body : string; PS_Closes : bool }.

Definition NewServer (metrics : bool) : Server := mkServer false None metrics.
Definition SetReady (b : bool) (s : Server) : Server := mkServer b (srv_live s) (srv_metrics s).
(** The check is represented by what it answers when asked. *)
Definition SetLivenessCheck (check : option bool) (s : Server) : Server := mkServer (srv_ready s) check (srv_metrics s).

Definition text (status : Z) (body : string) : ProbeResponse := mkProbeResponse status body false.

(** The routes of the server; [None] is the metrics handler. *)
Definition serve_mux (s : Server) (path : string) : option ProbeResponse :=
  if path =s "/healthz" then Some (if match srv_live s with Some ok => negb ok | None => false end then text 503 "reconcile heartbeat stale" else text 200 "ok")
  else if path =s "/readyz" then Some (if srv_ready s then text 200 "ok" else text 503 "not ready")
  else if (path =s "/metrics") && srv_metrics s then None
  else Some (text 404 "404 page not found").

Definition serve_http (s : Server) (metrics : ProbeResponse) (r : ProbeRequest) : ProbeResponse :=
  if negb ((PR_Method r =s "GET") || (PR_Method r =s "HEAD")) then text 405 "method not allowed"
  else if (0 <? PR_ContentLength r) || negb (bool_decide (PR_TransferEncoding r = [])) then mkProbeResponse 400 "request body not allowed" true
  else default metrics (serve_mux s (PR_Path r)).

(** ** Leader election *)

(** The namespace of the Lease, and the identity of this replica. *)
Definition lease_namespace (cfg : Settings) (getenv : string -> string) : string :=
  let ns := TrimSpace (Cfg_LeaderElectionNamespace cfg) in
  let ns := if ns =s "" then TrimSpace (getenv "POD_NAMESPACE") else ns in
  if ns =s "" then "kube-system" else ns.
Definition lease_identity (getenv : string -> string) (hostname : option string) : string :=
  let id := TrimSpace (getenv "POD_NAME") in
  if id =s "" then match hostname with Some h => TrimSpace h | None => "" end else id.

(** The callback: not started by client-go yet, started, refused, admitted, past
    the check of the stop signal, running the loop, returned from it (with what it will report), done. *)
Inductive Callback := CbIdle | CbStarted | CbRefused | CbAdmitted | CbChecked | CbRunning | CbReturned (e : option LoopError) | CbDone (e : option LoopError).
#[export] Instance Callback_eq_dec : EqDecision Callback.
Proof. solve_decision. Defined.

(** The main thread: inside [RunOrDie], back from it, waiting for the result, returned. *)
Inductive MainThread := MElecting | MStopped | MJoining | MReturned (e : option LoopError).
#[export] Instance MainThread_eq_dec : EqDecision MainThread.
Proof. solve_decision. Defined.

Record Election := mkElection {
  el_stop : bool;              (* the process is told to stop *)
  el_cancelled : bool;         (* [cancelElect] was called: the Lease is being given back *)
  el_lost : bool;              (* client-go could not renew the Lease *)
  el_leading : bool; el_electionStopped : bool;
  el_after : bool;             (* the function for the stop signal has run *)
  el_callback : Callback; el_main : MainThread }.

Definition NewElection : Election := mkElection false false false false false false CbIdle MElecting.

(** [leaderCtx.Err() != nil]: lost, or a child of the cancelled elector. *)
Definition leader_done (s : Election) : bool := el_lost s || el_cancelled s.

Definition set_callback (c : Callback) (s : Election) : Election :=
  mkElection (el_stop s) (el_cancelled s) (el_lost s) (el_leading s) (el_electionStopped s) (el_after s) c (el_main s).
Definition set_main (m : MainThread) (s : Election) : Election :=
  mkElection (el_stop s) (el_cancelled s) (el_lost s) (el_leading s) (el_electionStopped s) (el_after s) (el_callback s) m.
Definition cancelElect (s : Election) : Election :=
  mkElection (el_stop s) true (el_lost s) (el_leading s) (el_electionStopped s) (el_after s) (el_callback s) (el_main s).

(** The stop signal's function, under the mutex. *)
Definition stop_waiting (s : Election) : Election :=
  let s := if el_leading s then s else cancelElect s in
  mkElection (el_stop s) (el_cancelled s) (el_lost s) (el_leading s) (el_electionStopped s) true (el_callback s) (el_main s).

(** The start of [OnStartedLeading], under the mutex. *)
Definition admit_callback (s : Election) : Election :=
  if el_electionStopped s || el_stop s || leader_done s then cancelElect (set_callback CbRefused s)
  else mkElection (el_stop s) (el_cancelled s) (el_lost s) true (el_electionStopped s) (el_after s) CbAdmitted (el_main s).

(** [runAsLeader] before [run]: the stop signal, then the Lease. *)
Definition check_stop (s : Election) : Election := set_callback (if el_stop s then CbReturned (Some Canceled) else CbChecked) s.
Definition check_lease (s : Election) : Election := set_callback (if leader_done s then CbReturned (Some LeadershipLost) else CbRunning) s.

(** [runAsLeader] after [run] returned [e]. *)
Definition leader_result (s : Election) (e : option LoopError) : option LoopError :=
  if leader_done s && negb (el_stop s) && bool_decide (e = None \/ e = Some Canceled) then Some LeadershipLost else e.

(** After [RunOrDie], under the mutex. *)
Definition election_over (s : Election) : Election :=
  mkElection (el_stop s) (el_cancelled s) (el_lost s) (el_leading s) true (el_after s) (el_callback s) (if el_leading s then MJoining else MReturned None).

Definition set_stop (s : Election) : Election :=
  mkElection true (el_cancelled s) (el_lost s) (el_leading s) (el_electionStopped s) (el_after s) (el_callback s) (el_main s).
Definition set_lost (s : Election) : Election :=
  mkElection (el_stop s) (el_cancelled s) true (el_leading s) (el_electionStopped s) (el_after s) (el_callback s) (el_main s).

Inductive election_step : Election -> Election -> Prop :=
| es_signal s : election_step s (set_stop s)
| es_after s : el_stop s = true -> el_after s = false -> (forall e, el_main s <> MReturned e) -> election_step s (stop_waiting s)
| es_acquired s : el_main s = MElecting -> el_callback s = CbIdle -> election_step s (set_callback CbStarted s)
| es_lost s : el_main s = MElecting -> el_callback s <> CbIdle -> election_step s (set_lost s)
| es_admit s : el_callback s = CbStarted -> election_step s (admit_callback s)
| es_check s : el_callback s = CbAdmitted -> election_step s (check_stop s)
| es_begin s : el_callback s = CbChecked -> election_step s (check_lease s)
| es_work s e : el_callback s = CbRunning -> election_step s (set_callback (CbReturned (leader_result s e)) s)
| es_release s e : el_callback s = CbReturned e -> election_step s (cancelElect (set_callback (CbDone e) s))
| es_elector s : el_main s = MElecting -> leader_done s = true -> election_step s (set_main MStopped s)
| es_over s : el_main s = MStopped -> election_step s (election_over s)
| es_join s e : el_main s = MJoining -> el_callback s = CbDone e -> election_step s (set_main (MReturned e) s).
