(* ===== verification/CommandLaws.v ===== *)
(** * Properties of the process *)
From Stdlib Require Import String Ascii ZArith Lia.
From S2P Require Import Prelude Effects GoStrings NetIP GoEncoding Endpoint Queue Settings Workers Command.
Open Scope string_scope.
Open Scope list_scope.
Open Scope Z_scope.
Open Scope go_scope.

(** ** Leader election *)

(** The loop may still write. *)
Definition working (c : Callback) : bool :=
  match c with CbAdmitted | CbChecked | CbRunning | CbReturned _ => true | _ => false end.
(** The callback has been admitted. *)
Definition admitted (c : Callback) : bool := match c with CbIdle | CbStarted | CbRefused => false | _ => true end.

Definition returned (s : Election) : Prop := exists e, el_main s = MReturned e.

Record election_ok (s : Election) : Prop := {
  eo_leading : el_leading s = admitted (el_callback s);
  eo_lease : working (el_callback s) = true -> el_cancelled s = false;
  eo_given_back : (el_callback s = CbRefused \/ exists e, el_callback s = CbDone e) -> el_cancelled s = true;
  eo_after : el_after s = true -> el_leading s = true \/ el_cancelled s = true;
  eo_over : el_electionStopped s = true <-> (el_main s = MJoining \/ returned s);
  eo_joining : el_main s = MJoining -> el_leading s = true;
  eo_result : forall e, el_main s = MReturned e -> if el_leading s then el_callback s = CbDone e else e = None }.

Lemma NewElection_ok : election_ok NewElection.
Proof. split; try done; [by intros [?|[? ?]]|]. split; [done|by intros [?|[? ?]]]. Qed.

(** The state after a step, field by field. *)
Ltac election := unfold admit_callback, stop_waiting, check_stop, check_lease, election_over, leader_done, cancelElect, set_callback, set_main, set_stop, set_lost, returned;
  cbn [el_stop el_cancelled el_lost el_leading el_electionStopped el_after el_callback el_main].

Ltac finish H7 := try done; try (by intros [?|[? ?]]); try (let e := fresh "e" in intros e ->; by specialize (H7 e eq_refl)).

Lemma election_step_ok s s' : election_step s s' -> election_ok s -> election_ok s'.
Proof.
  intros Hst [H1 H2 H3 H4 H5 H6 H7]. unfold returned in *.
  destruct Hst as [s|s Hs Ha Hm|s Hm Hc|s Hm Hc|s Hc|s Hc|s Hc|s e Hc|s e Hc|s Hm Hl|s Hm|s e Hm Hc];
    destruct s as [stop cancelled lost leading over after cb main];
    cbn [el_stop el_cancelled el_lost el_leading el_electionStopped el_after el_callback el_main] in *; subst.
  - split; election; done.
  - election. destruct (admitted cb) eqn:Ead; split; election; try done; [by left|intros Hw; by destruct cb|by right].
  - split; election; finish H7.
  - split; election; done.
  - election. destruct (over || stop || (lost || cancelled)) eqn:Eg; split; election; try done.
    + intros Ha. right. done.
    + apply orb_false_iff in Eg as [_ Eg]. apply orb_false_iff in Eg as [_ Eg]. done.
    + by intros [?|[? ?]].
    + intros _. by left.
    + intros e ->. destruct over; [done|]. discriminate (proj2 H5 (or_intror (ex_intro _ e eq_refl))).
  - election. destruct stop; split; election; finish H7.
  - election. destruct (lost || cancelled); split; election; finish H7.
  - split; election; finish H7.
  - split; election; finish H7; intros _; by right.
  - split; election; try done. rewrite H5. split; intros [?|[? ?]]; done.
  - election. destruct (admitted cb) eqn:Ead; split; election; try done; [split; [by left|done]|split; [intros _; right; by eexists|done]|by intros e [= <-]].
  - split; election; try done; [|by intros x [= <-]]. split; [intros _; right; by eexists|intros _; apply H5; by left].
Qed.

Lemma election_reachable s : rtc election_step NewElection s -> election_ok s.
Proof.
  assert (Hgen : forall s0, rtc election_step s0 s -> election_ok s0 -> election_ok s).
  { intros s0 H0. induction H0 as [|x y z Hxy _ IH]; [done|]. intros Hx. apply IH. by eapply election_step_ok. }
  intros Hr. apply (Hgen _ Hr NewElection_ok).
Qed.

(** Once the election is over nothing is admitted any more. *)
Lemma over_stays s s' : rtc election_step s s' -> returned s -> election_ok s -> returned s' /\ election_ok s' /\ admitted (el_callback s') = admitted (el_callback s).
Proof.
  induction 1 as [s|s x s' Hx _ IH]; [done|]. intros [e He] Hok. pose proof (election_step_ok _ _ Hx Hok) as Hok'.
  assert (Hover : el_electionStopped s = true) by (apply (eo_over _ Hok); right; by exists e).
  assert (Hs : returned x /\ admitted (el_callback x) = admitted (el_callback s)).
  { pose proof (eo_result _ Hok e He) as Hres. rewrite (eo_leading _ Hok) in Hres.
    destruct Hx as [s|s ? ? Hn|s Hm|s Hm|s Hc|s Hc|s Hc|s ? Hc|s ? Hc|s Hm|s Hm|s ? Hm ?]; try congruence; try (rewrite Hc in Hres; done).
    - split; [by exists e|done].
    - unfold admit_callback. rewrite Hover. cbn. rewrite Hc. split; [by exists e|done]. }
  destruct Hs as [Hret Had]. destruct (IH Hret Hok') as (? & ? & ->). done.
Qed.

(** C5. The Lease outlives the work: in every interleaving, while the reconcile loop
    may still write, the elector is not cancelled by this process (so the Lease is
    not given back) and [runWithLeaderElection] has not returned; once it has
    returned, no late callback starts any work.  If work was started, its outcome is
    what is returned. *)
Theorem lease_outlives_work s : rtc election_step NewElection s ->
  (working (el_callback s) = true -> el_cancelled s = false /\ ~ returned s) /\
  (forall e, el_main s = MReturned e -> if el_leading s then el_callback s = CbDone e else e = None) /\
  (returned s -> forall s', rtc election_step s s' -> working (el_callback s') = false).
Proof.
  intros Hr. pose proof (election_reachable s Hr) as Hok.
  assert (Hret : forall s, election_ok s -> returned s -> working (el_callback s) = false).
  { intros x Hx [e He]. pose proof (eo_result _ Hx e He) as Hres. rewrite (eo_leading _ Hx) in Hres.
    destruct (el_callback x); cbn in *; congruence. }
  split_and!.
  - intros Hw. split; [by apply (eo_lease _ Hok)|]. intros Hret'. by rewrite (Hret _ Hok Hret') in Hw.
  - apply (eo_result _ Hok).
  - intros Hs s' Hs'. destruct (over_stays _ _ Hs' Hs Hok) as (? & ? & _). by apply Hret.
Qed.

(** ** Stopping *)

(** The callback will not do anything by itself any more. *)
Definition at_rest (c : Callback) : bool := match c with CbIdle | CbRefused | CbDone _ => true | _ => false end.
Definition reaches (P : Election -> Prop) (s : Election) : Prop := exists s', rtc election_step s s' /\ P s'.

Lemma reaches_now (P : Election -> Prop) s : P s -> reaches P s.
Proof. intros H. exists s. split; [apply rtc_refl|done]. Qed.
Lemma reaches_step (P : Election -> Prop) s s' : election_step s s' -> reaches P s' -> reaches P s.
Proof. intros Hs (x & Hx & HP). exists x. split; [by eapply rtc_l|done]. Qed.

Definition stopping_at_rest (s : Election) : Prop := el_stop s = true /\ at_rest (el_callback s) = true.

Lemma returned_settles s e : el_stop s = true -> el_callback s = CbReturned e -> reaches stopping_at_rest s.
Proof. intros Hs Hc. eapply reaches_step; [by apply (es_release s e)|]. by apply reaches_now. Qed.

Lemma running_settles s : el_stop s = true -> el_callback s = CbRunning -> reaches stopping_at_rest s.
Proof. intros Hs Hc. eapply reaches_step; [by apply (es_work s None)|]. by eapply returned_settles. Qed.

(** Told to stop, the callback comes to rest. *)
Lemma callback_settles s : el_stop s = true -> reaches stopping_at_rest s.
Proof.
  intros Hs. destruct (el_callback s) eqn:Ec; try (apply reaches_now; split; [done|by rewrite Ec]).
  - eapply reaches_step; [by apply es_admit|]. apply reaches_now. unfold admit_callback. rewrite Hs, orb_true_r. done.
  - eapply reaches_step; [by apply es_check|]. eapply returned_settles; [done|]. unfold check_stop. by rewrite Hs.
  - eapply reaches_step; [by apply es_begin|]. unfold check_lease. destruct (leader_done s); [by eapply returned_settles|by apply running_settles].
  - by apply running_settles.
  - by eapply returned_settles.
Qed.

Lemma joining_returns s : election_ok s -> el_main s = MJoining -> at_rest (el_callback s) = true -> reaches returned s.
Proof.
  intros Hok Hm Hc. pose proof (eo_joining _ Hok Hm) as Hl. rewrite (eo_leading _ Hok) in Hl. destruct (el_callback s) eqn:Ec; try done.
  eapply reaches_step; [by eapply es_join|]. apply reaches_now. by eexists.
Qed.

Lemma stopped_returns s : election_ok s -> el_main s = MStopped -> at_rest (el_callback s) = true -> reaches returned s.
Proof.
  intros Hok Hm Hc. assert (Hstep : election_step s (election_over s)) by by apply es_over. eapply reaches_step; [done|].
  destruct (el_leading s) eqn:El; [apply joining_returns; [by eapply election_step_ok|cbn; by rewrite El|done]|].
  apply reaches_now. exists None. cbn. by rewrite El.
Qed.

Lemma elector_returns s : election_ok s -> el_main s = MElecting -> leader_done s = true -> at_rest (el_callback s) = true -> reaches returned s.
Proof.
  intros Hok Hm Hd Hc. assert (Hstep : election_step s (set_main MStopped s)) by by apply es_elector. eapply reaches_step; [done|].
  apply stopped_returns; [by eapply election_step_ok|done|done].
Qed.

Lemma at_rest_returns s : election_ok s -> stopping_at_rest s -> reaches returned s.
Proof.
  intros Hok [Hs Hc]. destruct (el_main s) eqn:Em; [|by apply stopped_returns|by apply joining_returns|apply reaches_now; by eexists].
  destruct (leader_done s) eqn:Ed; [by apply elector_returns|]. apply orb_false_iff in Ed as [_ Ed].
  assert (Hidle : el_callback s = CbIdle).
  { destruct (el_callback s) eqn:Ec; try done; rewrite (eo_given_back _ Hok) in Ed; naive_solver. }
  pose proof (eo_leading _ Hok) as Hl. rewrite Hidle in Hl. cbn in Hl.
  assert (Ha : el_after s = false) by (destruct (el_after s) eqn:Ea; [destruct (eo_after _ Hok Ea); congruence|done]).
  assert (Hstep : election_step s (stop_waiting s)) by (apply es_after; [done|done|congruence]). eapply reaches_step; [done|].
  apply elector_returns; [by eapply election_step_ok|..]; unfold stop_waiting, leader_done; rewrite Hl; cbn; [done|by rewrite orb_true_r|done].
Qed.

(** Shutdown cannot hang: once the process is told to stop, from every reachable
    state the threads can finish (the loop returns, the Lease is given back if it is
    held, the elector ends) and [runWithLeaderElection] returns. *)
Theorem shutdown_completes s : rtc election_step NewElection s -> el_stop s = true -> reaches returned s.
Proof.
  intros Hr Hs. destruct (callback_settles s Hs) as (s1 & Hr1 & H1).
  destruct (at_rest_returns s1) as (s2 & Hr2 & H2); [apply election_reachable; by etransitivity|done|]. exists s2. split; [by etransitivity|done].
Qed.

(** ** What the process reports *)

(** Losing the Lease is never reported as a clean stop: work that ends (or is not
    begun) because the Lease was lost while the process was not told to stop makes
    the process exit with 1, whatever the loop returned, unless that is an error of
    its own.  Exit code 2 means that the configuration was refused, before anything
    was started. *)
Theorem exit_codes args startup loop : 
  (forall s e, el_lost s = true -> el_stop s = false -> leader_result s e <> None /\ leader_result s e <> Some Canceled) /\
  (forall cfg, config_loaded startup = Ok cfg -> config_valid startup cfg = true -> kube_clients startup = true -> probe_server startup = true ->
     direct_client startup = true -> policy_client startup = true -> versionRequested args = false ->
     run_process args startup loop = (if bool_decide (loop cfg = None \/ loop cfg = Some Canceled) then 0 else 1)) /\
  (run_process args startup loop = 2 <->
     versionRequested args = false /\ (config_loaded startup = Err false \/ exists cfg, config_loaded startup = Ok cfg /\ config_valid startup cfg = false)).
Proof.
  split_and!.
  - intros s e Hl Hs. unfold leader_result, leader_done. rewrite Hl, Hs. cbn [orb negb andb]. case_bool_decide as Hd; [done|]. naive_solver.
  - intros cfg Hc Hv Hk Hp Hd Hpol Hver. unfold run_process. rewrite Hver, Hc, Hv, Hk, Hp, Hd, Hpol. cbn [negb orb andb]. rewrite !andb_false_r.
    destruct (loop cfg) as [[]|]; case_bool_decide as Hb; try done; destruct Hb; auto; try done.
  - unfold run_process. destruct (versionRequested args); [by split; [|intros [? _]]|]. destruct (config_loaded startup) as [cfg|[]].
    + destruct (config_valid startup cfg) eqn:Ev; cbn [negb]; [|split; [|done]; intros _; split; [done|]; right; by exists cfg].
      split; [|intros [_ [?|(c & [= <-] & ?)]]; congruence].
      destruct (negb (kube_clients startup)); [done|]. destruct (negb (probe_server startup)); [done|]. destruct (_ && _); [done|]. by destruct (loop cfg) as [[]|].
    + split; [done|]. by intros [_ [?|(c & ? & ?)]].
    + split; [|done]. intros _. split; [done|]. by left.
Qed.

(** Probes: the liveness answer is the heartbeat's, readiness is what was last set,
    and a request with a body or another method than GET and HEAD reaches neither. *)
Theorem probes_exact s metrics r : let a := serve_http s metrics r in
  (PS_Status a = 503 -> serve_mux s (PR_Path r) <> None ->
     (PR_Path r = "/healthz" /\ srv_live s = Some false) \/ (PR_Path r = "/readyz" /\ srv_ready s = false)) /\
  (forall now window h, PR_Method r = "GET" -> PR_ContentLength r = 0 -> PR_TransferEncoding r = [] -> PR_Path r = "/healthz" ->
     srv_live s = Some (Healthy now window h) -> PS_Status a = if Healthy now window h then 200 else 503) /\
  (0 < PR_ContentLength r -> PS_Status a = 405 \/ PS_Status a = 400).
Proof.
  cbv zeta. unfold serve_http. split_and!.
  - destruct (negb _); [done|]. destruct (_ || _); [done|]. intros Hs Hn. destruct (serve_mux s (PR_Path r)) as [a|] eqn:Em; [|done]. cbn in Hs.
    unfold serve_mux in Em. destruct (PR_Path r =s "/healthz") eqn:E1; [left|].
    { bools. split; [done|]. injection Em as <-. by destruct (srv_live s) as [[]|]. }
    destruct (PR_Path r =s "/readyz") eqn:E2; [right; bools; split; [done|]; injection Em as <-; by destruct (srv_ready s)|].
    destruct (_ && _); [done|]. by injection Em as <-.
  - intros now window h -> -> -> -> Hl. unfold serve_mux. rewrite Hl. cbn -[Healthy]. by destruct (Healthy now window h).
  - intros Hc. destruct (negb _); [by left|right]. assert (Hb : (0 <? PR_ContentLength r) = true) by lia. by rewrite Hb.
Qed.
