(* ===== verification/ProcessExamples.v ===== *)
(** * A cluster with one target, and one process

    A listing with a target and an object that does not decode, the informers for
    it, an update of a Service that only reorders its status, target mode run once,
    and a replica that becomes leader: the theorems about loading, informers, events,
    the loops and leader election applied to them. *)
From Stdlib Require Import String Ascii ZArith Lia.
From S2P Require Import Prelude Effects GoStrings NetIP GoEncoding Endpoint Plan Document Queue Scheduling Client Sources Policy Gateways Runner.
From S2P Require Import ChangePlans Apply Claims Settings Targets TargetsLaws Runtimes StatusWriter Workers Platform PlatformLaws EventsLaws.
From S2P Require Import Command CommandLaws Metrics MetricsLaws TargetExamples PlatformExamples.
Open Scope string_scope.
Open Scope list_scope.
Open Scope Z_scope.
Open Scope go_scope.

#[local] Instance plain_keys : KeyValidation := TargetExamples.plain_keys.
#[local] Instance small_platform : Platform := TargetExamples.small_platform.

(** ** Loading *)

Definition web_object : TargetObject := mkTargetObject "edge" "com" "com-uid" "7" 1
  (mkTargetSpec "https://fw.example.com" "root" "example.com" (mkSecretRef "token" "value" None) None false OwnershipModeShared "ctl"
     ["Service "] ["Web"] [] [] CleanupPolicyKeep false "" false 0 0 0 2 300 false false).
Definition web : Definition_ := (validateDefinition (FromAPI web_object)).1.

Definition listing : list ListedTarget := [mkListedTarget "edge" "com" 1 (Some web_object); mkListedTarget "edge" "broken" 4 None].

(** The cluster of [PlatformExamples], with a listing. *)
Definition listed : PlatformEnv Fleet unit :=
  mkPlatformEnv (fun _ w => (w, Ok listing)) (get_target (cluster 1)) (status_api (cluster 1)) fleet (fun _ _ w => w) (fun _ w => w) (fun w => w)
    (fun _ w => (w, true)) (fun _ => 0) (fun _ => false).

Definition load_of : targetLoad :=
  match loadTargetDefinitions fleet_settings listed NewRuntimeManager no_fleet with (_, Ok l) => l | _ => mkLoad [] ∅ ∅ end.

Lemma loaded_web : exists w, loadTargetDefinitions fleet_settings listed NewRuntimeManager no_fleet = (w, Ok load_of) /\ web ∈ load_definitions load_of.
Proof.
  destruct (loadTargetDefinitions fleet_settings listed NewRuntimeManager no_fleet) as [w [l|e]] eqn:E; [|vm_compute in E; discriminate].
  exists w. split; [unfold load_of; rewrite E; reflexivity|]. apply (bool_decide_unpack _). vm_compute. exact I.
Qed.

Lemma load_accounts_for_all_witness : is_Some (load_invalid load_of !! "edge/broken").
Proof.
  destruct loaded_web as (w & E & _).
  destruct (load_accounts_for_all fleet_settings listed NewRuntimeManager no_fleet no_fleet w listing load_of eq_refl E) as (_ & _ & H).
  apply (H (mkListedTarget "edge" "broken" 4 None)). by right; left.
Defined.

Definition informers : list informerBinding :=
  match newInformerFactories true true true (runtime_config fleet_settings load_of) with Ok l => l | Err _ => [] end.

Lemma informers_cover_discovery_witness : watched informers EventService "web" /\ watched informers EventOwnership "edge".
Proof.
  destruct loaded_web as (w & E & Hd).
  assert (Ei : newInformerFactories true true true (runtime_config fleet_settings load_of) = Ok informers) by (vm_compute; reflexivity).
  destruct (informers_cover_discovery fleet_settings listed NewRuntimeManager no_fleet w load_of true true true informers web E Ei Hd) as (H1 & _ & H2 & _).
  split; [apply H1; vm_compute; reflexivity|apply H2; vm_compute; reflexivity].
Defined.

Lemma gate_exact_witness : exists gate, SyncGate (fun l => l) (fun b => B_Namespace b =s "web") informers = Ok gate /\ RequireSynchronized (Some gate) <> None.
Proof.
  destruct (gate_exact (fun l => l) (fun b => B_Namespace b =s "web") informers) as (gate & Hg & Hx).
  - intros l. reflexivity.
  - intros b Hb. assert (Hall : forallb (fun b => validEventKind (B_Kind b)) informers = true) by (vm_compute; reflexivity).
    rewrite forallb_forall in Hall. apply Hall, list_elem_of_In, Hb.
  - exists gate. split; [exact Hg|]. intros Hn. apply Hx with (b := mkBinding EventTarget "edge") in Hn; [vm_compute in Hn; discriminate|].
    vm_compute. by right; left.
Defined.

(** ** Events *)

Definition web_service (ingress : list json) : SemanticMeta :=
  mkSemanticMeta "web" "www" 3 false (SemService (Some {["app" := "www"]}) None (JObject [("type", JString "LoadBalancer")]) ingress).
Definition address_a : json := JObject [("ip", JString "203.0.113.9")].
Definition address_b : json := JObject [("ip", JString "203.0.113.10")].

#[local] Existing Instance canonical_range.

Lemma semantic_updates_exact_witness : exists e,
  semanticEvent EventService EventUpdate (Some (web_service [address_a; address_b])) (Some (web_service [address_b; address_a])) = Ok e /\ Meaningful e = false.
Proof.
  destruct (semanticEvent EventService EventUpdate (Some (web_service [address_a; address_b])) (Some (web_service [address_b; address_a]))) as [e|x] eqn:E;
    [|unfold semanticEvent in E; cbn -[NewSemanticFingerprint] in E; discriminate].
  exists e. split; [reflexivity|]. destruct (semantic_updates_exact EventService _ _ e E eq_refl) as [H _]. apply H; [reflexivity|reflexivity|].
  cbn. split_and!; [reflexivity|reflexivity|reflexivity|]. apply Permutation_swap.
Defined.

(** An address that is gone is noticed. *)
Example lost_address : match semanticEvent EventService EventUpdate (Some (web_service [address_a; address_b])) (Some (web_service [address_b])) with
                       | Ok e => Meaningful e = true | Err _ => False end.
Proof. vm_compute. reflexivity. Qed.

(** ** A target is deleted *)

(** Within the scope the informers were built for, the target that is now listed
    gets a runtime and is woken; under another scope the callback says so. *)
Example deletion_wakes_or_ends :
  let scope := platformEventScope fleet_settings (load_definitions load_of) in
  let gone := mkTargetKey "edge" "gone" in
  (on_target_deleted fleet_settings listed scope (fun _ => "") gone (NewRuntimeManager, no_fleet)).2 = Ok [mkTargetKey "edge" "com"] /\
  (on_target_deleted fleet_settings listed (mkScope [] [] [] false false false) (fun _ => "") gone (NewRuntimeManager, no_fleet)).2 = Err DeletionScopeChanged.
Proof. vm_compute. auto. Qed.

(** ** Target mode, once *)

Definition once_settings : Settings :=
  Eval vm_compute in match load (fun _ => "") [("target-mode", "true"); ("platform-namespace", "edge"); ("once", "true")] with Ok c => c | Err _ => loaded end.

Definition ran_once := runTargetMode once_settings listed accepts (fun _ _ _ w => w) (fun _ m w => (w, (m, EndedContext))) 1 no_fleet.

Lemma target_mode_survives_witness : (exists e, ran_once.2.2 = Returned e) /\ runtimes <$> ran_once.2.1 = Some ∅.
Proof.
  destruct ran_once as [w [m r]] eqn:E.
  destruct (target_mode_survives once_settings listed accepts (fun _ _ _ w => w) (fun _ m w => (w, (m, EndedContext))) 1 no_fleet w m r E) as [_ H].
  destruct H as [H1 H2]; [eexists; reflexivity|].
  destruct H1 as [e He]; [reflexivity|lia|]. split; [exists e; exact He|]. exact (proj1 (H2 e He)).
Defined.

(** ** Leading *)

Definition leading : Election := check_lease (check_stop (admit_callback (set_callback CbStarted NewElection))).

Lemma leading_reachable : rtc election_step NewElection leading.
Proof.
  eapply rtc_l; [by apply es_acquired|]. eapply rtc_l; [by apply es_admit|]. eapply rtc_l; [by apply es_check|]. eapply rtc_l; [by apply es_begin|]. apply rtc_refl.
Qed.

Lemma lease_outlives_work_witness : working (el_callback leading) = true /\ el_cancelled leading = false /\ ~ returned leading.
Proof. split; [reflexivity|]. exact (proj1 (lease_outlives_work leading leading_reachable) eq_refl). Defined.

Lemma shutdown_completes_witness : reaches returned (set_stop leading).
Proof.
  apply (shutdown_completes (set_stop leading)); [|reflexivity]. eapply rtc_r; [exact leading_reachable|apply es_signal].
Defined.

(** 300 names are folded into 257 labels. *)
Example many_targets : size (platform_targets (recorded ((fun i => MReadiness ("t" +:+ FormatInt (Z.of_nat i)) true) <$> seq 0 300))) = 257%nat.
Proof. vm_compute. reflexivity. Qed.
