(* ===== verification/PlanFile.v ===== *)
(** * The plan file

    [WriteCanonicalFile] of internal/plan/file.go on a small file system:
    directory entries that name files, files with their current bytes and those
    that survive a crash, system calls that can fail (a write after any number
    of bytes), and other processes that act before every call.  [history] holds
    the file system before and after each call of the writer, in order. *)
From S2P Require Import Prelude Effects GoStrings Document DocumentGraph.
From Stdlib Require Import Ascii ZArith.

(** ** os and path/filepath *)

Inductive Errno := EEXIST | ENOENT | ErrClosed | OtherErrno (e : string).

Record File := mkFile { f_bytes : string; f_durable : string; f_mode : Z }.
Record FS := mkFS { entries : gmap string nat; files : gmap nat File }.

(** What the kernel answers to a call: it does its work, or it fails, in the case
    of a write after [written] bytes. *)
Inductive Answer := Fine | Fault (written : nat) (e : Errno).

Record Disk := mkDisk {
  fs : FS;
  answers : list Answer;              (* of the next calls; beyond its end, [Fine] *)
  others : list (FS -> FS);           (* what other processes do before the next calls *)
  opened : gset nat;                  (* the open files of this process *)
  history : list (FS * FS) }.

Section calls.
Implicit Types (s : FS) (d : Disk).

Definition call {A} (good : FS -> FS * result Errno A) (partial : nat -> FS -> FS) : M Disk Errno A := fun d =>
  let before := default id (head (others d)) (fs d) in
  let '(after, r) := match default Fine (head (answers d)) with
                     | Fine => good before
                     | Fault n e => (partial n before, Err e)
                     end in
  (mkDisk after (tail (answers d)) (tail (others d)) (opened d) (history d ++ [(before, after)]), r).

Definition no_partial (n : nat) s : FS := s.

Definition with_opened (f : gset nat -> gset nat) d : Disk := mkDisk (fs d) (answers d) (others d) (f (opened d)) (history d).

(** [OpenFile(name, O_RDWR|O_CREATE|O_EXCL, 0600)]: a new file under a new entry. *)
Definition create_exclusive (entry : string) s : FS * result Errno nat :=
  match entries s !! entry with
  | Some _ => (s, Err EEXIST)
  | None => let i := fresh (dom (files s) ∪ map_img (entries s)) in
            (mkFS (<[entry := i]> (entries s)) (<[i := mkFile "" "" 384]> (files s)), Ok i)
  end.

Definition open_exclusive (entry : string) : M Disk Errno nat := fun d =>
  match call (create_exclusive entry) no_partial d with
  | (d, Ok i) => (with_opened ({[ i ]} ∪.) d, Ok i)
  | (d, Err e) => (d, Err e)
  end.

Definition update_file (i : nat) (f : File -> File) s : FS := mkFS (entries s) (alter f i (files s)).
Definition always (f : FS -> FS) s : FS * result Errno unit := (f s, Ok tt).

Definition append_bytes (b : string) (f : File) : File := mkFile (f_bytes f +:+ b) (f_durable f) (f_mode f).
Definition sync_bytes (f : File) : File := mkFile (f_bytes f) (f_bytes f) (f_mode f).
Definition set_mode (m : Z) (f : File) : File := mkFile (f_bytes f) (f_durable f) m.

Definition File_Chmod (i : nat) (mode : Z) : M Disk Errno unit := call (always (update_file i (set_mode mode))) no_partial.
Definition File_Write (i : nat) (b : string) : M Disk Errno unit :=
  call (always (update_file i (append_bytes b))) (fun n => update_file i (append_bytes (String.substring 0 n b))).
Definition File_Sync (i : nat) : M Disk Errno unit := call (always (update_file i sync_bytes)) no_partial.
(** A closed [os.File] is not closed again. *)
Definition File_Close (i : nat) : M Disk Errno unit := fun d =>
  if bool_decide (i ∈ opened d) then call (always id) no_partial (with_opened (fun o => o ∖ {[ i ]}) d) else (d, Err ErrClosed).

Definition rename_entry (from to : string) s : FS * result Errno unit :=
  match entries s !! from with
  | None => (s, Err ENOENT)
  | Some i => if bool_decide (entries s !! to = Some i) then (s, Ok tt)   (* two names of one file: rename does nothing *)
              else (mkFS (<[to := i]> (delete from (entries s))) (files s), Ok tt)
  end.
Definition link_entry (from to : string) s : FS * result Errno unit :=
  match entries s !! from, entries s !! to with
  | None, _ => (s, Err ENOENT)
  | Some _, Some _ => (s, Err EEXIST)
  | Some i, None => (mkFS (<[to := i]> (entries s)) (files s), Ok tt)
  end.
Definition remove_entry (entry : string) s : FS * result Errno unit :=
  match entries s !! entry with
  | None => (s, Err ENOENT)
  | Some _ => (mkFS (delete entry (entries s)) (files s), Ok tt)
  end.

Definition os_Rename (from to : string) : M Disk Errno unit := call (rename_entry from to) no_partial.
Definition os_Link (from to : string) : M Disk Errno unit := call (link_entry from to) no_partial.
Definition os_Remove (entry : string) : M Disk Errno unit := call (remove_entry entry) no_partial.
End calls.

(** [filepath.Clean] and [filepath.Dir] on a Unix path. *)
Definition slash : ascii := "/"%char.

Definition clean_component (rooted : bool) (stack : list string) (c : string) : list string :=
  if (c =s "") || (c =s ".") then stack
  else if c =s ".." then
    match stack with
    | top :: below => if top =s ".." then ".." :: stack else below
    | [] => if rooted then [] else [".."]
    end
  else c :: stack.

Definition Clean (path : string) : string :=
  let rooted := HasPrefix path "/" in
  let body := Join (rev (foldl (clean_component rooted) [] (SplitChar path slash))) "/" in
  if rooted then "/" +:+ body else if body =s "" then "." else body.

(** The path up to and including its last slash. *)
Fixpoint dir_prefix (path : string) : string :=
  match path with
  | "" => ""
  | String c rest => if contains_char slash (String c rest) then String c (dir_prefix rest) else ""
  end.
Definition Dir (path : string) : string := Clean (dir_prefix path).

Definition joinPath (dir name : string) : string := if HasSuffix dir "/" then dir +:+ name else dir +:+ "/" +:+ name.

Definition is_exist (e : Errno) : bool := match e with EEXIST => true | _ => false end.

(** [defer cleanup()]: it runs whether the body returns a value or an error. *)
Definition deferred {W E F A} (cleanup : M W F unit) (m : M W E A) : M W E A := fun w =>
  let '(w, r) := m w in ((cleanup w).1, r).

(** ** Writing the plan *)

Section write.
Context `{MapRange}.
(** The directory entry the kernel finds under a path, and the random parts of
    the temporary names in the order they are tried. *)
Context (resolve : string -> string).

Fixpoint create_temp_loop (prefix : string) (suffixes : list string) : M Disk Errno (string * nat) :=
  match suffixes with
  | [] => fail EEXIST
  | suffix :: rest => fun d =>
      match open_exclusive (resolve (prefix +:+ suffix)) d with
      | (d, Ok i) => (d, Ok (prefix +:+ suffix, i))
      | (d, Err e) => if is_exist e then create_temp_loop prefix rest d else (d, Err e)
      end
  end.

Definition temp_pattern : string := ".fortigate-external-dns-plan-".
Definition CreateTemp (directory : string) (random : list string) : M Disk Errno (string * nat) :=
  create_temp_loop (joinPath directory temp_pattern) random.

Definition write_error (what : string) (e : Errno) : string := what.

(** The body between the [defer] and the end. *)
Definition write_temporary (temporaryPath path : string) (i : nat) (canonical : string) (overwrite : bool) : M Disk string unit :=
  do! wrap (write_error "protect temporary plan output") (File_Chmod i 384) in
  do! wrap (write_error "write temporary plan output") (File_Write i canonical) in
  do! wrap (write_error "sync temporary plan output") (File_Sync i) in
  do! wrap (write_error "close temporary plan output") (File_Close i) in
  if overwrite then wrap (write_error "replace plan output") (os_Rename (resolve temporaryPath) (resolve path))
  else wrap (fun e => if is_exist e then "plan output already exists; explicit overwrite is required" else "create plan output")
         (os_Link (resolve temporaryPath) (resolve path)).

Definition remove_temporary (temporaryPath : string) (i : nat) : M Disk string unit :=
  do! discard (File_Close i) in discard (os_Remove (resolve temporaryPath)).

Definition WriteCanonicalFile (path : string) (document : Document) (overwrite : bool) (random : list string) : M Disk string unit :=
  let path := TrimSpace path in
  do! require (negb (path =s "")) "plan output path is required" in
  let! canonical := wrap (fun _ => "canonicalize plan output") (lift (CanonicalJSON document)) in
  let! temporary := wrap (write_error "create temporary plan output") (CreateTemp (Dir path) random) in
  deferred (remove_temporary temporary.1 temporary.2) (write_temporary temporary.1 path temporary.2 canonical overwrite).
End write.
