(* ===== verification/PlanFileLaws.v ===== *)
(** * What a reader of the plan file can see

    The writer may be interrupted between any two of its calls, its calls may
    fail, and other processes may work in the same directories.  Each call of the
    writer leaves every entry but its own temporary ones and the destination
    alone, and the destination changes at most once: from nothing (or, with
    overwrite, from what was there) to a file whose bytes, on disk too, are
    exactly the canonical document. *)
From S2P Require Import Prelude Effects GoStrings Document DocumentGraph PlanFile.

Section laws.
Context `{MapRange} (resolve : string -> string).

(** ** Own files and polite processes *)

(** The file [i] has the entry [t] and no other. *)
Definition private (s : FS) (t : string) (i : nat) : Prop :=
  entries s !! t = Some i /\ forall e, entries s !! e = Some i -> e = t.

(** Another process neither removes, renames or links a temporary file nor writes to it. *)
Definition polite (T : string -> Prop) (o : FS -> FS) : Prop :=
  forall s t i, T t -> private s t i -> private (o s) t i /\ files (o s) !! i = files s !! i.

(** The entries [CreateTemp] may use. *)
Definition temporary_entries (path : string) (random : list string) (t : string) : Prop :=
  exists suffix, suffix ∈ random /\ t = resolve (joinPath (Dir (TrimSpace path)) temp_pattern +:+ suffix).

(** ** What one call may change *)

Context (T : string -> Prop) (p : string).

(** Outside the temporary entries and the destination no name changes, and no
    file with a name outside the temporary entries is written. *)
Definition contained (step : FS * FS) : Prop :=
  (forall e, ~ T e -> e <> p -> entries step.2 !! e = entries step.1 !! e)
  /\ (forall e i, ~ T e -> entries step.1 !! e = Some i -> files step.2 !! i = files step.1 !! i).

Definition quiet (step : FS * FS) : Prop := contained step /\ entries step.2 !! p = entries step.1 !! p.

Definition publishes (canonical : string) (overwrite : bool) (step : FS * FS) : Prop :=
  contained step
  /\ (exists i, entries step.2 !! p = Some i /\ files step.2 !! i = Some (mkFile canonical canonical 384))
  /\ (overwrite = true \/ entries step.1 !! p = None).

(** ** The states of the writer *)

Context (HT : ~ T p) (h0 : list (FS * FS)).

Definition polite_world (d : Disk) : Prop := Forall (polite T) (others d).
Definition all_quiet (d : Disk) : Prop := exists l, history d = h0 ++ l /\ Forall quiet l.
Definition one_publication (canonical : string) (overwrite : bool) (d : Disk) : Prop :=
  exists l1 step l2, history d = h0 ++ l1 ++ step :: l2 /\ Forall quiet l1 /\ publishes canonical overwrite step /\ Forall quiet l2.

Definition owning (t : string) (i : nat) (f : File) (d : Disk) : Prop :=
  polite_world d /\ all_quiet d /\ T t /\ private (fs d) t i /\ files (fs d) !! i = Some f.

Lemma polite_tail d : polite_world d -> Forall (polite T) (tail (others d)).
Proof. unfold polite_world. destruct (others d); [done|]. by intros [_ ?]%Forall_cons. Qed.

Lemma polite_head d t i f : polite_world d -> T t -> private (fs d) t i -> files (fs d) !! i = Some f ->
  private (default id (head (others d)) (fs d)) t i /\ files (default id (head (others d)) (fs d)) !! i = Some f.
Proof.
  unfold polite_world. destruct (others d) as [|o os]; cbn; [done|]. intros [Ho _]%Forall_cons Ht Hp Hf.
  destruct (Ho _ _ _ Ht Hp) as [? ->]. done.
Qed.

Lemma quiet_same s : quiet (s, s).
Proof. done. Qed.

Lemma quiet_update s t i f : T t -> private s t i -> quiet (s, update_file i f s).
Proof.
  intros Ht [Hi Hu]. split; [split|]; [done| |done]. cbn. intros e j He Hj. rewrite lookup_alter_ne; [done|].
  intros ->. by apply Hu in Hj as ->.
Qed.

Lemma private_update s t i f : private s t i -> private (update_file i f s) t i.
Proof. done. Qed.

Lemma quiet_history d d' step : all_quiet d -> history d' = history d ++ [step] -> quiet step -> all_quiet d'.
Proof.
  intros (l & Hl & HF) Hh Hs. exists (l ++ [step]). rewrite Hh, Hl. split; [by rewrite (assoc_L (++))|].
  apply Forall_app. auto.
Qed.

Lemma published_history c ow d d' step : one_publication c ow d -> history d' = history d ++ [step] -> quiet step -> one_publication c ow d'.
Proof.
  intros (l1 & st & l2 & Hl & H1 & Hp & H2) Hh Hs. exists l1, st, (l2 ++ [step]). rewrite Hh, Hl.
  split; [by rewrite <- !(assoc_L (++))|]. split; [done|]. split; [done|]. apply Forall_app. auto.
Qed.

(** A predicate on the history that quiet calls do not disturb. *)
Definition undisturbed (I : Disk -> Prop) : Prop := forall d d' step, I d -> history d' = history d ++ [step] -> quiet step -> I d'.

Lemma call_quiet {A} (I : Disk -> Prop) (good : FS -> FS * result Errno A) partial :
  undisturbed I -> (forall s, quiet (s, (good s).1)) -> (forall k s, quiet (s, partial k s)) ->
  keeps (fun d => polite_world d /\ I d) (call good partial).
Proof.
  intros HI Hg Hn d d' r [Hw Hi]. pose proof (polite_tail _ Hw) as Hw'. unfold call. set (s := default id _ _).
  destruct (default Fine _) as [|k e].
  - destruct (good s) as [s' r'] eqn:Eg. pose proof (Hg s) as G. rewrite Eg in G. intros [= <- <-].
    destruct r'; (split; [done|]; by eapply HI).
  - intros [= <- <-]. split; [done|]. by eapply HI.
Qed.

Lemma still_owning d d' t i f step : all_quiet d -> T t -> polite_world d' -> history d' = history d ++ [step] -> quiet step ->
  private (fs d') t i -> files (fs d') !! i = Some f -> owning t i f d'.
Proof. intros. split; [done|]. split; [by eapply quiet_history|done]. Qed.

(** A call in a state that owns its file: what it needs to show is about one step. *)
Lemma call_owning {A} t i f (good : FS -> FS * result Errno A) partial (post : A -> Disk -> Prop) :
  (forall s k, T t -> private s t i -> quiet (s, partial k s)) ->
  (forall d s d', owning t i f d -> private s t i -> files s !! i = Some f -> fs d' = (good s).1 -> polite_world d' ->
     history d' = history d ++ [(s, (good s).1)] ->
     match (good s).2 with Ok a => post a d' | Err _ => quiet (s, (good s).1) end) ->
  hoare (owning t i f) (call good partial) post (fun _ d => polite_world d /\ all_quiet d).
Proof.
  intros Hn Hg d d' r Ho. pose proof Ho as (Hw & Hq & Ht & Hp & Hf). unfold call.
  destruct (polite_head _ _ _ _ Hw Ht Hp Hf) as [Hp' Hf']. set (s := default id _ _) in *.
  pose proof (polite_tail _ Hw) as Hw'. destruct (default Fine _) as [|k e].
  - destruct (good s) as [s' r'] eqn:Eg. intros [= <- <-].
    pose proof (Hg d s (mkDisk s' (tail (answers d)) (tail (others d)) (opened d) (history d ++ [(s, s')])) Ho Hp' Hf') as G.
    rewrite Eg in G. specialize (G eq_refl Hw' eq_refl). destruct r' as [a|e]; [done|].
    split; [done|]. by eapply quiet_history.
  - intros [= <- <-]. split; [done|]. eapply quiet_history; [done..|]. auto.
Qed.

Lemma call_own t i f g (n : nat -> FS -> FS) :
  (forall s k, T t -> private s t i -> quiet (s, n k s)) ->
  hoare (owning t i f) (call (always (update_file i g)) n) (fun _ => owning t i (g f)) (fun _ d => polite_world d /\ all_quiet d).
Proof.
  intros Hn. apply call_owning; [done|]. cbn. intros d s d' (_ & Hq & Ht & _) Hp Hf Efs Hw Hh. 
  eapply still_owning; [done..|by eapply quiet_update| |]; rewrite Efs; [exact Hp|]. cbn. by rewrite lookup_alter_eq, Hf.
Qed.

Lemma close_owning t i f : hoare (owning t i f) (File_Close i) (fun _ => owning t i f) (fun _ d => polite_world d /\ all_quiet d).
Proof.
  intros d d' r Ho. unfold File_Close. case_bool_decide.
  - intros Ec. refine (call_owning t i f (always id) no_partial (fun _ => owning t i f) _ _ _ _ _ _ Ec); [| |exact Ho].
    + done.
    + cbn. intros d1 s d2 (_ & Hq & Ht & _) Hp Hf Efs Hw Hh. 
      eapply still_owning; [done..| | |]; by rewrite ?Efs.
  - intros [= <- <-]. by destruct Ho as (? & ? & _).
Qed.

Lemma close_quiet I i : undisturbed I -> (forall d f, I d -> I (with_opened f d)) -> keeps (fun d => polite_world d /\ I d) (File_Close i).
Proof.
  intros HI Hf d d' r [Hw Hi]. unfold File_Close. case_bool_decide; [|by intros [= <- <-]].
  intros Ec. refine (call_quiet I (always id) no_partial HI _ _ _ _ _ _ Ec); [done|done|]. split; [done|]. by apply Hf.
Qed.

Lemma remove_quiet t s : T t -> quiet (s, (remove_entry t s).1).
Proof.
  intros Ht. unfold remove_entry. destruct (entries s !! t); [|done].
  split; [split|]; cbn; [| done|]; intros; apply lookup_delete_ne; congruence.
Qed.

(** ** Creating the temporary file *)

Lemma create_step t s : T t -> quiet (s, (create_exclusive t s).1)
  /\ forall i, (create_exclusive t s).2 = Ok i ->
     private (create_exclusive t s).1 t i /\ files (create_exclusive t s).1 !! i = Some (mkFile "" "" 384).
Proof.
  intros Ht. unfold create_exclusive. destruct (entries s !! t) eqn:Et; [done|]. cbn.
  set (j := fresh _). assert (j ∉ dom (files s) ∪ map_img (entries s)) as Hj by apply is_fresh.
  assert (forall e k, entries s !! e = Some k -> k <> j) as Hne.
  { intros e k He ->. apply Hj, elem_of_union_r. by eapply elem_of_map_img_2. }
  split.
  - split; [split|]; cbn.
    + intros e He _. apply lookup_insert_ne. congruence.
    + intros e k _ He. apply lookup_insert_ne. symmetry. by eapply Hne.
    + apply lookup_insert_ne. congruence.
  - intros i [= <-]. split; [split|]; cbn; [apply lookup_insert_eq| |apply lookup_insert_eq].
    intros e He. destruct (decide (e = t)) as [->|Hd]; [done|]. rewrite lookup_insert_ne in He by done.
    by apply Hne in He.
Qed.

Lemma open_owning t : T t -> hoare (fun d => polite_world d /\ all_quiet d) (open_exclusive t)
  (fun i => owning t i (mkFile "" "" 384)) (fun _ d => polite_world d /\ all_quiet d).
Proof.
  intros Ht d d' r [Hw Hq]. unfold open_exclusive, call. pose proof (polite_tail _ Hw) as Hw'. set (s := default id _ _).
  destruct (default Fine _) as [|k e].
  - destruct (create_step t s Ht) as [Hs Ho]. destruct (create_exclusive t s) as [s' [i|e]] eqn:Ec; cbn in Hs, Ho; intros [= <- <-].
    + destruct (Ho i eq_refl) as [Hp Hf]. by eapply still_owning.
    + split; [done|]. by eapply quiet_history.
  - intros [= <- <-]. split; [done|]. by eapply quiet_history.
Qed.

Lemma create_temp_owning prefix suffixes : (forall x, x ∈ suffixes -> T (resolve (prefix +:+ x))) ->
  hoare (fun d => polite_world d /\ all_quiet d) (create_temp_loop resolve prefix suffixes)
    (fun r d => T (resolve r.1) /\ owning (resolve r.1) r.2 (mkFile "" "" 384) d) (fun _ d => polite_world d /\ all_quiet d).
Proof.
  induction suffixes as [|x l IH]; intros HTs; cbn [create_temp_loop].
  { by intros d d' r Hd [= <- <-]. }
  assert (T (resolve (prefix +:+ x))) as Hx by (apply HTs; left).
  intros d d' r Hd. destruct (open_exclusive _ d) as [d1 [i|e]] eqn:Eo; pose proof (open_owning _ Hx _ _ _ Hd Eo) as H1; cbn in H1.
  - by intros [= <- <-].
  - destruct (is_exist e); [|by intros [= <- <-]]. apply IH; [|done]. intros y Hy. apply HTs. by right.
Qed.

(** ** Publishing *)

Lemma publication d d' c ow step :
  all_quiet d -> history d' = history d ++ [step] -> publishes c ow step -> one_publication c ow d'.
Proof. intros (l & Hl & HF) Hh Hp. exists l, step, []. rewrite Hh, Hl. by rewrite <- (assoc_L (++)). Qed.

Lemma rename_publishes t i c : hoare (owning t i (mkFile c c 384)) (os_Rename t p)
  (fun _ d => polite_world d /\ one_publication c true d) (fun _ d => polite_world d /\ all_quiet d).
Proof.
  apply call_owning; [done|]. intros d s d' (_ & Hq & Ht & _) [Hi Hu] Hf _ Hw Hh. revert Hh. unfold rename_entry. rewrite Hi.
  case_bool_decide as Ep; cbn; intros Hh; [by apply Hu in Ep as ->|]. split; [done|]. eapply publication; [done..|].
  split; [split|split]; cbn; [|done| |by left].
  - intros e He Hp. by rewrite lookup_insert_ne, lookup_delete_ne by congruence.
  - exists i. by rewrite lookup_insert_eq.
Qed.

Lemma link_publishes t i c : hoare (owning t i (mkFile c c 384)) (os_Link t p)
  (fun _ d => polite_world d /\ one_publication c false d) (fun _ d => polite_world d /\ all_quiet d).
Proof.
  apply call_owning; [done|]. intros d s d' (_ & Hq & Ht & _) [Hi Hu] Hf _ Hw Hh. revert Hh. unfold link_entry. rewrite Hi.
  destruct (entries s !! p) eqn:Ep; cbn; intros Hh; [done|]. split; [done|]. eapply publication; [done..|].
  split; [split|split]; cbn; [|done| |by right].
  - intros e He Hp. by rewrite lookup_insert_ne by congruence.
  - exists i. by rewrite lookup_insert_eq.
Qed.

Lemma write_temporary_spec tp path i c ow : resolve path = p ->
  hoare (owning (resolve tp) i (mkFile "" "" 384)) (write_temporary resolve tp path i c ow)
    (fun _ d => polite_world d /\ one_publication c ow d) (fun _ d => polite_world d /\ all_quiet d).
Proof.
  intros Ep. unfold write_temporary. rewrite Ep.
  eapply hoare_bind; [apply hoare_wrap, call_own; [by intros; apply quiet_same]|intros []; cbn].
  eapply hoare_bind; [apply hoare_wrap, call_own; [by intros; eapply quiet_update]|intros []; cbn].
  eapply hoare_bind; [apply hoare_wrap, call_own; [by intros; apply quiet_same]|intros []; cbn].
  eapply hoare_bind; [apply hoare_wrap, close_owning|intros []; cbn]. cbn.
  destruct ow; apply hoare_wrap; [apply rename_publishes|apply link_publishes].
Qed.

Lemma cleanup_quiet I tp i : undisturbed I -> (forall d f, I d -> I (with_opened f d)) -> T (resolve tp) ->
  keeps (fun d => polite_world d /\ I d) (remove_temporary resolve tp i).
Proof.
  intros HI Hf Ht. apply keeps_bind; [by apply keeps_discard, close_quiet|]. intros _. apply keeps_discard, call_quiet; [done| |done].
  intros s. by apply remove_quiet.
Qed.
End laws.

(** C14. The plan file is written atomically: in whatever way system calls fail and
    whatever polite processes do meanwhile, no call of the writer changes a name
    other than its temporary ones and the destination, or a file that has another
    name; an error means that no call touched the destination; success means that
    exactly one call did, and that after it the destination names a file, for its
    owner only, whose bytes are exactly the canonical document and have reached the
    disk; without overwrite there was nothing at the destination before that call. *)
Theorem WriteCanonicalFile_atomic `{MapRange} resolve path document overwrite random d d' r
  (T := temporary_entries resolve path random) (p := resolve (TrimSpace path)) :
  ~ T p -> polite_world T d ->
  WriteCanonicalFile resolve path document overwrite random d = (d', r) ->
  match r with
  | Err _ => all_quiet T p (history d) d'
  | Ok _ => exists canonical, CanonicalJSON document = Ok canonical /\ one_publication T p (history d) canonical overwrite d'
  end.
Proof.
  intros Hp Hw. unfold WriteCanonicalFile. assert (all_quiet T p (history d) d) as Hq by (exists []; by rewrite app_nil_r).
  unfold bind at 1. unfold require. destruct (negb _); cbn; [|by intros [= <- <-]].
  unfold bind at 1, wrap at 1, lift. destruct (CanonicalJSON document) as [c|e]; [|by intros [= <- <-]]. fold p.
  unfold bind, wrap. destruct (CreateTemp _ _ _ d) as [d1 [[tp i]|e]] eqn:Ec.
  all: pose proof (create_temp_owning resolve T p Hp (history d) _ random (fun x Hx => ex_intro _ x (conj Hx eq_refl)) _ _ _ (conj Hw Hq) Ec) as H1; cbn in H1.
  2: { intros [= <- <-]. apply H1. }
  destruct H1 as [Ht Ho]. unfold deferred. destruct (write_temporary _ _ _ _ _ _ d1) as [d2 r2] eqn:Ew.
  destruct (remove_temporary resolve tp i d2) as [d3 r3] eqn:Er. cbn [fst snd] in *. rewrite Er. intros [= <- <-].
  pose proof (write_temporary_spec resolve T p Hp (history d) tp (TrimSpace path) i c overwrite eq_refl _ _ _ Ho Ew) as H2.
  destruct r2 as [[]|e].
  - exists c. split; [done|].
    pose proof (cleanup_quiet resolve T p Hp (one_publication T p (history d) c overwrite) tp i
      (published_history T p (history d) c overwrite) (fun _ _ X => X) Ht _ _ _ H2 Er) as H3. destruct r3; apply H3.
  - pose proof (cleanup_quiet resolve T p Hp (all_quiet T p (history d)) tp i
      (quiet_history T p (history d)) (fun _ _ X => X) Ht _ _ _ H2 Er) as H3. destruct r3; apply H3.
Qed.

(** ** The undisturbed run *)

Section undisturbed_run.
Context `{MapRange} (resolve : string -> string).

Definition calm (d : Disk) : Prop := answers d = [] /\ others d = [].

Lemma call_calm {A} (good : FS -> FS * result Errno A) partial d : calm d ->
  exists h, call good partial d = (mkDisk (good (fs d)).1 [] [] (opened d) h, (good (fs d)).2).
Proof. intros [Ha Ho]. unfold call. rewrite Ha, Ho. cbn. destruct (good (fs d)) eqn:E. by eexists. Qed.

Definition new_file (s : FS) : nat := fresh (dom (files s) ∪ map_img (entries s)).

Lemma create_taken t s j : entries s !! t = Some j -> create_exclusive t s = (s, Err EEXIST).
Proof. intros Ht. unfold create_exclusive. by rewrite Ht. Qed.
Lemma create_free t s : entries s !! t = None -> create_exclusive t s =
  (mkFS (<[t := new_file s]> (entries s)) (<[new_file s := mkFile "" "" 384]> (files s)), Ok (new_file s)).
Proof. intros Ht. unfold create_exclusive. by rewrite Ht. Qed.

Lemma create_temp_calm prefix suffixes d (i := new_file (fs d)) :
  calm d -> Exists (fun x => entries (fs d) !! resolve (prefix +:+ x) = None) suffixes ->
  exists x h, x ∈ suffixes /\ entries (fs d) !! resolve (prefix +:+ x) = None /\
    create_temp_loop resolve prefix suffixes d =
      (mkDisk (mkFS (<[resolve (prefix +:+ x) := i]> (entries (fs d))) (<[i := mkFile "" "" 384]> (files (fs d)))) [] []
         ({[ i ]} ∪ opened d) h, Ok (prefix +:+ x, i)).
Proof.
  unfold i. clear i. revert d. induction suffixes as [|x l IH]; intros d Hc Hx; [by apply Exists_nil in Hx|].
  cbn [create_temp_loop]. unfold open_exclusive. destruct (call_calm (create_exclusive (resolve (prefix +:+ x))) no_partial d Hc) as [h ->].
  destruct (entries (fs d) !! resolve (prefix +:+ x)) as [j|] eqn:Ee.
  - rewrite (create_taken _ _ j) by done. cbn [fst snd is_exist].
    apply Exists_cons in Hx as [Hx|Hx]; [congruence|].
    destruct (IH (mkDisk (fs d) [] [] (opened d) h)) as (y & h' & Hy & Hn & Hr); [done|exact Hx|].
    exists y, h'. split; [by right|]. split; [exact Hn|exact Hr].
  - rewrite create_free by done. exists x, h. split; [left|]. split; [done|]. done.
Qed.

Lemma alter_twice (f g : File -> File) (m : gmap nat File) i : alter f i (alter g i m) = alter (f ∘ g) i m.
Proof.
  apply map_eq. intros j. destruct (decide (j = i)) as [->|]; [|by rewrite !lookup_alter_ne].
  rewrite !lookup_alter_eq. by destruct (m !! i).
Qed.

Lemma write_calm t path i c ow d : calm d -> i ∈ opened d -> resolve t <> resolve path ->
  entries (fs d) !! resolve t = Some i -> files (fs d) !! i = Some (mkFile "" "" 384) ->
  (ow = true /\ entries (fs d) !! resolve path <> Some i \/ entries (fs d) !! resolve path = None) ->
  exists h, write_temporary resolve t path i c ow d =
    (mkDisk (mkFS (<[resolve path := i]> (if ow then delete (resolve t) (entries (fs d)) else entries (fs d)))
                  (<[i := mkFile c c 384]> (files (fs d)))) [] [] (opened d ∖ {[ i ]}) h, Ok tt).
Proof.
  intros Hc Hi Hne Ht Hf Hp. unfold write_temporary, bind, wrap, File_Chmod, File_Write, File_Sync, File_Close.
  do 3 (match goal with |- context [call ?g ?q ?d] => destruct (call_calm g q d) as [? ->]; [done|] end; cbn -[String.append call]).
  rewrite bool_decide_eq_true_2 by done.
  match goal with |- context [call ?g ?q ?d] => destruct (call_calm g q d) as [? ->]; [done|] end. cbn -[String.append call].
  assert (alter (sync_bytes ∘ append_bytes c ∘ set_mode 384) i (files (fs d)) = <[i := mkFile c c 384]> (files (fs d))) as Ef.
  { apply map_eq. intros j. destruct (decide (j = i)) as [->|].
    - by rewrite lookup_alter_eq, lookup_insert_eq, Hf.
    - by rewrite lookup_alter_ne, lookup_insert_ne. }
  destruct ow; unfold os_Rename, os_Link;
    match goal with |- context [call ?g ?q ?d] => destruct (call_calm g q d) as [? ->]; [done|] end;
    unfold rename_entry, link_entry; cbn -[String.append call]; rewrite Ht.
  - rewrite bool_decide_eq_false_2 by (destruct Hp as [[_ ?]|Hp]; [done|by rewrite Hp]). cbn. eexists. by rewrite <- Ef, !alter_twice.
  - destruct Hp as [[? _]|Hp]; [done|]. rewrite Hp. cbn. eexists. by rewrite <- Ef, !alter_twice.
Qed.

(** A plan that can be written is written: when no call fails and nobody
    interferes, one of the temporary names is free, and there is nothing at the
    destination or it may be overwritten, the writer succeeds and the file system
    is the old one with the destination naming a new file of exactly the canonical
    bytes; the temporary entry is gone and the new file is closed. *)
Theorem WriteCanonicalFile_writes path document overwrite random d canonical
  (p := resolve (TrimSpace path)) (i := new_file (fs d)) :
  calm d -> TrimSpace path <> "" -> CanonicalJSON document = Ok canonical -> ~ temporary_entries resolve path random p ->
  Exists (fun x => entries (fs d) !! resolve (joinPath (Dir (TrimSpace path)) temp_pattern +:+ x) = None) random ->
  overwrite = true \/ entries (fs d) !! p = None ->
  exists h, WriteCanonicalFile resolve path document overwrite random d =
    (mkDisk (mkFS (<[p := i]> (entries (fs d))) (<[i := mkFile canonical canonical 384]> (files (fs d)))) [] []
       (opened d ∖ {[ i ]}) h, Ok tt).
Proof.
  intros Hc Hpath Hdoc HT Hx How. unfold WriteCanonicalFile. apply eqb_neq_iff in Hpath. rewrite Hpath. fold p.
  unfold bind at 1, require, ret. cbn [negb]. unfold bind at 1, wrap at 1, lift. rewrite Hdoc.
  destruct (create_temp_calm _ _ _ Hc Hx) as (x & h & Hin & Hfree & Ec). fold i in Ec. unfold CreateTemp, bind, wrap. rewrite Ec.
  set (t := joinPath _ _ +:+ x) in *. assert (resolve t <> p) as Htp by (intros Et; apply HT; exists x; by rewrite <- Et).
  assert (i ∉ dom (files (fs d)) ∪ map_img (entries (fs d))) as Hi by (unfold i, new_file; apply is_fresh).
  assert (entries (fs d) !! p <> Some i) as Hpi by (intros Ep; apply Hi, elem_of_union_r; by eapply elem_of_map_img_2).
  unfold deferred. cbn [fst snd].
  edestruct (write_calm t (TrimSpace path) i canonical overwrite) as [h' ->]; cbn;
    [done|set_solver|done|apply lookup_insert_eq|apply lookup_insert_eq|rewrite lookup_insert_ne by done; tauto|].
  unfold remove_temporary, bind, discard, File_Close. cbn. rewrite bool_decide_eq_false_2 by set_solver. cbn.
  unfold os_Remove. match goal with |- context [call ?g ?q ?d] => destruct (call_calm g q d) as [? ->]; [done|] end. cbn. fold p.
  rewrite insert_insert_eq. replace (({[i]} ∪ opened d) ∖ {[i]}) with (opened d ∖ {[ i ]}) by set_solver.
  eexists. f_equal. f_equal. unfold remove_entry. cbn. destruct overwrite.
  - rewrite lookup_insert_ne, lookup_delete_eq by done. cbn. by rewrite delete_insert_id.
  - rewrite lookup_insert_ne, lookup_insert_eq by done. cbn. by rewrite delete_insert_ne, delete_insert_id by done.
Qed.
End undisturbed_run.
