(* ===== verification/Lifecycle.v ===== *)
(** * The life of the platform runtime

    [NewPlatformRuntime] and [Run] of internal/controller/platform_runtime.go with
    the goroutines it starts (the workers, the periodic enqueuer of
    internal/workqueue/resync.go, the informers and their handlers), as a step
    relation.  A step of [Run], of a worker or of a handler is one call on an object
    the goroutines share, or one channel operation; a pass of the periodic enqueuer
    and the reconciliation of a target are steps of their own.  Each goroutine has
    its program point in the state, so that every interleaving is a run. *)
From S2P Require Import Prelude Effects GoStrings Queue Scheduling Targets Workers.
From Stdlib Require Import ZArith.
Open Scope Z_scope.

(** ** State *)

Inductive RuntimeError :=
| RunError (what : string)              (* an error of [Run] itself *)
| CacheSyncError                        (* [ErrPlatformCacheSync] *)
| ScopeChangedError                     (* an error that wraps [ErrPlatformInformerScopeChanged] *)
| PeriodicError (e : string) | HandlerError (e : string).

(** A worker of [runWorker]: in [Get], holding a key, having found its target
    gone, having forgotten it, having found it, counted as active and in
    [processTarget], before [Complete], before [activeWorkers.Add(-1)], before
    [report], returned. *)
Inductive WorkerState :=
| WIdle | WHolding (key : TargetKey) | WAbsent (key : TargetKey) | WForgotten (key : TargetKey) | WPresent (key : TargetKey)
| WBusy (key : TargetKey) | WWorked (key : TargetKey) (r : result ProcessError unit) | WCompleted (r : result ProcessError unit)
| WReporting | WEnded.

(** [PeriodicEnqueuer.Run]: before its first pass, in its [select] with the
    schedule and the time of its timer, returned. *)
Inductive PeriodicState :=
| PStarting | PWaiting (schedule : gmap TargetKey auditDeadline) (timer : Z) | PEnded.

(** A handler at work, in [dispatchInformerEvent] and [Dispatcher.Handle]: given
    an event, in the loop over the keys, in the audits the callback for a deleted
    target asks for and before [ForgetTarget], before [Enqueue], before the deferred
    [OnTargetsChanged], before [report]. *)
Inductive HandlerState :=
| HReceived (event : result string Event)
| HLoop (event : Event) (keys : list TargetKey) (seen : gset TargetKey) (r : DispatchResult)
| HDeleted (event : Event) (key : TargetKey) (audits keys : list TargetKey) (seen : gset TargetKey) (r : DispatchResult)
| HEnqueue (event : Event) (key : TargetKey) (keys : list TargetKey) (seen : gset TargetKey) (r : DispatchResult)
| HDeferred (event : Event) (r : DispatchResult) (e : option RuntimeError)
| HReport (e : RuntimeError).

(** An informer with its handler: not started, running with the events it has not
    handed out and the handler at work, stopped. *)
Inductive InformerState :=
| INew | IRunning (backlog : list (result string Event)) (handler : option HandlerState) | IEnded.

(** [Run]: not called, waiting for the caches, before the check of the gate, before
    the first audits are queued, before [cacheReady] is set, with goroutines left
    to start, in its [select], before the [cancel] of a fatal error; then its
    deferred function: before it clears [cacheReady], before [cancel], before
    [queue.ShutDown], in [workers.Wait], in [factories.Shutdown]; returned. *)
Inductive Phase :=
| PhNew | PhSyncing | PhSynced | PhGated | PhQueued | PhStarting (workers : nat) | PhRunning | PhFatal (e : RuntimeError)
| PhClosing (r : option RuntimeError) | PhCancelling (r : option RuntimeError) | PhStopping (r : option RuntimeError)
| PhDraining (r : option RuntimeError) | PhShutdown (r : option RuntimeError) | PhReturned (r : option RuntimeError).

Record Runtime (W Q : Type) := mkRuntime {
  rt_world : W;
  rt_queue : TargetQueue Q;
  rt_phase : Phase;
  rt_done : bool;                        (* the context given to [Run] is done *)
  rt_cancelled : bool;                   (* [cancel] was called *)
  rt_ready : bool;                       (* [cacheReady] *)
  rt_active : Z;                         (* [activeWorkers] *)
  rt_workers : list WorkerState;
  rt_periodic : PeriodicState;
  rt_informers : list InformerState;     (* one for each binding of the factories *)
  rt_fatal : option RuntimeError;        (* the channels [fatal], [errors] and [scheduleChanged] *)
  rt_errors : list RuntimeError;
  rt_changed : bool }.
Arguments mkRuntime {W Q}.
Arguments rt_world {W Q}. Arguments rt_queue {W Q}. Arguments rt_phase {W Q}. Arguments rt_done {W Q}.
Arguments rt_cancelled {W Q}. Arguments rt_ready {W Q}. Arguments rt_active {W Q}. Arguments rt_workers {W Q}.
Arguments rt_periodic {W Q}. Arguments rt_informers {W Q}. Arguments rt_fatal {W Q}. Arguments rt_errors {W Q}. Arguments rt_changed {W Q}.

Section runtime.
Context {W S Q : Type} `{ClientQueue Q} `{KeyValidation}.
Implicit Types s : Runtime W Q.

Definition set_world (w : W) s : Runtime W Q :=
  mkRuntime w (rt_queue s) (rt_phase s) (rt_done s) (rt_cancelled s) (rt_ready s) (rt_active s) (rt_workers s) (rt_periodic s) (rt_informers s) (rt_fatal s) (rt_errors s) (rt_changed s).
Definition set_queue (q : TargetQueue Q) s : Runtime W Q :=
  mkRuntime (rt_world s) q (rt_phase s) (rt_done s) (rt_cancelled s) (rt_ready s) (rt_active s) (rt_workers s) (rt_periodic s) (rt_informers s) (rt_fatal s) (rt_errors s) (rt_changed s).
Definition set_phase (p : Phase) s : Runtime W Q :=
  mkRuntime (rt_world s) (rt_queue s) p (rt_done s) (rt_cancelled s) (rt_ready s) (rt_active s) (rt_workers s) (rt_periodic s) (rt_informers s) (rt_fatal s) (rt_errors s) (rt_changed s).
Definition set_done s : Runtime W Q :=
  mkRuntime (rt_world s) (rt_queue s) (rt_phase s) true (rt_cancelled s) (rt_ready s) (rt_active s) (rt_workers s) (rt_periodic s) (rt_informers s) (rt_fatal s) (rt_errors s) (rt_changed s).
Definition cancel s : Runtime W Q :=
  mkRuntime (rt_world s) (rt_queue s) (rt_phase s) (rt_done s) true (rt_ready s) (rt_active s) (rt_workers s) (rt_periodic s) (rt_informers s) (rt_fatal s) (rt_errors s) (rt_changed s).
Definition set_ready (b : bool) s : Runtime W Q :=
  mkRuntime (rt_world s) (rt_queue s) (rt_phase s) (rt_done s) (rt_cancelled s) b (rt_active s) (rt_workers s) (rt_periodic s) (rt_informers s) (rt_fatal s) (rt_errors s) (rt_changed s).
Definition add_active (n : Z) s : Runtime W Q :=
  mkRuntime (rt_world s) (rt_queue s) (rt_phase s) (rt_done s) (rt_cancelled s) (rt_ready s) (rt_active s + n) (rt_workers s) (rt_periodic s) (rt_informers s) (rt_fatal s) (rt_errors s) (rt_changed s).
Definition set_workers (l : list WorkerState) s : Runtime W Q :=
  mkRuntime (rt_world s) (rt_queue s) (rt_phase s) (rt_done s) (rt_cancelled s) (rt_ready s) (rt_active s) l (rt_periodic s) (rt_informers s) (rt_fatal s) (rt_errors s) (rt_changed s).
Definition set_periodic (p : PeriodicState) s : Runtime W Q :=
  mkRuntime (rt_world s) (rt_queue s) (rt_phase s) (rt_done s) (rt_cancelled s) (rt_ready s) (rt_active s) (rt_workers s) p (rt_informers s) (rt_fatal s) (rt_errors s) (rt_changed s).
Definition set_informers (l : list InformerState) s : Runtime W Q :=
  mkRuntime (rt_world s) (rt_queue s) (rt_phase s) (rt_done s) (rt_cancelled s) (rt_ready s) (rt_active s) (rt_workers s) (rt_periodic s) l (rt_fatal s) (rt_errors s) (rt_changed s).
Definition set_fatal (f : option RuntimeError) s : Runtime W Q :=
  mkRuntime (rt_world s) (rt_queue s) (rt_phase s) (rt_done s) (rt_cancelled s) (rt_ready s) (rt_active s) (rt_workers s) (rt_periodic s) (rt_informers s) f (rt_errors s) (rt_changed s).
Definition set_errors (l : list RuntimeError) s : Runtime W Q :=
  mkRuntime (rt_world s) (rt_queue s) (rt_phase s) (rt_done s) (rt_cancelled s) (rt_ready s) (rt_active s) (rt_workers s) (rt_periodic s) (rt_informers s) (rt_fatal s) l (rt_changed s).
Definition set_changed (b : bool) s : Runtime W Q :=
  mkRuntime (rt_world s) (rt_queue s) (rt_phase s) (rt_done s) (rt_cancelled s) (rt_ready s) (rt_active s) (rt_workers s) (rt_periodic s) (rt_informers s) (rt_fatal s) (rt_errors s) b.
Definition set_worker (i : nat) (x : WorkerState) s : Runtime W Q := set_workers (<[i := x]> (rt_workers s)) s.
Definition set_informer (i : nat) (x : InformerState) s : Runtime W Q := set_informers (<[i := x]> (rt_informers s)) s.

(** [runCtx.Err() != nil]. *)
Definition run_done s : bool := rt_done s || rt_cancelled s.

(** ** Construction *)

Record RuntimeSettings := mkRuntimeSettings {
  RS_Scope : PlatformRuntimeConfig; RS_PeriodicInterval : Z; RS_Workers : Z; RS_Queue : Config }.

Definition normal_workers (n : Z) : Z := if n <=? 0 then 1 else n.

(** [debounceFor] is the mapper's [TargetDebounce]. *)
Definition NewPlatformRuntime (has_executor has_core has_gateway has_dynamic : bool) (range : list EventKind -> list EventKind)
    (synced : informerBinding -> bool) (debounceFor : TargetKey -> Z) (config : RuntimeSettings) (w : W) (q : Q) (t : Z)
    : result string (Runtime W Q) :=
  if negb has_executor then Err "target executor is required"
  else if RS_PeriodicInterval config <=? 0 then Err "periodic full-audit interval must be positive"
  else
    let? factories := newInformerFactories has_core has_gateway has_dynamic (RS_Scope config) in
    let c := RS_Queue config in
    let? queue := New (mkConfig (cfg_Debounce c) (Some debounceFor) (cfg_DisableDebounce c) (cfg_RetryBase c) (cfg_RetryMax c) (cfg_MaxRetries c) (cfg_Jitter c)) q t in
    let? _ := SyncGate range synced factories in
    Ok (mkRuntime w queue PhNew false false false 0 [] PEnded ((fun _ => INew) <$> factories) None [] false).

(** ** Reporting *)

(** A send on the channel [fatal], of capacity one, that never blocks. *)
Definition send_fatal (e : RuntimeError) s : Runtime W Q := match rt_fatal s with None => set_fatal (Some e) s | Some _ => s end.

Definition errors_capacity : nat := 64.
Definition report (e : RuntimeError) s : Runtime W Q :=
  let s := match e with ScopeChangedError => send_fatal e s | _ => s end in
  if (length (rt_errors s) <? errors_capacity)%nat then set_errors (rt_errors s ++ [e]) s else s.

(** ** Observers *)

(** The three loads of [Idle], each of the state it finds. *)
Definition Idle s1 s2 s3 : bool := rt_ready s1 && (rt_active s2 =? 0) && (Len (rt_queue s3) =? 0).
Definition EnqueueAudit (key : TargetKey) s : Runtime W Q * bool :=
  let '(q, b) := EnqueuePeriodic key (rt_queue s) in (set_queue q s, b).

(** ** The goroutines *)

Context (env : WorkerEnv W S) (when : TargetKey -> Q -> Q * Z) (cache : W -> TargetCache).
(** [TargetDeleted] of the executor: what it does to the world, and the targets it
    wakes with [EnqueueAudit] before it returns. *)
Context (OnTargetDeleted : option (TargetKey -> W -> W * result DeletionError (list TargetKey))).
Context (config : RuntimeSettings).

(** The executor under the run's context, which may also end while it works. *)
Definition run_env s : WorkerEnv W S :=
  mkWorkerEnv (ex_Audit env) (ex_Apply env) (cache_gate env) (fun w => run_done s || ctx_done env w).

(** *** The worker [i] at its program point. *)
Definition worker_get (i : nat) s : option (Runtime W Q) :=
  match get_step (rt_queue s) with
  | None => None
  | Some (q, Closed) => Some (set_worker i WEnded (set_queue q s))
  | Some (q, Again) => Some (set_queue q s)
  | Some (q, Deliver key) => Some (set_worker i (WHolding key) (set_queue q s))
  end.

Definition worker_begin (i : nat) (key : TargetKey) s : Runtime W Q :=
  set_worker i (if negb (HasTarget (cache (rt_world s)) key) then WAbsent key else WPresent key) s.

Definition worker_forget (i : nat) (key : TargetKey) s : Runtime W Q :=
  set_worker i (WForgotten key) (set_queue (ForgetTarget key (rt_queue s)) s).

Definition worker_drop (i : nat) (key : TargetKey) s : Runtime W Q :=
  set_worker i WIdle (set_queue (Complete when key false (rt_queue s)).1 s).

Definition worker_enter (i : nat) (key : TargetKey) s : Runtime W Q := set_worker i (WBusy key) (add_active 1 s).

Definition worker_process (i : nat) (key : TargetKey) s : Runtime W Q :=
  let '(w, r) := processTarget (run_env s) key (rt_world s) in set_worker i (WWorked key r) (set_world w s).

Definition worker_complete (i : nat) (key : TargetKey) (r : result ProcessError unit) s : Runtime W Q :=
  set_worker i (WCompleted r) (set_queue (Complete when key (negb (is_ok r)) (rt_queue s)).1 s).

Definition worker_release (i : nat) (r : result ProcessError unit) s : Runtime W Q :=
  set_worker i (if is_scope_change r then WReporting else WIdle) (add_active (-1) s).

Definition worker_report (i : nat) s : Runtime W Q := set_worker i WEnded (report ScopeChangedError s).

(** *** The periodic enqueuer *)

Definition periodic_failed (e : string) s : Runtime W Q := set_periodic PEnded (send_fatal (PeriodicError e) s).

(** One pass and the reset of the timer. *)
Definition periodic_pass (schedule : gmap TargetKey auditDeadline) s : Runtime W Q :=
  match enqueueDue (ListTargetSchedules (cache (rt_world s))) (RS_PeriodicInterval config) schedule (rt_queue s) with
  | Err e => periodic_failed e s
  | Ok (schedule, _, q) =>
      set_periodic (PWaiting schedule (now q + Delay schedule (now q) (RS_PeriodicInterval config))) (set_queue q s)
  end.

Definition periodic_start s : Runtime W Q :=
  if RS_PeriodicInterval config <=? 0 then periodic_failed "periodic interval must be positive" s else periodic_pass ∅ s.

(** *** The informer handlers *)

Definition is_kind (event : Event) (kind : EventKind) : bool := bool_decide (Ev_Kind event = kind).
Definition is_action (event : Event) (action : EventAction) : bool := bool_decide (Action event = action).

(** The loop of [Handle] at its next key. *)
Definition handle_key (event : Event) (key : TargetKey) (keys : list TargetKey) (seen : gset TargetKey) (r : DispatchResult) s
    : Runtime W Q * HandlerState :=
  if negb (valid key) then (s, HDeferred event r (Some (HandlerError ("mapper returned invalid target key " +:+ TargetKey_String key))))
  else if bool_decide (key ∈ seen) then (s, HLoop event keys seen r)
  else
    let seen := {[key]} ∪ seen in
    if is_kind event EventTarget && is_action event EventDelete then
      match OnTargetDeleted with
      | None => (s, HDeleted event key [] keys seen r)
      | Some f =>
          match f key (rt_world s) with
          | (w, Ok audits) => (set_world w s, HDeleted event key audits keys seen r)
          | (w, Err DeletionScopeChanged) => (set_world w s, HDeferred event r (Some ScopeChangedError))
          | (w, Err (DeletionFailed e)) => (set_world w s, HDeferred event r (Some (HandlerError ("handle deleted target: " +:+ e))))
          end
      end
    else ((if is_kind event EventTarget && is_action event EventAdd then set_queue (ActivateTarget key (rt_queue s)) s else s),
          HEnqueue event key keys seen r).

(** [Handle] before its loop. *)
Definition handle_event (event : Event) s : option HandlerState :=
  match validate_event event with
  | Some e => Some (HReport (HandlerError e))
  | None =>
      if negb (Meaningful event) then None
      else match TargetsForEvent (cache (rt_world s)) event with
           | Err e => Some (HDeferred event (mkDispatch 0 0 false) (Some (HandlerError ("map event to targets: " +:+ e))))
           | Ok keys => Some (HLoop event (sort_keys keys) ∅ (mkDispatch 0 0 false))
           end
  end.

(** The next step of a handler; [None] when it returns. *)
Definition dispatchInformerEvent (h : HandlerState) s : Runtime W Q * option HandlerState :=
  match h with
  | HReceived (Err e) => (s, Some (HReport (HandlerError e)))
  | HReceived (Ok event) => (s, handle_event event s)
  | HLoop event [] seen r => (s, Some (HDeferred event r None))
  | HLoop event (key :: keys) seen r => let '(s, h) := handle_key event key keys seen r s in (s, Some h)
  | HDeleted event key (k :: audits) keys seen r => ((EnqueueAudit k s).1, Some (HDeleted event key audits keys seen r))
  | HDeleted event key [] keys seen r =>
      (set_queue (ForgetTarget key (rt_queue s)) s, Some (HLoop event keys seen (mkDispatch (Enqueued r) (Forgotten r + 1) (Ignored r))))
  | HEnqueue event key keys seen r =>
      let '(q, ok) := Enqueue key (rt_queue s) in
      (set_queue q s, Some (HLoop event keys seen (if ok : bool then mkDispatch (Enqueued r + 1) (Forgotten r) (Ignored r) else r)))
  | HDeferred event r e => ((if is_kind event EventTarget then set_changed true s else s), HReport <$> e)
  | HReport e => (report e s, None)
  end.

(** *** [Run] *)

Definition start_informer (x : InformerState) : InformerState := match x with INew => IRunning [] None | _ => x end.
Definition Start s : Runtime W Q := set_informers (start_informer <$> rt_informers s) s.

Definition closing (e : string) s : Runtime W Q := set_phase (PhClosing (Some (RunError e))) s.

(** The calls of [Run] up to its [select], the wait for the caches aside. *)
Definition run_start s : option (Runtime W Q) :=
  match rt_phase s with
  | PhNew => Some (set_phase PhSyncing (Start s))
  | PhSynced =>
      Some (match RequireSynchronized (cache_gate env (rt_world s)) with
            | Some e => closing ("verify platform cache gate: " +:+ e) s
            | None => set_phase PhGated s
            end)
  | PhGated =>
      Some (match ListTargetKeys (cache (rt_world s)) with
            | Err e => closing ("enqueue initial target audits: " +:+ e) s
            | Ok keys =>
                match EnqueueAll keys (rt_queue s) with
                | (q, Some e) => closing ("enqueue initial target audits: " +:+ e) (set_queue q s)
                | (q, None) => set_phase PhQueued (set_queue q s)
                end
            end)
  | PhQueued => Some (set_phase (PhStarting (Z.to_nat (normal_workers (RS_Workers config)))) (set_ready true s))
  | PhStarting (Datatypes.S n) => Some (set_phase (PhStarting n) (set_workers (rt_workers s ++ [WIdle]) s))
  | PhStarting O => Some (set_phase PhRunning (set_periodic PStarting s))
  | _ => None
  end.

(** [WaitForSync] returned false. *)
Definition run_unsynced s : Runtime W Q := set_phase (PhClosing (if run_done s then None else Some CacheSyncError)) s.

Definition ended (x : WorkerState) : bool := match x with WEnded => true | _ => false end.
Definition periodic_ended (p : PeriodicState) : bool := match p with PEnded => true | _ => false end.
Definition all_ended s : bool := forallb ended (rt_workers s) && periodic_ended (rt_periodic s).

(** [factories.Shutdown] blocks until every informer has stopped, its handler included. *)
Definition informer_ended (x : InformerState) : bool := match x with IEnded => true | _ => false end.
Definition Shutdown s : bool := forallb informer_ended (rt_informers s).

(** The deferred function: [None] while a wait of it blocks. *)
Definition run_close s : option (Runtime W Q) :=
  match rt_phase s with
  | PhClosing r => Some (set_phase (PhCancelling r) (set_ready false s))
  | PhCancelling r => Some (set_phase (PhStopping r) (cancel s))
  | PhStopping r => Some (set_phase (PhDraining r) (set_queue (ShutDown (rt_queue s)) s))
  | PhDraining r => if all_ended s then Some (set_phase (PhShutdown r) s) else None
  | PhShutdown r => if Shutdown s then Some (set_phase (PhReturned r) s) else None
  | _ => None
  end.

(** ** Interleavings *)

(** Who makes a step: [Run], a worker, the periodic enqueuer, an informer with its
    handler, or the outside: queue timers, callers of [EnqueueAudit], the clock, the
    readers of [Errors], the signal handler, the watches, and the world at large. *)
Inductive Actor := AMain | AWorker (i : nat) | APeriodic | AInformer (i : nat) | AOutside.

(** The calls of other goroutines on the queue. *)
Definition outside_label (l : QLabel) : bool :=
  match l with LGet _ | LComplete _ _ | LShutDown => false | _ => true end.

(** An informer takes in no event once its stop channel, the run's context, is
    closed, but may still hand out those it has; it stops when it finds the channel
    closed and its handler idle, and drops the rest.  (An event taken in a moment
    later is the same as one taken in just before: only the backlog knows of it.) *)
Inductive rstep : Runtime W Q -> Actor -> Runtime W Q -> Prop :=
| rs_start s s' : run_start s = Some s' -> rstep s AMain s'
| rs_synced s : rt_phase s = PhSyncing -> rstep s AMain (set_phase PhSynced s)
| rs_unsynced s : rt_phase s = PhSyncing -> rstep s AMain (run_unsynced s)
| rs_done s : rt_phase s = PhRunning -> rt_done s = true -> rstep s AMain (set_phase (PhClosing None) s)
| rs_fatal s e : rt_phase s = PhRunning -> rt_fatal s = Some e -> rstep s AMain (set_phase (PhFatal e) (set_fatal None s))
| rs_fatal_cancel s e : rt_phase s = PhFatal e -> rstep s AMain (set_phase (PhClosing (Some e)) (cancel s))
| rs_close s s' : run_close s = Some s' -> rstep s AMain s'
| rs_get s i s' : rt_workers s !! i = Some WIdle -> worker_get i s = Some s' -> rstep s (AWorker i) s'
| rs_begin s i key : rt_workers s !! i = Some (WHolding key) -> rstep s (AWorker i) (worker_begin i key s)
| rs_forget s i key : rt_workers s !! i = Some (WAbsent key) -> rstep s (AWorker i) (worker_forget i key s)
| rs_drop s i key : rt_workers s !! i = Some (WForgotten key) -> rstep s (AWorker i) (worker_drop i key s)
| rs_enter s i key : rt_workers s !! i = Some (WPresent key) -> rstep s (AWorker i) (worker_enter i key s)
| rs_process s i key : rt_workers s !! i = Some (WBusy key) -> rstep s (AWorker i) (worker_process i key s)
| rs_complete s i key r : rt_workers s !! i = Some (WWorked key r) -> rstep s (AWorker i) (worker_complete i key r s)
| rs_release s i r : rt_workers s !! i = Some (WCompleted r) -> rstep s (AWorker i) (worker_release i r s)
| rs_report s i : rt_workers s !! i = Some WReporting -> rstep s (AWorker i) (worker_report i s)
| rs_periodic_start s : rt_periodic s = PStarting -> rstep s APeriodic (periodic_start s)
| rs_periodic_done s d t : rt_periodic s = PWaiting d t -> run_done s = true -> rstep s APeriodic (set_periodic PEnded s)
| rs_periodic_timer s d t : rt_periodic s = PWaiting d t -> t <= now (rt_queue s) -> rstep s APeriodic (periodic_pass d s)
| rs_periodic_changed s d t : rt_periodic s = PWaiting d t -> rt_changed s = true ->
    rstep s APeriodic (periodic_pass d (set_changed false s))
| rs_deliver s i e b : rt_informers s !! i = Some (IRunning (e :: b) None) ->
    rstep s (AInformer i) (set_informer i (IRunning b (Some (HReceived e))) s)
| rs_handler s i b h s' h' : rt_informers s !! i = Some (IRunning b (Some h)) -> dispatchInformerEvent h s = (s', h') ->
    rstep s (AInformer i) (set_informer i (IRunning b h') s')
| rs_informer_done s i b : rt_informers s !! i = Some (IRunning b None) -> run_done s = true ->
    rstep s (AInformer i) (set_informer i IEnded s)
| rs_arrive s i b h e : rt_informers s !! i = Some (IRunning b h) -> run_done s = false ->
    rstep s AOutside (set_informer i (IRunning (b ++ [e]) h) s)
| rs_queue s l q : qstep when (rt_queue s) l q -> outside_label l = true -> rstep s AOutside (set_queue q s)
| rs_drain_errors s l : rstep s AOutside (set_errors l s)
| rs_signal s : rstep s AOutside (set_done s)
| rs_world s w : rstep s AOutside (set_world w s).

Inductive rrun : Runtime W Q -> Runtime W Q -> Prop :=
| rrun_refl s : rrun s s
| rrun_step s s1 a s2 : rrun s s1 -> rstep s1 a s2 -> rrun s s2.
End runtime.
