(* ===== verification/LifecycleLaws.v ===== *)
(** * The runtime under every interleaving

    One worker per target, an honest idle flag, a clean return, and a well-founded
    rank that every goroutine of a stopping runtime descends. *)
From S2P Require Import Prelude Effects GoStrings Queue QueueLaws Scheduling Targets Workers Lifecycle.
From Stdlib Require Import ZArith Lia.
Open Scope Z_scope.

(** What else client-go documents of its queue: keys leave the processing set by
    [Done] only, a queue that shuts down takes no keys, and [Get] does not block
    on it. *)
Class ClientQueueFlow (Q : Type) `{ClientQueueLaws Q} := {
  Add_processing k q : processing (cq_Add k q) = processing q;
  Add_after_shutdown k q : cq_ShuttingDown q = true -> dirty (cq_Add k q) = dirty q;
  Done_processing k q : processing (cq_Done k q) = processing q ∖ {[k]};
  Forget_processing k q : processing (cq_Forget k q) = processing q;
  ShutDown_processing q : processing (cq_ShutDown q) = processing q;
  ShutDown_shutting q : cq_ShuttingDown (cq_ShutDown q) = true;
  Get_closed q q' : cq_Get q = Some (q', GetShutdown) -> q' = q;
  Get_after_shutdown q : cq_ShuttingDown q = true -> is_Some (cq_Get q) }.

(** The limiter only counts. *)
Class LimiterLaws (Q : Type) `{ClientQueueLaws Q} (when : TargetKey -> Q -> Q * Z) := {
  when_processing k q : processing (when k q).1 = processing q;
  when_dirty k q : dirty (when k q).1 = dirty q;
  when_shutting k q : cq_ShuttingDown (when k q).1 = cq_ShuttingDown q }.

(** ** What queue operations do to the keys handed out *)

Section flow.
Context {Q : Type} `{CF : ClientQueueFlow Q} `{KeyValidation}.

(** The keys handed out and the shutdown flag stay, and so do the waiting keys of a closed queue. *)
Definition client_flow (q q' : Q) : Prop :=
  processing q' = processing q /\ cq_ShuttingDown q' = cq_ShuttingDown q
  /\ (cq_ShuttingDown q = true -> dirty q' = dirty q).
Definition same_flow (s s' : TargetQueue Q) : Prop := client_flow (queue s) (queue s') /\ stopped s' = stopped s.

#[export] Instance client_flow_preorder : PreOrder client_flow.
Proof.
  split; [by repeat split|]. intros q1 q2 q3 (P1 & S1 & D1) (P2 & S2 & D2).
  split; [congruence|]. split; [congruence|]. intros Hs. rewrite D2, D1; congruence.
Qed.
#[export] Instance same_flow_preorder : PreOrder same_flow.
Proof.
  split; [by intros s; split; [reflexivity|]|]. intros s1 s2 s3 [F1 E1] [F2 E2]. split; [by etrans|congruence].
Qed.

Lemma flow_Add k q : client_flow q (cq_Add k q).
Proof. split; [apply Add_processing|]. split; [apply Add_shutting|]. apply Add_after_shutdown. Qed.

Lemma flow_Forget k q : client_flow q (cq_Forget k q).
Proof. split; [apply Forget_processing|]. split; [apply Forget_shutting|]. intros _. apply Forget_dirty. Qed.

Create HintDb flow.
#[local] Hint Resolve flow_Add flow_Forget : flow.
#[local] Hint Extern 1 (client_flow ?q ?q) => reflexivity : flow.

Ltac flow := repeat case_match; cbn in *; simplify_eq/=; (split; [cbn|done]); auto with flow.

Lemma flow_scheduleRetry k d s : same_flow s (scheduleRetryLocked k d s).1.
Proof. unfold scheduleRetryLocked. flow. Qed.
Lemma flow_enqueue_read k s : same_flow s (enqueue_read k s).1.
Proof. unfold enqueue_read. flow. Qed.
Lemma flow_enqueue_locked k d s : same_flow s (enqueue_locked k d s).1.
Proof. unfold enqueue_locked. flow. Qed.
Lemma flow_periodic_locked k s : same_flow s (periodic_locked k s).1.
Proof. unfold periodic_locked. flow. Qed.
Lemma flow_debounce_timer k g s : same_flow s (waitForDebounce k g s).
Proof. unfold waitForDebounce. flow. Qed.
Lemma flow_retry_timer k g s : same_flow s (waitForRetry k g s).
Proof. unfold waitForRetry. flow. Qed.
Lemma flow_ForgetTarget k s : same_flow s (ForgetTarget k s).
Proof. split; [apply flow_Forget|done]. Qed.

Lemma flow_Enqueue k s : same_flow s (Enqueue k s).1.
Proof.
  unfold Enqueue. pose proof (flow_enqueue_read k s) as Hr. destruct (enqueue_read k s) as [s1 [b|]]; [done|].
  etrans; [exact Hr|apply flow_enqueue_locked].
Qed.
Lemma flow_EnqueuePeriodic k s : same_flow s (EnqueuePeriodic k s).1.
Proof. unfold EnqueuePeriodic. repeat case_match; try reflexivity. apply flow_periodic_locked. Qed.

Lemma flow_periodics l s : same_flow s (foldl (fun s k => (EnqueuePeriodic k s).1) s l).
Proof. revert s. induction l as [|k l IH]; intros s; cbn; [reflexivity|]. etrans; [apply flow_EnqueuePeriodic|apply IH]. Qed.

Lemma flow_EnqueueAll keys s : same_flow s (EnqueueAll keys s).1.
Proof.
  unfold EnqueueAll. generalize (∅ : gset TargetKey). generalize (sort_keys keys). intros l. revert s.
  induction l as [|k l IH]; intros s seen; cbn; [reflexivity|]. destruct (negb _); [reflexivity|].
  case_bool_decide; [apply IH|]. etrans; [apply flow_EnqueuePeriodic|apply IH].
Qed.

Lemma flow_ActivateTarget k s : same_flow s (ActivateTarget k s).
Proof. by split; [reflexivity|]. Qed.

Context (when : TargetKey -> Q -> Q * Z) `{HL : !LimiterLaws Q when}.

Lemma flow_outside s l s' : qstep when s l s' -> outside_label l = true -> same_flow s s'.
Proof.
  intros Hs. destruct Hs; cbn; intros Hl; try done;
    auto using flow_enqueue_read, flow_enqueue_locked, flow_periodic_locked, flow_debounce_timer, flow_retry_timer.
  split; [apply flow_Forget|done].
Qed.

(** [Get] hands out a key nobody holds; otherwise it leaves what is handed out alone. *)
Lemma get_step_flow s s' o : get_step s = Some (s', o) ->
  stopped s' = stopped s /\ cq_ShuttingDown (queue s') = cq_ShuttingDown (queue s) /\
  match o with
  | Deliver k => (k ∉ processing (queue s)) /\ processing (queue s') = {[k]} ∪ processing (queue s)
                 /\ (size (dirty (queue s')) < size (dirty (queue s)))%nat
  | Again => processing (queue s') = processing (queue s) /\ (size (dirty (queue s')) < size (dirty (queue s)))%nat
  | Closed => queue s' = queue s /\ cq_ShuttingDown (queue s) = true
  end.
Proof.
  intros Hg. pose proof Hg as Hg0. unfold get_step in Hg. destruct (cq_Get (queue s)) as [[q [|key]]|] eqn:Eg; [| |done].
  { injection Hg as <- <-. cbn. split; [done|]. pose proof (Get_closed _ _ Eg) as ->. by pose proof (Get_shutdown _ _ Eg). }
  apply Get_item in Eg as (Hk & Hnp & Hd & Hp & Hs). cbn in Hg.
  assert (size (dirty q) < size (dirty (queue s)))%nat as Hsz by (rewrite Hd; apply subset_size; set_solver).
  case_bool_decide as Edel.
  { injection Hg as <- <-. apply (get_step_again when) in Hg0. cbn in *. rewrite Done_shutting, Forget_shutting, Done_processing, Forget_processing, Hp.
    split; [done|]. split; [done|]. split; [set_solver|]. exact Hg0. }
  match type of Hg with context [if ?b then stopRetryLocked key ?x else ?x] => set (s1 := if b then stopRetryLocked key x else x) in * end.
  assert (queue s1 = q) as E1 by (unfold s1; by case_bool_decide).
  destruct (negb _ && _) in Hg; injection Hg as <- <-.
  - apply (get_step_again when) in Hg0. cbn in *.
    match goal with |- context [scheduleRetryLocked key ?d s1] => destruct (flow_scheduleRetry key d s1) as [(P1 & S1 & _) St] end.
    assert (stopped s1 = stopped s) as E2 by (unfold s1; by case_bool_decide).
    rewrite St, E2, Done_shutting, Done_processing, S1, P1, E1, Hp. split; [done|]. split; [done|]. split; [set_solver|done].
  - rewrite E1. split; [unfold s1; by case_bool_decide|done].
Qed.

(** [Complete] gives the key back. *)
Lemma Complete_flow k err s (s' := (Complete when k err s).1) :
  processing (queue s') = processing (queue s) ∖ {[k]} /\ cq_ShuttingDown (queue s') = cq_ShuttingDown (queue s)
  /\ (cq_ShuttingDown (queue s) = true -> dirty (queue s') = dirty (queue s)) /\ stopped s' = stopped s.
Proof.
  assert (forall s1 q, client_flow (queue s) q -> stopped s1 = stopped s ->
    let s2 := with_queue (fun _ => cq_Done k q) s1 in
    processing (queue s2) = processing (queue s) ∖ {[k]} /\ cq_ShuttingDown (queue s2) = cq_ShuttingDown (queue s)
    /\ (cq_ShuttingDown (queue s) = true -> dirty (queue s2) = dirty (queue s)) /\ stopped s2 = stopped s) as Hdone.
  { intros s1 q (P & S & D) E. cbn. by rewrite Done_processing, Done_shutting, Done_dirty, P. }
  unfold s'. clear s'. unfold Complete. case_bool_decide; [apply (Hdone s); [apply flow_Forget|done]|].
  destruct (negb err); [apply (Hdone s); [apply flow_Forget|done]|]. destruct (_ <=? _).
  - cbn [fst]. case_match.
    + match goal with |- context [scheduleRetryLocked k ?d ?x] => destruct (flow_scheduleRetry k d x) as [F E] end. by apply Hdone.
    + by apply (Hdone s).
  - pose proof (when_processing k (queue s)) as P. pose proof (when_dirty k (queue s)) as D. pose proof (when_shutting k (queue s)) as Sh.
    destruct (when k (queue s)) as [q delay]. cbn in P, D, Sh. assert (client_flow (queue s) q) as Hq by (by split; [|split]).
    match goal with |- context [scheduleRetryLocked k delay ?x] => destruct (flow_scheduleRetry k delay x) as [Hr E];
      destruct (scheduleRetryLocked k delay x) as [s2 []] end; cbn in *; apply (Hdone s2); try done.
    + etrans; [exact Hq|exact Hr].
    + etrans; [exact Hq|]. etrans; [exact Hr|apply flow_Forget].
Qed.
End flow.

(** ** Workers and the keys they hold *)

Definition holds (x : WorkerState) : option TargetKey :=
  match x with WHolding k | WAbsent k | WForgotten k | WPresent k | WBusy k | WWorked k _ => Some k | _ => None end.
Definition counted (x : WorkerState) : bool := match x with WBusy _ | WWorked _ _ | WCompleted _ => true | _ => false end.
Definition count (x : WorkerState) : Z := if counted x then 1 else 0.
Definition total (l : list WorkerState) : Z := foldr (fun x n => count x + n) 0 l.

(** Nobody shares a key, the queue knows who holds what, and the busy workers are counted. *)
Definition workers_ok (l : list WorkerState) (P : gset TargetKey) (n : Z) : Prop :=
  NoDup (omap holds l) /\ P = list_to_set (omap holds l) /\ n = total l.

Lemma total_app l1 l2 : total (l1 ++ l2) = total l1 + total l2.
Proof. induction l1 as [|x l IH]; cbn; [done|]. unfold total in *. lia. Qed.

Lemma insert_split (l : list WorkerState) i y : l !! i = Some y -> exists l1 l2, l = l1 ++ y :: l2 /\ forall x, <[i := x]> l = l1 ++ x :: l2.
Proof.
  intros Hy. exists (take i l), (drop (S i) l). split; [by rewrite take_drop_middle|]. intros x.
  apply insert_take_drop. by apply lookup_lt_Some in Hy.
Qed.

Lemma omap_middle l1 x l2 : omap holds (l1 ++ x :: l2) ≡ₚ option_list (holds x) ++ omap holds (l1 ++ l2).
Proof.
  rewrite !omap_app. cbn. destruct (holds x); cbn; [|done]. by rewrite Permutation_middle.
Qed.

Lemma ok_move l i x y P n : l !! i = Some y -> holds x = holds y -> workers_ok l P n ->
  workers_ok (<[i := x]> l) P (n + (count x - count y)).
Proof.
  intros Hy Hxy (Hn & HP & Ht). destruct (insert_split _ _ _ Hy) as (l1 & l2 & -> & Hi). rewrite Hi.
  rewrite total_app in Ht. cbn in Ht. assert (omap holds (l1 ++ x :: l2) = omap holds (l1 ++ y :: l2)) as E.
  { rewrite !omap_app. cbn. by rewrite Hxy. }
  split; [by rewrite E|]. split; [by rewrite E|]. rewrite total_app. cbn. lia.
Qed.

Lemma ok_take l i x y k P n : l !! i = Some y -> holds y = None -> holds x = Some k -> (k ∉ P) -> workers_ok l P n ->
  workers_ok (<[i := x]> l) ({[k]} ∪ P) (n + (count x - count y)).
Proof.
  intros Hy Hh Hx Hk (Hn & HP & Ht). destruct (insert_split _ _ _ Hy) as (l1 & l2 & -> & Hi). rewrite Hi.
  rewrite total_app in Ht. cbn in Ht. pose proof (omap_middle l1 x l2) as Ex. pose proof (omap_middle l1 y l2) as Ey.
  rewrite Hx in Ex. rewrite Hh in Ey. cbn in Ex, Ey.
  assert (P = list_to_set (omap holds (l1 ++ l2))) as HP' by (rewrite HP; by apply list_to_set_perm_L).
  split; [|split]; [| |rewrite total_app; cbn; lia].
  - rewrite Ex. apply NoDup_cons. split; [|by rewrite <- Ey]. rewrite HP' in Hk. by rewrite elem_of_list_to_set in Hk.
  - rewrite (list_to_set_perm_L _ _ Ex). cbn. by rewrite HP'.
Qed.

Lemma ok_give l i x y k P n : l !! i = Some y -> holds y = Some k -> holds x = None -> workers_ok l P n ->
  workers_ok (<[i := x]> l) (P ∖ {[k]}) (n + (count x - count y)).
Proof.
  intros Hy Hh Hx (Hn & HP & Ht). destruct (insert_split _ _ _ Hy) as (l1 & l2 & -> & Hi). rewrite Hi.
  rewrite total_app in Ht. cbn in Ht. pose proof (omap_middle l1 x l2) as Ex. pose proof (omap_middle l1 y l2) as Ey.
  rewrite Hx in Ex. rewrite Hh in Ey. cbn in Ex, Ey. rewrite Ey in Hn. apply NoDup_cons in Hn as [Hnk Hn].
  split; [by rewrite Ex|]. split; [|rewrite total_app; cbn; lia].
  rewrite HP, (list_to_set_perm_L _ _ Ey), (list_to_set_perm_L _ _ Ex). cbn. set_solver.
Qed.

(** ** The invariant *)

Section laws.
Context {W S Q : Type} `{CF : ClientQueueFlow Q} `{KeyValidation} (when : TargetKey -> Q -> Q * Z) `{HL : !LimiterLaws Q when}.
Context (env : WorkerEnv W S) (cache : W -> TargetCache).
Context (OnTargetDeleted : option (TargetKey -> W -> W * result DeletionError (list TargetKey))) (config : RuntimeSettings).
Implicit Types s : Runtime W Q.

Abbreviation step := (rstep env when cache OnTargetDeleted config).
Abbreviation run := (rrun env when cache OnTargetDeleted config).

(** How far the deferred function has come. *)
Definition level (p : Phase) : nat :=
  match p with PhCancelling _ => 1 | PhStopping _ => 2 | PhDraining _ => 3 | PhShutdown _ => 4 | PhReturned _ => 5 | _ => 0 end.
Definition started (x : InformerState) : bool := match x with INew => false | _ => true end.

Record runtime_ok s : Prop := {
  ok_workers : workers_ok (rt_workers s) (processing (queue (rt_queue s))) (rt_active s);
  ok_stopped : stopped (rt_queue s) = true -> cq_ShuttingDown (queue (rt_queue s)) = true;
  ok_ready : (1 <= level (rt_phase s))%nat -> rt_ready s = false;
  ok_cancelled : (2 <= level (rt_phase s))%nat -> rt_cancelled s = true;
  ok_closed : (3 <= level (rt_phase s))%nat -> cq_ShuttingDown (queue (rt_queue s)) = true;
  ok_ended : (4 <= level (rt_phase s))%nat -> all_ended s = true;
  ok_shutdown : (5 <= level (rt_phase s))%nat -> Shutdown s = true;
  ok_started : rt_phase s <> PhNew -> Forall (fun x => started x = true) (rt_informers s) }.

(** What only [Run], the workers, the periodic enqueuer and the informers change. *)
Definition frame s := (rt_phase s, rt_done s, rt_cancelled s, rt_ready s, rt_active s, rt_workers s, rt_periodic s, rt_informers s).

(** A step that leaves [Run] where it is. *)
Lemma ok_keep s s' : runtime_ok s ->
  rt_phase s' = rt_phase s -> rt_ready s' = rt_ready s -> rt_cancelled s' = rt_cancelled s ->
  cq_ShuttingDown (queue (rt_queue s')) = cq_ShuttingDown (queue (rt_queue s)) -> stopped (rt_queue s') = stopped (rt_queue s) ->
  workers_ok (rt_workers s') (processing (queue (rt_queue s'))) (rt_active s') ->
  (all_ended s = true -> all_ended s' = true) -> (Shutdown s = true -> Shutdown s' = true) ->
  (Forall (fun x => started x = true) (rt_informers s) -> Forall (fun x => started x = true) (rt_informers s')) -> runtime_ok s'.
Proof. intros [] Ep Er Ec Esh Est Hw He Hs Hi. split; rewrite ?Ep, ?Er, ?Ec, ?Esh, ?Est; auto. Qed.

Lemma ok_same_flow s s' : runtime_ok s -> same_flow (rt_queue s) (rt_queue s') -> frame s' = frame s -> runtime_ok s'.
Proof.
  intros Hs [(P & Sh & _) St] [= E1 E2 E3 E4 E5 E6 E7 E8]. apply (ok_keep s); try done.
  - rewrite P, E5, E6. apply Hs.
  - unfold all_ended. by rewrite E6, E7.
  - unfold Shutdown. by rewrite E8.
  - by rewrite E8.
Qed.

Lemma frame_report e s : frame (report e s) = frame s /\ rt_queue (report e s) = rt_queue s.
Proof. unfold report, send_fatal, frame. destruct e; repeat case_match; done. Qed.

Lemma ok_core s s' : runtime_ok s -> rt_queue s' = rt_queue s -> frame s' = frame s -> runtime_ok s'.
Proof. intros Hs E. apply ok_same_flow; [done|]. by rewrite E. Qed.

Lemma all_ended_worker s i x : all_ended s = true -> rt_workers s !! i = Some x -> ended x = true.
Proof.
  unfold all_ended. intros [He _]%andb_true_iff Hi. rewrite forallb_forall in He. apply He, list_elem_of_In. by eapply list_elem_of_lookup_2.
Qed.

(** A step of a worker that has not ended. *)
Lemma ok_worker s s' i y : runtime_ok s -> rt_workers s !! i = Some y -> ended y = false ->
  rt_phase s' = rt_phase s -> rt_ready s' = rt_ready s -> rt_cancelled s' = rt_cancelled s -> rt_informers s' = rt_informers s ->
  cq_ShuttingDown (queue (rt_queue s')) = cq_ShuttingDown (queue (rt_queue s)) -> stopped (rt_queue s') = stopped (rt_queue s) ->
  workers_ok (rt_workers s') (processing (queue (rt_queue s'))) (rt_active s') -> runtime_ok s'.
Proof.
  intros Hs Hi Hy Eph Er Ec Ei Esh Est Hw. apply (ok_keep s); try done.
  - intros He. pose proof (all_ended_worker _ _ _ He Hi). congruence.
  - unfold Shutdown. by rewrite Ei.
  - by rewrite Ei.
Qed.

Lemma ok_get s i s' : runtime_ok s -> rt_workers s !! i = Some WIdle -> worker_get i s = Some s' -> runtime_ok s'.
Proof.
  intros Hs Hi. unfold worker_get. pose proof (ok_workers _ Hs) as Hw. destruct (get_step (rt_queue s)) as [[q o]|] eqn:Eg; [|done].
  destruct (get_step_flow when _ _ _ Eg) as (St & Sh & Ho). destruct o as [k| |]; intros [= <-]; eapply ok_worker; try done; cbn.
  - destruct Ho as (Hk & -> & _). rewrite <- (Z.add_0_r (rt_active s)). by eapply (ok_take _ _ (WHolding k) WIdle).
  - destruct Ho as (-> & _). rewrite <- (Z.add_0_r (rt_active s)). by eapply (ok_move _ _ WEnded WIdle).
  - destruct Ho as (-> & _). done.
Qed.

(** A worker that moves on with the key it has. *)
Lemma ok_moved s s' i x y : runtime_ok s -> rt_workers s !! i = Some y -> rt_workers s' = <[i := x]> (rt_workers s) ->
  ended y = false -> holds x = holds y ->
  rt_phase s' = rt_phase s -> rt_ready s' = rt_ready s -> rt_cancelled s' = rt_cancelled s -> rt_informers s' = rt_informers s ->
  same_flow (rt_queue s) (rt_queue s') -> rt_active s' = rt_active s + (count x - count y) -> runtime_ok s'.
Proof.
  intros Hs Hi Ew Hy Hx Eph Er Ec Ei [(P & Sh & _) St] Ea. apply (ok_worker s s' i y); try done.
  rewrite Ew, P, Ea. apply ok_move; [done..|]. apply Hs.
Qed.

(** A worker that gives its key back. *)
Lemma ok_completed s i x y k err : runtime_ok s -> rt_workers s !! i = Some y -> ended y = false -> holds y = Some k -> holds x = None ->
  count x = count y -> runtime_ok (set_worker i x (set_queue (Complete when k err (rt_queue s)).1 s)).
Proof.
  intros Hs Hi Hy Hk Hx Hc. destruct (Complete_flow when k err (rt_queue s)) as (P & Sh & _ & St).
  eapply ok_worker; try done. cbn -[Complete]. rewrite P. replace (rt_active s) with (rt_active s + (count x - count y)) by lia.
  apply ok_give; [done..|]. apply Hs.
Qed.

Lemma ok_worker_step s i s' : runtime_ok s -> step s (AWorker i) s' -> runtime_ok s'.
Proof.
  intros Hs Hst. inversion Hst; subst.
  - by eapply ok_get.
  - unfold worker_begin. destruct (negb _); eapply ok_moved; try done; cbn; lia.
  - eapply ok_moved; try done; cbn -[ForgetTarget]; [apply flow_ForgetTarget|lia].
  - by eapply ok_completed.
  - by eapply ok_moved.
  - unfold worker_process. destruct (processTarget _ _ _) as [w r]. eapply (ok_moved s _ i (WWorked key r)); try done; cbn; lia.
  - by eapply ok_completed.
  - unfold worker_release. destruct (is_scope_change r); by eapply ok_moved.
  - destruct (frame_report ScopeChangedError s) as [[= E1 E2 E3 E4 E5 E6 E7 E8] Eq].
    eapply (ok_moved s _ i WEnded); try done; cbn -[report]; rewrite ?Eq, ?E6; try done. lia.
Qed.

(** A step of the periodic enqueuer that has not ended. *)
Lemma ok_periodic s s' : runtime_ok s -> periodic_ended (rt_periodic s) = false -> same_flow (rt_queue s) (rt_queue s') ->
  frame (set_periodic (rt_periodic s) s') = frame s -> runtime_ok s'.
Proof.
  intros Hs He [(P & Sh & _) St] [= E1 E2 E3 E4 E5 E6 E7]. apply (ok_keep s); try done.
  - rewrite E5, E6, P. apply Hs.
  - unfold all_ended. by rewrite He, andb_false_r.
  - unfold Shutdown. by rewrite E7.
  - by rewrite E7.
Qed.

Lemma ok_periodic_failed s e : runtime_ok s -> periodic_ended (rt_periodic s) = false -> runtime_ok (periodic_failed e s).
Proof. intros Hs He. unfold periodic_failed, send_fatal. apply (ok_periodic s); [done..| |]; by case_match. Qed.

Lemma ok_pass s d : runtime_ok s -> periodic_ended (rt_periodic s) = false -> runtime_ok (periodic_pass cache config d s).
Proof.
  intros Hs He. unfold periodic_pass, enqueueDue. destruct (ListTargetSchedules _) as [targets|e]; cbn [rbind]; [|by apply ok_periodic_failed].
  destruct (Due _ _ _ _ _) as [[d' due]|e]; cbn [rbind]; [|by apply ok_periodic_failed].
  apply (ok_periodic s); try done. cbn [rt_queue set_periodic set_queue]. apply flow_periodics.
Qed.

Lemma ok_periodic_step s s' : runtime_ok s -> step s APeriodic s' -> runtime_ok s'.
Proof.
  intros Hs Hst. inversion Hst as [| | | | | | | | | | | | | | | |s1 E|s1 d t E _|s1 d t E _|s1 d t E _| | | | | | | |]; subst;
    assert (periodic_ended (rt_periodic s) = false) as He by (by rewrite E).
  - unfold periodic_start. case_match; [by apply ok_periodic_failed|by apply ok_pass].
  - by apply (ok_periodic s).
  - by apply ok_pass.
  - apply ok_pass; [by apply (ok_core s)|done].
Qed.

(** What a handler may do to the rest. *)
Lemma dispatch_flow h s s' h' : dispatchInformerEvent cache OnTargetDeleted h s = (s', h') ->
  same_flow (rt_queue s) (rt_queue s') /\ frame s' = frame s.
Proof.
  destruct h as [[event|e]|event [|key keys] seen r|event key [|k audits] keys seen r|event key keys seen r|event r e|e]; cbn -[handle_event report].
  all: try (intros [= <- _]; by split; [reflexivity|]).
  - unfold handle_key. intros E. repeat case_match; simplify_eq/=; (split; [|done]); (reflexivity || apply flow_ActivateTarget).
  - intros [= <- _]. split; [apply flow_ForgetTarget|done].
  - intros [= <- _]. unfold EnqueueAudit. pose proof (flow_EnqueuePeriodic k (rt_queue s)) as Hf. by destruct (EnqueuePeriodic k (rt_queue s)).
  - pose proof (flow_Enqueue key (rt_queue s)) as Hf. destruct (Enqueue key (rt_queue s)). by intros [= <- _].
  - intros [= <- _]. case_match; by split; [reflexivity|].
  - intros [= <- _]. destruct (frame_report e s) as [-> ->]. by split; [reflexivity|].
Qed.

Lemma Shutdown_informer s i x : Shutdown s = true -> rt_informers s !! i = Some x -> x = IEnded.
Proof.
  unfold Shutdown. rewrite forallb_forall. intros He Hi. apply list_elem_of_lookup_2, list_elem_of_In, He in Hi. by destruct x.
Qed.

(** A step of an informer that has not ended. *)
Lemma ok_informer s s1 i x y : runtime_ok s -> rt_informers s !! i = Some y -> y <> IEnded -> started x = true ->
  same_flow (rt_queue s) (rt_queue s1) -> frame s1 = frame s -> runtime_ok (set_informer i x s1).
Proof.
  intros Hs Hi Hy Hx Hf Ef. pose proof Ef as [= E1 E2 E3 E4 E5 E6 E7 E8]. pose proof (ok_same_flow s s1 Hs Hf Ef) as Hs1.
  apply (ok_keep s1); try done.
  - apply Hs1.
  - intros Hsh. assert (y = IEnded) as Hye; [|done]. apply (Shutdown_informer s1 i); [done|]. by rewrite E8.
  - cbn. intros HF. by apply Forall_insert.
Qed.

Lemma ok_informer_step s i s' : runtime_ok s -> step s (AInformer i) s' -> runtime_ok s'.
Proof.
  intros Hs Hst. inversion Hst; subst; try (by eapply ok_informer; [done|done|..]).
  match goal with E : dispatchInformerEvent _ _ _ _ = _ |- _ => destruct (dispatch_flow _ _ _ _ E) as [Hf Ef] end.
  by eapply ok_informer.
Qed.

Lemma ok_outside s s' : runtime_ok s -> step s AOutside s' -> runtime_ok s'.
Proof.
  intros Hs Hst. inversion Hst; subst; try (by apply (ok_core s)).
  - by eapply ok_informer.
  - apply (ok_same_flow s); [done| |done]. by eapply flow_outside.
  - by eapply (ok_keep s); [done..|apply Hs|idtac|idtac|idtac].
Qed.

(** *** [Run] *)

(** [Run] moves to a phase before its deferred function. *)
Lemma ok_phase s p : runtime_ok s -> rt_phase s <> PhNew -> level p = 0%nat -> runtime_ok (set_phase p s).
Proof. intros [] Hn Hl. split; cbn; rewrite ?Hl; auto; lia. Qed.

Lemma ok_set_queue s q : runtime_ok s -> same_flow (rt_queue s) q -> runtime_ok (set_queue q s).
Proof. intros Hs Hq. by apply (ok_same_flow s). Qed.

Lemma ok_idle l P n : workers_ok l P n -> workers_ok (l ++ [WIdle]) P n.
Proof.
  intros (Hn & HP & Ht). unfold workers_ok. rewrite omap_app, total_app. cbn. rewrite app_nil_r, Z.add_0_r. done.
Qed.

Lemma ok_started_now s : Forall (fun x => started x = true) (rt_informers (Start s)).
Proof. cbn. apply Forall_fmap, Forall_true. by intros []. Qed.

Lemma ok_run_start s s' : runtime_ok s -> run_start env cache config s = Some s' -> runtime_ok s'.
Proof.
  intros Hs. unfold run_start. destruct (rt_phase s) as [| | | | |n| | | | | | | |] eqn:Eph; try done.
  all: assert (Hn : rt_phase s <> PhNew \/ rt_phase s = PhNew) by (rewrite Eph; (by right) || by left).
  - intros [= <-]. destruct Hs as [? ? ? ? ? ? ? _]. split; cbn; auto; try lia. intros _. apply ok_started_now.
  - intros [= <-]. unfold closing. case_match; by apply ok_phase; [|rewrite Eph|].
  - intros [= <-]. unfold closing. destruct (ListTargetKeys _) as [keys|e]; [|by apply ok_phase; [|rewrite Eph|]].
    pose proof (flow_EnqueueAll keys (rt_queue s)) as Hf. destruct (EnqueueAll keys (rt_queue s)) as [q [e|]];
      apply ok_phase; try done; try (by apply ok_set_queue); cbn; by rewrite Eph.
  - intros [= <-]. destruct Hs. split; cbn; auto; try lia. intros _. apply ok_started0. by rewrite Eph.
  - destruct n as [|n]; intros [= <-]; destruct Hs; split; cbn; auto; try lia; try (intros _; apply ok_started0; by rewrite Eph).
    by apply ok_idle.
Qed.

Lemma ok_run_close s s' : runtime_ok s -> run_close s = Some s' -> runtime_ok s'.
Proof.
  intros Hs. unfold run_close. destruct Hs as [Hw Hst Hr Hc Hq He Hsd Hi].
  destruct (rt_phase s) as [| | | | | | | |r|r|r|r|r|] eqn:Eph; try done; cbn in *.
  - intros [= <-]. split; cbn; auto; try lia; by intros; apply Hi.
  - intros [= <-]. split; cbn; auto; try lia; by intros; apply Hi.
  - intros [= <-]. unfold ShutDown. destruct (stopped (rt_queue s)) eqn:Est; split; cbn; auto; try lia; try (by intros; apply Hi).
    + by rewrite ShutDown_processing.
    + intros _. apply ShutDown_shutting.
    + intros _. apply ShutDown_shutting.
  - destruct (all_ended s) eqn:Ea; intros [= <-]. split; cbn; auto; try lia; intros _; first [by apply Hi | by apply Hq | by apply Hc | by apply Hr].
  - destruct (Shutdown s) eqn:Ea; intros [= <-]. split; cbn; auto; intros _; first [by apply Hi | by apply Hq | by apply Hc | by apply Hr | by apply He].
Qed.

Lemma ok_main s s' : runtime_ok s -> step s AMain s' -> runtime_ok s'.
Proof.
  intros Hs Hst. inversion Hst; subst; eauto using ok_run_start, ok_run_close;
    match goal with E : rt_phase _ = _ |- _ => assert (rt_phase s <> PhNew) as Hn by (by rewrite E) end.
  - by apply ok_phase.
  - by apply ok_phase.
  - by apply ok_phase.
  - apply ok_phase; [by apply (ok_core s)|done..].
  - destruct Hs. split; cbn; auto; try lia.
Qed.

Lemma ok_step s a s' : runtime_ok s -> step s a s' -> runtime_ok s'.
Proof. destruct a; eauto using ok_main, ok_worker_step, ok_periodic_step, ok_informer_step, ok_outside. Qed.

Lemma ok_run s s' : runtime_ok s -> run s s' -> runtime_ok s'.
Proof. intros Hs Hr. induction Hr; eauto using ok_step. Qed.
(** ** The rank of a stopping runtime *)

Definition weight (x : WorkerState) : nat :=
  match x with
  | WEnded => 0 | WIdle | WReporting => 1 | WForgotten _ | WCompleted _ => 2 | WAbsent _ | WWorked _ _ => 3
  | WBusy _ => 4 | WPresent _ => 5 | WHolding _ => 6
  end.
Definition weights (l : list WorkerState) : nat := foldr (fun x n => (weight x + n)%nat) 0%nat l.
Definition periodic_weight (p : PeriodicState) : nat := match p with PEnded => 0 | PWaiting _ _ => 1 | PStarting => 2 end.

(** The events an informer has not looked at, the keys its handler has left, and
    how far it is otherwise. *)
Definition informer_rank (x : InformerState) : nat * nat * nat :=
  match x with
  | INew | IEnded => (0, 0, 0)
  | IRunning b None => (length b, 0, 1)
  | IRunning b (Some h) =>
      match h with
      | HReceived _ => (1 + length b, 0, 0)
      | HLoop _ keys _ _ => (length b, length keys, 4)
      | HDeleted _ _ audits keys _ _ => (length b, length keys, 5 + length audits)
      | HEnqueue _ _ keys _ _ => (length b, length keys, 5)
      | HDeferred _ _ _ => (length b, 0, 3)
      | HReport _ => (length b, 0, 2)
      end
  end%nat.
Definition add3 (x y : nat * nat * nat) : nat * nat * nat := (x.1.1 + y.1.1, x.1.2 + y.1.2, x.2 + y.2)%nat.
Definition informer_ranks (l : list InformerState) : nat * nat * nat := foldr (fun x n => add3 (informer_rank x) n) (0, 0, 0)%nat l.

(** The lexicographic order. *)
Definition lex3 (x y : nat * nat * nat) : Prop :=
  (x.1.1 < y.1.1 \/ x.1.1 = y.1.1 /\ (x.1.2 < y.1.2 \/ x.1.2 = y.1.2 /\ x.2 < y.2))%nat.

Lemma lex3_wf : well_founded lex3.
Proof.
  assert (forall a b c, Acc lex3 (a, b, c)) as Hacc; [|by intros [[a b] c]].
  intros a. induction a as [a IHa] using lt_wf_ind. intros b. induction b as [b IHb] using lt_wf_ind.
  intros c. induction c as [c IHc] using lt_wf_ind. constructor. intros [[a' b'] c']. unfold lex3. cbn.
  intros [Ha|[-> [Hb|[-> Hc]]]]; eauto.
Qed.

(** A key that waits costs as much as a worker that holds one. *)
Definition rank s : nat * nat * nat :=
  add3 (informer_ranks (rt_informers s))
       (0, 0, 6 * size (dirty (queue (rt_queue s))) + weights (rt_workers s) + periodic_weight (rt_periodic s))%nat.
Definition lower s' s : Prop := lex3 (rank s') (rank s).

Lemma weights_app l1 l2 : weights (l1 ++ l2) = (weights l1 + weights l2)%nat.
Proof. induction l1 as [|x l IH]; cbn; [done|]. unfold weights in *. lia. Qed.

Lemma weights_insert l i x y : l !! i = Some y -> (weights (<[i := x]> l) + weight y = weights l + weight x)%nat.
Proof.
  intros Hy. destruct (insert_split _ _ _ Hy) as (l1 & l2 & -> & ->). rewrite !weights_app. cbn. lia.
Qed.

Lemma ranks_insert l i x y : l !! i = Some y ->
  add3 (informer_ranks (<[i := x]> l)) (informer_rank y) = add3 (informer_ranks l) (informer_rank x).
Proof.
  assert (forall x l, informer_ranks (x :: l) = add3 (informer_rank x) (informer_ranks l)) as Hcons by done.
  revert i. induction l as [|z l IH]; intros [|i] Hi; cbn in Hi; [done..| |].
  - injection Hi as ->. cbn [insert list_insert]. rewrite !Hcons. unfold add3. cbn. f_equal; [f_equal|]; lia.
  - specialize (IH i Hi). change (<[Datatypes.S i := x]> (z :: l)) with (z :: <[i := x]> l). rewrite !Hcons. unfold add3 in *. cbn.
    injection IH as E1 E2 E3. f_equal; [f_equal|]; lia.
Qed.

#[local] Arguments weights : simpl never.
#[local] Arguments informer_ranks : simpl never.
#[local] Arguments size : simpl never.
#[local] Arguments Nat.mul : simpl never.

Ltac ranks := unfold lower, lex3, rank, add3 in *; cbn -[ForgetTarget Complete report length] in *.

Lemma frame_rank s s' : dirty (queue (rt_queue s')) = dirty (queue (rt_queue s)) -> frame s' = frame s -> rank s' = rank s.
Proof. intros D [= E1 E2 E3 E4 E5 E6 E7 E8]. unfold rank. by rewrite D, E6, E7, E8. Qed.

(** A worker's step brings a closed queue nearer to its end. *)
Lemma lower_moved s s' i x y : rt_workers s !! i = Some y -> rt_workers s' = <[i := x]> (rt_workers s) ->
  (6 * size (dirty (queue (rt_queue s'))) + weight x < 6 * size (dirty (queue (rt_queue s))) + weight y)%nat ->
  rt_periodic s' = rt_periodic s -> rt_informers s' = rt_informers s -> lower s' s.
Proof. intros Hi Ew Hlt Ep Ei. pose proof (weights_insert _ _ x _ Hi) as E. ranks. rewrite Ew, Ep, Ei. lia. Qed.

Lemma lower_get s i s' : rt_workers s !! i = Some WIdle -> worker_get i s = Some s' -> lower s' s.
Proof.
  intros Hi. unfold worker_get. destruct (get_step (rt_queue s)) as [[q o]|] eqn:Eg; [|done].
  destruct (get_step_flow when _ _ _ Eg) as (_ & _ & Ho). destruct o as [k| |]; intros [= <-].
  - destruct Ho as (_ & _ & Hlt). eapply lower_moved; try done. cbn. lia.
  - destruct Ho as (Eq & _). eapply lower_moved; try done. cbn. rewrite Eq. lia.
  - destruct Ho as (_ & Hlt). ranks. lia.
Qed.

Lemma lower_worker s i s' : cq_ShuttingDown (queue (rt_queue s)) = true -> step s (AWorker i) s' -> lower s' s.
Proof.
  intros Hsh Hst. inversion Hst; subst; clear Hst; [by eapply lower_get|..]; try (eapply lower_moved; try done; cbn; lia).
  - unfold worker_begin. destruct (negb _); eapply lower_moved; try done; cbn; lia.
  - destruct (flow_ForgetTarget key (rt_queue s)) as [(_ & _ & D) _]. eapply lower_moved; try done. cbn -[ForgetTarget]. rewrite D by done. cbn. lia.
  - destruct (Complete_flow when key false (rt_queue s)) as (_ & _ & D & _). eapply lower_moved; try done. cbn -[Complete]. rewrite D by done. cbn. lia.
  - unfold worker_process. destruct (processTarget _ _ _) as [w r]. eapply lower_moved; try done. cbn. lia.
  - destruct (Complete_flow when key (negb (is_ok r)) (rt_queue s)) as (_ & _ & D & _).
    eapply lower_moved; try done. cbn -[Complete]. rewrite D by done. cbn. lia.
  - unfold worker_release. destruct (is_scope_change r); eapply lower_moved; try done; cbn; lia.
  - destruct (frame_report ScopeChangedError s) as [[= E1 E2 E3 E4 E5 E6 E7 E8] Eq].
    eapply (lower_moved s _ i WEnded); try done; cbn -[report]; rewrite ?E6, ?Eq; [done|cbn; lia].
Qed.

(** A handler has less to do after each of its steps. *)
Lemma handler_lower b h s s' h' : dispatchInformerEvent cache OnTargetDeleted h s = (s', h') ->
  lex3 (informer_rank (IRunning b h')) (informer_rank (IRunning b (Some h))).
Proof.
  unfold lex3. destruct h as [[event|e]|event [|key keys] seen r|event key [|k audits] keys seen r|event key keys seen r|event r e|e]; cbn -[report].
  - intros [= _ <-]. unfold handle_event. destruct (validate_event event); [cbn; lia|]. destruct (negb _); [cbn; lia|]. destruct (TargetsForEvent _ _); cbn; lia.
  - intros [= _ <-]. cbn. lia.
  - intros [= _ <-]. cbn. lia.
  - unfold handle_key. intros E. repeat case_match; simplify_eq/=; lia.
  - intros [= _ <-]. cbn. lia.
  - intros [= _ <-]. cbn. lia.
  - destruct (Enqueue key (rt_queue s)). intros [= _ <-]. cbn. lia.
  - intros [= _ <-]. destruct e; cbn; lia.
  - intros [= _ <-]. cbn. lia.
Qed.

(** The rank of an informer counts. *)
Lemma lower_insert s s1 i x y : rt_informers s !! i = Some y -> dirty (queue (rt_queue s1)) = dirty (queue (rt_queue s)) ->
  frame s1 = frame s -> lex3 (informer_rank x) (informer_rank y) -> lower (set_informer i x s1) s.
Proof.
  intros Hi D [= E1 E2 E3 E4 E5 E6 E7 E8] Hlt. pose proof (ranks_insert _ _ x _ Hi) as E. unfold lower, rank. cbn. rewrite D, E6, E7, E8.
  unfold lex3, add3 in *. cbn in *. injection E as A1 A2 A3. lia.
Qed.

Lemma lower_informer s i s' : cq_ShuttingDown (queue (rt_queue s)) = true -> step s (AInformer i) s' -> lower s' s.
Proof.
  intros Hsh Hst. inversion Hst as [| | | | | | | | | | | | | | | | | | | |s1 i1 e b Hi|s1 i1 b h s2 h' Hi E|s1 i1 b Hi _| | | | |]; subst; clear Hst.
  - eapply lower_insert; try done. unfold lex3. cbn. lia.
  - destruct (dispatch_flow _ _ _ _ E) as [[(_ & _ & D) _] Ef]. eapply lower_insert; [done|by apply D|done|]. by eapply handler_lower.
  - eapply lower_insert; try done. unfold lex3. cbn. lia.
Qed.

(** The periodic enqueuer never adds to it. *)
Definition not_higher s' s : Prop := lower s' s \/ rank s' = rank s.

Lemma rank_failed e s : periodic_ended (rt_periodic s) = false -> lower (periodic_failed e s) s.
Proof. intros He. unfold periodic_failed, send_fatal. ranks. destruct (rt_periodic s); [..|done]; case_match; cbn; lia. Qed.

Lemma rank_pass d s : cq_ShuttingDown (queue (rt_queue s)) = true -> periodic_ended (rt_periodic s) = false ->
  not_higher (periodic_pass cache config d s) s /\ (rt_periodic s = PStarting -> lower (periodic_pass cache config d s) s).
Proof.
  intros Hsh He. unfold periodic_pass, enqueueDue, not_higher.
  destruct (ListTargetSchedules _) as [targets|e]; cbn [rbind]; [|auto using rank_failed].
  destruct (Due _ _ _ _ _) as [[d' due]|e]; cbn [rbind]; [|auto using rank_failed]. cbn [fst snd].
  destruct (flow_periodics due (rt_queue s)) as [(_ & _ & D) _]. unfold lower, rank. cbn -[foldl]. rewrite D by done.
  unfold lex3, add3. cbn. destruct (rt_periodic s); cbn in *; [split; [left|intros _]; lia|split; [by right|done]|done].
Qed.

Lemma rank_periodic_start s : cq_ShuttingDown (queue (rt_queue s)) = true -> rt_periodic s = PStarting -> lower (periodic_start cache config s) s.
Proof.
  intros Hsh E. assert (periodic_ended (rt_periodic s) = false) as He by (by rewrite E). unfold periodic_start.
  destruct (_ <=? _); [by apply rank_failed|by apply rank_pass].
Qed.

Lemma rank_periodic_done s d t : rt_periodic s = PWaiting d t -> lower (set_periodic PEnded s) s.
Proof. intros E. ranks. rewrite E. cbn. lia. Qed.

Lemma rank_periodic s s' : cq_ShuttingDown (queue (rt_queue s)) = true -> step s APeriodic s' -> not_higher s' s.
Proof.
  intros Hsh Hst. inversion Hst as [| | | | | | | | | | | | | | | |s1 E|s1 d t E _|s1 d t E _|s1 d t E _| | | | | | | |]; subst; clear Hst.
  - left. by apply rank_periodic_start.
  - left. by eapply rank_periodic_done.
  - apply rank_pass; [done|by rewrite E].
  - destruct (rank_pass d (set_changed false s)) as [Hp _]; [done|cbn; by rewrite E|exact Hp].
Qed.

Lemma rank_outside s s' : cq_ShuttingDown (queue (rt_queue s)) = true -> rt_cancelled s = true -> step s AOutside s' -> rank s' = rank s.
Proof.
  intros Hsh Hc Hst. inversion Hst as [| | | | | | | | | | | | | | | | | | | | | | |s1 i b h e Hi Hd|s1 l q Hq Hl|s1 l|s1|s1 w]; subst; clear Hst; try done.
  - unfold run_done in Hd. by rewrite Hc, orb_true_r in Hd.
  - destruct (flow_outside when _ _ _ Hq Hl) as [(_ & _ & D) _]. apply frame_rank; [by apply D|done].
Qed.

(** ** Draining *)

Lemma get_progress s i : cq_ShuttingDown (queue (rt_queue s)) = true -> exists s', worker_get i s = Some s'.
Proof.
  intros Hsh. unfold worker_get, get_step. destruct (Get_after_shutdown _ Hsh) as [[q [|k]] ->]; [eauto|].
  cbv zeta. case_bool_decide; [eauto|]. destruct (negb _ && _); eauto.
Qed.

Lemma worker_progress s i x : cq_ShuttingDown (queue (rt_queue s)) = true -> rt_workers s !! i = Some x -> ended x = false ->
  exists s', step s (AWorker i) s'.
Proof.
  intros Hsh Hi Hx. destruct x; try done; [|eauto using rstep..].
  destruct (get_progress s i Hsh) as [s' Hs']. eauto using rstep.
Qed.

Lemma forallb_false {A} (f : A -> bool) l : forallb f l = false -> exists i x, l !! i = Some x /\ f x = false.
Proof.
  induction l as [|x l IH]; cbn; [done|]. destruct (f x) eqn:Ex; cbn; [|by exists 0%nat, x].
  intros He. destruct (IH He) as (i & y & Hi & Hy). by exists (Datatypes.S i), y.
Qed.

(** A goroutine of the runtime that can go on and comes nearer to its end. *)
Definition progress s : Prop := exists a s', step s a s' /\ lower s' s /\ a <> AMain /\ a <> AOutside.

Lemma drain_progress s : cq_ShuttingDown (queue (rt_queue s)) = true -> rt_cancelled s = true -> all_ended s = false -> progress s.
Proof.
  intros Hsh Hc [He|He]%andb_false_iff.
  - destruct (forallb_false _ _ He) as (i & x & Hi & Hx). destruct (worker_progress s i x Hsh Hi Hx) as [s' Hs'].
    exists (AWorker i), s'. split; [done|]. split; [by eapply lower_worker|done].
  - exists APeriodic. destruct (rt_periodic s) as [|d t|] eqn:Ep; [| |done].
    + exists (periodic_start cache config s). split; [by apply rs_periodic_start|]. split; [by apply rank_periodic_start|done].
    + exists (set_periodic PEnded s). split; [|split; [by eapply rank_periodic_done|done]].
      eapply rs_periodic_done; [done|]. unfold run_done. by rewrite Hc, orb_true_r.
Qed.

Lemma shutdown_progress s : cq_ShuttingDown (queue (rt_queue s)) = true -> rt_cancelled s = true ->
  Forall (fun x => started x = true) (rt_informers s) -> Shutdown s = false -> progress s.
Proof.
  intros Hsh Hc Hf He. destruct (forallb_false _ _ He) as (i & x & Hi & Hx). rewrite Forall_lookup in Hf. pose proof (Hf i x Hi) as Hst.
  assert (exists s', step s (AInformer i) s') as [s' Hs'].
  { destruct x as [|b [h|]|]; try done.
    - destruct (dispatchInformerEvent cache OnTargetDeleted h s) as [s1 h1] eqn:E. eauto using rstep.
    - eexists. eapply rs_informer_done; [done|]. unfold run_done. by rewrite Hc, orb_true_r. }
  exists (AInformer i), s'. split; [done|]. split; [by eapply lower_informer|done].
Qed.

(** [Run] itself moves from phase to phase; nobody else moves it. *)
Lemma step_keeps_phase s a s' : step s a s' -> a <> AMain -> rt_phase s' = rt_phase s.
Proof.
  intros Hst Ha. destruct Hst; try done; cbn.
  - unfold worker_get in *. repeat case_match; by simplify_eq/=.
  - unfold worker_process. by case_match.
  - destruct (frame_report ScopeChangedError s) as [[= ->] _]. done.
  - unfold periodic_start, periodic_pass, periodic_failed, send_fatal. repeat case_match; done.
  - unfold periodic_pass, periodic_failed, send_fatal. repeat case_match; done.
  - unfold periodic_pass, periodic_failed, send_fatal. repeat case_match; done.
  - match goal with E : dispatchInformerEvent _ _ _ _ = _ |- _ => destruct (dispatch_flow _ _ _ _ E) as [_ [= ->]] end. done.
Qed.

Lemma rrun_cons s a s1 s2 : step s a s1 -> run s1 s2 -> run s s2.
Proof.
  intros Hst Hr. induction Hr as [|s1 s2 b s3 _ IH Hst']; eapply rrun_step; [apply rrun_refl|exact Hst|by apply IH|exact Hst'].
Qed.

Lemma rrun_trans s s1 s2 : run s s1 -> run s1 s2 -> run s s2.
Proof. intros Hr1 Hr2. induction Hr2 as [|s1 s2 a s3 _ IH Hst]; [done|]. eapply rrun_step; [by apply IH|exact Hst]. Qed.

(** A wait of [Run]: as long as it blocks somebody makes progress, so it ends. *)
Lemma wait_ends s p p' (over : Runtime W Q -> bool) : runtime_ok s -> rt_phase s = p ->
  (forall s, runtime_ok s -> rt_phase s = p -> over s = false -> progress s) ->
  (forall s, rt_phase s = p -> over s = true -> run_close s = Some (set_phase p' s)) ->
  exists s', run s s' /\ rt_phase s' = p'.
Proof.
  intros Hs Hph Hprog Hover. remember (rank s) as n eqn:En. revert s En Hs Hph.
  induction n as [n IH] using (well_founded_induction lex3_wf). intros s -> Hs Hph. destruct (over s) eqn:Eo.
  - exists (set_phase p' s). split; [|done]. eapply rrun_cons; [apply rs_close; by apply Hover|apply rrun_refl].
  - destruct (Hprog s Hs Hph Eo) as (a & s1 & Hst & Hlt & Ha & _).
    destruct (IH (rank s1) Hlt s1 eq_refl) as (s' & Hr & Hph'); [by eapply ok_step|by rewrite (step_keeps_phase _ _ _ Hst Ha)|].
    exists s'. split; [|done]. by eapply rrun_cons.
Qed.

Lemma drains s r : runtime_ok s -> rt_phase s = PhDraining r -> exists s', run s s' /\ rt_phase s' = PhShutdown r.
Proof.
  intros Hs Hph. apply (wait_ends s (PhDraining r) _ all_ended); [done|done| |].
  - intros s1 Hs1 E He. apply drain_progress; [apply (ok_closed _ Hs1)|apply (ok_cancelled _ Hs1)|done]; rewrite E; cbn; lia.
  - intros s1 E He. unfold run_close. by rewrite E, He.
Qed.

Lemma shuts_down s r : runtime_ok s -> rt_phase s = PhShutdown r -> exists s', run s s' /\ rt_phase s' = PhReturned r.
Proof.
  intros Hs Hph. apply (wait_ends s (PhShutdown r) _ Shutdown); [done|done| |].
  - intros s1 Hs1 E He. apply shutdown_progress; [apply (ok_closed _ Hs1)|apply (ok_cancelled _ Hs1)|apply (ok_started _ Hs1)|done]; rewrite E; cbn; (lia || done).
  - intros s1 E He. unfold run_close. by rewrite E, He.
Qed.
(** From wherever it is once its context has ended, [Run] can get to its deferred function. *)
Lemma starting_ends n : forall s, runtime_ok s -> rt_done s = true -> rt_phase s = PhStarting n ->
  exists r s', run s s' /\ runtime_ok s' /\ rt_phase s' = PhClosing r.
Proof.
  induction n as [|n IH]; intros s Hs Hd Hph.
  - set (s1 := set_phase PhRunning (set_periodic PStarting s)).
    assert (step s AMain s1) as Hst by (apply rs_start; unfold run_start; by rewrite Hph).
    exists None, (set_phase (PhClosing None) s1). split; [|split; [|done]].
    + eapply rrun_cons; [exact Hst|]. eapply rrun_cons; [by apply rs_done|apply rrun_refl].
    + apply ok_phase; [by eapply ok_step|done..].
  - set (s1 := set_phase (PhStarting n) (set_workers (rt_workers s ++ [WIdle]) s)).
    assert (step s AMain s1) as Hst by (apply rs_start; unfold run_start; by rewrite Hph).
    destruct (IH s1) as (r & s' & Hr & Hs' & E); [by eapply ok_step|done..|]. exists r, s'. split; [|done]. by eapply rrun_cons.
Qed.

Lemma reaches_closing s : runtime_ok s -> rt_done s = true -> rt_phase s <> PhNew -> level (rt_phase s) = 0%nat ->
  exists r s', run s s' /\ runtime_ok s' /\ rt_phase s' = PhClosing r.
Proof.
  intros Hs Hd Hn Hl.
  assert (forall s, runtime_ok s -> rt_done s = true -> rt_phase s = PhQueued ->
    exists r s', run s s' /\ runtime_ok s' /\ rt_phase s' = PhClosing r) as Hqueued.
  { intros s1 Hs1 Hd1 E. set (n := Z.to_nat (normal_workers (RS_Workers config))).
    assert (step s1 AMain (set_phase (PhStarting n) (set_ready true s1))) as Hst by (apply rs_start; unfold run_start; by rewrite E).
    destruct (starting_ends n (set_phase (PhStarting n) (set_ready true s1))) as (r & s' & Hr & Hs' & E'); [by eapply ok_step|done..|].
    exists r, s'. split; [by eapply rrun_cons|done]. }
  assert (forall s, runtime_ok s -> rt_done s = true -> rt_phase s = PhGated ->
    exists r s', run s s' /\ runtime_ok s' /\ rt_phase s' = PhClosing r) as Hgated.
  { intros s1 Hs1 Hd1 E. destruct (run_start env cache config s1) as [s2|] eqn:Es; [|unfold run_start in Es; by rewrite E in Es].
    pose proof (rs_start env when cache OnTargetDeleted config _ _ Es) as Hst. pose proof (ok_step _ _ _ Hs1 Hst) as Hs2.
    unfold run_start, closing in Es. rewrite E in Es.
    assert ((exists r, rt_phase s2 = PhClosing r) \/ rt_done s2 = true /\ rt_phase s2 = PhQueued) as [[r E2]|[Hd2 E2]].
    { repeat case_match; simplify_eq/=; eauto. }
    - exists r, s2. split; [eapply rrun_cons; [exact Hst|apply rrun_refl]|done].
    - destruct (Hqueued s2 Hs2 Hd2 E2) as (r & s' & Hr & ? & ?). exists r, s'. split; [by eapply rrun_cons|done]. }
  destruct (rt_phase s) as [| | | | |n| |e|r|r|r|r|r|r] eqn:Eph; cbn in Hl; try done.
  - exists (if run_done s then None else Some CacheSyncError), (run_unsynced s).
    assert (step s AMain (run_unsynced s)) as Hst by (by apply rs_unsynced).
    split; [eapply rrun_cons; [exact Hst|apply rrun_refl]|]. split; [by eapply ok_step|done].
  - destruct (run_start env cache config s) as [s2|] eqn:Es; [|unfold run_start in Es; by rewrite Eph in Es].
    pose proof (rs_start env when cache OnTargetDeleted config _ _ Es) as Hst. pose proof (ok_step _ _ _ Hs Hst) as Hs2.
    unfold run_start, closing in Es. rewrite Eph in Es. injection Es as <-. case_match.
    + eexists _, _. split; [eapply rrun_cons; [exact Hst|apply rrun_refl]|]. by split.
    + destruct (Hgated _ Hs2) as (r & s' & Hr & ? & ?); [done..|]. exists r, s'. split; [by eapply rrun_cons|done].
  - by apply Hgated.
  - by apply Hqueued.
  - by apply (starting_ends n).
  - assert (step s AMain (set_phase (PhClosing None) s)) as Hst by (by apply rs_done).
    exists None, (set_phase (PhClosing None) s). split; [eapply rrun_cons; [exact Hst|apply rrun_refl]|]. split; [by eapply ok_step|done].
  - assert (step s AMain (set_phase (PhClosing (Some e)) (cancel s))) as Hst by (by apply rs_fatal_cancel).
    exists (Some e), (set_phase (PhClosing (Some e)) (cancel s)). split; [eapply rrun_cons; [exact Hst|apply rrun_refl]|].
    split; [by eapply ok_step|done].
  - exists r, s. split; [apply rrun_refl|done].
Qed.

(** The deferred function runs to its end. *)
Lemma close_step s s' : run_close s = Some s' -> runtime_ok s -> run s s' /\ runtime_ok s'.
Proof.
  intros E Hs. assert (step s AMain s') as Hst by (by apply rs_close).
  split; [eapply rrun_cons; [exact Hst|apply rrun_refl]|by eapply ok_step].
Qed.

Lemma closes r s : runtime_ok s -> rt_phase s <> PhNew ->
  match rt_phase s with PhClosing r' | PhCancelling r' | PhStopping r' | PhDraining r' | PhShutdown r' | PhReturned r' => r' = r | _ => False end ->
  exists s', run s s' /\ rt_phase s' = PhReturned r.
Proof.
  assert (forall s, runtime_ok s -> rt_phase s = PhDraining r -> exists s', run s s' /\ rt_phase s' = PhReturned r) as H3.
  { intros s1 Hs1 E. destruct (drains s1 r Hs1 E) as (s2 & Hr & E2). destruct (shuts_down s2 r) as (s3 & Hr3 & E3); [by eapply ok_run|done|].
    exists s3. split; [by eapply rrun_trans|done]. }
  assert (forall s, runtime_ok s -> rt_phase s = PhStopping r -> exists s', run s s' /\ rt_phase s' = PhReturned r) as H2'.
  { intros s1 Hs1 E. destruct (close_step s1 (set_phase (PhDraining r) (set_queue (ShutDown (rt_queue s1)) s1))) as [Hr Hs2];
      [unfold run_close; by rewrite E|done|]. destruct (H3 _ Hs2 eq_refl) as (s' & ? & ?). exists s'. split; [by eapply rrun_trans|done]. }
  assert (forall s, runtime_ok s -> rt_phase s = PhCancelling r -> exists s', run s s' /\ rt_phase s' = PhReturned r) as H1'.
  { intros s1 Hs1 E. destruct (close_step s1 (set_phase (PhStopping r) (cancel s1))) as [Hr Hs2]; [unfold run_close; by rewrite E|done|].
    destruct (H2' _ Hs2 eq_refl) as (s' & ? & ?). exists s'. split; [by eapply rrun_trans|done]. }
  intros Hs _ Hph. destruct (rt_phase s) as [| | | | | | | |x|x|x|x|x|x] eqn:E; try done; subst x; auto.
  - destruct (close_step s (set_phase (PhCancelling r) (set_ready false s))) as [Hr Hs2]; [unfold run_close; by rewrite E|done|].
    destruct (H1' _ Hs2 eq_refl) as (s' & ? & ?). exists s'. split; [by eapply rrun_trans|done].
  - by apply shuts_down.
  - exists s. split; [apply rrun_refl|done].
Qed.

(** Once [Run] has returned, only the outside moves, and it reaches nothing of the runtime's goroutines. *)
Lemma returned_step s a s' r : runtime_ok s -> rt_phase s = PhReturned r -> step s a s' ->
  a = AOutside /\ rt_phase s' = PhReturned r /\ rt_workers s' = rt_workers s /\ rt_informers s' = rt_informers s.
Proof.
  intros Hs Hph Hst. assert (all_ended s = true) as He by (apply Hs; rewrite Hph; cbn; lia).
  assert (Shutdown s = true) as Hsd by (apply Hs; rewrite Hph; cbn; lia). unfold run_start, run_close in *.
  destruct a as [|i| |i|].
  - inversion Hst; subst; unfold run_start, run_close in *; rewrite Hph in *; done.
  - exfalso. inversion Hst; subst; match goal with E : rt_workers _ !! _ = Some _ |- _ => by pose proof (all_ended_worker _ _ _ He E) end.
  - exfalso. unfold all_ended in He. apply andb_true_iff in He as [_ He].
    inversion Hst; subst; match goal with E : rt_periodic _ = _ |- _ => by rewrite E in He end.
  - exfalso. inversion Hst; subst; match goal with E : rt_informers _ !! _ = Some _ |- _ => by pose proof (Shutdown_informer _ _ _ Hsd E) end.
  - split; [done|]. inversion Hst; subst; try done.
    exfalso. match goal with E : rt_informers _ !! _ = Some _ |- _ => by pose proof (Shutdown_informer _ _ _ Hsd E) end.
Qed.

Lemma returned_stays s s' r : runtime_ok s -> rt_phase s = PhReturned r -> run s s' ->
  rt_phase s' = PhReturned r /\ rt_workers s' = rt_workers s /\ rt_informers s' = rt_informers s.
Proof.
  intros Hs Hph Hr. induction Hr as [s|s s1 a s2 Hr IH Hst]; [done|]. destruct (IH Hs Hph) as (E1 & E2 & E3).
  destruct (returned_step s1 a s2 r) as (_ & ? & ? & ?); [by eapply ok_run|done..|]. split; [done|]. split; congruence.
Qed.

(** ** Theorems *)

Section claims.
Context (range : list EventKind -> list EventKind) (synced : informerBinding -> bool) (debounceFor : TargetKey -> Z).
Context (has_core has_gateway has_dynamic : bool) (w : W) (q : Q) (t : Z) (s0 : Runtime W Q).

(** A runtime that was just built on an unused client queue. *)
Definition built : Prop :=
  processing q = ∅ /\
  NewPlatformRuntime true has_core has_gateway has_dynamic range synced debounceFor config w q t = Ok s0.

Lemma ok_built : built -> runtime_ok s0.
Proof.
  intros [Hq Hn]. unfold NewPlatformRuntime in Hn. cbn [negb] in Hn. destruct (_ <=? _); [done|].
  destruct (newInformerFactories _ _ _ _) as [l|]; [|done]. cbn [rbind] in Hn.
  destruct (New _ _ _) as [tq|] eqn:En; [|done]. cbn [rbind] in Hn. destruct (SyncGate _ _ _); [|done]. cbn in Hn. injection Hn as <-.
  unfold New in En. destruct (New_config _); [|done]. injection En as <-. split; cbn; try done; try lia.
  unfold workers_ok. cbn. rewrite Hq. split; [apply NoDup_nil_2|done].
Qed.
End claims.

Lemma holds_unique l i j x y k : NoDup (omap holds l) -> l !! i = Some x -> l !! j = Some y ->
  holds x = Some k -> holds y = Some k -> i = j.
Proof.
  revert i j. induction l as [|z l IH]; intros [|i] [|j] Hn Hi Hj Hx Hy; cbn in *; try done; simplify_eq.
  - rewrite Hx in Hn. apply NoDup_cons in Hn as [Hn _]. destruct Hn. apply list_elem_of_omap. eauto using list_elem_of_lookup_2.
  - rewrite Hy in Hn. apply NoDup_cons in Hn as [Hn _]. destruct Hn. apply list_elem_of_omap. eauto using list_elem_of_lookup_2.
  - f_equal. eapply IH; eauto. destruct (holds z); [by apply NoDup_cons in Hn as [_ Hn]|done].
Qed.

Lemma total_nonneg l : 0 <= total l.
Proof. induction l as [|x l IH]; cbn; [done|]. unfold total, count in *. destruct (counted x); lia. Qed.

Lemma total_zero l i x : total l = 0 -> l !! i = Some x -> counted x = false.
Proof.
  revert i. induction l as [|y l IH]; intros i Ht Hi; [done|]. change (count y + total l = 0) in Ht.
  pose proof (total_nonneg l) as Hn. unfold count in Ht. destruct (counted y) eqn:Ey; [lia|].
  destruct i as [|i]; cbn in Hi; [congruence|]. apply (IH i); [lia|done].
Qed.

Section runs.
Context (range : list EventKind -> list EventKind) (synced : informerBinding -> bool) (debounceFor : TargetKey -> Z).
Context (has_core has_gateway has_dynamic : bool) (w : W) (q : Q) (t : Z) (s0 s : Runtime W Q).

(** C8. No two workers handle the same target at the same time, however workers,
    timers, informer handlers, the periodic audit and shutdown interleave; and when
    [Idle] answers that the runtime is idle, whatever happens between its three
    loads, then at the moment it reads the counter of active workers no worker is
    between the start of a reconciliation and its completion. *)
Theorem one_worker_per_target s1 s3 : built range synced debounceFor has_core has_gateway has_dynamic w q t s0 ->
  rrun env when cache OnTargetDeleted config s0 s1 -> rrun env when cache OnTargetDeleted config s1 s ->
  rrun env when cache OnTargetDeleted config s s3 ->
  (forall i j x y k, rt_workers s !! i = Some x -> rt_workers s !! j = Some y -> holds x = Some k -> holds y = Some k -> i = j)
  /\ (Idle s1 s s3 = true -> forall i x, rt_workers s !! i = Some x -> counted x = false).
Proof.
  intros Hb Hr1 Hr _. pose proof (ok_built _ _ _ _ _ _ _ _ _ _ Hb) as Hok0.
  destruct (ok_workers _ (ok_run _ _ (ok_run _ _ Hok0 Hr1) Hr)) as (Hn & _ & Ha). split.
  - intros i j x y k. by apply holds_unique.
  - unfold Idle. intros Hi i x. bools. apply total_zero. rewrite <- Ha. by apply Z.eqb_eq.
Qed.

(** C9. [Run] returns only when everything it started has ended: no worker and no
    periodic enqueuer is left, every informer has stopped and no handler of one is
    at work, the queue accepts nothing, no key is held; and from then on, whatever
    happens outside, this stays so, [Idle] answers no, and no step of the runtime
    follows, neither of [Run] nor of a worker, the periodic enqueuer or an informer. *)
Theorem run_returns_clean r s' : built range synced debounceFor has_core has_gateway has_dynamic w q t s0 ->
  rrun env when cache OnTargetDeleted config s0 s -> rt_phase s = PhReturned r -> rrun env when cache OnTargetDeleted config s s' ->
  Forall (fun x => x = WEnded) (rt_workers s') /\ rt_periodic s' = PEnded /\ Forall (fun x => x = IEnded) (rt_informers s')
  /\ cq_ShuttingDown (queue (rt_queue s')) = true /\ processing (queue (rt_queue s')) = ∅
  /\ (forall s2 s3, Idle s' s2 s3 = false)
  /\ forall a s2, rstep env when cache OnTargetDeleted config s' a s2 -> a = AOutside.
Proof.
  intros Hb Hr0 Hph Hr. pose proof (ok_run _ _ (ok_built _ _ _ _ _ _ _ _ _ _ Hb) Hr0) as Hs.
  destruct (returned_stays s s' r Hs Hph Hr) as (Hph' & _). pose proof (ok_run _ _ Hs Hr) as Hs'.
  assert (Hl : level (rt_phase s') = 5%nat) by (by rewrite Hph').
  assert (He : all_ended s' = true) by (apply Hs'; lia). assert (Hsd : Shutdown s' = true) by (apply Hs'; lia).
  assert (Hf : Forall (fun x => x = WEnded) (rt_workers s')).
  { apply Forall_lookup. intros i x Hi. pose proof (all_ended_worker _ _ _ He Hi). by destruct x. }
  split; [done|]. split. { unfold all_ended in He. apply andb_true_iff in He as [_ He]. by destruct (rt_periodic s'). }
  split. { apply Forall_lookup. intros i x Hi. by eapply Shutdown_informer. }
  split; [apply (ok_closed _ Hs'); lia|]. split.
  - destruct (ok_workers _ Hs') as (_ & -> & _). replace (omap holds (rt_workers s')) with (@nil TargetKey); [done|].
    clear -Hf. induction Hf as [|x l -> _ IH]; [done|]. exact IH.
  - split. { intros s2 s3. unfold Idle. rewrite (ok_ready _ Hs') by lia. done. }
    intros a s2 Hst. by destruct (returned_step s' a s2 r Hs' Hph' Hst).
Qed.

(** C21. Once its context has ended, a runtime that was started stops, provided the
    calls of the executor and of the handlers return: the goroutines can always be
    brought to an end.  And in both of its waits, for the workers and for the
    informers ([factories.Shutdown]), every step of a worker or an informer strictly
    lowers a well-founded rank (undelivered events, keys left to the handlers, the
    rest), no step of anybody raises it, and as long as the wait blocks some
    goroutine other than [Run] can make a step that lowers it. *)
Theorem run_stops : built range synced debounceFor has_core has_gateway has_dynamic w q t s0 ->
  rrun env when cache OnTargetDeleted config s0 s -> rt_done s = true -> rt_phase s <> PhNew ->
  (exists r s', rrun env when cache OnTargetDeleted config s s' /\ rt_phase s' = PhReturned r)
  /\ well_founded lex3
  /\ (forall r, rt_phase s = PhDraining r \/ rt_phase s = PhShutdown r ->
        (forall a s', rstep env when cache OnTargetDeleted config s a s' ->
           (lex3 (rank s') (rank s) \/ rank s' = rank s)
           /\ (forall i, a = AWorker i \/ a = AInformer i -> lex3 (rank s') (rank s)))
        /\ ((exists s', run_close s = Some s')
            \/ exists a s', rstep env when cache OnTargetDeleted config s a s' /\ lex3 (rank s') (rank s) /\ a <> AMain /\ a <> AOutside)).
Proof.
  intros Hb Hr Hd Hnew. pose proof (ok_run _ _ (ok_built _ _ _ _ _ _ _ _ _ _ Hb) Hr) as Hs. split; [|split; [exact lex3_wf|]].
  - destruct (decide (level (rt_phase s) = 0%nat)) as [Hl|Hl].
    + destruct (reaches_closing s Hs Hd Hnew Hl) as (r & s1 & Hr1 & Hs1 & E1).
      destruct (closes r s1 Hs1) as (s2 & Hr2 & E2); [by rewrite E1..|]. exists r, s2. split; [by eapply rrun_trans|done].
    + destruct (rt_phase s) as [| | | | | | | |x|x|x|x|x|x] eqn:E; cbn in Hl; try done; exists x;
        (apply closes; [done|by rewrite E..]).
  - intros r Hph. assert (3 <= level (rt_phase s))%nat as Hl by (destruct Hph as [-> | ->]; cbn; lia).
    pose proof (ok_closed _ Hs Hl) as Hsh. assert (Hc : rt_cancelled s = true) by (apply (ok_cancelled _ Hs); lia). split.
    + intros a s' Hst. destruct a as [|i| |i|]; (split; [|intros j [Hj|Hj]; simplify_eq; first [by eapply lower_worker|by eapply lower_informer]]).
      * right. inversion Hst; subst; try (destruct Hph; congruence); unfold run_start, run_close in *;
          destruct Hph as [Hph|Hph]; rewrite Hph in *; try done; repeat case_match; by simplify_eq.
      * left. by eapply lower_worker.
      * by apply rank_periodic.
      * left. by eapply lower_informer.
      * right. by apply rank_outside.
    + unfold run_close. destruct Hph as [Hph|Hph]; rewrite Hph.
      * destruct (all_ended s) eqn:He; [left; eauto|right]. by apply drain_progress.
      * destruct (Shutdown s) eqn:He; [left; eauto|right]. apply shutdown_progress; try done. by apply (ok_started _ Hs).
Qed.
End runs.
End laws.
