(* ===== verification/LifecycleExamples.v ===== *)
(** * The plan file and the runtime, run

    A document written to a small file system, with and without failures, and a
    runtime of two workers from its construction to its return. *)
From Stdlib Require Import String Ascii ZArith Lia QArith.
From S2P Require Import Prelude Effects GoStrings Document DocumentGraph Queue QueueLaws Scheduling Targets Workers.
From S2P Require Import QueueExamples DocumentExamples PlatformExamples PlanFile PlanFileLaws Lifecycle LifecycleLaws.
Open Scope string_scope.
Open Scope list_scope.
Open Scope Z_scope.

(** ** The plan file *)

#[local] Existing Instance canonical_range.

(** The destination holds an older plan, and one temporary name is taken. *)
Definition old_plan : File := mkFile "old" "old" 420.
Definition plan_disk (answers : list Answer) (others : list (FS -> FS)) : Disk :=
  mkDisk (mkFS {[ "out/plan.json" := 1%nat; "out/notes" := 3%nat; "out/.fortigate-external-dns-plan-1" := 2%nat ]}
            {[ 1%nat := old_plan; 3%nat := old_plan; 2%nat := mkFile "" "" 384 ]}) answers others ∅ [].
Definition suffixes : list string := ["1"; "2"].
Definition ex_canonical : string := match CanonicalJSON ex_doc with Ok c => c | Err _ => "" end.

Example plan_directory : Dir " out//x/../plan.json" = " out" /\ Dir "plan.json" = "." /\ Dir "/a/b/" = "/a/b" /\ Dir "../p" = "..".
Proof. vm_compute. auto. Qed.

Lemma destination_not_temporary : ~ temporary_entries id "out/plan.json" suffixes "out/plan.json".
Proof.
  intros (x & Hx & E). unfold suffixes in Hx. rewrite !elem_of_cons, elem_of_nil in Hx.
  destruct Hx as [-> | [-> | []]]; vm_compute in E; discriminate.
Qed.

(** Another process removes its own file before the second call; the write fails after ten bytes. *)
Definition bystander (s : FS) : FS := mkFS (delete "out/notes" (entries s)) (files s).

Lemma bystander_polite : Forall (polite (temporary_entries id "out/plan.json" suffixes)) [id; bystander].
Proof.
  apply Forall_cons. split; [by intros s t i _ Hp|]. apply Forall_cons. split; [|by apply Forall_nil].
  intros s t i (x & Hx & Et) [Hi Hu]. split; [|done]. assert (t <> "out/notes") as Hne.
  { intros ->. unfold suffixes in Hx. rewrite !elem_of_cons, elem_of_nil in Hx. destruct Hx as [-> | [-> | []]]; vm_compute in Et; discriminate. }
  split; cbn; [by rewrite lookup_delete_ne|]. intros e He. apply lookup_delete_Some in He as [_ He]. by apply Hu.
Qed.

Lemma WriteCanonicalFile_atomic_witness :
  exists d, WriteCanonicalFile id "out/plan.json" ex_doc true suffixes (plan_disk [Fine; Fine; Fine; Fault 10 (OtherErrno "ENOSPC")] [id; bystander]) = (d, Err "write temporary plan output")
  /\ all_quiet (temporary_entries id "out/plan.json" suffixes) "out/plan.json" [] d.
Proof.
  set (d0 := plan_disk _ _).
  assert (Hr : (WriteCanonicalFile id "out/plan.json" ex_doc true suffixes d0).2 = Err "write temporary plan output") by (vm_compute; reflexivity).
  destruct (WriteCanonicalFile id "out/plan.json" ex_doc true suffixes d0) as [d r] eqn:E. cbn [snd] in Hr. subst r.
  exists d. split; [reflexivity|].
  exact (WriteCanonicalFile_atomic id "out/plan.json" ex_doc true suffixes d0 d (Err "write temporary plan output")
    destination_not_temporary bystander_polite E).
Defined.

Lemma WriteCanonicalFile_writes_witness :
  exists h, WriteCanonicalFile id "out/plan.json" ex_doc true suffixes (plan_disk [] []) =
    (mkDisk (mkFS (<["out/plan.json" := new_file (fs (plan_disk [] []))]> (entries (fs (plan_disk [] []))))
       (<[new_file (fs (plan_disk [] [])) := mkFile ex_canonical ex_canonical 384]> (files (fs (plan_disk [] []))))) [] []
       (∅ ∖ {[ new_file (fs (plan_disk [] [])) ]}) h, Ok tt).
Proof.
  apply (WriteCanonicalFile_writes id "out/plan.json" ex_doc true suffixes (plan_disk [] []) ex_canonical).
  - split; reflexivity.
  - vm_compute. discriminate.
  - vm_compute. reflexivity.
  - exact destination_not_temporary.
  - apply Exists_cons_tl, Exists_cons_hd. vm_compute. reflexivity.
  - left. reflexivity.
Defined.

(** ** The runtime *)

#[local] Instance plain_keys : KeyValidation := TargetExamples.plain_keys.

#[export] Instance fifo_queue_flow : ClientQueueFlow FifoQueue.
Proof.
  split; cbn.
  - intros k q. unfold fq_Add. by destruct (fq_shutdown q).
  - intros k q Hs. unfold fq_Add. by rewrite Hs.
  - done.
  - done.
  - done.
  - done.
  - intros q q'. unfold fq_Get. destruct (filter _ _); [|done]. destruct (fq_shutdown q); [|done]. by intros [= <-].
  - intros q Hs. unfold fq_Get. destruct (filter _ _); [rewrite Hs|]; eauto.
Defined.

#[export] Instance fifo_limiter : LimiterLaws FifoQueue fq_When.
Proof. split; done. Defined.

Definition edge_runtime : RuntimeSettings :=
  mkRuntimeSettings (mkRuntimeConfig "edge" ["service"] [] [] false false false false) Minute 2 ex_config.
Definition edge_cache (w : nat) : TargetCache := Some cached.

Definition new_runtime : result string (Runtime nat FifoQueue) :=
  NewPlatformRuntime true true true true id (fun _ => true) (fun _ => 0) edge_runtime 0%nat empty_fifo 0.
Definition r_new : Runtime nat FifoQueue :=
  match new_runtime with Ok s => s | Err _ => mkRuntime 0%nat ex_queue PhNew false false false 0 [] PEnded [] None [] false end.

Lemma r_built : built edge_runtime id (fun _ => true) (fun _ => 0) true true true 0%nat empty_fifo 0 r_new.
Proof. split; [reflexivity|]. vm_compute. reflexivity. Qed.

(** The executor counts the deletions it is told of in the world, and finds the
    scope changed at the second. *)
Definition env_edge : WorkerEnv nat string := workshop true.
Definition org_key : TargetKey := mkTargetKey "edge" "org".
Definition edge_deleted (key : TargetKey) (n : nat) : nat * result DeletionError (list TargetKey) :=
  (S n, if (n <? 2)%nat then Ok [org_key] else Err DeletionScopeChanged).

Definition edge_run : Runtime nat FifoQueue -> Runtime nat FifoQueue -> Prop := rrun env_edge fq_When edge_cache (Some edge_deleted) edge_runtime.
Definition edge_step : Runtime nat FifoQueue -> Actor -> Runtime nat FifoQueue -> Prop := rstep env_edge fq_When edge_cache (Some edge_deleted) edge_runtime.

(** Moves that can be played one after the other; one that is not enabled changes nothing. *)
Inductive Move := MRun | MSynced | MDone | MWorker (i : nat) | MPeriodic | MArrive (i : nat) (e : result string Event) | MInformer (i : nat)
| MSignal | MWorld (n : nat).

Definition move_worker (i : nat) (s : Runtime nat FifoQueue) : Runtime nat FifoQueue :=
  match rt_workers s !! i with
  | Some WIdle => default s (worker_get i s)
  | Some (WHolding k) => worker_begin edge_cache i k s
  | Some (WAbsent k) => worker_forget i k s
  | Some (WForgotten k) => worker_drop fq_When i k s
  | Some (WPresent k) => worker_enter i k s
  | Some (WBusy k) => worker_process env_edge i k s
  | Some (WWorked k r) => worker_complete fq_When i k r s
  | Some (WCompleted r) => worker_release i r s
  | Some WReporting => worker_report i s
  | _ => s
  end.
Definition move_informer (i : nat) (s : Runtime nat FifoQueue) : Runtime nat FifoQueue :=
  match rt_informers s !! i with
  | Some (IRunning b (Some h)) => let '(s', h') := dispatchInformerEvent edge_cache (Some edge_deleted) h s in set_informer i (IRunning b h') s'
  | Some (IRunning (e :: b) None) => set_informer i (IRunning b (Some (HReceived e))) s
  | Some (IRunning [] None) => if run_done s then set_informer i IEnded s else s
  | _ => s
  end.
Definition move (s : Runtime nat FifoQueue) (m : Move) : Runtime nat FifoQueue :=
  match m with
  | MRun => default s (match run_start env_edge edge_cache edge_runtime s with Some s' => Some s' | None => run_close s end)
  | MSynced => match rt_phase s with PhSyncing => set_phase PhSynced s | _ => s end
  | MDone => match rt_phase s, rt_done s with PhRunning, true => set_phase (PhClosing None) s | _, _ => s end
  | MWorker i => move_worker i s
  | MPeriodic => match rt_periodic s with
                 | PStarting => periodic_start edge_cache edge_runtime s
                 | PWaiting _ _ => if run_done s then set_periodic PEnded s else s
                 | PEnded => s
                 end
  | MArrive i e => match rt_informers s !! i with
                   | Some (IRunning b h) => if run_done s then s else set_informer i (IRunning (b ++ [e]) h) s
                   | _ => s
                   end
  | MInformer i => move_informer i s
  | MSignal => set_done s
  | MWorld n => set_world n s
  end.

Lemma move_step s m : move s m = s \/ exists a, edge_step s a (move s m).
Proof.
  destruct m as [| | |i| |i e|i| |n]; unfold edge_step; cbn.
  - destruct (run_start _ _ _ s) as [s'|] eqn:E; cbn; [right; eexists; by apply rs_start|].
    destruct (run_close s) as [s'|] eqn:E'; cbn; [right; eexists; by apply rs_close|by left].
  - destruct (rt_phase s) eqn:E; (by left) || (right; eexists; by apply rs_synced).
  - destruct (rt_phase s) eqn:E; try (by left). destruct (rt_done s) eqn:E'; [right; eexists; by apply rs_done|by left].
  - unfold move_worker. destruct (rt_workers s !! i) as [[]|] eqn:E; try (by left); try (right; eexists; by eauto using rstep).
    destruct (worker_get i s) eqn:Eg; cbn; [right; eexists; by eauto using rstep|by left].
  - destruct (rt_periodic s) eqn:E; [right; eexists; by eauto using rstep| |by left].
    destruct (run_done s) eqn:Ed; [right; eexists; by eauto using rstep|by left].
  - destruct (rt_informers s !! i) as [[]|] eqn:E; try (by left). destruct (run_done s) eqn:Ed; [by left|right; eexists; by eauto using rstep].
  - unfold move_informer. destruct (rt_informers s !! i) as [[|[|e b] [h|]|]|] eqn:E; try (by left).
    + destruct (dispatchInformerEvent _ _ h s) as [s' h'] eqn:Ed. right; eexists; by eauto using rstep.
    + destruct (run_done s) eqn:Ed; [right; eexists; by eauto using rstep|by left].
    + destruct (dispatchInformerEvent _ _ h s) as [s' h'] eqn:Ed. right; eexists; by eauto using rstep.
    + right; eexists; by eauto using rstep.
  - right; eexists; apply rs_signal.
  - right; eexists; apply rs_world.
Qed.

Lemma played l : forall s0 s, edge_run s0 s -> edge_run s0 (foldl move s l).
Proof.
  induction l as [|m l IH]; intros s0 s Hr; [done|]. cbn. apply IH. destruct (move_step s m) as [-> | [a Hst]]; [done|]. by eapply rrun_step.
Qed.

(** Started and synchronized, the first worker takes the target; meanwhile the
    informer of the targets hears of a deletion; then the signal arrives. *)
Definition target_deleted : Event := mkEvent EventTarget EventDelete "edge" "com" "" "" "".
Definition to_running : list Move := [MRun; MSynced; MRun; MRun; MRun; MRun; MRun; MRun].
Definition to_busy : list Move := to_running ++ [MWorker 0; MWorker 0; MWorker 0].
Definition to_draining : list Move :=
  to_busy ++ [MWorker 0; MArrive 1 (Ok target_deleted); MWorker 0; MWorker 0; MSignal; MDone; MRun; MRun; MRun].
(** The workers and the periodic enqueuer have ended, but the handler is at work. *)
Definition to_handler : list Move :=
  to_draining ++ [MInformer 1; MPeriodic; MPeriodic; MWorker 0; MWorker 1; MRun; MRun; MInformer 0; MRun].
Definition to_returned : list Move := to_handler ++ replicate 7 (MInformer 1) ++ [MRun].
Definition at_ (l : list Move) : Runtime nat FifoQueue := foldl move r_new l.

Lemma at_run l : edge_run r_new (at_ l).
Proof. apply played, rrun_refl. Qed.
Lemma at_run_more l l' : edge_run (at_ l) (at_ (l ++ l')).
Proof. unfold at_. rewrite foldl_app. apply played, rrun_refl. Qed.

(** [factories.Shutdown] waits for the handler. *)
Example handler_awaited : rt_phase (at_ to_handler) = PhShutdown None /\ all_ended (at_ to_handler) = true /\ Shutdown (at_ to_handler) = false
  /\ rt_informers (at_ to_handler) = [IEnded; IRunning [] (Some (HReceived (Ok target_deleted)))].
Proof. vm_compute. auto. Qed.

(** A deletion that finds the scope changed ends the runtime. *)
Example deletion_ends_runtime :
  let s := at_ (to_running ++ [MWorld 2; MArrive 1 (Ok target_deleted)] ++ replicate 5 (MInformer 1)) in
  rt_fatal s = Some ScopeChangedError /\ rt_errors s = [ScopeChangedError] /\ rt_changed s = true /\ rt_world s = 3%nat.
Proof. vm_compute. auto. Qed.

(** Busy, then idle: the loads of [Idle] see three different states. *)
Definition to_idle : list Move := to_busy ++ [MWorker 0; MWorker 0; MWorker 0].
Definition to_later : list Move := to_idle ++ [MArrive 1 (Ok target_deleted); MInformer 1].

Lemma one_worker_per_target_witness :
  rt_workers (at_ to_busy) = [WBusy com_key; WIdle] /\ Idle (at_ to_busy) (at_ to_idle) (at_ to_later) = true
  /\ forall i x, rt_workers (at_ to_idle) !! i = Some x -> counted x = false.
Proof.
  split; [vm_compute; reflexivity|]. split; [vm_compute; reflexivity|].
  apply (one_worker_per_target fq_When env_edge edge_cache (Some edge_deleted) edge_runtime id (fun _ => true) (fun _ => 0) true true true 0%nat empty_fifo 0 r_new
    (at_ to_idle) (at_ to_busy) (at_ to_later) r_built (at_run to_busy)); [exact (at_run_more to_busy _)|exact (at_run_more to_idle _)|vm_compute; reflexivity].
Defined.

Lemma run_returns_clean_witness : rt_phase (at_ to_returned) = PhReturned None /\ rt_informers (at_ to_returned) = [IEnded; IEnded] /\
  forall a s', rstep env_edge fq_When edge_cache (Some edge_deleted) edge_runtime (at_ to_returned) a s' -> a = AOutside.
Proof.
  split; [vm_compute; reflexivity|]. split; [vm_compute; reflexivity|].
  apply (run_returns_clean fq_When env_edge edge_cache (Some edge_deleted) edge_runtime id (fun _ => true) (fun _ => 0) true true true 0%nat empty_fifo 0 r_new
    (at_ to_returned) None (at_ to_returned) r_built (at_run to_returned)); [vm_compute; reflexivity|apply rrun_refl].
Defined.

Lemma run_stops_witness : rt_phase (at_ to_handler) = PhShutdown None /\ exists r s', edge_run (at_ to_handler) s' /\ rt_phase s' = PhReturned r.
Proof.
  split; [vm_compute; reflexivity|].
  apply (run_stops fq_When env_edge edge_cache (Some edge_deleted) edge_runtime id (fun _ => true) (fun _ => 0) true true true 0%nat empty_fifo 0 r_new
    (at_ to_handler) r_built (at_run to_handler)); vm_compute; [reflexivity|discriminate].
Defined.
