(* ===== verification/Memory.v ===== *)
(** * Values in memory

    Structs whose fields may be references (pointers, slices, maps) into a heap:
    the value such a struct stands for, the part of the heap it is made of, and
    what it means for a function to copy it deeply.  The heap is a parameter: its
    cells are those of the types that are stored. *)
From S2P Require Import Prelude.

Definition loc := positive.

(** References, tagged with the type they refer to.  [nil] has no address; a nil
    and an empty slice are one value. *)
Record Ptr (T : Type) : Set := mkPtr { ptr_addr : option loc }.
Record Slice (T : Type) : Set := mkSlice { slice_addr : option loc }.
Arguments mkPtr {T}. Arguments ptr_addr {T}. Arguments mkSlice {T}. Arguments slice_addr {T}.

Definition nil_ptr {T} : Ptr T := mkPtr None.
Definition nil_slice {T} : Slice T := mkSlice None.

Section memory.
Context {Cell : Type}.

Class Storable (T : Type) := {
  to_cell : T -> Cell;
  of_cell : Cell -> option T;
  of_to_cell t : of_cell (to_cell t) = Some t }.

(** [value h x]: what [x] stands for, if all its references are good.
    [footprint h x]: the cells it is made of.  Both depend on those cells only. *)
Class Mem (A V : Type) := {
  value : gmap loc Cell -> A -> option V;
  footprint : gmap loc Cell -> A -> gset loc;
  frame h h' x : (forall l, l ∈ footprint h x -> h' !! l = h !! l) -> value h' x = value h x /\ footprint h' x = footprint h x;
  bounded h x v : value h x = Some v -> footprint h x ⊆ dom h }.

Lemma value_mono `{Mem A V} h h' x v : h ⊆ h' -> value h x = Some v -> value h' x = Some v /\ footprint h' x = footprint h x.
Proof.
  intros Hsub Hv. pose proof (bounded h x v Hv) as Hb. destruct (frame h h' x) as [E1 E2].
  - intros l Hl. apply Hb, elem_of_dom in Hl as [c Hc]. rewrite Hc. by eapply lookup_weaken.
  - by rewrite E1.
Qed.

(** ** Flat data *)

Definition flat_mem (A : Type) : Mem A A.
Proof. refine {| value _ x := Some x; footprint _ _ := ∅ |}; [done|]. intros. set_solver. Defined.

(** No references inside. *)
Class Flat (A V : Type) `{Mem A V} := flat_footprint h x : footprint h x = ∅.

Lemma flat_value `{Flat A V} h h' x : value h' x = value h x.
Proof. apply frame. intros l. rewrite flat_footprint. set_solver. Qed.

(** ** Structure *)

#[export] Instance unit_mem : Mem unit unit := flat_mem unit.
#[export] Instance unit_flat : Flat unit unit.
Proof. done. Qed.

#[export] Instance prod_mem `{Mem A V, Mem B U} : Mem (A * B) (V * U).
Proof.
  refine {| value h x := a ← value h x.1; b ← value h x.2; Some (a, b); footprint h x := footprint h x.1 ∪ footprint h x.2 |}.
  - intros h h' [a b] Hl. cbn in *. destruct (frame h h' a) as [-> ->]; [set_solver|]. destruct (frame h h' b) as [-> ->]; [set_solver|done].
  - intros h [a b] v Hv. cbn in *. destruct (value h a) eqn:Ea; [|done]. destruct (value h b) eqn:Eb; [|done].
    pose proof (bounded _ _ _ Ea). pose proof (bounded _ _ _ Eb). set_solver.
Defined.

#[export] Instance list_mem `{Mem A V} : Mem (list A) (list V).
Proof.
  refine {| value h l := mapM (value h) l; footprint h l := ⋃ (footprint h <$> l) |}.
  - intros h h' l. induction l as [|x l IH]; intros Hl; [done|]. cbn in *.
    destruct (frame h h' x) as [E1 E2]; [set_solver|]. destruct IH as [E3 E4]; [set_solver|]. by rewrite E1, E2, E3, E4.
  - intros h l. induction l as [|x l IH]; intros v Hv; cbn in *; [set_solver|].
    destruct (value h x) eqn:Ex; [|done]. destruct (mapM (value h) l) eqn:El; [|done].
    pose proof (bounded _ _ _ Ex). specialize (IH _ eq_refl). set_solver.
Defined.

(** A struct is its reference fields, put back between the others. *)
Definition struct_mem {A V B U} `{Mem B U} (refs : A -> B) (rebuild : A -> U -> V) : Mem A V.
Proof.
  refine {| value h x := rebuild x <$> value h (refs x); footprint h x := footprint h (refs x) |}.
  - intros h h' x Hl. by destruct (frame h h' (refs x) Hl) as [-> ->].
  - intros h x v Hv. destruct (value h (refs x)) eqn:E; [|done]. by eapply bounded.
Defined.

(** ** References *)

#[export] Instance ptr_mem `{Storable T, Mem T V} : Mem (Ptr T) (option V).
Proof.
  refine {| value h p := match ptr_addr p with
                         | None => Some None
                         | Some l => c ← h !! l; t ← of_cell c; v ← value h t; Some (Some v)
                         end;
            footprint h p := match ptr_addr p with
                             | None => ∅
                             | Some l => {[ l ]} ∪ match c ← h !! l; of_cell c with Some t => footprint h t | None => ∅ end
                             end |}.
  - intros h h' [[l|]] Hl; cbn in *; [|done]. rewrite (Hl l) by set_solver. destruct (h !! l) as [c|]; cbn in *; [|done].
    destruct (of_cell c) as [t|]; cbn in *; [|done]. destruct (frame h h' t) as [-> ->]; [set_solver|done].
  - intros h [[l|]] v Hv; cbn in *; [|set_solver]. destruct (h !! l) as [c|] eqn:Ec; cbn in *; [|done].
    destruct (of_cell c) as [t|]; cbn in *; [|done]. destruct (value h t) eqn:Et; [|done]. pose proof (bounded _ _ _ Et).
    assert (l ∈ dom h) by (apply elem_of_dom; eauto). set_solver.
Defined.

#[export] Instance slice_mem `{Storable (list T), Mem T V} : Mem (Slice T) (list V).
Proof.
  refine {| value h s := match slice_addr s with
                         | None => Some []
                         | Some l => c ← h !! l; xs ← of_cell c; value h (xs : list T)
                         end;
            footprint h s := match slice_addr s with
                             | None => ∅
                             | Some l => {[ l ]} ∪ match c ← h !! l; of_cell c with Some xs => footprint h (xs : list T) | None => ∅ end
                             end |}.
  - intros h h' [[l|]] Hl; cbn [slice_addr] in *; [|done]. rewrite (Hl l) by set_solver. destruct (h !! l) as [c|]; cbn in Hl |- *; [|done].
    destruct (of_cell c) as [t|]; cbn in Hl |- *; [|done]. destruct (frame h h' t) as [E1 E2]; [cbn; set_solver|]. cbn in E1, E2. by rewrite E1, E2.
  - intros h [[l|]] v Hv; cbn [slice_addr] in *; [|set_solver]. destruct (h !! l) as [c|] eqn:Ec; cbn in Hv |- *; [|done].
    destruct (of_cell c) as [t|]; cbn in Hv |- *; [|done]. pose proof (bounded h t v Hv) as Hb. cbn in Hb.
    assert (l ∈ dom h) by (apply elem_of_dom; eauto). set_solver.
Defined.

(** ** Programs on the heap *)

(** A nil dereference panics. *)
Definition G (A : Type) : Type := gmap loc Cell -> option (gmap loc Cell * A).
Definition gret {A} (a : A) : G A := fun h => Some (h, a).
Definition gbind {A B} (m : G A) (k : A -> G B) : G B := fun h => r ← m h; k r.2 r.1.

Definition load `{Storable T} (l : loc) : G T := fun h => c ← h !! l; t ← of_cell c; Some (h, t).
Definition alloc `{Storable T} (t : T) : G loc := fun h => let l := fresh (dom h) in Some (<[l := to_cell t]> h, l).

(** ** Deep copies *)

(** [y] stands for [v] and shares no cell with the heap [h0]. *)
Definition copied `{Mem A V} (h0 : gmap loc Cell) (v : V) (y : A) (h : gmap loc Cell) : Prop := value h y = Some v /\ footprint h y ## dom h0.

(** A deep copy: from any later heap, the same value in new cells, everything else untouched. *)
Definition deep `{Mem A V} (f : A -> G A) : Prop :=
  forall h0 h x v, h0 ⊆ h -> value h0 x = Some v -> exists h' y, f x h = Some (h', y) /\ h ⊆ h' /\ copied h0 v y h'.

Lemma copied_mono `{Mem A V} h0 v (y : A) h h' : h ⊆ h' -> copied h0 v y h -> copied h0 v y h'.
Proof. intros Hsub [Hv Hf]. destruct (value_mono h h' y v Hsub Hv) as [E1 E2]. split; [done|by rewrite E2]. Qed.

Lemma deep_flat `{Flat A V} : deep (gret (A := A)).
Proof.
  intros h0 h x v Hsub Hv. exists h, x. split; [done|]. split; [done|]. split; [by rewrite (flat_value h0)|]. rewrite flat_footprint. set_solver.
Qed.

(** Writing to a copy does not reach the original, and the other way round. *)
Lemma copied_isolated `{Mem A V} h0 v (x y : A) h : h0 ⊆ h -> value h0 x = Some v -> copied h0 v y h ->
  (forall h', (forall l, l ∉ footprint h y -> h' !! l = h !! l) -> value h' x = Some v) /\
  (forall h', (forall l, l ∉ footprint h x -> h' !! l = h !! l) -> value h' y = Some v).
Proof.
  intros Hsub Hv [Hy Hf]. destruct (value_mono h0 h x v Hsub Hv) as [Hx Ef]. pose proof (bounded h0 x v Hv) as Hb. split; intros h' Hl.
  - rewrite <- Hx. apply frame. intros l Hin. apply Hl. rewrite Ef in Hin. set_solver.
  - rewrite <- Hy. apply frame. intros l Hin. apply Hl. rewrite Ef. set_solver.
Qed.

(** ** Copying references *)

Lemma alloc_fresh `{Storable T} (t : T) h0 h : h0 ⊆ h -> exists l, alloc t h = Some (<[l := to_cell t]> h, l) /\ (l ∉ dom h0) /\ h ⊆ <[l := to_cell t]> h.
Proof.
  intros Hsub. exists (fresh (dom h)). split; [done|]. assert (fresh (dom h) ∉ dom h) as Hf by apply is_fresh. split.
  - intros Hin. apply Hf. by apply (subseteq_dom _ _ Hsub).
  - apply insert_subseteq. by apply not_elem_of_dom.
Qed.

(** [append([]T(nil), in...)]: nil for an empty slice. *)
Definition copy_slice `{Storable (list T)} (s : Slice T) : G (Slice T) :=
  match slice_addr s with
  | None => gret nil_slice
  | Some l => gbind (load l) (fun xs => match (xs : list T) with
                                        | [] => gret nil_slice
                                        | _ => gbind (alloc xs) (fun l' => gret (mkSlice (Some l')))
                                        end)
  end.

(** [if in != nil { t := *in; out = &t }], the fields of [t] copied by [f]. *)
Definition copy_ptr `{Storable T} (f : T -> G T) (p : Ptr T) : G (Ptr T) :=
  match ptr_addr p with
  | None => gret nil_ptr
  | Some l => gbind (load l) (fun t => gbind (f t) (fun t => gbind (alloc t) (fun l' => gret (mkPtr (Some l')))))
  end.

Fixpoint copy_each {T} (f : T -> G T) (l : list T) : G (list T) :=
  match l with
  | [] => gret []
  | x :: l => gbind (f x) (fun y => gbind (copy_each f l) (fun ys => gret (y :: ys)))
  end.

(** [if in != nil { out = make([]T, len(in)); for i := range in { out[i] = f(in[i]) } }]. *)
Definition make_slice `{Storable (list T)} (f : T -> G T) (s : Slice T) : G (Slice T) :=
  match slice_addr s with
  | None => gret nil_slice
  | Some l => gbind (load l) (fun xs => gbind (copy_each f xs) (fun ys => gbind (alloc ys) (fun l' => gret (mkSlice (Some l')))))
  end.

Lemma flat_list_footprint `{Flat T V} h (xs : list T) : footprint h xs = ∅.
Proof. cbn. induction xs as [|x xs IH]; cbn; [done|]. rewrite flat_footprint, IH. set_solver. Qed.

(** A slice that was loaded from [h0] is still what it was. *)
Lemma load_slice `{Storable (list T), Mem T V} h0 h (s : Slice T) l v : h0 ⊆ h -> slice_addr s = Some l -> value h0 s = Some v ->
  exists xs, load l h = Some (h, xs) /\ value h0 (xs : list T) = Some v.
Proof.
  intros Hsub El Hv. cbn in Hv. rewrite El in Hv. destruct (h0 !! l) as [c|] eqn:Ec; [|done]. cbn in Hv.
  destruct (of_cell c) as [xs|] eqn:Ex; [|done]. exists xs. split; [|exact Hv]. unfold load.
  rewrite (lookup_weaken _ _ _ _ Ec Hsub). cbn. by rewrite Ex.
Qed.

(** A slice over freshly allocated contents. *)
Lemma new_slice `{Storable (list T), Mem T V} h0 h (xs : list T) v : h0 ⊆ h -> copied h0 v xs h ->
  exists h' l, alloc xs h = Some (h', l) /\ h ⊆ h' /\ copied h0 v (mkSlice (T := T) (Some l)) h'.
Proof.
  intros Hsub Hc. destruct (alloc_fresh xs h0 h Hsub) as (l & Ea & Hl & Hsub'). exists (<[l := to_cell xs]> h), l.
  split; [done|]. split; [done|]. destruct (copied_mono _ _ _ _ _ Hsub' Hc) as [Hv Hf].
  split; cbn; rewrite lookup_insert_eq; cbn; rewrite of_to_cell; cbn; [exact Hv|]. cbn in Hf. set_solver.
Qed.

Lemma nil_slice_copied `{Storable (list T), Mem T V} h0 h : copied (V := list V) h0 [] (nil_slice (T := T)) h.
Proof. split; [done|]. cbn. set_solver. Qed.

Lemma deep_slice `{Storable (list T), Flat T V} : deep (copy_slice (T := T)).
Proof.
  intros h0 h s v Hsub Hv. unfold copy_slice. destruct (slice_addr s) as [l|] eqn:El.
  - destruct (load_slice h0 h s l v Hsub El Hv) as (xs & Ex & Hxs). unfold gbind. rewrite Ex. cbn [mbind option_bind snd fst].
    destruct xs as [|x xs].
    { injection Hxs as <-. eexists h, _. split; [done|]. split; [done|]. apply nil_slice_copied. }
    destruct (new_slice h0 h (x :: xs) v Hsub) as (h' & l' & -> & Hsub' & Hc).
    + split; [by eapply value_mono|]. rewrite flat_list_footprint. set_solver.
    + by exists h', (mkSlice (Some l')).
  - cbn in Hv. rewrite El in Hv. injection Hv as <-. eexists h, _. split; [done|]. split; [done|]. apply nil_slice_copied.
Qed.

Lemma deep_each `{Mem T V} (f : T -> G T) : deep f -> deep (copy_each f).
Proof.
  intros Hf h0 h l. revert h. induction l as [|x l IH]; intros h v Hsub Hv.
  - injection Hv as <-. exists h, []. split; [done|]. split; [done|]. split; [done|]. cbn. set_solver.
  - cbn in Hv. destruct (value h0 x) as [vx|] eqn:Ex; [|done]. cbn in Hv. destruct (mapM (value h0) l) as [vl|] eqn:El; [|done].
    injection Hv as <-. destruct (Hf h0 h x vx Hsub Ex) as (h1 & y & E1 & S1 & C1).
    destruct (IH h1 vl) as (h2 & ys & E2 & S2 & C2); [by etrans|done|]. exists h2, (y :: ys). split.
    { cbn [copy_each]. unfold gbind. rewrite E1. cbn [mbind option_bind snd fst]. by rewrite E2. }
    split; [by etrans|]. destruct (copied_mono _ _ _ _ _ S2 C1) as [V1 F1]. destruct C2 as [V2 F2].
    split; cbn in *; [by rewrite V1, V2|set_solver].
Qed.

Lemma deep_make_slice `{Storable (list T), Mem T V} (f : T -> G T) : deep f -> deep (make_slice f).
Proof.
  intros Hf h0 h s v Hsub Hv. unfold make_slice. destruct (slice_addr s) as [l|] eqn:El.
  - destruct (load_slice h0 h s l v Hsub El Hv) as (xs & Ex & Hxs). destruct (deep_each f Hf h0 h xs v Hsub Hxs) as (h1 & ys & E1 & S1 & C1).
    destruct (new_slice h0 h1 ys v) as (h2 & l' & E2 & S2 & C2); [by etrans|done|].
    exists h2, (mkSlice (Some l')). unfold gbind. rewrite Ex. cbn [mbind option_bind snd fst]. rewrite E1. cbn [mbind option_bind snd fst].
    rewrite E2. split; [done|]. split; [by etrans|done].
  - cbn in Hv. rewrite El in Hv. injection Hv as <-. eexists h, _. split; [done|]. split; [done|]. apply nil_slice_copied.
Qed.

Lemma deep_ptr `{Storable T, Mem T V} (f : T -> G T) : deep f -> deep (copy_ptr f).
Proof.
  intros Hf h0 h p v Hsub Hv. unfold copy_ptr. cbn in Hv. destruct (ptr_addr p) as [l|].
  - destruct (h0 !! l) as [c|] eqn:Ec; [|done]. cbn in Hv. destruct (of_cell c) as [t|] eqn:Et; [|done]. cbn in Hv.
    destruct (value h0 t) as [vt|] eqn:Ev; [|done]. injection Hv as <-.
    destruct (Hf h0 h t vt Hsub Ev) as (h1 & y & E1 & S1 & C1).
    destruct (alloc_fresh y h0 h1) as (l' & Ea & Hl & S2); [by etrans|]. exists (<[l' := to_cell y]> h1), (mkPtr (Some l')).
    unfold gbind, load. rewrite (lookup_weaken _ _ _ _ Ec Hsub). cbn [mbind option_bind snd fst]. rewrite Et. cbn [mbind option_bind snd fst].
    rewrite E1. cbn [mbind option_bind snd fst]. rewrite Ea. cbn [mbind option_bind snd fst].
    split; [done|]. split; [by etrans|]. destruct (copied_mono _ _ _ _ _ S2 C1) as [V1 F1].
    split; cbn; rewrite lookup_insert_eq; cbn; rewrite of_to_cell; cbn; [by rewrite V1|set_solver].
  - injection Hv as <-. exists h, nil_ptr. split; [done|]. split; [done|]. split; [done|]. cbn. set_solver.
Qed.

(** ** Copying structs *)

(** The reference fields one after the other. *)
Definition copy_pair {A B} (f : A -> G A) (g : B -> G B) (x : A * B) : G (A * B) :=
  gbind (f x.1) (fun a => gbind (g x.2) (fun b => gret (a, b))).

Lemma deep_pair `{Mem A V, Mem B U} (f : A -> G A) (g : B -> G B) : deep f -> deep g -> deep (copy_pair f g).
Proof.
  intros Hf Hg h0 h [a b] v Hsub Hv. cbn in Hv. destruct (value h0 a) as [va|] eqn:Ea; [|done]. cbn in Hv.
  destruct (value h0 b) as [vb|] eqn:Eb; [|done]. injection Hv as <-.
  destruct (Hf h0 h a va Hsub Ea) as (h1 & a' & E1 & S1 & C1). destruct (Hg h0 h1 b vb) as (h2 & b' & E2 & S2 & C2); [by etrans|done|].
  exists h2, (a', b'). unfold copy_pair, gbind. cbn [fst snd]. rewrite E1. cbn [mbind option_bind snd fst]. rewrite E2. split; [done|].
  split; [by etrans|]. destruct (copied_mono _ _ _ _ _ S2 C1) as [V1 F1]. destruct C2 as [V2 F2]. split; cbn; [by rewrite V1, V2|set_solver].
Qed.

(** [*out = *in], then the reference fields. *)
Definition copy_struct {A B} (refs : A -> B) (set_refs : A -> B -> A) (f : B -> G B) (x : A) : G A :=
  gbind (f (refs x)) (fun b => gret (set_refs x b)).

Lemma deep_struct {A V B U} `{Mem B U} (refs : A -> B) (rebuild : A -> U -> V) (set_refs : A -> B -> A) (f : B -> G B) :
  (forall x b, refs (set_refs x b) = b) -> (forall x b u, rebuild (set_refs x b) u = rebuild x u) -> deep f ->
  @deep A V (struct_mem refs rebuild) (copy_struct refs set_refs f).
Proof.
  intros Hr Hb Hf h0 h x v Hsub Hv. cbn in Hv. destruct (value h0 (refs x)) as [u|] eqn:Eu; [|done]. injection Hv as <-.
  destruct (Hf h0 h (refs x) u Hsub Eu) as (h1 & b & E1 & S1 & [V1 F1]). exists h1, (set_refs x b).
  unfold copy_struct, gbind. rewrite E1. split; [done|]. split; [done|]. split; cbn; rewrite Hr; [|done]. rewrite V1. cbn. by rewrite Hb.
Qed.
End memory.
Arguments G : clear implicits.
