(* ===== verification/ApiObjects.v ===== *)
(** * The API objects and their copies

    internal/apis/v1alpha1: the types of types.go and [DeepCopyObject] of
    deepcopy.go, on structs in memory; [cloneDefinition] of
    internal/target/runtime.go.  A type is given once for all ways to hold its
    references ([Shape]): as addresses in a heap, or as the values behind them.
    The metadata and label selectors of apimachinery are parameters, with their
    own copying functions. *)
From S2P Require Import Prelude Memory Claims Targets Policy StatusWriter.
From Stdlib Require Import ZArith.
Open Scope Z_scope.

(** ** types.go *)

Record Shape := mkShape {
  ptr : Type -> Type; slice : Type -> Type; dict : Type;      (* dict: map[string]string *)
  ometa : Type; lmeta : Type; lselector : Type }.             (* ObjectMeta, ListMeta, LabelSelector *)

Record PlanOutcome := mkPlanOutcome { PO_OperationID : string; PO_Result : string; PO_Reason : string }.

Section types.
Context (K : Shape).

Record SecretKeySelector := mkSecretKeySelector { sk_Name : string; sk_Key : string; sk_Optional : ptr K bool }.

Record FortiGateDNSTargetSpec := mkDNSTargetSpec {
  tg_URL : string; tg_VDOM : string; tg_Zone : string; tg_APITokenSecretRef : SecretKeySelector;
  tg_CARef : ptr K LocalKeyReference; tg_InsecureSkipVerify : bool; tg_OwnershipMode : string; tg_ControllerID : string;
  tg_Sources : slice K string; tg_Namespaces : slice K string; tg_GatewayTargetNamespaces : slice K string; tg_DomainFilters : slice K string;
  tg_CleanupPolicy : string; tg_DryRun : bool; tg_ApprovalMode : string; tg_AllowNonDestructiveOverlap : bool;
  tg_Interval : Z; tg_Debounce : Z; tg_Timeout : Z; tg_Retries : Z; tg_DefaultTTL : Z; tg_ExternalNameEnabled : bool; tg_HeadlessEnabled : bool }.
Record FortiGateDNSTargetStatus := mkDNSTargetStatus { tg_ObservedGeneration : Z; tg_Conditions : slice K Condition }.

Record FortiGateDNSRecordOwnershipSpec := mkOwnershipSpec {
  ow_TargetRef : string; ow_ProviderID : string; ow_Record : DNSRecordKey; ow_Fingerprint : string;
  ow_Sources : slice K SourceObjectReference; ow_ControllerID : string; ow_AdoptionRequested : bool }.
Record FortiGateDNSRecordOwnershipStatus := mkOwnershipStatus {
  ow_Phase : string; ow_ObservedProviderRevision : string; ow_LastConfirmedTime : ptr K Time; ow_Conditions : slice K Condition }.

Record FortiGateDNSPolicySpec := mkDNSPolicySpec {
  pl_Selector : ptr K (lselector K); pl_SourceKinds : slice K string; pl_AllowedHostnameSuffixes : slice K string;
  pl_TTL : ptr K TTLRange; pl_AllowedTargetCIDRs : slice K string; pl_AllowedTargetSuffixes : slice K string;
  pl_RequireOptIn : ptr K OptInRequirement; pl_MaxRecordsPerNamespace : Z; pl_MaxRecordsPerTarget : Z; pl_Deny : bool }.

Record PlanOperation := mkApiOperation {
  op_ID : string; op_Type : string; op_Record : DNSRecordKey; op_TTL : Z; op_Status : string; op_ProviderID : string;
  op_Prerequisites : slice K string }.
Record FortiGateDNSChangePlanSpec := mkChangePlanSpec {
  cp_SchemaVersion : string; cp_TargetRef : string; cp_PlanHash : string; cp_CanonicalDocument : string; cp_ProviderRevision : string;
  cp_DiscoveryGeneration : Z; cp_PolicyGeneration : Z; cp_OwnershipResourceVersions : dict K;
  cp_Operations : slice K PlanOperation; cp_ExpiresAt : ptr K Time }.
Record FortiGateDNSChangePlanStatus := mkChangePlanStatus {
  cp_Phase : string; cp_ObservedGeneration : Z; cp_Outcomes : slice K PlanOutcome; cp_CompletedAt : ptr K Time; cp_Conditions : slice K Condition }.

Record FortiGateDNSStatusSpec := mkDNSStatusSpec { st_TargetRef : string; st_Retention : Z }.
Record FortiGateDNSStatusStatus := mkDNSStatusStatus {
  st_ObservedTargetGeneration : Z; st_ProviderRevision : string; st_Counts : ReconcileCounts; st_LastPlanHash : string;
  st_LastAuditTime : ptr K Time; st_LastApplyTime : ptr K Time; st_Conditions : slice K Condition; st_History : slice K AuditSummary }.

Record TypeMeta := mkTypeMeta { tm_Kind : string; tm_APIVersion : string }.
Record FortiGateDNSTarget := mkDNSTarget { tg_type : TypeMeta; tg_meta : ometa K; tg_spec : FortiGateDNSTargetSpec; tg_status : FortiGateDNSTargetStatus }.
Record FortiGateDNSRecordOwnership := mkOwnership {
  ow_type : TypeMeta; ow_meta : ometa K; ow_spec : FortiGateDNSRecordOwnershipSpec; ow_status : FortiGateDNSRecordOwnershipStatus }.
Record FortiGateDNSPolicy := mkDNSPolicy { pl_type : TypeMeta; pl_meta : ometa K; pl_spec : FortiGateDNSPolicySpec }.
Record FortiGateDNSChangePlan := mkDNSChangePlan {
  cp_type : TypeMeta; cp_meta : ometa K; cp_spec : FortiGateDNSChangePlanSpec; cp_status : FortiGateDNSChangePlanStatus }.
Record FortiGateDNSStatus := mkDNSStatus {
  st_type : TypeMeta; st_meta : ometa K; st_spec : FortiGateDNSStatusSpec; st_status : FortiGateDNSStatusStatus }.
(** The lists of each kind. *)
Record ObjectList (T : Type) := mkObjectList { li_type : TypeMeta; li_meta : lmeta K; li_Items : slice K T }.

(** [target.Definition]. *)
Record TargetDefinition := mkTargetDefinition {
  df_Namespace : string; df_Name : string; df_UID : string; df_ResourceVersion : string; df_Generation : Z; df_Legacy : bool;
  df_URL : string; df_VDOM : string; df_Zone : string; df_APIToken : string; df_APITokenSecretRef : ptr K SecretKeySelector;
  df_CAFile : string; df_CARef : ptr K LocalKeyReference; df_InsecureSkipVerify : bool; df_OwnershipMode : string; df_ControllerID : string;
  df_Sources : slice K string; df_Namespaces : slice K string; df_GatewayTargetNamespaces : slice K string; df_DomainFilters : slice K string;
  df_CleanupPolicy : string; df_DryRun : bool; df_ApprovalMode : string; df_AllowNonDestructiveOverlap : bool; df_ExternalNameEnabled : bool;
  df_HeadlessEnabled : bool; df_Interval : Z; df_Debounce : Z; df_Timeout : Z; df_Retries : Z; df_DefaultTTL : Z }.
End types.

(** ** Reference fields *)

(** The reference fields of each struct, in the order they are copied, and the
    struct with other references ([K'] need not be [K]: with addresses this is the
    assignment to the copy, with values it is what the struct stands for). *)
Section fields.
Context {K : Shape}.

Definition target_refs_of (K : Shape) : Type :=
  ometa K * (slice K string * (slice K string * (slice K string * (slice K string * (ptr K bool * (ptr K LocalKeyReference * slice K Condition)))))).
Definition target_refs (x : FortiGateDNSTarget K) : target_refs_of K :=
  let s := tg_spec K x in
  (tg_meta K x, (tg_Sources K s, (tg_Namespaces K s, (tg_GatewayTargetNamespaces K s, (tg_DomainFilters K s,
    (sk_Optional K (tg_APITokenSecretRef K s), (tg_CARef K s, tg_Conditions K (tg_status K x)))))))).
Definition target_with {K'} (x : FortiGateDNSTarget K) (r : target_refs_of K') : FortiGateDNSTarget K' :=
  let s := tg_spec K x in let k := tg_APITokenSecretRef K s in
  let '(m, (so, (ns, (gw, (df, (opt, (ca, cs))))))) := r in
  mkDNSTarget K' (tg_type K x) m
    (mkDNSTargetSpec K' (tg_URL K s) (tg_VDOM K s) (tg_Zone K s) (mkSecretKeySelector K' (sk_Name K k) (sk_Key K k) opt) ca (tg_InsecureSkipVerify K s)
       (tg_OwnershipMode K s) (tg_ControllerID K s) so ns gw df (tg_CleanupPolicy K s) (tg_DryRun K s) (tg_ApprovalMode K s)
       (tg_AllowNonDestructiveOverlap K s) (tg_Interval K s) (tg_Debounce K s) (tg_Timeout K s) (tg_Retries K s) (tg_DefaultTTL K s)
       (tg_ExternalNameEnabled K s) (tg_HeadlessEnabled K s))
    (mkDNSTargetStatus K' (tg_ObservedGeneration K (tg_status K x)) cs).

Definition ownership_refs_of (K : Shape) : Type := ometa K * (slice K SourceObjectReference * (ptr K Time * slice K Condition)).
Definition ownership_refs (x : FortiGateDNSRecordOwnership K) : ownership_refs_of K :=
  (ow_meta K x, (ow_Sources K (ow_spec K x), (ow_LastConfirmedTime K (ow_status K x), ow_Conditions K (ow_status K x)))).
Definition ownership_with {K'} (x : FortiGateDNSRecordOwnership K) (r : ownership_refs_of K') : FortiGateDNSRecordOwnership K' :=
  let s := ow_spec K x in let t := ow_status K x in
  let '(m, (so, (ti, cs))) := r in
  mkOwnership K' (ow_type K x) m
    (mkOwnershipSpec K' (ow_TargetRef K s) (ow_ProviderID K s) (ow_Record K s) (ow_Fingerprint K s) so (ow_ControllerID K s) (ow_AdoptionRequested K s))
    (mkOwnershipStatus K' (ow_Phase K t) (ow_ObservedProviderRevision K t) ti cs).

Definition policy_refs_of (K : Shape) : Type :=
  ometa K * (ptr K (lselector K) * (slice K string * (slice K string * (slice K string * (slice K string * (ptr K TTLRange * ptr K OptInRequirement)))))).
Definition policy_refs (x : FortiGateDNSPolicy K) : policy_refs_of K :=
  let s := pl_spec K x in
  (pl_meta K x, (pl_Selector K s, (pl_SourceKinds K s, (pl_AllowedHostnameSuffixes K s, (pl_AllowedTargetCIDRs K s, (pl_AllowedTargetSuffixes K s,
    (pl_TTL K s, pl_RequireOptIn K s))))))).
Definition policy_with {K'} (x : FortiGateDNSPolicy K) (r : policy_refs_of K') : FortiGateDNSPolicy K' :=
  let s := pl_spec K x in
  let '(m, (se, (sk, (hs, (tc, (ts, (ttl, oi))))))) := r in
  mkDNSPolicy K' (pl_type K x) m
    (mkDNSPolicySpec K' se sk hs ttl tc ts oi (pl_MaxRecordsPerNamespace K s) (pl_MaxRecordsPerTarget K s) (pl_Deny K s)).

Definition operation_with {K'} (x : PlanOperation K) (r : slice K' string) : PlanOperation K' :=
  mkApiOperation K' (op_ID K x) (op_Type K x) (op_Record K x) (op_TTL K x) (op_Status K x) (op_ProviderID K x) r.

Definition plan_refs_of (K : Shape) : Type :=
  ometa K * (dict K * (slice K (PlanOperation K) * (ptr K Time * (slice K PlanOutcome * (ptr K Time * slice K Condition))))).
Definition plan_refs (x : FortiGateDNSChangePlan K) : plan_refs_of K :=
  let s := cp_spec K x in let t := cp_status K x in
  (cp_meta K x, (cp_OwnershipResourceVersions K s, (cp_Operations K s, (cp_ExpiresAt K s, (cp_Outcomes K t, (cp_CompletedAt K t, cp_Conditions K t)))))).
Definition plan_with {K'} (x : FortiGateDNSChangePlan K) (r : plan_refs_of K') : FortiGateDNSChangePlan K' :=
  let s := cp_spec K x in let t := cp_status K x in
  let '(m, (vs, (ops, (ex, (ou, (co, cs)))))) := r in
  mkDNSChangePlan K' (cp_type K x) m
    (mkChangePlanSpec K' (cp_SchemaVersion K s) (cp_TargetRef K s) (cp_PlanHash K s) (cp_CanonicalDocument K s) (cp_ProviderRevision K s)
       (cp_DiscoveryGeneration K s) (cp_PolicyGeneration K s) vs ops ex)
    (mkChangePlanStatus K' (cp_Phase K t) (cp_ObservedGeneration K t) ou co cs).

Definition status_refs_of (K : Shape) : Type := ometa K * (ptr K Time * (ptr K Time * (slice K Condition * slice K AuditSummary))).
Definition status_refs (x : FortiGateDNSStatus K) : status_refs_of K :=
  let t := st_status K x in (st_meta K x, (st_LastAuditTime K t, (st_LastApplyTime K t, (st_Conditions K t, st_History K t)))).
Definition status_with {K'} (x : FortiGateDNSStatus K) (r : status_refs_of K') : FortiGateDNSStatus K' :=
  let t := st_status K x in
  let '(m, (au, (ap, (cs, hi)))) := r in
  mkDNSStatus K' (st_type K x) m (st_spec K x)
    (mkDNSStatusStatus K' (st_ObservedTargetGeneration K t) (st_ProviderRevision K t) (st_Counts K t) (st_LastPlanHash K t) au ap cs hi).

Definition list_refs {T} (x : ObjectList K T) : lmeta K * slice K T := (li_meta K T x, li_Items K T x).
Definition list_with {K'} {T T'} (x : ObjectList K T) (r : lmeta K' * slice K' T') : ObjectList K' T' := mkObjectList K' T' (li_type K T x) r.1 r.2.

Definition secret_with {K'} (x : SecretKeySelector K) (r : ptr K' bool) : SecretKeySelector K' := mkSecretKeySelector K' (sk_Name K x) (sk_Key K x) r.

Definition definition_refs_of (K : Shape) : Type :=
  slice K string * (slice K string * (slice K string * (slice K string * (ptr K (SecretKeySelector K) * ptr K LocalKeyReference)))).
Definition definition_refs (x : TargetDefinition K) : definition_refs_of K :=
  (df_Sources K x, (df_Namespaces K x, (df_GatewayTargetNamespaces K x, (df_DomainFilters K x, (df_APITokenSecretRef K x, df_CARef K x))))).
Definition definition_with {K'} (x : TargetDefinition K) (r : definition_refs_of K') : TargetDefinition K' :=
  let '(so, (ns, (gw, (df, (tk, ca))))) := r in
  mkTargetDefinition K' (df_Namespace K x) (df_Name K x) (df_UID K x) (df_ResourceVersion K x) (df_Generation K x) (df_Legacy K x) (df_URL K x)
    (df_VDOM K x) (df_Zone K x) (df_APIToken K x) tk (df_CAFile K x) ca (df_InsecureSkipVerify K x) (df_OwnershipMode K x) (df_ControllerID K x)
    so ns gw df (df_CleanupPolicy K x) (df_DryRun K x) (df_ApprovalMode K x) (df_AllowNonDestructiveOverlap K x) (df_ExternalNameEnabled K x)
    (df_HeadlessEnabled K x) (df_Interval K x) (df_Debounce K x) (df_Timeout K x) (df_Retries K x) (df_DefaultTTL K x).
End fields.

(** ** Memory *)

Section memory.
Context {Meta LMeta Sel VMeta VLMeta VSel Other : Type}.

Definition mem : Shape := mkShape Ptr Slice (Ptr (gmap string string)) Meta LMeta Sel.
Definition val : Shape := mkShape option list (option (gmap string string)) VMeta VLMeta VSel.

(** What a heap cell can hold; [Other] is for the cells of metadata and selectors. *)
Inductive Cell :=
| CStrings (l : list string) | CConditions (l : list Condition) | CSources (l : list SourceObjectReference)
| COutcomes (l : list PlanOutcome) | CHistory (l : list AuditSummary) | COperations (l : list (PlanOperation mem))
| CBool (b : bool) | CTime (t : Time) | CKeyRef (r : LocalKeyReference) | CTTL (r : TTLRange) | COptIn (r : OptInRequirement)
| CMap (m : gmap string string) | CSelector (s : Sel) | CSecret (s : SecretKeySelector mem)
| CTarget (x : FortiGateDNSTarget mem) | COwnership (x : FortiGateDNSRecordOwnership mem) | CPolicy (x : FortiGateDNSPolicy mem)
| CPlan (x : FortiGateDNSChangePlan mem) | CStatus (x : FortiGateDNSStatus mem)
| CTargets (l : list (FortiGateDNSTarget mem)) | COwnerships (l : list (FortiGateDNSRecordOwnership mem))
| CPolicies (l : list (FortiGateDNSPolicy mem)) | CPlans (l : list (FortiGateDNSChangePlan mem)) | CStatuses (l : list (FortiGateDNSStatus mem))
| CTargetList (x : ObjectList mem (FortiGateDNSTarget mem)) | COwnershipList (x : ObjectList mem (FortiGateDNSRecordOwnership mem))
| CPolicyList (x : ObjectList mem (FortiGateDNSPolicy mem)) | CPlanList (x : ObjectList mem (FortiGateDNSChangePlan mem))
| CStatusList (x : ObjectList mem (FortiGateDNSStatus mem))
| COther (o : Other).

#[export] Instance store_strings : Storable (Cell := Cell) (list string).
Proof. refine {| to_cell := CStrings; of_cell c := match c with CStrings x => Some x | _ => None end |}. done. Defined.
#[export] Instance store_conditions : Storable (Cell := Cell) (list Condition).
Proof. refine {| to_cell := CConditions; of_cell c := match c with CConditions x => Some x | _ => None end |}. done. Defined.
#[export] Instance store_sources : Storable (Cell := Cell) (list SourceObjectReference).
Proof. refine {| to_cell := CSources; of_cell c := match c with CSources x => Some x | _ => None end |}. done. Defined.
#[export] Instance store_outcomes : Storable (Cell := Cell) (list PlanOutcome).
Proof. refine {| to_cell := COutcomes; of_cell c := match c with COutcomes x => Some x | _ => None end |}. done. Defined.
#[export] Instance store_history : Storable (Cell := Cell) (list AuditSummary).
Proof. refine {| to_cell := CHistory; of_cell c := match c with CHistory x => Some x | _ => None end |}. done. Defined.
#[export] Instance store_operations : Storable (Cell := Cell) (list (PlanOperation mem)).
Proof. refine {| to_cell := COperations; of_cell c := match c with COperations x => Some x | _ => None end |}. done. Defined.
#[export] Instance store_bool : Storable (Cell := Cell) (bool).
Proof. refine {| to_cell := CBool; of_cell c := match c with CBool x => Some x | _ => None end |}. done. Defined.
#[export] Instance store_time : Storable (Cell := Cell) (Time).
Proof. refine {| to_cell := CTime; of_cell c := match c with CTime x => Some x | _ => None end |}. done. Defined.
#[export] Instance store_keyref : Storable (Cell := Cell) (LocalKeyReference).
Proof. refine {| to_cell := CKeyRef; of_cell c := match c with CKeyRef x => Some x | _ => None end |}. done. Defined.
#[export] Instance store_ttl : Storable (Cell := Cell) (TTLRange).
Proof. refine {| to_cell := CTTL; of_cell c := match c with CTTL x => Some x | _ => None end |}. done. Defined.
#[export] Instance store_optin : Storable (Cell := Cell) (OptInRequirement).
Proof. refine {| to_cell := COptIn; of_cell c := match c with COptIn x => Some x | _ => None end |}. done. Defined.
#[export] Instance store_map : Storable (Cell := Cell) (gmap string string).
Proof. refine {| to_cell := CMap; of_cell c := match c with CMap x => Some x | _ => None end |}. done. Defined.
#[export] Instance store_selector : Storable (Cell := Cell) (Sel).
Proof. refine {| to_cell := CSelector; of_cell c := match c with CSelector x => Some x | _ => None end |}. done. Defined.
#[export] Instance store_secret : Storable (Cell := Cell) (SecretKeySelector mem).
Proof. refine {| to_cell := CSecret; of_cell c := match c with CSecret x => Some x | _ => None end |}. done. Defined.
#[export] Instance store_target : Storable (Cell := Cell) (FortiGateDNSTarget mem).
Proof. refine {| to_cell := CTarget; of_cell c := match c with CTarget x => Some x | _ => None end |}. done. Defined.
#[export] Instance store_target_items : Storable (Cell := Cell) (list (FortiGateDNSTarget mem)).
Proof. refine {| to_cell := CTargets; of_cell c := match c with CTargets x => Some x | _ => None end |}. done. Defined.
#[export] Instance store_target_list : Storable (Cell := Cell) (ObjectList mem (FortiGateDNSTarget mem)).
Proof. refine {| to_cell := CTargetList; of_cell c := match c with CTargetList x => Some x | _ => None end |}. done. Defined.
#[export] Instance store_ownership : Storable (Cell := Cell) (FortiGateDNSRecordOwnership mem).
Proof. refine {| to_cell := COwnership; of_cell c := match c with COwnership x => Some x | _ => None end |}. done. Defined.
#[export] Instance store_ownership_items : Storable (Cell := Cell) (list (FortiGateDNSRecordOwnership mem)).
Proof. refine {| to_cell := COwnerships; of_cell c := match c with COwnerships x => Some x | _ => None end |}. done. Defined.
#[export] Instance store_ownership_list : Storable (Cell := Cell) (ObjectList mem (FortiGateDNSRecordOwnership mem)).
Proof. refine {| to_cell := COwnershipList; of_cell c := match c with COwnershipList x => Some x | _ => None end |}. done. Defined.
#[export] Instance store_policy : Storable (Cell := Cell) (FortiGateDNSPolicy mem).
Proof. refine {| to_cell := CPolicy; of_cell c := match c with CPolicy x => Some x | _ => None end |}. done. Defined.
#[export] Instance store_policy_items : Storable (Cell := Cell) (list (FortiGateDNSPolicy mem)).
Proof. refine {| to_cell := CPolicies; of_cell c := match c with CPolicies x => Some x | _ => None end |}. done. Defined.
#[export] Instance store_policy_list : Storable (Cell := Cell) (ObjectList mem (FortiGateDNSPolicy mem)).
Proof. refine {| to_cell := CPolicyList; of_cell c := match c with CPolicyList x => Some x | _ => None end |}. done. Defined.
#[export] Instance store_plan : Storable (Cell := Cell) (FortiGateDNSChangePlan mem).
Proof. refine {| to_cell := CPlan; of_cell c := match c with CPlan x => Some x | _ => None end |}. done. Defined.
#[export] Instance store_plan_items : Storable (Cell := Cell) (list (FortiGateDNSChangePlan mem)).
Proof. refine {| to_cell := CPlans; of_cell c := match c with CPlans x => Some x | _ => None end |}. done. Defined.
#[export] Instance store_plan_list : Storable (Cell := Cell) (ObjectList mem (FortiGateDNSChangePlan mem)).
Proof. refine {| to_cell := CPlanList; of_cell c := match c with CPlanList x => Some x | _ => None end |}. done. Defined.
#[export] Instance store_status : Storable (Cell := Cell) (FortiGateDNSStatus mem).
Proof. refine {| to_cell := CStatus; of_cell c := match c with CStatus x => Some x | _ => None end |}. done. Defined.
#[export] Instance store_status_items : Storable (Cell := Cell) (list (FortiGateDNSStatus mem)).
Proof. refine {| to_cell := CStatuses; of_cell c := match c with CStatuses x => Some x | _ => None end |}. done. Defined.
#[export] Instance store_status_list : Storable (Cell := Cell) (ObjectList mem (FortiGateDNSStatus mem)).
Proof. refine {| to_cell := CStatusList; of_cell c := match c with CStatusList x => Some x | _ => None end |}. done. Defined.

(** Flat data. *)
#[export] Instance mem_string : Mem (Cell := Cell) (string) (string) := flat_mem (string).
#[export] Instance flat_string : Flat (Cell := Cell) (string) (string).
Proof. done. Qed.
#[export] Instance mem_bool : Mem (Cell := Cell) (bool) (bool) := flat_mem (bool).
#[export] Instance flat_bool : Flat (Cell := Cell) (bool) (bool).
Proof. done. Qed.
#[export] Instance mem_time : Mem (Cell := Cell) (Time) (Time) := flat_mem (Time).
#[export] Instance flat_time : Flat (Cell := Cell) (Time) (Time).
Proof. done. Qed.
#[export] Instance mem_keyref : Mem (Cell := Cell) (LocalKeyReference) (LocalKeyReference) := flat_mem (LocalKeyReference).
#[export] Instance flat_keyref : Flat (Cell := Cell) (LocalKeyReference) (LocalKeyReference).
Proof. done. Qed.
#[export] Instance mem_ttl : Mem (Cell := Cell) (TTLRange) (TTLRange) := flat_mem (TTLRange).
#[export] Instance flat_ttl : Flat (Cell := Cell) (TTLRange) (TTLRange).
Proof. done. Qed.
#[export] Instance mem_optin : Mem (Cell := Cell) (OptInRequirement) (OptInRequirement) := flat_mem (OptInRequirement).
#[export] Instance flat_optin : Flat (Cell := Cell) (OptInRequirement) (OptInRequirement).
Proof. done. Qed.
#[export] Instance mem_map : Mem (Cell := Cell) (gmap string string) (gmap string string) := flat_mem (gmap string string).
#[export] Instance flat_map : Flat (Cell := Cell) (gmap string string) (gmap string string).
Proof. done. Qed.
#[export] Instance mem_condition : Mem (Cell := Cell) (Condition) (Condition) := flat_mem (Condition).
#[export] Instance flat_condition : Flat (Cell := Cell) (Condition) (Condition).
Proof. done. Qed.
#[export] Instance mem_source : Mem (Cell := Cell) (SourceObjectReference) (SourceObjectReference) := flat_mem (SourceObjectReference).
#[export] Instance flat_source : Flat (Cell := Cell) (SourceObjectReference) (SourceObjectReference).
Proof. done. Qed.
#[export] Instance mem_outcome : Mem (Cell := Cell) (PlanOutcome) (PlanOutcome) := flat_mem (PlanOutcome).
#[export] Instance flat_outcome : Flat (Cell := Cell) (PlanOutcome) (PlanOutcome).
Proof. done. Qed.
#[export] Instance mem_audit : Mem (Cell := Cell) (AuditSummary) (AuditSummary) := flat_mem (AuditSummary).
#[export] Instance flat_audit : Flat (Cell := Cell) (AuditSummary) (AuditSummary).
Proof. done. Qed.

(** What apimachinery does with metadata and selectors: they have values, and
    their [DeepCopy] is one. *)
Class ApiMachinery := {
  mem_meta :: Mem (Cell := Cell) Meta VMeta;
  mem_lmeta :: Mem (Cell := Cell) LMeta VLMeta;
  mem_selector :: Mem (Cell := Cell) Sel VSel;
  ObjectMeta_DeepCopy : Meta -> G Cell Meta;
  ListMeta_DeepCopy : LMeta -> G Cell LMeta;
  LabelSelector_DeepCopy : Sel -> G Cell Sel }.
Class ApiMachineryLaws `{ApiMachinery} : Prop := {
  ObjectMeta_deep : deep ObjectMeta_DeepCopy;
  ListMeta_deep : deep ListMeta_DeepCopy;
  LabelSelector_deep : deep LabelSelector_DeepCopy }.

Context `{ApiMachinery}.

(** Structs. *)
#[export] Instance mem_operation : Mem (Cell := Cell) (PlanOperation mem) (PlanOperation val) :=
  struct_mem (op_Prerequisites mem) (operation_with (K' := val)).
#[export] Instance mem_secret : Mem (Cell := Cell) (SecretKeySelector mem) (SecretKeySelector val) :=
  struct_mem (sk_Optional mem) (secret_with (K' := val)).
#[export] Instance mem_target : Mem (Cell := Cell) (FortiGateDNSTarget mem) (FortiGateDNSTarget val) := struct_mem target_refs (target_with (K' := val)).
#[export] Instance mem_ownership : Mem (Cell := Cell) (FortiGateDNSRecordOwnership mem) (FortiGateDNSRecordOwnership val) :=
  struct_mem ownership_refs (ownership_with (K' := val)).
#[export] Instance mem_policy : Mem (Cell := Cell) (FortiGateDNSPolicy mem) (FortiGateDNSPolicy val) := struct_mem policy_refs (policy_with (K' := val)).
#[export] Instance mem_plan : Mem (Cell := Cell) (FortiGateDNSChangePlan mem) (FortiGateDNSChangePlan val) := struct_mem plan_refs (plan_with (K' := val)).
#[export] Instance mem_status : Mem (Cell := Cell) (FortiGateDNSStatus mem) (FortiGateDNSStatus val) := struct_mem status_refs (status_with (K' := val)).
#[export] Instance mem_list `{Storable Cell (list T), Mem Cell T V} : Mem (Cell := Cell) (ObjectList mem T) (ObjectList val V) :=
  struct_mem list_refs (list_with (K' := val)).
#[export] Instance mem_definition : Mem (Cell := Cell) (TargetDefinition mem) (TargetDefinition val) :=
  struct_mem definition_refs (definition_with (K' := val)).

(** ** deepcopy.go *)

Definition copyStrings : Slice string -> G Cell (Slice string) := copy_slice.

(** A pointer to flat data: [x := *in; out = &x]. *)
Definition copy_flat `{Storable Cell T} : Ptr T -> G Cell (Ptr T) := copy_ptr gret.

Definition copy_target : FortiGateDNSTarget mem -> G Cell (FortiGateDNSTarget mem) :=
  copy_struct (target_refs (K := mem)) (target_with (K' := mem))
    (copy_pair ObjectMeta_DeepCopy (copy_pair copyStrings (copy_pair copyStrings (copy_pair copyStrings (copy_pair copyStrings
      (copy_pair copy_flat (copy_pair copy_flat copy_slice))))))).

Definition copy_ownership : FortiGateDNSRecordOwnership mem -> G Cell (FortiGateDNSRecordOwnership mem) :=
  copy_struct (ownership_refs (K := mem)) (ownership_with (K' := mem)) (copy_pair ObjectMeta_DeepCopy (copy_pair copy_slice (copy_pair copy_flat copy_slice))).

Definition copy_policy : FortiGateDNSPolicy mem -> G Cell (FortiGateDNSPolicy mem) :=
  copy_struct (policy_refs (K := mem)) (policy_with (K' := mem))
    (copy_pair ObjectMeta_DeepCopy (copy_pair (copy_ptr LabelSelector_DeepCopy) (copy_pair copyStrings (copy_pair copyStrings (copy_pair copyStrings
      (copy_pair copyStrings (copy_pair copy_flat copy_flat))))))).

Definition copy_operation : PlanOperation mem -> G Cell (PlanOperation mem) :=
  copy_struct (op_Prerequisites mem) (operation_with (K' := mem)) copyStrings.

Definition copy_plan : FortiGateDNSChangePlan mem -> G Cell (FortiGateDNSChangePlan mem) :=
  copy_struct (plan_refs (K := mem)) (plan_with (K' := mem))
    (copy_pair ObjectMeta_DeepCopy (copy_pair copy_flat (copy_pair (make_slice copy_operation) (copy_pair copy_flat
      (copy_pair copy_slice (copy_pair copy_flat copy_slice)))))).

Definition copy_status : FortiGateDNSStatus mem -> G Cell (FortiGateDNSStatus mem) :=
  copy_struct (status_refs (K := mem)) (status_with (K' := mem)) (copy_pair ObjectMeta_DeepCopy (copy_pair copy_flat (copy_pair copy_flat (copy_pair copy_slice copy_slice)))).

Definition copy_list `{Storable Cell (list T)} (f : T -> G Cell T) : ObjectList mem T -> G Cell (ObjectList mem T) :=
  copy_struct (list_refs (K := mem)) (list_with (K' := mem)) (copy_pair ListMeta_DeepCopy (make_slice f)).

Definition copy_target_list : ObjectList mem (FortiGateDNSTarget mem) -> G Cell (ObjectList mem (FortiGateDNSTarget mem)) := copy_list copy_target.
Definition copy_ownership_list : ObjectList mem (FortiGateDNSRecordOwnership mem) -> G Cell (ObjectList mem (FortiGateDNSRecordOwnership mem)) := copy_list copy_ownership.
Definition copy_policy_list : ObjectList mem (FortiGateDNSPolicy mem) -> G Cell (ObjectList mem (FortiGateDNSPolicy mem)) := copy_list copy_policy.
Definition copy_plan_list : ObjectList mem (FortiGateDNSChangePlan mem) -> G Cell (ObjectList mem (FortiGateDNSChangePlan mem)) := copy_list copy_plan.
Definition copy_status_list : ObjectList mem (FortiGateDNSStatus mem) -> G Cell (ObjectList mem (FortiGateDNSStatus mem)) := copy_list copy_status.

(** A [runtime.Object] is a pointer to one of the registered types. *)
Inductive Object :=
| OTarget (p : Ptr (FortiGateDNSTarget mem)) | OTargetList (p : Ptr (ObjectList mem (FortiGateDNSTarget mem)))
| OOwnership (p : Ptr (FortiGateDNSRecordOwnership mem)) | OOwnershipList (p : Ptr (ObjectList mem (FortiGateDNSRecordOwnership mem)))
| OPolicy (p : Ptr (FortiGateDNSPolicy mem)) | OPolicyList (p : Ptr (ObjectList mem (FortiGateDNSPolicy mem)))
| OPlan (p : Ptr (FortiGateDNSChangePlan mem)) | OPlanList (p : Ptr (ObjectList mem (FortiGateDNSChangePlan mem)))
| OStatus (p : Ptr (FortiGateDNSStatus mem)) | OStatusList (p : Ptr (ObjectList mem (FortiGateDNSStatus mem))).

(** [if in == nil { return nil }; out := new(T); ...; return out]. *)
Definition new_copy `{Storable Cell T} (wrap : Ptr T -> Object) (f : T -> G Cell T) (p : Ptr T) : G Cell (option Object) :=
  match ptr_addr p with
  | None => gret None
  | Some _ => gbind (copy_ptr f p) (fun q => gret (Some (wrap q)))
  end.

Definition DeepCopyObject (o : Object) : G Cell (option Object) :=
  match o with
  | OTarget p => new_copy OTarget copy_target p
  | OTargetList p => new_copy OTargetList copy_target_list p
  | OOwnership p => new_copy OOwnership copy_ownership p
  | OOwnershipList p => new_copy OOwnershipList copy_ownership_list p
  | OPolicy p => new_copy OPolicy copy_policy p
  | OPolicyList p => new_copy OPolicyList copy_policy_list p
  | OPlan p => new_copy OPlan copy_plan p
  | OPlanList p => new_copy OPlanList copy_plan_list p
  | OStatus p => new_copy OStatus copy_status p
  | OStatusList p => new_copy OStatusList copy_status_list p
  end.

(** ** target/runtime.go: [cloneDefinition] *)

Definition copy_secret : SecretKeySelector mem -> G Cell (SecretKeySelector mem) := copy_struct (sk_Optional mem) (secret_with (K' := mem)) copy_flat.

Definition cloneDefinition : TargetDefinition mem -> G Cell (TargetDefinition mem) :=
  copy_struct (definition_refs (K := mem)) (definition_with (K' := mem))
    (copy_pair copyStrings (copy_pair copyStrings (copy_pair copyStrings (copy_pair copyStrings (copy_pair (copy_ptr copy_secret) copy_flat))))).

Definition cloneDefinitions (definitions : list (TargetDefinition mem)) : G Cell (list (TargetDefinition mem)) := copy_each cloneDefinition definitions.
End memory.
