(* ===== verification/ApiObjectsLaws.v ===== *)
(** * Copies share nothing

    [DeepCopyObject] of every registered kind, and [cloneDefinition], give the
    same value in new memory: neither can be changed through the other. *)
From S2P Require Import Prelude Memory Claims Targets Policy StatusWriter ApiObjects.

Section laws.
Context {Meta LMeta Sel VMeta VLMeta VSel Other : Type} `{AM : !@ApiMachinery Meta LMeta Sel VMeta VLMeta VSel Other} `{!ApiMachineryLaws}.

#[local] Notation Kmem := (@mem Meta LMeta Sel).
#[local] Notation Kval := (@val VMeta VLMeta VSel).
#[local] Notation KObject := (@Object Meta LMeta Sel).
#[local] Notation KCell := (@Cell Meta LMeta Sel Other).

(** The references one by one, and a struct by its references. *)
Ltac deep_refs :=
  unfold copyStrings, copy_flat;
  repeat first [ apply ObjectMeta_deep | apply ListMeta_deep | apply LabelSelector_deep | assumption
               | apply deep_pair | apply deep_slice | apply deep_ptr | apply deep_make_slice | apply deep_flat ].
Ltac split_refs b :=
  let T := type of b in let T := eval hnf in T in
  lazymatch T with (_ * _)%type => destruct b as [? b]; split_refs b | _ => idtac end.
Ltac deep_fields := apply deep_struct; [intros x b; split_refs b; reflexivity|intros x b u; split_refs b; split_refs u; reflexivity|deep_refs].

Lemma deep_target : deep copy_target.
Proof. deep_fields. Qed.
Lemma deep_ownership : deep copy_ownership.
Proof. deep_fields. Qed.
Lemma deep_policy : deep copy_policy.
Proof. deep_fields. Qed.
Lemma deep_operation : deep (Cell := KCell) (V := PlanOperation Kval) copy_operation.
Proof. deep_fields. Qed.
Lemma deep_plan : deep copy_plan.
Proof. pose proof deep_operation. deep_fields. Qed.
Lemma deep_status : deep copy_status.
Proof. deep_fields. Qed.
Lemma deep_list `{Storable KCell (list T), Mem KCell T V} (f : T -> G KCell T) : deep f -> deep (copy_list f).
Proof. intros Hf. deep_fields. Qed.
Lemma deep_secret : deep (Cell := KCell) (V := SecretKeySelector Kval) copy_secret.
Proof. deep_fields. Qed.
Lemma deep_definition : deep (Cell := KCell) (V := TargetDefinition Kval) cloneDefinition.
Proof. pose proof deep_secret. deep_fields. Qed.

(** ** Objects *)

(** What an object stands for: the value behind its pointer, with its kind. *)
Inductive ObjectValue :=
| VTarget (v : option (FortiGateDNSTarget Kval)) | VTargetList (v : option (ObjectList Kval (FortiGateDNSTarget Kval)))
| VOwnership (v : option (FortiGateDNSRecordOwnership Kval)) | VOwnershipList (v : option (ObjectList Kval (FortiGateDNSRecordOwnership Kval)))
| VPolicy (v : option (FortiGateDNSPolicy Kval)) | VPolicyList (v : option (ObjectList Kval (FortiGateDNSPolicy Kval)))
| VPlan (v : option (FortiGateDNSChangePlan Kval)) | VPlanList (v : option (ObjectList Kval (FortiGateDNSChangePlan Kval)))
| VStatus (v : option (FortiGateDNSStatus Kval)) | VStatusList (v : option (ObjectList Kval (FortiGateDNSStatus Kval))).

Definition object_value (h : gmap loc KCell) (o : KObject) : option ObjectValue :=
  match o with
  | OTarget p => VTarget <$> value h p | OTargetList p => VTargetList <$> value h p
  | OOwnership p => VOwnership <$> value h p | OOwnershipList p => VOwnershipList <$> value h p
  | OPolicy p => VPolicy <$> value h p | OPolicyList p => VPolicyList <$> value h p
  | OPlan p => VPlan <$> value h p | OPlanList p => VPlanList <$> value h p
  | OStatus p => VStatus <$> value h p | OStatusList p => VStatusList <$> value h p
  end.
Definition object_footprint (h : gmap loc KCell) (o : KObject) : gset loc :=
  match o with
  | OTarget p => footprint h p | OTargetList p => footprint h p | OOwnership p => footprint h p | OOwnershipList p => footprint h p
  | OPolicy p => footprint h p | OPolicyList p => footprint h p | OPlan p => footprint h p | OPlanList p => footprint h p
  | OStatus p => footprint h p | OStatusList p => footprint h p
  end.

#[export] Instance mem_object : Mem (Cell := KCell) KObject ObjectValue.
Proof.
  refine {| value := object_value; footprint := object_footprint |}.
  - intros h h' [p|p|p|p|p|p|p|p|p|p] Hl; unfold object_value, object_footprint in *; by destruct (frame h h' p Hl) as [-> ->].
  - intros h [p|p|p|p|p|p|p|p|p|p] v Hv; unfold object_value, object_footprint in *; destruct (value h p) eqn:E; try done; by eapply bounded.
Defined.

Definition is_nil (o : KObject) : bool :=
  match o with
  | OTarget p => bool_decide (ptr_addr p = None) | OTargetList p => bool_decide (ptr_addr p = None)
  | OOwnership p => bool_decide (ptr_addr p = None) | OOwnershipList p => bool_decide (ptr_addr p = None)
  | OPolicy p => bool_decide (ptr_addr p = None) | OPolicyList p => bool_decide (ptr_addr p = None)
  | OPlan p => bool_decide (ptr_addr p = None) | OPlanList p => bool_decide (ptr_addr p = None)
  | OStatus p => bool_decide (ptr_addr p = None) | OStatusList p => bool_decide (ptr_addr p = None)
  end.

(** A new pointer of the same kind. *)
Lemma new_copy_spec `{Storable KCell T, Mem KCell T V} (inj : Ptr T -> KObject) (inv : option V -> ObjectValue) (f : T -> G KCell T) h p v :
  deep f -> (forall h q, value h (inj q) = inv <$> value h q) -> (forall h q, footprint h (inj q) = footprint h q) ->
  ptr_addr p <> None -> value h (inj p) = Some v ->
  exists h' o', new_copy inj f p h = Some (h', Some o') /\ h ⊆ h' /\ copied h v o' h'.
Proof.
  intros Hf Hv Hfp Hp E. rewrite Hv in E. destruct (value h p) as [vp|] eqn:Ep; [|done]. injection E as <-.
  destruct (deep_ptr f Hf h h p vp) as (h' & q & Eq & Hsub & [Vq Fq]); [done|done|]. exists h', (inj q). split; [|split; [done|]].
  - unfold new_copy. destruct (ptr_addr p) eqn:Ea; [|done]. unfold gbind. by rewrite Eq.
  - split; [by rewrite Hv, Vq|by rewrite Hfp].
Qed.

(** C16. A copy is deep, for every kind of API object and its lists: the copy stands
    for the same value, nothing that existed before was changed or is part of it,
    so that whatever is written through the copy leaves the original as it was, and
    whatever is written through the original leaves the copy as it was.  A nil
    object has no copy. *)
Theorem DeepCopyObject_deep (o : KObject) h v : value h o = Some v ->
  if is_nil o then DeepCopyObject o h = Some (h, None)
  else exists h' o', DeepCopyObject o h = Some (h', Some o') /\ h ⊆ h' /\ value h' o' = Some v /\ footprint h' o' ## dom h
    /\ (forall h2, (forall l, l ∉ footprint h' o' -> h2 !! l = h' !! l) -> value h2 o = Some v)
    /\ (forall h2, (forall l, l ∉ footprint h' o -> h2 !! l = h' !! l) -> value h2 o' = Some v).
Proof.
  intros Hv. assert (is_nil o = false -> exists h' o', DeepCopyObject o h = Some (h', Some o') /\ h ⊆ h' /\ copied h v o' h') as Hcopy.
  { destruct o; cbn [is_nil]; intros Hn%bool_decide_eq_false; cbn [DeepCopyObject].
    all: eapply new_copy_spec; [|intros; reflexivity|intros; reflexivity|exact Hn|exact Hv].
    all: unfold copy_target_list, copy_ownership_list, copy_policy_list, copy_plan_list, copy_status_list.
    all: auto using deep_target, deep_ownership, deep_policy, deep_plan, deep_status, deep_list. }
  destruct (is_nil o) eqn:En.
  - clear Hcopy Hv. destruct o; cbn in *; apply bool_decide_eq_true in En; unfold new_copy; by rewrite En.
  - destruct (Hcopy eq_refl) as (h' & o' & Ec & Hsub & Hc). exists h', o'. split; [done|]. split; [done|]. split; [apply Hc|].
    split; [apply Hc|]. by apply (copied_isolated h).
Qed.

(** [cloneDefinition] and [cloneDefinitions]: callers of the runtime manager cannot
    change the definitions it runs, nor it theirs. *)
Theorem cloneDefinitions_deep (l : list (TargetDefinition Kmem)) h (v : list (TargetDefinition Kval)) : value (Cell := KCell) h l = Some v ->
  exists h' l', cloneDefinitions l h = Some (h', l') /\ h ⊆ h' /\ value h' l' = Some v
    /\ (forall h2, (forall x, x ∉ footprint (V := list (TargetDefinition Kval)) h' l' -> h2 !! x = h' !! x) -> value h2 l = Some v)
    /\ (forall h2, (forall x, x ∉ footprint (V := list (TargetDefinition Kval)) h' l -> h2 !! x = h' !! x) -> value h2 l' = Some v).
Proof.
  intros Hv. destruct (deep_each _ deep_definition h h l v) as (h' & l' & E & Hsub & Hc); [done|done|].
  exists h', l'. split; [done|]. split; [done|]. split; [apply Hc|]. by apply (copied_isolated h).
Qed.
End laws.
