(* ===== verification/DynamicStore.v ===== *)
(** * Claims behind the dynamic client

    [DynamicStore] of internal/ownership/repository.go and the conversions of
    internal/apis/v1alpha1/conversion.go: claims as the unstructured objects of
    client-go's dynamic client.  The converter of apimachinery and the API server
    are interfaces; against them the store is shown to be a [ClaimServer], so that
    everything proved of claims holds for it. *)
From S2P Require Import Prelude Effects GoStrings GoEncoding Claims Manager ClaimsLaws ClaimHistory.

(** ** conversion.go *)

(** [runtime.DefaultUnstructuredConverter], and [GetName] of an object. *)
Class Converter (U : Type) := {
  conv_To : Claim -> result string U;
  conv_From : U -> result string Claim;
  GetName : U -> string }.

Section store.
Context {W U : Type} `{Converter U}.

Definition ToUnstructured (obj : option Claim) : result string U :=
  match obj with
  | None => Err "cannot convert a nil API object"
  | Some c => match conv_To c with Ok u => Ok u | Err e => Err ("convert *v1alpha1.FortiGateDNSRecordOwnership to unstructured: " +:+ e) end
  end.

(** The name of an API object needs no escapes in quotes. *)
Definition ownershipFromUnstructured (object : U) : result string Claim :=
  match conv_From object with
  | Ok c => Ok c
  | Err e => Err ("convert ownership claim " +:+ quote +:+ GetName object +:+ quote +:+ ": " +:+ e)
  end.

(** ** DynamicStore *)

(** [dynamic.ResourceInterface], and the clock; the precondition of a deletion is
    optional. *)
Record DynamicResource := mkDynamicResource {
  dyn_Get : string -> M W APIError U;
  dyn_List : M W APIError (list U);
  dyn_Create : U -> M W APIError U;
  dyn_Update : U -> M W APIError U;
  dyn_UpdateStatus : U -> M W APIError U;
  dyn_Delete : string -> option string -> M W APIError unit;
  dyn_now : W -> Z }.

Context (resource : DynamicResource).

Definition converted {A} (r : result string A) : M W APIError A := lift (match r with Ok a => Ok a | Err e => Err (OtherError e) end).

Definition DynamicStore_Get (name : string) : M W APIError Claim :=
  let! object := dyn_Get resource name in converted (ownershipFromUnstructured object).

Fixpoint convert_all (l : list U) : result string (list Claim) :=
  match l with
  | [] => Ok []
  | u :: l => let? c := ownershipFromUnstructured u in let? cs := convert_all l in Ok (c :: cs)
  end.

Definition DynamicStore_List : M W APIError (list Claim) := let! list := dyn_List resource in converted (convert_all list).

(** [Create], [Update] and [UpdateStatus]: there and back. *)
Definition converted_call (call : U -> M W APIError U) (claim : Claim) : M W APIError Claim :=
  let! object := converted (ToUnstructured (Some claim)) in
  let! stored := call object in
  converted (ownershipFromUnstructured stored).

Definition DynamicStore_Create : Claim -> M W APIError Claim := converted_call (dyn_Create resource).
Definition DynamicStore_Update : Claim -> M W APIError Claim := converted_call (dyn_Update resource).
Definition DynamicStore_UpdateStatus : Claim -> M W APIError Claim := converted_call (dyn_UpdateStatus resource).

Definition DynamicStore_Delete (name expectedResourceVersion : string) : M W APIError unit :=
  dyn_Delete resource name (if expectedResourceVersion =s "" then None else Some expectedResourceVersion).

Definition DynamicStore : ClaimStore W :=
  mkClaimStore DynamicStore_Get DynamicStore_List DynamicStore_Create DynamicStore_Update DynamicStore_UpdateStatus DynamicStore_Delete (dyn_now resource).
End store.
Arguments DynamicResource W U : clear implicits.

(** [NewDynamicStore]. *)
Definition NewDynamicStore {W U} `{Converter U} (client : option (string -> DynamicResource W U)) (namespace : string) : result string (ClaimStore W) :=
  match client with
  | None => Err "dynamic ownership client is required"
  | Some resource => if TrimSpace namespace =s "" then Err "ownership namespace is required" else Ok (DynamicStore (resource namespace))
  end.

(** ** The interfaces *)

(** A converter works field by field: identity, spec and status of an object are
    those of the claim, and what was written is read back, times to the second. *)
Class ConverterLaws (U : Type) `{Converter U} := {
  u_key : U -> string * string;               (* metadata.name, metadata.resourceVersion *)
  u_spec : U -> U;                            (* the object with nothing but its spec, its status *)
  u_status : U -> U;
  u_started : U -> bool;                      (* there is a phase *)
  To_From c u : conv_To c = Ok u -> conv_From u = Ok (with_status (wire_status (Cl_Status c)) c);
  From_key u c : conv_From u = Ok c -> version_key c = u_key u;
  From_spec u c u' c' : conv_From u = Ok c -> conv_From u' = Ok c' -> u_spec u = u_spec u' -> Cl_Spec c = Cl_Spec c';
  From_status u c u' c' : conv_From u = Ok c -> conv_From u' = Ok c' -> u_status u = u_status u' -> Cl_Status c = Cl_Status c';
  From_started u c : conv_From u = Ok c -> u_started u = false -> phase_of c = "" }.

Section server.
Context {W U : Type} `{ConverterLaws U} (dhist : W -> gmap (string * string) U) (dothers : U -> Prop).

Definition dgrows (mine : U -> Prop) (w w' : W) : Prop :=
  dhist w ⊆ dhist w' /\ forall k u, dhist w' !! k = Some u -> dhist w !! k = Some u \/ dothers u \/ mine u.
Definition dbased_on (f : U -> U -> Prop) (key : string * string) (w w' : W) (r : U) : Prop :=
  exists old, dhist w' !! key = Some old /\ (dhist w !! key = Some old \/ dothers old) /\ f old r.

Definition dcreated (u r : U) : Prop := (u_key r).1 = (u_key u).1 /\ u_spec r = u_spec u /\ u_started r = false.
Definition dupdated (u old r : U) : Prop := (u_key r).1 = (u_key u).1 /\ u_spec r = u_spec u /\ u_status r = u_status old.
Definition dstatus_updated (u old r : U) : Prop := (u_key r).1 = (u_key u).1 /\ u_spec r = u_spec old /\ u_status r = u_status u.
Definition dtouched (old r : U) : Prop := u_spec r = u_spec old /\ u_status r = u_status old.

(** The API server by the unstructured objects it has stored: it keeps versions for
    ever, admits only objects of the schema, separates spec from status, and checks
    the version a request is based on. *)
Class DynamicServer (resource : DynamicResource W U) : Prop := {
  ds_valid w k u : dhist w !! k = Some u -> u_key u = k /\ exists c, conv_From u = Ok c;
  ds_others u : dothers u -> exists c, conv_From u = Ok c;
  ds_Get n w w' r : dyn_Get resource n w = (w', r) -> dgrows (fun _ => False) w w' /\
    (forall u, r = Ok u -> dhist w' !! u_key u = Some u /\ (u_key u).1 = n);
  ds_List w w' r : dyn_List resource w = (w', r) -> dgrows (fun _ => False) w w' /\
    (forall l u, r = Ok l -> u ∈ l -> dhist w' !! u_key u = Some u);
  ds_Create u w w' r : dyn_Create resource u w = (w', r) -> dgrows (dcreated u) w w' /\
    (forall x, r = Ok x -> dhist w' !! u_key x = Some x /\ dcreated u x);
  ds_Update u w w' r : dyn_Update resource u w = (w', r) -> dgrows (dbased_on (dupdated u) (u_key u) w w') w w' /\
    (forall x, r = Ok x -> dhist w' !! u_key x = Some x /\ dbased_on (dupdated u) (u_key u) w w' x);
  ds_UpdateStatus u w w' r : dyn_UpdateStatus resource u w = (w', r) -> dgrows (dbased_on (dstatus_updated u) (u_key u) w w') w w' /\
    (forall x, r = Ok x -> dhist w' !! u_key x = Some x /\ dbased_on (dstatus_updated u) (u_key u) w w' x);
  ds_Delete n rv w w' r : dyn_Delete resource n rv w = (w', r) ->
    exists found, (forall v, rv = Some v -> found = v) /\ dgrows (dbased_on dtouched (n, found) w w') w w' }.
End server.

(** ** The refinement *)

Section refinement.
Context {W U : Type} `{ConverterLaws U} (dhist : W -> gmap (string * string) U) (dothers : U -> Prop) (resource : DynamicResource W U).
Context `{!DynamicServer dhist dothers resource}.

(** The history a reader of claims sees. *)
Definition decode (u : U) : option Claim := match conv_From u with Ok c => Some c | Err _ => None end.
Definition claims_of (w : W) : gmap (string * string) Claim := omap decode (dhist w).
Definition other_claims (c : Claim) : Prop := exists u, dothers u /\ conv_From u = Ok c.

Lemma claims_lookup w k c : claims_of w !! k = Some c <-> exists u, dhist w !! k = Some u /\ conv_From u = Ok c.
Proof.
  unfold claims_of. rewrite lookup_omap_Some. unfold decode. split; intros (u & Hu & Hd); exists u.
  - destruct (conv_From u); by simplify_eq.
  - rewrite Hd. done.
Qed.

Lemma claims_stored w u c : dhist w !! u_key u = Some u -> conv_From u = Ok c -> stored claims_of w c.
Proof. intros Hu Hc. unfold stored. rewrite (From_key _ _ Hc). apply claims_lookup. eauto. Qed.

Lemma claims_grow dmine mine w w' : dgrows dhist dothers dmine w w' -> (forall u c, dmine u -> conv_From u = Ok c -> mine c) ->
  grows claims_of other_claims mine w w'.
Proof.
  intros [Hsub Hnew] Hm. split.
  - apply map_subseteq_spec. intros k c Hk. apply claims_lookup in Hk as (u & Hu & Hc). apply claims_lookup. exists u. split; [by eapply lookup_weaken|done].
  - intros k c Hk. apply claims_lookup in Hk as (u & Hu & Hc). destruct (Hnew k u Hu) as [Hold|[Ho|Hmine]].
    + left. apply claims_lookup. eauto.
    + right. left. by exists u.
    + right. right. eauto.
Qed.

Lemma claims_based df f key w w' u c : dbased_on dhist dothers df key w w' u -> conv_From u = Ok c ->
  (forall old co, df old u -> conv_From old = Ok co -> f co c) -> based_on claims_of other_claims f key w w' c.
Proof.
  intros (old & Hk & Hwas & Hf) Hc Hff. destruct (ds_valid dhist dothers w' key old Hk) as (_ & co & Hco). exists co. split; [apply claims_lookup; eauto|].
  split; [|eauto]. destruct Hwas as [Hw|Ho]; [left; apply claims_lookup; eauto|right; by exists old].
Qed.

(** What a request said, read back from what it sent. *)
Lemma name_of u v c d : conv_From u = Ok c -> conv_From v = Ok d -> (u_key u).1 = (u_key v).1 -> Cl_Name c = Cl_Name d.
Proof. intros Hc Hd E. rewrite <- (From_key _ _ Hc), <- (From_key _ _ Hd) in E. exact E. Qed.

Lemma created_back u r c x : conv_From u = Ok c -> conv_From r = Ok x -> dcreated u r -> created_from c x.
Proof.
  intros Hc Hx (Hn & Hs & Hst). split; [by eapply name_of|]. split; [by eapply From_spec|by eapply From_started].
Qed.
Lemma updated_back u old r c o x : conv_From u = Ok c -> conv_From old = Ok o -> conv_From r = Ok x -> dupdated u old r -> updated_from c o x.
Proof. intros Hc Ho Hx (Hn & Hs & Hst). split; [by eapply name_of|]. split; [by eapply From_spec|by eapply From_status]. Qed.
Lemma status_updated_back u old r c o x : conv_From u = Ok c -> conv_From old = Ok o -> conv_From r = Ok x -> dstatus_updated u old r -> Cl_Name x = Cl_Name c /\ Cl_Spec x = Cl_Spec o /\ Cl_Status x = Cl_Status c.
Proof. intros Hc Ho Hx (Hn & Hs & Hst). split; [by eapply name_of|]. split; [by eapply From_spec|by eapply From_status]. Qed.
Lemma touched_back old r o x : conv_From old = Ok o -> conv_From r = Ok x -> dtouched old r -> touched_from o x.
Proof. intros Ho Hx (Hs & Hst). split; [by eapply From_spec|by eapply From_status]. Qed.

Lemma grows_same w : grows claims_of other_claims (fun _ => False) w w.
Proof. split; [done|auto]. Qed.
Lemma grows_weaken mine mine' w w' : grows claims_of other_claims mine w w' -> (forall c, mine c -> mine' c) -> grows claims_of other_claims mine' w w'.
Proof. intros [Hs Hn] Hm. split; [done|]. intros k c Hk. destruct (Hn k c Hk) as [?|[?|?]]; auto. Qed.

(** A call there and back: nothing was sent, or the request was, and its answer was read. *)
Lemma converted_call_run (call : U -> M W APIError U) c w w' r : converted_call call c w = (w', r) ->
  (w' = w /\ exists e, r = Err e) \/
  exists u r1, conv_From u = Ok (with_status (wire_status (Cl_Status c)) c) /\ call u w = (w', r1) /\ forall x, r = Ok x -> exists v, r1 = Ok v /\ conv_From v = Ok x.
Proof.
  unfold converted_call, converted, ToUnstructured, bind, lift. destruct (conv_To c) as [u|] eqn:Eu; [|intros [= <- <-]; left; eauto].
  destruct (call u w) as [w1 [v|e]] eqn:Ec; intros E; right; exists u; eexists; (split; [by apply To_From|]).
  - unfold ownershipFromUnstructured in E. destruct (conv_From v) as [x|] eqn:Ex; injection E as <- <-; (split; [exact Ec|]); intros y [= <-]; eauto.
  - injection E as <- <-. split; [exact Ec|]. done.
Qed.

Lemma convert_all_ok l cs : convert_all l = Ok cs -> forall c, c ∈ cs -> exists u, u ∈ l /\ conv_From u = Ok c.
Proof.
  revert cs. induction l as [|u l IH]; intros cs E c Hc; cbn in E; [injection E as <-; by apply elem_of_nil in Hc|].
  unfold ownershipFromUnstructured in E. destruct (conv_From u) as [d|] eqn:Ed; [|done]. cbn in E. destruct (convert_all l) as [ds|]; [|done].
  injection E as <-. apply elem_of_cons in Hc as [-> |Hc]; [exists u; split; [left|done]|]. destruct (IH ds eq_refl c Hc) as (v & Hv & ?).
  exists v. split; [by right|done].
Qed.

(** A call that changes the version it is based on. *)
Lemma based_call (call : U -> M W APIError U) (df : U -> U -> U -> Prop) (f : Claim -> Claim -> Claim -> Prop) c w w' r :
  (forall u v v' r, call u v = (v', r) -> dgrows dhist dothers (dbased_on dhist dothers (df u) (u_key u) v v') v v' /\
     (forall x, r = Ok x -> dhist v' !! u_key x = Some x /\ dbased_on dhist dothers (df u) (u_key u) v v' x)) ->
  (forall u old x c co cx, conv_From u = Ok (with_status (wire_status (Cl_Status c)) c) -> conv_From old = Ok co -> conv_From x = Ok cx -> df u old x -> f c co cx) ->
  converted_call call c w = (w', r) ->
  grows claims_of other_claims (based_on claims_of other_claims (f c) (version_key c) w w') w w' /\
  (forall x, r = Ok x -> stored claims_of w' x /\ based_on claims_of other_claims (f c) (version_key c) w w' x).
Proof.
  intros Hcall Hf E. destruct (converted_call_run _ _ _ _ _ E) as [[-> [e ->]]|(u & r1 & Hc & Ec & Hr)].
  { split; [by eapply grows_weaken; [apply grows_same|]|done]. }
  destruct (Hcall u w w' r1 Ec) as [Hg Hs]. pose proof (From_key _ _ Hc) as Hkey. change (version_key c = u_key u) in Hkey. rewrite Hkey.
  assert (forall v x, dbased_on dhist dothers (df u) (u_key u) w w' v -> conv_From v = Ok x ->
    based_on claims_of other_claims (f c) (u_key u) w w' x) as Hb.
  { intros v x Hv Hx. eapply claims_based; [done..|]. intros old co Hd Ho. by eapply Hf. }
  split; [by eapply claims_grow|]. intros x Hx. destruct (Hr x Hx) as (v & -> & Hv). destruct (Hs v eq_refl) as [Hst Hd].
  split; [by eapply claims_stored|eauto].
Qed.

(** The store behind the dynamic client is a claim server: over any API server
    that keeps unstructured objects as Kubernetes documents, reading returns stored
    claims, creating stores the requested record without a phase, updates and status
    updates (times to the second) change their own half of the version they are based on, and a deletion
    touches only the version it expects; conversion errors, also after a request was
    carried out, are covered. *)
Theorem DynamicStore_refines : ClaimServer claims_of other_claims (DynamicStore resource).
Proof.
  split; cbn [store_Get store_List store_Create store_Update store_UpdateStatus store_Delete DynamicStore].
  - intros n w w' r E. unfold DynamicStore_Get, bind in E. destruct (dyn_Get resource n w) as [w1 [u|e]] eqn:Eg.
    all: destruct (ds_Get dhist dothers n w w1 _ Eg) as [Hg Hs]; pose proof (claims_grow _ (fun _ => False) _ _ Hg ltac:(done)) as Hg'.
    + unfold converted, lift, ownershipFromUnstructured in E. destruct (Hs u eq_refl) as [Hu Hn].
      destruct (conv_From u) as [c|] eqn:Ec; injection E as <- <-; (split; [done|]); intros x [= <-].
      split; [by eapply claims_stored|]. pose proof (From_key _ _ Ec) as Hk. rewrite <- Hk in Hn. exact Hn.
    + injection E as <- <-. split; [done|]. done.
  - intros w w' r E. unfold DynamicStore_List, bind in E. destruct (dyn_List resource w) as [w1 [l|e]] eqn:Eg.
    all: destruct (ds_List dhist dothers w w1 _ Eg) as [Hg Hs]; pose proof (claims_grow _ (fun _ => False) _ _ Hg ltac:(done)) as Hg'.
    + unfold converted, lift in E. destruct (convert_all l) as [cs|] eqn:Ec; injection E as <- <-; (split; [done|]); intros x c [= <-] Hc.
      destruct (convert_all_ok l cs Ec c Hc) as (u & Hu & Hd). eapply claims_stored; [by eapply Hs|done].
    + injection E as <- <-. split; [done|]. done.
  - intros c w w' r E. destruct (converted_call_run _ _ _ _ _ E) as [[-> [e ->]]|(u & r1 & Hc & Ec & Hr)].
    { split; [by eapply grows_weaken; [apply grows_same|]|done]. }
    destruct (ds_Create dhist dothers u w w' r1 Ec) as [Hg Hs]. split; [eapply claims_grow; [done|]; intros; by eapply (created_back u _ _ _ Hc)|].
    intros x Hx. destruct (Hr x Hx) as (v & -> & Hv). destruct (Hs v eq_refl) as [Hst Hd]. split; [by eapply claims_stored|by eapply (created_back u _ _ _ Hc)].
  - intros c w w' r. apply (based_call _ dupdated); [apply (ds_Update dhist dothers)|intros u old x c' co cx Hu Ho Hx Hd; exact (updated_back u old x _ co cx Hu Ho Hx Hd)].
  - intros c w w' r. apply (based_call _ dstatus_updated); [apply (ds_UpdateStatus dhist dothers)|intros u old x c' co cx Hu Ho Hx Hd; exact (status_updated_back u old x _ co cx Hu Ho Hx Hd)].
  - intros n rv w w' r E. unfold DynamicStore_Delete in E. destruct (ds_Delete dhist dothers _ _ _ _ _ E) as (found & Hf & Hg).
    exists found. split.
    + intros Hrv. destruct (rv =s "") eqn:Er; bools; [done|by apply Hf].
    + eapply claims_grow; [done|]. intros u c Hu Hc. eapply claims_based; [done..|]. intros old co Ht Ho. by eapply touched_back.
Qed.
End refinement.
