(* ===== verification/DynamicExamples.v ===== *)
(** * A concrete API machinery

    Metadata as a name with a map of labels, copied like [ObjectMeta] does; a
    converter for claims and an API server behind it.  The theorems about copies
    and about the store behind the dynamic client are applied to them. *)
From Stdlib Require Import String ZArith.
From S2P Require Import Prelude Effects GoStrings Claims Manager ClaimsLaws ClaimHistory SharedLaws ClaimExamples DynamicStore.
From S2P Require Import Memory Targets Policy StatusWriter ApiObjects ApiObjectsLaws.
Open Scope string_scope.
Open Scope list_scope.
Open Scope Z_scope.
Open Scope go_scope.

(** ** Metadata *)

Definition Meta : Type := string * Ptr (gmap string string).
Definition VMeta : Type := string * option (gmap string string).

#[export] Instance machinery : @ApiMachinery Meta string string VMeta string string unit :=
  {| mem_meta := prod_mem; mem_lmeta := mem_string; mem_selector := mem_string;
     ObjectMeta_DeepCopy := copy_pair gret copy_flat; ListMeta_DeepCopy := gret; LabelSelector_DeepCopy := gret |}.
#[export] Instance machinery_laws : ApiMachineryLaws.
Proof. split; [apply deep_pair; [apply deep_flat|apply deep_ptr, deep_flat]|apply deep_flat|apply deep_flat]. Qed.

#[local] Notation Kmem := (@mem Meta string string).

(** A change plan with an operation that has a prerequisite, at address 1. *)
Definition create_operation : PlanOperation Kmem :=
  mkApiOperation Kmem "op-1" "create" (mkRecordKey "www.example.com" "A" "10.0.0.1") 300 "" "" (mkSlice (Some 4%positive)).
Definition stored_plan : FortiGateDNSChangePlan Kmem :=
  mkDNSChangePlan Kmem (mkTypeMeta "FortiGateDNSChangePlan" "v1alpha1") ("plan", mkPtr (Some 2%positive))
    (mkChangePlanSpec Kmem "v1" "edge" "hash" "{}" "r1" 1 0 (mkPtr (Some 2%positive)) (mkSlice (Some 3%positive)) nil_ptr)
    (mkChangePlanStatus Kmem "Approved" 1 nil_slice nil_ptr nil_slice).
Definition plan_heap : gmap loc (@Cell Meta string string unit) :=
  list_to_map [(1%positive, CPlan stored_plan); (2%positive, CMap {["a" := "1"]}); (3%positive, COperations [create_operation]);
    (4%positive, CStrings ["op-0"])].

(** The copy has cells of its own. *)
Definition plan_copy : option (gmap loc (@Cell Meta string string unit) * option (@Object Meta string string)) := DeepCopyObject (OPlan (mkPtr (Some 1%positive))) plan_heap.

Lemma DeepCopyObject_deep_witness : exists h' o' v, plan_copy = Some (h', Some o') /\ value h' o' = Some v /\ footprint h' o' ## dom plan_heap.
Proof.
  set (o := OPlan (Meta := Meta) (LMeta := string) (Sel := string) (mkPtr (Some 1%positive))).
  destruct (value plan_heap o) as [v|] eqn:Ev; [|vm_compute in Ev; discriminate Ev].
  destruct (DeepCopyObject_deep o plan_heap v Ev) as (h' & o' & E & _ & Hv & Hf & _). exists h', o', v. auto.
Defined.

(** ** A converter and the server *)

Definition no_status : ClaimStatus := mkClaimStatus "" "" None.
Definition no_spec : ClaimSpec := mkClaimSpec "" "" (mkRecordKey "" "" "") "" [] "" false.
Definition bare (s : ClaimSpec) (t : ClaimStatus) : Claim := mkClaim "" "" "" "" [] false s t.

(** An object without a name does not convert. *)
#[export] Instance claim_converter : Converter Claim :=
  {| conv_To c := if Cl_Name c =s "" then Err "no name" else Ok (with_status (wire_status (Cl_Status c)) c); conv_From c := Ok (with_status (wire_status (Cl_Status c)) c); GetName := Cl_Name |}.
#[export] Instance claim_converter_laws : ConverterLaws Claim.
Proof.
  refine {| u_key := version_key; u_spec c := bare (Cl_Spec c) no_status; u_status c := bare no_spec (wire_status (Cl_Status c)); u_started c := negb (phase_of c =s "") |}.
  - intros c u. unfold conv_To, conv_From, claim_converter. destruct (Cl_Name c =s ""); intros [= <-].
    unfold with_status. cbn [Cl_Status Cl_Namespace Cl_Name Cl_UID ResourceVersion Finalizers Cl_Deleting Cl_Spec]. by rewrite wire_status_idem.
  - by intros u c [= <-].
  - by intros u c u' c' [= <-] [= <-] [= E].
  - intros u c u' c' [= <-] [= <-] E. exact (f_equal Cl_Status E).
  - intros u c [= <-] E. by bools.
Defined.

Definition dynamic_server : DynamicResource world Claim := mkDynamicResource
  (store_Get server) (store_List server) (store_Create server) (store_Update server) (store_UpdateStatus server)
  (fun n rv w => match rv with
                 | Some v => store_Delete server n v w
                 | None => match current w.1 n with None => (w, Err NotFound) | Some c => store_Delete server n (ResourceVersion c) w end
                 end)
  (store_now server).

(** The claim server's laws, in the terms of the dynamic client. *)
Lemma grows_dynamic (mine mine' : Claim -> Prop) (w w' : world) : grows claim_history bound mine w w' -> (forall c, mine c -> mine' c) ->
  dgrows claim_history bound mine' w w'.
Proof. intros [Hs Hn] Hm. split; [done|]. intros k u Hk. destruct (Hn k u Hk) as [?|[?|?]]; auto. Qed.
Lemma based_dynamic (f g : Claim -> Claim -> Prop) key (w w' : world) r : (forall old r, f old r -> g old r) ->
  based_on claim_history bound f key w w' r -> dbased_on claim_history bound g key w w' r.
Proof. intros Hfg (old & Hk & Ho & Hf). exists old. auto. Qed.

Lemma created_dynamic c r : created_from c r -> dcreated c r.
Proof. intros (Hn & Hs & Hp). split; [done|]. cbn. split; [by rewrite Hs|]. by rewrite Hp. Qed.
Lemma updated_dynamic c old r : updated_from c old r -> dupdated c old r.
Proof. intros (Hn & Hs & Hp). split; [done|]. cbn. by rewrite Hs, Hp. Qed.
Lemma status_updated_dynamic c old r : status_updated_from c old r -> dstatus_updated c old r.
Proof. intros (Hn & Hs & Hp). split; [done|]. cbn. by rewrite Hs, Hp, wire_status_idem. Qed.
Lemma touched_dynamic old r : touched_from old r -> dtouched old r.
Proof. intros (Hs & Hp). unfold dtouched. cbn. by rewrite Hs, Hp. Qed.
#[local] Hint Resolve created_dynamic updated_dynamic status_updated_dynamic touched_dynamic based_dynamic grows_dynamic : core.

Lemma same_dynamic mine (w : world) : dgrows claim_history bound mine w w.
Proof. split; auto. Qed.
Lemma delete_dynamic n v (w w' : world) r : store_Delete server n v w = (w', r) ->
  dgrows claim_history bound (dbased_on claim_history bound dtouched (n, v) w w') w w'.
Proof.
  intros E. apply guarded_run in E as [[-> _]|(old & Ho & Hn & [= <- <-])]; [apply same_dynamic|].
  eapply grows_dynamic; [by eapply (append_based bound touched_from (n, v) w old)|eauto].
Qed.

#[export] Instance dynamic_server_laws : DynamicServer claim_history bound dynamic_server.
Proof.
  split; cbn [dyn_Get dyn_List dyn_Create dyn_Update dyn_UpdateStatus dyn_Delete dynamic_server].
  - intros w k u Hk. split; [|eauto]. by apply history_lookup in Hk as (b & _ & Hk).
  - intros u _. cbn. eauto.
  - intros n w w' r E. destruct (cs_Get claim_history bound n w w' r E) as [Hg Hs]. eauto.
  - intros w w' r E. destruct (cs_List claim_history bound w w' r E) as [Hg Hs]. eauto.
  - intros c w w' r E. destruct (cs_Create claim_history bound c w w' r E) as [Hg Hs]. split; [eauto|]. intros x Hx. destruct (Hs x Hx). eauto.
  - intros c w w' r E. destruct (cs_Update claim_history bound c w w' r E) as [Hg Hs]. split; [eauto 6|]. intros x Hx. destruct (Hs x Hx). eauto.
  - intros c w w' r E. destruct (cs_UpdateStatus claim_history bound c w w' r E) as [Hg Hs]. split; [eauto 6|]. intros x Hx. destruct (Hs x Hx). eauto.
  - intros n [v|] w w' r E.
    + exists v. split; [by intros ? [= ->]|by eapply delete_dynamic].
    + destruct (current w.1 n) as [c|] eqn:Ec; [exists (ResourceVersion c); split; [done|by eapply delete_dynamic]|].
      injection E as <- <-. exists "". split; [done|apply same_dynamic].
Qed.

(** Behind the dynamic client the server is a claim server still. *)
Lemma DynamicStore_refines_witness :
  ClaimServer (claims_of claim_history) (other_claims bound) (DynamicStore dynamic_server).
Proof. apply (DynamicStore_refines claim_history bound dynamic_server). Defined.
