(* ===== verification/Secrets.v ===== *)
(** * Secrets

    What the program shows of a token, and what it leaves of it in memory:
    [Redacted] of internal/config/config.go, the redaction of a client factory's
    error in [Sync] of internal/target/runtime.go, and the credential material of
    internal/target/credentials.go, whose bytes live in a heap. *)
From Stdlib Require Import String Ascii ZArith Lia.
From S2P Require Import Prelude GoStrings GoEncoding Settings Targets Runtimes Memory.
Open Scope string_scope.
Open Scope list_scope.
Open Scope Z_scope.
Open Scope go_scope.

(** ** The logged configuration *)

(** [url.URL]; path, host, user and fragment in their escaped form. *)
Record ParsedURL := mkParsedURL {
  PU_Scheme : string; PU_Opaque : string; PU_User : option string; PU_Host : string; PU_Path : string; PU_OmitHost : bool;
  PU_ForceQuery : bool; PU_RawQuery : string; PU_Fragment : string }.

(** [String] of net/url; without scheme and host a path may get a prefix, which is
    not looked at here. *)
Definition URL_String (u : ParsedURL) : string :=
  let written := negb (PU_Scheme u =s "") || negb (PU_Host u =s "") || bool_decide (PU_User u <> None) in
  let authority :=
    if negb written || (PU_OmitHost u && (PU_Host u =s "") && bool_decide (PU_User u = None)) then ""
    else (if negb (PU_Host u =s "") || negb (PU_Path u =s "") || bool_decide (PU_User u <> None) then "//" else "")
         +:+ (match PU_User u with Some ui => ui +:+ "@" | None => "" end) +:+ PU_Host u in
  let slash := if negb (PU_Path u =s "") && negb (String.prefix "/" (PU_Path u)) && negb (PU_Host u =s "") then "/" else "" in
  (if PU_Scheme u =s "" then "" else PU_Scheme u +:+ ":")
  +:+ (if PU_Opaque u =s "" then authority +:+ slash +:+ PU_Path u else PU_Opaque u)
  +:+ (if PU_ForceQuery u || negb (PU_RawQuery u =s "") then "?" +:+ PU_RawQuery u else "")
  +:+ (if PU_Fragment u =s "" then "" else "#" +:+ PU_Fragment u).

Inductive any := AString (s : string) | ABool (b : bool) | AInt (n : Z).

Section redacted.
Context (Parse : string -> option ParsedURL) (Duration_String : Z -> string).

Definition redactedBaseURL (raw : string) : string :=
  match Parse raw with
  | None => "<invalid>"
  | Some parsed =>
      if (PU_Scheme parsed =s "") || (PU_Host parsed =s "") then "<invalid>"
      else URL_String (mkParsedURL (PU_Scheme parsed) (PU_Opaque parsed) None (PU_Host parsed) (PU_Path parsed) (PU_OmitHost parsed) false "" "")
  end.

Definition Redacted (c : FortiGateConfig) : gmap string any :=
  list_to_map
    [("baseURL", AString (redactedBaseURL (FG_BaseURL c))); ("vdom", AString (FG_VDOM c)); ("zone", AString (FG_Zone c));
     ("insecureSkipVerify", ABool (FG_InsecureSkipVerify c)); ("exclusiveZoneOwnership", ABool (FG_ExclusiveZoneOwnership c));
     ("caFile", AString (FG_CAFile c)); ("timeout", AString (Duration_String (FG_Timeout c))); ("retries", AInt (FG_Retries c));
     ("apiToken", AString "<redacted>")].

(** Everything of a configuration but its token, the bytes of its CA, and the user,
    query and fragment of its URL. *)
Definition public_url (raw : string) : option (string * string * string * string * bool) :=
  u ← Parse raw; Some (PU_Scheme u, PU_Opaque u, PU_Host u, PU_Path u, PU_OmitHost u).
Definition public_part (c : FortiGateConfig) :=
  (public_url (FG_BaseURL c), FG_VDOM c, FG_Zone c, FG_InsecureSkipVerify c, FG_ExclusiveZoneOwnership c, FG_CAFile c, FG_Timeout c, FG_Retries c).

Lemma redactedBaseURL_public raw raw' : public_url raw = public_url raw' -> redactedBaseURL raw = redactedBaseURL raw'.
Proof.
  unfold public_url, redactedBaseURL. destruct (Parse raw) as [u|], (Parse raw') as [u'|]; try done. cbn. by intros [= -> -> -> -> ->].
Qed.

(** The configuration that is logged does not depend on its secrets: two
    configurations that differ only in the token, the CA bytes, or the user,
    query and fragment of the URL are logged alike. *)
Theorem Redacted_hides_secrets c c' : public_part c = public_part c' -> Redacted c = Redacted c'.
Proof.
  unfold public_part. intros E. injection E as Eu Ev Ez Ei Ee Ef Et Er. unfold Redacted.
  by rewrite (redactedBaseURL_public _ _ Eu), Ev, Ez, Ei, Ee, Ef, Et, Er.
Qed.
End redacted.

(** ** The log line of a failed client *)

(** [strings.ReplaceAll] for a non-empty [old]: leftmost matches, none overlapping;
    [skip] bytes belong to the last one. *)
Fixpoint replace_bytes (old new : list ascii) (skip : nat) (s : list ascii) : list ascii :=
  match s with
  | [] => []
  | c :: s' =>
      match skip with
      | S k => replace_bytes old new k s'
      | O => if bool_decide (old `prefix_of` s) then new ++ replace_bytes old new (pred (length old)) s' else c :: replace_bytes old new O s'
      end
  end.
Definition ReplaceAll (s old new : string) : string :=
  string_of_list_ascii (replace_bytes (list_ascii_of_string old) (list_ascii_of_string new) 0 (list_ascii_of_string s)).

(** The detail [Sync] logs when the factory fails. *)
Definition client_failure_detail (token : string) (clientErr : option string) : string :=
  match clientErr with
  | None => "client factory returned no client"
  | Some e => if token =s "" then e else ReplaceAll e token "[redacted]"
  end.

Definition bracket_open : ascii := "["%char.
Definition bracket_close : ascii := "]"%char.
Definition redaction : list ascii := Eval vm_compute in list_ascii_of_string "[redacted]".

(** [t] occurs in [s]. *)
Definition occurs (t s : list ascii) : Prop := exists a b, s = a ++ t ++ b.

(** One occurs in the other, or an end of one is a beginning of the other. *)
Definition overlaps (t r : list ascii) : Prop :=
  occurs t r \/ occurs r t \/
  (exists a m b, m <> [] /\ t = a ++ m /\ r = m ++ b) \/ (exists a m b, m <> [] /\ r = a ++ m /\ t = m ++ b).

Section replacing.
Context (t r : list ascii) (Hne : t <> []) (Hr : ~ overlaps t r).

Lemma replace_skip k s : replace_bytes t r k s = replace_bytes t r 0 (drop k s).
Proof. revert k. induction s as [|c s IH]; intros [|k]; cbn; done. Qed.

(** An end of [t] that the output starts with was there already. *)
Lemma replaced_prefix q p s : t = q ++ p -> p `prefix_of` replace_bytes t r 0 s -> p `prefix_of` s.
Proof using Hr.
  revert q s. induction p as [|x p IH]; intros q s Et; [intros; apply prefix_nil|]. destruct s as [|c s]; cbn; [by intros [? ?]|].
  case_bool_decide.
  - intros [b E]. exfalso. apply Hr. apply app_eq_inv in E as [(k & E & _)|(k & E & _)].
    + do 2 right. left. by exists q, (x :: p), k.
    + right. left. exists q, k. by rewrite Et, E.
  - intros [b E]. injection E as -> E. apply prefix_cons, (IH (q ++ [x])); [by rewrite <- app_assoc|by exists b].
Qed.

(** Behind a replacement [t] begins after it. *)
Lemma occurs_redaction out : occurs t (r ++ out) -> occurs t out.
Proof using Hr.
  intros (a & b & E). apply app_eq_inv in E as [(k & Er & E)|(k & -> & ->)]; [|by exists k, b].
  destruct k as [|y k]; [exists [], b; by rewrite E|]. exfalso. apply Hr. apply app_eq_inv in E as [(l & Et & _)|(l & Ek & _)].
  - do 3 right. by exists a, (y :: k), l.
  - left. exists a, l. by rewrite Er, Ek.
Qed.

Lemma replaced_absent s : ~ occurs t (replace_bytes t r 0 s).
Proof using Hne Hr.
  remember (length s) as n eqn:En. revert s En. induction n as [n IH] using lt_wf_ind. intros s -> Ho. destruct s as [|c s]; cbn in Ho.
  { destruct Ho as (a & b & E). symmetry in E. apply app_eq_nil in E as [_ E]. by apply app_eq_nil in E as [? _]. }
  case_bool_decide as Hp.
  - apply occurs_redaction in Ho. rewrite replace_skip in Ho. eapply IH; [|reflexivity|exact Ho]. rewrite length_drop. cbn. lia.
  - destruct Ho as ([|x a] & b & E); cbn in E.
    + apply Hp, (replaced_prefix []); [done|]. cbn. rewrite bool_decide_eq_false_2 by done. by exists b.
    + injection E as _ E. eapply (IH (length s)); [cbn; lia|reflexivity|]. by exists a, b.
Qed.
End replacing.

(** A token without brackets overlaps only as a part of the word. *)
Lemma plain_token_apart t : t <> [] -> bracket_open ∉ t -> bracket_close ∉ t -> ~ occurs t (list_ascii_of_string "redacted") -> ~ overlaps t redaction.
Proof.
  intros Hne Ho Hc Hw Hov. assert (Hr : redaction = bracket_open :: list_ascii_of_string "redacted" ++ [bracket_close]) by reflexivity.
  rewrite Hr in Hov. destruct Hov as [(a & b & E)|[(a & b & E)|[(a & m & b & Hm & E1 & E2)|(a & m & b & Hm & E1 & E2)]]].
  - destruct a as [|x a]; [destruct t; [done|]; injection E as <- _; set_solver|]. injection E as _ E. change (list_ascii_of_string "redacted" ++ [bracket_close] = a ++ t ++ b) in E.
    destruct b as [|y b _] using rev_ind.
    + rewrite app_nil_r in E. destruct t as [|z t' _] using rev_ind; [done|]. rewrite app_assoc in E. apply app_inj_tail in E as [_ <-]. set_solver.
    + rewrite !app_assoc in E. apply app_inj_tail in E as [E _]. apply Hw. exists a, b. by rewrite E, app_assoc.
  - apply Ho. rewrite E. set_solver.
  - destruct m as [|x m]; [done|]. injection E2 as <- _. set_solver.
  - destruct m as [|x m _] using rev_ind; [done|]. rewrite app_comm_cons, app_assoc in E1. apply app_inj_tail in E1 as [_ <-]. set_solver.
Qed.

Lemma bytes_app a b : list_ascii_of_string (a +:+ b) = list_ascii_of_string a ++ list_ascii_of_string b.
Proof. induction a; cbn; [done|]. by f_equal. Qed.

(** [strings.Contains]. *)
Definition contains (s t : string) : Prop := exists a b, s = a +:+ t +:+ b.

Lemma contains_occurs s t : contains s t -> occurs (list_ascii_of_string t) (list_ascii_of_string s).
Proof. intros (a & b & ->). exists (list_ascii_of_string a), (list_ascii_of_string b). by rewrite !bytes_app. Qed.
Lemma occurs_contains s t : occurs (list_ascii_of_string t) (list_ascii_of_string s) -> contains s t.
Proof.
  intros (a & b & E). exists (string_of_list_ascii a), (string_of_list_ascii b). rewrite <- (string_of_list_ascii_of_string s), E.
  rewrite <- (string_of_list_ascii_of_string (_ +:+ _)). by rewrite !bytes_app, !list_ascii_of_string_of_list_ascii.
Qed.

(** C32. The token does not reach the log line of a failed client factory, wherever
    and however often the factory's error repeats it, for every token that does not
    overlap the text "[redacted]" put in its place: neither occurs in the other, and no
    end of one is a beginning of the other.  (A token without brackets that is not a
    part of the word "redacted" does not.) *)
Theorem client_failure_hides_token token e :
  token <> "" -> ~ overlaps (list_ascii_of_string token) (list_ascii_of_string "[redacted]") ->
  ~ contains (client_failure_detail token (Some e)) token.
Proof.
  intros Hne Hr. cbn. destruct (token =s "") eqn:Et; bools; [done|].
  intros Hin%contains_occurs. unfold ReplaceAll in Hin. rewrite list_ascii_of_string_of_list_ascii in Hin.
  eapply replaced_absent; [|exact Hr|exact Hin].
  intros E. apply Hne. by rewrite <- (string_of_list_ascii_of_string token), E.
Qed.

(** A token that overlaps the replacement can survive it. *)
Example redaction_limit :
  (client_failure_detail "red" (Some "bad red") = "bad [redacted]" /\ contains "bad [redacted]" "red") /\
  (client_failure_detail "]x" (Some "]xx") = "[redacted]x" /\ contains "[redacted]x" "]x").
Proof. split; (split; [reflexivity|]); [by exists "bad [", "acted]"|by exists "[redacted", ""]. Qed.

(** ** Credential material in memory *)

(** [CredentialMaterial] with its bytes in arrays. *)
Record MaterialCell := mkMaterialCell { mc_apiToken : Slice ascii; mc_caBundle : Slice ascii; mc_fingerprint : string }.
Inductive SecretCell := BBytes (l : list ascii) | BMaterial (m : MaterialCell).
#[export] Instance store_bytes : Storable (Cell := SecretCell) (list ascii).
Proof. refine {| to_cell := BBytes; of_cell c := match c with BBytes l => Some l | _ => None end |}. done. Defined.
#[export] Instance store_material : Storable (Cell := SecretCell) MaterialCell.
Proof. refine {| to_cell := BMaterial; of_cell c := match c with BMaterial m => Some m | _ => None end |}. done. Defined.
#[export] Instance mem_byte : Mem (Cell := SecretCell) ascii ascii := flat_mem ascii.
#[export] Instance flat_byte : Flat (Cell := SecretCell) ascii ascii.
Proof. done. Qed.

(** A part of an array, as [bytes.TrimSpace] gives it. *)
Record Window := mkWindow { win_array : Slice ascii; win_from : nat; win_len : nat }.
Definition read_slice (s : Slice ascii) : G SecretCell (list ascii) :=
  match slice_addr s with None => gret [] | Some l => load l end.
Definition read_window (v : Window) : G SecretCell (list ascii) :=
  gbind (read_slice (win_array v)) (fun xs => gret (take (win_len v) (drop (win_from v) xs))).
(** [append([]byte(nil), b...)]. *)
Definition fresh_bytes (xs : list ascii) : G SecretCell (Slice ascii) :=
  match xs with [] => gret nil_slice | _ => gbind (alloc xs) (fun l => gret (mkSlice (Some l))) end.

Definition new_material (token ca : Window) (versions : list string) : G SecretCell (Ptr MaterialCell) :=
  gbind (read_window token) (fun t => gbind (read_window ca) (fun c =>
  let digest := M_fingerprint (newCredentialMaterial (string_of_list_ascii t) (string_of_list_ascii c) versions) in
  gbind (fresh_bytes t) (fun ts => gbind (fresh_bytes c) (fun cs =>
  gbind (alloc (mkMaterialCell ts cs digest)) (fun l => gret (mkPtr (Some l))))))).

Definition on_material {A} (m : Ptr MaterialCell) (nil : A) (k : loc -> MaterialCell -> G SecretCell A) : G SecretCell A :=
  match ptr_addr m with None => gret nil | Some l => gbind (load l) (k l) end.
Definition APIToken (m : Ptr MaterialCell) : G SecretCell (Slice ascii) := on_material m nil_slice (fun _ c => copy_slice (mc_apiToken c)).
Definition CABundle (m : Ptr MaterialCell) : G SecretCell (Slice ascii) := on_material m nil_slice (fun _ c => copy_slice (mc_caBundle c)).
Definition Fingerprint (m : Ptr MaterialCell) : G SecretCell string := on_material m "" (fun _ c => gret (mc_fingerprint c)).

(** [clear] of a slice. *)
Definition store_cell `{Storable SecretCell T} (l : loc) (t : T) : G SecretCell unit := fun h => Some (<[l := to_cell t]> h, tt).
Definition clear_bytes (s : Slice ascii) : G SecretCell unit :=
  match slice_addr s with
  | None => gret tt
  | Some l => gbind (load l) (fun xs => store_cell l (replicate (length (xs : list ascii)) "000"%char))
  end.
Definition Clear (m : Ptr MaterialCell) : G SecretCell unit :=
  on_material m tt (fun l c =>
    gbind (clear_bytes (mc_apiToken c)) (fun _ => gbind (clear_bytes (mc_caBundle c)) (fun _ =>
    store_cell l (mkMaterialCell nil_slice nil_slice (mc_fingerprint c))))).

(** [string(material.APIToken())], and what the client factory takes. *)
Definition token_string (m : Ptr MaterialCell) : G SecretCell string :=
  gbind (APIToken m) (fun s => gbind (read_slice s) (fun xs => gret (string_of_list_ascii xs))).
Definition factory_credentials (m : Ptr MaterialCell) : G SecretCell (string * Slice ascii) :=
  gbind (token_string m) (fun token => gbind (CABundle m) (fun ca => gret (token, ca))).

(** The life of a material in [Sync]: made, its token kept for the log, given to the factory, cleared. *)
Definition material_life (token ca : Window) (versions : list string) : G SecretCell (Ptr MaterialCell * (string * Slice ascii)) :=
  gbind (new_material token ca versions) (fun m => gbind (token_string m) (fun _ =>
  gbind (factory_credentials m) (fun c => gbind (Clear m) (fun _ => gret (m, c))))).

(** *** Its laws *)

Definition zeros (n : nat) : list ascii := replicate n "000"%char.
(** [s] is a slice over [xs] in [h]; [s] has no cell of [h]. *)
Definition reads (h : gmap loc SecretCell) (s : Slice ascii) (xs : list ascii) : Prop := read_slice s h = Some (h, xs).
Definition unshared (h : gmap loc SecretCell) (s : Slice ascii) : Prop := forall l, slice_addr s = Some l -> l ∉ dom h.

Lemma reads_mono h h' s xs : h ⊆ h' -> reads h s xs -> reads h' s xs.
Proof.
  unfold reads, read_slice. intros Hsub. destruct (slice_addr s) as [l|]; [|by intros [= <-]]. unfold load.
  destruct (h !! l) as [c|] eqn:Ec; [|done]. rewrite (lookup_weaken _ _ _ _ Ec Hsub). cbn. destruct c; [|done]. by intros [= <-].
Qed.
Lemma unshared_mono h h' s : h ⊆ h' -> unshared h' s -> unshared h s.
Proof. intros Hsub Hu l Hl Hin. apply (Hu l Hl). by apply (subseteq_dom _ _ Hsub). Qed.

Lemma fresh_bytes_run xs h : exists h' s, fresh_bytes xs h = Some (h', s) /\ h ⊆ h' /\ reads h' s xs /\ unshared h s.
Proof.
  destruct xs as [|x xs]; [by exists h, nil_slice|]. destruct (alloc_fresh (x :: xs) h h) as (l & Ea & Hl & Hsub); [done|].
  exists (<[l := BBytes (x :: xs)]> h), (mkSlice (Some l)). unfold fresh_bytes, gbind. rewrite Ea. split; [done|]. split; [done|].
  split; [unfold reads, read_slice, load; cbn; by rewrite lookup_insert_eq|]. by intros ? [= <-].
Qed.
Lemma copy_slice_run s xs h : reads h s xs -> exists h' s', copy_slice s h = Some (h', s') /\ h ⊆ h' /\ reads h' s' xs /\ unshared h s'.
Proof.
  intros Hr. destruct (fresh_bytes_run xs h) as (h' & s' & E & H). exists h', s'. split; [|done]. revert Hr E.
  unfold reads, read_slice, copy_slice. destruct (slice_addr s) as [l|]; [|by intros [= <-]]. unfold gbind. intros ->. by destruct xs.
Qed.

Definition zeroed (s : Slice ascii) (n : nat) (h : gmap loc SecretCell) : gmap loc SecretCell :=
  match slice_addr s with None => h | Some l => <[l := BBytes (zeros n)]> h end.
Lemma clear_bytes_run s xs h : reads h s xs -> clear_bytes s h = Some (zeroed s (length xs) h, tt).
Proof.
  unfold reads, read_slice, clear_bytes, zeroed. destruct (slice_addr s) as [l|]; [|done]. unfold gbind. by intros ->.
Qed.
Lemma zeroed_other s n h l : slice_addr s <> Some l -> zeroed s n h !! l = h !! l.
Proof. unfold zeroed. destruct (slice_addr s); [|done]. intros. by rewrite lookup_insert_ne by congruence. Qed.
Lemma reads_frame h h' s xs : reads h s xs -> (forall l, slice_addr s = Some l -> h' !! l = h !! l) -> reads h' s xs.
Proof.
  unfold reads, read_slice, load. destruct (slice_addr s) as [l|]; [|by intros [= <-]]. intros Hr Hl. rewrite (Hl l) by done.
  destruct (h !! l) as [[]|]; try done. cbn in *. by injection Hr as ->.
Qed.

(** A material at [m], its arrays [ts] and [cs] over the token [t] and the bundle [c]. *)
Record material_at (h : gmap loc SecretCell) (m : loc) (ts cs : Slice ascii) (t c : list ascii) (fp : string) : Prop := {
  ma_cell : h !! m = Some (BMaterial (mkMaterialCell ts cs fp));
  ma_token : reads h ts t;
  ma_bundle : reads h cs c;
  ma_separate l : slice_addr ts = Some l -> slice_addr cs <> Some l }.

Lemma material_mono h h' m ts cs t c fp : h ⊆ h' -> material_at h m ts cs t c fp -> material_at h' m ts cs t c fp.
Proof. intros Hsub [Hm Ht Hc Hs]. split; [by eapply lookup_weaken|by eapply reads_mono|by eapply reads_mono|done]. Qed.

Lemma reads_dom h s xs l : reads h s xs -> slice_addr s = Some l -> exists ys, h !! l = Some (BBytes ys).
Proof. unfold reads, read_slice, load. intros Hr El. rewrite El in Hr. destruct (h !! l) as [[]|]; try done. eauto. Qed.

(** It has copies of the bytes, in arrays of its own. *)
Lemma new_material_run tw cw vs t c h : read_window tw h = Some (h, t) -> read_window cw h = Some (h, c) ->
  exists h' m ts cs, new_material tw cw vs h = Some (h', mkPtr (Some m)) /\ h ⊆ h' /\ (m ∉ dom h) /\ unshared h ts /\ unshared h cs /\
    material_at h' m ts cs t c (M_fingerprint (newCredentialMaterial (string_of_list_ascii t) (string_of_list_ascii c) vs)).
Proof.
  intros Et Ec. unfold new_material, gbind. rewrite Et. cbn [mbind option_bind fst snd]. rewrite Ec. cbn [mbind option_bind fst snd].
  set (fp := M_fingerprint _).
  destruct (fresh_bytes_run t h) as (h1 & ts & -> & S1 & R1 & U1). cbn [mbind option_bind fst snd].
  destruct (fresh_bytes_run c h1) as (h2 & cs & -> & S2 & R2 & U2). cbn [mbind option_bind fst snd].
  destruct (alloc_fresh (mkMaterialCell ts cs fp) h h2) as (m & -> & Hm & S3); [by etrans|].
  exists (<[m := BMaterial (mkMaterialCell ts cs fp)]> h2), m, ts, cs. split; [done|]. split; [etrans; [exact S1|]; by etrans|]. split; [done|]. split; [done|].
  split; [by eapply unshared_mono|]. split; [by rewrite lookup_insert_eq|by eapply reads_mono, reads_mono|by eapply reads_mono|].
  intros l Hl Hl'. apply (U2 l Hl'). destruct (reads_dom _ _ _ _ R1 Hl). apply elem_of_dom. eauto.
Qed.

Lemma APIToken_run h m ts cs t c fp : material_at h m ts cs t c fp ->
  exists h' s, APIToken (mkPtr (Some m)) h = Some (h', s) /\ h ⊆ h' /\ reads h' s t /\ unshared h s.
Proof. intros [Hm Ht _ _]. destruct (copy_slice_run _ _ _ Ht) as (h' & s & E & H). exists h', s. split; [|done]. cbn. unfold gbind, load. by rewrite Hm. Qed.
Lemma CABundle_run h m ts cs t c fp : material_at h m ts cs t c fp ->
  exists h' s, CABundle (mkPtr (Some m)) h = Some (h', s) /\ h ⊆ h' /\ reads h' s c /\ unshared h s.
Proof. intros [Hm _ Hc _]. destruct (copy_slice_run _ _ _ Hc) as (h' & s & E & H). exists h', s. split; [|done]. cbn. unfold gbind, load. by rewrite Hm. Qed.
Lemma token_string_run h m ts cs t c fp : material_at h m ts cs t c fp ->
  exists h', token_string (mkPtr (Some m)) h = Some (h', string_of_list_ascii t) /\ h ⊆ h'.
Proof.
  intros Hm. destruct (APIToken_run _ _ _ _ _ _ _ Hm) as (h' & s & E & Hs & Hr & _). exists h'. split; [|done].
  unfold token_string, gbind. rewrite E. cbn [mbind option_bind fst snd]. by rewrite Hr.
Qed.

Definition cleared (m : loc) (ts cs : Slice ascii) (t c : list ascii) (fp : string) (h : gmap loc SecretCell) : gmap loc SecretCell :=
  <[m := BMaterial (mkMaterialCell nil_slice nil_slice fp)]> (zeroed cs (length c) (zeroed ts (length t) h)).
Lemma Clear_run h m ts cs t c fp : material_at h m ts cs t c fp -> Clear (mkPtr (Some m)) h = Some (cleared m ts cs t c fp h, tt).
Proof.
  intros [Hm Ht Hc Hs]. cbn. unfold gbind, load. rewrite Hm. cbn [mbind option_bind fst snd of_cell store_material mc_apiToken mc_caBundle mc_fingerprint].
  rewrite (clear_bytes_run _ _ _ Ht). cbn [mbind option_bind fst snd]. rewrite (clear_bytes_run cs c); [done|].
  eapply reads_frame; [done|]. intros l Hl. apply zeroed_other. intros Hl'. by apply (Hs l Hl').
Qed.
Lemma cleared_other m ts cs t c fp h l : l <> m -> slice_addr ts <> Some l -> slice_addr cs <> Some l -> cleared m ts cs t c fp h !! l = h !! l.
Proof. intros. unfold cleared. by rewrite lookup_insert_ne, !zeroed_other by done. Qed.
Lemma cleared_zero h m ts cs t c fp l : material_at h m ts cs t c fp ->
  (slice_addr ts = Some l -> cleared m ts cs t c fp h !! l = Some (BBytes (zeros (length t)))) /\
  (slice_addr cs = Some l -> cleared m ts cs t c fp h !! l = Some (BBytes (zeros (length c)))).
Proof.
  intros [Hm Ht Hc Hs]. split; intros Hl; unfold cleared; (rewrite lookup_insert_ne; [|intros ->]).
  - rewrite zeroed_other by auto. unfold zeroed. rewrite Hl. by rewrite lookup_insert_eq.
  - destruct (reads_dom _ _ _ _ Ht Hl). congruence.
  - unfold zeroed at 1. rewrite Hl. by rewrite lookup_insert_eq.
  - destruct (reads_dom _ _ _ _ Hc Hl). congruence.
Qed.

(** After a client was built nothing of the credentials is left in the material:
    its arrays hold zeros, it refers to none, and only the fingerprint remains.
    The client has the token and a CA bundle of its own, and the bytes of the
    Secret, which the token was a part of, are what they were. *)
Theorem material_erased tw cw vs t c h : read_window tw h = Some (h, t) -> read_window cw h = Some (h, c) ->
  exists h1 m ts cs h' ca fp, new_material tw cw vs h = Some (h1, mkPtr (Some m)) /\ material_at h1 m ts cs t c fp
    /\ material_life tw cw vs h = Some (h', (mkPtr (Some m), (string_of_list_ascii t, ca)))
    /\ reads h' ca c /\ (forall l, l ∈ dom h -> h' !! l = h !! l)
    /\ h' !! m = Some (BMaterial (mkMaterialCell nil_slice nil_slice fp))
    /\ (forall l, slice_addr ts = Some l -> h' !! l = Some (BBytes (zeros (length t))))
    /\ (forall l, slice_addr cs = Some l -> h' !! l = Some (BBytes (zeros (length c)))).
Proof.
  intros Ht Hc. destruct (new_material_run tw cw vs t c h Ht Hc) as (h1 & m & ts & cs & E1 & S1 & Hm & Ut & Uc & M1). set (fp := M_fingerprint _) in M1.
  destruct (token_string_run _ _ _ _ _ _ _ M1) as (h2 & E2 & S2). pose proof (material_mono _ _ _ _ _ _ _ _ S2 M1) as M2.
  destruct (token_string_run _ _ _ _ _ _ _ M2) as (h3 & E3 & S3). pose proof (material_mono _ _ _ _ _ _ _ _ S3 M2) as M3.
  destruct (CABundle_run _ _ _ _ _ _ _ M3) as (h4 & ca & E4 & S4 & R4 & U4). pose proof (material_mono _ _ _ _ _ _ _ _ S4 M3) as M4.
  exists h1, m, ts, cs, (cleared m ts cs t c fp h4), ca, fp. split; [done|]. split; [done|]. split.
  { unfold material_life, factory_credentials, gbind, gret. rewrite E1. cbn [mbind option_bind fst snd]. rewrite E2. cbn [mbind option_bind fst snd].
    rewrite E3. cbn [mbind option_bind fst snd]. rewrite E4. cbn [mbind option_bind fst snd]. by rewrite (Clear_run _ _ _ _ _ _ _ M4). }
  split.
  { eapply reads_frame; [exact R4|]. intros l Hl. destruct M3 as [Hm3 Ht3 Hc3 _]. pose proof (U4 l Hl) as Hn. apply cleared_other; intros Hx; apply Hn, elem_of_dom; subst.
    - eauto.
    - destruct (reads_dom _ _ _ _ Ht3 Hx). eauto.
    - destruct (reads_dom _ _ _ _ Hc3 Hx). eauto. }
  split.
  { intros l Hl. rewrite cleared_other; [|set_solver|intros Hx; by apply (Ut l Hx)|intros Hx; by apply (Uc l Hx)].
    apply elem_of_dom in Hl as [x Hx]. rewrite Hx. eapply lookup_weaken; [exact Hx|]. by do 3 (etrans; [eassumption|]). }
  split; [by unfold cleared; rewrite lookup_insert_eq|]. split; intros l; by apply (cleared_zero h4).
Qed.

(** ** On concrete secrets *)

Lemma contains_chars s t c : contains s t -> c ∈ list_ascii_of_string t -> c ∈ list_ascii_of_string s.
Proof. intros (a & b & ->) Hc. rewrite !bytes_app, !elem_of_app. auto. Qed.

Lemma client_failure_hides_token_witness :
  client_failure_detail "tok-42" (Some "401 for tok-42: [tok-42tok-42]") = "401 for [redacted]: [[redacted][redacted]]" /\
  ~ contains "401 for [redacted]: [[redacted][redacted]]" "tok-42".
Proof.
  split; [vm_compute; reflexivity|].
  apply (client_failure_hides_token "tok-42" "401 for tok-42: [tok-42tok-42]"); [done|].
  apply (plain_token_apart (list_ascii_of_string "tok-42")); [done|apply (bool_decide_unpack _); vm_compute; exact I..|].
  intros H%(occurs_contains "redacted" "tok-42"). apply (contains_chars _ _ "-"%char) in H; [|apply (bool_decide_unpack _); vm_compute; exact I].
  revert H. apply (bool_decide_unpack _). vm_compute. exact I.
Defined.

(** A parser for two URLs. *)
Definition parse_two (raw : string) : option ParsedURL :=
  if raw =s "https://fw.example.com/api" then Some (mkParsedURL "https" "" None "fw.example.com" "/api" false false "" "")
  else if raw =s "https://admin:pw@fw.example.com/api?token=s3cret#x" then Some (mkParsedURL "https" "" (Some "admin:pw") "fw.example.com" "/api" false false "token=s3cret" "x")
  else None.
Definition seconds (n : Z) : string := FormatInt (n / 1000000000) +:+ "s".
Definition logged_config (url token : string) : FortiGateConfig := mkFortiGateConfig url token "root" "example.com" false true "" "" 30000000000 3.

Lemma Redacted_hides_secrets_witness :
  Redacted parse_two seconds (logged_config "https://admin:pw@fw.example.com/api?token=s3cret#x" "tok-42") !! "baseURL" = Some (AString "https://fw.example.com/api") /\
  Redacted parse_two seconds (logged_config "https://admin:pw@fw.example.com/api?token=s3cret#x" "tok-42")
    = Redacted parse_two seconds (logged_config "https://fw.example.com/api" "another").
Proof. split; [vm_compute; reflexivity|]. apply (Redacted_hides_secrets parse_two seconds). vm_compute. reflexivity. Defined.

(** A Secret whose value ends in a newline; the token is the part before it. *)
Definition secret_heap : gmap loc SecretCell := {[ 1%positive := BBytes (list_ascii_of_string "tok-42" ++ ["010"%char]) ]}.
Definition token_window : Window := mkWindow (mkSlice (Some 1%positive)) 0 6.
Definition no_bundle : Window := mkWindow nil_slice 0 0.

Lemma material_erased_witness : exists h' m ca,
  material_life token_window no_bundle ["uid"; "7"; ""] secret_heap = Some (h', (m, ("tok-42", ca))) /\ h' !! 1%positive = secret_heap !! 1%positive.
Proof.
  destruct (material_erased token_window no_bundle ["uid"; "7"; ""] (list_ascii_of_string "tok-42") [] secret_heap) as
    (h1 & m & ts & cs & h' & ca & fp & _ & _ & E & _ & Hold & _); [vm_compute; reflexivity|vm_compute; reflexivity|].
  exists h', (mkPtr (Some m)), ca. split; [exact E|]. apply Hold, elem_of_dom. eexists. reflexivity.
Defined.
