(* ===== verification/SliceCache.v ===== *)
(** * Where EndpointSlices come from

    [listEndpointSlices] of internal/source/kubernetes.go: a synchronized informer
    cache, or the API server.  The cache lists everything in no particular order,
    the server only what carries the service label; discovery sees the same. *)
From S2P Require Import Prelude GoStrings NetIP Endpoint Queue Policy Sources Gateways SourcesLaws.
Open Scope go_scope.

(** ** A sort that does not depend on the order it starts from *)

Section unique.
Context {A : Type} (less : A -> A -> bool).
Context (less_asym : forall x y, less x y = true -> less y x = false).
Context (le_trans : forall x y z, less y x = false -> less z y = false -> less z x = false).

Lemma sorted_unique l1 l2 : StronglySorted (not_after less) l1 -> StronglySorted (not_after less) l2 ->
  (forall x y, x ∈ l1 -> y ∈ l1 -> less x y = false -> less y x = false -> x = y) -> l1 ≡ₚ l2 -> l1 = l2.
Proof.
  revert l2. induction l1 as [|x l1 IH]; intros l2 H1 H2 Hinj Hp; [by apply Permutation_nil_l in Hp as ->|].
  destruct l2 as [|y l2]; [by apply Permutation_nil_r in Hp|].
  apply StronglySorted_inv in H1 as [H1 F1]. apply StronglySorted_inv in H2 as [H2 F2]. rewrite Forall_forall in F1, F2.
  assert (Hy : y ∈ x :: l1) by (rewrite Hp; left). assert (Hx : x ∈ y :: l2) by (rewrite <- Hp; left).
  assert (x = y) as <-.
  { apply elem_of_cons in Hy as Hy'. destruct Hy' as [->|Hy']; [done|]. apply elem_of_cons in Hx as [->|Hx]; [done|].
    apply Hinj; [left|done|apply F2, Hx|apply F1, Hy']. }
  f_equal. apply IH; try done; [|by apply Permutation_cons_inv in Hp]. intros a b Ha Hb. apply Hinj; by right.
Qed.

Lemma sort_slice_perm_eq l1 l2 : (forall x y, x ∈ l1 -> y ∈ l1 -> less x y = false -> less y x = false -> x = y) -> l1 ≡ₚ l2 ->
  sort_slice less l1 = sort_slice less l2.
Proof using less_asym le_trans.
  intros Hinj Hp. apply sorted_unique; try by apply sort_slice_sorted.
  - intros x y. rewrite !elem_of_sort_slice. apply Hinj.
  - by rewrite !sort_slice_perm.
Qed.
End unique.

(** ** kubernetes.go *)

(** The clients for slices, per namespace; the API server evaluates a selector. *)
Record SliceClients := mkSliceClients {
  EndpointSliceLister : option (string -> result ListError (list EndpointSlice));
  EndpointSliceCacheSynced : option bool;
  EndpointSlices : option (string -> (EndpointSlice -> bool) -> result ListError (list EndpointSlice));
  DiscoveryV1 : string -> (EndpointSlice -> bool) -> result ListError (list EndpointSlice) }.

(** The selector that asks for the label to be there. *)
Definition has_service_label (s : EndpointSlice) : bool := bool_decide (is_Some (Slice_Labels s !! LabelServiceName)).

Definition listEndpointSlices_from (clients : SliceClients) (namespace : string) : result ListError (list EndpointSlice) :=
  match EndpointSliceLister clients with
  | Some lister => if bool_decide (EndpointSliceCacheSynced clients = Some true) then lister namespace else Err ErrNotSynced
  | None => default (DiscoveryV1 clients) (EndpointSlices clients) namespace has_service_label
  end.

(** ** The same index *)

Lemma slice_less_asym a b : slice_less a b = true -> slice_less b a = false.
Proof.
  unfold slice_less. destruct (Slice_Namespace a =s Slice_Namespace b) eqn:E, (Slice_Namespace b =s Slice_Namespace a) eqn:E'; cbn; bools; try congruence; apply str_ltb_asym.
Qed.
Lemma slice_le_spec a b : slice_less b a = false <->
  (Slice_Namespace a <s Slice_Namespace b) = true \/ Slice_Namespace a = Slice_Namespace b /\ (Slice_Name b <s Slice_Name a) = false.
Proof.
  unfold slice_less. destruct (Slice_Namespace b =s Slice_Namespace a) eqn:E; cbn; bools.
  - rewrite E, str_ltb_irrefl. split; [auto|]. by intros [?|[_ ?]].
  - split.
    + intros Hl. left. destruct (Slice_Namespace a <s Slice_Namespace b) eqn:El; [done|]. by destruct E; apply str_ltb_total.
    + intros [Hl|[? _]]; [by apply str_ltb_asym|congruence].
Qed.
Lemma slice_le_trans a b c : slice_less b a = false -> slice_less c b = false -> slice_less c a = false.
Proof.
  rewrite !slice_le_spec. intros [H1|[E1 H1]] [H2|[E2 H2]].
  - left. by eapply str_ltb_trans.
  - left. by rewrite <- E2.
  - left. by rewrite E1.
  - right. split; [congruence|by eapply str_le_trans].
Qed.
Lemma slice_le_antisym a b : slice_less a b = false -> slice_less b a = false ->
  Slice_Namespace a = Slice_Namespace b /\ Slice_Name a = Slice_Name b.
Proof.
  rewrite !slice_le_spec. intros [H1|[E1 H1]] [H2|[E2 H2]].
  - by rewrite (str_ltb_asym _ _ H1) in H2.
  - by rewrite E2, str_ltb_irrefl in H1.
  - by rewrite E1, str_ltb_irrefl in H2.
  - split; [done|by apply str_ltb_total].
Qed.

(** Slices are told apart by namespace and name. *)
Definition distinct_slices (l : list EndpointSlice) : Prop :=
  forall x y, x ∈ l -> y ∈ l -> Slice_Namespace x = Slice_Namespace y -> Slice_Name x = Slice_Name y -> x = y.

Lemma index_perm l1 l2 : distinct_slices l1 -> l1 ≡ₚ l2 -> indexEndpointSlices l1 = indexEndpointSlices l2.
Proof.
  intros Hd Hp. unfold indexEndpointSlices. set (service := fun s => _). apply map_eq. intros k. rewrite !lookup_fmap.
  set (f1 := filter _ l1). set (f2 := filter _ l2). assert (Hf : f1 ≡ₚ f2) by by apply filter_Permutation.
  destruct (group_by service f1 !! k) as [g1|] eqn:E1; [apply group_by_lookup in E1 as [-> N1]|]; (destruct (group_by service f2 !! k) as [g2|] eqn:E2; [apply group_by_lookup in E2 as [-> N2]|]); cbn.
  - f_equal. apply (sort_slice_perm_eq _ slice_less_asym slice_le_trans); [|by apply filter_Permutation].
    intros x y [_ [_ Hx]%list_elem_of_filter]%list_elem_of_filter [_ [_ Hy]%list_elem_of_filter]%list_elem_of_filter L1 L2.
    destruct (slice_le_antisym x y L1 L2). by apply Hd.
  - pose proof (group_by_default service f2 k) as Hdef. rewrite E2 in Hdef. cbn in Hdef. destruct N1. apply Permutation_nil_r. rewrite Hdef. by apply filter_Permutation.
  - pose proof (group_by_default service f1 k) as Hdef. rewrite E1 in Hdef. cbn in Hdef. destruct N2. apply Permutation_nil_r. rewrite Hdef. by apply filter_Permutation.
  - done.
Qed.

(** A slice without the label is of no service. *)
Lemma index_labelled l : indexEndpointSlices (filter (fun s => has_service_label s = true) l) = indexEndpointSlices l.
Proof.
  unfold indexEndpointSlices. f_equal. f_equal. rewrite list_filter_filter. apply list_filter_iff. intros s. unfold has_service_label.
  rewrite bool_decide_eq_true. destruct (Slice_Labels s !! LabelServiceName); cbn; [naive_solver|]. split; [naive_solver|]. intros Hn. exfalso. by apply Hn.
Qed.

(** ** Discovery through either *)

Section discovery.
Context `{Selectors} `{IDNA} `{KeyValidation} `{MapRange}.

(** The cluster as it is seen through these clients. *)
Definition with_slices (clients : SliceClients) (c : Cluster) : Cluster :=
  mkCluster (ListServices c) (listEndpointSlices_from clients) (ListIngresses c) (ListHTTPRoutes c) (ListGateways c) (namespace_labels c).
Definition without_cache (clients : SliceClients) : SliceClients := mkSliceClients None None (EndpointSlices clients) (DiscoveryV1 clients).

(** C31. A cache of slices that is not known to be synchronized never passes for a
    complete listing, whatever it has: when slices are needed the Service source is
    marked incomplete, and no slice is used.  A synchronized cache is as good as the
    API server: if its lister has, in any order and with or without the service label,
    the slices of the namespace, of which the server lists those with the label, then
    discovery through the cache reports the same as discovery through the server. *)
Theorem cached_slices_exact clients lister cluster opts namespace services (r : Discovered) :
  EndpointSliceLister clients = Some lister ->
  let seen := discover_slices (with_slices clients cluster) opts namespace services r in
  (EndpointSliceCacheSynced clients <> Some true -> endpointSlicesNeeded services opts = true ->
     SourceComplete seen.1 SourceService = false /\ seen.2 = ∅) /\
  (EndpointSliceCacheSynced clients = Some true -> forall listed served all,
     lister namespace = Ok listed -> listed ≡ₚ all -> distinct_slices all ->
     default (DiscoveryV1 clients) (EndpointSlices clients) namespace has_service_label = Ok served ->
     served ≡ₚ filter (fun s => has_service_label s = true) all ->
     seen = discover_slices (with_slices (without_cache clients) cluster) opts namespace services r).
Proof.
  intros Hl. unfold discover_slices, with_slices, listEndpointSlices_from, without_cache. cbn. rewrite Hl. split.
  - intros Hn Hneed. rewrite bool_decide_eq_false_2 by done. rewrite Hneed. split; [|done]. unfold SourceComplete. rewrite bool_decide_eq_true_2; [done|].
    unfold MarkIncomplete, AddInfoEvent, addEvent. change (ToLower (TrimSpace SourceService) =s "") with false.
    cbn [negb fst IncompleteSources]. destruct (_ <=? _)%Z; cbn [IncompleteSources]; apply elem_of_union; left; by apply elem_of_singleton.
  - intros Hy listed served all Hlist Hp Hd Hs Hps. rewrite bool_decide_eq_true_2 by done.
    destruct (endpointSlicesNeeded services opts); [|done]. cbn. rewrite Hlist, Hs. f_equal. rewrite <- (index_perm all listed) by done.
    rewrite <- index_labelled. apply index_perm; [|done]. intros x y [_ Hx]%list_elem_of_filter [_ Hy']%list_elem_of_filter. by apply Hd.
Qed.
End discovery.
