(* ===== verification/Polling.v ===== *)
(** * The polling runner

    [Run] and [RunOnce] of internal/controller/runner.go with what they observe:
    the metrics, the heartbeat, the log and the ticker.  The cycle itself is that
    of Apply. *)
From Stdlib Require Import String ZArith Lia.
From S2P Require Import Prelude Effects GoStrings NetIP GoEncoding Endpoint Plan Document Executor Queue Client.
From S2P Require Import Policy Sources Gateways ChangePlans Runner Metrics Apply.
Open Scope string_scope.
Open Scope list_scope.
Open Scope go_scope.

Definition metricSource (value : string) : string :=
  let v := ToLower (TrimSpace value) in
  if v =s Sources.SourceService then "service" else if v =s Sources.SourceIngress then "ingress"
  else if v =s Sources.SourceGateway then "gateway" else SourceUnknown.

Section polling.
Context {W : Type} `{Selectors} `{IDNA} `{KeyValidation} `{MapRange}.
Context (PrefixString : Prefix -> string) (cfg : RunnerConfig) (env : RunnerEnv (W := W)).

(** [select] waits for the ticker or the end of the context; [true] is a tick. *)
Record Observers := mkObservers {
  RecordReconcile : bool -> W -> W;                  (* whether there was an error *)
  SetTargetReadiness : string -> bool -> W -> W;
  MarkAttempt : W -> W;
  log_failed : RunError -> W -> W;
  select : W -> W * bool }.
Context (obs : Observers).

Definition metricTargetName : string :=
  let name := TrimSpace (TI_Name (target_identity env)) in
  let name := if name =s "" then targetName env else name in
  let namespace := TrimSpace (TI_Namespace (target_identity env)) in
  if namespace =s "" then name else namespace +:+ "/" +:+ name.

Definition ApplyPreparedWithResult (w : W) (audit : ReconcileAudit) : W * (bool * option RunError) :=
  let '(w, report) := applyPrepared PrefixString cfg env w audit in (w, (PlanApproved report, Apply_error report)).
Definition ApplyPrepared (w : W) (audit : ReconcileAudit) : W * option RunError :=
  let '(w, (_, err)) := ApplyPreparedWithResult w audit in (w, err).

Definition observed_RunOnce (w : W) : W * option RunError :=
  let '(w, (complete, err)) :=
    match Prepare PrefixString cfg env w with
    | (w, Err e) => (w, (false, Some e))
    | (w, Ok audit) => let '(w, err) := ApplyPrepared w audit in (w, (PolicyComplete audit, err))
    end in
  let w := RecordReconcile obs (bool_decide (is_Some err)) w in
  let w := SetTargetReadiness obs metricTargetName (negb (bool_decide (is_Some err)) && complete) w in
  (MarkAttempt obs w, err).

Definition logged (err : option RunError) (w : W) : W := match err with Some e => log_failed obs e w | None => w end.

(** [Run]; [None] for a loop that is still running. *)
Fixpoint run_loop (fuel : nat) (w : W) : W * option (option string) :=
  match fuel with
  | O => (w, None)
  | S fuel =>
      match select obs w with
      | (w, false) => (w, Some (ctx_err env w))
      | (w, true) => let '(w, err) := observed_RunOnce w in run_loop fuel (logged err w)
      end
  end.
Definition Run (fuel : nat) (w : W) : W * option (option string) :=
  let '(w, err) := observed_RunOnce w in
  match err with
  | Some e => match ctx_err env w with Some c => (w, Some (Some c)) | None => run_loop fuel (logged (Some e) w) end
  | None => run_loop fuel w
  end.

(** ** Rounds *)

(** [n] cycles, each but the first after a tick. *)
Inductive rounds : nat -> W -> W -> Prop :=
| round_first w w1 err : observed_RunOnce w = (w1, err) -> rounds 1 w (logged err w1)
| round_next n w w1 w2 w3 err : rounds n w w1 -> select obs w1 = (w2, true) -> observed_RunOnce w2 = (w3, err) -> rounds (S n) w (logged err w3).

Lemma run_loop_rounds fuel n w0 w w' r : rounds n w0 w -> run_loop fuel w = (w', r) ->
  match r with
  | None => rounds (fuel + n) w0 w'
  | Some e => exists k w1, (n <= k <= fuel + n)%nat /\ rounds k w0 w1 /\ select obs w1 = (w', false) /\ e = ctx_err env w'
  end.
Proof.
  revert n w. induction fuel as [|fuel IH]; intros n w Hr E; cbn in E; [by injection E as <- <-|].
  destruct (select obs w) as [w1 [|]] eqn:Es.
  - destruct (observed_RunOnce w1) as [w2 err] eqn:Eo. pose proof (round_next _ _ _ _ _ _ Hr Es Eo) as Hn.
    specialize (IH (S n) _ Hn E). destruct r as [e|]; [|by replace (S fuel + n)%nat with (fuel + S n)%nat by lia].
    destruct IH as (k & w3 & Hk & IH). exists k, w3. split; [lia|done].
  - injection E as <- <-. exists n, w. split; [lia|done].
Qed.

(** Polling goes on: as long as [select] answers with ticks there is a cycle for
    every tick, whatever the cycles before it returned, and [Run] returns only with
    the error of a context that has ended. *)
Theorem polling_goes_on fuel w w' r : (forall v v', select obs v = (v', false) -> ctx_err env v' <> None) -> Run fuel w = (w', r) ->
  match r with
  | None => rounds (S fuel) w w'
  | Some e => e <> None /\ e = ctx_err env w'
  end.
Proof.
  intros Hsel E. unfold Run in E. destruct (observed_RunOnce w) as [w1 err] eqn:Eo. pose proof (round_first _ _ _ Eo) as Hf.
  assert (Hl : run_loop fuel (logged err w1) = (w', r) \/ (exists c, r = Some (Some c) /\ ctx_err env w' = Some c)).
  { destruct err as [e|]; [|by left]. destruct (ctx_err env w1) as [c|] eqn:Ec; [|by left]. injection E as <- <-. right. eauto. }
  destruct Hl as [Hl|(c & -> & Ec)]; [|by rewrite Ec].
  pose proof (run_loop_rounds _ _ _ _ _ _ Hf Hl) as Hr. destruct r as [e|].
  - destruct Hr as (k & w2 & _ & _ & Hs & ->). split; [by eapply Hsel|done].
  - by replace (S fuel) with (fuel + 1)%nat by lia.
Qed.
End polling.
