(* ===== verification/Wiring.v ===== *)
(** * How a target's stores and client are put together

    [platformResourceFactory.NewResources] and [platformClientFactory.NewClient] of
    cmd/fortigate-external-dns/platform.go and the constructors they call, and the
    runner of a target with exclusive ownership as what target mode makes steps
    with; a nil argument is [None]. *)
From Stdlib Require Import String ZArith Lia.
From S2P Require Import Prelude Effects GoStrings NetIP GoEncoding Endpoint Queue Client Claims Manager Policy ChangePlans.
From S2P Require Import Document Executor Sources Gateways Runner Apply Polling.
From S2P Require Import Settings SettingsLaws Targets Runtimes RuntimesLaws StatusWriter Platform DynamicStore.
Open Scope string_scope.
Open Scope Z_scope.
Open Scope go_scope.

(** A constructor that only asks for its argument. *)
Definition required {A} (message : string) (x : option A) : result string A := match x with Some a => Ok a | None => Err message end.

Definition NewRepository {W} : option (ClaimStore W) -> result string (ClaimStore W) := required "ownership store is required".
Definition NewManager {W} : option (ClaimStore W) -> result string (ClaimStore W) := required "ownership repository is required".
Definition NewChangePlanStore {W} : option (PlanAPI W) -> result string (PlanAPI W) := required "dynamic change plan client is required".

Definition ListPolicies `{Selectors} : Type := string -> result string (list NamedPolicy).
Definition NewDynamicProvider `{Selectors} : option ListPolicies -> result string ListPolicies := required "dynamic policy client is required".
(** [Evaluator]: a complete snapshot of the policies, or none. *)
Definition DynamicProvider_Evaluator `{Selectors} `{MapRange} (PrefixString : Prefix -> string) (client : option ListPolicies) (namespaces : list string) (bounds : Bounds) : result string Evaluator :=
  let? client := NewDynamicProvider client in
  let? policies := list_all client namespaces in
  NewEvaluator PrefixString bounds policies.

(** ** NewResources *)

(** The dynamic client, by the kinds it is used for. *)
Record DynamicClient (W U : Type) := mkDynamicClient { dc_plans : PlanAPI W; dc_claims : string -> DynamicResource W U }.
Arguments dc_plans {W U}. Arguments dc_claims {W U}. Arguments mkDynamicClient {W U}.

Record StoreHandles (W : Type) := mkHandles { PlanStore : PlanAPI W; OwnershipManager : ClaimStore W; OwnershipRepository : ClaimStore W; StatusStore : Writer }.
Arguments PlanStore {W}. Arguments OwnershipManager {W}. Arguments OwnershipRepository {W}. Arguments StatusStore {W}. Arguments mkHandles {W}.

Definition NewResources {W U} `{Converter U} `{KeyValidation} (client : option (DynamicClient W U)) (retention : Z) (d : Definition_) : result string (StoreHandles W) :=
  let? planStore := NewChangePlanStore (dc_plans <$> client) in
  let? claimStore := NewDynamicStore (dc_claims <$> client) (D_Namespace d) in
  let? claimRepository := NewRepository (Some claimStore) in
  let? claimManager := NewManager (Some claimRepository) in
  let? writer := (let? _ := required "dynamic client is required" client in NewWriter (D_Namespace d) (D_Name d) (wrap_int32 retention)) in
  Ok (mkHandles planStore claimManager claimRepository writer).

(** A target's stores are its own: claims are read and written in the namespace of
    the target and nowhere else, through one store for both of its users, the
    status object is the one with the target's name, and there are no stores for
    a target without a namespace. *)
Theorem NewResources_scoped {W U} `{Converter U} `{KeyValidation} (client : option (DynamicClient W U)) retention d :
  match NewResources client retention d with
  | Ok h => exists cl, client = Some cl /\ TrimSpace (D_Namespace d) <> "" /\ IsDNS1123Subdomain (D_Name d) = [] /\
      PlanStore h = dc_plans cl /\ OwnershipManager h = DynamicStore (dc_claims cl (D_Namespace d)) /\ OwnershipRepository h = OwnershipManager h /\
      StatusStore h = mkWriter (D_Namespace d) (D_Name d) (normalizeRetention (wrap_int32 retention))
  | Err _ => client = None \/ TrimSpace (D_Namespace d) = "" \/ D_Namespace d = "" \/ IsDNS1123Subdomain (D_Name d) <> []
  end.
Proof.
  unfold NewResources, NewChangePlanStore, NewDynamicStore, NewRepository, NewManager, NewWriter. destruct client as [cl|]; cbn; [|by left].
  destruct (TrimSpace (D_Namespace d) =s "") eqn:E1; bools; cbn; [auto|]. destruct (D_Namespace d =s "") eqn:E2; bools; cbn; [auto|].
  case_bool_decide as E3; cbn; [|auto]. exists cl. auto 10.
Qed.

(** ** NewClient *)

(** [http.Client], as far as it is set up. *)
Record HTTPClient := mkHTTPClient { HC_Timeout : Z; HC_Transport : TransportPolicy }.
Definition transport_client (p : TransportPolicy) (timeout : Z) : HTTPClient := mkHTTPClient timeout p.

Record FortiClient := mkFortiClient { FC_cfg : FortiGateConfig; FC_httpClient : HTTPClient; FC_maxResponseBytes : Z }.

Section client.
Context `{KeyValidation} `{Settings.Platform}.

Definition fortigate_NewClient (cfg : FortiGateConfig) : result string FortiClient :=
  let? transportPolicy := newTransportPolicy cfg in
  Ok (mkFortiClient cfg (transport_client transportPolicy (FG_Timeout cfg)) defaultMaxResponseBytes).

Definition platform_NewClient (d : Definition_) (material : option CredentialMaterial) : result string FortiClient :=
  match material with
  | None => Err "credential material is required"
  | Some m => fortigate_NewClient (provider_config d m)
  end.

(** The transport for CA data in memory. *)
Lemma transport_exact cfg p : FG_CAFile cfg = "" -> newTransportPolicy cfg = Ok p ->
  p = mkTransportPolicy (FG_InsecureSkipVerify cfg) (if FG_CAData cfg =s "" then None else Some (FG_CAData cfg)) false /\
  0 < FG_Timeout cfg /\ exists u, url_Parse (FG_BaseURL cfg) = Some u /\ Scheme u = "https".
Proof.
  intros Hf E. unfold newTransportPolicy in E. apply rbind_ok in E as ([] & Ev & E).
  apply FortiGateConfig_Validate_ok in Ev as (u & Hu & Hs & _ & _ & _ & _ & _ & _ & Ht & _ & _). rewrite Hu in E.
  destruct (negb _); [done|]. unfold trusts_ca, ca_bundle in E. rewrite Hf in E. cbn in E. destruct (FG_CAData cfg =s ""); cbn in E.
  - injection E as <-. eauto.
  - destruct (AppendCertsFromPEM _); [|done]. injection E as <-. eauto.
Qed.

(** C13. Where a token goes: the client built from the resolved credentials of a
    target carries the token of the Secret the target names, and talks only to the URL
    the Secret's owner has bound it to, over https, within a time limit, without
    following redirects, and with the certificate verified.  If the target references
    a CA, the roots are the value found under the referenced key of the referenced
    Secret or ConfigMap of the target's namespace, which is not empty, and nothing
    else; only without a reference are they the system's. *)
Theorem token_sent_safely {W} (core : option (CoreReader W)) d w w' m c :
  D_Legacy d = false -> Resolve core d w = (w', Ok m) -> platform_NewClient d (Some m) = Ok c ->
  exists r ref secret token w1, core = Some r /\ D_APITokenSecretRef d = Some ref /\
    get_Secret r (D_Namespace d) (SR_Name ref) w = (w1, Ok secret) /\ Sec_Data secret !! SR_Key ref = Some token /\
    FG_APIToken (FC_cfg c) = TrimSpace token /\
    value_at (Sec_Annotations secret) TokenTargetAnnotation = D_Key d /\
    value_at (Sec_Annotations secret) TokenURLAnnotation = FG_BaseURL (FC_cfg c) /\
    value_at (Sec_Annotations secret) TokenCARefAnnotation = authorizedCARef (D_CARef d) /\
    (exists u, url_Parse (FG_BaseURL (FC_cfg c)) = Some u /\ Scheme u = "https") /\
    let transport := HC_Transport (FC_httpClient c) in
    TP_InsecureSkipVerify transport = false /\ TP_FollowsRedirects transport = false /\ 0 < HC_Timeout (FC_httpClient c) /\
    match D_CARef d with
    | None => TP_RootCAs transport = None
    | Some ca => exists bundle, referenced_ca r (D_Namespace d) ca w1 w' bundle /\ TP_RootCAs transport = Some bundle
    end.
Proof.
  intros Hl Hr Hc. destruct (token_bound_to_target core d w w' m Hl Hr) as (r & ref & secret & token & w1 & -> & Href & Hget & Htok & Hm & _ & Hskip & Ht & Hu & _ & Hca & Hroots).
  unfold platform_NewClient, fortigate_NewClient in Hc. apply rbind_ok in Hc as (p & Hp & [= <-]).
  destruct (transport_exact (provider_config d m) p eq_refl Hp) as (-> & Htime & Hurl).
  exists r, ref, secret, token, w1. cbn in Htime |- *. split_and!; try done.
  destruct (D_CARef d) as [ca|]; [|by rewrite Hroots]. exists (caBundle m). split; [done|].
  destruct (caBundle m =s "") eqn:Eb; [|done]. bools. by destruct Hroots.
Qed.
End client.

(** The part of a response that an error of the client quotes. *)
Definition truncateBody (raw : string) : string := if (400 <? String.length raw)%nat then String.substring 0 400 raw +:+ "..." else raw.

Lemma substring_length n s : (String.length (String.substring 0 n s) <= n)%nat.
Proof. revert n. induction s as [|c s IH]; intros [|n]; cbn; try lia. specialize (IH n). lia. Qed.
Lemma append_length a b : String.length (a +:+ b) = (String.length a + String.length b)%nat.
Proof. induction a as [|c a IH]; cbn; [done|]. by rewrite IH. Qed.

(** An error quotes a bounded part of what the device sent. *)
Theorem truncateBody_bounded raw : (String.length (truncateBody raw) <= 403)%nat.
Proof.
  unfold truncateBody. destruct (_ <? _)%nat eqn:E; [|apply Nat.ltb_ge in E; lia].
  rewrite append_length. pose proof (substring_length 400 raw). change (String.length "...") with 3%nat. lia.
Qed.

(** ** The runner of an exclusive target *)

Section exclusive.
Context {W : Type} `{Selectors} `{IDNA} `{KeyValidation} `{MapRange} (PrefixString : Prefix -> string).

(** What the process supplies: the cluster, the policies, the device behind a
    client, the plans, files and contexts, and the texts and sentinels of errors. *)
Record RunnerServices := mkRunnerServices {
  sv_cluster : W -> Cluster; sv_context : W -> nat -> option string;
  sv_policies : W -> string -> result string (list NamedPolicy);
  sv_device : nat -> Device W;
  sv_plans : PlanAPI W;
  sv_write_file : W -> string -> string -> W * option string;
  sv_ctx_err : W -> option string; sv_parent_err : W -> option string; sv_wraps_context : string -> bool;
  authority_text : AuthorityError -> string;
  audit_error : RunError -> AuditError }.
Context (sv : RunnerServices).

(** [BeforeMutation], also checked before each operation. *)
Definition authority_check (authority : M W AuthorityError unit) (w : W) : W * option string :=
  match authority w with (w, Ok _) => (w, None) | (w, Err e) => (w, Some (authority_text sv e)) end.
Definition CheckBeforeOperation (check : W -> W * option string) (dev : Device W) (w : W) : W * option string :=
  match ctxError dev w with (w, Some e) => (w, Some e) | (w, None) => check w end.
Definition WithBeforeOperation (check : W -> W * option string) (dev : Device W) : Device W :=
  mkDevice (Do dev) (sleep dev) (jitterDelay dev) (parseTime dev) (ctxError dev) (CheckBeforeOperation check dev) (unmarshalEnvelope dev) (unmarshalList dev).

(** The fields [buildTargetRunner] sets for a target that owns its zone. *)
Definition exclusive_env (check : option (W -> W * option string)) (runner : TargetRunner) (r : Runtime) : RunnerEnv (W := W) :=
  let d := R_Definition r in
  let dev := sv_device sv (R_client r) in
  mkRunnerEnv (sv_cluster sv) (sv_context sv) (if TR_Policies runner then Some (sv_policies sv) else None)
    (match check with Some f => WithBeforeOperation f dev | None => dev end)
    (mkClientConfig (D_Zone d) (if D_VDOM d =s "" then "root" else D_VDOM d) (D_Retries d)) None
    (if TR_ApprovalRequired runner then Some (sv_plans sv) else None) (TR_PlanNamespace runner) (TR_ApprovalRequired runner)
    (TR_PlanRetention runner) (TR_RequireStableRevision runner) (TR_Identity runner) (TR_TargetName runner) check (sv_write_file sv)
    (sv_ctx_err sv) (sv_parent_err sv) (sv_wraps_context sv).

Definition exclusive_prepare (runner : TargetRunner) (r : Runtime) : M W AuditError ReconcileAudit :=
  wrap (audit_error sv) (Prepare PrefixString (runner_config (TR_Config runner)) (exclusive_env None runner r)).

Definition exclusive_apply (authority : M W AuthorityError unit) (runner : TargetRunner) (r : Runtime) (audit : ReconcileAudit) (w : W)
    : W * (bool * option AuditError) :=
  let '(w, (approved, e)) :=
    ApplyPreparedWithResult PrefixString (runner_config (TR_Config runner)) (exclusive_env (Some (authority_check authority)) runner r) w audit in
  (w, (approved, audit_error sv <$> e)).

Definition exclusive_steps (has_stores : Runtime -> bool * bool) : RunnerSteps W := mkRunnerSteps has_stores exclusive_prepare exclusive_apply.

(** A gate that ends the cycle hands nothing to the provider. *)
Lemma gate_sends_nothing cfg (env : RunnerEnv (W := W)) w audit approved w1 report : plan_gate PrefixString cfg env w audit approved = (w1, inl report) -> Sent report = None.
Proof.
  unfold plan_gate, actionable_gate, persist, begin_apply, stop_stale, stop. intros E.
  repeat (case_match; simplify_eq/=; try done).
Qed.

(** Without authority the runner of an exclusive target sends nothing. *)
Theorem exclusive_apply_authorized authority runner r audit w w' report :
  (forall w1, exists w2 e, authority w1 = (w2, Err e)) ->
  applyPrepared PrefixString (runner_config (TR_Config runner)) (exclusive_env (Some (authority_check authority)) runner r) w audit = (w', report) ->
  Sent report = None /\ exclusive_apply authority runner r audit w = (w', (PlanApproved report, audit_error sv <$> Apply_error report)).
Proof.
  intros Ha E. split; [|unfold exclusive_apply, ApplyPreparedWithResult; by rewrite E]. unfold applyPrepared in E.
  destruct (ctx_err _ w); [by injection E as _ <-|]. match type of E with context [if ?b then ?x else ?y] => set (g := if b then x else y) in E end.
  destruct g as [w1 [rep|[ok name]]] eqn:Eg.
  - injection E as _ <-. unfold g in Eg. case_match; [by eapply gate_sends_nothing|done].
  - cbn [before_mutation exclusive_env] in E. unfold authority_check in E at 1. destruct (Ha w1) as (w2 & e & Hw). rewrite Hw in E.
    unfold stop_stale, stop in E. by injection E as _ <-.
Qed.
End exclusive.
