(* ===== verification/EdgeExamples.v ===== *)
(** * Clients, caches and rounds, concretely

    The theorems about the client of a target, about slices from a cache, and
    about polling, applied to the target and the cluster of the other examples. *)
From Stdlib Require Import String Ascii ZArith Lia.
From S2P Require Import Prelude Effects GoStrings NetIP GoEncoding Endpoint Plan Document Executor Queue Client Policy Sources Gateways.
From S2P Require Import ChangePlans Runner Apply RunnerExamples Claims Settings Targets Runtimes TargetExamples SliceCache Polling Wiring.
Open Scope string_scope.
Open Scope list_scope.
Open Scope Z_scope.
Open Scope go_scope.

#[local] Existing Instances canonical_range dns1123_keys ascii_idna label_selectors small_platform.

(** ** A target's client *)

(** A target that trusts the certificates of a ConfigMap. *)
Definition pinned : Definition_ := (validateDefinition (FromAPI (mkTargetObject "edge" "com" "com-uid" "7" 1
  (mkTargetSpec "https://fw.example.com" "root" "example.com" (mkSecretRef "token" "value" None) (Some (mkLocalRef "ConfigMap" "ca" "ca.crt")) false
     OwnershipModeShared "ctl" ["service"] [] [] [] "" false "" false 0 0 0 2 300 false false)))).1.

Definition pinned_secret : Secret :=
  mkSecret "s1" "12" {[TokenTargetAnnotation := "edge/com"; TokenURLAnnotation := "https://fw.example.com"; TokenKeyAnnotation := "value";
    TokenCARefAnnotation := "configmap/ca/ca.crt"]} {["value" := " t0ken "]}.
Definition pinned_reader : CoreReader Fleet := mkCoreReader
  (fun ns name w => (w, if (ns =s "edge") && (name =s "token") then Ok pinned_secret else Err NotFound))
  (fun ns name w => (w, if (ns =s "edge") && (name =s "ca") then Ok (mkConfigMap "c1" "3" ∅ {["ca.crt" := "CERTIFICATE edge"]}) else Err NotFound)).

Lemma token_sent_safely_witness : exists w m c, Resolve (Some pinned_reader) pinned no_fleet = (w, Ok m) /\
  platform_NewClient pinned (Some m) = Ok c /\ FG_APIToken (FC_cfg c) = "t0ken" /\
  TP_InsecureSkipVerify (HC_Transport (FC_httpClient c)) = false /\ TP_RootCAs (HC_Transport (FC_httpClient c)) = Some "CERTIFICATE edge".
Proof.
  destruct (Resolve (Some pinned_reader) pinned no_fleet) as [w [m|e]] eqn:E; [|vm_compute in E; discriminate].
  destruct (platform_NewClient pinned (Some m)) as [c|e] eqn:Ec; [|vm_compute in E; injection E as <- <-; vm_compute in Ec; discriminate].
  exists w, m, c. split; [reflexivity|]. split; [exact Ec|].
  destruct (token_sent_safely (Some pinned_reader) pinned no_fleet w m c) as (r & ref & s & t & w1 & Hr & Hf & Hs & Ht & Htok & _ & _ & _ & _ & Hi & _ & _ & Hroots);
    [vm_compute; reflexivity|exact E|exact Ec|].
  injection Hr as <-. vm_compute in Hf. injection Hf as <-. cbn in Hs. injection Hs as <- <-. vm_compute in Ht. injection Ht as <-.
  split; [rewrite Htok; vm_compute; reflexivity|]. split; [exact Hi|].
  destruct Hroots as (bundle & (_ & [(Hk & _)|(_ & cm & Hcm & Hv)]) & ->); [vm_compute in Hk; discriminate|].
  cbn in Hcm. injection Hcm as _ <-. destruct Hv as [Hv|[_ Hv]]; vm_compute in Hv; [discriminate|by injection Hv as <-].
Defined.

(** ** A headless Service and its slices *)

Definition headless : Service :=
  mkService "web" "db" "uid-2" ∅ {[ AnnotationHostname := "db.example.com"; AnnotationPublishHeadless := "true" ]} "ClusterIP" "" "None" [] [] false [].
Definition slice_of (name : string) (service : option string) : EndpointSlice :=
  mkSlice "web" name (match service with Some s => {[ LabelServiceName := s ]} | None => ∅ end) "IPv4" [].
Definition slice_a := slice_of "db-a" (Some "db").
Definition slice_b := slice_of "db-b" (Some "db").
Definition slice_unlabelled := slice_of "other" None.

(** The cache lists in an order of its own, and the slice without a label too. *)
Definition slice_clients : SliceClients :=
  mkSliceClients (Some (fun _ => Ok [slice_b; slice_unlabelled; slice_a])) (Some true) None (fun _ sel => Ok (filter (fun s => sel s = true) [slice_a; slice_b; slice_unlabelled])).
Definition headless_options : Options := mkOptions ["service"] [] [] ["example.com"] 300 "example.com" "me" false true None 0 0.

Definition seen_slices : Discovered * gmap string (list EndpointSlice) :=
  discover_slices (with_slices slice_clients one_service) headless_options "web" [headless] empty_result.

Lemma cached_slices_exact_witness :
  map Slice_Name (default [] (seen_slices.2 !! "db")) = ["db-a"; "db-b"] /\
  seen_slices = discover_slices (with_slices (without_cache slice_clients) one_service) headless_options "web" [headless] empty_result.
Proof.
  split; [vm_compute; reflexivity|].
  refine (proj2 (cached_slices_exact slice_clients (fun _ => Ok [slice_b; slice_unlabelled; slice_a]) one_service headless_options "web" [headless] empty_result
    eq_refl) eq_refl [slice_b; slice_unlabelled; slice_a] [slice_a; slice_b] [slice_a; slice_b; slice_unlabelled] eq_refl _ _ eq_refl _); try reflexivity.
  - symmetry. apply (Permutation_cons_append [slice_b; slice_unlabelled] slice_a).
  - intros x y Hx Hy. repeat (apply elem_of_cons in Hx as [->|Hx]); repeat (apply elem_of_cons in Hy as [->|Hy]); try done;
      first [by apply elem_of_nil in Hx|by apply elem_of_nil in Hy].
Defined.

(** ** Rounds that fail *)

(** Nothing is observed, and the ticker always fires first. *)
Definition ticking : Observers (W := list ChangePlan) := mkObservers (fun _ w => w) (fun _ _ w => w) (fun w => w) (fun _ w => w) (fun w => (w, true)).

(** A cluster that cannot be listed: every cycle ends with an error. *)
Definition failing_env : RunnerEnv (W := list ChangePlan) :=
  mkRunnerEnv (fun _ => mkCluster (fun _ => Err "unavailable") (fun _ => Ok []) (fun _ => Ok []) (fun _ => Ok []) (fun _ => Ok []) (fun _ => Ok ∅)) (fun _ => alive)
    None empty_device (mkClientConfig "example.com" "root" 2) None None "dns" false 20 false (mkTargetIdentity "dns" "edge" "uid-t" 1 "root" "example.com") "edge"
    None (fun w _ _ => (w, None)) (fun _ => None) (fun _ => None) (fun _ => false).
Example unlisted_cycle_fails : is_Some (observed_RunOnce no_prefix (ex_config false []) failing_env ticking []).2.
Proof. vm_compute. eauto. Qed.

Lemma polling_goes_on_witness : exists w',
  Run no_prefix (ex_config false []) failing_env ticking 2 [] = (w', None) /\ rounds no_prefix (ex_config false []) failing_env ticking 3 [] w'.
Proof.
  destruct (Run no_prefix (ex_config false []) failing_env ticking 2 []) as [w' r] eqn:E. exists w'.
  pose proof (polling_goes_on no_prefix (ex_config false []) failing_env ticking 2 [] w' r ltac:(intros v v' Hs; discriminate Hs) E) as H.
  destruct r as [e|]; [exfalso; vm_compute in E; discriminate E|]. split; [reflexivity|exact H].
Defined.
